(* ===== verification/_CoqProject ===== *)
-Q . S2P
Prelude.v
Sha256.v
GoStrings.v
GoJson.v
Netip.v
GoFloat.v
GoNet.v
Fipsaddr.v
FipsaddrVectors.v
FipsaddrFacts.v
Authzhash.v
Nostr.v
GoText.v
RateLimit.v
Metrics.v
MetricsFacts.v
Tokens.v
Dispatch.v
DispatchFacts.v
Listener.v
Captive.v
CaptiveFacts.v
GateExamples.v
AgentTypes.v
AgentStore.v
AgentUsage.v
Agent.v
AgentFacts.v
AgentClient.v
AgentWg.v
AgentWgFacts.v
AgentRun.v
AgentNft.v
AgentNftFacts.v
AgentExamples.v
BackendMigrate.v
BackendDB.v
BackendAuthz.v
BackendAuthzFacts.v
BackendUsage.v
BackendUsageFacts.v
BackendWhitelist.v
BackendWhitelistFacts.v
BackendConsent.v
BackendPayments.v
BackendPaymentsFacts.v
BackendSales.v
BackendCashu.v
BackendWg.v
BackendWgFacts.v
BackendSummary.v
BackendSummaryFacts.v
BackendApi.v
BackendApiFacts.v
BackendNotify.v
BackendAdmin.v
BackendFrame.v
PortalFormat.v
Portal.v
PortalFacts.v
PortalCashu.v
Backend.v
BackendFacts.v
BackendRails.v
BackendConfig.v
BackendExamples.v
PortalExamples.v
BackendProcessExamples.v
System.v
SystemWg.v
SystemWire.v
SystemRun.v
SystemExamples.v
FakePhoenixd.v
FakeBtcpay.v
FakePay.v
FakePayFacts.v
FakeBackend.v
Tools.v
BackendMetrics.v
