(* ===== verification/Prelude.v ===== *)
(** * fips-exit-gate: a verified model

    fips-exit-gate sells access to the internet to the nodes of a mesh network in
    which a node's IPv6 address is derived from its key (its npub).  An exit runs
    an agent that keeps a kernel set of authorized addresses and meters their
    traffic; a backend keeps accounts, sells packages and decides which addresses
    are authorized; a portal lets people sign in, buy and share access.

    ** The parts and how they interact

    - pkg/fipsaddr derives an address from an npub and validates npubs; every other
      part relies on it.  pkg/authzhash fingerprints a set of addresses;
      pkg/captivetoken signs the hint the captive page hands to the portal.
    - The agent (agent/) long-polls the backend for the authorized set (full sets
      and deltas), applies it to the firewall, collects byte counters into
      reports it buffers and delivers, and sends heartbeats with the fingerprint of
      its live set.  Its cursor, baselines and buffer survive crashes in a state
      file.  When the backend is unreachable for longer than the grace window it
      empties the set.  It also mirrors the backend's WireGuard peers onto the
      exit's interface.
    - On the exit, authorized clients reach the SOCKS dispatcher (dispatch/), which
      forwards each request to Tor or to the clearnet proxy; everybody else is
      redirected by the kernel to the captive daemon (captive/), which answers HTTP
      with a redirect to the portal.
    - The backend's store (backend/store) is a PostgreSQL schema with one Go
      function per operation: accounts and whitelist rows (an address is attributed
      to one account at a time, and moves only with consent), entitlements, the
      materialized authorized set with its revision log, usage ingest and volume
      accounting, packages and purchases, WireGuard peers, exit nodes.
    - The API (backend/api.go) serves the agents, the webhooks and the poller settle
      purchases through one of two payment rails, Cashu tokens are redeemed at their
      mints, the portal (backend/portal.go) serves people and the admin API the
      operator; backend/main.go puts them behind two listeners with their tickers.
      pkg/metrics counts what happens for Prometheus.

    ** Files

    Generic and library code:
    - [Prelude]: results, the state monad, machine integers and time, map iteration
      in any order, list lemmas, the hint database [fips].
    - [Sha256], [GoStrings], [GoJson], [GoText], [Netip], [GoNet], [GoFloat]: the parts
      of Go's crypto/sha256, crypto/hmac, strings, strconv (the shortest decimals of a
      float included), encoding/hex, encoding/base64, encoding/json (values in [GoJson];
      texts, escapes, limits and the fields of structs in [GoText]), the RFC 3339 texts
      of time, net/netip, net and net/url that the program calls, executable, with their
      round trips.

    pkg/:
    - [Fipsaddr] (npub.go, fipsaddr.go), [FipsaddrVectors] (the test vectors
      evaluated), [FipsaddrFacts]; [Authzhash]; [Tokens] (captivetoken/token.go, and
      backend/session.go and nostr/challenge.go, which share its shape); [Metrics]
      (metrics/metrics.go: registry, concurrent additions, text format) and
      [MetricsFacts].

    agent/:
    - [AgentTypes] (types.go, and the [Firewall] and [WgIface] interfaces of
      firewall.go and wg.go as type classes with the contract their comments
      state), [AgentStore] (state.go, against a file system that can lose power at
      every stage), [AgentUsage] (usage.go), [Agent] (agent.go, metrics.go: one
      definition per loop iteration), [AgentFacts]; [AgentWg] (wg.go) and
      [AgentWgFacts]; [AgentRun] ([Run] of agent.go: the loops as programs over single
      calls, side by side, and what holds however they interleave); [AgentNft] (firewall.go: the scripts fed to nft and the decoding
      of its listings) and [AgentNftFacts], an instance of [Firewall]; [AgentClient]
      (client.go, main.go); [AgentExamples].

    dispatch/ and captive/:
    - [Dispatch] (socks.go, route.go, main.go: connections as byte streams with
      failing writes, an error monad over them) and [DispatchFacts]; [Captive]
      (socks.go, redirect.go, main.go, metrics.go) and [CaptiveFacts]; [Listener]
      (the accept loops, the two copies of a tunnel and the end of the backend
      process, as step relations); [GateExamples].

    backend/store/:
    - [BackendMigrate] (store.go: opening, migrations, readiness, for any number of
      processes at once), [BackendDB] (the tables, transactions), [BackendAuthz] (authz.go),
      [BackendUsage] (usage.go, retention.go), [BackendWhitelist] (whitelist.go,
      admin.go), [BackendPayments] (packages.go, payments.go, and the webhook
      handlers, signature checks and poller around them), [BackendWg] (wg.go,
      and backend/wg.go), [BackendSummary] (portal.go), and in [BackendApi] nodes.go.
      Theorems: [BackendAuthzFacts], [BackendUsageFacts], [BackendWhitelistFacts]
      and [BackendConsent], [BackendPaymentsFacts] and [BackendSales],
      [BackendWgFacts], [BackendSummaryFacts].

    backend/:
    - [BackendApi] (api.go, the authentication of main.go) and [BackendApiFacts];
      [BackendNotify] (notify.go, the listener of store/authz.go, the sleeping of a
      long poll); [BackendAdmin] (admin.go); [Nostr] (nostr/nostr.go); [RateLimit]
      (ratelimit.go, on IEEE 754 binary64); [Portal] (portal.go, qr.go),
      [PortalFormat] (its number formats) and [PortalFacts]; [BackendCashu] (payments/cashu.go) and
      [PortalCashu] (the pay and Cashu routes); [BackendRails] (payments/btcpay.go,
      phoenixd.go: the clients of the rails).
    - [Backend] (main.go: routes, middleware, readiness, tickers, restarts, as events
      of one process), [BackendFrame] and [BackendFacts]; [BackendConfig] (main.go,
      payments_config.go: start-up from the environment); [BackendMetrics]
      (metrics.go, store/metrics.go: a scrape).
    - [BackendExamples], [PortalExamples], [BackendProcessExamples]: small deployments
      the theorems are instantiated on.

    The whole: [System] composes the agent's loops with the API on a database that
    changes meanwhile, [SystemWg] its peer loop with the peer table, [SystemWire] the
    agent's client with the routes of the process, over methods, URLs, headers and the
    bytes of the bodies both ways, [SystemRun] the interleaved loops of an agent with the transactions of the backend;
    [SystemExamples] runs them, the interleavings with a scheduler.

    cmd/ and the rest of pkg/:
    - [FakePhoenixd], [FakeBtcpay] and, with the mint, [FakePay]: the payment doubles,
      one definition per handler, with their routes; [FakePay] also wires them to the
      clients and webhooks of the backend, and [FakePayFacts] has the flows they stand
      in for.  [FakeBackend]: the in-memory backend and the agent against it.
    - [Tools]: cmd/fips-derive, pkg/version, pkg/logging.

    ** What the theorems show

    - The exit follows the backend: one answered poll makes the kernel set the
      backend's set of a moment during the poll, whatever the history and the
      compactions; a drifted set is detected by the next heartbeat, and the next poll
      heals it unless the mass-revoke guard refuses; a delta is exact; a full or delta
      response is applied on every branch as specified; an outage is timed from the last
      answer, to the minute across restarts.  The calls of the client reach the handlers
      with their values, up to the limit of a body, and return their answers; however
      its loops interleave with each other and with the backend, the kernel set never
      holds an address the backend did not authorize; no
      wake-up of a sleeping poll is lost, however the listener's session fails, and the
      steps and pauses to its answer are counted; and
      the nft implementation keeps the contract the agent's theorems rely on.
    - The process: whatever requests, ticks and restarts follow each other, the store
      stays well formed; no request changes it without the authority its route
      demands, and no page of another site can act for a browser; a backend that
      starts is not missing a secret; migrations are applied once and in order by
      whoever opens the database; a scrape tells the truth, and concurrent additions to
      a counter are all counted.
    - Metering: samples never exceed the traffic and none is lost or billed twice;
      delivery terminates and keeps order; a report charges each account exactly
      its weighted bytes; the weighting does not overflow within its bound; rolling
      raw samples up conserves every total; a crash leaves the state before or after.
    - Consent: whitelist rows stay well formed, one account per address; an address
      leaves its account only by an act of its own identity or of that account; and
      over HTTP, no request does that unless it is authenticated as one of the two.
      Every change a portal request makes is an action of an identity it
      authenticated.
    - Sales: a purchase is settled exactly when its entitlement exists, settlement
      is final and unlocks the buyer, webhooks and poller grant nothing else, unpaid
      purchases are bounded, the status check tells the truth; ecash reaches a mint
      only for the invoice of an open purchase, and covers it; both rails charge the
      price; and with the doubles of cmd/ around the backend, ecash redeemed at the
      mint becomes a signed webhook that unlocks the buyer.
    - Identity: npubs round trip and a single typo is always caught; derived
      addresses are in fd00::/8; tokens, cookies and challenges verify to what was
      signed, a challenge once; the text signed in a login determines every field;
      an enrollment token admits one node.
    - WireGuard: inner addresses and keys are distinct, inside the pools; a peer is
      issued as specified on every path; the etag tracks the table; nothing typed by
      a user can add a line to a client configuration; an iteration of the agent's
      loop that fetches the table leaves exactly the issued peers on the interface,
      whatever was there, one at an unchanged etag leaves it alone;
      and a row the tool refuses blocks no other; the dump of wg is read back.
    - The gate: the dispatcher forwards address, port and reply byte for byte and
      reports no success the upstream did not report; idle tunnels are closed
      within their bound, streams arrive in order and complete, and no more connections
      are handled at a time than configured; the captive redirect carries a token for the client's own
      address, and no header of the client can alter the response.

    ** Conventions, bounds and fuel

    Strings and byte slices are lists of byte values in Z; int64 arithmetic keeps its
    wrap-around ([i64]); instants are nanoseconds since year 1, as Go's zero time.
    Errors are values of [result]; a failed call keeps the state it reached.  A map
    is iterated in an arbitrary order ([MapIter]): theorems hold for all of them.
    Fuel: printing a number uses one step per binary digit ([Z.log2]); [convertBits]
    one per bit held; [flushBuffer] one per buffered report and one more, and its
    theorem says that many suffice; [consumeVolume] likewise per row; the slot
    search of a WireGuard peer is the code's own bound of 64; the JSON decoder two per
    byte and one more ([Decode_Marshal]), with Go's own bound of 10000 on the nesting;
    the JSON string encoder
    and the header scan of the captive daemon one per byte ([hostFromHeaders_fuel]);
    the watchdog one per tick, and its theorem gives a sufficient number.  The search
    for the shortest decimals of a float tries at most 635 decimal places, which its
    lemma ([shortest_found]) shows to be enough, and reading a label set back takes one step
    per byte.  SQL text order is any total order; NULLs, unique indexes and foreign
    keys are checked where a statement meets them.

    Arguments (code outside this repository): the Schnorr routines of btcec, the
    JSON decoder of the payment webhooks and url.Parse, the transport to the payment rails, the SOCKS
    client, the Cashu library and the mints (the classes [CashuLib] and [Mints]), the
    reading of a numeric by the SQL driver (the class [Driver]), the nft and wg
    commands, the kernel behind the interfaces [Firewall] and [WgIface] (both with
    in-memory instances), the nodes' upstream proxies, the image of a QR code, the
    Unicode tables of Go's strings package (the class [GoUnicode]), the environment,
    the figures of the Go runtime, the clock and the random source.

    ** Not modelled

    HTML templates; the text of JSON bodies outside the agent's calls (elsewhere
    messages are typed or JSON values); the
    matching of paths but for the agent's calls and the doubles (a request names its
    route); HTTP timeouts and keep-alive; the connection pool, connection failures of
    the database and concurrent transactions (each operation is atomic as its
    transaction makes it, and sequences of operations are explicit); log lines; command
    line flags; the jitter of a retry; the socket query of dispatch/relay_linux.go, the
    calls of os/exec around nft and wg, the SOCKS5 dialer and the parsing of the two
    WireGuard prefixes, which are arguments.

    ** Plan

    What is left is plumbing around libraries: pgx, net/http, os/exec, html/template and
    the system calls. *)

From Stdlib Require Export ZArith Lia.
From stdpp Require Export base gmap sets sorting strings fin_maps option list.

Open Scope Z_scope.

(** ** Results

    Go functions that return [(T, error)] are modelled as [result E T].  The
    error type is chosen per component and keeps the distinctions callers
    make. *)

Inductive result (E A : Type) : Type :=
| Ok (a : A)
| Err (e : E).
Arguments Ok {E A} a.
Arguments Err {E A} e.

#[export] Instance result_ret {E} : MRet (result E) := fun A a => Ok a.
#[export] Instance result_bind {E} : MBind (result E) :=
  fun A B f r => match r with Ok a => f a | Err e => Err e end.
#[export] Instance result_fmap {E} : FMap (result E) :=
  fun A B f r => match r with Ok a => Ok (f a) | Err e => Err e end.

#[export] Instance result_eq_dec {E A} `{EqDecision E, EqDecision A} :
  EqDecision (result E A).
Proof. solve_decision. Defined.

Definition is_ok {E A} (r : result E A) : bool :=
  match r with Ok _ => true | Err _ => false end.

Definition of_option {E A} (e : E) (o : option A) : result E A :=
  match o with Some a => Ok a | None => Err e end.

(** ** State

    Methods that mutate their receiver run in a state monad; an error is a value
    of their result, so the state reached when a call fails is still there. *)

Definition State (S A : Type) : Type := S -> A * S.

#[export] Instance state_ret {S} : MRet (State S) := fun A a s => (a, s).
#[export] Instance state_bind {S} : MBind (State S) :=
  fun A B f m s => let '(a, s') := m s in f a s'.

Definition get {S} : State S S := fun s => (s, s).
Definition gets {S A} (f : S -> A) : State S A := fun s => (f s, s).
Definition put {S} (s : S) : State S unit := fun _ => (tt, s).
Definition modify {S} (f : S -> S) : State S unit := fun s => (tt, f s).
Definition when {S} (c : bool) (m : State S unit) : State S unit := if c then m else mret tt.

(** [embed get set m] runs [m] on a component of the state (a field holding a
    pointer to another object). *)
Definition embed {S T A} (proj : S -> T) (inj : T -> S -> S) (m : State T A) : State S A :=
  fun s => let '(a, t) := m (proj s) in (a, inj t s).

(** [for _, x := range l { body }] *)
Fixpoint for_each {S A} (body : A -> State S unit) (l : list A) : State S unit :=
  match l with
  | [] => mret tt
  | x :: r => body x ;; for_each body r
  end.

Arguments get {S} / _.
Arguments gets {S A} f / _.
Arguments put {S} s / _.
Arguments modify {S} f / _.

(** ** Machine integers

    Go integers are [Z] with the wrap-around of their width written out. *)

Definition u8  (z : Z) : Z := z mod 2 ^ 8.
Definition u16 (z : Z) : Z := z mod 2 ^ 16.
Definition u32 (z : Z) : Z := z mod 2 ^ 32.
Definition u64 (z : Z) : Z := z mod 2 ^ 64.
Definition i64 (z : Z) : Z := (z + 2 ^ 63) mod 2 ^ 64 - 2 ^ 63.

Definition int64_max : Z := 2 ^ 63 - 1.
Definition int64_min : Z := - 2 ^ 63.

Definition in_u8  (z : Z) : Prop := 0 <= z < 2 ^ 8.
Definition in_u16 (z : Z) : Prop := 0 <= z < 2 ^ 16.
Definition in_u32 (z : Z) : Prop := 0 <= z < 2 ^ 32.
Definition in_u64 (z : Z) : Prop := 0 <= z < 2 ^ 64.
Definition in_i64 (z : Z) : Prop := int64_min <= z <= int64_max.

Lemma u8_small z : in_u8 z -> u8 z = z.
Proof. apply Z.mod_small. Qed.
Lemma u32_small z : in_u32 z -> u32 z = z.
Proof. apply Z.mod_small. Qed.
Lemma u64_small z : in_u64 z -> u64 z = z.
Proof. apply Z.mod_small. Qed.
Lemma i64_small z : in_i64 z -> i64 z = z.
Proof.
  unfold in_i64, i64, int64_min, int64_max. intros H.
  rewrite Z.mod_small by lia. lia.
Qed.

(** ** Time

    [time.Time] is nanoseconds since the zero time (January 1, year 1); a
    [time.Duration] is an int64 of nanoseconds, and [Time.Sub] saturates. *)

Definition saturate64 (z : Z) : Z := Z.max int64_min (Z.min int64_max z).
Definition time_Sub (t u : Z) : Z := saturate64 (t - u).
Definition time_IsZero (t : Z) : bool := t =? 0.
Definition time_Second : Z := 1000000000.
Definition time_Minute : Z := 60 * time_Second.
(** Seconds between the zero time and January 1, 1970. *)
Definition unix_epoch : Z := 62135596800.
Definition time_Unix (t : Z) : Z := t / time_Second - unix_epoch.

Create HintDb fips discriminated.
#[export] Hint Resolve u8_small u32_small u64_small i64_small : fips.

(** ** Tactics *)

Tactic Notation "inv" hyp(H) := inversion H; subst; clear H.

(** Case analysis on the innermost scrutinee of a [match] or [if]. *)
Ltac case_scrutinee :=
  match goal with
  | |- context [match ?x with _ => _ end] =>
      lazymatch x with
      | context [match _ with _ => _ end] => fail
      | _ => let E := fresh "E" in destruct x eqn:E
      end
  end.
Ltac case_scrutinee_in H :=
  match type of H with
  | context [match ?x with _ => _ end] =>
      lazymatch x with
      | context [match _ with _ => _ end] => fail
      | _ => let E := fresh "E" in destruct x eqn:E
      end
  end.

(** Turn boolean tests in the context into propositions. *)
Ltac bool_hyps :=
  repeat match goal with
  | H : _ && _ = true |- _ => apply andb_true_iff in H as [? ?]
  | H : _ || _ = false |- _ => apply orb_false_iff in H as [? ?]
  | H : negb _ = true |- _ => apply negb_true_iff in H
  | H : negb _ = false |- _ => apply negb_false_iff in H
  | H : (_ <? _) = true |- _ => apply Z.ltb_lt in H
  | H : (_ <? _) = false |- _ => apply Z.ltb_ge in H
  | H : (_ <=? _) = true |- _ => apply Z.leb_le in H
  | H : (_ <=? _) = false |- _ => apply Z.leb_gt in H
  | H : (_ =? _) = true |- _ => apply Z.eqb_eq in H
  | H : (_ =? _) = false |- _ => apply Z.eqb_neq in H
  | H : bool_decide _ = true |- _ => apply bool_decide_eq_true in H
  | H : bool_decide _ = false |- _ => apply bool_decide_eq_false in H
  end.

(** ** Go's map iteration

    [for k, v := range m] visits the entries of [m] in an unspecified order.
    Definitions that iterate a map take the order from this class, so that
    their theorems hold for every order.  A [map[K]struct{}] is a [gset]. *)

Class MapIter := {
  map_range : forall {K} `{Countable K} {V}, gmap K V -> list (K * V);
  map_range_perm : forall {K} `{Countable K} {V} (m : gmap K V),
    map_range m ≡ₚ map_to_list m;
  set_range : forall {K} `{Countable K}, gset K -> list K;
  set_range_perm : forall {K} `{Countable K} (s : gset K), set_range s ≡ₚ elements s
}.

(** The order of stdpp's [map_to_list], used where a theorem is evaluated. *)
#[export] Instance canonical_iter : MapIter | 100 :=
  {| map_range := fun K _ _ V m => map_to_list m;
     map_range_perm := fun K _ _ V m => reflexivity _;
     set_range := fun K _ _ s => elements s;
     set_range_perm := fun K _ _ s => reflexivity _ |}.

Section MapIterFacts.
Context `{MI : MapIter} {K : Type} `{Countable K} {V : Type}.
Implicit Types m : gmap K V.

Lemma elem_of_map_range m k v : (k, v) ∈ map_range m <-> m !! k = Some v.
Proof. rewrite map_range_perm. apply elem_of_map_to_list. Qed.

Lemma NoDup_fst_map_range m : NoDup (map_range m).*1.
Proof. rewrite map_range_perm. apply NoDup_fst_map_to_list. Qed.

Lemma length_map_range m : length (map_range m) = size m.
Proof. rewrite map_range_perm. apply length_map_to_list. Qed.

Lemma elem_of_set_range (s : gset K) k : k ∈ set_range s <-> k ∈ s.
Proof. rewrite set_range_perm. apply elem_of_elements. Qed.

Lemma NoDup_set_range (s : gset K) : NoDup (set_range s).
Proof. rewrite set_range_perm. apply NoDup_elements. Qed.

Lemma length_set_range (s : gset K) : length (set_range s) = size s.
Proof. by rewrite set_range_perm. Qed.
End MapIterFacts.

(** ** Lists *)

Lemma filter_all {A} (P : A -> Prop) `{!forall x, Decision (P x)} (l : list A) :
  Forall P l -> filter P l = l.
Proof.
  induction 1 as [|x l Hx Hl IH]; [done|]. by rewrite filter_cons_True, IH.
Qed.

Lemma filter_none {A} (P : A -> Prop) `{!forall x, Decision (P x)} (l : list A) :
  Forall (fun x => ~ P x) l -> filter P l = [].
Proof.
  induction 1 as [|x l Hx Hl IH]; [done|]. by rewrite filter_cons_False.
Qed.

Lemma NoDup_fst_filter {A B} (P : A * B -> Prop) `{!forall x, Decision (P x)} (l : list (A * B)) :
  NoDup l.*1 -> NoDup (filter P l).*1.
Proof.
  induction l as [|[a b] l IH]; [done|]. rewrite fmap_cons. intros [Hni ND]%NoDup_cons.
  rewrite filter_cons. destruct (decide (P (a, b))); [|by apply IH].
  rewrite fmap_cons. apply NoDup_cons. split; [|by apply IH]. intros Hin. apply Hni.
  apply list_elem_of_fmap in Hin as (x & -> & Hin). apply list_elem_of_filter in Hin as [_ Hin].
  apply list_elem_of_fmap. by exists x.
Qed.

Lemma Forall_filter_weaken {A} (P Q : A -> Prop) `{!forall x, Decision (P x)} (l : list A) :
  Forall Q l -> Forall Q (filter P l).
Proof.
  rewrite !Forall_forall. intros HQ x Hx. apply list_elem_of_filter in Hx as [_ Hx]. by apply HQ.
Qed.

(** Rows with distinct keys are determined by their key. *)
Lemma NoDup_key_inj {A B} (f : A -> B) (l : list A) x y :
  NoDup (f <$> l) -> x ∈ l -> y ∈ l -> f x = f y -> x = y.
Proof.
  intros ND Hx Hy E. apply list_elem_of_lookup in Hx as [i Hi]. apply list_elem_of_lookup in Hy as [j Hj].
  assert (i = j); [|congruence].
  eapply NoDup_lookup; [exact ND| |]; rewrite list_lookup_fmap; [by rewrite Hi|]. rewrite Hj. cbn. by rewrite E.
Qed.

Lemma Forall_weaken {A} (P Q : A -> Prop) (l : list A) :
  Forall P l -> (forall x, P x -> Q x) -> Forall Q l.
Proof. intros H HPQ. induction H; constructor; auto. Qed.

Lemma Forall_impl_in {A} (P Q : A -> Prop) (l : list A) :
  Forall P l -> (forall x, x ∈ l -> P x -> Q x) -> Forall Q l.
Proof. rewrite !Forall_forall. auto. Qed.

(** Filing rows with distinct keys one after the other. *)
Lemma foldl_insert_map `{Countable K} {V} (l : list (K * V)) : NoDup (map fst l) ->
  foldl (fun m kv => <[kv.1 := kv.2]> m) (∅ : gmap K V) l = list_to_map l.
Proof.
  assert (G : forall m : gmap K V, NoDup (map fst l) -> foldl (fun m kv => <[kv.1 := kv.2]> m) m l = list_to_map l ∪ m).
  { induction l as [|[k v] l IH]; intros m ND; [cbn; by rewrite map_empty_union|]. cbn in ND. apply NoDup_cons in ND as [Hk ND].
    cbn [foldl fst snd]. rewrite IH by done. cbn [list_to_map foldr uncurry]. rewrite <- insert_union_l, insert_union_r; [done|].
    by apply not_elem_of_list_to_map_1. }
  intros ND. rewrite G by done. apply map_union_empty.
Qed.

(** ** Sums *)

Definition zsum {A} (f : A -> Z) (l : list A) : Z := foldr (fun x acc => f x + acc) 0 l.

Lemma zsum_perm {A} (f : A -> Z) l l' : l ≡ₚ l' -> zsum f l = zsum f l'.
Proof. induction 1; unfold zsum in *; simpl; lia. Qed.

Lemma zsum_app {A} (f : A -> Z) l l' : zsum f (l ++ l') = zsum f l + zsum f l'.
Proof. induction l as [|x l IH]; unfold zsum in *; simpl in *; [done|lia]. Qed.

Lemma zsum_cons {A} (f : A -> Z) x l : zsum f (x :: l) = f x + zsum f l.
Proof. done. Qed.

Lemma zsum_nonneg {A} (f : A -> Z) l : Forall (fun x => 0 <= f x) l -> 0 <= zsum f l.
Proof. induction 1; unfold zsum in *; simpl in *; lia. Qed.

Lemma zsum_ext {A} (f g : A -> Z) l : Forall (fun x => f x = g x) l -> zsum f l = zsum g l.
Proof. induction 1; unfold zsum in *; simpl in *; lia. Qed.

(** ** Positional notation

    [digits_be b n z]: the [n] low base-[b] digits of [z], most significant
    first; [undigits b l] is the number they spell. *)

Fixpoint digits_be (b : Z) (n : nat) (z : Z) : list Z :=
  match n with
  | O => []
  | S n => digits_be b n (z / b) ++ [z mod b]
  end.

Definition undigits (b : Z) (l : list Z) : Z := foldl (fun acc d => acc * b + d) 0 l.

Lemma length_digits_be b n z : length (digits_be b n z) = n.
Proof.
  revert z; induction n as [|n IH]; intros z; simpl; [done|].
  rewrite length_app, IH. simpl. lia.
Qed.

Lemma digits_be_bound b n z : 0 < b -> Forall (fun d => 0 <= d < b) (digits_be b n z).
Proof.
  intros Hb. revert z; induction n as [|n IH]; intros z; simpl; [constructor|].
  apply Forall_app; split; [apply IH|].
  constructor; [apply Z.mod_pos_bound; lia|constructor].
Qed.

Lemma undigits_snoc b l d : undigits b (l ++ [d]) = undigits b l * b + d.
Proof. unfold undigits. by rewrite foldl_app. Qed.

Lemma undigits_digits b n z :
  0 < b -> 0 <= z < b ^ Z.of_nat n -> undigits b (digits_be b n z) = z.
Proof.
  intros Hb. revert z; induction n as [|n IH]; intros z Hz; simpl.
  - simpl in Hz. unfold undigits. simpl. lia.
  - rewrite undigits_snoc, IH.
    + pose proof (Z.div_mod z b ltac:(lia)). lia.
    + split; [apply Z.div_pos; lia|]. apply Z.div_lt_upper_bound; [lia|].
      rewrite Nat2Z.inj_succ, Z.pow_succ_r in Hz by lia. lia.
Qed.

Lemma undigits_bound b l :
  0 < b -> Forall (fun d => 0 <= d < b) l -> 0 <= undigits b l < b ^ Z.of_nat (length l).
Proof.
  intros Hb. induction l as [|d l IH] using rev_ind; intros H; [unfold undigits; simpl; lia|].
  apply Forall_app in H as [H1 H2]. apply Forall_cons_1 in H2 as [H2 _].
  rewrite undigits_snoc, length_app. simpl.
  replace (Z.of_nat (length l + 1)) with (Z.succ (Z.of_nat (length l))) by lia.
  rewrite Z.pow_succ_r by lia. specialize (IH H1). nia.
Qed.

Lemma digits_undigits b l :
  0 < b -> Forall (fun d => 0 <= d < b) l -> digits_be b (length l) (undigits b l) = l.
Proof.
  intros Hb. induction l as [|d l IH] using rev_ind; intros H; [done|].
  apply Forall_app in H as [H1 H2]. apply Forall_cons_1 in H2 as [H2 _].
  rewrite length_app, Nat.add_comm, undigits_snoc. simpl.
  rewrite Z.div_add_l, Z.div_small, Z.add_0_r, IH by (done || lia).
  f_equal. rewrite Z.add_comm, Z.mod_add, Z.mod_small by lia. done.
Qed.

Lemma digits_be_inj b n z z' :
  0 < b -> 0 <= z < b ^ Z.of_nat n -> 0 <= z' < b ^ Z.of_nat n ->
  digits_be b n z = digits_be b n z' -> z = z'.
Proof.
  intros Hb Hz Hz' E. apply (f_equal (undigits b)) in E.
  rewrite !undigits_digits in E by done. done.
Qed.
