(* ===== verification/Sha256.v ===== *)
(** * Go's crypto/sha256 and crypto/hmac

    FIPS 180-4 SHA-256 and RFC 2104 HMAC as executable functions on byte lists,
    the standard-library routines that address derivation (pkg/fipsaddr), the
    set fingerprint (pkg/authzhash), the captive token (pkg/captivetoken), the
    portal sessions and the webhook signatures call.  They are evaluated on the
    standard test vectors below; the theorems about the callers never use any
    property of the digest beyond its length and its being a function. *)

From S2P Require Import Prelude.

Definition add32 (a b : Z) : Z := u32 (a + b).
Definition rotr32 (n x : Z) : Z :=
  Z.lor (Z.shiftr x n) (u32 (Z.shiftl x (32 - n))).
Definition not32 (x : Z) : Z := Z.lxor x (2 ^ 32 - 1).

(** The round constants and the initial state, 32 bits a word. *)
Definition K256 : list Z := Eval vm_compute in digits_be (2 ^ 32) 64
  0x428a2f9871374491b5c0fbcfe9b5dba53956c25b59f111f1923f82a4ab1c5ed5d807aa9812835b01243185be550c7dc372be5d7480deb1fe9bdc06a7c19bf174e49b69c1efbe47860fc19dc6240ca1cc2de92c6f4a7484aa5cb0a9dc76f988da983e5152a831c66db00327c8bf597fc7c6e00bf3d5a7914706ca63511429296727b70a852e1b21384d2c6dfc53380d13650a7354766a0abb81c2c92e92722c85a2bfe8a1a81a664bc24b8b70c76c51a3d192e819d6990624f40e3585106aa07019a4c1161e376c082748774c34b0bcb5391c0cb34ed8aa4a5b9cca4f682e6ff3748f82ee78a5636f84c878148cc7020890befffaa4506cebbef9a3f7c67178f2.

Definition H256 : list Z := Eval vm_compute in digits_be (2 ^ 32) 8
  0x6a09e667bb67ae853c6ef372a54ff53a510e527f9b05688c1f83d9ab5be0cd19.

(** Big-endian words. *)
Definition word_of_bytes (b : list Z) : Z := foldl (fun acc x => Z.shiftl acc 8 + x) 0 b.

(** [be n z]: the low [n] bytes of [z], most significant first. *)
Definition be (n : nat) (z : Z) : list Z := digits_be 256 n z.

Fixpoint chunks (fuel n : nat) (l : list Z) : list (list Z) :=
  match fuel, l with
  | S fuel, _ :: _ => take n l :: chunks fuel n (drop n l)
  | _, _ => []
  end.

Definition pad (msg : list Z) : list Z :=
  let n := Z.of_nat (length msg) in
  let zeros := Z.to_nat ((55 - n) mod 64) in
  msg ++ [0x80] ++ replicate zeros 0 ++ be 8 (8 * n).

(** The message schedule, newest word first. *)
Fixpoint schedule (n : nat) (w : list Z) : list Z :=
  match n with
  | O => w
  | S n =>
      let w15 := default 0 (w !! 14%nat) in
      let w2 := default 0 (w !! 1%nat) in
      let s0 := Z.lxor (Z.lxor (rotr32 7 w15) (rotr32 18 w15)) (Z.shiftr w15 3) in
      let s1 := Z.lxor (Z.lxor (rotr32 17 w2) (rotr32 19 w2)) (Z.shiftr w2 10) in
      let x := add32 (add32 (default 0 (w !! 15%nat)) s0)
                     (add32 (default 0 (w !! 6%nat)) s1) in
      schedule n (x :: w)
  end.

Definition round (st : list Z) (kw : Z * Z) : list Z :=
  match st with
  | [a; b; c; d; e; f; g; h] =>
      let S1 := Z.lxor (Z.lxor (rotr32 6 e) (rotr32 11 e)) (rotr32 25 e) in
      let ch := Z.lxor (Z.land e f) (Z.land (not32 e) g) in
      let t1 := add32 (add32 (add32 h S1) (add32 ch kw.1)) kw.2 in
      let S0 := Z.lxor (Z.lxor (rotr32 2 a) (rotr32 13 a)) (rotr32 22 a) in
      let maj := Z.lxor (Z.lxor (Z.land a b) (Z.land a c)) (Z.land b c) in
      let t2 := add32 S0 maj in
      [add32 t1 t2; a; b; c; add32 d t1; e; f; g]
  | _ => st
  end.

Definition compress (st : list Z) (block : list Z) : list Z :=
  let w := map word_of_bytes (chunks 16 4 block) in
  let ws := reverse (schedule 48 (reverse w)) in
  zip_with add32 st (foldl round st (zip K256 ws)).

(** [sha256.Sum256]. *)
Definition sum256 (msg : list Z) : list Z :=
  let p := pad msg in
  let st := foldl compress H256 (chunks (length p) 64 p) in
  st ≫= be 4.

(** [hmac.New(sha256.New, key)], written once with [msg] and summed. *)
Definition hmac_sha256 (key msg : list Z) : list Z :=
  let k := if (64 <? Z.of_nat (length key)) then sum256 key else key in
  let k := k ++ replicate (64 - length k)%nat 0 in
  sum256 (map (Z.lxor 0x5c) k ++ sum256 (map (Z.lxor 0x36) k ++ msg)).

(** ** Digest shape *)

Lemma length_be n z : length (be n z) = n.
Proof. apply length_digits_be. Qed.

Lemma be_bytes n z : Forall in_u8 (be n z).
Proof. by apply (digits_be_bound 256). Qed.

Lemma length_round st kw : length (round st kw) = length st.
Proof. unfold round. by repeat (destruct st as [|? st]; try done). Qed.

Lemma length_rounds l st : length (foldl round st l) = length st.
Proof.
  revert st; induction l as [|kw l IH]; intros st; simpl; [done|].
  by rewrite IH, length_round.
Qed.

Lemma length_compress st b : length st = 8%nat -> length (compress st b) = 8%nat.
Proof.
  intros H. unfold compress. rewrite length_zip_with, length_rounds. lia.
Qed.

Lemma length_bind_be n (st : list Z) : length (st ≫= be n) = (n * length st)%nat.
Proof.
  induction st as [|w st IH]; [simpl; lia|].
  rewrite bind_cons, length_app, length_be, IH. simpl. lia.
Qed.

Lemma length_sum256 msg : length (sum256 msg) = 32%nat.
Proof.
  unfold sum256. set (st := foldl _ _ _).
  assert (Hst : length st = 8%nat).
  { subst st. generalize (chunks (length (pad msg)) 64 (pad msg)).
    assert (H0 : length H256 = 8%nat) by done. revert H0. generalize H256.
    intros s Hs l; revert s Hs; induction l as [|b l IH]; intros s Hs; simpl; [done|].
    by apply IH, length_compress. }
  by rewrite length_bind_be, Hst.
Qed.

Lemma sum256_bytes msg : Forall in_u8 (sum256 msg).
Proof.
  unfold sum256. induction (foldl _ _ _) as [|w st IH]; [constructor|].
  rewrite bind_cons.
  apply Forall_app; split; [apply (be_bytes 4)|apply IH].
Qed.

Lemma length_hmac key msg : length (hmac_sha256 key msg) = 32%nat.
Proof. apply length_sum256. Qed.

Lemma hmac_bytes key msg : Forall in_u8 (hmac_sha256 key msg).
Proof. apply sum256_bytes. Qed.

(** ** Test vectors (FIPS 180-4, RFC 4231) *)

Example sum256_empty :
  word_of_bytes (sum256 []) =
  0xe3b0c44298fc1c149afbf4c8996fb92427ae41e4649b934ca495991b7852b855.
Proof. vm_compute. reflexivity. Qed.

Example sum256_abc :
  word_of_bytes (sum256 [97; 98; 99]) =
  0xba7816bf8f01cfea414140de5dae2223b00361a396177a9cb410ff61f20015ad.
Proof. vm_compute. reflexivity. Qed.

Example hmac_rfc4231_1 :
  word_of_bytes (hmac_sha256 (replicate 20 0x0b) [0x48; 0x69; 0x20; 0x54; 0x68; 0x65; 0x72; 0x65]) =
  0xb0344c61d8db38535ca8afceaf0bf12b881dc200c9833da726e9376c2e32cff7.
Proof. vm_compute. reflexivity. Qed.

Global Opaque sum256 hmac_sha256.
