(* ===== verification/GoStrings.v ===== *)
(** * Go strings, strconv and the text encodings

    A Go string is a sequence of bytes: [gostr] is [list Z] with every element
    in [0, 256).  The functions here are the parts of packages strings,
    strconv, encoding/hex and encoding/base64 that the program calls.  Case
    mapping is the ASCII one: on the ASCII inputs the program compares (npubs,
    host names) [strings.ToLower] and [strings.ToUpper] act bytewise. *)

From S2P Require Import Prelude.
From Stdlib Require Import Ascii.

Abbreviation gostr := (list Z) (only parsing).

(** Literals: [bs "npub"] is the Go literal "npub". *)
Fixpoint bs (s : String.string) : gostr :=
  match s with
  | String.EmptyString => []
  | String.String c s => Z.of_N (N_of_ascii c) :: bs s
  end.

Section Strings.

Definition is_upper (c : Z) : bool := (65 <=? c) && (c <=? 90).
Definition is_lower (c : Z) : bool := (97 <=? c) && (c <=? 122).
Definition lower_byte (c : Z) : Z := if is_upper c then c + 32 else c.
Definition upper_byte (c : Z) : Z := if is_lower c then c - 32 else c.
Definition ToLower (s : gostr) : gostr := map lower_byte s.
Definition ToUpper (s : gostr) : gostr := map upper_byte s.

(** ASCII white space: tab, newline, vertical tab, form feed, return, space. *)
Definition is_space (c : Z) : bool := ((9 <=? c) && (c <=? 13)) || (c =? 32).
Fixpoint trim_left (s : gostr) : gostr :=
  match s with
  | c :: r => if is_space c then trim_left r else s
  | [] => []
  end.
Definition TrimSpace (s : gostr) : gostr := reverse (trim_left (reverse (trim_left s))).

Fixpoint IndexByte (s : gostr) (c : Z) : Z :=
  match s with
  | [] => -1
  | x :: r => if x =? c then 0 else
                let i := IndexByte r c in if i =? -1 then -1 else i + 1
  end.

Fixpoint LastIndexByte (s : gostr) (c : Z) : Z :=
  match s with
  | [] => -1
  | x :: r => let i := LastIndexByte r c in
              if i =? -1 then (if x =? c then 0 else -1) else i + 1
  end.

Definition HasPrefix (s p : gostr) : bool := bool_decide (take (length p) s = p).
Definition HasSuffix (s p : gostr) : bool :=
  bool_decide ((length p <= length s)%nat) &&
  bool_decide (drop (length s - length p) s = p).
Definition TrimPrefix (s p : gostr) : gostr :=
  if HasPrefix s p then drop (length p) s else s.
Definition TrimSuffix (s p : gostr) : gostr :=
  if HasSuffix s p then take (length s - length p) s else s.

(** [strings.Split(s, sep)] for a one-byte separator. *)
Fixpoint Split (sep : Z) (s : gostr) : list gostr :=
  match s with
  | [] => [[]]
  | c :: r => if c =? sep then [] :: Split sep r
              else match Split sep r with
                   | h :: t => (c :: h) :: t
                   | [] => [[c]]
                   end
  end.

(** [strings.Join(parts, sep)] *)
Fixpoint Join (sep : gostr) (parts : list gostr) : gostr :=
  match parts with
  | [] => []
  | [p] => p
  | p :: ps => p ++ sep ++ Join sep ps
  end.

End Strings.

(** ** strconv *)

Section Strconv.

Fixpoint format_digits (fuel : nat) (base n : Z) : gostr :=
  let d := n mod base in
  let c := if d <? 10 then 48 + d else 87 + d in
  match fuel with
  | O => [c]
  | S f => if n <? base then [c] else format_digits f base (n / base) ++ [c]
  end.

(** Non-negative numbers in base 10 or 16; [Z.log2 n] digits always suffice. *)
Definition FormatUint (base n : Z) : gostr := format_digits (Z.to_nat (Z.log2 n)) base n.
Definition FormatInt (n : Z) : gostr :=
  if n <? 0 then 45 :: FormatUint 10 (- n) else FormatUint 10 n.

Definition digit_val (c : Z) : option Z :=
  if (48 <=? c) && (c <=? 57) then Some (c - 48)
  else if (97 <=? c) && (c <=? 102) then Some (c - 87)
  else if (65 <=? c) && (c <=? 70) then Some (c - 55)
  else None.

Definition parse_step (base : Z) (acc : option Z) (c : Z) : option Z :=
  a ← acc; d ← digit_val c; if d <? base then Some (a * base + d) else None.

(** Digits only, at least one. *)
Definition parse_digits (base : Z) (s : gostr) : option Z :=
  match s with
  | [] => None
  | _ => foldl (parse_step base) (Some 0) s
  end.

(** [strconv.ParseInt(s, 10, 64)] and [strconv.ParseUint(s, 10, 64)]. *)
Definition ParseInt (s : gostr) : option Z :=
  match s with
  | 45 :: r => n ← parse_digits 10 r; if n <=? 2 ^ 63 then Some (- n) else None
  | 43 :: r => n ← parse_digits 10 r; if n <? 2 ^ 63 then Some n else None
  | _ => n ← parse_digits 10 s; if n <? 2 ^ 63 then Some n else None
  end.
Definition ParseUint (s : gostr) : option Z :=
  n ← parse_digits 10 s; if n <? 2 ^ 64 then Some n else None.

End Strconv.

(** ** encoding/hex *)

Section Hex.

Definition hex_digit (d : Z) : Z := if d <? 10 then 48 + d else 87 + d.
Definition HexEncode (b : list Z) : gostr :=
  b ≫= (fun x => [hex_digit (x / 16); hex_digit (x mod 16)]).

Fixpoint HexDecode (s : gostr) : option (list Z) :=
  match s with
  | [] => Some []
  | h :: l :: r =>
      a ← digit_val h; b ← digit_val l; rest ← HexDecode r; Some (a * 16 + b :: rest)
  | _ => None
  end.

End Hex.

(** ** base64.RawURLEncoding *)

Section Base64.

Definition b64_charset : gostr :=
  bs "ABCDEFGHIJKLMNOPQRSTUVWXYZabcdefghijklmnopqrstuvwxyz0123456789-_".
Definition b64_char (i : Z) : Z := default 0 (b64_charset !! Z.to_nat i).
Definition b64_val (c : Z) : option Z :=
  let i := IndexByte b64_charset c in if i =? -1 then None else Some i.

Fixpoint B64Encode (b : list Z) : gostr :=
  match b with
  | x :: y :: z :: r =>
      b64_char (x / 4) :: b64_char (x mod 4 * 16 + y / 16)
        :: b64_char (y mod 16 * 4 + z / 64) :: b64_char (z mod 64) :: B64Encode r
  | [x; y] => [b64_char (x / 4); b64_char (x mod 4 * 16 + y / 16); b64_char (y mod 16 * 4)]
  | [x] => [b64_char (x / 4); b64_char (x mod 4 * 16)]
  | [] => []
  end.

Fixpoint b64_decode (s : gostr) : option (list Z) :=
  match s with
  | a :: b :: c :: d :: r =>
      a ← b64_val a; b ← b64_val b; c ← b64_val c; d ← b64_val d;
      rest ← b64_decode r;
      Some (a * 4 + b / 16 :: b mod 16 * 16 + c / 4 :: c mod 4 * 64 + d :: rest)
  | [a; b; c] =>
      a ← b64_val a; b ← b64_val b; c ← b64_val c;
      Some [a * 4 + b / 16; b mod 16 * 16 + c / 4]
  | [a; b] => a ← b64_val a; b ← b64_val b; Some [a * 4 + b / 16]
  | [_] => None
  | [] => Some []
  end.

(** The decoder skips carriage returns and newlines, and does not insist on
    zero padding bits. *)
Definition B64Decode (s : gostr) : option (list Z) :=
  b64_decode (filter (fun c => c <> 10 /\ c <> 13) s).

End Base64.

(** ** Lemmas *)

Lemma lower_byte_idem c : lower_byte (lower_byte c) = lower_byte c.
Proof.
  unfold lower_byte, is_upper.
  destruct (65 <=? c) eqn:E1, (c <=? 90) eqn:E2; simpl; rewrite ?E1, ?E2; simpl; try done.
  bool_hyps. destruct (65 <=? c + 32) eqn:E3; [|done].
  destruct (c + 32 <=? 90) eqn:E4; [bool_hyps; lia|done].
Qed.

Lemma ToLower_idem s : ToLower (ToLower s) = ToLower s.
Proof.
  unfold ToLower. rewrite map_map. apply map_ext. apply lower_byte_idem.
Qed.

Lemma ToLower_app s t : ToLower (s ++ t) = ToLower s ++ ToLower t.
Proof. apply map_app. Qed.

Lemma length_ToLower s : length (ToLower s) = length s.
Proof. apply length_map. Qed.

Lemma IndexByte_ge s c : -1 <= IndexByte s c.
Proof.
  induction s as [|x r IH]; simpl; [lia|].
  destruct (x =? c); [lia|]. destruct (_ =? -1); lia.
Qed.

Lemma IndexByte_Some s c i :
  IndexByte s c = i -> i <> -1 -> s !! Z.to_nat i = Some c /\ 0 <= i < Z.of_nat (length s).
Proof.
  revert i; induction s as [|x r IH]; simpl; intros i <- Hi; [done|].
  destruct (x =? c) eqn:E; [bool_hyps; subst; split; [done|lia]|].
  destruct (IndexByte r c =? -1) eqn:E2; [done|]. bool_hyps.
  destruct (IH _ eq_refl E2) as [H1 H2].
  split; [|lia]. replace (Z.to_nat (IndexByte r c + 1)) with (S (Z.to_nat (IndexByte r c))) by lia.
  done.
Qed.

Lemma LastIndexByte_ge s c : -1 <= LastIndexByte s c.
Proof.
  induction s as [|x r IH]; simpl; [lia|].
  destruct (_ =? -1) eqn:?; [destruct (x =? c)|]; lia.
Qed.

Lemma LastIndexByte_notin s c : c ∉ s -> LastIndexByte s c = -1.
Proof.
  induction s as [|x r IH]; simpl; intros H; [done|].
  apply not_elem_of_cons in H as [H1 H2]. rewrite (IH H2). simpl.
  destruct (x =? c) eqn:E; bool_hyps; [congruence|done].
Qed.

Lemma LastIndexByte_app s t c :
  c ∉ t -> LastIndexByte (s ++ c :: t) c = Z.of_nat (length s).
Proof.
  intros H. induction s as [|x r IH]; simpl.
  - rewrite (LastIndexByte_notin _ _ H). simpl. by rewrite Z.eqb_refl.
  - rewrite IH. destruct (_ =? -1) eqn:E; bool_hyps; lia.
Qed.

Lemma Split_nonempty sep s : Split sep s <> [].
Proof.
  destruct s as [|c r]; simpl; [done|].
  destruct (c =? sep); [done|]. by destruct (Split sep r).
Qed.

Lemma Split_notin sep s : sep ∉ s -> Split sep s = [s].
Proof.
  induction s as [|c r IH]; simpl; intros H; [done|].
  apply not_elem_of_cons in H as [H1 H2].
  destruct (c =? sep) eqn:E; bool_hyps; [congruence|]. by rewrite (IH H2).
Qed.

Lemma Split_app sep s t : sep ∉ s -> Split sep (s ++ sep :: t) = s :: Split sep t.
Proof.
  induction s as [|c r IH]; simpl; intros H.
  - by rewrite Z.eqb_refl.
  - apply not_elem_of_cons in H as [H1 H2].
    destruct (c =? sep) eqn:E; bool_hyps; [congruence|]. by rewrite (IH H2).
Qed.

Lemma Split_Join sep ps :
  ps <> [] -> Forall (fun p => sep ∉ p) ps -> Split sep (Join [sep] ps) = ps.
Proof.
  intros Hne Hall. induction Hall as [|p ps Hp Hps IH]; [done|].
  destruct ps as [|q qs]; simpl.
  - by apply Split_notin.
  - rewrite Split_app by done. f_equal. by apply IH.
Qed.

Lemma Split_lines sep ls : Forall (fun s => sep ∉ s) ls -> Split sep (ls ≫= (fun s => s ++ [sep])) = ls ++ [[]].
Proof.
  intros H. induction H as [|s ls Hs _ IH]; [done|]. rewrite bind_cons, <- app_assoc. cbn [app]. by rewrite Split_app, IH.
Qed.

Lemma Join_Split sep s : Join [sep] (Split sep s) = s.
Proof.
  induction s as [|c r IH]; simpl; [done|].
  destruct (c =? sep) eqn:E; bool_hyps.
  - subst. pose proof (Split_nonempty sep r). destruct (Split sep r) eqn:E2; [done|].
    rewrite <- IH. done.
  - destruct (Split sep r) as [|h t] eqn:E2; [by apply Split_nonempty in E2|].
    rewrite <- IH. by destruct t.
Qed.

(** *** Numbers *)

Lemma digit_val_char base d :
  2 <= base <= 16 -> 0 <= d < base ->
  digit_val (if d <? 10 then 48 + d else 87 + d) = Some d.
Proof.
  intros Hb Hd. unfold digit_val. destruct (d <? 10) eqn:E; bool_hyps.
  - destruct (48 <=? 48 + d) eqn:E1; bool_hyps; [|lia].
    destruct (48 + d <=? 57) eqn:E2; bool_hyps; [|lia]. simpl. f_equal. lia.
  - destruct (48 <=? 87 + d) eqn:E1; bool_hyps; [|lia].
    destruct (87 + d <=? 57) eqn:E2; bool_hyps; [lia|]. simpl.
    destruct (97 <=? 87 + d) eqn:E3; bool_hyps; [|lia].
    destruct (87 + d <=? 102) eqn:E4; bool_hyps; [|lia]. simpl. f_equal. lia.
Qed.

Lemma parse_fold_format fuel base n :
  2 <= base <= 16 -> 0 <= n -> n < base ^ (Z.of_nat fuel + 1) ->
  foldl (parse_step base) (Some 0) (format_digits fuel base n) = Some n.
Proof.
  intros Hb. revert n; induction fuel as [|f IH]; intros n Hn Hlt; simpl.
  - rewrite Z.mod_small by (simpl in Hlt; lia).
    simpl in Hlt. unfold parse_step; simpl.
    rewrite (digit_val_char base) by lia. simpl.
    destruct (n <? base) eqn:E; bool_hyps; [f_equal; lia|lia].
  - destruct (n <? base) eqn:E; bool_hyps.
    + rewrite Z.mod_small by lia. unfold parse_step; simpl.
      rewrite (digit_val_char base) by lia. simpl.
      destruct (n <? base) eqn:E2; bool_hyps; [f_equal; lia|lia].
    + rewrite foldl_app, IH.
      2: apply Z.div_pos; lia.
      2: { apply Z.div_lt_upper_bound; [lia|].
           replace (Z.of_nat (S f) + 1) with (Z.succ (Z.of_nat f + 1)) in Hlt by lia.
           rewrite Z.pow_succ_r in Hlt by lia. lia. }
      simpl. pose proof (Z.mod_pos_bound n base ltac:(lia)).
      rewrite (digit_val_char base) by lia. simpl.
      destruct (n mod base <? base) eqn:E2; bool_hyps; [|lia].
      f_equal. pose proof (Z.div_mod n base ltac:(lia)). lia.
Qed.

Lemma format_digits_cons fuel base n : exists c r, format_digits fuel base n = c :: r.
Proof.
  destruct fuel as [|f]; simpl; [by eauto|].
  destruct (n <? base); [by eauto|].
  destruct (format_digits f base (n / base)); simpl; by eauto.
Qed.

Lemma log2_fuel base n : 2 <= base -> 0 <= n -> n < base ^ (Z.of_nat (Z.to_nat (Z.log2 n)) + 1).
Proof.
  intros Hb Hn. destruct (Z.eq_dec n 0) as [->|Hne]; [simpl; lia|].
  pose proof (Z.log2_nonneg n). rewrite Z2Nat.id by lia.
  pose proof (Z.log2_spec n ltac:(lia)) as [_ Hs].
  eapply Z.lt_le_trans; [exact Hs|].
  rewrite Z.add_1_r. apply Z.pow_le_mono_l. lia.
Qed.

Lemma parse_digits_FormatUint base n :
  2 <= base <= 16 -> 0 <= n -> parse_digits base (FormatUint base n) = Some n.
Proof.
  intros Hb Hn. unfold parse_digits, FormatUint.
  destruct (format_digits_cons (Z.to_nat (Z.log2 n)) base n) as (c & r & E).
  rewrite E, <- E. apply parse_fold_format; [lia|lia|]. apply log2_fuel; lia.
Qed.

(** Every character printed is a digit of the base. *)
Lemma format_digits_chars fuel base n :
  2 <= base <= 16 -> 0 <= n ->
  Forall (fun c => 48 <= c <= 57 \/ 97 <= c < 87 + base) (format_digits fuel base n).
Proof.
  intros Hb. revert n; induction fuel as [|f IH]; intros n Hn; simpl;
    pose proof (Z.mod_pos_bound n base ltac:(lia)).
  - constructor; [|constructor]. destruct (_ <? 10) eqn:E; bool_hyps; lia.
  - assert (Forall (fun c => 48 <= c <= 57 \/ 97 <= c < 87 + base)
              [if n mod base <? 10 then 48 + n mod base else 87 + n mod base]).
    { constructor; [|constructor]. destruct (_ <? 10) eqn:E; bool_hyps; lia. }
    destruct (n <? base); [done|].
    apply Forall_app; split; [|done]. apply IH. apply Z.div_pos; lia.
Qed.

Lemma FormatUint_chars base n :
  2 <= base <= 16 -> 0 <= n ->
  Forall (fun c => 48 <= c <= 57 \/ 97 <= c < 87 + base) (FormatUint base n).
Proof. intros. by apply format_digits_chars. Qed.

Lemma FormatUint_inj base n m :
  2 <= base <= 16 -> 0 <= n -> 0 <= m -> FormatUint base n = FormatUint base m -> n = m.
Proof.
  intros Hb Hn Hm E. apply (f_equal (parse_digits base)) in E.
  rewrite !parse_digits_FormatUint in E by lia. congruence.
Qed.

Lemma ParseInt_FormatInt n : in_i64 n -> ParseInt (FormatInt n) = Some n.
Proof.
  unfold in_i64, int64_min, int64_max. intros Hn. unfold FormatInt.
  destruct (n <? 0) eqn:E; bool_hyps.
  - unfold ParseInt. rewrite parse_digits_FormatUint by lia. cbn [mbind option_bind].
    destruct (- n <=? 2 ^ 63) eqn:E2; bool_hyps; [f_equal; lia|lia].
  - pose proof (parse_digits_FormatUint 10 n ltac:(lia) ltac:(lia)) as Hp.
    pose proof (FormatUint_chars 10 n ltac:(lia) ltac:(lia)) as Hc.
    destruct (FormatUint 10 n) as [|c r] eqn:EF; [done|].
    apply Forall_cons_1 in Hc as [Hc _].
    assert (Hres : (n0 ← parse_digits 10 (c :: r); if n0 <? 2 ^ 63 then Some n0 else None) = Some n).
    { rewrite Hp. cbn [mbind option_bind].
      destruct (n <? 2 ^ 63) eqn:E2; bool_hyps; [done|lia]. }
    unfold ParseInt. destruct c as [|p|p]; try lia.
    do 6 (destruct p as [p|p|]; try (exact Hres); try lia).
Qed.

Lemma FormatInt_chars n c : c ∈ FormatInt n -> c = 45 \/ 48 <= c <= 57.
Proof.
  assert (H : forall m, 0 <= m -> c ∈ FormatUint 10 m -> 48 <= c <= 57).
  { intros m Hm Hin. pose proof (FormatUint_chars 10 m ltac:(lia) Hm) as HF. rewrite Forall_forall in HF. specialize (HF c Hin). lia. }
  unfold FormatInt. destruct (n <? 0) eqn:E; bool_hyps; [|intros Hin; right; apply (H n); [lia|done]].
  rewrite elem_of_cons. intros [->|Hin]; [by left|]. right. apply (H (- n)); [lia|done].
Qed.

Lemma ParseUint_FormatUint n : in_u64 n -> ParseUint (FormatUint 10 n) = Some n.
Proof.
  unfold in_u64. intros Hn. unfold ParseUint.
  rewrite parse_digits_FormatUint by lia. cbn [mbind option_bind].
  destruct (n <? 2 ^ 64) eqn:E; bool_hyps; [done|lia].
Qed.

(** *** Hex *)

Lemma HexDecode_Encode b : Forall in_u8 b -> HexDecode (HexEncode b) = Some b.
Proof.
  unfold in_u8. induction 1 as [|x b Hx Hb IH]; [done|].
  unfold HexEncode in *. rewrite bind_cons. simpl app.
  unfold hex_digit. cbn [HexDecode]. fold hex_digit.
  rewrite !(digit_val_char 16) by (first [lia | pose proof (Z.mod_pos_bound x 16); lia |
    split; [apply Z.div_pos; lia | apply Z.div_lt_upper_bound; lia]]).
  cbn [mbind option_bind]. unfold hex_digit in IH. rewrite IH. simpl.
  repeat f_equal. pose proof (Z.div_mod x 16). lia.
Qed.

Lemma HexEncode_inj b b' :
  Forall in_u8 b -> Forall in_u8 b' -> HexEncode b = HexEncode b' -> b = b'.
Proof.
  intros H H' E. apply (f_equal HexDecode) in E.
  rewrite !HexDecode_Encode in E by done. congruence.
Qed.

Lemma length_HexEncode b : length (HexEncode b) = (2 * length b)%nat.
Proof.
  unfold HexEncode. induction b as [|x b IH]; [done|].
  rewrite bind_cons, length_app, IH. simpl. lia.
Qed.

(** *** Base64 *)

Lemma b64_table :
  forallb (fun i => bool_decide (b64_val (b64_char i) = Some i)
                    && negb (b64_char i =? 10) && negb (b64_char i =? 13)
                    && negb (b64_char i =? 46) && negb (b64_char i =? 124))
          (map Z.of_nat (seq 0 64)) = true.
Proof. vm_compute. reflexivity. Qed.

Lemma b64_char_facts i :
  0 <= i < 64 ->
  b64_val (b64_char i) = Some i /\ b64_char i <> 10 /\ b64_char i <> 13
  /\ b64_char i <> 46 /\ b64_char i <> 124.
Proof.
  intros Hi. pose proof b64_table as Ht. rewrite forallb_forall in Ht.
  assert (Hin : In i (map Z.of_nat (seq 0 64))).
  { apply in_map_iff. exists (Z.to_nat i). split; [lia|]. apply in_seq. lia. }
  specialize (Ht i Hin). bool_hyps. done.
Qed.

Lemma b64_val_char i : 0 <= i < 64 -> b64_val (b64_char i) = Some i.
Proof. intros H. by apply b64_char_facts. Qed.

Lemma b64_ind (P : list Z -> Prop) :
  P [] -> (forall x, P [x]) -> (forall x y, P [x; y]) ->
  (forall x y z r, P r -> P (x :: y :: z :: r)) -> forall l, P l.
Proof.
  intros H0 H1 H2 H3. fix IH 1. intros [|x [|y [|z r]]];
    [exact H0 | exact (H1 x) | exact (H2 x y) | apply H3, IH].
Qed.

Ltac div_mod_bounds :=
  repeat match goal with
  | |- context [?a / ?b] =>
      lazymatch goal with
      | _ : a = b * (a / b) + a mod b |- _ => fail
      | _ => pose proof (Z.div_mod a b ltac:(lia)); pose proof (Z.mod_pos_bound a b ltac:(lia))
      end
  | |- context [?a mod ?b] =>
      lazymatch goal with
      | _ : a = b * (a / b) + a mod b |- _ => fail
      | _ => pose proof (Z.div_mod a b ltac:(lia)); pose proof (Z.mod_pos_bound a b ltac:(lia))
      end
  end.

Lemma b64_split2 x y : in_u8 x -> in_u8 y ->
  0 <= x / 4 < 64 /\ 0 <= x mod 4 * 16 + y / 16 < 64 /\
  (x / 4 * 4 + (x mod 4 * 16 + y / 16) / 16 = x) /\
  (x mod 4 * 16 + y / 16) mod 16 = y / 16.
Proof.
  unfold in_u8. intros Hx Hy.
  assert (Hy' : 0 <= y / 16 < 16) by (div_mod_bounds; lia).
  replace (x mod 4 * 16 + y / 16) with (y / 16 + x mod 4 * 16) by lia.
  rewrite Z.div_add, Z.mod_add, (Z.div_small (y / 16) 16), (Z.mod_small (y / 16) 16) by lia.
  repeat split; div_mod_bounds; lia.
Qed.

Lemma b64_decode_encode b : Forall in_u8 b -> b64_decode (B64Encode b) = Some b.
Proof.
  induction b as [|x|x y|x y z r IH] using b64_ind; intros H; [done|..];
    repeat match goal with H : Forall _ (_ :: _) |- _ => apply Forall_cons_1 in H as [? H] end.
  - destruct (b64_split2 x 0 ltac:(done) ltac:(unfold in_u8; lia)) as (Q1 & Q2 & Q3 & Q4).
    change (0 / 16) with 0 in *. rewrite Z.add_0_r in *.
    cbn [B64Encode b64_decode]. rewrite !b64_val_char by done. simpl. by rewrite Q3.
  - destruct (b64_split2 x y ltac:(done) ltac:(done)) as (Q1 & Q2 & Q3 & Q4).
    assert (Hy : 0 <= y mod 16 * 4 < 64) by (div_mod_bounds; lia).
    cbn [B64Encode b64_decode]. rewrite !b64_val_char by done. simpl. rewrite Q3, Q4.
    rewrite Z.div_mul by lia. repeat f_equal. unfold in_u8 in *. div_mod_bounds; lia.
  - destruct (b64_split2 x y ltac:(done) ltac:(done)) as (Q1 & Q2 & Q3 & Q4).
    unfold in_u8 in *.
    assert (Hz : 0 <= z / 64 < 4) by (div_mod_bounds; lia).
    assert (Hz' : 0 <= z mod 64 < 64) by (div_mod_bounds; lia).
    assert (Hy : 0 <= y mod 16 * 4 + z / 64 < 64) by (div_mod_bounds; lia).
    cbn [B64Encode b64_decode]. rewrite !b64_val_char by done. cbn [mbind option_bind].
    rewrite IH by done. simpl. rewrite Q3, Q4.
    replace (y mod 16 * 4 + z / 64) with (z / 64 + y mod 16 * 4) by lia.
    rewrite Z.div_add, Z.mod_add, (Z.div_small (z / 64)), (Z.mod_small (z / 64)) by lia.
    repeat f_equal; div_mod_bounds; lia.
Qed.

(** What holds of the alphabet holds of every character. *)
Lemma B64Encode_alphabet (P : Z -> Prop) b : (forall i, 0 <= i < 64 -> P (b64_char i)) -> Forall in_u8 b -> Forall P (B64Encode b).
Proof.
  intros Hc. induction b as [|x|x y|x y z r IH] using b64_ind; intros H; [constructor|..];
    repeat match goal with H : Forall _ (_ :: _) |- _ => apply Forall_cons_1 in H as [? H] end;
    unfold in_u8 in *; cbn [B64Encode].
  - repeat (constructor; [apply Hc; div_mod_bounds; lia|]). constructor.
  - destruct (b64_split2 x y ltac:(done) ltac:(done)) as (Q1 & Q2 & _).
    repeat (constructor; [apply Hc; try done; div_mod_bounds; lia|]). constructor.
  - destruct (b64_split2 x y ltac:(done) ltac:(done)) as (Q1 & Q2 & _).
    repeat (constructor; [apply Hc; try done; div_mod_bounds; lia|]). by apply IH.
Qed.

Lemma B64Encode_chars b :
  Forall in_u8 b ->
  Forall (fun c => c <> 10 /\ c <> 13 /\ c <> 46 /\ c <> 124) (B64Encode b).
Proof. apply B64Encode_alphabet. intros i Hi. by apply b64_char_facts. Qed.

Lemma B64Encode_ascii b : Forall in_u8 b -> Forall (fun c => 0 <= c < 128) (B64Encode b).
Proof.
  apply B64Encode_alphabet. intros i Hi.
  assert (Ht : forallb (fun i => (0 <=? b64_char i) && (b64_char i <? 128)) (map Z.of_nat (seq 0 64)) = true) by (vm_compute; reflexivity).
  rewrite forallb_forall in Ht. assert (Hin : In i (map Z.of_nat (seq 0 64))).
  { apply in_map_iff. exists (Z.to_nat i). split; [lia|]. apply in_seq. lia. }
  specialize (Ht i Hin). by bool_hyps.
Qed.

Lemma B64Decode_Encode b : Forall in_u8 b -> B64Decode (B64Encode b) = Some b.
Proof.
  intros H. unfold B64Decode. rewrite filter_all.
  - by apply b64_decode_encode.
  - pose proof (B64Encode_chars b H) as Hc. eapply Forall_weaken; [exact Hc|]. intros c (H1 & H2 & _). done.
Qed.
