(* ===== verification/GoJson.v ===== *)
(** * JSON values

    What encoding/json decodes a text to, as a tree, and the decoding of a tree into
    the Go types the program uses.  The text is in [GoText], with objects in which a
    name occurs more than once; the readings here are of objects with distinct names. *)

From S2P Require Import Prelude GoStrings.

Module Json.

(** [jnum] is an integer literal, [jfrac] any other number literal. *)
#[warnings="-register-all"]
Inductive jvalue :=
| jnull
| jbool (b : bool)
| jnum (n : Z)
| jfrac
| jstr (s : gostr)
| jarr (l : list jvalue)
| jobj (l : list (gostr * jvalue)).

(** The field a struct tag (in lower case) selects: keys match without regard to case. *)
Definition field (key : gostr) (l : list (gostr * jvalue)) : option jvalue :=
  snd <$> head (filter (fun kv => ToLower kv.1 = key) l).

(** A missing field and null leave the zero value. *)
Definition or_null (v : option jvalue) : jvalue := default jnull v.

(** [json.Unmarshal] into a string, and into an unsigned integer of [bits] bits. *)
Definition as_string (v : jvalue) : option gostr :=
  match v with
  | jstr s => Some s
  | jnull => Some []
  | _ => None
  end.

Definition as_uint (bits : Z) (v : jvalue) : option Z :=
  match v with
  | jnum n => if (0 <=? n) && (n <? 2 ^ bits) then Some n else None
  | jnull => Some 0
  | _ => None
  end.

(** A signed integer; Go's int has 64 bits. *)
Definition as_int (bits : Z) (v : jvalue) : option Z :=
  match v with
  | jnum n => if (- 2 ^ (bits - 1) <=? n) && (n <? 2 ^ (bits - 1)) then Some n else None
  | jnull => Some 0
  | _ => None
  end.

(** A pointer: null and a missing field are nil. *)
Definition as_ptr {A} (f : jvalue -> option A) (v : jvalue) : option (option A) :=
  match v with
  | jnull => Some None
  | _ => Some <$> f v
  end.

Definition as_bool (v : jvalue) : option bool :=
  match v with
  | jbool b => Some b
  | jnull => Some false
  | _ => None
  end.

(** A slice: null leaves it empty. *)
Definition as_list {A} (f : jvalue -> option A) (v : jvalue) : option (list A) :=
  match v with
  | jarr l => mapM f l
  | jnull => Some []
  | _ => None
  end.

(** The fields of a struct: null leaves every one at its zero value. *)
Definition as_struct (v : jvalue) : option (list (gostr * jvalue)) :=
  match v with
  | jobj l => Some l
  | jnull => Some []
  | _ => None
  end.

Definition get {A} (as_ : jvalue -> option A) (key : gostr) (l : list (gostr * jvalue)) : option A := as_ (or_null (field key l)).

End Json.
