(* ===== verification/Netip.v ===== *)
(** * Go's net/netip

    [netip.Addr] and the methods the program calls on it: the classification
    predicates, [As16], [Unmap], the text form ([String], RFC 5952) and
    [ParseAddr].  The main fact is that [ParseAddr] inverts [String], which is
    what lets addresses travel through SQL text columns, JSON bodies, nft
    command lines, map keys ("addr|port") and captive tokens. *)

From S2P Require Import Prelude GoStrings.

(** The zero [Addr] is the invalid address; an IPv6 address carries a zone. *)
Inductive Addr : Type :=
| AddrZero
| Addr4 (v : Z)
| Addr6 (v : Z) (zone : gostr).

#[export] Instance Addr_eq_dec : EqDecision Addr.
Proof. solve_decision. Defined.

#[export] Instance Addr_countable : Countable Addr.
Proof.
  refine (inj_countable'
    (fun a => match a with
              | AddrZero => inl ()
              | Addr4 v => inr (inl v)
              | Addr6 v z => inr (inr (v, z))
              end)
    (fun s => match s with
              | inl _ => AddrZero
              | inr (inl v) => Addr4 v
              | inr (inr (v, z)) => Addr6 v z
              end) _).
  by intros [].
Defined.

Definition addr_wf (a : Addr) : Prop :=
  match a with
  | AddrZero => False
  | Addr4 v => 0 <= v < 2 ^ 32
  | Addr6 v _ => 0 <= v < 2 ^ 128
  end.

Definition IsValid (a : Addr) : bool := match a with AddrZero => false | _ => true end.
Definition Is4 (a : Addr) : bool := match a with Addr4 _ => true | _ => false end.
Definition Is6 (a : Addr) : bool := match a with Addr6 _ _ => true | _ => false end.

(** ::ffff:0:0/96 *)
Definition mapped_prefix : Z := Z.shiftl 0xffff 32.
Definition Is4In6 (a : Addr) : bool :=
  match a with Addr6 v _ => Z.shiftr v 32 =? 0xffff | _ => false end.

(** [Unmap] strips an IPv4-mapped prefix. *)
Definition Unmap (a : Addr) : Addr :=
  match a with
  | Addr6 v _ => if Is4In6 a then Addr4 (v mod 2 ^ 32) else a
  | _ => a
  end.

(** [As16]: IPv4 addresses in their mapped form, zones dropped. *)
Definition As16 (a : Addr) : list Z :=
  match a with
  | AddrZero => replicate 16 0
  | Addr4 v => digits_be 256 16 (mapped_prefix + v)
  | Addr6 v _ => digits_be 256 16 v
  end.

Definition AddrFrom16 (b : list Z) : Addr := Addr6 (undigits 256 b) [].
Definition AddrFrom4 (b : list Z) : Addr := Addr4 (undigits 256 b).

Definition IsLoopback (a : Addr) : bool :=
  let a := if Is4In6 a then Unmap a else a in
  match a with
  | Addr4 v => Z.shiftr v 24 =? 127
  | Addr6 v z => bool_decide (z = []) && (v =? 1)
  | AddrZero => false
  end.

(** [netip.Prefix.Contains] for an IPv6 prefix of length [bits] at [net]:
    zoned and IPv4 addresses are never contained. *)
Definition Contains6 (net bits : Z) (a : Addr) : bool :=
  match a with
  | Addr6 v z => bool_decide (z = []) && (Z.shiftr v (128 - bits) =? Z.shiftr net (128 - bits))
  | _ => false
  end.

(** ** String *)

Definition colon : Z := 58.
Definition dot : Z := 46.
Definition percent : Z := 37.

Definition groups (v : Z) : list Z := digits_be 65536 8 v.

Definition hex16 (g : Z) : gostr := FormatUint 16 g.

Fixpoint zeros_from (gs : list Z) : nat :=
  match gs with
  | g :: r => if g =? 0 then S (zeros_from r) else O
  | [] => O
  end.

(** The longest run of at least two zero groups, the first one on ties. *)
Fixpoint find_run (i : nat) (gs : list Z) (best : nat * nat) : nat * nat :=
  match gs with
  | [] => best
  | _ :: r =>
      let l := zeros_from gs in
      let best := if (2 <=? l)%nat && (best.2 - best.1 <? l)%nat then (i, (i + l)%nat) else best in
      find_run (S i) r best
  end.

Definition string4 (v : Z) : gostr :=
  Join [dot] (map (FormatUint 10) (digits_be 256 4 v)).

Definition string6 (v : Z) : gostr :=
  let gs := groups v in
  let '(s, e) := find_run 0 gs (0, 0)%nat in
  if (s =? e)%nat then Join [colon] (map hex16 gs)
  else Join [colon] (map hex16 (take s gs)) ++ [colon; colon]
       ++ Join [colon] (map hex16 (drop e gs)).

Definition zone_suffix (z : gostr) : gostr :=
  match z with [] => [] | _ => percent :: z end.

Definition addr_String (a : Addr) : gostr :=
  match a with
  | AddrZero => bs "invalid IP"
  | Addr4 v => string4 v
  | Addr6 v z =>
      (if Is4In6 a then bs "::ffff:" ++ string4 (v mod 2 ^ 32) else string6 v) ++ zone_suffix z
  end.

(** ** ParseAddr *)

(** One decimal octet: 1 to 3 digits, no leading zero, at most 255. *)
Definition parse_octet (s : gostr) : option Z :=
  if forallb (fun c => (48 <=? c) && (c <=? 57)) s then
    match s with
    | [] => None
    | c :: _ =>
      if (c =? 48) && (1 <? length s)%nat then None else
      n ← parse_digits 10 s; if n <=? 255 then Some n else None
    end
  else None.

Definition parseIPv4Fields (s : gostr) : option (list Z) :=
  fs ← mapM parse_octet (Split dot s);
  if (length fs =? 4)%nat then Some fs else None.

(** The leading hex digits of a group and what follows them. *)
Fixpoint span_hex (s : gostr) : gostr * gostr :=
  match s with
  | [] => ([], [])
  | c :: r => match digit_val c with
              | Some _ => let '(h, t) := span_hex r in (c :: h, t)
              | None => ([], s)
              end
  end.

(** The group loop: [acc] are the 16-bit groups read so far, [ell] the position
    of the ellipsis.  [fuel] bounds the groups still allowed (8 at the start). *)
Fixpoint parse6_loop (fuel : nat) (acc : list Z) (ell : option nat) (s : gostr)
    : option (list Z * option nat * gostr) :=
  match fuel with
  | O => Some (acc, ell, s)
  | S fuel =>
      let '(h, t) := span_hex s in
      if (4 <? length h)%nat then None else
      match parse_digits 16 h with
      | None => None
      | Some g =>
          match t with
          | [] => Some (acc ++ [g], ell, [])
          | c :: t' =>
              if c =? dot then
                if negb (bool_decide (is_Some ell)) && negb (length acc =? 6)%nat then None
                else if (6 <? length acc)%nat then None
                else f ← parseIPv4Fields s;
                     Some (acc ++ [undigits 256 (take 2 f); undigits 256 (drop 2 f)], ell, [])
              else if negb (c =? colon) then None
              else
                match t' with
                | [] => None
                | c' :: t'' =>
                    if c' =? colon then
                      match ell with
                      | Some _ => None
                      | None =>
                          let acc := acc ++ [g] in
                          match t'' with
                          | [] => Some (acc, Some (length acc), [])
                          | _ => parse6_loop fuel acc (Some (length acc)) t''
                          end
                      end
                    else parse6_loop fuel (acc ++ [g]) ell t'
                end
          end
      end
  end.

(** Expand the ellipsis. *)
Definition finish6 (acc : list Z) (ell : option nat) (s : gostr) : option (list Z) :=
  match s with
  | _ :: _ => None
  | [] =>
      if (length acc <? 8)%nat then
        match ell with
        | None => None
        | Some e => Some (take e acc ++ replicate (8 - length acc) 0 ++ drop e acc)
        end
      else match ell with Some _ => None | None => Some acc end
  end.

Definition parse6_body (s : gostr) : option (list Z) :=
  if HasPrefix s [colon; colon] then
    match drop 2 s with
    | [] => Some (replicate 8 0)
    | r => '(acc, ell, rest) ← parse6_loop 8 [] (Some 0%nat) r; finish6 acc ell rest
    end
  else '(acc, ell, rest) ← parse6_loop 8 [] None s; finish6 acc ell rest.

Definition parseIPv6 (s : gostr) : option Addr :=
  let i := IndexByte s percent in
  if i =? -1 then gs ← parse6_body s; Some (Addr6 (undigits 65536 gs) [])
  else match drop (S (Z.to_nat i)) s with
       | [] => None
       | z => gs ← parse6_body (take (Z.to_nat i) s); Some (Addr6 (undigits 65536 gs) z)
       end.

Fixpoint parse_dispatch (whole s : gostr) : option Addr :=
  match s with
  | [] => None
  | c :: r =>
      if c =? dot then f ← parseIPv4Fields whole; Some (Addr4 (undigits 256 f))
      else if c =? colon then parseIPv6 whole
      else if c =? percent then None
      else parse_dispatch whole r
  end.

Definition ParseAddr (s : gostr) : option Addr := parse_dispatch s s.

Example String_1 : addr_String (Addr6 (0xfd * 2 ^ 120 + 1) []) = bs "fd00::1".
Proof. vm_compute. reflexivity. Qed.
Example String_2 : addr_String (Addr6 (0xffff * 2 ^ 32 + 0x01020304) (bs "eth0")) = bs "::ffff:1.2.3.4%eth0".
Proof. vm_compute. reflexivity. Qed.
Example Parse_1 : ParseAddr (bs "fd54:dc85:5ad5:c438:acd6:aa8:8495:13dd") =
  Some (Addr6 0xfd54dc855ad5c438acd60aa8849513dd []).
Proof. vm_compute. reflexivity. Qed.
Example Parse_2 : ParseAddr (bs "::ffff:1.2.3.4%eth0") =
  Some (Addr6 (0xffff * 2 ^ 32 + 0x01020304) (bs "eth0")).
Proof. vm_compute. reflexivity. Qed.
Example Parse_3 : map (fun s => ParseAddr (bs s))
  ["1:2:3:4:5:6:7:8:9"; "1::2::3"; "1:2:3"; "::1:2:3:4:5:6:7:8"; "1:"; "12345::"; "1.2.3"; "01.2.3.4"; "fe80::1%"]%string
  = replicate 9 None.
Proof. vm_compute. reflexivity. Qed.

(** ** ParseAddr inverts String *)

Arguments string4 : simpl never.
Arguments string6 : simpl never.
Arguments groups : simpl never.
Arguments hex16 : simpl never.
Arguments As16 : simpl never.

Definition hex_char (c : Z) : Prop := 48 <= c <= 57 \/ 97 <= c < 103.
Definition group_ok (g : Z) : Prop := 0 <= g < 65536.

Lemma digit_val_hex c : hex_char c -> exists d, digit_val c = Some d.
Proof.
  unfold hex_char, digit_val. intros H.
  repeat (case_match; bool_hyps; eauto); exfalso; repeat (case_match; bool_hyps); lia.
Qed.

Lemma digit_val_none c : c = colon \/ c = dot \/ c = percent -> digit_val c = None.
Proof. by intros [-> | [-> | ->]]. Qed.

Lemma span_hex_app h t :
  Forall hex_char h ->
  match t with [] => True | c :: _ => c = colon \/ c = dot end ->
  span_hex (h ++ t) = (h, t).
Proof.
  intros Hh Ht. induction Hh as [|c h Hc Hh IH]; simpl.
  - destruct t as [|c t]; [done|]. simpl. rewrite digit_val_none by tauto. done.
  - destruct (digit_val_hex c Hc) as [d ->]. by rewrite IH.
Qed.

Lemma format_digits_length fuel base n k :
  2 <= base -> 0 <= n < base ^ Z.of_nat (S k) -> (length (format_digits fuel base n) <= S k)%nat.
Proof.
  intros Hb. revert n k; induction fuel as [|f IH]; intros n k Hn; simpl; [lia|].
  destruct (n <? base) eqn:E; bool_hyps; [simpl; lia|].
  destruct k as [|k]; [simpl in Hn; lia|].
  rewrite length_app. simpl.
  assert (length (format_digits f base (n / base)) <= S k)%nat; [|lia].
  apply IH. split; [apply Z.div_pos; lia|]. apply Z.div_lt_upper_bound; [lia|].
  rewrite Nat2Z.inj_succ, Z.pow_succ_r in Hn by lia. lia.
Qed.

Lemma hex16_spec g :
  group_ok g ->
  Forall hex_char (hex16 g) /\ (length (hex16 g) <= 4)%nat /\ parse_digits 16 (hex16 g) = Some g
  /\ hex16 g <> [].
Proof.
  unfold group_ok. intros Hg. repeat split.
  - apply (FormatUint_chars 16); lia.
  - apply (format_digits_length _ 16 g 3); lia.
  - apply parse_digits_FormatUint; lia.
  - unfold hex16, FormatUint. destruct (format_digits_cons (Z.to_nat (Z.log2 g)) 16 g) as (?&?&->). done.
Qed.

(** One group, whatever follows it. *)
Lemma parse6_loop_group fuel acc ell g t :
  group_ok g -> match t with [] => True | c :: _ => c = colon end ->
  parse6_loop (S fuel) acc ell (hex16 g ++ t) =
  match t with
  | [] => Some (acc ++ [g], ell, [])
  | _ :: [] => None
  | _ :: c' :: t'' =>
      if c' =? colon then
        match ell with
        | Some _ => None
        | None =>
            match t'' with
            | [] => Some (acc ++ [g], Some (length (acc ++ [g])), [])
            | _ => parse6_loop fuel (acc ++ [g]) (Some (length (acc ++ [g]))) t''
            end
        end
      else parse6_loop fuel (acc ++ [g]) ell (c' :: t'')
  end.
Proof.
  intros Hg Ht. destruct (hex16_spec g Hg) as (H1 & H2 & H3 & _).
  cbn [parse6_loop]. rewrite span_hex_app by (try done; destruct t; tauto).
  destruct (4 <? length (hex16 g))%nat eqn:E; [apply Nat.ltb_lt in E; lia|].
  rewrite H3. destruct t as [|c t]; [done|]. subst c.
  replace (colon =? dot) with false by done. replace (colon =? colon) with true by done. simpl.
  by destruct t.
Qed.

Lemma hex16_head g : group_ok g -> exists c r, hex16 g = c :: r /\ hex_char c.
Proof.
  intros Hg. destruct (hex16_spec g Hg) as (H1 & _ & _ & H4).
  destruct (hex16 g) as [|c r]; [done|]. apply Forall_cons_1 in H1 as [H1 _]. eauto.
Qed.

Lemma hex_char_not_colon c : hex_char c -> (c =? colon) = false.
Proof. unfold hex_char, colon. intros H. apply Z.eqb_neq. lia. Qed.

Lemma Join_cons2 sep p q ps : Join sep (p :: q :: ps) = p ++ sep ++ Join sep (q :: ps).
Proof. done. Qed.

Lemma Join_hex_head gs :
  Forall group_ok gs -> gs <> [] ->
  exists c r, Join [colon] (map hex16 gs) = c :: r /\ hex_char c.
Proof.
  intros H Hne. destruct H as [|g gs Hg Hgs]; [done|].
  destruct (hex16_head g Hg) as (c & r & E & Hc).
  destruct gs; simpl; rewrite E; simpl; eauto.
Qed.

(** A final block of groups. *)
Lemma parse6_loop_groups gs fuel acc ell :
  Forall group_ok gs -> gs <> [] -> (length gs <= fuel)%nat ->
  parse6_loop fuel acc ell (Join [colon] (map hex16 gs)) = Some (acc ++ gs, ell, []).
Proof.
  intros H. revert fuel acc; induction H as [|g gs Hg Hgs IH]; intros fuel acc Hne Hf; [done|].
  destruct fuel as [|fuel]; [simpl in Hf; lia|].
  destruct gs as [|g2 gs].
  - cbn [map Join]. rewrite <- (app_nil_r (hex16 g)). by rewrite parse6_loop_group.
  - destruct (Join_hex_head (g2 :: gs) Hgs ltac:(done)) as (c & r & E & Hc).
    cbn [map] in E |- *. rewrite Join_cons2, E. cbn [app].
    rewrite parse6_loop_group by done. rewrite hex_char_not_colon by done.
    rewrite <- E. etrans; [apply (IH fuel (acc ++ [g])); [done|simpl in *; lia]|].
    by rewrite <- app_assoc.
Qed.

(** A leading block of groups followed by the ellipsis. *)
Lemma parse6_loop_ellipsis gs fuel acc tl :
  Forall group_ok gs -> gs <> [] -> (length gs <= fuel)%nat ->
  parse6_loop fuel acc None (Join [colon] (map hex16 gs) ++ colon :: colon :: tl) =
  match tl with
  | [] => Some (acc ++ gs, Some (length (acc ++ gs)), [])
  | _ => parse6_loop (fuel - length gs) (acc ++ gs) (Some (length (acc ++ gs))) tl
  end.
Proof.
  intros H. revert fuel acc; induction H as [|g gs Hg Hgs IH]; intros fuel acc Hne Hf; [done|].
  destruct fuel as [|fuel]; [simpl in Hf; lia|].
  destruct gs as [|g2 gs].
  - cbn [map Join]. rewrite parse6_loop_group by done.
    replace (colon =? colon) with true by done. simpl. by rewrite Nat.sub_0_r.
  - destruct (Join_hex_head (g2 :: gs) Hgs ltac:(done)) as (c & r & E & Hc).
    cbn [map] in E |- *. rewrite Join_cons2, E, <- !app_assoc. cbn [app].
    rewrite parse6_loop_group by done. rewrite hex_char_not_colon by done.
    change (c :: r ++ ?x) with ((c :: r) ++ x). rewrite <- E.
    etrans; [apply (IH fuel (acc ++ [g])); [done|simpl in *; lia]|].
    rewrite <- app_assoc. simpl. done.
Qed.

(** *** The zero run *)

Lemma zeros_from_spec gs :
  take (zeros_from gs) gs = replicate (zeros_from gs) 0 /\ (zeros_from gs <= length gs)%nat.
Proof.
  induction gs as [|g gs [IH1 IH2]]; simpl; [done|].
  destruct (g =? 0) eqn:E; simpl; [bool_hyps; subst|split; [done|lia]].
  rewrite IH1. split; [done|lia].
Qed.

Definition run_ok (gs : list Z) (b : nat * nat) : Prop :=
  b.1 = b.2 \/
  ((b.1 < b.2 <= length gs)%nat /\ take (b.2 - b.1) (drop b.1 gs) = replicate (b.2 - b.1) 0).

Lemma find_run_ok gs i best :
  run_ok gs best -> run_ok gs (find_run i (drop i gs) best).
Proof.
  remember (drop i gs) as r eqn:Er. revert i best Er.
  induction r as [|g r IH]; intros i best Er Hb; cbn [find_run]; [done|].
  apply IH.
  - change (S i) with (1 + i)%nat. rewrite Nat.add_comm, <- drop_drop, <- Er. done.
  - destruct (_ && _)%bool eqn:E; [|done]. right. cbn [fst snd].
    apply andb_true_iff in E as [E _]. apply Nat.leb_le in E.
    destruct (zeros_from_spec (g :: r)) as [Z1 Z2].
    set (l := zeros_from (g :: r)) in *.
    pose proof (f_equal length Er) as Hl. rewrite length_drop in Hl.
    replace (i + l - i)%nat with l by lia. rewrite <- Er. split; [lia|done].
Qed.

Lemma run_decompose gs s e :
  (s < e <= length gs)%nat -> take (e - s) (drop s gs) = replicate (e - s) 0 ->
  gs = take s gs ++ replicate (e - s) 0 ++ drop e gs.
Proof.
  intros H E. rewrite <- E.
  replace (drop e gs) with (drop (e - s) (drop s gs)) by (rewrite drop_drop; f_equal; lia).
  by rewrite take_drop, take_drop.
Qed.

Lemma groups_ok v : Forall group_ok (groups v).
Proof. apply digits_be_bound. lia. Qed.

Lemma length_groups v : length (groups v) = 8%nat.
Proof. apply length_digits_be. Qed.

Lemma HasPrefix_app p t : HasPrefix (p ++ t) p = true.
Proof. unfold HasPrefix. apply bool_decide_eq_true. by rewrite take_app_length. Qed.

Lemma HasPrefix_head c r p q : c <> p -> HasPrefix (c :: r) (p :: q) = false.
Proof. intros H. unfold HasPrefix. apply bool_decide_eq_false. simpl. congruence. Qed.

Lemma hex_ne_colon c : hex_char c -> c <> colon.
Proof. unfold hex_char, colon. lia. Qed.

Lemma finish6_ellipsis a b :
  (length a + length b < 8)%nat ->
  finish6 (a ++ b) (Some (length a)) [] = Some (a ++ replicate (8 - length a - length b) 0 ++ b).
Proof.
  intros H. unfold finish6. rewrite length_app.
  destruct (_ <? 8)%nat eqn:E; [|apply Nat.ltb_ge in E; lia].
  rewrite take_app_length, drop_app_length.
  by replace (8 - (length a + length b))%nat with (8 - length a - length b)%nat by lia.
Qed.

(** The text of an IPv6 value parses back to its groups. *)
Lemma parse6_string6 v : parse6_body (string6 v) = Some (groups v).
Proof.
  unfold string6. pose proof (find_run_ok (groups v) 0 (0, 0)%nat ltac:(by left)) as Hr.
  rewrite drop_0 in Hr.
  pose proof (groups_ok v) as Hok. pose proof (length_groups v) as Hlen.
  destruct (find_run 0 (groups v) (0, 0)%nat) as [s e]. unfold run_ok in Hr. cbn [fst snd] in Hr.
  unfold parse6_body. destruct (s =? e)%nat eqn:E.
  - apply Nat.eqb_eq in E as ->.
    destruct (Join_hex_head (groups v) Hok ltac:(intros H; rewrite H in Hlen; done)) as (c & r & EJ & Hc).
    rewrite EJ, HasPrefix_head by (by apply hex_ne_colon). rewrite <- EJ.
    rewrite parse6_loop_groups; [|done|intros H; rewrite H in Hlen; done|lia].
    cbn [mbind option_bind app]. unfold finish6. by rewrite Hlen.
  - apply Nat.eqb_neq in E. destruct Hr as [Hr|[Hr1 Hr2]]; [done|].
    pose proof (run_decompose _ _ _ Hr1 Hr2) as Hdec.
    pose proof (Forall_take _ s _ Hok) as Ht. pose proof (Forall_drop _ e _ Hok) as Hd.
    assert (Hlt : length (take s (groups v)) = s) by (rewrite length_take; lia).
    assert (Hld : length (drop e (groups v)) = (8 - e)%nat) by (rewrite length_drop; lia).
    set (a := take s (groups v)) in *. set (b := drop e (groups v)) in *.
    transitivity (Some (a ++ replicate (e - s) 0 ++ b)); [|by f_equal].
    assert (Hfin : finish6 (a ++ b) (Some (length a)) [] = Some (a ++ replicate (e - s) 0 ++ b)).
    { rewrite finish6_ellipsis by lia.
      by replace (8 - length a - length b)%nat with (e - s)%nat by lia. }
    clearbody a b. clear Hr2 Hdec Hok.
    assert (Hb : b = [] \/ exists c r, Join [colon] (map hex16 b) = c :: r /\ hex_char c).
    { destruct (decide (b = [])) as [->|]; [by left|right]. by apply Join_hex_head. }
    destruct (decide (a = [])) as [->|Ha].
    + cbn [map Join]. rewrite app_nil_l, (HasPrefix_app [colon; colon]). cbn [app].
      rewrite !skipn_cons, drop_0. destruct Hb as [->|(c & r & EJ & Hc)].
      * cbn [length] in Hld, Hlt. replace (e - s)%nat with 8%nat by lia. reflexivity.
      * rewrite EJ. cbv beta iota. rewrite <- EJ. rewrite parse6_loop_groups.
        -- cbn [mbind option_bind]. apply Hfin.
        -- done.
        -- by intros ->.
        -- rewrite Hld. lia.
    + destruct (Join_hex_head a Ht Ha) as (c & r & EJ & Hc).
      cbn [app]. rewrite EJ. cbn [app]. rewrite HasPrefix_head by (by apply hex_ne_colon).
      change (c :: r ++ ?x) with ((c :: r) ++ x). rewrite <- EJ.
      rewrite parse6_loop_ellipsis by (done || lia). cbn [app].
      destruct Hb as [->|(c' & r' & EJ' & Hc')].
      * cbn [map Join mbind option_bind]. rewrite <- (app_nil_r a) at 1. apply Hfin.
      * rewrite EJ'. cbv beta iota. rewrite <- EJ'. rewrite parse6_loop_groups.
        -- cbn [mbind option_bind]. apply Hfin.
        -- done.
        -- by intros ->.
        -- lia.
Qed.

(** *** IPv4 *)

Definition dec_char (c : Z) : Prop := 48 <= c <= 57.

Lemma FormatUint10_chars n : 0 <= n -> Forall dec_char (FormatUint 10 n).
Proof.
  intros Hn. eapply Forall_weaken; [apply (FormatUint_chars 10 n); lia|].
  unfold dec_char. intros c Hc. lia.
Qed.

(** No leading zero: only zero itself prints a leading '0'. *)
Lemma format_digits_head fuel n c r :
  0 <= n < 10 ^ (Z.of_nat fuel + 1) ->
  format_digits fuel 10 n = c :: r -> c = 48 -> r = [].
Proof.
  revert n c r; induction fuel as [|f IH]; intros n c r Hn; simpl.
  - intros [= <- <-] _. done.
  - destruct (n <? 10) eqn:E; [intros [= <- <-] _; done|]. bool_hyps.
    destruct (format_digits_cons f 10 (n / 10)) as (c' & r' & Ef). rewrite Ef.
    simpl. intros [= <- <-] ->.
    assert (Hb : 0 <= n / 10 < 10 ^ (Z.of_nat f + 1)).
    { split; [apply Z.div_pos; lia|]. apply Z.div_lt_upper_bound; [lia|].
      replace (Z.of_nat (S f) + 1) with (Z.succ (Z.of_nat f + 1)) in Hn by lia.
      rewrite Z.pow_succ_r in Hn by lia. lia. }
    pose proof (IH _ _ _ Hb Ef eq_refl) as ->. exfalso.
    pose proof (parse_fold_format f 10 (n / 10) ltac:(lia) ltac:(lia) ltac:(lia)) as Hp.
    rewrite Ef in Hp. simpl in Hp. injection Hp as Hp.
    pose proof (Z.div_le_lower_bound n 10 1 ltac:(lia) ltac:(lia)). lia.
Qed.

Lemma parse_octet_format n : 0 <= n < 256 -> parse_octet (FormatUint 10 n) = Some n.
Proof.
  intros Hn. unfold parse_octet.
  pose proof (FormatUint10_chars n ltac:(lia)) as Hc.
  assert (Hf : forallb (fun c => (48 <=? c) && (c <=? 57)) (FormatUint 10 n) = true).
  { apply forallb_forall. intros c Hin. apply list_elem_of_In in Hin.
    rewrite Forall_forall in Hc. specialize (Hc c Hin). unfold dec_char in Hc.
    apply andb_true_iff; split; apply Z.leb_le; lia. }
  rewrite Hf. pose proof (parse_digits_FormatUint 10 n ltac:(lia) ltac:(lia)) as Hp.
  pose proof (format_digits_head (Z.to_nat (Z.log2 n)) n) as Hz. fold (FormatUint 10 n) in Hz.
  destruct (FormatUint 10 n) as [|c r]; [done|].
  assert (Hcond : (c =? 48) && (1 <? length (c :: r))%nat = false).
  { destruct (c =? 48) eqn:E; [|done]. bool_hyps.
    rewrite (Hz c r); [done| |done|done]. split; [lia|]. apply log2_fuel; lia. }
  rewrite Hcond, Hp. cbn [mbind option_bind].
  destruct (n <=? 255) eqn:E; bool_hyps; [done|lia].
Qed.

Lemma dec_no_dot n : 0 <= n -> dot ∉ FormatUint 10 n.
Proof.
  intros Hn Hin. pose proof (FormatUint10_chars n Hn) as H. rewrite Forall_forall in H.
  specialize (H _ Hin). unfold dec_char, dot in H. lia.
Qed.

Lemma parseIPv4_string4 v : parseIPv4Fields (string4 v) = Some (digits_be 256 4 v).
Proof.
  unfold parseIPv4Fields, string4.
  pose proof (digits_be_bound 256 4 v ltac:(lia)) as Hb.
  pose proof (length_digits_be 256 4 v) as Hl. set (d := digits_be 256 4 v) in *. clearbody d.
  rewrite Split_Join.
  - assert (Hm : mapM parse_octet (map (FormatUint 10) d) = Some d).
    { clear Hl. induction Hb as [|x d Hx Hd IH]; [done|].
      cbn [map mapM]. rewrite parse_octet_format by lia. cbn [mbind option_bind].
      by rewrite IH. }
    rewrite Hm. cbn [mbind option_bind]. by rewrite Hl.
  - by destruct d.
  - apply Forall_map. eapply Forall_weaken; [exact Hb|]. intros x Hx. cbv beta in Hx. apply dec_no_dot. lia.
Qed.

(** *** Addresses *)

Definition addr_char (c : Z) : Prop := hex_char c \/ c = colon \/ c = dot.

Lemma Join_chars (P : Z -> Prop) sep ps :
  Forall P sep -> Forall (Forall P) ps -> Forall P (Join sep ps).
Proof.
  intros Hs H. induction H as [|p ps Hp Hps IH]; [constructor|].
  destruct ps as [|q ps]; [done|]. rewrite Join_cons2.
  by repeat (apply Forall_app; split).
Qed.

Lemma Forall_hex_groups gs :
  Forall group_ok gs -> Forall (Forall addr_char) (map hex16 gs).
Proof.
  intros H. apply Forall_map. eapply Forall_weaken; [exact H|]. intros g Hg. simpl.
  eapply Forall_weaken; [by apply hex16_spec|]. by left.
Qed.

Lemma string4_chars v : Forall addr_char (string4 v).
Proof.
  apply Join_chars; [by repeat constructor|].
  apply Forall_map. eapply Forall_weaken; [by apply (digits_be_bound 256 4 v)|].
  intros x Hx. cbv beta in Hx. simpl. eapply Forall_weaken; [apply FormatUint10_chars; lia|].
  intros c Hc. left. left. exact Hc.
Qed.

Lemma string6_chars v : Forall addr_char (string6 v).
Proof.
  assert (Hc : addr_char colon) by (right; by left).
  unfold string6. destruct (find_run _ _ _) as [s e].
  pose proof (groups_ok v) as Hok.
  destruct (s =? e)%nat; [apply Join_chars; [by constructor|by apply Forall_hex_groups]|].
  repeat (apply Forall_app; split); try (by repeat constructor);
    (apply Join_chars; [by constructor|]); apply Forall_hex_groups;
    [by apply Forall_take|by apply Forall_drop].
Qed.

Lemma addr_char_not_percent c : addr_char c -> c <> percent.
Proof. unfold addr_char, hex_char, colon, dot, percent. lia. Qed.

Lemma parse_dispatch_hex whole p t :
  Forall hex_char p -> parse_dispatch whole (p ++ t) = parse_dispatch whole t.
Proof.
  induction 1 as [|c p Hc Hp IH]; [done|]. cbn [app parse_dispatch].
  unfold hex_char in Hc.
  destruct (c =? dot) eqn:E1; [bool_hyps; unfold dot in *; lia|].
  destruct (c =? colon) eqn:E2; [bool_hyps; unfold colon in *; lia|].
  destruct (c =? percent) eqn:E3; [bool_hyps; unfold percent in *; lia|]. done.
Qed.

Lemma parse_dispatch_colon whole p t :
  Forall hex_char p -> parse_dispatch whole (p ++ colon :: t) = parseIPv6 whole.
Proof. intros H. by rewrite parse_dispatch_hex. Qed.

Lemma IndexByte_notin s c : c ∉ s -> IndexByte s c = -1.
Proof.
  induction s as [|x s IH]; simpl; intros H; [done|].
  apply not_elem_of_cons in H as [H1 H2]. rewrite (IH H2).
  destruct (x =? c) eqn:E; [bool_hyps; congruence|done].
Qed.

Lemma IndexByte_app s t c : c ∉ s -> IndexByte (s ++ c :: t) c = Z.of_nat (length s).
Proof.
  induction s as [|x s IH]; simpl; intros H; [by rewrite Z.eqb_refl|].
  apply not_elem_of_cons in H as [H1 H2]. rewrite (IH H2).
  destruct (x =? c) eqn:E; [bool_hyps; congruence|].
  destruct (_ =? -1) eqn:E2; bool_hyps; lia.
Qed.

Lemma parseIPv6_zone body z gs :
  Forall addr_char body -> parse6_body body = Some gs ->
  parseIPv6 (body ++ zone_suffix z) = Some (Addr6 (undigits 65536 gs) z).
Proof.
  intros Hb Hp.
  assert (Hn : percent ∉ body).
  { intros Hin. rewrite Forall_forall in Hb. by apply (addr_char_not_percent percent (Hb _ Hin)). }
  unfold parseIPv6. destruct z as [|z0 z].
  - simpl. rewrite app_nil_r, IndexByte_notin by done. simpl. by rewrite Hp.
  - simpl zone_suffix. rewrite IndexByte_app by done.
    destruct (_ =? -1) eqn:E; [bool_hyps; lia|]. rewrite Nat2Z.id.
    rewrite take_app_length. change (S (length body)) with (1 + length body)%nat.
    rewrite Nat.add_comm, <- drop_drop, drop_app_length. simpl. by rewrite Hp.
Qed.

(** The text of an IPv6 value starts with hex digits and a colon. *)
Lemma string6_colon v : exists p t, string6 v = p ++ colon :: t /\ Forall hex_char p.
Proof.
  unfold string6. pose proof (groups_ok v) as Hok. pose proof (length_groups v) as Hlen.
  destruct (find_run _ _ _) as [s e].
  assert (HJ : forall gs rest, Forall group_ok gs -> gs <> [] ->
    exists p t, Join [colon] (map hex16 gs) ++ colon :: rest = p ++ colon :: t /\ Forall hex_char p).
  { intros gs rest H Hne. destruct H as [|g gs Hg Hgs]; [done|].
    destruct (hex16_spec g Hg) as (Hh & _). destruct gs as [|g2 gs].
    - by exists (hex16 g), rest.
    - cbn [map]. rewrite Join_cons2, <- !app_assoc. by eexists _, _. }
  destruct (s =? e)%nat.
  - destruct (groups v) as [|g [|g2 gs]]; [done..|].
    apply Forall_cons_1 in Hok as [Hg _]. destruct (hex16_spec g Hg) as (Hh & _).
    cbn [map]. rewrite Join_cons2. by eexists _, _.
  - destruct (decide (take s (groups v) = [])) as [->|Hne].
    + simpl. eexists [], _. split; [done|constructor].
    + apply HJ; [by apply Forall_take|done].
Qed.

(** The embedded form of a mapped address. *)
Lemma parse6_mapped v :
  0 <= v < 2 ^ 32 -> parse6_body (bs "::ffff:" ++ string4 v) = Some (groups (mapped_prefix + v)).
Proof.
  intros Hv. pose proof (parseIPv4_string4 v) as H4.
  pose proof (string4_chars v) as Hch.
  pose proof (digits_be_bound 256 4 v ltac:(lia)) as Hb.
  pose proof (length_digits_be 256 4 v) as Hl.
  pose proof (undigits_digits 256 4 v ltac:(lia) ltac:(lia)) as Hu.
  remember (digits_be 256 4 v) as d eqn:Ed.
  destruct d as [|d0 [|d1 [|d2 [|d3 [|]]]]]; try done.
  assert (Hd : exists t, string4 v = FormatUint 10 d0 ++ dot :: t).
  { unfold string4. rewrite <- Ed. cbn [map]. rewrite Join_cons2. by eexists. }
  destruct Hd as [t Ht].
  repeat match goal with H : Forall _ (_ :: _) |- _ => apply Forall_cons_1 in H as [? H] end.
  set (s4 := string4 v) in *. clearbody s4.
  change (bs "::ffff:" ++ s4) with ([colon; colon] ++ hex16 0xffff ++ colon :: s4).
  unfold parse6_body. rewrite HasPrefix_app. cbn [app]. rewrite !skipn_cons, drop_0.
  assert (Hs4 : exists c r, s4 = c :: r /\ hex_char c).
  { rewrite Ht. unfold FormatUint.
    destruct (format_digits_cons (Z.to_nat (Z.log2 d0)) 10 d0) as (c & r & E).
    exists c, (r ++ dot :: t). rewrite E. split; [done|].
    pose proof (FormatUint10_chars d0 ltac:(lia)) as Hc. unfold FormatUint in Hc. rewrite E in Hc.
    apply Forall_cons_1 in Hc as [Hc _]. by left. }
  assert (Hloop : parse6_loop 8 [] (Some 0%nat) (hex16 0xffff ++ colon :: s4)
    = Some ([0xffff; undigits 256 [d0; d1]; undigits 256 [d2; d3]], Some 0%nat, [])).
  { rewrite parse6_loop_group by (done || (unfold group_ok; lia)).
    destruct Hs4 as (c & r & E & Hc). rewrite E, hex_char_not_colon by done. rewrite <- E. clear E.
    cbn [parse6_loop]. rewrite Ht at 1. rewrite span_hex_app.
    - assert (Hlen : (length (FormatUint 10 d0) <= 3)%nat) by (apply (format_digits_length _ 10 d0 2); lia).
      destruct (4 <? _)%nat eqn:E; [apply Nat.ltb_lt in E; lia|].
      assert (Hpd : exists g, parse_digits 16 (FormatUint 10 d0) = Some g).
      { assert (Hall : forallb (fun n => bool_decide (is_Some (parse_digits 16 (FormatUint 10 n))))
                         (map Z.of_nat (seq 0 256)) = true) by (vm_compute; reflexivity).
        rewrite forallb_forall in Hall.
        assert (Hin : In d0 (map Z.of_nat (seq 0 256))).
        { apply in_map_iff. exists (Z.to_nat d0). split; [lia|]. apply in_seq. lia. }
        specialize (Hall d0 Hin). by apply bool_decide_eq_true in Hall. }
      destruct Hpd as [g ->]. replace (dot =? dot) with true by done. simpl. by rewrite H4.
    - eapply Forall_weaken; [apply FormatUint10_chars; lia|]. intros x Hx. by left.
    - by right. }
  destruct (hex16 65535 ++ colon :: s4) as [|x l] eqn:E; [done|].
  cbv beta iota. rewrite Hloop. cbn [mbind option_bind]. unfold finish6. simpl.
  f_equal. unfold groups.
  change ([0; 0; 0; 0; 0; 65535; undigits 256 [d0; d1]; undigits 256 [d2; d3]])
    with ([0; 0; 0; 0; 0; 65535; undigits 256 [d0; d1]; undigits 256 [d2; d3]] : list Z).
  rewrite <- (digits_undigits 65536 [0; 0; 0; 0; 0; 65535; undigits 256 [d0; d1]; undigits 256 [d2; d3]]).
  - f_equal. rewrite <- Hu. unfold undigits, mapped_prefix. simpl. rewrite Z.shiftl_mul_pow2 by lia. lia.
  - lia.
  - repeat constructor; unfold undigits; simpl; lia.
Qed.

Lemma Is4In6_split v z :
  0 <= v < 2 ^ 128 -> Is4In6 (Addr6 v z) = true ->
  v = mapped_prefix + v mod 2 ^ 32 /\ 0 <= v mod 2 ^ 32 < 2 ^ 32.
Proof.
  intros Hv H. unfold Is4In6 in H. bool_hyps.
  rewrite Z.shiftr_div_pow2 in H by lia. unfold mapped_prefix.
  pose proof (Z.div_mod v (2 ^ 32) ltac:(lia)). pose proof (Z.mod_pos_bound v (2 ^ 32) ltac:(lia)).
  rewrite Z.shiftl_mul_pow2 by lia. lia.
Qed.

Lemma undigits_groups v : 0 <= v < 2 ^ 128 -> undigits 65536 (groups v) = v.
Proof. intros H. apply undigits_digits; [lia|]. exact H. Qed.

Lemma string4_dispatch whole v :
  parse_dispatch whole (string4 v) =
  (f ← parseIPv4Fields whole; Some (Addr4 (undigits 256 f))).
Proof.
  unfold string4. pose proof (length_digits_be 256 4 v) as Hl.
  pose proof (digits_be_bound 256 4 v ltac:(lia)) as Hb.
  destruct (digits_be 256 4 v) as [|a [|b d]]; [done..|].
  apply Forall_cons_1 in Hb as [Ha _]. cbn [map]. rewrite Join_cons2. cbn [app].
  rewrite parse_dispatch_hex; [done|].
  eapply Forall_weaken; [apply FormatUint10_chars; lia|]. intros c Hc. by left.
Qed.

Lemma mapped_chars : Forall addr_char (bs "::ffff:").
Proof.
  change (bs "::ffff:") with [58; 58; 102; 102; 102; 102; 58].
  assert (addr_char 58) by (right; by left).
  assert (addr_char 102) by (left; unfold hex_char; lia).
  repeat (apply Forall_cons_2; [assumption|]). constructor.
Qed.

Lemma ParseAddr_String a : addr_wf a -> ParseAddr (addr_String a) = Some a.
Proof.
  destruct a as [|v|v z]; simpl addr_wf; intros Hw; [done| |].
  - unfold ParseAddr. simpl addr_String. rewrite string4_dispatch, parseIPv4_string4.
    cbn [mbind option_bind]. by rewrite (undigits_digits 256 4).
  - unfold ParseAddr, addr_String. destruct (Is4In6 (Addr6 v z)) eqn:E.
    + destruct (Is4In6_split v z Hw E) as [Hv Hm].
      rewrite <- app_assoc. change (bs "::ffff:" ++ ?x) with ([] ++ colon :: bs ":ffff:" ++ x) at 2.
      rewrite parse_dispatch_colon by constructor. rewrite app_assoc.
      rewrite (parseIPv6_zone _ z (groups (mapped_prefix + v mod 2 ^ 32))).
      * by rewrite undigits_groups, <- Hv by (by rewrite <- Hv).
      * apply Forall_app; split; [apply mapped_chars|apply string4_chars].
      * by apply parse6_mapped.
    + destruct (string6_colon v) as (p & t & Ep & Hp).
      rewrite Ep at 2. rewrite <- app_assoc. cbn [app]. rewrite parse_dispatch_colon by done.
      rewrite (parseIPv6_zone _ z (groups v) (string6_chars v) (parse6_string6 v)).
      by rewrite undigits_groups.
Qed.

Lemma addr_String_inj a b :
  addr_wf a -> addr_wf b -> addr_String a = addr_String b -> a = b.
Proof.
  intros Ha Hb E. apply (f_equal ParseAddr) in E.
  rewrite !ParseAddr_String in E by done. congruence.
Qed.

(** Zone-free text uses only hex digits, colons and dots. *)
Definition zoneless (a : Addr) : Prop := match a with Addr6 _ z => z = [] | _ => True end.

Lemma addr_String_chars a : addr_wf a -> zoneless a -> Forall addr_char (addr_String a).
Proof.
  destruct a as [|v|v z]; intros Hw Hz; [done|apply string4_chars|].
  cbn [zoneless] in Hz. subst z. unfold addr_String. cbn [zone_suffix].
  rewrite app_nil_r. destruct (Is4In6 _); [|apply string6_chars].
  apply Forall_app; split; [apply mapped_chars|apply string4_chars].
Qed.

Lemma length_As16 a : length (As16 a) = 16%nat.
Proof. destruct a; [done|apply length_digits_be..]. Qed.

(** Among zoneless addresses that are not IPv4-mapped, [As16] is injective. *)
Definition plain6 (a : Addr) : Prop :=
  match a with Addr6 v z => z = [] /\ 0 <= v < 2 ^ 128 | _ => False end.

Lemma As16_inj a b : plain6 a -> plain6 b -> As16 a = As16 b -> a = b.
Proof.
  destruct a as [| |v z], b as [| |v' z']; simpl; try done.
  intros [-> Hv] [-> Hv'] E. f_equal. by apply (digits_be_inj 256 16).
Qed.

Lemma plain6_wf a : plain6 a -> addr_wf a /\ zoneless a.
Proof. by destruct a as [| |v z]; simpl; intros []. Qed.

#[export] Hint Resolve ParseAddr_String addr_String_inj plain6_wf length_As16 : fips.
