(* ===== verification/GoFloat.v ===== *)
(** * strconv.FormatFloat

    [strconv.FormatFloat(f, 'g', -1, 64)]: the shortest decimal that rounds to [f],
    on IEEE 754 binary64 as the Standard Library specifies it. *)

From S2P Require Import Prelude GoStrings Netip.
From Stdlib Require Import SpecFloat.

Module GoFloat.

Abbreviation float64 := spec_float (only parsing).

(** ** Shortest digits *)

(** The decimal of [m * 2 ^ e] in units of [10 ^ p], if one of the two neighbours lies
    between the midpoints to the next floats (the midpoints belong to an even [m]);
    the nearer one if both do.  Everything is scaled by [2 ^ (2 - e)]. *)
Definition digits_at (m e p : Z) : option Z :=
  let num := 2 ^ Z.max (e - 2) 0 * 10 ^ Z.max (- p) 0 in
  let den := 10 ^ Z.max p 0 * 2 ^ Z.max (2 - e) 0 in
  let upper := 4 * m + 2 in
  let lower := if (m =? 2 ^ 52) && (-1074 <? e) then 4 * m - 1 else 4 * m - 2 in
  let v := 4 * m * num in
  let down := v / den in
  let up := down + 1 in
  let within x y := if Z.even m then x <=? y else x <? y in
  let okdown := (0 <? down) && within (lower * num) (down * den) in
  let okup := within (up * den) (upper * num) in
  if okdown && okup then
    let r := 2 * (v - down * den) in
    Some (if r <? den then down else if den <? r then up else if Z.even down then down else up)
  else if okdown then Some down
  else if okup then Some up
  else None.

(** The largest unit that works. *)
Fixpoint shortest (fuel : nat) (m e p : Z) : Z * Z :=
  match fuel with
  | O => (0, p)
  | S f => match digits_at m e p with
           | Some d => (d, p)
           | None => shortest f m e (p - 1)
           end
  end.

(** A unit above [m * 2 ^ e]: a float below 2^(k+1) is below 10^(k * log10 2 + 2). *)
Definition first_unit (m e : Z) : Z := (Z.log2 m + e) * 30103 / 100000 + 2.

(** From 10^310 down to 10^-324. *)
Definition shortest_fuel : nat := 635.

(** ** %e and %f *)

Definition two_digits (n : Z) : gostr := (if n <? 10 then [48] else []) ++ FormatUint 10 n.

Definition fmtE (ds : gostr) (exp : Z) : gostr :=
  take 1 ds ++ (match drop 1 ds with [] => [] | r => 46 :: r end) ++ [101; if exp <? 0 then 45 else 43] ++ two_digits (Z.abs exp).

(** [dp] is the position of the decimal point. *)
Definition fmtF (ds : gostr) (dp : Z) : gostr :=
  let nd := Z.of_nat (length ds) in
  let whole := if 0 <? dp then take (Z.to_nat dp) ds ++ replicate (Z.to_nat (dp - nd)) 48 else [48] in
  let prec := Z.max (nd - dp) 0 in
  whole ++ (if 0 <? prec then 46 :: replicate (Z.to_nat (- dp)) 48 ++ drop (Z.to_nat dp) ds else []).

Definition fmtG (ds : gostr) (dp : Z) : gostr :=
  let exp := dp - 1 in
  if (exp <? -4) || (6 <=? exp) then fmtE ds exp else fmtF ds dp.

Definition FormatFloat (f : float64) : gostr :=
  match f with
  | S754_nan => bs "NaN"
  | S754_infinity s => (if s then [45] else [43]) ++ bs "Inf"
  | S754_zero s => (if s then [45] else []) ++ [48]
  | S754_finite s m e =>
      let '(d, p) := shortest shortest_fuel (Zpos m) e (first_unit (Zpos m) e) in
      let ds := FormatUint 10 d in
      (if s then [45] else []) ++ fmtG ds (Z.of_nat (length ds) + p)
  end.

(** ** Facts *)

(** A unit no larger than the distance to the lower midpoint works, so the search
    ends. *)
Lemma digits_at_fine m e p : 0 < m -> -1074 <= e -> p <= -324 -> is_Some (digits_at m e p).
Proof.
  intros Hm He Hp. unfold digits_at.
  set (num := 2 ^ Z.max (e - 2) 0 * 10 ^ Z.max (- p) 0). set (den := 10 ^ Z.max p 0 * 2 ^ Z.max (2 - e) 0).
  assert (Hden : 0 < den) by (unfold den; apply Z.mul_pos_pos; apply Z.pow_pos_nonneg; lia).
  assert (Hnd : den <= num).
  { unfold num, den. rewrite (Z.max_r p 0) by lia. rewrite Z.pow_0_r, Z.mul_1_l, (Z.max_l (- p) 0) by lia.
    assert (H1 : 10 ^ 324 <= 10 ^ (- p)) by (apply Z.pow_le_mono_r; lia).
    assert (H2 : 2 ^ Z.max (2 - e) 0 <= 2 ^ 1076) by (apply Z.pow_le_mono_r; lia).
    assert (H3 : 2 ^ 1076 <= 10 ^ 324) by (vm_compute; discriminate).
    assert (H4 : 1 <= 2 ^ Z.max (e - 2) 0) by (apply (Z.pow_le_mono_r 2 0); lia). nia. }
  pose proof (Z.div_mod (4 * m * num) den ltac:(lia)) as Hdm. pose proof (Z.mod_pos_bound (4 * m * num) den Hden) as Hr.
  set (down := 4 * m * num / den) in *. set (lower := if (m =? 2 ^ 52) && _ then _ else _).
  assert (Hl : lower <= 4 * m - 1) by (subst lower; destruct (_ && _); lia).
  assert (Hlow : lower * num < down * den) by nia. assert (Hpos : 0 < down) by nia.
  assert (Hok : (0 <? down) && (if Z.even m then lower * num <=? down * den else lower * num <? down * den) = true).
  { rewrite (proj2 (Z.ltb_lt 0 down) Hpos). cbn [andb]. destruct (Z.even m); [apply Z.leb_le; lia|by apply Z.ltb_lt]. }
  rewrite Hok. cbn [andb]. set (okup := if Z.even m then (down + 1) * den <=? _ else _). destruct okup; eauto.
Qed.

Lemma digits_at_pos m e p d : 0 < m -> digits_at m e p = Some d -> 0 < d.
Proof.
  intros Hm. unfold digits_at. set (down := _ / _). set (okup := if Z.even m then (down + 1) * _ <=? _ else _).
  set (ok := if Z.even m then _ <=? down * _ else _).
  assert (Hd : 0 <= down).
  { apply Z.div_pos; [|apply Z.mul_pos_pos; apply Z.pow_pos_nonneg; lia].
    apply Z.mul_nonneg_nonneg; [lia|]. apply Z.mul_nonneg_nonneg; apply Z.pow_nonneg; lia. }
  destruct (0 <? down) eqn:E; bool_hyps; cbn [andb].
  - destruct ok, okup; cbn [andb]; intros [= <-]; repeat case_match; lia.
  - destruct okup; intros [= <-]; lia.
Qed.

(** The fuel suffices: digits are found for every float. *)
Lemma shortest_found m e : 0 < m < 2 ^ 53 -> -1074 <= e <= 971 -> 0 < (shortest shortest_fuel m e (first_unit m e)).1.
Proof.
  intros Hm He.
  assert (H : forall fuel p, p - Z.of_nat fuel < -324 -> (0 < fuel)%nat -> 0 < (shortest fuel m e p).1).
  { induction fuel as [|fuel IH]; intros p H1 H2; [lia|]. cbn [shortest]. destruct (digits_at m e p) as [d|] eqn:E.
    - apply digits_at_pos in E; [done|lia].
    - destruct (decide (p <= -324)) as [Hp|Hp]; [|apply IH; lia].
      destruct (digits_at_fine m e p ltac:(lia) ltac:(lia) Hp) as [d Hd]. congruence. }
  apply H; [|unfold shortest_fuel; lia].
  assert (Z.log2 m < 53) by (apply Z.log2_lt_pow2; lia). change (Z.of_nat shortest_fuel) with 635. unfold first_unit.
  assert ((Z.log2 m + e) * 30103 / 100000 <= 308) by (apply Z.lt_succ_r, Z.div_lt_upper_bound; lia). lia.
Qed.

(** The characters of a number. *)
Definition number_char (c : Z) : Prop := 43 <= c <= 57 \/ 73 <= c <= 110.

Lemma FormatUint_number n : 0 <= n -> Forall number_char (FormatUint 10 n).
Proof.
  intros Hn. eapply Forall_impl; [apply FormatUint_chars; lia|]. unfold number_char. cbn. lia.
Qed.

Lemma zeros_number k : Forall number_char (replicate k 48).
Proof. apply Forall_replicate. left. lia. Qed.

Lemma fmtG_number ds dp : Forall number_char ds -> Forall number_char (fmtG ds dp).
Proof.
  intros Hd. assert (Hc : forall c, 43 <= c <= 57 \/ 73 <= c <= 110 -> number_char c) by done.
  unfold fmtG, fmtE, fmtF, two_digits. cbn zeta. destruct (_ || _).
  - apply Forall_app. split; [by apply Forall_take|]. apply Forall_app. split.
    + pose proof (Forall_drop _ 1 _ Hd) as H1. destruct (drop 1 ds); [constructor|]. constructor; [apply Hc; lia|done].
    + constructor; [apply Hc; lia|]. constructor; [destruct (_ <? 0); apply Hc; lia|]. apply Forall_app. split; [|apply FormatUint_number; lia].
      destruct (_ <? 10); [constructor; [apply Hc; lia|constructor]|constructor].
  - apply Forall_app. split.
    + destruct (0 <? dp); [|constructor; [apply Hc; lia|constructor]]. apply Forall_app. split; [by apply Forall_take|apply zeros_number].
    + destruct (0 <? _); [|constructor]. constructor; [apply Hc; lia|]. apply Forall_app. split; [apply zeros_number|by apply Forall_drop].
Qed.

Lemma shortest_nonneg fuel m e p : 0 < m -> 0 <= (shortest fuel m e p).1.
Proof.
  intros Hm. revert p. induction fuel as [|fuel IH]; intros p; cbn [shortest]; [done|].
  destruct (digits_at m e p) eqn:E; [|apply IH]. apply digits_at_pos in E; cbn; lia.
Qed.

Lemma FormatFloat_number f : Forall number_char (FormatFloat f).
Proof.
  assert (Hs : forall s : bool, Forall number_char (if s then [45] else [])) by (intros []; [constructor; [left; lia|]|]; constructor).
  destruct f as [s|s| |s m e]; cbn [FormatFloat].
  - apply Forall_app. split; [done|]. constructor; [left; lia|constructor].
  - destruct s; cbn; repeat (apply Forall_cons_2; [unfold number_char; lia|]); apply Forall_nil_2.
  - cbn. repeat (apply Forall_cons_2; [unfold number_char; lia|]). apply Forall_nil_2.
  - pose proof (shortest_nonneg shortest_fuel (Zpos m) e (first_unit (Zpos m) e) ltac:(lia)) as Hn. destruct (shortest _ _ _ _) as [d p]. cbn in Hn.
    apply Forall_app. split; [done|]. by apply fmtG_number, FormatUint_number.
Qed.

(** Known texts: 0.1, 5e-324, 1e23, 123456.5 and the time of a heartbeat. *)
Example format_samples :
  map FormatFloat [S754_finite false 7205759403792794 (-56); S754_finite false 1 (-1074); S754_finite false 5960464477539062 24;
                   S754_finite false 246913 (-1); S754_finite true 3400000001 (-1)] =
  [bs "0.1"; bs "5e-324"; bs "1e+23"; bs "123456.5"; bs "-1.7000000005e+09"].
Proof. vm_compute. reflexivity. Qed.

End GoFloat.
