(* ===== verification/GoNet.v ===== *)
(** * More of Go's standard library

    [base64.StdEncoding.Strict()], [net.SplitHostPort] and the query escaping of net/url,
    on byte lists. *)

From S2P Require Import Prelude GoStrings Netip.

(** ** base64.StdEncoding *)

Definition std_charset : gostr :=
  bs "ABCDEFGHIJKLMNOPQRSTUVWXYZabcdefghijklmnopqrstuvwxyz0123456789+/".
Definition std_char (i : Z) : Z := default 0 (std_charset !! Z.to_nat i).
Definition std_val (c : Z) : option Z :=
  let i := IndexByte std_charset c in if i =? -1 then None else Some i.
Definition pad_char : Z := 61.

Fixpoint StdEncode (b : list Z) : gostr :=
  match b with
  | x :: y :: z :: r =>
      std_char (x / 4) :: std_char (x mod 4 * 16 + y / 16)
        :: std_char (y mod 16 * 4 + z / 64) :: std_char (z mod 64) :: StdEncode r
  | [x; y] => [std_char (x / 4); std_char (x mod 4 * 16 + y / 16); std_char (y mod 16 * 4); pad_char]
  | [x] => [std_char (x / 4); std_char (x mod 4 * 16); pad_char; pad_char]
  | [] => []
  end.

(** Quanta of four characters; the padded one is the last, and its unused bits
    are zero. *)
Fixpoint std_decode (s : gostr) : option (list Z) :=
  match s with
  | [] => Some []
  | a :: b :: c :: d :: r =>
      va ← std_val a; vb ← std_val b;
      if c =? pad_char then
        if (d =? pad_char) && bool_decide (r = []) && (vb mod 16 =? 0) then Some [va * 4 + vb / 16] else None
      else
        vc ← std_val c;
        if d =? pad_char then
          if bool_decide (r = []) && (vc mod 4 =? 0) then Some [va * 4 + vb / 16; vb mod 16 * 16 + vc / 4] else None
        else
          vd ← std_val d; rest ← std_decode r;
          Some (va * 4 + vb / 16 :: vb mod 16 * 16 + vc / 4 :: vc mod 4 * 64 + vd :: rest)
  | _ => None
  end.

(** Carriage returns and newlines are skipped. *)
Definition StdDecodeStrict (s : gostr) : option (list Z) :=
  std_decode (filter (fun c => c <> 10 /\ c <> 13) s).

(** ** net.SplitHostPort *)

(** [None] is an error; [s[i:j]] is [take (j - i) (drop i s)]. *)
Definition SplitHostPort (hostport : gostr) : option (gostr * gostr) :=
  let i := LastIndexByte hostport 58 in
  if i <? 0 then None else
  let finish (host : gostr) (j k : Z) :=
    if 0 <=? IndexByte (drop (Z.to_nat j) hostport) 91 then None else
    if 0 <=? IndexByte (drop (Z.to_nat k) hostport) 93 then None else
    Some (host, drop (Z.to_nat (i + 1)) hostport) in
  if bool_decide (head hostport = Some 91) then
    let e := IndexByte hostport 93 in
    if e <? 0 then None else
    if e + 1 =? Z.of_nat (length hostport) then None else
    if negb (e + 1 =? i) then None else
    finish (take (Z.to_nat (e - 1)) (drop 1 hostport)) 1 (e + 1)
  else
    let host := take (Z.to_nat i) hostport in
    if 0 <=? IndexByte host 58 then None else finish host 0 0.

(** ** Facts *)

Lemma std_table :
  forallb (fun i => bool_decide (std_val (std_char i) = Some i)
                    && negb (std_char i =? 10) && negb (std_char i =? 13)
                    && negb (std_char i =? 124) && negb (std_char i =? pad_char) && negb (is_space (std_char i)))
          (map Z.of_nat (seq 0 64)) = true.
Proof. vm_compute. reflexivity. Qed.

Lemma std_ascii : forallb (fun i => (0 <=? std_char i) && (std_char i <? 128)) (map Z.of_nat (seq 0 64)) = true.
Proof. vm_compute. reflexivity. Qed.

(** A character of the padded alphabet: no white space, no '|'. *)
Definition std_plain (c : Z) : Prop := c <> 10 /\ c <> 13 /\ c <> 124 /\ is_space c = false.

Lemma std_char_facts i :
  0 <= i < 64 -> std_val (std_char i) = Some i /\ std_char i <> pad_char /\ std_plain (std_char i).
Proof.
  intros Hi. pose proof std_table as Ht. rewrite forallb_forall in Ht.
  assert (Hin : In i (map Z.of_nat (seq 0 64))).
  { apply in_map_iff. exists (Z.to_nat i). split; [lia|]. apply in_seq. lia. }
  specialize (Ht i Hin). bool_hyps. unfold std_plain. done.
Qed.

Lemma std_val_char i : 0 <= i < 64 -> std_val (std_char i) = Some i.
Proof. intros H. by apply std_char_facts. Qed.

Lemma std_char_pad i : 0 <= i < 64 -> (std_char i =? pad_char) = false.
Proof. intros H. apply Z.eqb_neq. by apply std_char_facts. Qed.

Lemma std_val_Some c v : std_val c = Some v -> 0 <= v < 64 /\ std_char v = c.
Proof.
  unfold std_val, std_char. remember std_charset as cs eqn:Ecs. intros H.
  destruct (IndexByte cs c =? -1) eqn:E; [discriminate|]. injection H as <-. bool_hyps.
  destruct (IndexByte_Some cs c _ eq_refl E) as [Hl Hb]. rewrite Hl.
  assert (length cs = 64%nat) by (subst cs; reflexivity). split; [lia|reflexivity].
Qed.

#[local] Opaque std_val std_char pad_char.

Lemma std_ind (P : list Z -> Prop) :
  P [] -> (forall x, P [x]) -> (forall x y, P [x; y]) -> (forall x y z, P [x; y; z]) ->
  (forall x y z w r, P r -> P (x :: y :: z :: w :: r)) -> forall l, P l.
Proof.
  intros H0 H1 H2 H3 H4. fix IH 1. intros [|x [|y [|z [|w r]]]];
    [exact H0 | exact (H1 x) | exact (H2 x y) | exact (H3 x y z) | apply H4, IH].
Qed.

Lemma std_decode_encode b : Forall in_u8 b -> std_decode (StdEncode b) = Some b.
Proof.
  induction b as [|x|x y|x y z r IH] using b64_ind; intros H; [done|..];
    repeat match goal with H : Forall _ (_ :: _) |- _ => apply Forall_cons_1 in H as [? H] end.
  - destruct (b64_split2 x 0 ltac:(done) ltac:(unfold in_u8; lia)) as (Q1 & Q2 & Q3 & Q4).
    change (0 / 16) with 0 in *. rewrite Z.add_0_r in *.
    cbn [StdEncode std_decode]. rewrite !std_val_char by done. cbn [mbind option_bind]. rewrite Q3, Q4. done.
  - destruct (b64_split2 x y ltac:(done) ltac:(done)) as (Q1 & Q2 & Q3 & Q4).
    assert (Hy : 0 <= y mod 16 * 4 < 64) by (div_mod_bounds; lia).
    cbn [StdEncode std_decode]. rewrite !std_val_char, std_char_pad by done. cbn [mbind option_bind].
    rewrite Z.eqb_refl, Z.mod_mul, Q3, Q4, Z.div_mul by lia. rewrite bool_decide_eq_true_2 by done. cbn [andb Z.eqb].
    repeat f_equal. unfold in_u8 in *. div_mod_bounds; lia.
  - destruct (b64_split2 x y ltac:(done) ltac:(done)) as (Q1 & Q2 & Q3 & Q4).
    unfold in_u8 in *.
    assert (Hz : 0 <= z / 64 < 4) by (div_mod_bounds; lia).
    assert (Hz' : 0 <= z mod 64 < 64) by (div_mod_bounds; lia).
    assert (Hy : 0 <= y mod 16 * 4 + z / 64 < 64) by (div_mod_bounds; lia).
    cbn [StdEncode std_decode]. rewrite !std_val_char, !std_char_pad by done. cbn [mbind option_bind].
    rewrite IH by done. cbn [mbind option_bind]. rewrite Q3, Q4.
    replace (y mod 16 * 4 + z / 64) with (z / 64 + y mod 16 * 4) by lia.
    rewrite Z.div_add, Z.mod_add, (Z.div_small (z / 64)), (Z.mod_small (z / 64)) by lia.
    repeat f_equal; div_mod_bounds; lia.
Qed.

(** Four sextets are three bytes. *)
Lemma sextet_split u v : 0 <= u < 64 -> 0 <= v < 64 ->
  in_u8 (u * 4 + v / 16) /\ (u * 4 + v / 16) / 4 = u /\ (u * 4 + v / 16) mod 4 = v / 16.
Proof.
  intros Hu Hv. assert (Hq : 0 <= v / 16 < 4) by (div_mod_bounds; lia). unfold in_u8.
  replace (u * 4 + v / 16) with (v / 16 + u * 4) by lia.
  rewrite Z.div_add, Z.mod_add, (Z.div_small (v / 16) 4), (Z.mod_small (v / 16) 4) by lia. lia.
Qed.

Lemma sextet_split2 v w : 0 <= v < 64 -> 0 <= w < 64 ->
  in_u8 (v mod 16 * 16 + w / 4) /\ (v mod 16 * 16 + w / 4) / 16 = v mod 16 /\ (v mod 16 * 16 + w / 4) mod 16 = w / 4.
Proof.
  intros Hv Hw. assert (Hq : 0 <= w / 4 < 16) by (div_mod_bounds; lia). pose proof (Z.mod_pos_bound v 16 ltac:(lia)). unfold in_u8.
  replace (v mod 16 * 16 + w / 4) with (w / 4 + v mod 16 * 16) by lia.
  rewrite Z.div_add, Z.mod_add, (Z.div_small (w / 4) 16), (Z.mod_small (w / 4) 16) by lia. lia.
Qed.

Lemma sextet_split3 w x : 0 <= w < 64 -> 0 <= x < 64 ->
  in_u8 (w mod 4 * 64 + x) /\ (w mod 4 * 64 + x) / 64 = w mod 4 /\ (w mod 4 * 64 + x) mod 64 = x.
Proof.
  intros Hw Hx. pose proof (Z.mod_pos_bound w 4 ltac:(lia)). unfold in_u8.
  replace (w mod 4 * 64 + x) with (x + w mod 4 * 64) by lia.
  rewrite Z.div_add, Z.mod_add, (Z.div_small (x) 64), (Z.mod_small (x) 64) by lia. lia.
Qed.

(** The strict decoder accepts only what the encoder produces. *)
Lemma std_decode_inv s b : std_decode s = Some b -> Forall in_u8 b /\ s = StdEncode b.
Proof.
  revert b. induction s as [|?|? ?|? ? ?|c1 c2 c3 c4 r IH] using std_ind; intros b H; try discriminate.
  - by injection H as <-.
  - cbn [std_decode] in H. destruct (std_val c1) as [u|] eqn:E1; [|discriminate]. destruct (std_val c2) as [v|] eqn:E2; [|discriminate].
    cbn [mbind option_bind] in H. apply std_val_Some in E1 as [Hu Eu], E2 as [Hv Ev].
    destruct (sextet_split u v Hu Hv) as (B1 & D1 & M1). pose proof (Z.div_mod v 16 ltac:(lia)) as Dv.
    destruct (c3 =? pad_char) eqn:P3.
    + destruct (_ && _) eqn:C in H; [|discriminate]. injection H as <-. bool_hyps. subst r c3 c4. split; [repeat (apply Forall_cons_2; [assumption|]); first [assumption|apply Forall_nil_2]|].
      cbn [StdEncode]. rewrite D1, M1, <- Eu, <- Ev. do 2 f_equal. f_equal. lia.
    + destruct (std_val c3) as [w|] eqn:E3; [|discriminate]. cbn [mbind option_bind] in H. apply std_val_Some in E3 as [Hw Ew].
      destruct (sextet_split2 v w Hv Hw) as (B2 & D2 & M2). pose proof (Z.div_mod w 4 ltac:(lia)) as Dw.
      destruct (c4 =? pad_char) eqn:P4.
      * destruct (_ && _) eqn:C in H; [|discriminate]. injection H as <-. bool_hyps. subst r c4. split; [repeat (apply Forall_cons_2; [assumption|]); first [assumption|apply Forall_nil_2]|].
        cbn [StdEncode]. rewrite D1, M1, D2, M2, <- Eu, <- Ev, <- Ew. f_equal. f_equal; [f_equal; lia|]. do 2 f_equal. lia.
      * destruct (std_val c4) as [x|] eqn:E4; [|discriminate]. cbn [mbind option_bind] in H. apply std_val_Some in E4 as [Hx Ex].
        destruct (std_decode r) as [rest|]; [|discriminate]. injection H as <-. destruct (IH rest eq_refl) as [HF Er].
        destruct (sextet_split3 w x Hw Hx) as (B3 & D3 & M3).
        split; [repeat (apply Forall_cons_2; [assumption|]); first [assumption|apply Forall_nil_2]|]. cbn [StdEncode]. rewrite D1, M1, D2, M2, D3, M3, <- Eu, <- Ev, <- Ew, <- Ex, Er.
        f_equal. f_equal; [f_equal; lia|]. f_equal. f_equal. lia.
Qed.

(** What holds of the alphabet and the padding holds of every character. *)
Lemma StdEncode_alphabet (P : Z -> Prop) b : P pad_char -> (forall i, 0 <= i < 64 -> P (std_char i)) -> Forall in_u8 b -> Forall P (StdEncode b).
Proof.
  intros Hpad Hc. induction b as [|x|x y|x y z r IH] using b64_ind; intros H; [constructor|..];
    repeat match goal with H : Forall _ (_ :: _) |- _ => apply Forall_cons_1 in H as [? H] end;
    unfold in_u8 in *; cbn [StdEncode].
  - repeat (constructor; [first [exact Hpad|apply Hc; div_mod_bounds; lia]|]). constructor.
  - destruct (b64_split2 x y ltac:(done) ltac:(done)) as (Q1 & Q2 & _).
    repeat (constructor; [first [exact Hpad|apply Hc; try done; div_mod_bounds; lia]|]). constructor.
  - destruct (b64_split2 x y ltac:(done) ltac:(done)) as (Q1 & Q2 & _).
    repeat (constructor; [apply Hc; try done; div_mod_bounds; lia|]). by apply IH.
Qed.

Lemma StdEncode_chars b : Forall in_u8 b -> Forall std_plain (StdEncode b).
Proof. apply StdEncode_alphabet; [unfold std_plain; repeat split; done || reflexivity|]. intros i Hi. by apply std_char_facts. Qed.

Lemma StdEncode_ascii b : Forall in_u8 b -> Forall (fun c => 0 <= c < 128) (StdEncode b).
Proof.
  apply StdEncode_alphabet; [by split|]. intros i Hi. pose proof std_ascii as Ht. rewrite forallb_forall in Ht.
  assert (Hin : In i (map Z.of_nat (seq 0 64))) by (apply in_map_iff; exists (Z.to_nat i); split; [lia|]; apply in_seq; lia).
  specialize (Ht i Hin). by bool_hyps.
Qed.

Lemma length_StdEncode b : Z.of_nat (length (StdEncode b)) = 4 * ((Z.of_nat (length b) + 2) / 3).
Proof.
  induction b as [|x|x y|x y z r IH] using b64_ind; try reflexivity.
  cbn [StdEncode length]. rewrite !Nat2Z.inj_succ, IH.
  replace (Z.succ (Z.succ (Z.succ (Z.of_nat (length r)))) + 2) with (Z.of_nat (length r) + 2 + 1 * 3) by lia.
  rewrite Z.div_add by lia. lia.
Qed.

(** ** net/url *)

Definition upper_hex (d : Z) : Z := if d <? 10 then 48 + d else 55 + d.
Definition unreserved (c : Z) : bool :=
  is_upper c || is_lower c || ((48 <=? c) && (c <=? 57)) || (c =? 45) || (c =? 95) || (c =? 46) || (c =? 126).

(** [url.QueryEscape] *)
Definition QueryEscape (s : gostr) : gostr :=
  s ≫= fun c => if unreserved c then [c] else if c =? 32 then [43] else [37; upper_hex (c / 16); upper_hex (c mod 16)].

(** [url.PathEscape] *)
Definition PathEscape (s : gostr) : gostr :=
  s ≫= fun c => if unreserved c || existsb (Z.eqb c) (bs "$&+=:@") then [c] else [37; upper_hex (c / 16); upper_hex (c mod 16)].

(** [url.QueryUnescape] *)
Fixpoint QueryUnescape (s : gostr) : option gostr :=
  match s with
  | [] => Some []
  | c :: r =>
      if c =? 37 then
        match r with
        | h :: l :: r =>
            match digit_val h, digit_val l with
            | Some a, Some b => (fun t => a * 16 + b :: t) <$> QueryUnescape r
            | _, _ => None
            end
        | _ => None
        end
      else (fun t => (if c =? 43 then 32 else c) :: t) <$> QueryUnescape r
  end.

(** [strings.Cut(s, sep)] for a one-byte separator: the parts before and after the
    first separator, if there is one. *)
Fixpoint Cut (s : gostr) (sep : Z) : option (gostr * gostr) :=
  match s with
  | [] => None
  | c :: r => if c =? sep then Some ([], r)
              else match Cut r sep with
                   | Some (b, a) => Some (c :: b, a)
                   | None => None
                   end
  end.

(** One [key=value] of a query; [None] is one that [url.ParseQuery] drops. *)
Definition query_pair (s : gostr) : option (gostr * gostr) :=
  if bool_decide (s = []) || existsb (Z.eqb 59) s then None else
  let '(k, v) := match Cut s 61 with Some kv => kv | None => (s, []) end in
  match QueryUnescape k, QueryUnescape v with
  | Some k, Some v => Some (k, v)
  | _, _ => None
  end.

(** [url.Values.Encode], with the keys in order. *)
Definition form_encode (kv : list (gostr * gostr)) : gostr :=
  Join [38] (map (fun p => QueryEscape p.1 ++ [61] ++ QueryEscape p.2) kv).

(** [u.Query().Get(key)] of the raw query [q]. *)
Definition QueryGet (q key : gostr) : gostr :=
  match filter (fun kv => kv.1 = key) (omap query_pair (Split 38 q)) with
  | kv :: _ => kv.2
  | [] => []
  end.

(** The raw query of an URL text: after the first [?], before the first [#]. *)
Definition RawQuery (u : gostr) : gostr :=
  let u := match Cut u 35 with Some (b, _) => b | None => u end in
  match Cut u 63 with Some (_, q) => q | None => [] end.

Lemma Cut_notin s sep : sep ∉ s -> Cut s sep = None.
Proof.
  induction s as [|c r IH]; intros Hn; [done|]. cbn. apply not_elem_of_cons in Hn as [H1 H2].
  rewrite (proj2 (Z.eqb_neq c sep)) by done. by rewrite IH.
Qed.

Lemma Cut_app s sep r : sep ∉ s -> Cut (s ++ sep :: r) sep = Some (s, r).
Proof.
  induction s as [|c s IH]; intros Hn; cbn; [by rewrite Z.eqb_refl|]. apply not_elem_of_cons in Hn as [H1 H2].
  rewrite (proj2 (Z.eqb_neq c sep)) by done. by rewrite IH.
Qed.

(** The bytes of an escaped text. *)
Definition escaped_char (c : Z) : Prop := unreserved c = true \/ c = 43 \/ c = 37.

Lemma upper_hex_val d : 0 <= d < 16 -> digit_val (upper_hex d) = Some d /\ unreserved (upper_hex d) = true.
Proof.
  intros Hd. assert (E : exists n, d = Z.of_nat n /\ (n < 16)%nat) by (exists (Z.to_nat d); lia).
  destruct E as (n & -> & Hn). do 16 (destruct n as [|n]; [split; reflexivity|]). lia.
Qed.

Lemma nibbles c : in_u8 c -> 0 <= c / 16 < 16 /\ 0 <= c mod 16 < 16.
Proof.
  unfold in_u8. intros Hc. split; [|apply Z.mod_pos_bound; lia]. split; [apply Z.div_pos; lia|apply Z.div_lt_upper_bound; lia].
Qed.

Lemma QueryEscape_chars s : Forall in_u8 s -> Forall escaped_char (QueryEscape s).
Proof.
  unfold QueryEscape. induction 1 as [|c s Hc _ IH]; [constructor|]. rewrite bind_cons. apply Forall_app. split; [|done].
  destruct (nibbles c Hc) as [H1 H2]. destruct (unreserved c) eqn:E; [apply Forall_singleton; by left|].
  destruct (c =? 32); [apply Forall_singleton; right; by left|].
  apply Forall_cons_2; [by do 2 right|]. apply Forall_cons_2; [|apply Forall_singleton]; left; by apply upper_hex_val.
Qed.

Lemma unreserved_plain c : unreserved c = true -> c <> 37 /\ c <> 43.
Proof. intros Hc. split; intros ->; done. Qed.

Lemma QueryUnescape_Escape s : Forall in_u8 s -> QueryUnescape (QueryEscape s) = Some s.
Proof.
  unfold QueryEscape. induction 1 as [|c s Hc _ IH]; [done|]. rewrite bind_cons. destruct (nibbles c Hc) as [H1 H2].
  destruct (unreserved c) eqn:E; [|destruct (c =? 32) eqn:E2].
  - apply unreserved_plain in E as [E1 E2]. cbn [app QueryUnescape].
    rewrite (proj2 (Z.eqb_neq c 37)), (proj2 (Z.eqb_neq c 43)) by done. by rewrite IH.
  - apply Z.eqb_eq in E2 as ->. cbn [app QueryUnescape Z.eqb Pos.eqb]. by rewrite IH.
  - cbn [app QueryUnescape Z.eqb Pos.eqb]. rewrite (proj1 (upper_hex_val _ H1)), (proj1 (upper_hex_val _ H2)), IH.
    cbn. do 2 f_equal. pose proof (Z.div_mod c 16 ltac:(lia)). lia.
Qed.

Lemma escaped_notin c s : Forall in_u8 s -> ~ escaped_char c -> c ∉ QueryEscape s.
Proof. intros Hs Hc Hin. pose proof (QueryEscape_chars s Hs) as HF. rewrite Forall_forall in HF. by apply Hc, HF. Qed.

Lemma not_escaped c : unreserved c || (c =? 43) || (c =? 37) = false -> ~ escaped_char c.
Proof. intros E [E1|[-> | ->]]; [|done..]. by rewrite E1 in E. Qed.

Lemma QueryEscape_nil s : QueryEscape s = [] -> s = [].
Proof. destruct s as [|c s]; [done|]. unfold QueryEscape. rewrite bind_cons. by repeat case_match. Qed.

(** A pair is read back as it was written, and is free of the form's separator. *)
Lemma query_pair_escaped k v : k <> [] -> Forall in_u8 k -> Forall in_u8 v ->
  query_pair (QueryEscape k ++ [61] ++ QueryEscape v) = Some (k, v) /\ 38 ∉ QueryEscape k ++ [61] ++ QueryEscape v.
Proof.
  intros Hne Hk Hv.
  assert (Hn : forall c, unreserved c || (c =? 43) || (c =? 37) = false -> c <> 61 -> c ∉ QueryEscape k ++ [61] ++ QueryEscape v).
  { intros c Hc H61. rewrite !elem_of_app, list_elem_of_singleton.
    intros [H|[H|H]]; [|done|]; revert H; (apply escaped_notin; [done|by apply not_escaped]). }
  split; [|by apply Hn]. unfold query_pair. rewrite bool_decide_false by (destruct (QueryEscape k); done).
  destruct (existsb (Z.eqb 59) _) eqn:E.
  { apply existsb_exists in E as (x & Hx%list_elem_of_In & <-%Z.eqb_eq). exfalso. revert Hx. by apply Hn. }
  cbn [orb app]. rewrite Cut_app by (apply escaped_notin; [done|by apply not_escaped]). by rewrite !QueryUnescape_Escape.
Qed.

Lemma form_get kv key : Forall (fun p => p.1 <> [] /\ Forall in_u8 p.1 /\ Forall in_u8 p.2) kv ->
  QueryGet (form_encode kv) key = default [] (snd <$> head (filter (fun p => p.1 = key) kv)).
Proof.
  intros Hkv. unfold QueryGet, form_encode. destruct (decide (kv = [])) as [->|Hne]; [done|].
  rewrite Split_Join.
  - assert (omap query_pair (map (fun p => QueryEscape p.1 ++ [61] ++ QueryEscape p.2) kv) = kv) as ->.
    { clear Hne. induction Hkv as [|[k v] kv (H1 & H2 & H3) _ IH]; [done|]. cbn [map omap list_omap].
      destruct (query_pair_escaped k v H1 H2 H3) as [Hp _]. cbn [fst snd]. rewrite Hp. f_equal. exact IH. }
    by destruct (filter _ kv).
  - by destruct kv.
  - apply Forall_fmap. eapply Forall_impl; [exact Hkv|]. intros [k v] (H1 & H2 & H3). cbn. by apply query_pair_escaped.
Qed.

(** Bytes of a literal. *)
Lemma bytes_check k : existsb (fun c => (c <? 0) || (255 <? c)) k = false -> Forall in_u8 k.
Proof.
  intros H. apply Forall_forall. intros c Hc. unfold in_u8. apply list_elem_of_In in Hc.
  destruct ((c <? 0) || (255 <? c)) eqn:E; [|bool_hyps; lia].
  assert (existsb (fun c => (c <? 0) || (255 <? c)) k = true) by (apply existsb_exists; by exists c). congruence.
Qed.
