(* ===== verification/Fipsaddr.v ===== *)
(** * pkg/fipsaddr: npub decoding and address derivation

    Models pkg/fipsaddr/npub.go (bech32, bit regrouping, secp256k1 x-only
    validation) and pkg/fipsaddr/fipsaddr.go (the derivation
    [0xfd || SHA-256(pubkey)[0:15]]).  Strings and byte slices are [list Z];
    every uint32 operation keeps its wrap-around. *)

From S2P Require Import Prelude GoStrings Sha256 Netip.
Import Bool.

Module Npub.

(** ** npub.go *)

Inductive npub_err :=
| ErrMixedCase          (* "bech32 string uses mixed case" *)
| ErrMalformed          (* "malformed bech32 string" *)
| ErrBadChar (c : Z)    (* "invalid bech32 character" *)
| ErrChecksum           (* "bech32 checksum mismatch" *)
| ErrNotNpub
| ErrDataValue (v : Z)  (* "invalid data value %d for %d-bit group" *)
| ErrPadding            (* "invalid bech32 padding" *)
| ErrPayloadLen (n : nat)
| ErrInvalidPubkey.

#[export] Instance npub_err_eq_dec : EqDecision npub_err.
Proof. solve_decision. Defined.

Definition bech32Charset : gostr := bs "qpzry9x8gf2tvdw0s3jn54khce6mua7l".

Definition secpP : Z := 0xfffffffffffffffffffffffffffffffffffffffffffffffffffffffefffffc2f.
Definition secpPExp : Z := Z.shiftr (secpP + 1) 2.
Definition secpSeven : Z := 7.

(** [big.Int.Exp(x, y, m)] by square and multiply on the bits of [y]. *)
Fixpoint pow_mod_pos (x : Z) (y : positive) (m : Z) : Z :=
  match y with
  | xH => x mod m
  | xO y => let r := pow_mod_pos x y m in (r * r) mod m
  | xI y => let r := pow_mod_pos x y m in (r * r * x) mod m
  end.
Definition big_Exp (x y m : Z) : Z :=
  match y with Zpos p => pow_mod_pos x p m | _ => 1 mod m end.

Definition validXOnly (pubkey : list Z) : bool :=
  let x := undigits 256 pubkey in
  if secpP <=? x then false
  else
    let rhs := big_Exp x 3 secpP in
    let rhs := (rhs + secpSeven) mod secpP in
    let y := big_Exp rhs secpPExp secpP in
    let y := (y * y) mod secpP in
    y =? rhs.

Definition gen : list Z := [0x3b6a57b2; 0x26508e6d; 0x1ea119fa; 0x3d4233dd; 0x2a1462b3].

(** One iteration of the checksum loop. *)
Definition polymod_step (chk v : Z) : Z :=
  let b := Z.shiftr chk 25 in
  let chk := Z.lxor (u32 (Z.shiftl (Z.land chk 0x1ffffff) 5)) v in
  foldl (fun chk i =>
           if Z.land (Z.shiftr b (Z.of_nat i)) 1 =? 1
           then Z.lxor chk (default 0 (gen !! i)) else chk)
        chk (seq 0 5).

Definition bech32Polymod (values : list Z) : Z := foldl polymod_step 1 values.

Definition bech32HrpExpand (hrp : gostr) : list Z :=
  map (fun c => Z.shiftr c 5) hrp ++ [0] ++ map (fun c => Z.land c 31) hrp.

(** The character loop of [bech32Decode]. *)
Fixpoint charset_indices (s : gostr) : result npub_err (list Z) :=
  match s with
  | [] => Ok []
  | c :: r =>
      let idx := IndexByte bech32Charset c in
      if idx <? 0 then Err (ErrBadChar c)
      else rest ← charset_indices r; Ok (u8 idx :: rest)
  end.

Definition bech32Decode (s : gostr) : result npub_err (gostr * list Z) :=
  if negb (bool_decide (ToLower s = s)) && negb (bool_decide (ToUpper s = s)) then Err ErrMixedCase
  else
    let s := ToLower s in
    let pos := LastIndexByte s 49 in
    if (pos <? 1) || (Z.of_nat (length s) <? pos + 7) then Err ErrMalformed
    else
      let hrp := take (Z.to_nat pos) s in
      data ← charset_indices (drop (S (Z.to_nat pos)) s);
      if negb (bech32Polymod (bech32HrpExpand hrp ++ data) =? 1) then Err ErrChecksum
      else Ok (hrp, take (length data - 6) data).

Definition charset_at (d : Z) : Z := default 0 (bech32Charset !! Z.to_nat d).

Definition bech32Encode (hrp : gostr) (data : list Z) : gostr :=
  let values := bech32HrpExpand hrp ++ data ++ [0; 0; 0; 0; 0; 0] in
  let polymod := Z.lxor (bech32Polymod values) 1 in
  hrp ++ [49] ++ map charset_at data
  ++ map (fun i => charset_at (Z.land (Z.shiftr polymod (5 * (5 - Z.of_nat i))) 31)) (seq 0 6).

(** The inner loop of [convertBits]: emit groups while enough bits are held.
    [fuel] is the number of bits held, an upper bound on the iterations. *)
Fixpoint emit (fuel : nat) (toBits acc bits : Z) (out : list Z) : Z * list Z :=
  match fuel with
  | O => (bits, out)
  | S f =>
      if toBits <=? bits then
        let bits := bits - toBits in
        emit f toBits acc bits (out ++ [u8 (Z.land (Z.shiftr acc bits) (u32 (Z.shiftl 1 toBits) - 1))])
      else (bits, out)
  end.

Fixpoint convert_loop (data : list Z) (fromBits toBits acc bits : Z) (out : list Z)
    : result npub_err (Z * Z * list Z) :=
  match data with
  | [] => Ok (acc, bits, out)
  | v :: r =>
      if negb (Z.shiftr v fromBits =? 0) then Err (ErrDataValue v)
      else
        let acc := Z.lor (u32 (Z.shiftl acc fromBits)) v in
        let bits := bits + fromBits in
        let '(bits, out) := emit (Z.to_nat bits) toBits acc bits out in
        convert_loop r fromBits toBits acc bits out
  end.

Definition convertBits (data : list Z) (fromBits toBits : Z) (pad : bool) : result npub_err (list Z) :=
  let maxv := u32 (Z.shiftl 1 toBits) - 1 in
  '(acc, bits, out) ← convert_loop data fromBits toBits 0 0 [];
  if pad then
    if 0 <? bits then Ok (out ++ [u8 (Z.land (u32 (Z.shiftl acc (toBits - bits))) maxv)])
    else Ok out
  else if (fromBits <=? bits) || negb (Z.land (u32 (Z.shiftl acc (toBits - bits))) maxv =? 0)
       then Err ErrPadding
       else Ok out.

Definition DecodeNpub (npub : gostr) : result npub_err (list Z) :=
  '(hrp, data) ← bech32Decode npub;
  if negb (bool_decide (hrp = bs "npub")) then Err ErrNotNpub
  else
    payload ← convertBits data 5 8 false;
    if negb (length payload =? 32)%nat then Err (ErrPayloadLen (length payload))
    else if negb (validXOnly payload) then Err ErrInvalidPubkey
    else Ok payload.

Definition EncodeNpub (pubkey : list Z) : gostr :=
  let data := match convertBits pubkey 8 5 true with Ok d => d | Err _ => [] end in
  bech32Encode (bs "npub") data.

(** A 32-byte array. *)
Definition key32 (k : list Z) : Prop := length k = 32%nat /\ Forall in_u8 k.

End Npub.

Module Derive.
Import Npub.

(** ** fipsaddr.go *)

Definition AddressPrefix : Z := 0xfd.
(** [Prefix] = fd00::/8 *)
Definition Prefix_net : Z := Z.shiftl 0xfd 120.
Definition Prefix_bits : Z := 8.

Definition NodeAddr (pubkey : list Z) : list Z := take 16 (sum256 pubkey).

Definition FromPubkey (pubkey : list Z) : Addr :=
  AddrFrom16 (AddressPrefix :: take 15 (NodeAddr pubkey)).

Definition FromNpub (npub : gostr) : result npub_err Addr :=
  pubkey ← DecodeNpub npub; Ok (FromPubkey pubkey).

Definition Valid (addr : Addr) : bool :=
  Is6 addr && negb (Is4In6 addr) && Contains6 Prefix_net Prefix_bits addr.

(** [CheckDerivation] returns nil, the decoding error, or the mismatch error. *)
Inductive check_err := CheckDecode (e : npub_err) | CheckMismatch (expected : Addr).

Definition CheckDerivation (npub : gostr) (addr : Addr) : result check_err unit :=
  match FromNpub npub with
  | Err e => Err (CheckDecode e)
  | Ok derived => if negb (bool_decide (derived = Unmap addr)) then Err (CheckMismatch derived) else Ok ()
  end.

End Derive.

Import Npub Derive.

Lemma DecodeNpub_eq npub hrp data payload :
  bech32Decode npub = Ok (hrp, data) -> hrp = bs "npub" ->
  convertBits data 5 8 false = Ok payload -> length payload = 32%nat ->
  DecodeNpub npub = if validXOnly payload then Ok payload else Err ErrInvalidPubkey.
Proof.
  intros H1 -> H2 H3. unfold DecodeNpub. rewrite H1. cbn [mbind result_bind].
  rewrite bool_decide_eq_true_2 by done. cbn [negb]. rewrite H2. cbn [mbind result_bind].
  rewrite H3. cbn [Nat.eqb negb]. by destruct (validXOnly payload).
Qed.

