(* ===== verification/FipsaddrVectors.v ===== *)
(** * The derivation vectors of fipsaddr_test.go

    Two npubs of pkg/fipsaddr/fipsaddr_test.go with their keys and addresses,
    and the rejected inputs of [TestDecodeNpubErrors], evaluated on the model.
    They are the concrete identities the witnesses of other files use. *)

From S2P Require Import Prelude GoStrings Sha256 Netip Fipsaddr.
Import Npub Derive.

(** ** The vectors of fipsaddr_test.go

    The modular exponentiation is evaluated once per key; everything else
    about the vectors is derived from these two facts. *)

Definition npub1 : gostr := bs "npub180cvv07tjdrrgpa0j7j7tmnyl2yr6yr7l8j4s3evf6u64th6gkwsyjh6w6".
Definition key1 : list Z :=
  digits_be 256 32 0x3bf0c63fcb93463407af97a5e5ee64fa883d107ef9e558472c4eb9aaaefa459d.
Definition npub2 : gostr := bs "npub1l2vyh47mk2p0qlsku7hg0vn29faehy9hy34ygaclpn66ukqp3afqutajft".
Definition key2 : list Z :=
  digits_be 256 32 0xfa984bd7dbb282f07e16e7ae87b26a2a7b9b90b7246a44771f0cf5ae58018f52.

Lemma key1_valid : validXOnly key1 = true.
Proof. vm_compute. reflexivity. Qed.
Lemma key2_valid : validXOnly key2 = true.
Proof. vm_compute. reflexivity. Qed.

Global Opaque validXOnly.

Definition data1 : list Z := match bech32Decode npub1 with Ok (_, d) => d | Err _ => [] end.
Definition data2 : list Z := match bech32Decode npub2 with Ok (_, d) => d | Err _ => [] end.

Lemma vector1 : DecodeNpub npub1 = Ok key1.
Proof.
  rewrite (DecodeNpub_eq npub1 (bs "npub") data1 key1 ltac:(vm_compute; reflexivity) eq_refl
             ltac:(vm_compute; reflexivity) eq_refl).
  rewrite key1_valid. reflexivity.
Qed.
Lemma vector2 : DecodeNpub npub2 = Ok key2.
Proof.
  rewrite (DecodeNpub_eq npub2 (bs "npub") data2 key2 ltac:(vm_compute; reflexivity) eq_refl
             ltac:(vm_compute; reflexivity) eq_refl).
  rewrite key2_valid. reflexivity.
Qed.

Definition addr1 : Addr := Addr6 0xfd1093b285866046e42dc0893228ccff [].
Definition addr2 : Addr := Addr6 0xfd54dc855ad5c438acd60aa8849513dd [].

Lemma vector1_addr : FromNpub npub1 = Ok addr1.
Proof. unfold FromNpub. rewrite vector1. vm_compute. reflexivity. Qed.
Lemma vector2_addr : FromNpub npub2 = Ok addr2.
Proof. unfold FromNpub. rewrite vector2. vm_compute. reflexivity. Qed.

Example vector_errors :
  map DecodeNpub
    [ []; bs "hello world";
      bs "nsec180cvv07tjdrrgpa0j7j7tmnyl2yr6yr7l8j4s3evf6u64th6gkwsyjh6w6";
      bs "npub180cvv07tjdrrgpa0j7j7tmnyl2yr6yr7l8j4s3evf6u64th6gkwsyjh6w7";
      bs "Npub180cvv07tjdrrgpa0j7j7tmnyl2yr6yr7l8j4s3evf6u64th6gkwsyjh6w6";
      EncodeNpub (replicate 20 0) ] =
  [ Err ErrMalformed; Err ErrMalformed; Err ErrChecksum; Err ErrChecksum; Err ErrMixedCase;
    Err (ErrPayloadLen 20) ].
Proof. vm_compute. reflexivity. Qed.

