(* ===== verification/FipsaddrFacts.v ===== *)
(** * pkg/fipsaddr: correctness

    The bech32 checksum is linear over xor: this gives that [bech32Encode]
    always produces a string [bech32Decode] accepts, and that a single
    substituted character is always detected.  [convertBits] is proved against
    its arithmetic meaning (regrouping the digits of one number), from which
    both directions of the npub round trip follow. *)

From S2P Require Import Prelude GoStrings Sha256 Netip Fipsaddr FipsaddrVectors.
Import Npub Derive.

(** ** The checksum as a linear map *)

Module Polymod.

(** The part of [polymod_step] that depends on the register. *)
Definition sel (c : Z) (i : nat) : Z := if Z.testbit c (25 + Z.of_nat i) then default 0 (gen !! i) else 0.
Definition L (c : Z) : Z :=
  Z.lxor (Z.shiftl (Z.land c 0x1ffffff) 5)
    (Z.lxor (sel c 0) (Z.lxor (sel c 1) (Z.lxor (sel c 2) (Z.lxor (sel c 3) (sel c 4))))).

Lemma land1_testbit b i : 0 <= i -> (Z.land (Z.shiftr b i) 1 =? 1) = Z.testbit b i.
Proof.
  intros Hi. rewrite (Z.land_ones _ 1) by lia. change (2 ^ 1) with 2.
  rewrite <- Z.bit0_mod, Z.shiftr_spec, Z.add_0_l by lia.
  by destruct (Z.testbit b i).
Qed.

Lemma land_mask c : Z.land c 0x1ffffff = c mod 2 ^ 25.
Proof. apply (Z.land_ones c 25). lia. Qed.

Lemma shifted_bound c : 0 <= Z.shiftl (Z.land c 0x1ffffff) 5 < 2 ^ 30.
Proof.
  rewrite land_mask, Z.shiftl_mul_pow2 by lia.
  pose proof (Z.mod_pos_bound c (2 ^ 25) ltac:(lia)). lia.
Qed.

Lemma xor_if c (b : bool) g : (if b then Z.lxor c g else c) = Z.lxor c (if b then g else 0).
Proof. destruct b; [done|]. by rewrite Z.lxor_0_r. Qed.

(** Equality of xor expressions, decided on each bit. *)
Ltac xor_ac :=
  apply Z.bits_inj'; let n := fresh "n" in let Hn := fresh "Hn" in intros n Hn;
  rewrite ?Z.lxor_spec;
  repeat match goal with |- context [Z.testbit ?x n] => generalize (Z.testbit x n); intros [] end;
  reflexivity.

Lemma polymod_step_L c v : polymod_step c v = Z.lxor (L c) v.
Proof.
  unfold polymod_step, L. cbn [seq foldl].
  rewrite !land1_testbit by lia. rewrite !Z.shiftr_spec by lia.
  rewrite !xor_if. unfold sel. rewrite !(Z.add_comm _ 25).
  rewrite u32_small by (pose proof (shifted_bound c); unfold in_u32; lia).
  xor_ac.
Qed.

Lemma sel_lxor a b i : sel (Z.lxor a b) i = Z.lxor (sel a i) (sel b i).
Proof.
  unfold sel. rewrite Z.lxor_spec.
  destruct (Z.testbit a _), (Z.testbit b _); simpl;
    by rewrite ?Z.lxor_nilpotent, ?Z.lxor_0_r, ?Z.lxor_0_l.
Qed.

Lemma L_lxor a b : L (Z.lxor a b) = Z.lxor (L a) (L b).
Proof.
  unfold L. rewrite !sel_lxor.
  assert (E : Z.land (Z.lxor a b) 0x1ffffff = Z.lxor (Z.land a 0x1ffffff) (Z.land b 0x1ffffff)).
  { apply Z.bits_inj'. intros n Hn. rewrite Z.land_spec, !Z.lxor_spec, !Z.land_spec.
    by destruct (Z.testbit a n), (Z.testbit b n), (Z.testbit 0x1ffffff n). }
  rewrite E, Z.shiftl_lxor. xor_ac.
Qed.

Lemma L_0 : L 0 = 0.
Proof. done. Qed.

Fixpoint Ln (n : nat) (c : Z) : Z := match n with O => c | S n => Ln n (L c) end.

Lemma Ln_lxor n a b : Ln n (Z.lxor a b) = Z.lxor (Ln n a) (Ln n b).
Proof. revert a b; induction n as [|n IH]; intros a b; simpl; [done|]. by rewrite L_lxor, IH. Qed.

(** The register after [l], started from [c], is linear in both. *)
Fixpoint lin (l : list Z) : Z :=
  match l with [] => 0 | v :: r => Z.lxor (Ln (length r) v) (lin r) end.

Lemma foldl_lin l c : foldl polymod_step c l = Z.lxor (Ln (length l) c) (lin l).
Proof.
  revert c; induction l as [|v l IH]; intros c; simpl.
  - by rewrite Z.lxor_0_r.
  - rewrite IH, polymod_step_L, Ln_lxor. xor_ac.
Qed.

(** Small registers just shift. *)
Lemma L_small c : 0 <= c < 2 ^ 25 -> L c = c * 32.
Proof.
  intros Hc. unfold L.
  assert (Hs : forall i, sel c i = 0).
  { intros i. unfold sel. rewrite <- (Z.mod_small c (2 ^ 25)) by lia.
    by rewrite Z.mod_pow2_bits_high by lia. }
  rewrite !Hs, land_mask, Z.mod_small, Z.shiftl_mul_pow2 by lia. by rewrite !Z.lxor_0_r.
Qed.

Lemma Ln_small n d :
  0 <= d < 32 -> (n <= 5)%nat -> Ln n d = d * 32 ^ Z.of_nat n.
Proof.
  intros Hd Hn.
  assert (H : forall k c, 0 <= c -> c * 32 ^ Z.of_nat k < 2 ^ 30 -> Ln k c = c * 32 ^ Z.of_nat k).
  { induction k as [|k IH]; intros c Hc Hb; simpl; [lia|].
    rewrite Nat2Z.inj_succ, Z.pow_succ_r in * by lia.
    assert (0 < 32 ^ Z.of_nat k) by (apply Z.pow_pos_nonneg; lia).
    rewrite L_small by nia. rewrite IH by nia. lia. }
  apply H; [lia|]. assert (32 ^ Z.of_nat n <= 32 ^ 5) by (apply Z.pow_le_mono_r; lia).
  simpl in *. nia.
Qed.

(** Bounds: the register stays below 2^30. *)
Lemma lxor_bound n a b : 0 <= n -> 0 <= a < 2 ^ n -> 0 <= b < 2 ^ n -> 0 <= Z.lxor a b < 2 ^ n.
Proof.
  intros Hn Ha Hb. assert (H0 : 0 <= Z.lxor a b) by (apply Z.lxor_nonneg; lia).
  split; [done|]. destruct (Z.eq_dec (Z.lxor a b) 0) as [->|Hne]; [lia|].
  apply Z.log2_lt_pow2; [lia|]. eapply Z.le_lt_trans; [apply Z.log2_lxor; lia|].
  apply Z.max_lub_lt.
  - destruct (Z.eq_dec a 0) as [->|]; [|apply Z.log2_lt_pow2; lia].
    simpl. destruct (Z.eq_dec n 0) as [->|]; [|lia]. simpl in *.
    exfalso. apply Hne. replace b with 0 by lia. done.
  - destruct (Z.eq_dec b 0) as [->|]; [|apply Z.log2_lt_pow2; lia].
    simpl. destruct (Z.eq_dec n 0) as [->|]; [|lia]. simpl in *.
    exfalso. apply Hne. replace a with 0 by lia. done.
Qed.

Lemma sel_bound c i : 0 <= sel c i < 2 ^ 30.
Proof.
  unfold sel. destruct (Z.testbit _ _); [|lia].
  do 5 (destruct i as [|i]; [by split; vm_compute|]). by split; vm_compute.
Qed.

Lemma L_bound c : 0 <= L c < 2 ^ 30.
Proof.
  unfold L. repeat (apply lxor_bound; [lia| |]); try apply sel_bound. apply shifted_bound.
Qed.

Lemma polymod_bound l c :
  0 <= c < 2 ^ 30 -> Forall (fun v => 0 <= v < 2 ^ 30) l -> 0 <= foldl polymod_step c l < 2 ^ 30.
Proof.
  intros Hc H. revert c Hc; induction H as [|v l Hv Hl IH]; intros c Hc; simpl; [done|].
  apply IH. rewrite polymod_step_L. apply lxor_bound; [lia|apply L_bound|done].
Qed.

(** *** Injectivity *)

Definition Gt (t : Z) : Z :=
  let s i := if Z.testbit t (Z.of_nat i) then default 0 (gen !! i) else 0 in
  Z.lxor (s 0%nat) (Z.lxor (s 1%nat) (Z.lxor (s 2%nat) (Z.lxor (s 3%nat) (s 4%nat)))).

Lemma L_Gt c : L c = Z.lxor (Z.shiftl (Z.land c 0x1ffffff) 5) (Gt (Z.shiftr c 25)).
Proof.
  unfold L, Gt, sel. rewrite !Z.shiftr_spec by lia. by rewrite !(Z.add_comm _ 25).
Qed.

Lemma Gt_low t : 0 <= t < 32 -> Gt t mod 32 = 0 -> t = 0.
Proof.
  intros Ht H.
  assert (Hall : forallb (fun t => negb (Gt t mod 32 =? 0) || (t =? 0)) (map Z.of_nat (seq 0 32)) = true)
    by (vm_compute; reflexivity).
  rewrite forallb_forall in Hall.
  specialize (Hall t ltac:(apply in_map_iff; exists (Z.to_nat t); split; [lia|apply in_seq; lia])).
  rewrite H in Hall. simpl in Hall. by apply Z.eqb_eq in Hall.
Qed.

Lemma L_inj0 c : 0 <= c < 2 ^ 30 -> L c = 0 -> c = 0.
Proof.
  intros Hc. rewrite L_Gt. intros H. apply Z.lxor_eq in H.
  rewrite land_mask, Z.shiftl_mul_pow2 in H by lia. change (2 ^ 5) with 32 in H.
  assert (Ht : 0 <= Z.shiftr c 25 < 32).
  { rewrite Z.shiftr_div_pow2 by lia. split; [apply Z.div_pos; lia|].
    apply Z.div_lt_upper_bound; lia. }
  assert (H0 : Z.shiftr c 25 = 0) by (apply Gt_low; [done|]; rewrite <- H; apply Z.mod_mul; lia).
  rewrite H0 in H. rewrite Z.shiftr_div_pow2 in H0 by lia.
  change (Gt 0) with 0 in H. pose proof (Z.div_mod c (2 ^ 25) ltac:(lia)). lia.
Qed.

Lemma Ln_inj0 n c : 0 <= c < 2 ^ 30 -> Ln n c = 0 -> c = 0.
Proof.
  revert c; induction n as [|n IH]; intros c Hc H; simpl in H; [done|].
  apply L_inj0; [done|]. apply IH; [apply L_bound|done].
Qed.

Lemma Ln_0 n : Ln n 0 = 0.
Proof. induction n as [|n IH]; simpl; [done|]. by rewrite L_0. Qed.

(** Two words that differ in one position have different registers. *)
Lemma polymod_one_change p q a b :
  0 <= a < 2 ^ 30 -> 0 <= b < 2 ^ 30 -> a <> b ->
  bech32Polymod (p ++ a :: q) <> bech32Polymod (p ++ b :: q).
Proof.
  intros Ha Hb Hne E. unfold bech32Polymod in E. rewrite !foldl_app in E. simpl in E.
  set (c := foldl polymod_step 1 p) in E. clearbody c.
  rewrite !polymod_step_L, !foldl_lin, !Ln_lxor in E.
  assert (Hab : Ln (length q) (Z.lxor a b) = 0).
  { rewrite Ln_lxor. apply (f_equal (fun x => Z.lxor x (Z.lxor (Z.lxor (Ln (length q) (L c))
      (lin q)) (Ln (length q) b)))) in E.
    rewrite <- (Z.lxor_nilpotent (Ln (length q) b)). etrans; [|etrans; [exact E|]]; xor_ac. }
  apply Ln_inj0 in Hab; [|by apply lxor_bound]. by apply Z.lxor_eq in Hab.
Qed.

(** *** Six check digits *)

Lemma lin_foldl l : lin l = foldl polymod_step 0 l.
Proof. by rewrite foldl_lin, Ln_0, Z.lxor_0_l. Qed.

Lemma step_small c v : 0 <= c < 2 ^ 25 -> 0 <= v < 32 -> polymod_step c v = c * 32 + v.
Proof.
  intros Hc Hv. rewrite polymod_step_L, L_small by done.
  symmetry. apply Z.add_nocarry_lxor.
  change 32 with (2 ^ 5) at 1. rewrite <- Z.shiftl_mul_pow2 by lia.
  apply Z.bits_inj'. intros n Hn. rewrite Z.land_spec, Z.bits_0.
  destruct (Z.ltb_spec n 5).
  - by rewrite Z.shiftl_spec_low.
  - rewrite <- (Z.mod_small v (2 ^ 5)) by lia. rewrite Z.mod_pow2_bits_high by lia. by rewrite andb_false_r.
Qed.

Lemma foldl_digits l c (k : nat) :
  Forall (fun v => 0 <= v < 32) l -> 0 <= c < 32 ^ Z.of_nat k -> (k + length l <= 6)%nat ->
  foldl polymod_step c l = foldl (fun acc d => acc * 32 + d) c l.
Proof.
  intros H. revert c k; induction H as [|v l Hv Hl IH]; intros c k Hc Hb; simpl in *; [done|].
  assert (32 ^ Z.of_nat k <= 32 ^ 5) by (apply Z.pow_le_mono_r; lia).
  rewrite step_small by (simpl in *; lia). apply (IH _ (S k)); [|lia].
  rewrite Nat2Z.inj_succ, Z.pow_succ_r by lia. lia.
Qed.

Lemma lin_digits l : Forall (fun v => 0 <= v < 32) l -> (length l <= 6)%nat -> lin l = undigits 32 l.
Proof. intros H Hl. rewrite lin_foldl. apply (foldl_digits l 0 0); [done|simpl; lia|lia]. Qed.

Definition check_digits (pm : Z) : list Z :=
  map (fun i => Z.land (Z.shiftr pm (5 * (5 - Z.of_nat i))) 31) (seq 0 6).

Lemma check_digits_be pm : check_digits pm = digits_be 32 6 pm.
Proof.
  unfold check_digits. cbn [seq map digits_be app].
  rewrite !(Z.land_ones _ 5), !Z.shiftr_div_pow2 by lia.
  rewrite !Z.div_div by lia. repeat f_equal. by rewrite Z.div_1_r.
Qed.

(** Appending the check digits makes the register 1. *)
Lemma checksum_valid values :
  Forall (fun v => 0 <= v < 2 ^ 30) values ->
  bech32Polymod (values ++ check_digits (Z.lxor (bech32Polymod (values ++ replicate 6 0)) 1)) = 1.
Proof.
  intros Hv. unfold bech32Polymod. rewrite !foldl_app.
  set (c := foldl polymod_step 1 values).
  set (p := foldl polymod_step c (replicate 6 0)).
  assert (Hp : 0 <= p < 2 ^ 30).
  { subst p. apply polymod_bound; [|repeat constructor; lia]. by apply polymod_bound. }
  assert (Hq : 0 <= Z.lxor p 1 < 2 ^ 30) by (apply lxor_bound; lia).
  rewrite foldl_lin, check_digits_be, length_digits_be, lin_digits, undigits_digits.
  - subst p. rewrite (foldl_lin (replicate 6 0)). simpl length.
    change (lin (replicate 6 0)) with 0. rewrite <- Z.lxor_assoc.
    rewrite Z.lxor_0_r, Z.lxor_nilpotent. done.
  - lia.
  - exact Hq.
  - apply (digits_be_bound 32 6). lia.
  - by rewrite length_digits_be.
Qed.

End Polymod.

(** ** bech32Encode / bech32Decode *)

Module Bech32.
Import Polymod.

Definition five (d : Z) : Prop := 0 <= d < 32.

Lemma charset_table :
  forallb (fun d => (IndexByte bech32Charset (charset_at d) =? d)
                    && negb (charset_at d =? 49) && (lower_byte (charset_at d) =? charset_at d))
          (map Z.of_nat (seq 0 32)) = true.
Proof. vm_compute. reflexivity. Qed.

Lemma charset_facts d :
  five d ->
  IndexByte bech32Charset (charset_at d) = d /\ charset_at d <> 49
  /\ lower_byte (charset_at d) = charset_at d.
Proof.
  unfold five. intros Hd. pose proof charset_table as H. rewrite forallb_forall in H.
  specialize (H d ltac:(apply in_map_iff; exists (Z.to_nat d); split; [lia|apply in_seq; lia])).
  bool_hyps. done.
Qed.

Lemma charset_indices_map ds : Forall five ds -> charset_indices (map charset_at ds) = Ok ds.
Proof.
  induction 1 as [|d ds Hd Hds IH]; [done|].
  destruct (charset_facts d Hd) as (H1 & _ & _). unfold five in Hd.
  cbn [map charset_indices]. rewrite H1.
  destruct (d <? 0) eqn:E; [bool_hyps; lia|]. rewrite IH. cbn [mbind result_bind].
  by rewrite u8_small by (unfold in_u8; lia).
Qed.

(** Decoded characters are five-bit values, and re-encode to themselves. *)
Lemma charset_indices_inv s ds :
  charset_indices s = Ok ds -> Forall five ds /\ map charset_at ds = s.
Proof.
  revert ds; induction s as [|c s IH]; intros ds; cbn [charset_indices].
  - intros [= <-]. done.
  - set (i := IndexByte bech32Charset c). destruct (i <? 0) eqn:E; [done|]. bool_hyps.
    destruct (charset_indices s) as [ds'|]; [|done]. cbn [mbind result_bind]. intros [= <-].
    destruct (IH ds' eq_refl) as [H1 H2].
    destruct (IndexByte_Some bech32Charset c i eq_refl ltac:(lia)) as [H3 H4].
    change (length bech32Charset) with 32%nat in H4.
    rewrite u8_small by (unfold in_u8; lia). split.
    + constructor; [unfold five; lia|done].
    + cbn [map]. rewrite H2. f_equal. unfold charset_at. by rewrite H3.
Qed.

Lemma map_charset_lower ds : Forall five ds -> ToLower (map charset_at ds) = map charset_at ds.
Proof.
  induction 1 as [|d ds Hd Hds IH]; [done|]. unfold ToLower in *. cbn [map].
  rewrite IH. f_equal. by apply charset_facts.
Qed.

Lemma map_charset_no_one ds : Forall five ds -> 49 ∉ map charset_at ds.
Proof.
  induction 1 as [|d ds Hd Hds IH]; cbn [map]; [apply not_elem_of_nil|].
  apply not_elem_of_cons. split; [|done]. intros E. by destruct (charset_facts d Hd) as (_ & H & _).
Qed.

Lemma hrp_expand_bound hrp :
  Forall in_u8 hrp -> Forall (fun v => 0 <= v < 2 ^ 30) (bech32HrpExpand hrp).
Proof.
  intros H. unfold bech32HrpExpand. repeat (apply Forall_app; split).
  - apply Forall_map. eapply Forall_weaken; [exact H|]. intros c Hc. unfold in_u8 in Hc. simpl.
    rewrite Z.shiftr_div_pow2 by lia.
    split; [apply Z.div_pos; lia|apply Z.div_lt_upper_bound; lia].
  - repeat constructor; lia.
  - apply Forall_map. eapply Forall_weaken; [exact H|]. intros c Hc. simpl.
    rewrite (Z.land_ones _ 5) by lia. pose proof (Z.mod_pos_bound c (2 ^ 5) ltac:(lia)). lia.
Qed.

Lemma five_bound ds : Forall five ds -> Forall (fun v => 0 <= v < 2 ^ 30) ds.
Proof. intros H. eapply Forall_weaken; [exact H|]. unfold five. intros; lia. Qed.

(** The encoder's output, with its check digits named. *)
Lemma bech32Encode_eq hrp data :
  bech32Encode hrp data =
  hrp ++ 49 :: map charset_at (data ++ check_digits
    (Z.lxor (bech32Polymod ((bech32HrpExpand hrp ++ data) ++ replicate 6 0)) 1)).
Proof.
  unfold bech32Encode, check_digits. rewrite <- app_assoc. cbn [app]. do 2 f_equal.
  rewrite map_app. by rewrite map_map.
Qed.

Lemma check_digits_five pm : Forall five (check_digits pm).
Proof. rewrite check_digits_be. apply digits_be_bound. lia. Qed.

Lemma bech32_roundtrip hrp data :
  Forall in_u8 hrp -> hrp <> [] -> ToLower hrp = hrp -> Forall five data ->
  bech32Decode (bech32Encode hrp data) = Ok (hrp, data).
Proof.
  intros Hb Hne Hlow Hd. rewrite bech32Encode_eq.
  set (cs := check_digits _). assert (Hcs : Forall five cs) by apply check_digits_five.
  assert (Hlen : length cs = 6%nat) by (subst cs; by rewrite check_digits_be, length_digits_be).
  assert (Hall : Forall five (data ++ cs)) by (by apply Forall_app).
  assert (Hl : ToLower (hrp ++ 49 :: map charset_at (data ++ cs)) = hrp ++ 49 :: map charset_at (data ++ cs)).
  { change (49 :: ?x) with ([49] ++ x). rewrite !ToLower_app, Hlow, map_charset_lower by done. done. }
  unfold bech32Decode. rewrite bool_decide_eq_true_2 by exact Hl. cbn [negb andb]. rewrite Hl.
  rewrite LastIndexByte_app by (by apply map_charset_no_one).
  assert (Hh : (0 < length hrp)%nat) by (destruct hrp; [done|simpl; lia]).
  destruct (_ || _) eqn:E.
  { apply orb_true_iff in E as [E|E]; bool_hyps; [lia|].
    rewrite length_app in E. simpl in E. rewrite length_map, length_app, Hlen in E. lia. }
  rewrite Nat2Z.id, take_app_length. change (S (length hrp)) with (1 + length hrp)%nat.
  rewrite Nat.add_comm, <- drop_drop, drop_app_length.
  change (drop 1 (49 :: ?x)) with x. rewrite charset_indices_map by done. cbn [mbind result_bind].
  rewrite app_assoc. subst cs. rewrite checksum_valid.
  - cbn [Z.eqb negb]. rewrite length_app, Hlen. rewrite take_app_length' by lia. done.
  - apply Forall_app. split; [by apply hrp_expand_bound|by apply five_bound].
Qed.

(** What a successful decode says about the (lower-cased) input. *)
Lemma bech32Decode_inv s hrp data :
  bech32Decode s = Ok (hrp, data) ->
  exists cs, ToLower s = hrp ++ 49 :: map charset_at (data ++ cs) /\
    Forall five (data ++ cs) /\ length cs = 6%nat /\ hrp <> [] /\
    bech32Polymod (bech32HrpExpand hrp ++ data ++ cs) = 1.
Proof.
  unfold bech32Decode. destruct (negb _ && _); [done|].
  set (t := ToLower s). set (pos := LastIndexByte t 49).
  destruct (_ || _) eqn:E; [done|]. apply orb_false_iff in E as [E1 E2]. bool_hyps.
  destruct (charset_indices _) as [ds|] eqn:Ec; [|done]. cbn [mbind result_bind].
  destruct (negb _) eqn:Ep; [done|]. bool_hyps. intros [= <- <-].
  apply charset_indices_inv in Ec as [Hf Hm].
  assert (Ht : t !! Z.to_nat pos = Some 49).
  { clear -E1. assert (H : forall t, LastIndexByte t 49 <> -1 -> t !! Z.to_nat (LastIndexByte t 49) = Some 49).
    { clear. induction t as [|c t IH]; [done|]. cbn [LastIndexByte].
      pose proof (LastIndexByte_ge t 49).
      destruct (_ =? -1) eqn:E; bool_hyps; intros Hne.
      - destruct (c =? 49) eqn:E2; bool_hyps; [by subst|done].
      - replace (Z.to_nat (LastIndexByte t 49 + 1)) with (S (Z.to_nat (LastIndexByte t 49))) by lia.
        by apply IH. }
    apply H. subst pos. lia. }
  pose proof (f_equal length Hm) as Hlen. rewrite length_map, length_drop in Hlen.
  exists (drop (length ds - 6) ds). rewrite take_drop. repeat split.
  - rewrite Hm. symmetry. by apply take_drop_middle.
  - done.
  - rewrite length_drop. lia.
  - intros H0. apply (f_equal length) in H0. rewrite length_take in H0. simpl in H0. lia.
  - done.
Qed.

End Bech32.

(** ** convertBits regroups the digits of one number *)

Module Convert.

Definition digit (b d : Z) : Prop := 0 <= d < 2 ^ b.

Lemma pow2_pos n : 0 <= n -> 0 < 2 ^ n.
Proof. intros. apply Z.pow_pos_nonneg; lia. Qed.

(** Reading [to] bits at offset [b] of a register that holds [V] mod 2^32. *)
Lemma read_group V b t :
  0 <= b -> 0 < t <= 8 -> b + t <= 32 ->
  u8 (Z.land (Z.shiftr (V mod 2 ^ 32) b) (u32 (Z.shiftl 1 t) - 1)) = (V / 2 ^ b) mod 2 ^ t.
Proof.
  intros Hb Ht Hbt.
  assert (H8 : 2 ^ t <= 2 ^ 8) by (apply Z.pow_le_mono_r; lia).
  pose proof (pow2_pos t ltac:(lia)). pose proof (pow2_pos b ltac:(lia)).
  assert (E1 : u32 (Z.shiftl 1 t) = 2 ^ t).
  { rewrite Z.shiftl_1_l. apply u32_small. unfold in_u32. lia. }
  replace (u32 (Z.shiftl 1 t) - 1) with (Z.ones t) by (rewrite Z.ones_equiv; lia).
  rewrite Z.land_ones, Z.shiftr_div_pow2 by lia.
  assert (E2 : V mod 2 ^ 32 = V + - (V / 2 ^ 32) * 2 ^ (32 - b - t) * 2 ^ t * 2 ^ b).
  { rewrite <- !Z.mul_assoc, <- !Z.pow_add_r by lia.
    replace (32 - b - t + (t + b)) with 32 by lia.
    pose proof (Z.div_mod V (2 ^ 32) ltac:(lia)). lia. }
  rewrite E2, Z.div_add, Z.mod_add by lia.
  apply u8_small. unfold in_u8. pose proof (Z.mod_pos_bound (V / 2 ^ b) (2 ^ t) ltac:(lia)). lia.
Qed.

(** Shifting in one digit. *)
Lemma shift_in V f v :
  0 < f <= 32 -> digit f v ->
  Z.lor (u32 (Z.shiftl (V mod 2 ^ 32) f)) v = (V * 2 ^ f + v) mod 2 ^ 32.
Proof.
  unfold digit. intros Hf Hv. pose proof (pow2_pos f ltac:(lia)).
  pose proof (pow2_pos (32 - f) ltac:(lia)).
  assert (E32 : 2 ^ 32 = 2 ^ (32 - f) * 2 ^ f) by (rewrite <- Z.pow_add_r by lia; f_equal; lia).
  rewrite Z.shiftl_mul_pow2 by lia. unfold u32. rewrite Z.mul_mod_idemp_l by lia.
  rewrite E32 at 1. rewrite Z.mul_mod_distr_r by lia.
  set (a := V mod 2 ^ (32 - f)).
  assert (Ha : 0 <= a < 2 ^ (32 - f)) by (apply Z.mod_pos_bound; lia).
  assert (El : Z.lor (a * 2 ^ f) v = a * 2 ^ f + v).
  { symmetry. rewrite <- Z.shiftl_mul_pow2 by lia. apply Z.add_nocarry_lor.
    apply Z.bits_inj'; intros n Hn; rewrite Z.land_spec, Z.bits_0.
    destruct (Z.ltb_spec n f); [by rewrite Z.shiftl_spec_low|].
    rewrite <- (Z.mod_small v (2 ^ f)), Z.mod_pow2_bits_high by lia. by rewrite andb_false_r. }
  rewrite El. apply Z.mod_unique_pos with (q := V / 2 ^ (32 - f)).
  - rewrite E32. nia.
  - rewrite E32. pose proof (Z.div_mod V (2 ^ (32 - f)) ltac:(lia)). subst a. nia.
Qed.

Lemma emit_spec fuel t V bits out :
  0 < t <= 8 -> 0 <= bits <= 32 -> bits <= Z.of_nat fuel ->
  undigits (2 ^ t) out = V / 2 ^ bits -> Forall (digit t) out ->
  exists bits' out',
    emit fuel t (V mod 2 ^ 32) bits out = (bits', out') /\
    0 <= bits' < t /\ undigits (2 ^ t) out' = V / 2 ^ bits' /\ Forall (digit t) out' /\
    t * Z.of_nat (length out') + bits' = t * Z.of_nat (length out) + bits.
Proof.
  intros Ht. revert bits out; induction fuel as [|f IH]; intros bits out Hb Hf Hv Hd; cbn [emit].
  - exists bits, out. repeat split; try done; lia.
  - destruct (t <=? bits) eqn:E; bool_hyps.
    + rewrite read_group by lia. pose proof (pow2_pos t ltac:(lia)).
      pose proof (pow2_pos (bits - t) ltac:(lia)).
      destruct (IH (bits - t) (out ++ [(V / 2 ^ (bits - t)) mod 2 ^ t])) as (b' & o' & H1 & H2 & H3 & H4 & H5).
      * lia.
      * lia.
      * rewrite undigits_snoc, Hv.
        assert (E2 : V / 2 ^ bits = V / 2 ^ (bits - t) / 2 ^ t).
        { rewrite Z.div_div by lia. rewrite <- Z.pow_add_r by lia. do 2 f_equal. lia. }
        rewrite E2. pose proof (Z.div_mod (V / 2 ^ (bits - t)) (2 ^ t) ltac:(lia)). lia.
      * apply Forall_app. split; [done|]. constructor; [|constructor]. apply Z.mod_pos_bound. lia.
      * exists b', o'. repeat split; try done; try lia. rewrite length_app in H5. simpl in H5. lia.
    + exists bits, out. repeat split; try done; lia.
Qed.

Lemma convert_loop_spec data f t V bits out :
  0 < f <= 8 -> 0 < t <= 8 -> Forall (digit f) data ->
  0 <= bits < t -> undigits (2 ^ t) out = V / 2 ^ bits -> Forall (digit t) out ->
  exists bits' out',
    convert_loop data f t (V mod 2 ^ 32) bits out =
      Ok (foldl (fun acc d => acc * 2 ^ f + d) V data mod 2 ^ 32, bits', out') /\
    0 <= bits' < t /\
    undigits (2 ^ t) out' = foldl (fun acc d => acc * 2 ^ f + d) V data / 2 ^ bits' /\
    Forall (digit t) out' /\
    t * Z.of_nat (length out') + bits' = t * Z.of_nat (length out) + bits + f * Z.of_nat (length data).
Proof.
  intros Hf Ht Hdata. revert V bits out; induction Hdata as [|v data Hv Hdata IH];
    intros V bits out Hb HV Hd; cbn [convert_loop foldl].
  - exists bits, out. simpl length. repeat split; try done; lia.
  - pose proof (pow2_pos f ltac:(lia)). pose proof (pow2_pos bits ltac:(lia)).
    assert (E0 : (Z.shiftr v f =? 0) = true).
    { apply Z.eqb_eq. rewrite Z.shiftr_div_pow2 by lia. apply Z.div_small. apply Hv. }
    rewrite E0. cbn [negb]. rewrite shift_in by (done || lia).
    destruct (emit_spec (Z.to_nat (bits + f)) t (V * 2 ^ f + v) (bits + f) out)
      as (b' & o' & H1 & H2 & H3 & H4 & H5); [lia|lia|lia| |done|].
    { rewrite HV, Z.pow_add_r, (Z.mul_comm (2 ^ bits)), <- Z.div_div by lia.
      rewrite Z.div_add_l, (Z.div_small v), Z.add_0_r by (lia || apply Hv). done. }
    rewrite H1. destruct (IH (V * 2 ^ f + v) b' o' H2 H3 H4) as (b2 & o2 & Q1 & Q2 & Q3 & Q4 & Q5).
    exists b2, o2. repeat split; try done; try lia. simpl length. lia.
Qed.

(** Padding encoder. *)
Lemma convertBits_pad data f t :
  0 < f <= 8 -> 0 < t <= 8 -> Forall (digit f) data ->
  exists out p,
    convertBits data f t true = Ok out /\ Forall (digit t) out /\ 0 <= p < t /\
    undigits (2 ^ t) out = undigits (2 ^ f) data * 2 ^ p /\
    t * Z.of_nat (length out) = f * Z.of_nat (length data) + p.
Proof.
  intros Hf Ht Hd. unfold convertBits.
  destruct (convert_loop_spec data f t 0 0 [] Hf Ht Hd) as (b & o & H1 & H2 & H3 & H4 & H5);
    [lia|done|constructor|].
  change (0 mod 2 ^ 32) with 0 in H1. rewrite H1. cbn [mbind result_bind].
  change (undigits (2 ^ f) data) with (foldl (fun acc d => acc * 2 ^ f + d) 0 data).
  set (V := foldl _ 0 data) in *. clearbody V. clear H1.
  destruct (0 <? b) eqn:E; bool_hyps.
  - pose proof (pow2_pos t ltac:(lia)). pose proof (pow2_pos b ltac:(lia)).
    pose proof (pow2_pos (t - b) ltac:(lia)).
    assert (Eg : u8 (Z.land (u32 (Z.shiftl (V mod 2 ^ 32) (t - b))) (u32 (Z.shiftl 1 t) - 1))
                 = V mod 2 ^ b * 2 ^ (t - b)).
    { pose proof (read_group (V * 2 ^ (t - b)) 0 t ltac:(lia) ltac:(lia) ltac:(lia)) as Hr.
      rewrite Z.shiftr_0_r in Hr. unfold u32 at 1. rewrite Z.shiftl_mul_pow2, Z.mul_mod_idemp_l by lia.
      rewrite Hr, Z.pow_0_r, Z.div_1_r.
      replace (2 ^ t) with (2 ^ b * 2 ^ (t - b)) by (rewrite <- Z.pow_add_r by lia; f_equal; lia).
      by rewrite Z.mul_mod_distr_r by lia. }
    exists (o ++ [V mod 2 ^ b * 2 ^ (t - b)]), (t - b). rewrite Eg.
    repeat split; try lia.
    + apply Forall_app. split; [done|]. constructor; [|constructor].
      unfold digit. replace (2 ^ t) with (2 ^ b * 2 ^ (t - b)) by (rewrite <- Z.pow_add_r by lia; f_equal; lia).
      pose proof (Z.mod_pos_bound V (2 ^ b) ltac:(lia)). nia.
    + rewrite undigits_snoc, H3.
      replace (2 ^ t) with (2 ^ b * 2 ^ (t - b)) by (rewrite <- Z.pow_add_r by lia; f_equal; lia).
      pose proof (Z.div_mod V (2 ^ b) ltac:(lia)). nia.
    + rewrite length_app. simpl length in *. lia.
  - assert (b = 0) as -> by lia. exists o, 0. rewrite Z.pow_0_r, Z.div_1_r in H3.
    repeat split; try done; try lia. simpl length in H5. lia.
Qed.

(** Strict decoder: what it accepts, and what it returns. *)
Lemma convertBits_strict data f t :
  0 < f <= 8 -> 0 < t <= 8 -> Forall (digit f) data ->
  exists out p,
    0 <= p < t /\ Forall (digit t) out /\
    undigits (2 ^ t) out = undigits (2 ^ f) data / 2 ^ p /\
    f * Z.of_nat (length data) = t * Z.of_nat (length out) + p /\
    convertBits data f t false =
      if (f <=? p) || negb (undigits (2 ^ f) data mod 2 ^ p =? 0) then Err ErrPadding else Ok out.
Proof.
  intros Hf Ht Hd. unfold convertBits.
  destruct (convert_loop_spec data f t 0 0 [] Hf Ht Hd) as (b & o & H1 & H2 & H3 & H4 & H5);
    [lia|done|constructor|].
  change (0 mod 2 ^ 32) with 0 in H1. rewrite H1. cbn [mbind result_bind].
  change (undigits (2 ^ f) data) with (foldl (fun acc d => acc * 2 ^ f + d) 0 data).
  set (V := foldl _ 0 data) in *. clearbody V. clear H1.
  exists o, b. pose proof (pow2_pos t ltac:(lia)). pose proof (pow2_pos b ltac:(lia)).
  pose proof (pow2_pos (t - b) ltac:(lia)).
  repeat split; try done; try lia; [simpl length in H5; lia|].
  assert (Eg : Z.land (u32 (Z.shiftl (V mod 2 ^ 32) (t - b))) (u32 (Z.shiftl 1 t) - 1)
               = V mod 2 ^ b * 2 ^ (t - b)).
  { pose proof (read_group (V * 2 ^ (t - b)) 0 t ltac:(lia) ltac:(lia) ltac:(lia)) as Hr.
    rewrite Z.shiftr_0_r, Z.pow_0_r, Z.div_1_r in Hr.
    replace (2 ^ t) with (2 ^ b * 2 ^ (t - b)) in Hr by (rewrite <- Z.pow_add_r by lia; f_equal; lia).
    rewrite Z.mul_mod_distr_r in Hr by lia. rewrite <- Hr.
    unfold u32 at 1. rewrite Z.shiftl_mul_pow2, Z.mul_mod_idemp_l by lia.
    symmetry. apply u8_small. unfold in_u8.
    assert (E1 : u32 (Z.shiftl 1 t) = 2 ^ t).
    { rewrite Z.shiftl_1_l. apply u32_small. unfold in_u32.
      assert (2 ^ t <= 2 ^ 8) by (apply Z.pow_le_mono_r; lia). lia. }
    replace (u32 (Z.shiftl 1 t) - 1) with (Z.ones t) by (rewrite Z.ones_equiv; lia).
    rewrite Z.land_ones by lia.
    assert (2 ^ t <= 2 ^ 8) by (apply Z.pow_le_mono_r; lia).
    pose proof (Z.mod_pos_bound ((V * 2 ^ (t - b)) mod 2 ^ 32) (2 ^ t) ltac:(lia)). lia. }
  rewrite Eg. replace (V mod 2 ^ b * 2 ^ (t - b) =? 0) with (V mod 2 ^ b =? 0); [done|].
  apply Bool.eq_iff_eq_true. rewrite !Z.eqb_eq. nia.
Qed.

End Convert.

(** ** npub round trips *)

Module NpubFacts.
Import Polymod Bech32 Convert.

Lemma key_digits k : Forall in_u8 k -> Forall (digit 8) k.
Proof. done. Qed.

(** 32 bytes regroup into five-bit data that regroups back. *)
Lemma regroup_back k :
  Forall in_u8 k ->
  exists d, convertBits k 8 5 true = Ok d /\ Forall five d /\ convertBits d 5 8 false = Ok k.
Proof.
  intros Hk. destruct (convertBits_pad k 8 5 ltac:(lia) ltac:(lia) Hk)
    as (d & p & H1 & H2 & H3 & H4 & H5).
  exists d. split; [done|]. split; [exact H2|].
  destruct (convertBits_strict d 5 8 ltac:(lia) ltac:(lia) H2) as (o & q & Q1 & Q2 & Q3 & Q4 & Q5).
  assert (q = p) as -> by lia.
  assert (Hl : length o = length k) by lia.
  pose proof (pow2_pos p ltac:(lia)).
  rewrite Q5, H4, Z.mod_mul by lia. destruct (5 <=? p) eqn:E; bool_hyps; [lia|]. simpl. f_equal.
  rewrite H4, Z.div_mul in Q3 by lia.
  rewrite <- (digits_undigits (2 ^ 8) o), <- (digits_undigits (2 ^ 8) k), Hl, Q3; [done|lia|done|lia|done].
Qed.

(** Five-bit data the decoder accepts is the regrouping of its payload. *)
Lemma regroup_forth d k :
  Forall five d -> convertBits d 5 8 false = Ok k -> Forall in_u8 k /\ convertBits k 8 5 true = Ok d.
Proof.
  intros Hd Hc. destruct (convertBits_strict d 5 8 ltac:(lia) ltac:(lia) Hd)
    as (o & q & Q1 & Q2 & Q3 & Q4 & Q5).
  rewrite Q5 in Hc. destruct (_ || _) eqn:E; [done|]. injection Hc as <-.
  apply orb_false_iff in E as [E1 E2]. bool_hyps. split; [done|].
  destruct (convertBits_pad o 8 5 ltac:(lia) ltac:(lia) Q2) as (d' & p & H1 & H2 & H3 & H4 & H5).
  assert (p = q) as -> by lia. assert (Hl : length d' = length d) by lia.
  pose proof (pow2_pos q ltac:(lia)).
  rewrite H1. f_equal.
  rewrite <- (digits_undigits (2 ^ 5) d'), <- (digits_undigits (2 ^ 5) d), Hl, H4, Q3; [|lia|done|lia|done].
  f_equal. pose proof (Z.div_mod (undigits (2 ^ 5) d) (2 ^ q) ltac:(lia)). lia.
Qed.

Lemma npub_hrp_ok : Forall in_u8 (bs "npub") /\ bs "npub" <> [] /\ ToLower (bs "npub") = bs "npub".
Proof.
  split; [|done]. change (bs "npub") with [110; 112; 117; 98].
  repeat (apply Forall_cons_2; [unfold in_u8; lia|]). constructor.
Qed.

Lemma DecodeNpub_inv s k :
  DecodeNpub s = Ok k ->
  exists d, bech32Decode s = Ok (bs "npub", d) /\ convertBits d 5 8 false = Ok k /\
    length k = 32%nat /\ validXOnly k = true.
Proof.
  unfold DecodeNpub. destruct (bech32Decode s) as [[hrp d]|]; [|done]. cbn [mbind result_bind].
  destruct (negb (bool_decide _)) eqn:E1; [done|].
  destruct (convertBits d 5 8 false) as [p|] eqn:Ec; [|done]. cbn [mbind result_bind].
  destruct (negb (_ =? _)%nat) eqn:E2; [done|]. destruct (negb (validXOnly p)) eqn:E3; [done|].
  intros [= <-]. bool_hyps. apply Nat.eqb_eq in E2. subst hrp. by exists d.
Qed.

(** The check digits of a valid word are determined by the rest. *)
Lemma check_digits_unique values cs :
  Forall (fun v => 0 <= v < 2 ^ 30) values -> Forall five cs -> length cs = 6%nat ->
  bech32Polymod (values ++ cs) = 1 ->
  cs = check_digits (Z.lxor (bech32Polymod (values ++ replicate 6 0)) 1).
Proof.
  intros Hv Hcs Hlen E. pose proof (checksum_valid values Hv) as E'.
  set (cs' := check_digits _) in *. assert (Hcs' : Forall five cs') by apply check_digits_five.
  assert (Hlen' : length cs' = 6%nat) by (subst cs'; by rewrite check_digits_be, length_digits_be).
  clearbody cs'. rewrite <- E' in E. unfold bech32Polymod in E. rewrite !foldl_app, !foldl_lin in E.
  rewrite Hlen, Hlen' in E. set (c := Ln 6 _) in E.
  assert (El : lin cs = lin cs').
  { apply (f_equal (Z.lxor c)) in E. rewrite <- !Z.lxor_assoc, Z.lxor_nilpotent, !Z.lxor_0_l in E. done. }
  rewrite !lin_digits in El by (done || lia).
  rewrite <- (digits_undigits 32 cs), <- (digits_undigits 32 cs'), Hlen, Hlen', El; [done|lia|done|lia|done].
Qed.

Lemma charset_at_inj d d' : five d -> five d' -> charset_at d = charset_at d' -> d = d'.
Proof.
  intros H H' E. destruct (charset_facts d H) as [<- _]. destruct (charset_facts d' H') as [<- _].
  by rewrite E.
Qed.

Lemma map_charset_inj ds ds' :
  Forall five ds -> Forall five ds' -> map charset_at ds = map charset_at ds' -> ds = ds'.
Proof.
  intros H. revert ds'; induction H as [|d ds Hd Hds IH]; intros [|d' ds'] H'; try done.
  apply Forall_cons_1 in H' as [Hd' Hds']. cbn [map]. intros [= E1 E2].
  f_equal; [by apply charset_at_inj|by apply IH].
Qed.

(** Every accepted npub, lower-cased, is "npub1" followed by checked data. *)
Lemma DecodeNpub_text s k :
  DecodeNpub s = Ok k ->
  exists w, ToLower s = bs "npub1" ++ map charset_at w /\ Forall five w /\
    bech32Polymod (bech32HrpExpand (bs "npub") ++ w) = 1.
Proof.
  intros H. apply DecodeNpub_inv in H as (d & H1 & _).
  apply bech32Decode_inv in H1 as (cs & E & Hf & _ & _ & Hp).
  exists (d ++ cs). split; [|by rewrite app_assoc in *]. rewrite E. done.
Qed.

(** [C26] Encoding then decoding an npub returns the key exactly when the key is
    a valid x-only public key, and reports an invalid key otherwise. *)
Theorem npub_roundtrip pk :
  key32 pk ->
  DecodeNpub (EncodeNpub pk) = if validXOnly pk then Ok pk else Err ErrInvalidPubkey.
Proof.
  intros [Hl Hb]. destruct (regroup_back pk Hb) as (d & H1 & H2 & H3).
  unfold EncodeNpub. rewrite H1. destruct npub_hrp_ok as (P1 & P2 & P3).
  by apply DecodeNpub_eq with (hrp := bs "npub") (data := d); [apply bech32_roundtrip|..].
Qed.

Lemma key1_key32 : key32 key1.
Proof. split; [done|]. apply (digits_be_bound 256 32). lia. Qed.

Lemma npub_roundtrip_witness : DecodeNpub (EncodeNpub key1) = Ok key1.
Proof.
  pose proof (npub_roundtrip key1 key1_key32) as H. rewrite key1_valid in H. exact H.
Defined.

(** An accepted npub is canonical: its key is a valid 32-byte key whose
    encoding is the lower-cased input, so two accepted spellings of the same key
    differ only in letter case. *)
Theorem npub_canonical s pk :
  DecodeNpub s = Ok pk -> key32 pk /\ validXOnly pk = true /\ EncodeNpub pk = ToLower s.
Proof.
  intros H. apply DecodeNpub_inv in H as (d & H1 & H2 & H3 & H4).
  apply bech32Decode_inv in H1 as (cs & E & Hf & Hlen & _ & Hp).
  pose proof Hf as [Hd Hc]%Forall_app.
  destruct (regroup_forth d pk Hd H2) as [Hk Henc].
  split; [by split|]. split; [done|].
  unfold EncodeNpub. rewrite Henc, bech32Encode_eq, E.
  rewrite (app_assoc _ d) in Hp. apply check_digits_unique in Hp as <-; [done| |done|done].
  apply Forall_app. split; [apply hrp_expand_bound, npub_hrp_ok|by apply five_bound].
Qed.

Lemma npub_canonical_witness : EncodeNpub key1 = ToLower npub1.
Proof. exact (proj2 (proj2 (npub_canonical npub1 key1 vector1))). Defined.

(** [C25] A single mistyped character of an npub is always detected: replacing
    one character after the "npub1" prefix by a different one (up to case) makes
    decoding fail. *)
Theorem npub_typo_detected p a b q pk :
  DecodeNpub (p ++ a :: q) = Ok pk -> (5 <= length p)%nat -> lower_byte a <> lower_byte b ->
  is_ok (DecodeNpub (p ++ b :: q)) = false.
Proof.
  intros H1 Hp Hab. destruct (DecodeNpub (p ++ b :: q)) as [pk'|] eqn:H2; [exfalso|done].
  apply DecodeNpub_text in H1 as (w1 & E1 & F1 & P1), H2 as (w2 & E2 & F2 & P2).
  rewrite ToLower_app in E1, E2. cbn [ToLower map] in E1, E2.
  assert (Hsplit : ToLower p = bs "npub1" ++ drop 5 (ToLower p)).
  { rewrite <- (take_drop 5 (ToLower p)) at 1. f_equal.
    apply (f_equal (take 5)) in E1. rewrite take_app_le in E1 by (rewrite length_ToLower; lia). exact E1. }
  rewrite Hsplit, <- app_assoc in E1, E2. apply app_inv_head in E1, E2.
  set (p' := drop 5 (ToLower p)) in *. fold ToLower in *.
  symmetry in E1, E2. apply map_eq_app in E1 as (u1 & v1 & -> & Hu1 & Hv1), E2 as (u2 & v2 & -> & Hu2 & Hv2).
  apply Forall_app in F1 as [F1 G1], F2 as [F2 G2].
  destruct v1 as [|x1 v1], v2 as [|x2 v2]; try done.
  cbn [map] in Hv1, Hv2. injection Hv1 as Hx1 Hv1. injection Hv2 as Hx2 Hv2.
  apply Forall_cons_1 in G1 as [X1 G1], G2 as [X2 G2].
  assert (u1 = u2) as <- by (apply map_charset_inj; congruence).
  assert (v1 = v2) as <- by (apply map_charset_inj; congruence).
  rewrite app_assoc in P1, P2. unfold five in *.
  apply (polymod_one_change (bech32HrpExpand (bs "npub") ++ u1) v1 x1 x2); [lia|lia|congruence|congruence].
Qed.

Lemma npub_typo_detected_witness :
  is_ok (DecodeNpub (take 20 npub1 ++ 113 :: drop 21 npub1)) = false.
Proof.
  apply (npub_typo_detected (take 20 npub1) (default 0 (npub1 !! 20%nat)) 113 (drop 21 npub1) key1).
  - exact vector1.
  - vm_compute. lia.
  - vm_compute. discriminate.
Defined.

End NpubFacts.

(** ** Derivation *)

Module DeriveFacts.
Import NpubFacts.

Lemma pow_mod_pos_spec x y m : 0 < m -> pow_mod_pos x y m = (x ^ Zpos y) mod m.
Proof.
  intros Hm. induction y as [y IH|y IH|]; simpl pow_mod_pos.
  - rewrite IH, <- Z.mul_mod_idemp_l, <- Z.mul_mod, Z.mul_mod_idemp_l by lia.
    rewrite Pos2Z.inj_xI, Z.pow_add_r, Z.mul_comm, (Z.mul_comm 2), Z.pow_mul_r, Z.pow_2_r by lia.
    f_equal. rewrite Z.pow_1_r. lia.
  - rewrite IH, <- Z.mul_mod by lia.
    by rewrite Pos2Z.inj_xO, (Z.mul_comm 2), Z.pow_mul_r, Z.pow_2_r by lia.
  - by rewrite Z.pow_1_r.
Qed.

Local Transparent validXOnly.
Lemma validXOnly_curve k :
  validXOnly k = true ->
  undigits 256 k < secpP /\
  exists y, (y * y) mod secpP = (undigits 256 k ^ 3 + 7) mod secpP.
Proof.
  unfold validXOnly. set (x := undigits 256 k). destruct (secpP <=? x) eqn:E; [done|]. bool_hyps.
  assert (HP : 0 < secpP) by (vm_compute; done). generalize dependent secpP. intros P HP E H.
  cbv zeta in H. bool_hyps. split; [done|]. eexists. rewrite H.
  unfold big_Exp, secpSeven. rewrite pow_mod_pos_spec by done. by rewrite Z.add_mod_idemp_l by lia.
Qed.
Local Opaque validXOnly.

Lemma FromPubkey_bytes k :
  length (AddressPrefix :: take 15 (NodeAddr k)) = 16%nat /\
  Forall in_u8 (AddressPrefix :: take 15 (NodeAddr k)).
Proof.
  unfold NodeAddr. rewrite take_take. simpl length. rewrite length_take, length_sum256.
  split; [done|]. constructor; [unfold in_u8, AddressPrefix; lia|].
  apply Forall_take, sum256_bytes.
Qed.

Lemma FromPubkey_As16 k : As16 (FromPubkey k) = AddressPrefix :: take 15 (sum256 k).
Proof.
  destruct (FromPubkey_bytes k) as [Hl Hb]. unfold FromPubkey, AddrFrom16, As16.
  rewrite <- Hl at 1. rewrite digits_undigits by (done || lia).
  unfold NodeAddr. by rewrite take_take.
Qed.

Lemma FromPubkey_plain6 k : plain6 (FromPubkey k).
Proof.
  destruct (FromPubkey_bytes k) as [Hl Hb]. split; [done|].
  pose proof (undigits_bound 256 _ ltac:(lia) Hb) as H. rewrite Hl in H. exact H.
Qed.

Lemma undigits_cons b d l : undigits b (d :: l) = d * b ^ Z.of_nat (length l) + undigits b l.
Proof.
  induction l as [|x l IH] using rev_ind.
  - unfold undigits. simpl. lia.
  - rewrite app_comm_cons, !undigits_snoc, IH, length_app. simpl length.
    replace (Z.of_nat (length l + 1)) with (Z.succ (Z.of_nat (length l))) by lia.
    rewrite Z.pow_succ_r by lia. lia.
Qed.

Lemma FromPubkey_Valid k : Valid (FromPubkey k) = true.
Proof.
  destruct (FromPubkey_bytes k) as [Hl Hb]. apply Forall_cons_1 in Hb as [_ Hb].
  assert (Hr : length (take 15 (NodeAddr k)) = 15%nat) by (simpl in Hl; lia).
  pose proof (undigits_bound 256 _ ltac:(lia) Hb) as H. rewrite Hr in H.
  unfold Valid, FromPubkey, AddrFrom16, Is6, Is4In6, Contains6. rewrite undigits_cons, Hr.
  set (u := undigits 256 _) in *. clearbody u. change (256 ^ Z.of_nat 15) with (2 ^ 120) in *.
  rewrite bool_decide_eq_true_2 by done. cbn [andb]. unfold AddressPrefix, Prefix_net, Prefix_bits.
  rewrite !Z.shiftr_div_pow2 by lia. change (128 - 8) with 120.
  rewrite Z.div_add_l, (Z.div_small u) by lia.
  apply andb_true_iff. split.
  - apply negb_true_iff, Z.eqb_neq. intros E.
    pose proof (Z.div_le_lower_bound (253 * 2 ^ 120 + u) (2 ^ 32) 65536 ltac:(lia) ltac:(lia)). lia.
  - apply Z.eqb_eq. reflexivity.
Qed.

Lemma FromNpub_inv s a : FromNpub s = Ok a -> exists k, DecodeNpub s = Ok k /\ a = FromPubkey k.
Proof.
  unfold FromNpub. destruct (DecodeNpub s) as [k|]; [|done]. cbn. intros [= <-]. eauto.
Qed.

(** Decoding only looks at the lower-cased text. *)
Lemma bech32Decode_lower s x : bech32Decode s = Ok x -> bech32Decode (ToLower s) = Ok x.
Proof.
  unfold bech32Decode. destruct (negb _ && _); [done|]. rewrite ToLower_idem.
  by rewrite (bool_decide_eq_true_2 (ToLower s = ToLower s)) by done.
Qed.

Lemma DecodeNpub_lower s k : DecodeNpub s = Ok k -> DecodeNpub (ToLower s) = Ok k.
Proof.
  intros H. pose proof (DecodeNpub_inv s k H) as (d & H1 & H2 & H3 & H4).
  rewrite (DecodeNpub_eq (ToLower s) (bs "npub") d k); [by rewrite H4|by apply bech32Decode_lower|done..].
Qed.

(** Every address derived from an npub lies in the mesh range fd00::/8, is
    zone-free, consists of the prefix byte 0xfd followed by the first 15 bytes
    of SHA-256 of the decoded key, and does not depend on letter case; the key
    it is derived from is the x-coordinate of a secp256k1 point. *)
Theorem FromNpub_spec npub a :
  FromNpub npub = Ok a ->
  Valid a = true /\ plain6 a /\ FromNpub (ToLower npub) = Ok a /\
  exists k, DecodeNpub npub = Ok k /\ As16 a = 0xfd :: take 15 (sum256 k) /\
    undigits 256 k < secpP /\ exists y, (y * y) mod secpP = (undigits 256 k ^ 3 + 7) mod secpP.
Proof.
  intros (k & H & ->)%FromNpub_inv.
  split; [apply FromPubkey_Valid|]. split; [apply FromPubkey_plain6|]. split.
  - unfold FromNpub. by rewrite (DecodeNpub_lower _ _ H).
  - exists k. split; [done|]. split; [apply FromPubkey_As16|].
    apply validXOnly_curve. by apply DecodeNpub_inv in H as (? & _ & _ & _ & H).
Qed.

Lemma FromNpub_spec_witness : Valid addr1 = true /\ plain6 addr1.
Proof.
  pose proof (FromNpub_spec npub1 addr1 vector1_addr) as H.
  exact (conj (proj1 H) (proj1 (proj2 H))).
Defined.

Lemma Unmap_plain6 a : plain6 a -> Is4In6 a = false -> Unmap a = a.
Proof. destruct a as [| |v z]; intros _ E; [done..|]. cbn [Unmap]. by rewrite E. Qed.

Lemma Valid_Unmap a b : Valid a = true -> Unmap b = a -> b = a.
Proof.
  destruct b as [|v|v z]; cbn [Unmap]; intros H <-; [done..|].
  by destruct (Is4In6 (Addr6 v z)).
Qed.

(** [CheckDerivation npub addr] succeeds exactly when [addr] is the address
    derived from [npub]; in particular an IPv4-mapped or IPv4 source can never
    pass. *)
Theorem CheckDerivation_iff npub addr :
  CheckDerivation npub addr = Ok () <-> FromNpub npub = Ok addr.
Proof.
  unfold CheckDerivation. destruct (FromNpub npub) as [d|e] eqn:E; [|done].
  apply FromNpub_inv in E as (k & _ & ->). pose proof (FromPubkey_Valid k) as HV. split.
  - destruct (bool_decide _) eqn:Eb; [|done]. intros _. bool_hyps. f_equal. symmetry.
    by apply Valid_Unmap.
  - intros [= <-]. rewrite bool_decide_eq_true_2; [done|]. symmetry.
    apply Unmap_plain6; [apply FromPubkey_plain6|].
    unfold Valid in HV. bool_hyps. done.
Qed.

End DeriveFacts.
