(* ===== verification/Authzhash.v ===== *)
(** * pkg/authzhash: the fingerprint of an authorized set

    Models pkg/authzhash/authzhash.go.  The agent sends the fingerprint of the
    live kernel set with every heartbeat and the backend compares it with the
    fingerprint of authz_current; the theorems say what an equal (or different)
    fingerprint means for the two sets. *)

From S2P Require Import Prelude GoStrings Sha256 Netip.

Module Authzhash.

(** [bytes.Compare]. *)
Fixpoint bytes_Compare (a b : list Z) : comparison :=
  match a, b with
  | [], [] => Eq
  | [], _ :: _ => Lt
  | _ :: _, [] => Gt
  | x :: a, y :: b => match x ?= y with Eq => bytes_Compare a b | c => c end
  end.

Definition bytes_le (a b : list Z) : Prop := bytes_Compare a b <> Gt.

#[export] Instance bytes_le_dec : RelDecision bytes_le.
Proof. intros a b. unfold bytes_le, Decision. destruct (bytes_Compare a b); [left|left|right]; congruence. Defined.

Lemma bytes_Compare_refl a : bytes_Compare a a = Eq.
Proof. induction a as [|x a IH]; simpl; [done|]. by rewrite Z.compare_refl. Qed.

Lemma bytes_Compare_antisym a b : bytes_Compare b a = CompOpp (bytes_Compare a b).
Proof.
  revert b; induction a as [|x a IH]; intros [|y b]; simpl; try done.
  rewrite (Z.compare_antisym x y). destruct (x ?= y); simpl; [apply IH|done|done].
Qed.

Lemma bytes_Compare_eq a b : bytes_Compare a b = Eq -> a = b.
Proof.
  revert b; induction a as [|x a IH]; intros [|y b]; simpl; try done.
  destruct (x ?= y) eqn:E; try done. apply Z.compare_eq in E as ->. intros H. f_equal. by apply IH.
Qed.

#[export] Instance bytes_le_total : Total bytes_le.
Proof.
  intros a b. unfold bytes_le. rewrite (bytes_Compare_antisym a b).
  destruct (bytes_Compare a b); simpl; [left|left|right]; congruence.
Qed.

#[export] Instance bytes_le_antisym : AntiSymm (=) bytes_le.
Proof.
  intros a b. unfold bytes_le. rewrite (bytes_Compare_antisym a b). intros H1 H2.
  apply bytes_Compare_eq. by destruct (bytes_Compare a b).
Qed.

#[export] Instance bytes_le_trans : Transitive bytes_le.
Proof.
  unfold bytes_le. intros a b c; revert b c; induction a as [|x a IH]; intros [|y b] [|z c]; simpl; try done.
  destruct (Z.compare_spec x y), (Z.compare_spec y z), (Z.compare_spec x z); try done; try lia; subst.
  apply IH.
Qed.

#[export] Instance bytes_le_preorder : PreOrder bytes_le.
Proof. split; [|apply _]. intros a. unfold bytes_le. by rewrite bytes_Compare_refl. Qed.

#[export] Instance bytes_le_partial : PartialOrder bytes_le.
Proof. split; apply _. Qed.

(** The write loop: a key equal to the previous one is skipped. *)
Fixpoint write_keys (i : nat) (prev : list Z) (keys : list (list Z)) : list Z :=
  match keys with
  | [] => []
  | k :: r =>
      if (0 <? i)%nat && bool_decide (k = prev) then write_keys (S i) prev r
      else k ++ write_keys (S i) k r
  end.

Definition preimage (addrs : list Addr) : list Z :=
  write_keys 0 (replicate 16 0) (merge_sort bytes_le (map As16 addrs)).

Definition Of (addrs : list Addr) : gostr := HexEncode (take 16 (sum256 (preimage addrs))).

Section OfSet.
Context `{MI : MapIter}.
Definition OfSet (s : gset Addr) : gostr := Of (set_range s).
End OfSet.

(** ** Facts *)

Fixpoint dedup (l : list (list Z)) : list (list Z) :=
  match l with
  | [] => []
  | k :: r => match r with
              | k' :: _ => if bool_decide (k = k') then dedup r else k :: dedup r
              | [] => [k]
              end
  end.

Lemma write_keys_cons i prev k r :
  write_keys (S i) prev (k :: r) =
  if bool_decide (k = prev) then write_keys (S (S i)) prev r else k ++ write_keys (S (S i)) k r.
Proof. done. Qed.

Lemma write_keys_S i j prev l : write_keys (S i) prev l = write_keys (S j) prev l.
Proof.
  revert i j prev; induction l as [|k r IH]; intros i j prev; [done|].
  rewrite !write_keys_cons. destruct (bool_decide _); [apply IH|]. f_equal. apply IH.
Qed.

Lemma write_keys_dedup i k r : k ++ write_keys (S i) k r = concat (dedup (k :: r)).
Proof.
  revert i k; induction r as [|k' r IH]; intros i k; [done|].
  rewrite write_keys_cons. cbn [dedup].
  destruct (decide (k' = k)) as [->|Hne].
  - rewrite !bool_decide_eq_true_2 by done. rewrite (IH (S i)). done.
  - rewrite !bool_decide_eq_false_2 by congruence. rewrite (IH (S i)). done.
Qed.

Lemma preimage_dedup addrs :
  preimage addrs = concat (dedup (merge_sort bytes_le (map As16 addrs))).
Proof.
  unfold preimage. destruct (merge_sort _ _) as [|k r]; [done|].
  change (write_keys 0 _ (k :: r)) with (k ++ write_keys 1 k r). apply write_keys_dedup.
Qed.

Lemma elem_of_dedup l k : k ∈ dedup l <-> k ∈ l.
Proof.
  induction l as [|x r IH]; [done|]. cbn [dedup]. destruct r as [|y r]; [done|].
  destruct (bool_decide (x = y)) eqn:E; bool_hyps.
  - rewrite IH. subst. rewrite !elem_of_cons. tauto.
  - rewrite !(elem_of_cons _ k x), IH. done.
Qed.

Definition bytes_lt (a b : list Z) : Prop := bytes_le a b /\ a <> b.

Lemma dedup_strict l : StronglySorted bytes_le l -> StronglySorted bytes_lt (dedup l).
Proof.
  induction 1 as [|x r Hr IH Hx]; [constructor|]. cbn [dedup]. destruct r as [|y r].
  - repeat constructor.
  - destruct (bool_decide (x = y)) eqn:E; bool_hyps; [done|].
    constructor; [done|]. rewrite Forall_forall in Hx |- *. intros z Hz.
    rewrite elem_of_dedup in Hz. split; [by apply Hx|]. intros ->.
    apply StronglySorted_inv in Hr as [_ Hr]. rewrite Forall_forall in Hr.
    apply E. apply (anti_symm bytes_le); [apply Hx; left|].
    apply elem_of_cons in Hz as [->|Hz]; [reflexivity|by apply Hr].
Qed.

(** Strictly sorted lists are determined by their elements. *)
Lemma strict_sorted_unique l l' :
  StronglySorted bytes_lt l -> StronglySorted bytes_lt l' -> (forall k, k ∈ l <-> k ∈ l') -> l = l'.
Proof.
  intros H. revert l'; induction H as [|x r Hr IH Hx]; intros l' H' Hin.
  - destruct l' as [|y r']; [done|]. exfalso. by apply (not_elem_of_nil y), Hin; left.
  - destruct H' as [|y r' Hr' Hy]; [exfalso; by apply (not_elem_of_nil x), Hin; left|].
    rewrite Forall_forall in Hx, Hy.
    assert (x = y) as <-.
    { pose proof (proj1 (Hin x) ltac:(left)) as H1. pose proof (proj2 (Hin y) ltac:(left)) as H2.
      apply elem_of_cons in H1 as [|H1]; [done|]. apply elem_of_cons in H2 as [|H2]; [done|].
      apply (anti_symm bytes_le); [by apply Hx|by apply Hy]. }
    f_equal. apply IH; [done|]. intros k. specialize (Hin k). rewrite !elem_of_cons in Hin.
    split; intros Hk.
    + destruct (proj1 Hin (or_intror Hk)) as [->|]; [|done]. by destruct (Hx x Hk).
    + destruct (proj2 Hin (or_intror Hk)) as [->|]; [|done]. by destruct (Hy x Hk).
Qed.

Lemma sorted_keys addrs : StronglySorted bytes_le (merge_sort bytes_le (map As16 addrs)).
Proof. apply StronglySorted_merge_sort; apply _. Qed.

Lemma dedup_keys addrs k : k ∈ dedup (merge_sort bytes_le (map As16 addrs)) <-> k ∈ map As16 addrs.
Proof. rewrite elem_of_dedup. by rewrite merge_sort_Permutation. Qed.

(** Concatenations of 16-byte blocks are determined by the blocks. *)
Lemma concat_blocks_inj (n : nat) (l l' : list (list Z)) :
  (0 < n)%nat -> Forall (fun k => length k = n) l -> Forall (fun k => length k = n) l' ->
  concat l = concat l' -> l = l'.
Proof.
  intros Hn H. revert l'; induction H as [|k l Hk Hl IH]; intros l' H' E.
  - destruct H' as [|k' l' Hk']; [done|]. destruct k'; [simpl in Hk'; lia|done].
  - destruct H' as [|k' l' Hk' Hl']; [destruct k; [simpl in Hk; lia|done]|].
    cbn [concat] in E. apply app_inj_1 in E as [-> E]; [|congruence]. f_equal. by apply IH.
Qed.

Lemma dedup_lengths addrs :
  Forall (fun k => length k = 16%nat) (dedup (merge_sort bytes_le (map As16 addrs))).
Proof.
  apply Forall_forall. intros k Hk. rewrite dedup_keys in Hk.
  apply list_elem_of_fmap in Hk as (a & -> & _). apply length_As16.
Qed.

Lemma preimage_set_eq l l' :
  (forall k, k ∈ map As16 l <-> k ∈ map As16 l') <-> preimage l = preimage l'.
Proof.
  rewrite !preimage_dedup. split.
  - intros H. f_equal. apply strict_sorted_unique; [apply dedup_strict, sorted_keys..|].
    intros k. by rewrite !dedup_keys.
  - intros E k. apply (concat_blocks_inj 16) in E; [|lia|apply dedup_lengths..].
    by rewrite <- !dedup_keys, E.
Qed.

(** [digest_agrees m m']: the truncated digest tells [m] and [m'] apart if they
    differ (no collision on this particular pair). *)
Definition digest_separates (m m' : list Z) : Prop :=
  take 16 (sum256 m) = take 16 (sum256 m') -> m = m'.

Lemma Of_eq_iff l l' :
  digest_separates (preimage l) (preimage l') ->
  Of l = Of l' <-> (forall k, k ∈ map As16 l <-> k ∈ map As16 l').
Proof.
  intros Hc. rewrite preimage_set_eq. unfold Of. split; [|by intros ->].
  intros E. apply HexEncode_inj in E; [|apply Forall_take, sum256_bytes..]. by apply Hc.
Qed.

Lemma range_keys (MI : MapIter) (s : gset Addr) k :
  k ∈ map As16 (set_range s) <-> exists a, k = As16 a /\ a ∈ s.
Proof.
  rewrite list_elem_of_fmap. split; intros (a & -> & Ha); exists a; (split; [done|]);
    by apply elem_of_set_range.
Qed.

Lemma keys_subset (t u : gset Addr) :
  set_Forall plain6 t -> set_Forall plain6 u ->
  (forall k, (exists a, k = As16 a /\ a ∈ t) -> exists a, k = As16 a /\ a ∈ u) -> t ⊆ u.
Proof.
  intros Ht Hu Hk a Ha. destruct (Hk (As16 a)) as (b & Eb & Hb); [by exists a|].
  rewrite (As16_inj a b); [done|by apply Ht|by apply Hu|done].
Qed.

Lemma Of_members l l' : (forall a, a ∈ l <-> a ∈ l') -> Of l = Of l'.
Proof.
  intros H. unfold Of. do 3 f_equal. apply preimage_set_eq. intros k.
  split; intros (a & -> & Ha)%list_elem_of_fmap; apply list_elem_of_fmap; exists a; split; try done;
    by apply H.
Qed.

(** The fingerprint is a function of the set: lists with the same members,
    whatever their order and multiplicity, have the same fingerprint; in
    particular the order a Go map is iterated in does not matter. *)
Theorem Of_order_independent l l' :
  (forall a, a ∈ l <-> a ∈ l') ->
  Of l = Of l' /\ forall MI : MapIter, OfSet (MI := MI) (list_to_set l) = Of l'.
Proof.
  intros H. split; [by apply Of_members|]. intros MI. apply Of_members. intros a.
  rewrite <- H. etrans; [apply elem_of_set_range|]. apply elem_of_list_to_set.
Qed.

Lemma Of_order_independent_witness :
  Of [Addr6 1 []; Addr6 2 []; Addr6 3 []] = Of [Addr6 3 []; Addr6 1 []; Addr6 2 []; Addr6 1 []] /\
  forall MI : MapIter, OfSet (MI := MI) (list_to_set [Addr6 1 []; Addr6 2 []; Addr6 3 []]) =
    Of [Addr6 3 []; Addr6 1 []; Addr6 2 []; Addr6 1 []].
Proof. apply Of_order_independent. intros a. rewrite !elem_of_cons, elem_of_nil. tauto. Defined.

(** The fingerprint comparison is exact on sets of mesh addresses: the
    agent's and the backend's fingerprints are equal if and only if the two sets
    agree member by member, whatever order the two maps are iterated in, provided
    the truncated SHA-256 does not collide on these two sets' encodings. *)
Theorem OfSet_detects_drift (MI MI' : MapIter) (s s' : gset Addr) :
  set_Forall plain6 s -> set_Forall plain6 s' ->
  digest_separates (preimage (set_range (MapIter := MI) s)) (preimage (set_range (MapIter := MI') s')) ->
  OfSet (MI := MI) s = OfSet (MI := MI') s' <-> s = s'.
Proof.
  intros Hs Hs' Hc. unfold OfSet. rewrite Of_eq_iff by done.
  split; [|intros ->; intros k; by rewrite !range_keys].
  intros E. assert (E' : forall k, (exists a, k = As16 a /\ a ∈ s) <-> exists a, k = As16 a /\ a ∈ s')
    by (intros k; rewrite <- (range_keys MI), <- (range_keys MI'); apply E).
  apply set_eq. intros a. split; apply keys_subset; try done; intros k; apply E'.
Qed.

Lemma OfSet_detects_drift_witness :
  (OfSet {[Addr6 1 []; Addr6 2 []]} = OfSet {[Addr6 1 []; Addr6 3 []]} <->
   ({[Addr6 1 []; Addr6 2 []]} : gset Addr) = {[Addr6 1 []; Addr6 3 []]}).
Proof.
  apply (OfSet_detects_drift canonical_iter canonical_iter).
  - intros a Ha. rewrite elem_of_union, !elem_of_singleton in Ha. destruct Ha as [-> | ->]; by repeat split.
  - intros a Ha. rewrite elem_of_union, !elem_of_singleton in Ha. destruct Ha as [-> | ->]; by repeat split.
  - intros E. exfalso. vm_compute in E. discriminate E.
Defined.

End Authzhash.
