(* ===== verification/Nostr.v ===== *)
(** * backend/nostr: signed events

    Models backend/nostr/nostr.go: the canonical serialization of an event (Go's
    encoding/json with HTML escaping off, byte for byte, with the UTF-8 decoding it
    does), the event id, and the signature check.  The Schnorr routines of
    btcec are arguments.  The theorem: the text that is hashed and signed
    determines every field a login is decided on. *)

From S2P Require Import Prelude GoStrings Sha256 Fipsaddr.
Import Npub.

Module Nostr.

Record Event := {
  ev_ID : gostr; ev_Pubkey : gostr; ev_CreatedAt : Z; ev_Kind : Z; ev_Tags : list (option (list gostr)); ev_Content : gostr; ev_Sig : gostr
}.

(** AuthEventKind of challenge.go. *)
Definition AuthEventKind : Z := 27235.

(** ** utf8.DecodeRuneInString

    The rune and its width; an ill-formed sequence is the error rune of width 1
    ([None]). *)

Definition cont (b : Z) : bool := (0x80 <=? b) && (b <=? 0xBF).

Definition DecodeRune (s : gostr) : option (Z * nat) :=
  match s with
  | [] => None
  | b0 :: r =>
      if b0 <? 0x80 then Some (b0, 1%nat)
      else if (0xC2 <=? b0) && (b0 <=? 0xDF) then
        match r with
        | b1 :: _ => if cont b1 then Some ((b0 - 0xC0) * 64 + (b1 - 0x80), 2%nat) else None
        | _ => None
        end
      else if (0xE0 <=? b0) && (b0 <=? 0xEF) then
        match r with
        | b1 :: b2 :: _ =>
            let lo := if b0 =? 0xE0 then 0xA0 else 0x80 in
            let hi := if b0 =? 0xED then 0x9F else 0xBF in
            if (lo <=? b1) && (b1 <=? hi) && cont b2 then
              Some ((b0 - 0xE0) * 4096 + (b1 - 0x80) * 64 + (b2 - 0x80), 3%nat)
            else None
        | _ => None
        end
      else if (0xF0 <=? b0) && (b0 <=? 0xF4) then
        match r with
        | b1 :: b2 :: b3 :: _ =>
            let lo := if b0 =? 0xF0 then 0x90 else 0x80 in
            let hi := if b0 =? 0xF4 then 0x8F else 0xBF in
            if (lo <=? b1) && (b1 <=? hi) && cont b2 && cont b3 then
              Some ((b0 - 0xF0) * 262144 + (b1 - 0x80) * 4096 + (b2 - 0x80) * 64 + (b3 - 0x80), 4%nat)
            else None
        | _ => None
        end
      else None
  end.

(** ** encoding/json strings, SetEscapeHTML(false) *)

Definition escape_ascii (c : Z) : gostr :=
  if (c =? 34) || (c =? 92) then [92; c]
  else if c =? 8 then bs "\b"
  else if c =? 12 then bs "\f"
  else if c =? 10 then bs "\n"
  else if c =? 13 then bs "\r"
  else if c =? 9 then bs "\t"
  else if c <? 32 then bs "\u00" ++ [hex_digit (c / 16); hex_digit (c mod 16)]
  else [c].

(** The body of [appendString]: one rune per iteration, hence at most one
    iteration per byte. *)
Fixpoint escape (fuel : nat) (s : gostr) : gostr :=
  match fuel, s with
  | S fuel, c :: r =>
      if c <? 0x80 then escape_ascii c ++ escape fuel r
      else match DecodeRune s with
           | None => bs "\ufffd" ++ escape fuel r
           | Some (rn, w) =>
               if (rn =? 0x2028) || (rn =? 0x2029) then bs "\u202" ++ [hex_digit (rn mod 16)] ++ escape fuel (drop w s)
               else take w s ++ escape fuel (drop w s)
           end
  | _, _ => []
  end.

Definition json_string (s : gostr) : gostr := [34] ++ escape (length s) s ++ [34].
Definition json_array (items : list gostr) : gostr := [91] ++ Join [44] items ++ [93].

(** ** nostr.go *)

(** A tag; [None] is the nil slice a [null] in the request decodes to. *)
Definition json_tag (t : option (list gostr)) : gostr :=
  match t with Some t => json_array (map json_string t) | None => bs "null" end.

(** The text hashed: [0, pubkey, created_at, kind, tags, content]. *)
Definition serialize (e : Event) : gostr :=
  json_array [bs "0"; json_string (ev_Pubkey e); FormatInt (ev_CreatedAt e); FormatInt (ev_Kind e);
              json_array (map json_tag (ev_Tags e)); json_string (ev_Content e)].

Definition ComputeID (e : Event) : list Z := sum256 (serialize e).

Inductive verify_err := BadPubkey | IDMismatch | BadSigEncoding | ParsePubkey | ParseSig | SigMismatch.

Section Verify.
Context (ParsePubKey ParseSignature : list Z -> bool) (schnorr_Verify : list Z -> list Z -> list Z -> bool).

(** [schnorr_Verify sig id pk] is [sig.Verify(id, pubkey)]. *)
Definition Verify (e : Event) : result verify_err gostr :=
  match HexDecode (ev_Pubkey e) with
  | None => Err BadPubkey
  | Some pk =>
      if negb (Z.of_nat (length pk) =? 32) then Err BadPubkey else
      let id := ComputeID e in
      if negb (bool_decide (ev_ID e = [])) && negb (bool_decide (ev_ID e = HexEncode id)) then Err IDMismatch else
      match HexDecode (ev_Sig e) with
      | None => Err BadSigEncoding
      | Some sig =>
          if negb (Z.of_nat (length sig) =? 64) then Err BadSigEncoding
          else if negb (ParsePubKey pk) then Err ParsePubkey
          else if negb (ParseSignature sig) then Err ParseSig
          else if negb (schnorr_Verify sig id pk) then Err SigMismatch
          else Ok (EncodeNpub pk)
      end
  end.

End Verify.
(** ** Facts *)

(** *** Reading a string back *)

Definition unhex4 (h : gostr) : gostr :=
  match parse_digits 16 h with
  | Some 0x2028 => [0xE2; 0x80; 0xA8]
  | Some 0x2029 => [0xE2; 0x80; 0xA9]
  | Some v => [v]
  | None => []
  end.

Definition unescape_byte (c : Z) : Z :=
  if c =? 98 then 8 else if c =? 102 then 12 else if c =? 110 then 10 else if c =? 114 then 13 else if c =? 116 then 9 else c.

Definition prepend (l : gostr) (o : option (gostr * gostr)) : option (gostr * gostr) :=
  '(s, r) ← o; Some (l ++ s, r).

(** The string up to the closing quote, and the text after it. *)
Fixpoint read_string (s : gostr) : option (gostr * gostr) :=
  match s with
  | [] => None
  | c :: r =>
      if c =? 34 then Some ([], r)
      else if c =? 92 then
        match r with
        | [] => None
        | e :: r1 =>
            if e =? 117 then
              match r1 with
              | h1 :: h2 :: h3 :: h4 :: r2 => prepend (unhex4 [h1; h2; h3; h4]) (read_string r2)
              | _ => None
              end
            else prepend [unescape_byte e] (read_string r1)
        end
      else prepend [c] (read_string r)
  end.

(** Text the JSON decoder produces: well-formed UTF-8. *)
Fixpoint valid_utf8 (fuel : nat) (s : gostr) : bool :=
  match fuel, s with
  | _, [] => true
  | O, _ => false
  | S fuel, _ => match DecodeRune s with Some (_, w) => valid_utf8 fuel (drop w s) | None => false end
  end.

Definition ValidString (s : gostr) : Prop := valid_utf8 (length s) s = true /\ Forall in_u8 s.

Lemma prepend_app a b o : prepend a (prepend b o) = prepend (a ++ b) o.
Proof. destruct o as [[s r]|]; [|done]. unfold prepend. cbn. by rewrite app_assoc. Qed.

Lemma read_ascii c t : 0 <= c < 128 -> read_string (escape_ascii c ++ t) = prepend [c] (read_string t).
Proof.
  intros Hc. destruct (Z.ltb_spec c 32) as [Hs|Hs].
  - assert (He : c ∈ map Z.of_nat (seq 0 32)).
    { apply list_elem_of_In, in_map_iff. exists (Z.to_nat c). split; [lia|]. apply in_seq. lia. }
    cbn [map seq Z.of_nat] in He. rewrite !elem_of_cons in He.
    repeat (destruct He as [->|He]; [reflexivity|]). by apply elem_of_nil in He.
  - unfold escape_ascii. destruct ((c =? 34) || (c =? 92)) eqn:E1.
    + apply orb_true_iff in E1 as [E|E]; apply Z.eqb_eq in E as ->; reflexivity.
    + apply orb_false_iff in E1 as [E34 E92].
      do 5 (rewrite (proj2 (Z.eqb_neq _ _)) by lia). rewrite (proj2 (Z.ltb_ge _ _)) by lia.
      cbn [app read_string]. by rewrite E34, E92.
Qed.

Lemma read_wide l t : Forall (fun b => 128 <= b) l -> read_string (l ++ t) = prepend l (read_string t).
Proof.
  induction 1 as [|b l Hb _ IH]; cbn [app read_string].
  - by destruct (read_string t) as [[]|].
  - rewrite !(proj2 (Z.eqb_neq _ _)) by lia. rewrite IH. by rewrite prepend_app.
Qed.

(** A rune that is not ASCII is spelled with bytes from 128 on; the two line
    separators have one spelling. *)
Lemma DecodeRune_wide c r rn w : 128 <= c -> DecodeRune (c :: r) = Some (rn, w) ->
  Forall (fun b => 128 <= b) (take w (c :: r)) /\ (w <> 0)%nat /\
  (rn = 0x2028 -> take w (c :: r) = [0xE2; 0x80; 0xA8]) /\ (rn = 0x2029 -> take w (c :: r) = [0xE2; 0x80; 0xA9]).
Proof.
  intros Hc. cbn [DecodeRune]. rewrite (proj2 (Z.ltb_ge _ _)) by lia. unfold cont.
  repeat (case_scrutinee; try done); intros H; injection H as <- <-; bool_hyps; cbn [take];
    (split; [repeat (apply Forall_cons_2; [lia|]); apply Forall_nil_2|]); (split; [lia|]);
    repeat match goal with H : context [if ?b then _ else _] |- _ => destruct b eqn:?; bool_hyps end;
    split; intros Hr; repeat f_equal; lia.
Qed.

Lemma read_escape n s r : valid_utf8 n s = true -> Forall in_u8 s -> read_string (escape n s ++ 34 :: r) = Some (s, r).
Proof.
  revert s. induction n as [|n IH]; intros s Hv Hb; destruct s as [|c t]; try done. cbn [escape].
  apply Forall_cons in Hb as Hct. destruct Hct as [Hc Ht]. unfold in_u8 in Hc. cbn [valid_utf8] in Hv.
  destruct (c <? 128) eqn:Ec; bool_hyps.
  - rewrite <- app_assoc, read_ascii by lia. rewrite IH; [done| |done].
    cbn [DecodeRune] in Hv. rewrite (proj2 (Z.ltb_lt _ _)) in Hv by lia. done.
  - destruct (DecodeRune (c :: t)) as [[rn w]|] eqn:E; [|done].
    destruct (DecodeRune_wide c t rn w ltac:(lia) E) as (HF & Hw & H28 & H29).
    assert (IH' : read_string (escape n (drop w (c :: t)) ++ 34 :: r) = Some (drop w (c :: t), r)).
    { apply IH; [done|]. by apply Forall_drop. }
    destruct ((rn =? 0x2028) || (rn =? 0x2029)) eqn:Er.
    + transitivity (Some (take w (c :: t) ++ drop w (c :: t), r)); [|by rewrite take_drop]. apply orb_true_iff in Er as [Er|Er]; apply Z.eqb_eq in Er as ->.
      * rewrite H28 by done. cbn [app hex_digit bs]. change (bs "\u202") with [92; 117; 50; 48; 50].
        cbn [app]. change (hex_digit (8232 mod 16)) with 56. cbn [read_string Z.eqb Pos.eqb]. by rewrite IH'.
      * rewrite H29 by done. change (bs "\u202") with [92; 117; 50; 48; 50].
        cbn [app]. change (hex_digit (8233 mod 16)) with 57. cbn [read_string Z.eqb Pos.eqb]. by rewrite IH'.
    + rewrite <- app_assoc, read_wide, IH' by done. cbn. by rewrite take_drop.
Qed.

Lemma tail_eq (c : Z) (l l' : gostr) : c :: l = c :: l' -> l = l'.
Proof. by intros [= ->]. Qed.

(** *** Codes that can be read from the front of a text *)

Definition prefix_code {A} (P : A -> Prop) (f : A -> gostr) : Prop :=
  forall x y r r', P x -> P y -> f x ++ r = f y ++ r' -> x = y /\ r = r'.

Lemma json_string_code : prefix_code ValidString json_string.
Proof.
  intros x y r r' [Hx Bx] [Hy By] E. unfold json_string in E. rewrite <- !app_assoc in E. cbn [app] in E. injection E as E.
  apply (f_equal read_string) in E. rewrite !read_escape in E by done. by injection E.
Qed.

Lemma json_array_code {A} (P : A -> Prop) (f : A -> gostr) :
  prefix_code P f -> (forall x, exists c t, f x = c :: t /\ c <> 93) -> prefix_code (Forall P) (fun l => json_array (map f l)).
Proof.
  intros Hf Hh.
  assert (H : forall l l' r r', Forall P l -> Forall P l' ->
    Join [44] (map f l) ++ 93 :: r = Join [44] (map f l') ++ 93 :: r' -> l = l' /\ r = r').
  { induction l as [|x l IH]; intros l' r r' Hl Hl' E.
    - destruct l' as [|y l']; [by injection E|]. destruct (Hh y) as (c & t & Ey & Hc).
      destruct l'; cbn [map Join app] in E; rewrite Ey in E; injection E as <-; done.
    - apply Forall_cons in Hl as [Hx Hl]. destruct l' as [|y l'].
      + destruct (Hh x) as (c & t & Ex & Hc). destruct l; cbn [map Join app] in E; rewrite Ex in E; injection E as ->; done.
      + apply Forall_cons in Hl' as [Hy Hl'].
        destruct l as [|x2 l], l' as [|y2 l']; cbn [map] in E; cbn [Join] in E; rewrite <- ?app_assoc in E;
          apply Hf in E as [-> E]; try done; cbn [app] in E; injection E as E; try done.
        destruct (IH (y2 :: l') r r' Hl Hl' E) as [-> ->]. done. }
  intros x y r r' Hx Hy E. unfold json_array in E. cbn [app] in E. injection E as E. rewrite <- !app_assoc in E. by apply H in E.
Qed.

Definition ok_tag (t : option (list gostr)) : Prop := match t with Some t => Forall ValidString t | None => True end.

Lemma json_tag_code : prefix_code ok_tag json_tag.
Proof.
  intros [x|] [y|] r r' Hx Hy E; cbn in E; try done; [|by simplify_eq/=].
  apply (json_array_code ValidString json_string json_string_code) in E as [-> ->]; try done.
  intros s. unfold json_string. cbn [app]. by eexists _, _.
Qed.

Lemma tags_code : prefix_code (Forall ok_tag) (fun l => json_array (map json_tag l)).
Proof.
  apply json_array_code; [exact json_tag_code|]. intros [t|]; [|by eexists _, _]. unfold json_tag, json_array. cbn [app]. by eexists _, _.
Qed.

Lemma cut_at (c : Z) (p q x y : gostr) : c ∉ p -> c ∉ q -> p ++ c :: x = q ++ c :: y -> p = q /\ x = y.
Proof.
  revert q. induction p as [|a p IH]; intros [|b q] Hp Hq E; rewrite ?not_elem_of_cons in *; cbn in E; inv E; try tauto.
  destruct (IH q) as [-> ->]; tauto.
Qed.

Lemma FormatInt_code n m x y : in_i64 n -> in_i64 m -> FormatInt n ++ 44 :: x = FormatInt m ++ 44 :: y -> n = m /\ x = y.
Proof.
  intros Hn Hm E. apply cut_at in E as [E ->]; [|intros Hin; apply FormatInt_chars in Hin; lia..]. split; [|done].
  apply (f_equal ParseInt) in E. rewrite !ParseInt_FormatInt in E by done. by injection E.
Qed.

Lemma serialize_shape e :
  serialize e = 91 :: 48 :: 44 :: json_string (ev_Pubkey e) ++ 44 :: FormatInt (ev_CreatedAt e) ++ 44 :: FormatInt (ev_Kind e) ++
    44 :: json_array (map json_tag (ev_Tags e)) ++ 44 :: json_string (ev_Content e) ++ [93].
Proof.
  unfold serialize, json_array at 1. cbn [Join]. rewrite <- !app_assoc. reflexivity.
Qed.

(** An event as the decoder of the request gives it. *)
Definition event_ok (e : Event) : Prop :=
  ValidString (ev_Pubkey e) /\ in_i64 (ev_CreatedAt e) /\ in_i64 (ev_Kind e) /\ Forall ok_tag (ev_Tags e) /\ ValidString (ev_Content e).

(** [C33] What a signature covers: two events have the same signed text exactly
    when they agree on the key, the time, the kind, every tag and the content, so
    a text signed for one challenge and one portal is not the text of any other
    login event. *)
Theorem signed_text_binds e e' : event_ok e -> event_ok e' ->
  serialize e = serialize e' <->
  ev_Pubkey e = ev_Pubkey e' /\ ev_CreatedAt e = ev_CreatedAt e' /\ ev_Kind e = ev_Kind e' /\ ev_Tags e = ev_Tags e' /\
  ev_Content e = ev_Content e'.
Proof.
  intros (P1 & C1 & K1 & T1 & S1) (P2 & C2 & K2 & T2 & S2). split.
  - intros E. rewrite !serialize_shape in E. do 3 apply tail_eq in E.
    apply json_string_code in E as [EP E]; [|done..]. apply tail_eq in E.
    apply FormatInt_code in E as [EC E]; [|done..]. apply FormatInt_code in E as [EK E]; [|done..].
    apply (tags_code (ev_Tags e) (ev_Tags e')) in E as [ET E]; [|done..]. apply tail_eq in E.
    apply json_string_code in E as [ES E]; done.
  - intros (EP & EC & EK & ET & ES). unfold serialize. by rewrite EP, EC, EK, ET, ES.
Qed.

(** ** Examples *)

(** A login event for a portal, its content with text the encoder escapes. *)
Definition login_event (u : gostr) : Event := {|
  ev_ID := []; ev_Pubkey := bs "ab"; ev_CreatedAt := 1700000000; ev_Kind := AuthEventKind;
  ev_Tags := [Some [bs "challenge"; bs "n.1.m"]; Some [bs "u"; u]; None]; ev_Content := [34; 10; 0xE2; 0x80; 0xA8; 0xC3; 0xA9; 0x1f]; ev_Sig := [] |}.

Example serialize_login : serialize (login_event (bs "http://a/")) =
  bs "[0," ++ [34] ++ bs "ab" ++ [34] ++ bs ",1700000000,27235,[[" ++ [34] ++ bs "challenge" ++ [34] ++ bs "," ++ [34] ++ bs "n.1.m" ++ [34] ++
  bs "],[" ++ [34] ++ bs "u" ++ [34] ++ bs "," ++ [34] ++ bs "http://a/" ++ [34] ++ bs "],null]," ++
  [34; 92; 34] ++ bs "\n\u2028" ++ [0xC3; 0xA9] ++ bs "\u001f" ++ [34] ++ bs "]".
Proof. vm_compute. reflexivity. Qed.

Ltac valid_text := split; [vm_compute; reflexivity|apply (bool_decide_unpack _); vm_compute; exact I].

Lemma login_event_ok u : ValidString u -> event_ok (login_event u).
Proof.
  intros Hu. unfold event_ok, login_event. cbn. split; [valid_text|]. split; [vm_compute; split; congruence|].
  split; [vm_compute; split; congruence|]. split; [|valid_text].
  repeat apply Forall_cons_2; try exact I; try apply Forall_nil_2; cbn;
    repeat apply Forall_cons_2; try apply Forall_nil_2; try valid_text; done.
Qed.

Lemma signed_text_binds_witness : serialize (login_event (bs "http://a/")) <> serialize (login_event (bs "http://b/")).
Proof.
  intros E. apply (signed_text_binds (login_event (bs "http://a/")) (login_event (bs "http://b/"))) in E.
  - destruct E as (_ & _ & _ & E & _). vm_compute in E. congruence.
  - apply login_event_ok. valid_text.
  - apply login_event_ok. valid_text.
Defined.

End Nostr.
