(* ===== verification/GoText.v ===== *)
(** * encoding/json texts and RFC 3339 times

    [json.Marshal] of a tree of [GoJson], and [json.Decoder.Decode] on a text, which
    may be cut off at a limit ([http.MaxBytesReader], [io.LimitReader]); the texts of
    times in UTC.  What is marshalled is decoded again, and an object that does not
    fit the limit is not decoded at all. *)

From S2P Require Import Prelude GoStrings GoJson Nostr.
Import Json Nostr.

Module JsonText.

(** ** Marshal *)

(** Marshal and Encoder escape the characters of HTML. *)
Definition escape_char (c : Z) : gostr :=
  if (c =? 60) || (c =? 62) || (c =? 38) then bs "\u00" ++ [hex_digit (c / 16); hex_digit (c mod 16)] else escape_ascii c.

Fixpoint escape_html (fuel : nat) (s : gostr) : gostr :=
  match fuel, s with
  | S fuel, c :: r =>
      if c <? 0x80 then escape_char c ++ escape_html fuel r
      else match DecodeRune s with
           | None => bs "\ufffd" ++ escape_html fuel r
           | Some (rn, w) =>
               if (rn =? 0x2028) || (rn =? 0x2029) then bs "\u202" ++ [hex_digit (rn mod 16)] ++ escape_html fuel (drop w s)
               else take w s ++ escape_html fuel (drop w s)
           end
  | _, _ => []
  end.

Definition marshal_string (s : gostr) : gostr := [34] ++ escape_html (length s) s ++ [34].

(** The program marshals no number but integers. *)
Fixpoint Marshal (v : jvalue) : gostr :=
  match v with
  | jnull => bs "null"
  | jbool b => if b then bs "true" else bs "false"
  | jnum n => FormatInt n
  | jfrac => []
  | jstr s => marshal_string s
  | jarr l => [91] ++ Join [44] (map Marshal l) ++ [93]
  | jobj l => [123] ++ Join [44] (map (fun kv => marshal_string kv.1 ++ [58] ++ Marshal kv.2) l) ++ [125]
  end.

(** ** Decode *)

Fixpoint skip_ws (s : gostr) : gostr :=
  match s with
  | c :: r => if (c =? 32) || (c =? 9) || (c =? 10) || (c =? 13) then skip_ws r else s
  | [] => []
  end.

(** *** Strings *)

(** U+FFFD in UTF-8. *)
Definition replacement : gostr := [0xEF; 0xBF; 0xBD].

(** [utf8.EncodeRune] *)
Definition EncodeRune (r : Z) : gostr :=
  if r <? 0x80 then [r]
  else if r <? 0x800 then [0xC0 + r / 64; 0x80 + r mod 64]
  else if r <? 0x10000 then [0xE0 + r / 4096; 0x80 + r / 64 mod 64; 0x80 + r mod 64]
  else [0xF0 + r / 262144; 0x80 + r / 4096 mod 64; 0x80 + r / 64 mod 64; 0x80 + r mod 64].

Definition unescape_char (e : Z) : option Z :=
  if (e =? 34) || (e =? 92) || (e =? 47) then Some e
  else if e =? 98 then Some 8 else if e =? 102 then Some 12 else if e =? 110 then Some 10
  else if e =? 114 then Some 13 else if e =? 116 then Some 9 else None.

Definition hex4 (h1 h2 h3 h4 : Z) : option Z := parse_digits 16 [h1; h2; h3; h4].
Definition IsSurrogate (u : Z) : bool := (0xD800 <=? u) && (u <? 0xE000).

(** The code point of a surrogate and the [\uXXXX] after it. *)
Definition surrogate_pair (u b k g1 g2 g3 g4 : Z) : option Z :=
  if (b =? 92) && (k =? 117) then
    u2 ← hex4 g1 g2 g3 g4;
    if (u <? 0xDC00) && (0xDC00 <=? u2) && (u2 <? 0xE000) then Some ((u - 0xD800) * 1024 + (u2 - 0xDC00) + 0x10000) else None
  else None.

(** What follows the opening quote: the string, and the text after the closing
    quote.  Bytes that are not ASCII are taken as they are; an escape stands for
    whole code points, so what is ill-formed among them can be replaced afterwards. *)
Fixpoint read_str (s : gostr) : option (gostr * gostr) :=
  match s with
  | [] => None
  | c :: r =>
      if c =? 34 then Some ([], r)
      else if c =? 92 then
        match r with
        | [] => None
        | e :: r1 =>
            if e =? 117 then
              match r1 with
              | h1 :: h2 :: h3 :: h4 :: r2 =>
                  match hex4 h1 h2 h3 h4 with
                  | None => None
                  | Some u =>
                      if IsSurrogate u then
                        match r2 with
                        | b :: k :: g1 :: g2 :: g3 :: g4 :: r3 =>
                            match surrogate_pair u b k g1 g2 g3 g4 with
                            | Some p => prepend (EncodeRune p) (read_str r3)
                            | None => prepend replacement (read_str r2)
                            end
                        | _ => prepend replacement (read_str r2)
                        end
                      else prepend (EncodeRune u) (read_str r2)
                  end
              | _ => None
              end
            else match unescape_char e with Some x => prepend [x] (read_str r1) | None => None end
        end
      else if c <? 32 then None
      else prepend [c] (read_str r)
  end.

(** Ill-formed UTF-8 is replaced, byte by byte. *)
Fixpoint to_valid (fuel : nat) (s : gostr) : gostr :=
  match fuel, s with
  | S fuel, _ :: r =>
      match DecodeRune s with
      | Some (_, w) => take w s ++ to_valid fuel (drop w s)
      | None => replacement ++ to_valid fuel r
      end
  | _, _ => []
  end.
Definition ToValidUTF8 (s : gostr) : gostr := to_valid (length s) s.

(** *** Numbers and literals *)

Definition is_digit (c : Z) : bool := (48 <=? c) && (c <=? 57).

Fixpoint span_digits (s : gostr) : gostr * gostr :=
  match s with
  | c :: r => if is_digit c then let '(d, t) := span_digits r in (c :: d, t) else ([], s)
  | [] => ([], [])
  end.

(** No leading zero. *)
Definition integer_part (s : gostr) : option (gostr * gostr) :=
  match span_digits s with
  | ([], _) => None
  | (c :: r, t) => if (c =? 48) && negb (bool_decide (r = [])) then None else Some (c :: r, t)
  end.

Definition digits_after (s : gostr) : option gostr :=
  match span_digits s with ([], _) => None | (_, t) => Some t end.

(** Whether there is a fraction, an exponent, and the text after it. *)
Definition fraction (s : gostr) : option (bool * gostr) :=
  match s with
  | c :: r => if c =? 46 then t ← digits_after r; Some (true, t) else Some (false, s)
  | [] => Some (false, [])
  end.

Definition exponent (s : gostr) : option (bool * gostr) :=
  match s with
  | c :: r =>
      if (c =? 101) || (c =? 69) then
        t ← digits_after (match r with x :: r' => if (x =? 43) || (x =? 45) then r' else r | [] => [] end); Some (true, t)
      else Some (false, s)
  | [] => Some (false, [])
  end.

Definition unsigned_number (neg : bool) (s : gostr) : option (jvalue * gostr) :=
  '(d, t) ← integer_part s;
  '(f, t) ← fraction t;
  '(e, t) ← exponent t;
  n ← parse_digits 10 d;
  Some (if (f : bool) || (e : bool) then jfrac else jnum (if neg then - n else n), t).

Definition number (s : gostr) : option (jvalue * gostr) :=
  match s with
  | c :: r => if c =? 45 then unsigned_number true r else unsigned_number false s
  | [] => None
  end.

Definition literal (w : gostr) (v : jvalue) (s : gostr) : option (jvalue * gostr) :=
  if HasPrefix s w then Some (v, drop (length w) s) else None.

(** *** Values *)

Definition maxNestingDepth : Z := 10000.

(** The next character that is no white space. *)
Definition token (s : gostr) : option (Z * gostr) := match skip_ws s with c :: r => Some (c, r) | [] => None end.

(** [depth] arrays and objects are open; every step takes a byte, so [fuel] is
    enough from twice the length of the text on. *)
Fixpoint value (fuel : nat) (depth : Z) (s : gostr) {struct fuel} : option (jvalue * gostr) :=
  match fuel with
  | O => None
  | S fuel =>
      '(c, r) ← token s;
      if c =? 34 then '(x, t) ← read_str r; Some (jstr (ToValidUTF8 x), t)
      else if c =? 91 then
        if maxNestingDepth <=? depth then None else
        '(c', t) ← token r;
        if c' =? 93 then Some (jarr [], t) else '(l, t) ← elements fuel (depth + 1) r; Some (jarr l, t)
      else if c =? 123 then
        if maxNestingDepth <=? depth then None else
        '(c', t) ← token r;
        if c' =? 125 then Some (jobj [], t) else '(l, t) ← members fuel (depth + 1) r; Some (jobj l, t)
      else if c =? 110 then literal (bs "null") jnull (c :: r)
      else if c =? 116 then literal (bs "true") (jbool true) (c :: r)
      else if c =? 102 then literal (bs "false") (jbool false) (c :: r)
      else number (c :: r)
  end
with elements (fuel : nat) (depth : Z) (s : gostr) {struct fuel} : option (list jvalue * gostr) :=
  match fuel with
  | O => None
  | S fuel =>
      '(v, t) ← value fuel depth s;
      '(c, t) ← token t;
      if c =? 44 then '(l, t) ← elements fuel depth t; Some (v :: l, t)
      else if c =? 93 then Some ([v], t) else None
  end
with members (fuel : nat) (depth : Z) (s : gostr) {struct fuel} : option (list (gostr * jvalue) * gostr) :=
  match fuel with
  | O => None
  | S fuel =>
      '(c, r) ← token s;
      if negb (c =? 34) then None else
      '(k, t) ← read_str r;
      '(c, t) ← token t;
      if negb (c =? 58) then None else
      '(v, t) ← value fuel depth t;
      '(c, t) ← token t;
      if c =? 44 then '(l, t) ← members fuel depth t; Some ((ToValidUTF8 k, v) :: l, t)
      else if c =? 125 then Some ([(ToValidUTF8 k, v)], t) else None
  end.

(** The first value of a text; what follows it is not looked at. *)
Definition Decode (s : gostr) : option jvalue := fst <$> value (2 * length s + 2)%nat 0 s.

(** The text up to a limit of [n] bytes. *)
Fixpoint Limit (n : Z) (s : gostr) : gostr :=
  match s with
  | c :: r => if n <=? 0 then [] else c :: Limit (n - 1) r
  | [] => []
  end.

(** *** Structs *)

(** The values given for a field; the names match without regard to case (of ASCII
    letters). *)
Definition given (key : gostr) (l : list (gostr * jvalue)) : list jvalue := map snd (filter (fun kv => ToLower kv.1 = key) l).

(** A field takes the last value given that is not null, and a value that does not fit
    is an error; in the lenient reading, of a caller that ignores the error, it leaves
    the field as it is. *)
Definition strict {A} (as_ : jvalue -> option A) (key : gostr) (l : list (gostr * jvalue)) : option A :=
  foldl (fun acc v => a ← acc; match v with jnull => Some a | _ => as_ v end) (as_ jnull) (given key l).
Definition lenient {A} (zero : A) (as_ : jvalue -> option A) (key : gostr) (l : list (gostr * jvalue)) : A :=
  foldl (fun a v => match v with jnull => a | _ => default a (as_ v) end) zero (given key l).

(** ** What is marshalled is decoded *)

(** *** Strings *)

Lemma read_char c t : 0 <= c < 128 -> read_str (escape_char c ++ t) = prepend [c] (read_str t).
Proof.
  intros Hc. unfold escape_char. destruct ((c =? 60) || (c =? 62) || (c =? 38)) eqn:Eh.
  { apply orb_true_iff in Eh as [[E|E]%orb_true_iff|E]; apply Z.eqb_eq in E as ->; reflexivity. }
  destruct (Z.ltb_spec c 32) as [Hs|Hs].
  - assert (He : c ∈ map Z.of_nat (seq 0 32)).
    { apply list_elem_of_In, in_map_iff. exists (Z.to_nat c). split; [lia|]. apply in_seq. lia. }
    cbn [map seq Z.of_nat] in He. rewrite !elem_of_cons in He.
    repeat (destruct He as [->|He]; [reflexivity|]). by apply elem_of_nil in He.
  - unfold escape_ascii. destruct ((c =? 34) || (c =? 92)) eqn:E1.
    + apply orb_true_iff in E1 as [E|E]; apply Z.eqb_eq in E as ->; reflexivity.
    + apply orb_false_iff in E1 as [E34 E92]. do 5 (rewrite (proj2 (Z.eqb_neq _ _)) by lia). rewrite (proj2 (Z.ltb_ge _ _)) by lia.
      cbn [app read_str]. rewrite E34, E92. by rewrite (proj2 (Z.ltb_ge _ _)) by lia.
Qed.

Lemma read_bytes l t : Forall (fun b => 128 <= b) l -> read_str (l ++ t) = prepend l (read_str t).
Proof.
  induction 1 as [|b l Hb _ IH]; cbn [app read_str].
  - by destruct (read_str t) as [[]|].
  - rewrite !(proj2 (Z.eqb_neq _ _)) by lia. rewrite (proj2 (Z.ltb_ge _ _)) by lia. by rewrite IH, prepend_app.
Qed.

Lemma read_html n s r : valid_utf8 n s = true -> Forall in_u8 s -> read_str (escape_html n s ++ 34 :: r) = Some (s, r).
Proof.
  revert s. induction n as [|n IH]; intros s Hv Hb; destruct s as [|c t]; try done. cbn [escape_html].
  apply Forall_cons in Hb as Hct. destruct Hct as [Hc Ht]. unfold in_u8 in Hc. cbn [valid_utf8] in Hv.
  destruct (c <? 128) eqn:Ec; bool_hyps.
  - rewrite <- app_assoc, read_char by lia. rewrite IH; [done| |done].
    cbn [DecodeRune] in Hv. by rewrite (proj2 (Z.ltb_lt _ _)) in Hv by lia.
  - destruct (DecodeRune (c :: t)) as [[rn w]|] eqn:E; [|done].
    destruct (DecodeRune_wide c t rn w ltac:(lia) E) as (HF & Hw & H28 & H29).
    assert (IH' : read_str (escape_html n (drop w (c :: t)) ++ 34 :: r) = Some (drop w (c :: t), r)) by (apply IH; [done|by apply Forall_drop]).
    destruct ((rn =? 0x2028) || (rn =? 0x2029)) eqn:Er.
    + transitivity (Some (take w (c :: t) ++ drop w (c :: t), r)); [|by rewrite take_drop].
      change (bs "\u202") with [92; 117; 50; 48; 50]. apply orb_true_iff in Er as [Er|Er]; apply Z.eqb_eq in Er as ->; [rewrite H28 by done|rewrite H29 by done].
      * change (hex_digit (8232 mod 16)) with 56. cbn [app read_str Z.eqb Pos.eqb]. change (hex4 50 48 50 56) with (Some 8232). cbv iota beta.
        change (IsSurrogate 8232) with false. cbv iota. by rewrite IH'.
      * change (hex_digit (8233 mod 16)) with 57. cbn [app read_str Z.eqb Pos.eqb]. change (hex4 50 48 50 57) with (Some 8233). cbv iota beta.
        change (IsSurrogate 8233) with false. cbv iota. by rewrite IH'.
    + rewrite <- app_assoc, read_bytes, IH' by done. cbn. by rewrite take_drop.
Qed.

Lemma to_valid_id n s : valid_utf8 n s = true -> to_valid n s = s.
Proof.
  revert s. induction n as [|n IH]; intros [|c r]; try done. cbn [valid_utf8 to_valid].
  destruct (DecodeRune (c :: r)) as [[rn w]|]; [|done]. intros H. by rewrite IH, take_drop.
Qed.

(** Well-formed text without bytes that would not be well-formed ASCII. *)
Lemma read_marshal_string s r : ValidString s -> exists t, marshal_string s ++ r = 34 :: t /\ read_str t = Some (s, r) /\ ToValidUTF8 s = s.
Proof.
  intros [Hv Hb]. exists (escape_html (length s) s ++ 34 :: r). unfold marshal_string. rewrite <- !app_assoc. split; [done|].
  split; [by apply read_html|by apply to_valid_id].
Qed.

(** *** Numbers *)

Lemma is_digit_iff c : is_digit c = true <-> 48 <= c <= 57.
Proof. unfold is_digit. rewrite andb_true_iff, !Z.leb_le. done. Qed.

(** The text after a number does not go on with it. *)
Definition stops (t : gostr) : Prop :=
  match t with c :: _ => is_digit c = false /\ c <> 46 /\ c <> 101 /\ c <> 69 | [] => True end.

Lemma span_digits_app d t : Forall (fun c => is_digit c = true) d -> stops t -> span_digits (d ++ t) = (d, t).
Proof.
  induction 1 as [|c d Hc _ IH]; intros Ht; cbn [app span_digits].
  - destruct t as [|c t]; [done|]. cbn [span_digits]. destruct Ht as [-> _]. done.
  - by rewrite Hc, IH.
Qed.

Lemma decimal_digits n : 0 <= n -> Forall (fun c => is_digit c = true) (FormatUint 10 n).
Proof.
  intros Hn. eapply Forall_impl; [exact (FormatUint_chars 10 n ltac:(lia) Hn)|]. intros c Hc. apply is_digit_iff. destruct Hc; lia.
Qed.

Lemma decimal_head fuel n : 0 < n < 10 ^ (Z.of_nat fuel + 1) -> exists c r, format_digits fuel 10 n = c :: r /\ c <> 48.
Proof.
  revert n. induction fuel as [|fuel IH]; intros n Hn; cbn [format_digits].
  - exists (if n mod 10 <? 10 then 48 + n mod 10 else 87 + n mod 10), []. split; [done|]. change (10 ^ (Z.of_nat 0 + 1)) with 10 in Hn.
    rewrite Z.mod_small by lia. rewrite (proj2 (Z.ltb_lt _ _)) by lia. lia.
  - destruct (Z.ltb_spec n 10).
    + eexists _, []. split; [done|]. rewrite Z.mod_small by lia. rewrite (proj2 (Z.ltb_lt _ _)) by lia. lia.
    + destruct (IH (n / 10)) as (c & r & -> & Hc).
      { split; [apply Z.div_str_pos; lia|]. apply Z.div_lt_upper_bound; [lia|]. rewrite <- Z.pow_succ_r by lia.
        replace (Z.succ (Z.of_nat fuel + 1)) with (Z.of_nat (S fuel) + 1) by lia. lia. }
      by exists c, (r ++ [if n mod 10 <? 10 then 48 + n mod 10 else 87 + n mod 10]).
Qed.

Lemma integer_part_decimal n t : 0 <= n -> stops t -> integer_part (FormatUint 10 n ++ t) = Some (FormatUint 10 n, t).
Proof.
  intros Hn Ht. unfold integer_part. rewrite span_digits_app by (done || by apply decimal_digits).
  destruct (FormatUint 10 n) as [|c r] eqn:E.
  { unfold FormatUint in E. destruct (format_digits_cons (Z.to_nat (Z.log2 n)) 10 n) as (c & r & E'). congruence. }
  destruct ((c =? 48) && negb (bool_decide (r = []))) eqn:Ec; [|done]. exfalso. apply andb_true_iff in Ec as [Ec Er]. bool_hyps. subst c.
  destruct (decide (n = 0)) as [->|Hp]; [vm_compute in E; injection E as <-; by vm_compute in Er|].
  pose proof (log2_fuel 10 n ltac:(lia) Hn). destruct (decimal_head (Z.to_nat (Z.log2 n)) n) as (c & r' & E' & Hc); [lia|].
  unfold FormatUint in E. congruence.
Qed.

Lemma unsigned_decimal neg n t : 0 <= n -> stops t -> unsigned_number neg (FormatUint 10 n ++ t) = Some (jnum (if neg : bool then - n else n), t).
Proof.
  intros Hn Ht. unfold unsigned_number. rewrite integer_part_decimal by done. cbn [mbind option_bind].
  assert (fraction t = Some (false, t)) as ->.
  { destruct t as [|c t]; [done|]. cbn [fraction]. destruct Ht as (_ & H & _). by rewrite (proj2 (Z.eqb_neq _ _)) by done. }
  cbn [mbind option_bind]. assert (exponent t = Some (false, t)) as ->.
  { destruct t as [|c t]; [done|]. cbn [exponent]. destruct Ht as (_ & _ & H1 & H2). by rewrite !(proj2 (Z.eqb_neq _ _)) by done. }
  cbn [mbind option_bind]. rewrite parse_digits_FormatUint by lia. by destruct neg.
Qed.

Lemma number_FormatInt n t : stops t -> number (FormatInt n ++ t) = Some (jnum n, t).
Proof.
  intros Ht. unfold FormatInt. destruct (Z.ltb_spec n 0).
  - cbn [app number]. rewrite Z.eqb_refl, unsigned_decimal by (lia || done). by rewrite Z.opp_involutive.
  - pose proof (unsigned_decimal false n t ltac:(lia) Ht) as H0. revert H0.
    destruct (FormatUint 10 n) as [|c r] eqn:E.
    { unfold FormatUint in E. destruct (format_digits_cons (Z.to_nat (Z.log2 n)) 10 n) as (c & r & E'). congruence. }
    cbn [app number]. destruct (Z.eqb_spec c 45) as [->|]; [|done]. exfalso.
    pose proof (decimal_digits n ltac:(lia)) as HF. rewrite E in HF. by apply Forall_cons in HF as [Hd _].
Qed.

Lemma FormatInt_head n : exists c r, FormatInt n = c :: r /\ (c = 45 \/ is_digit c = true).
Proof.
  destruct (FormatInt n) as [|c r] eqn:E.
  - exfalso. unfold FormatInt in E. destruct (n <? 0); [done|]. unfold FormatUint in E.
    destruct (format_digits_cons (Z.to_nat (Z.log2 n)) 10 n) as (c & r & E'). congruence.
  - exists c, r. split; [done|]. pose proof (FormatInt_chars n c) as H. rewrite E in H. specialize (H ltac:(by left)). 
    destruct H as [H|H]; [by left|right]. by apply is_digit_iff.
Qed.

(** *** Trees *)

Section Induction.
Context (P : jvalue -> Prop).
Context (Hnull : P jnull) (Hbool : forall b, P (jbool b)) (Hnum : forall n, P (jnum n)) (Hfrac : P jfrac) (Hstr : forall s, P (jstr s)).
Context (Harr : forall l, Forall P l -> P (jarr l)) (Hobj : forall l, Forall (fun kv => P kv.2) l -> P (jobj l)).

Fixpoint jvalue_nested_ind (v : jvalue) : P v :=
  match v with
  | jnull => Hnull
  | jbool b => Hbool b
  | jnum n => Hnum n
  | jfrac => Hfrac
  | jstr s => Hstr s
  | jarr l => Harr l ((fix go (l : list jvalue) : Forall P l :=
      match l with [] => Forall_nil_2 _ | x :: r => Forall_cons_2 _ x r (jvalue_nested_ind x) (go r) end) l)
  | jobj l => Hobj l ((fix go (l : list (gostr * jvalue)) : Forall (fun kv => P kv.2) l :=
      match l with [] => Forall_nil_2 _ | kv :: r => Forall_cons_2 _ kv r (jvalue_nested_ind kv.2) (go r) end) l)
  end.
End Induction.

(** What can be marshalled and read back: integers, and texts in UTF-8. *)
Fixpoint textual (v : jvalue) : Prop :=
  match v with
  | jnull | jbool _ | jnum _ => True
  | jfrac => False
  | jstr s => ValidString s
  | jarr l => foldr (fun x acc => textual x /\ acc) True l
  | jobj l => foldr (fun kv acc => (ValidString kv.1 /\ textual kv.2) /\ acc) True l
  end.

Lemma textual_arr l : textual (jarr l) <-> Forall textual l.
Proof. induction l as [|x l IH]; [by split|]. rewrite Forall_cons, <- IH. done. Qed.

Lemma textual_obj l : textual (jobj l) <-> Forall (fun kv => ValidString kv.1 /\ textual kv.2) l.
Proof. induction l as [|x l IH]; [by split|]. rewrite Forall_cons, <- IH. done. Qed.

(** How deep arrays and objects are nested. *)
Fixpoint nesting (v : jvalue) : Z :=
  match v with
  | jarr l => 1 + foldr (fun x acc => Z.max (nesting x) acc) 0 l
  | jobj l => 1 + foldr (fun kv acc => Z.max (nesting kv.2) acc) 0 l
  | _ => 0
  end.

Lemma nesting_nonneg v : 0 <= nesting v.
Proof.
  assert (H : forall {A} (f : A -> Z) l, 0 <= foldr (fun x acc => Z.max (f x) acc) 0 l) by (intros A f l; induction l; cbn; lia).
  destruct v as [| | | | |l|l]; cbn [nesting]; try lia; [pose proof (H _ nesting l)|pose proof (H _ (fun kv => nesting kv.2) l)]; lia.
Qed.

(** The members of an object, and the elements of an array, up to the bracket. *)
Definition member_text (kv : gostr * jvalue) : gostr := marshal_string kv.1 ++ [58] ++ Marshal kv.2.
Definition elements_text (l : list jvalue) : gostr := Join [44] (map Marshal l).
Definition members_text (l : list (gostr * jvalue)) : gostr := Join [44] (map member_text l).

Lemma token_skip c r : negb ((c =? 32) || (c =? 9) || (c =? 10) || (c =? 13)) = true -> token (c :: r) = Some (c, r).
Proof. intros H. unfold token. cbn [skip_ws]. by apply negb_true_iff in H as ->. Qed.

(** A marshalled value starts with a character that is no white space and no bracket
    that closes. *)
Lemma Marshal_head v t : textual v -> exists c r, Marshal v ++ t = c :: r /\ token (Marshal v ++ t) = Some (c, r) /\ c <> 93 /\ c <> 125.
Proof.
  assert (H : forall c r, negb ((c =? 32) || (c =? 9) || (c =? 10) || (c =? 13)) = true -> c <> 93 -> c <> 125 ->
    exists c' r', c :: r = c' :: r' /\ token (c :: r) = Some (c', r') /\ c' <> 93 /\ c' <> 125).
  { intros c r Hc H1 H2. exists c, r. by rewrite token_skip. }
  destruct v as [|[]|n| |s|l|l]; try done; intros _; cbn [Marshal app]; try (by apply H).
  destruct (FormatInt_head n) as (c & r & -> & Hc). cbn [app]. rewrite is_digit_iff in Hc.
  apply H; [|lia..]. by rewrite !(proj2 (Z.eqb_neq _ _)) by lia.
Qed.

Lemma length_marshal_string s : (2 <= length (marshal_string s))%nat.
Proof. unfold marshal_string. rewrite !length_app. cbn. lia. Qed.

Lemma Marshal_nonempty v : textual v -> (1 <= length (Marshal v))%nat.
Proof. intros H. destruct (Marshal_head v [] H) as (c & r & E & _). rewrite app_nil_r in E. rewrite E. cbn. lia. Qed.

(** Reading a value back, for a fuel, a depth and whatever comes next. *)
Definition reads (v : jvalue) : Prop :=
  textual v -> forall f d t, (2 * length (Marshal v) <= f)%nat -> d + nesting v <= maxNestingDepth -> stops t ->
  value f d (Marshal v ++ t) = Some (v, t).

Lemma elements_read l : l <> [] -> Forall reads l -> Forall textual l -> forall f d t,
  (2 * length (elements_text l) + 1 <= f)%nat -> d + foldr (fun x acc => Z.max (nesting x) acc) 0 l <= maxNestingDepth ->
  elements f d (elements_text l ++ 93 :: t) = Some (l, t).
Proof.
  induction l as [|x l IH]; [done|]. intros _ [Hx Hr]%Forall_cons [Tx Tr]%Forall_cons f d t Hf Hd. cbn [foldr] in Hd.
  destruct f as [|f]; [lia|]. cbn [elements]. destruct l as [|y l].
  - change (elements_text [x]) with (Marshal x) in *. rewrite Hx by (done || lia || (split; [done|lia])). done.
  - change (elements_text (x :: y :: l)) with (Marshal x ++ [44] ++ elements_text (y :: l)) in *. rewrite !length_app in Hf. cbn [length] in Hf.
    rewrite <- !app_assoc. rewrite Hx by (done || lia || (split; [done|lia])). cbn [app mbind option_bind]. rewrite token_skip by done.
    cbn [mbind option_bind]. change (44 =? 44) with true. cbv iota. pose proof (Marshal_nonempty x Tx).
    rewrite IH by (done || lia). done.
Qed.

Lemma member_read kv : ValidString kv.1 -> reads kv.2 -> textual kv.2 -> forall f d c t, (c = 44 \/ c = 125) ->
  (2 * length (Marshal kv.2) <= f)%nat -> d + nesting kv.2 <= maxNestingDepth ->
  members (S f) d (member_text kv ++ c :: t) =
    if c =? 44 then '(l, t) ← members f d t; Some (kv :: l, t) else Some ([kv], t).
Proof.
  intros Hk Hv Tv f d c t Hc Hf Hd. unfold member_text. rewrite <- !app_assoc. cbn [members].
  destruct (read_marshal_string kv.1 ([58] ++ Marshal kv.2 ++ c :: t) Hk) as (u & -> & E1 & E2). rewrite token_skip by done.
  cbn [mbind option_bind]. change (negb (34 =? 34)) with false. cbv iota. rewrite E1. cbn [mbind option_bind app].
  rewrite token_skip by done. cbn [mbind option_bind]. change (negb (58 =? 58)) with false. cbv iota.
  rewrite Hv by (done || (destruct Hc as [-> | ->]; by repeat split)). cbn [mbind option_bind]. rewrite E2.
  rewrite token_skip by (by destruct Hc as [-> | ->]). cbn [mbind option_bind]. destruct Hc as [-> | ->]; cbn [Z.eqb Pos.eqb];
    destruct kv; done.
Qed.

Lemma members_read l : l <> [] -> Forall (fun kv => reads kv.2) l -> Forall (fun kv => ValidString kv.1 /\ textual kv.2) l -> forall f d t,
  (2 * length (members_text l) + 1 <= f)%nat -> d + foldr (fun kv acc => Z.max (nesting kv.2) acc) 0 l <= maxNestingDepth ->
  members f d (members_text l ++ 125 :: t) = Some (l, t).
Proof.
  induction l as [|x l IH]; [done|]. intros _ [Hx Hr]%Forall_cons [[Kx Tx] Tr]%Forall_cons f d t Hf Hd. cbn [foldr] in Hd.
  assert (Hlen : forall kv, (length (Marshal kv.2) + 3 <= length (member_text kv))%nat).
  { intros kv. unfold member_text. rewrite !length_app. pose proof (length_marshal_string kv.1). cbn [length]. lia. }
  specialize (Hlen x). destruct f as [|f]; [lia|]. destruct l as [|y l].
  - change (members_text [x]) with (member_text x) in *. rewrite member_read by (done || lia || auto). done.
  - change (members_text (x :: y :: l)) with (member_text x ++ [44] ++ members_text (y :: l)) in *. rewrite !length_app in Hf. cbn [length] in Hf.
    rewrite <- !app_assoc. cbn [app]. rewrite member_read by (done || lia || auto). change (44 =? 44) with true. cbv iota.
    rewrite IH by (done || lia). done.
Qed.

Lemma value_Marshal v : reads v.
Proof.
  induction v as [|b|n| |s|l HF|l HF] using jvalue_nested_ind; intros Tv f d t Hf Hd Ht; try done;
    (destruct f as [|f]; [pose proof (Marshal_nonempty _ Tv); lia|]); cbn [value].
  - done.
  - by destruct b.
  - destruct (FormatInt_head n) as (c & r & E & Hc). pose proof (number_FormatInt n t Ht) as Hn. cbn [Marshal] in *. rewrite E in *. cbn [app] in *.
    rewrite is_digit_iff in Hc. rewrite token_skip by (by rewrite !(proj2 (Z.eqb_neq _ _)) by lia). cbn [mbind option_bind].
    by rewrite !(proj2 (Z.eqb_neq _ _)) by lia.
  - cbn [Marshal]. destruct (read_marshal_string s t Tv) as (u & -> & E1 & E2). rewrite token_skip by done. cbn [mbind option_bind Z.eqb Pos.eqb].
    rewrite E1. cbn [mbind option_bind]. by rewrite E2.
  - apply textual_arr in Tv. cbn [Marshal nesting] in *. fold (elements_text l) in *. rewrite !length_app in Hf. cbn [length] in Hf.
    assert (0 <= foldr (fun x acc => Z.max (nesting x) acc) 0 l) by (clear; induction l; cbn; lia).
    rewrite <- !app_assoc. cbn [app]. rewrite token_skip by done.
    cbn [mbind option_bind Z.eqb Pos.eqb]. rewrite (proj2 (Z.leb_gt _ _)) by lia.
    destruct l as [|x l]; [done|]. pose proof Tv as [Tx _]%Forall_cons.
    assert (Ht' : exists c r, token (elements_text (x :: l) ++ 93 :: t) = Some (c, r) /\ (c =? 93) = false).
    { unfold elements_text. destruct l as [|y l]; cbn [map Join]; rewrite <- ?app_assoc;
        (match goal with |- context [Marshal x ++ ?w] => destruct (Marshal_head x w Tx) as (c & r & _ & -> & H1 & _) end);
        exists c, r; by rewrite (proj2 (Z.eqb_neq _ _)). }
    destruct Ht' as (c & r & -> & E). cbn [mbind option_bind]. rewrite E, elements_read by (done || lia). done.
  - apply textual_obj in Tv. cbn [Marshal nesting] in *. fold (member_text) in *. change (Join [44] (map _ l)) with (members_text l) in *.
    rewrite !length_app in Hf. cbn [length] in Hf. rewrite <- !app_assoc. cbn [app]. rewrite token_skip by done.
    cbn [mbind option_bind Z.eqb Pos.eqb].
    assert (0 <= foldr (fun kv acc => Z.max (nesting kv.2) acc) 0 l) by (clear; induction l; cbn; lia).
    rewrite (proj2 (Z.leb_gt _ _)) by lia. destruct l as [|x l]; [done|]. pose proof Tv as [[Kx _] _]%Forall_cons.
    assert (Ht' : exists r, token (members_text (x :: l) ++ 125 :: t) = Some (34, r)).
    { unfold members_text. destruct l as [|y l]; cbn [map Join]; unfold member_text at 1; rewrite <- ?app_assoc;
        (match goal with |- context [marshal_string x.1 ++ ?w] => destruct (read_marshal_string x.1 w Kx) as (u & -> & _) end);
        by exists u. }
    destruct Ht' as (r & ->). cbn [mbind option_bind Z.eqb Pos.eqb]. rewrite members_read by (done || lia). done.
Qed.

Lemma Decode_Marshal v t : textual v -> nesting v <= maxNestingDepth -> stops t -> Decode (Marshal v ++ t) = Some v.
Proof. intros Hv Hn Ht. unfold Decode. rewrite value_Marshal by (done || rewrite ?length_app; lia). done. Qed.

(** ** A longer text

    What is read from a text is read from every longer one; so a text that is cut off
    inside its object gives nothing. *)

Ltac opt_inv H := let E := fresh "E" in apply bind_Some in H as ([? ?] & E & H).

Lemma token_more s t c r : token s = Some (c, r) -> token (s ++ t) = Some (c, r ++ t).
Proof.
  induction s as [|x s IH]; [done|]. unfold token. cbn [app skip_ws]. destruct (_ || _) eqn:E; [exact IH|]. by intros [= -> ->].
Qed.

(** A [\u] escape that is cut off has no reading, so the surrogate before it is
    known to stand alone. *)
Lemma lone_surrogate u r1 x r t : read_str r1 = Some (x, r) -> (length r1 < 6)%nat ->
  match r1 ++ t with
  | b :: k :: g1 :: g2 :: g3 :: g4 :: _ => surrogate_pair u b k g1 g2 g3 g4 = None
  | _ => True
  end.
Proof.
  intros H Hl. unfold surrogate_pair.
  assert (N : forall b k z, read_str (b :: k :: z) = Some (x, r) -> (length z < 4)%nat -> (b =? 92) && (k =? 117) = false).
  { intros b k z Hz Hlz. destruct (Z.eqb_spec b 92) as [->|]; [|done]. destruct (Z.eqb_spec k 117) as [->|]; [|done].
    cbn in Hz. by destruct z as [|? [|? [|? [|? ?]]]]; try (cbn in Hlz; lia). }
  destruct r1 as [|b [|k z]]; [done| |].
  - cbn [read_str] in H. destruct (Z.eqb_spec b 34) as [->|]; [by destruct t as [|? [|? [|? [|? [|? ?]]]]]|].
    destruct (b =? 92); [done|]. by destruct (b <? 32).
  - assert (Hz : (length z < 4)%nat) by (cbn in Hl; lia). specialize (N b k z H Hz).
    destruct ((b :: k :: z) ++ t) as [|b' [|k' [|g1 [|g2 [|g3 [|g4 w]]]]]] eqn:E; try done. cbn in E. injection E as <- <- _. by rewrite N.
Qed.

Lemma read_str_more n s t x r : (length s <= n)%nat -> read_str s = Some (x, r) -> read_str (s ++ t) = Some (x, r ++ t).
Proof.
  assert (P : forall l o o' x r, (forall y, o = Some (y, r) -> o' = Some (y, r ++ t)) -> prepend l o = Some (x, r) -> prepend l o' = Some (x, r ++ t)).
  { intros l o o' x0 r0 H. destruct o as [[y z]|]; [|done]. intros [= <- ->]. by rewrite (H y). }
  revert s x r. induction n as [|n IH]; intros s x r Hl H; [by destruct s; [|cbn in Hl; lia]|].
  destruct s as [|c s]; [done|]. cbn in Hl. cbn [app read_str] in *. destruct (c =? 34); [by injection H as <- <-|].
  destruct (c =? 92).
  - destruct s as [|e r1]; [done|]. cbn [app]. cbn in Hl. destruct (e =? 117).
    + destruct r1 as [|h1 [|h2 [|h3 [|h4 r2]]]]; try done. cbn [app]. cbn in Hl. destruct (hex4 h1 h2 h3 h4) as [u|]; [|done].
      destruct (IsSurrogate u); [|by eapply P; [|exact H]; intros y Hy; apply IH; [lia|]].
      assert (L : (length r2 < 6)%nat -> prepend replacement (read_str r2) = Some (x, r) ->
        match r2 ++ t with
        | b :: k :: g1 :: g2 :: g3 :: g4 :: r3 =>
            match surrogate_pair u b k g1 g2 g3 g4 with
            | Some p => prepend (EncodeRune p) (read_str r3)
            | None => prepend replacement (read_str (r2 ++ t))
            end
        | _ => prepend replacement (read_str (r2 ++ t))
        end = Some (x, r ++ t)).
      { intros Hs H0. assert (E : prepend replacement (read_str (r2 ++ t)) = Some (x, r ++ t)) by (eapply P; [|exact H0]; intros y Hy; apply IH; [lia|done]).
        destruct (read_str r2) as [[y z]|] eqn:Er; [|done]. pose proof (lone_surrogate u r2 y z t Er Hs) as Hn.
        destruct (r2 ++ t) as [|b [|k [|g1 [|g2 [|g3 [|g4 w]]]]]]; try exact E. by rewrite Hn. }
      destruct r2 as [|b [|k [|g1 [|g2 [|g3 [|g4 r3]]]]]]; try (by apply L; [cbn; lia|exact H]). clear L. cbn [app]. cbn in Hl.
      destruct (surrogate_pair u b k g1 g2 g3 g4); (eapply P; [|exact H]); intros y Hy; [apply IH; [lia|done]|].
      change (b :: k :: g1 :: g2 :: g3 :: g4 :: r3 ++ t) with ((b :: k :: g1 :: g2 :: g3 :: g4 :: r3) ++ t). apply IH; [cbn; lia|done].
    + destruct (unescape_char e); [|done]. eapply P; [|exact H]. intros y Hy. apply IH; [lia|done].
  - destruct (c <? 32); [done|]. eapply P; [|exact H]. intros y Hy. apply IH; [lia|done].
Qed.

Lemma span_digits_more s t d r : span_digits s = (d, r) -> r <> [] -> span_digits (s ++ t) = (d, r ++ t).
Proof.
  revert d r. induction s as [|c s IH]; intros d r; [by intros [= <- <-]|]. cbn [app span_digits]. destruct (is_digit c); [|by intros [= <- <-]].
  destruct (span_digits s) as [d' r'] eqn:E. intros [= <- <-] Hr. by rewrite (IH d' r').
Qed.

Lemma digits_after_more s t r : digits_after s = Some r -> r <> [] -> digits_after (s ++ t) = Some (r ++ t).
Proof.
  unfold digits_after. destruct (span_digits s) as [d z] eqn:E. intros H Hr. assert (z = r /\ d <> []) as [-> Hd] by (destruct d; [done|]; by injection H).
  rewrite (span_digits_more s t d r E Hr). by destruct d.
Qed.

Lemma number_more s t v r : number s = Some (v, r) -> r <> [] -> number (s ++ t) = Some (v, r ++ t).
Proof.
  assert (U : forall neg s, unsigned_number neg s = Some (v, r) -> r <> [] -> unsigned_number neg (s ++ t) = Some (v, r ++ t)).
  { intros neg s0 H Hr. unfold unsigned_number in *. apply bind_Some in H as ([d z] & E1 & H). apply bind_Some in H as ([f z1] & E2 & H).
    apply bind_Some in H as ([e z2] & E3 & H). apply bind_Some in H as (n & En & H). injection H as <- ->.
    assert (E3' : z1 <> [] /\ exponent (z1 ++ t) = Some (e, r ++ t)).
    { unfold exponent in *. destruct z1 as [|c z1]; [by injection E3 as _ <-|]. split; [done|]. cbn [app].
      destruct ((c =? 101) || (c =? 69)); [|by injection E3 as <- <-]. apply bind_Some in E3 as (w & E3 & [= <- ->]).
      destruct z1 as [|y z1]; [done|]. cbn [app]. destruct ((y =? 43) || (y =? 45)); [by rewrite (digits_after_more _ t _ E3 Hr)|].
      change (y :: z1 ++ t) with ((y :: z1) ++ t). by rewrite (digits_after_more _ t _ E3 Hr). }
    destruct E3' as [Hz1 E3'].
    assert (E2' : z <> [] /\ fraction (z ++ t) = Some (f, z1 ++ t)).
    { unfold fraction in *. destruct z as [|c z]; [by injection E2 as _ <-|]. split; [done|]. cbn [app].
      destruct (c =? 46); [|by injection E2 as <- <-]. apply bind_Some in E2 as (w & E2 & [= <- ->]). by rewrite (digits_after_more _ t _ E2 Hz1). }
    destruct E2' as [Hz E2'].
    assert (E1' : integer_part (s0 ++ t) = Some (d, z ++ t)).
    { unfold integer_part in *. destruct (span_digits s0) as [d0 z0] eqn:E0. destruct d0 as [|c d0]; [done|]. destruct (_ && _) eqn:Eg; [done|].
      injection E1 as <- ->. by rewrite (span_digits_more _ t _ _ E0 Hz), Eg. }
    rewrite E1'. cbn [mbind option_bind]. rewrite E2'. cbn [mbind option_bind]. rewrite E3'. cbn [mbind option_bind]. by rewrite En. }
  intros H Hr. destruct s as [|c s]; [done|]. cbn [app number] in *. destruct (c =? 45); [by apply U|].
  change (c :: s ++ t) with ((c :: s) ++ t). by apply U.
Qed.

Lemma literal_more w v0 s t v r : literal w v0 s = Some (v, r) -> literal w v0 (s ++ t) = Some (v, r ++ t).
Proof.
  unfold literal, HasPrefix. case_bool_decide as E; [|done]. intros [= <- <-].
  assert (Hl : (length w <= length s)%nat) by (rewrite <- E, length_take; lia).
  rewrite take_app_le, drop_app_le by done. by rewrite bool_decide_true.
Qed.

(** All but numbers end by themselves. *)
Definition self_delimiting (v : jvalue) : Prop := match v with jnum _ | jfrac => False | _ => True end.

Lemma value_more_all f : forall d s t,
  (forall v r, value f d s = Some (v, r) -> self_delimiting v \/ r <> [] -> value f d (s ++ t) = Some (v, r ++ t)) /\
  (forall l r, elements f d s = Some (l, r) -> elements f d (s ++ t) = Some (l, r ++ t)) /\
  (forall l r, members f d s = Some (l, r) -> members f d (s ++ t) = Some (l, r ++ t)).
Proof.
  induction f as [|f IH]; [done|]. intros d s t.
  assert (V : forall d s v c r z, value f d s = Some (v, z) -> token z = Some (c, r) -> value f d (s ++ t) = Some (v, z ++ t)).
  { intros d0 s0 v c r z Hv Ht. apply IH; [done|]. right. by intros ->. }
  split; [|split].
  - intros v r H Hr. cbn [value] in *. apply bind_Some in H as ([c u] & E & H). rewrite (token_more _ t _ _ E). cbn [mbind option_bind].
    destruct (c =? 34).
    { apply bind_Some in H as ([x z] & E1 & [= <- ->]). by rewrite (read_str_more _ _ t _ _ (le_n _) E1). }
    destruct (c =? 91).
    { destruct (_ <=? _); [done|]. apply bind_Some in H as ([c' z] & E1 & H). rewrite (token_more _ t _ _ E1). cbn [mbind option_bind].
      destruct (c' =? 93); [by injection H as <- <-|]. apply bind_Some in H as ([l z'] & E2 & [= <- ->]).
      by rewrite (proj1 (proj2 (IH _ _ t)) _ _ E2). }
    destruct (c =? 123).
    { destruct (_ <=? _); [done|]. apply bind_Some in H as ([c' z] & E1 & H). rewrite (token_more _ t _ _ E1). cbn [mbind option_bind].
      destruct (c' =? 125); [by injection H as <- <-|]. apply bind_Some in H as ([l z'] & E2 & [= <- ->]).
      by rewrite (proj2 (proj2 (IH _ _ t)) _ _ E2). }
    change (c :: u ++ t) with ((c :: u) ++ t).
    destruct (c =? 110); [by apply literal_more|]. destruct (c =? 116); [by apply literal_more|]. destruct (c =? 102); [by apply literal_more|].
    destruct Hr as [Hv|Hr]; [|by apply number_more]. exfalso. revert H Hv. clear. intros H.
    assert (U : forall neg s, unsigned_number neg s = Some (v, r) -> self_delimiting v -> False).
    { intros neg s H0. unfold unsigned_number in H0. repeat (opt_inv H0 || (apply bind_Some in H0 as (? & ? & H0))). injection H0 as <- _. by destruct (_ || _). }
    unfold number in H. destruct (c =? 45); by eapply U.
  - intros l r H. cbn [elements] in *. apply bind_Some in H as ([v z] & E & H). apply bind_Some in H as ([c u] & E1 & H).
    rewrite (V _ _ _ _ _ _ E E1). cbn [mbind option_bind]. rewrite (token_more _ t _ _ E1). cbn [mbind option_bind].
    destruct (c =? 44); [|destruct (c =? 93); [by injection H as <- <-|done]].
    apply bind_Some in H as ([l' z'] & E2 & [= <- ->]). by rewrite (proj1 (proj2 (IH _ _ t)) _ _ E2).
  - intros l r H. cbn [members] in *. apply bind_Some in H as ([c u] & E & H). rewrite (token_more _ t _ _ E). cbn [mbind option_bind].
    destruct (negb (c =? 34)); [done|]. apply bind_Some in H as ([k z] & E1 & H). rewrite (read_str_more _ _ t _ _ (le_n _) E1). cbn [mbind option_bind].
    apply bind_Some in H as ([c1 u1] & E2 & H). rewrite (token_more _ t _ _ E2). cbn [mbind option_bind]. destruct (negb (c1 =? 58)); [done|].
    apply bind_Some in H as ([v z1] & E3 & H). apply bind_Some in H as ([c2 u2] & E4 & H).
    rewrite (V _ _ _ _ _ _ E3 E4). cbn [mbind option_bind]. rewrite (token_more _ t _ _ E4). cbn [mbind option_bind].
    destruct (c2 =? 44); [|destruct (c2 =? 125); [by injection H as <- <-|done]].
    apply bind_Some in H as ([l' z'] & E5 & [= <- ->]). by rewrite (proj2 (proj2 (IH _ _ t)) _ _ E5).
Qed.

Lemma value_fuel f : forall d s,
  (forall x, value f d s = Some x -> value (S f) d s = Some x) /\
  (forall x, elements f d s = Some x -> elements (S f) d s = Some x) /\
  (forall x, members f d s = Some x -> members (S f) d s = Some x).
Proof.
  induction f as [|f IH]; [done|]. intros d s.
  assert (IV : forall d s x, value f d s = Some x -> value (S f) d s = Some x) by (intros; by apply IH).
  assert (IE : forall d s x, elements f d s = Some x -> elements (S f) d s = Some x) by (intros; by apply IH).
  assert (IM : forall d s x, members f d s = Some x -> members (S f) d s = Some x) by (intros; by apply IH).
  clear IH. split; [|split]; intros x H.
  - remember (S f) as f1 eqn:Ef. cbn [value]. rewrite Ef in H. cbn [value] in H.
    apply bind_Some in H as ([c u] & E & H). rewrite E. cbn [mbind option_bind]. subst f1.
    destruct (c =? 34); [done|]. destruct (c =? 91).
    { destruct (_ <=? _); [done|]. apply bind_Some in H as ([c' z] & E1 & H). rewrite E1. cbn [mbind option_bind].
      destruct (c' =? 93); [done|]. apply bind_Some in H as ([l z'] & E2 & H). by rewrite (IE _ _ _ E2). }
    destruct (c =? 123); [|done].
    destruct (_ <=? _); [done|]. apply bind_Some in H as ([c' z] & E1 & H). rewrite E1. cbn [mbind option_bind].
    destruct (c' =? 125); [done|]. apply bind_Some in H as ([l z'] & E2 & H). by rewrite (IM _ _ _ E2).
  - remember (S f) as f1 eqn:Ef. cbn [elements]. rewrite Ef in H. cbn [elements] in H. subst f1.
    apply bind_Some in H as ([v z] & E & H). rewrite (IV _ _ _ E). cbn [mbind option_bind].
    apply bind_Some in H as ([c u] & E1 & H). rewrite E1. cbn [mbind option_bind]. destruct (c =? 44); [|done].
    apply bind_Some in H as ([l z'] & E2 & H). by rewrite (IE _ _ _ E2).
  - remember (S f) as f1 eqn:Ef. cbn [members]. rewrite Ef in H. cbn [members] in H. subst f1.
    apply bind_Some in H as ([c u] & E & H). rewrite E. cbn [mbind option_bind]. destruct (negb (c =? 34)); [done|].
    apply bind_Some in H as ([k z] & E1 & H). rewrite E1. cbn [mbind option_bind].
    apply bind_Some in H as ([c1 u1] & E2 & H). rewrite E2. cbn [mbind option_bind]. destruct (negb (c1 =? 58)); [done|].
    apply bind_Some in H as ([v z1] & E3 & H). rewrite (IV _ _ _ E3). cbn [mbind option_bind].
    apply bind_Some in H as ([c2 u2] & E4 & H). rewrite E4. cbn [mbind option_bind]. destruct (c2 =? 44); [|done].
    apply bind_Some in H as ([l z'] & E5 & H). by rewrite (IM _ _ _ E5).
Qed.

Lemma value_fuel_le f f' d s x : (f <= f')%nat -> value f d s = Some x -> value f' d s = Some x.
Proof. intros Hf H. induction Hf as [|m _ IH]; [done|]. by apply value_fuel. Qed.

(** ** The limit *)

Lemma Limit_take n s : Limit n s = take (Z.to_nat n) s.
Proof.
  revert n. induction s as [|c s IH]; intros n; [by rewrite take_nil|]. cbn [Limit]. destruct (n <=? 0) eqn:E; bool_hyps.
  - by rewrite Z2Nat.nonpos by lia.
  - replace (Z.to_nat n) with (S (Z.to_nat (n - 1))) by lia. cbn [take]. by rewrite IH.
Qed.

Lemma Limit_all n s : Z.of_nat (length s) <= n -> Limit n s = s.
Proof. intros H. rewrite Limit_take. apply take_ge. lia. Qed.

(** An object within the limit is decoded; of one beyond it nothing is. *)
Theorem Decode_Limit n l : textual (jobj l) -> nesting (jobj l) <= maxNestingDepth ->
  Decode (Limit n (Marshal (jobj l))) = if Z.of_nat (length (Marshal (jobj l))) <=? n then Some (jobj l) else None.
Proof.
  intros Ht Hn. set (s := Marshal (jobj l)). destruct (Z.leb_spec (Z.of_nat (length s)) n) as [Hl|Hl].
  { rewrite Limit_all by done. pose proof (Decode_Marshal (jobj l) [] Ht Hn I) as H. by rewrite app_nil_r in H. }
  rewrite Limit_take. unfold Decode. set (p := take (Z.to_nat n) s).
  destruct (value (2 * length p + 2) 0 p) as [[v r]|] eqn:E; [|done]. exfalso.
  assert (Hsp : s = p ++ drop (Z.to_nat n) s) by (unfold p; by rewrite take_drop).
  assert (Hv : self_delimiting v).
  { destruct p as [|c p'] eqn:Ep; [done|]. assert (Hc : c = 123) by (unfold s in Hsp; cbn in Hsp; by injection Hsp). subst c.
    replace (2 * length (123%Z :: p') + 2)%nat with (S (2 * length p' + 3)) in E by (cbn; lia). cbn [value] in E. rewrite token_skip in E by done.
    cbn [mbind option_bind Z.eqb Pos.eqb] in E. change (maxNestingDepth <=? 0) with false in E. cbv iota in E.
    apply bind_Some in E as ([c' z] & _ & E). destruct (c' =? 125); [by injection E as <- _|]. apply bind_Some in E as ([? ?] & _ & [= <- _]). done. }
  apply (proj1 (value_more_all _ _ _ (drop (Z.to_nat n) s))) in E; [|by left]. rewrite <- Hsp in E.
  apply (value_fuel_le _ (2 * length s + 2)) in E; [|unfold p; rewrite length_take; lia].
  pose proof (value_Marshal (jobj l) Ht (2 * length s + 2)%nat 0 [] ltac:(unfold s; lia) Hn I) as E'. rewrite app_nil_r in E'. fold s in E'.
  rewrite E' in E. injection E as _ Er. symmetry in Er. apply app_eq_nil in Er as [_ Er]. apply (f_equal length) in Er. rewrite length_drop in Er.
  pose proof (Marshal_nonempty _ Ht) as Hne. fold s in Hne. cbn [length] in Er. lia.
Qed.

End JsonText.

(** ** RFC 3339

    [t.UTC().Format(time.RFC3339)] and [time.Parse(time.RFC3339, s)], of an instant in
    Unix seconds: years of four digits, and a fraction of a second is read and dropped. *)
Module Rfc3339.

Definition IsLeap (y : Z) : bool := (y mod 4 =? 0) && (negb (y mod 100 =? 0) || (y mod 400 =? 0)).

(** The days of a year before month [m + 1]. *)
Definition month_days (leap : bool) : list Z := [31; if leap then 29 else 28; 31; 30; 31; 30; 31; 31; 30; 31; 30; 31].
Definition days_before (leap : bool) (m : nat) : Z := foldr Z.add 0 (take m (month_days leap)).

(** The month (from 0) and the day of the month of a day of the year. *)
Fixpoint month_of (months : list Z) (m : Z) (yday : Z) : Z * Z :=
  match months with
  | len :: rest => if yday <? len then (m, yday + 1) else month_of rest (m + 1) (yday - len)
  | [] => (m, yday + 1)
  end.

(** Days from January 1, year 1. *)
Definition days_of (y m d : Z) : Z :=
  let p := y - 1 in 365 * p + p / 4 - p / 100 + p / 400 + days_before (IsLeap y) (Z.to_nat (m - 1)) + d - 1.

Definition epoch_days : Z := 719162.

(** The year, and the day of the year from 0, of a day. *)
Definition year_of (abs : Z) : Z * Z :=
  let n400 := abs / 146097 in let d := abs mod 146097 in
  let n100 := Z.min 3 (d / 36524) in let d := d - n100 * 36524 in
  let n4 := d / 1461 in let d := d mod 1461 in
  let n1 := Z.min 3 (d / 365) in
  (400 * n400 + 100 * n100 + 4 * n4 + n1 + 1, d - n1 * 365).

Definition pad (w : nat) (n : Z) : gostr := replicate (w - length (FormatInt n)) 48 ++ FormatInt n.

Definition Format (t : Z) : gostr :=
  let days := t / 86400 in let secs := t mod 86400 in
  let '(y, yday) := year_of (days + epoch_days) in
  let '(m, d) := month_of (month_days (IsLeap y)) 0 yday in
  pad 4 y ++ [45] ++ pad 2 (m + 1) ++ [45] ++ pad 2 d ++ [84] ++
  pad 2 (secs / 3600) ++ [58] ++ pad 2 (secs / 60 mod 60) ++ [58] ++ pad 2 (secs mod 60) ++ [90].

(** A number of [w] digits. *)
Definition getnum (w : nat) (s : gostr) : option (Z * gostr) :=
  let d := take w s in
  if (length d =? w)%nat && forallb JsonText.is_digit d then n ← parse_digits 10 d; Some (n, drop w s) else None.
Definition expect (c : Z) (s : gostr) : option gostr := match s with x :: r => if x =? c then Some r else None | [] => None end.

(** The fraction of a second. *)
Definition skip_fraction (s : gostr) : gostr :=
  match s with
  | x :: r => if (x =? 46) || (x =? 44) then match JsonText.span_digits r with ([], _) => s | (_, t) => t end else s
  | [] => []
  end.

(** The offset from UTC, in seconds. *)
Definition zone (s : gostr) : option Z :=
  match s with
  | [] => None
  | c :: r =>
      if c =? 90 then if bool_decide (r = []) then Some 0 else None
      else if (c =? 43) || (c =? 45) then
        '(h, r) ← getnum 2 r; r ← expect 58 r; '(m, r) ← getnum 2 r;
        if (h <=? 24) && (m <=? 60) && bool_decide (r = []) then Some ((if c =? 45 then -1 else 1) * (h * 3600 + m * 60)) else None
      else None
  end.

Definition days_in (y m : Z) : Z := default 0 (month_days (IsLeap y) !! Z.to_nat (m - 1)).

Definition Parse (s : gostr) : option Z :=
  '(y, s) ← getnum 4 s; s ← expect 45 s; '(mo, s) ← getnum 2 s; s ← expect 45 s; '(d, s) ← getnum 2 s; s ← expect 84 s;
  '(h, s) ← getnum 2 s; s ← expect 58 s; '(mi, s) ← getnum 2 s; s ← expect 58 s; '(se, s) ← getnum 2 s;
  off ← zone (skip_fraction s);
  if (1 <=? mo) && (mo <=? 12) && (1 <=? d) && (d <=? days_in y mo) && (h <? 24) && (mi <? 60) && (se <? 60)
  then Some ((days_of y mo d - epoch_days) * 86400 + h * 3600 + mi * 60 + se - off) else None.

(** *** A formatted time is parsed back *)

Ltac div_lia := Z.to_euclidean_division_equations; lia.

Lemma year_of_spec abs y yday : year_of abs = (y, yday) ->
  365 * (y - 1) + (y - 1) / 4 - (y - 1) / 100 + (y - 1) / 400 + yday = abs /\ 0 <= yday < (if IsLeap y then 366 else 365).
Proof.
  unfold year_of. intros [= <- <-]. set (n400 := abs / 146097). set (d400 := abs mod 146097).
  assert (H400 : abs = 146097 * n400 + d400 /\ 0 <= d400 < 146097) by (unfold n400, d400; div_lia). clearbody n400 d400.
  set (n100 := Z.min 3 (d400 / 36524)). assert (H100 : 0 <= n100 <= 3 /\ 0 <= d400 - n100 * 36524 /\ (n100 < 3 -> d400 - n100 * 36524 < 36524)
    /\ d400 - n100 * 36524 < 36525) by (unfold n100; div_lia). clearbody n100. set (d100 := d400 - n100 * 36524) in *.
  assert (Ed : d400 = n100 * 36524 + d100) by (unfold d100; lia). clearbody d100.
  set (n4 := d100 / 1461). set (d4 := d100 mod 1461).
  assert (H4 : d100 = 1461 * n4 + d4 /\ 0 <= d4 < 1461 /\ 0 <= n4 <= 24) by (unfold n4, d4; div_lia). clearbody n4 d4.
  set (n1 := Z.min 3 (d4 / 365)). assert (H1 : 0 <= n1 <= 3 /\ 0 <= d4 - n1 * 365 /\ (n1 < 3 -> d4 - n1 * 365 < 365) /\ d4 - n1 * 365 < 366)
    by (unfold n1; div_lia). clearbody n1.
  set (p := 400 * n400 + 100 * n100 + 4 * n4 + n1).
  assert (P4 : p / 4 = 100 * n400 + 25 * n100 + n4) by (unfold p; div_lia).
  assert (P100 : p / 100 = 4 * n400 + n100) by (unfold p; div_lia). assert (P400 : p / 400 = n400) by (unfold p; div_lia).
  replace (p + 1 - 1) with p by lia. rewrite P4, P100, P400. split; [unfold p; lia|]. split; [lia|].
  destruct (IsLeap (p + 1)) eqn:El; [lia|]. assert (n1 = 3 -> d4 - n1 * 365 < 365); [|lia]. intros ->.
  unfold IsLeap in El. apply andb_false_iff in El as [El|El].
  - apply Z.eqb_neq in El. unfold p in El. div_lia.
  - apply orb_false_iff in El as [El1 El2]. apply negb_false_iff, Z.eqb_eq in El1. apply Z.eqb_neq in El2. unfold p in El1, El2.
    assert (n4 = 24) by div_lia. assert (n100 < 3) by div_lia. lia.
Qed.

(** Month and day of every day of a year. *)
Lemma month_of_spec leap yday m d : 0 <= yday < (if leap : bool then 366 else 365) -> month_of (month_days leap) 0 yday = (m, d) ->
  0 <= m <= 11 /\ 1 <= d <= default 0 (month_days leap !! Z.to_nat m) /\ days_before leap (Z.to_nat m) + d - 1 = yday.
Proof.
  intros Hy E. unfold month_days in E. cbn [month_of] in E.
  repeat match type of E with (if ?b then _ else _) = _ => destruct b eqn:?; bool_hyps end; try (destruct leap; lia);
    injection E as <- <-; destruct leap; vm_compute (default _ _); vm_compute (days_before _ _); lia.
Qed.

Lemma length_FormatInt n k : 0 <= n < 10 ^ (Z.of_nat k + 1) -> (length (FormatInt n) <= S k)%nat.
Proof.
  intros Hn. unfold FormatInt. rewrite (proj2 (Z.ltb_ge _ _)) by lia. unfold FormatUint. generalize (Z.to_nat (Z.log2 n)). intros f.
  revert n k Hn. induction f as [|f IH]; intros n k Hn; cbn [format_digits]; [cbn; lia|]. destruct (Z.ltb_spec n 10); [cbn; lia|].
  destruct k as [|k]; [cbn in Hn; lia|]. rewrite length_app. cbn [length].
  assert ((length (format_digits f 10 (n / 10)) <= S k)%nat); [|lia]. apply IH. split; [apply Z.div_pos; lia|].
  apply Z.div_lt_upper_bound; [lia|]. rewrite <- Z.pow_succ_r by lia. replace (Z.succ (Z.of_nat k + 1)) with (Z.of_nat (S k) + 1) by lia. lia.
Qed.

Lemma parse_zeros k s : s <> [] -> parse_digits 10 (replicate k 48 ++ s) = parse_digits 10 s.
Proof.
  intros Hs. unfold parse_digits at 2. destruct s as [|c s]; [done|]. unfold parse_digits.
  destruct (replicate k 48 ++ c :: s) as [|c' s'] eqn:E; [by destruct k|]. rewrite <- E, foldl_app. f_equal. clear.
  induction k as [|k IH]; [done|]. cbn [replicate foldl]. exact IH.
Qed.

Lemma getnum_pad k n t : 0 <= n < 10 ^ (Z.of_nat k + 1) -> getnum (S k) (pad (S k) n ++ t) = Some (n, t).
Proof.
  intros Hn. pose proof (length_FormatInt n k Hn) as Hl. assert (Hp : length (pad (S k) n) = S k) by (unfold pad; rewrite length_app, length_replicate; lia).
  unfold getnum. rewrite take_app_length' by done. rewrite Hp, Nat.eqb_refl. cbn [andb].
  assert (E : FormatInt n = FormatUint 10 n) by (unfold FormatInt; by rewrite (proj2 (Z.ltb_ge _ _)) by lia).
  assert (HF : forallb JsonText.is_digit (pad (S k) n) = true).
  { apply forallb_forall. intros c Hc%list_elem_of_In. unfold pad in Hc. apply elem_of_app in Hc as [Hc|Hc].
    - by apply elem_of_replicate in Hc as [-> _].
    - rewrite E in Hc. pose proof (JsonText.decimal_digits n ltac:(lia)) as Hd. rewrite Forall_forall in Hd. by apply Hd. }
  rewrite HF. unfold pad. rewrite parse_zeros by (destruct (JsonText.FormatInt_head n) as (c & r & -> & _); done).
  rewrite E, parse_digits_FormatUint by lia. cbn [mbind option_bind]. rewrite drop_app_length'; [done|]. rewrite <- E. symmetry. exact Hp.
Qed.

(** The years 0 to 9999. *)
Definition four_digit_years (t : Z) : Prop := -62167219200 <= t < 253402300800.

Lemma year_bounds t y yday : four_digit_years t -> year_of (t / 86400 + epoch_days) = (y, yday) -> 0 <= y <= 9999.
Proof.
  unfold four_digit_years. intros Ht Ey. apply year_of_spec in Ey as [Ea Hyd].
  assert (-1 <= y <= 9999) by (unfold epoch_days in Ea; destruct (IsLeap y); div_lia).
  destruct (decide (y = -1)) as [->|]; [|lia]. exfalso. unfold epoch_days in Ea. change (IsLeap (-1)) with false in Hyd.
  change ((-1 - 1) / 4) with (-1) in Ea. change ((-1 - 1) / 100) with (-1) in Ea. change ((-1 - 1) / 400) with (-1) in Ea. div_lia.
Qed.

Theorem Parse_Format t : four_digit_years t -> Parse (Format t) = Some t.
Proof.
  intros Ht. unfold Format. destruct (year_of (t / 86400 + epoch_days)) as [y yday] eqn:Ey.
  pose proof (year_bounds t y yday Ht Ey) as Hy. apply year_of_spec in Ey as [Ea Hyd]. set (days := t / 86400) in *. set (secs := t mod 86400).
  assert (Hs : t = 86400 * days + secs /\ 0 <= secs < 86400) by (unfold days, secs; div_lia). clearbody days secs.
  destruct (month_of _ 0 yday) as [m d] eqn:Em. apply month_of_spec in Em as (Hm & Hd & Eyd); [|done].
  assert (Hd31 : d <= 31).
  { assert (Forall (fun n => n <= 31) (month_days (IsLeap y))) as HF by (destruct (IsLeap y); repeat constructor; lia).
    destruct (month_days (IsLeap y) !! Z.to_nat m) as [n|] eqn:E; [|cbn in Hd; lia]. rewrite Forall_lookup in HF. specialize (HF _ _ E). cbn in *. lia. }
  unfold Parse.
  rewrite (getnum_pad 3) by (cbn; lia). cbn [mbind option_bind app expect Z.eqb Pos.eqb].
  do 2 (rewrite (getnum_pad 1) by (cbn; lia); cbn [mbind option_bind app expect Z.eqb Pos.eqb]).
  do 3 (rewrite (getnum_pad 1) by (cbn; div_lia); cbn [mbind option_bind app expect Z.eqb Pos.eqb]).
  change (zone (skip_fraction [90])) with (Some 0). cbn [mbind option_bind].
  unfold days_in. replace (m + 1 - 1) with m by lia.
  rewrite !(proj2 (Z.leb_le _ _)), !(proj2 (Z.ltb_lt _ _)) by div_lia. cbn [andb]. f_equal.
  unfold days_of. replace (m + 1 - 1) with m by lia. unfold epoch_days in *. div_lia.
Qed.

Lemma pad_chars k n c : 0 <= n -> c ∈ pad k n -> 0 <= c < 128.
Proof. intros Hn. unfold pad. rewrite elem_of_app. intros [[-> _]%elem_of_replicate|[->|H]%FormatInt_chars]; lia. Qed.

(** The text is ASCII. *)
Lemma Format_chars t : four_digit_years t -> Forall (fun c => 0 <= c < 128) (Format t).
Proof.
  intros Ht. unfold Format. destruct (year_of (t / 86400 + epoch_days)) as [y yday] eqn:Ey.
  pose proof (year_bounds t y yday Ht Ey) as Hy. apply year_of_spec in Ey as [_ Hyd].
  destruct (month_of _ 0 yday) as [m d] eqn:Em. apply month_of_spec in Em as (Hm & Hd & _); [|done].
  apply Forall_forall. intros c. rewrite !elem_of_app, !list_elem_of_singleton.
  intros [Hc|[->|[Hc|[->|[Hc|[->|[Hc|[->|[Hc|[->|[Hc| ->]]]]]]]]]]]; try lia; refine (pad_chars _ _ _ _ Hc); div_lia.
Qed.

End Rfc3339.

(** ** Examples *)

Example time_text : Rfc3339.Format 1709210096 = bs "2024-02-29T12:34:56Z".
Proof. vm_compute. reflexivity. Qed.
Example times_read : map (fun s => Rfc3339.Parse (bs s))
    ["2024-02-29T12:34:56Z"; "2024-02-29T14:34:56.789+02:00"; "2023-02-29T00:00:00Z"; "2024-02-29 12:34:56Z"]%string =
  [Some 1709210096; Some 1709210096; None; None].
Proof. vm_compute. reflexivity. Qed.

Example json_text : JsonText.Marshal (jobj [(bs "a<b", jstr [233; 10; 60]); (bs "n", jarr [jnum (-7); jnull; jbool true])]) =
  bs "{" ++ [34] ++ bs "a\u003cb" ++ [34] ++ bs ":" ++ [34] ++ bs "\ufffd\n\u003c" ++ [34] ++ bs "," ++ [34] ++ bs "n" ++ [34] ++ bs ":[-7,null,true]}".
Proof. vm_compute. reflexivity. Qed.
Example json_read : map (fun s => JsonText.Decode (bs s)) ["[1 , -0.5e+1, [ ] ] rest"; "[01]"; "[1,]"; "nul"; "{}"]%string =
  [Some (jarr [jnum 1; jfrac; jarr []]); None; None; None; Some (jobj [])].
Proof. vm_compute. reflexivity. Qed.
(** A surrogate pair, a lone surrogate and a byte that is no UTF-8. *)
Example string_read : JsonText.Decode ([34] ++ bs "\ud83d\ude00 \ud83d\n" ++ [255; 34]) =
  Some (jstr ([240; 159; 152; 128; 32] ++ JsonText.replacement ++ [10] ++ JsonText.replacement)).
Proof. vm_compute. reflexivity. Qed.
