(* ===== verification/RateLimit.v ===== *)
(** * backend: the token bucket

    Models backend/ratelimit.go.  Tokens are float64: the arithmetic is IEEE 754
    binary64 with round to nearest even, as the Standard Library specifies it. *)

From S2P Require Import Prelude GoStrings.
From Stdlib Require Import SpecFloat.

Module RateLimit.

(** ** float64 *)

Abbreviation float64 := spec_float (only parsing).
Definition fadd : float64 -> float64 -> float64 := SFadd 53 1024.
Definition fsub : float64 -> float64 -> float64 := SFsub 53 1024.
Definition fmul : float64 -> float64 -> float64 := SFmul 53 1024.
Definition fdiv : float64 -> float64 -> float64 := SFdiv 53 1024.
Definition of_int (n : Z) : float64 := binary_normalize 53 1024 n 0 false.

(** [Duration.Seconds] *)
Definition Seconds (d : Z) : float64 :=
  fadd (of_int (Z.quot d time_Second)) (fdiv (of_int (Z.rem d time_Second)) (of_int time_Second)).

(** ** ratelimit.go *)

Record bucket := { bk_tokens : float64; bk_last : Z }.

Record rateLimiter := {
  rl_buckets : gmap gostr bucket;
  rl_burst : float64;
  rl_perSec : float64;
  rl_pruned : Z
}.

Definition newRateLimiter (burst per : Z) : rateLimiter := {|
  rl_buckets := ∅; rl_burst := of_int burst; rl_perSec := fdiv (of_int burst) (Seconds per); rl_pruned := 0 |}.

Definition refilled (l : rateLimiter) (now : Z) (b : bucket) : float64 :=
  fadd (bk_tokens b) (fmul (Seconds (time_Sub now (bk_last b))) (rl_perSec l)).

Definition prune (l : rateLimiter) (now : Z) : rateLimiter := {|
  rl_buckets := filter (fun kb => SFleb (rl_burst l) (refilled l now kb.2) = false) (rl_buckets l);
  rl_burst := rl_burst l; rl_perSec := rl_perSec l; rl_pruned := now |}.

Definition set_bucket (key : gostr) (b : bucket) (l : rateLimiter) : rateLimiter := {|
  rl_buckets := <[key := b]> (rl_buckets l); rl_burst := rl_burst l; rl_perSec := rl_perSec l; rl_pruned := rl_pruned l |}.

(** [now] is [l.now()]. *)
Definition allow (key : gostr) (now : Z) : State rateLimiter bool := fun l =>
  let '(b, l) := match rl_buckets l !! key with
                 | Some b => (b, l)
                 | None =>
                     let l := if (10000 <? Z.of_nat (size (rl_buckets l))) && (time_Minute <? time_Sub now (rl_pruned l)) then prune l now else l in
                     ({| bk_tokens := rl_burst l; bk_last := now |}, l)
                 end in
  let tokens := refilled l now b in
  let tokens := if SFltb (rl_burst l) tokens then rl_burst l else tokens in
  if SFltb tokens (of_int 1) then (false, set_bucket key {| bk_tokens := tokens; bk_last := now |} l)
  else (true, set_bucket key {| bk_tokens := fsub tokens (of_int 1); bk_last := now |} l).

(** ** Facts *)

(** One key's calls do not touch another's bucket. *)
Lemma allow_other key key' now l : key <> key' -> is_Some (rl_buckets l !! key) ->
  rl_buckets (allow key now l).2 !! key' = rl_buckets l !! key'.
Proof.
  intros Hne [b Hb]. unfold allow. rewrite Hb. cbn zeta. destruct (SFltb _ (of_int 1)); cbn; by rewrite lookup_insert_ne.
Qed.

(** The decisions of a series of calls for one key. *)
Fixpoint decisions (key : gostr) (times : list Z) (l : rateLimiter) : list bool :=
  match times with
  | [] => []
  | t :: r => let '(ok, l') := allow key t l in ok :: decisions key r l'
  end.

(** The limiter of POST /buy: five at once, then one every twelve seconds. *)
Example buy_limit :
  decisions (bs "npub1x") (map (fun s => 63839664000 * time_Second + s * time_Second) [0; 0; 0; 0; 0; 0; 11; 12; 13; 24])
    (newRateLimiter 5 time_Minute) = [true; true; true; true; true; false; false; true; false; true].
Proof. vm_compute. reflexivity. Qed.

End RateLimit.
