(* ===== verification/Metrics.v ===== *)
(** * pkg/metrics: the registry

    Models pkg/metrics/metrics.go: counters and gauges with labels, scrape-time
    samples, and the text exposition.  A handle ([Counter], [Gauge]) points to one
    value of the registry; here it is the family's name and the rendered labels. *)

From S2P Require Import Prelude GoStrings GoFloat Authzhash RateLimit.
From Stdlib Require Import SpecFloat.
Import Authzhash GoFloat RateLimit.

Module Metrics.

(** ** Labels *)

Definition escapeLabelValue (s : gostr) : gostr :=
  s ≫= fun c => if c =? 92 then [92; 92] else if c =? 10 then [92; 110] else if c =? 34 then [92; 34] else [c].
Definition escapeHelp (s : gostr) : gostr := s ≫= fun c => if c =? 92 then [92; 92] else if c =? 10 then [92; 110] else [c].

Definition label_le (x y : gostr * gostr) : Prop := bytes_le x.1 y.1.
#[export] Instance label_le_dec : RelDecision label_le := fun x y => bytes_le_dec x.1 y.1.

(** [sort.Slice] by name; the names of a family are distinct. *)
Definition sorted_labels (kv : list (gostr * gostr)) : list (gostr * gostr) := merge_sort label_le kv.

Definition render_label (p : gostr * gostr) : gostr := p.1 ++ bs "=" ++ [34] ++ escapeLabelValue p.2 ++ [34].

Definition encodeLabels (kv : list (gostr * gostr)) : gostr :=
  match kv with
  | [] => []
  | _ => [123] ++ Join [44] (map render_label (sorted_labels kv)) ++ [125]
  end.

(** [zip], which stops at the shorter list. *)
Definition zip_labels (names values : list gostr) : gostr := encodeLabels (zip names values).

Fixpoint pairs (kv : list gostr) : list (gostr * gostr) :=
  match kv with
  | k :: v :: r => (k, v) :: pairs r
  | _ => []
  end.

(** ** The registry *)

Inductive metricType := typeCounter | typeGauge.
Definition type_text (t : metricType) : gostr := match t with typeCounter => bs "counter" | typeGauge => bs "gauge" end.

Record family := {
  fm_name : gostr; fm_help : gostr; fm_typ : metricType;
  fm_series : gmap gostr float64; fm_order : list gostr; fm_labelNs : list gostr
}.

(** In order of registration. *)
Abbreviation Registry := (list family).
Definition New : Registry := [].

Definition find_family (name : gostr) (r : Registry) : option family := head (filter (fun f => fm_name f = name) r).

Definition upd_family (name : gostr) (u : family -> family) (r : Registry) : Registry :=
  map (fun f => if bool_decide (fm_name f = name) then u f else f) r.

(** [Registry.family]: an existing family is returned as it is. *)
Definition ensure_family (name help : gostr) (typ : metricType) (labelNames : list gostr) (r : Registry) : Registry :=
  match find_family name r with
  | Some _ => r
  | None => r ++ [{| fm_name := name; fm_help := help; fm_typ := typ; fm_series := ∅; fm_order := []; fm_labelNs := labelNames |}]
  end.

Definition fzero : float64 := S754_zero false.

(** [family.get] *)
Definition family_get (labels : gostr) (f : family) : family :=
  match fm_series f !! labels with
  | Some _ => f
  | None => {| fm_name := fm_name f; fm_help := fm_help f; fm_typ := fm_typ f; fm_series := <[labels := fzero]> (fm_series f);
               fm_order := fm_order f ++ [labels]; fm_labelNs := fm_labelNs f |}
  end.

Definition set_value (labels : gostr) (u : float64 -> float64) (f : family) : family :=
  {| fm_name := fm_name f; fm_help := fm_help f; fm_typ := fm_typ f; fm_series := alter u labels (fm_series f);
     fm_order := fm_order f; fm_labelNs := fm_labelNs f |}.

Record handle := { h_family : gostr; h_labels : gostr }.

(** [Counter]/[Gauge] (no labels), and [With] on a vec of the family. *)
Definition unlabeled (name help : gostr) (typ : metricType) : State Registry handle := fun r =>
  ({| h_family := name; h_labels := [] |}, upd_family name (family_get []) (ensure_family name help typ [] r)).

Definition vec (name help : gostr) (typ : metricType) (labelNames : list gostr) : State Registry gostr := fun r =>
  (name, ensure_family name help typ labelNames r).

Definition With (v : gostr) (labelValues : list gostr) : State Registry handle := fun r =>
  let labels := match find_family v r with Some f => zip_labels (fm_labelNs f) labelValues | None => [] end in
  ({| h_family := v; h_labels := labels |}, upd_family v (family_get labels) r).

Definition value_add (h : handle) (delta : float64) (r : Registry) : Registry :=
  upd_family (h_family h) (set_value (h_labels h) (fun x => fadd x delta)) r.
Definition value_set (h : handle) (x : float64) (r : Registry) : Registry :=
  upd_family (h_family h) (set_value (h_labels h) (fun _ => x)) r.

Definition Inc (h : handle) : Registry -> Registry := value_add h (of_int 1).
Definition Dec (h : handle) : Registry -> Registry := value_add h (of_int (-1)).

(** ** The exposition *)

(** [int64(f)] of a finite [f] that is whole, if it is and below 1e15. *)
Definition whole (f : float64) : option Z :=
  match f with
  | S754_zero _ => Some 0
  | S754_finite s m e =>
      let z := if 0 <=? e then Some (Zpos m * 2 ^ e) else if Zpos m mod 2 ^ (- e) =? 0 then Some (Zpos m / 2 ^ (- e)) else None in
      match z with
      | Some z => if z <? 10 ^ 15 then Some (if s then - z else z) else None
      | None => None
      end
  | _ => None
  end.

Definition formatFloat (f : float64) : gostr := match whole f with Some n => FormatInt n | None => FormatFloat f end.

Definition line (s : gostr) : gostr := s ++ [10].

Definition header (name help typ : gostr) : gostr :=
  (if bool_decide (help = []) then [] else line (bs "# HELP " ++ name ++ bs " " ++ escapeHelp help)) ++
  line (bs "# TYPE " ++ name ++ bs " " ++ typ).

Definition sample_line (name labels : gostr) (v : float64) : gostr := line (name ++ labels ++ bs " " ++ formatFloat v).

Definition render_family (f : family) : gostr :=
  header (fm_name f) (fm_help f) (type_text (fm_typ f)) ++
  (fm_order f ≫= fun key => match fm_series f !! key with Some v => sample_line (fm_name f) key v | None => [] end).

Record Sample := { sa_Name : gostr; sa_Help : gostr; sa_Type : gostr; sa_Labels : list gostr; sa_Value : float64 }.

(** The order of the collectors' samples: by name, then by the joined labels. *)
Definition sample_le (x y : Sample) : Prop :=
  if bool_decide (sa_Name x = sa_Name y) then bytes_le (Join [44] (sa_Labels x)) (Join [44] (sa_Labels y)) else bytes_le (sa_Name x) (sa_Name y).
#[export] Instance sample_le_dec : RelDecision sample_le.
Proof. intros x y. unfold sample_le. destruct (bool_decide _); apply _. Defined.

(** One collector's samples after those whose headers are already out. *)
Fixpoint render_samples (seen : list gostr) (l : list Sample) : gostr * list gostr :=
  match l with
  | [] => ([], seen)
  | s :: r =>
      let fresh := bool_decide (sa_Name s ∉ seen) in
      let typ := if bool_decide (sa_Type s = []) then bs "gauge" else sa_Type s in
      let '(t, seen') := render_samples (if fresh then sa_Name s :: seen else seen) r in
      ((if fresh then header (sa_Name s) (sa_Help s) typ else []) ++
       sample_line (sa_Name s) (encodeLabels (pairs (sa_Labels s))) (sa_Value s) ++ t, seen')
  end.

Fixpoint render_collectors (seen : list gostr) (cols : list (list Sample)) : gostr :=
  match cols with
  | [] => []
  | samples :: r =>
      let '(t, seen') := render_samples seen (merge_sort sample_le samples) in t ++ render_collectors seen' r
  end.

(** [cols] is what each collector returns at this scrape. *)
Definition ServeHTTP (r : Registry) (cols : list (list Sample)) : gostr := (r ≫= render_family) ++ render_collectors [] cols.

(** ** Concurrent updates *)

(** A goroutine inside [value.add]: about to load the bits, or holding the bits it
    loaded. *)
Inductive adder := ad_start (delta : float64) | ad_loaded (old delta : float64) | ad_done.

(** One atomic step of one goroutine: the load, or the compare-and-swap. *)
Inductive add_step : float64 * list adder -> float64 * list adder -> Prop :=
| step_load v ts i d : ts !! i = Some (ad_start d) -> add_step (v, ts) (v, <[i := ad_loaded v d]> ts)
| step_swap v ts i d : ts !! i = Some (ad_loaded v d) -> add_step (v, ts) (fadd v d, <[i := ad_done]> ts)
| step_retry v ts i old d : ts !! i = Some (ad_loaded old d) -> v <> old -> add_step (v, ts) (v, <[i := ad_start d]> ts).

End Metrics.
