(* ===== verification/MetricsFacts.v ===== *)
(** * pkg/metrics: theorems

    The exposition reads back as the values recorded: a reader of the text format
    finds one sample per combination of label values used, with the value that the
    operations on it leave, whatever bytes the label values hold.  And the
    compare-and-swap loop of [value.add] loses no update. *)

From S2P Require Import Prelude GoStrings Netip GoFloat Authzhash RateLimit GoNet Metrics.
From Stdlib Require Import SpecFloat.
Import Authzhash GoFloat RateLimit Metrics.

Module MetricsFacts.

(** ** A reader of the text format *)

Definition name_char (c : Z) : bool :=
  ((48 <=? c) && (c <=? 58)) || ((65 <=? c) && (c <=? 90)) || (c =? 95) || ((97 <=? c) && (c <=? 122)).
Definition valid_name (s : gostr) : Prop := s <> [] /\ Forall (fun c => name_char c = true) s.

Fixpoint span_name (s : gostr) : gostr * gostr :=
  match s with
  | [] => ([], [])
  | c :: r => if name_char c then let '(n, t) := span_name r in (c :: n, t) else ([], s)
  end.

(** A label value up to its closing quote. *)
Fixpoint read_value (s : gostr) : option (gostr * gostr) :=
  match s with
  | [] => None
  | c :: r =>
      if c =? 34 then Some ([], r)
      else if c =? 92 then
        match r with
        | d :: r' =>
            '(v, t) ← read_value r';
            if d =? 92 then Some (92 :: v, t) else if d =? 110 then Some (10 :: v, t) else if d =? 34 then Some (34 :: v, t) else None
        | [] => None
        end
      else '(v, t) ← read_value r; Some (c :: v, t)
  end.

(** Label pairs up to the closing brace. *)
Fixpoint read_labels (fuel : nat) (s : gostr) : option (list (gostr * gostr) * gostr) :=
  match fuel with
  | O => None
  | S fuel =>
      let '(n, r) := span_name s in
      match r with
      | 61 :: 34 :: r =>
          '(v, t) ← read_value r;
          match t with
          | 44 :: t => '(kv, t) ← read_labels fuel t; Some ((n, v) :: kv, t)
          | 125 :: t => Some ([(n, v)], t)
          | _ => None
          end
      | _ => None
      end
  end.

Fixpoint read_help (s : gostr) : option gostr :=
  match s with
  | [] => Some []
  | c :: r =>
      if c =? 92 then
        match r with
        | d :: r' => t ← read_help r'; if d =? 92 then Some (92 :: t) else if d =? 110 then Some (10 :: t) else None
        | [] => None
        end
      else t ← read_help r; Some (c :: t)
  end.

Inductive entry := e_help (name text : gostr) | e_type (name typ : gostr) | e_sample (name : gostr) (labels : list (gostr * gostr)) (value : gostr).

Definition read_line (l : gostr) : option entry :=
  if HasPrefix l (bs "# HELP ") then '(n, t) ← Cut (drop 7 l) 32; t ← read_help t; Some (e_help n t)
  else if HasPrefix l (bs "# TYPE ") then '(n, t) ← Cut (drop 7 l) 32; Some (e_type n t)
  else
    let '(n, r) := span_name l in
    match r with
    | 32 :: t => Some (e_sample n [] t)
    | 123 :: r => '(kv, t) ← read_labels (length r) r; match t with 32 :: t => Some (e_sample n kv t) | _ => None end
    | _ => None
    end.

(** The lines of a text, which ends with a newline. *)
Definition read_text (s : gostr) : option (list entry) :=
  let ls := Split 10 s in
  match last ls with Some [] => mapM read_line (take (length ls - 1) ls) | _ => None end.

(** ** Reading back *)

Lemma span_name_app n r : Forall (fun c => name_char c = true) n -> match r with [] => True | c :: _ => name_char c = false end ->
  span_name (n ++ r) = (n, r).
Proof.
  intros Hn Hr. induction Hn as [|c n Hc _ IH]; cbn [app span_name].
  - destruct r as [|c r]; [done|]. cbn. by rewrite Hr.
  - by rewrite Hc, IH.
Qed.

Lemma read_value_escape v r : read_value (escapeLabelValue v ++ 34 :: r) = Some (v, r).
Proof.
  unfold escapeLabelValue. induction v as [|c v IH]; [done|]. rewrite bind_cons.
  destruct (c =? 92) eqn:E1; [bool_hyps; subst; cbn; by rewrite IH|].
  destruct (c =? 10) eqn:E2; [bool_hyps; subst; cbn; by rewrite IH|].
  destruct (c =? 34) eqn:E3; [bool_hyps; subst; cbn; by rewrite IH|].
  cbn [app read_value]. by rewrite E3, E1, IH.
Qed.

Lemma read_help_escape v : read_help (escapeHelp v) = Some v.
Proof.
  unfold escapeHelp. induction v as [|c v IH]; [done|]. rewrite bind_cons.
  destruct (c =? 92) eqn:E1; [bool_hyps; subst; cbn; by rewrite IH|].
  destruct (c =? 10) eqn:E2; [bool_hyps; subst; cbn; by rewrite IH|].
  cbn [app read_help]. by rewrite E1, IH.
Qed.

Lemma read_labels_render fuel kv r : (length kv <= fuel)%nat -> kv <> [] -> Forall (fun p => valid_name p.1) kv ->
  read_labels fuel (Join [44] (map render_label kv) ++ 125 :: r) = Some (kv, r).
Proof.
  revert fuel. induction kv as [|[n v] kv IH]; intros fuel Hf Hne Hv; [done|].
  destruct fuel as [|fuel]; [cbn in Hf; lia|]. apply Forall_cons in Hv as [[_ Hn] Hv]. cbn in Hn.
  assert (E : forall t, read_labels (S fuel) (render_label (n, v) ++ t) =
    match t with
    | 44 :: t => '(kv, t) ← read_labels fuel t; Some ((n, v) :: kv, t)
    | 125 :: t => Some ([(n, v)], t)
    | _ => None
    end).
  { intros t. unfold render_label. cbn [read_labels fst snd]. rewrite <- !app_assoc. rewrite span_name_app by done.
    cbn [app]. change (bs "=" ++ ?x) with (61 :: x). cbn iota beta. rewrite read_value_escape. done. }
  destruct kv as [|p kv].
  - cbn [map Join]. by rewrite E.
  - cbn [map]. change (Join [44] (?x :: render_label p :: ?l)) with (x ++ [44] ++ Join [44] (map render_label (p :: kv))).
    rewrite <- !app_assoc, E. cbn [app]. rewrite IH; [done|cbn in *; lia|done|done].
Qed.

Lemma sorted_labels_perm kv : sorted_labels kv ≡ₚ kv.
Proof. apply merge_sort_Permutation. Qed.

Lemma encodeLabels_cons kv : kv <> [] -> encodeLabels kv = [123] ++ Join [44] (map render_label (sorted_labels kv)) ++ [125].
Proof. by destruct kv. Qed.

Lemma read_sample name kv t : valid_name name -> Forall (fun p => valid_name p.1) kv ->
  read_line (name ++ encodeLabels kv ++ bs " " ++ t) = Some (e_sample name (sorted_labels kv) t).
Proof.
  intros [Hne Hn] Hkv. unfold read_line.
  assert (Hp : forall p, HasPrefix (name ++ encodeLabels kv ++ bs " " ++ t) (35 :: p) = false).
  { intros p. unfold HasPrefix. destruct name as [|c name]; [done|]. apply bool_decide_eq_false_2. cbn. intros [= -> _].
    by apply Forall_cons in Hn as [Hn _]. }
  rewrite (Hp (bs " HELP ") : HasPrefix _ (bs "# HELP ") = false), (Hp (bs " TYPE ") : HasPrefix _ (bs "# TYPE ") = false).
  destruct (decide (kv = [])) as [->|Hk].
  - cbn [encodeLabels app]. by rewrite span_name_app.
  - rewrite encodeLabels_cons by done. rewrite <- !app_assoc. rewrite span_name_app by done. cbn [app].
    change (125 :: bs " " ++ t) with (125 :: 32 :: t).
    assert (Hs : sorted_labels kv <> []) by (intros E; apply Hk, Permutation_nil_r; by rewrite <- E, sorted_labels_perm).
    rewrite read_labels_render; [done| |done|by rewrite sorted_labels_perm].
    rewrite length_app. assert (H : forall l, le (length l) (S (length (Join [44] (map render_label l))))).
    { clear. induction l as [|p l IH]; [cbn; lia|]. destruct l as [|q l]; [cbn; lia|].
      change (Join [44] (map render_label (p :: q :: l))) with (render_label p ++ [44] ++ Join [44] (map render_label (q :: l))).
      rewrite !length_app. cbn [length] in *. lia. }
    specialize (H (sorted_labels kv)). cbn [length]. lia.
Qed.

(** ** Lines *)

Definition printable (s : gostr) : Prop := Forall (fun c => c <> 10) s.

Lemma printable_notin s : printable s -> 10 ∉ s.
Proof. intros H Hin. unfold printable in H. rewrite Forall_forall in H. by apply H in Hin. Qed.

Lemma printable_app s t : printable (s ++ t) <-> printable s /\ printable t.
Proof. apply Forall_app. Qed.

Lemma printable_name s : valid_name s -> printable s.
Proof. intros [_ H]. eapply Forall_impl; [exact H|]. intros c Hc ->. done. Qed.

Lemma printable_bs s : existsb (Z.eqb 10) s = false -> printable s.
Proof.
  intros H. apply Forall_forall. intros c Hc ->. apply list_elem_of_In in Hc.
  assert (existsb (Z.eqb 10) s = true) by (apply existsb_exists; by exists 10). congruence.
Qed.

Lemma printable_escape v : printable (escapeLabelValue v).
Proof.
  unfold escapeLabelValue. induction v as [|c v IH]; [constructor|]. rewrite bind_cons. apply printable_app. split; [|done].
  destruct (c =? 92); [by apply printable_bs|]. destruct (c =? 10) eqn:E; [by apply printable_bs|].
  destruct (c =? 34); [by apply printable_bs|]. bool_hyps. by constructor.
Qed.

Lemma printable_help v : printable (escapeHelp v).
Proof.
  unfold escapeHelp. induction v as [|c v IH]; [constructor|]. rewrite bind_cons. apply printable_app. split; [|done].
  destruct (c =? 92); [by apply printable_bs|]. destruct (c =? 10) eqn:E; [by apply printable_bs|]. bool_hyps. by constructor.
Qed.

Lemma printable_Join l : Forall printable l -> printable (Join [44] l).
Proof.
  induction 1 as [|x l Hx _ IH]; [constructor|]. destruct l as [|y l]; [done|]. cbn [Join].
  apply printable_app. split; [done|]. apply printable_app. split; [by apply printable_bs|done].
Qed.

Lemma printable_labels kv : Forall (fun p => valid_name p.1) kv -> printable (encodeLabels kv).
Proof.
  intros H. destruct (decide (kv = [])) as [->|Hk]; [constructor|]. rewrite encodeLabels_cons by done.
  apply printable_app. split; [by apply printable_bs|]. apply printable_app. split; [|by apply printable_bs].
  rewrite <- (sorted_labels_perm kv) in H. apply printable_Join, Forall_fmap. eapply Forall_impl; [exact H|].
  intros [n v] Hn. unfold compose, render_label. cbn [fst snd] in *. repeat (apply printable_app; split); try (by apply printable_bs).
  - by apply printable_name.
  - apply printable_escape.
Qed.

Lemma printable_number s : Forall number_char s -> printable s.
Proof. intros H. eapply Forall_impl; [exact H|]. unfold number_char. cbn. lia. Qed.

Lemma printable_float f : printable (formatFloat f).
Proof.
  unfold formatFloat. destruct (whole f) as [n|]; [|apply printable_number, FormatFloat_number].
  apply Forall_forall. intros c Hc. apply FormatInt_chars in Hc. lia.
Qed.

Lemma mapM_app_Some {A B} (f : A -> option B) l k a b : mapM f l = Some a -> mapM f k = Some b -> mapM f (l ++ k) = Some (a ++ b).
Proof. rewrite !mapM_Some. apply Forall2_app. Qed.

(** A text made of whole lines is read line by line. *)
Lemma read_lines ls : Forall printable ls -> read_text (ls ≫= line) = mapM read_line ls.
Proof.
  intros H. unfold read_text, line. rewrite Split_lines by (eapply Forall_impl; [exact H|]; apply printable_notin).
  rewrite last_snoc, length_app. cbn [length]. by rewrite Nat.add_sub, take_app_length.
Qed.

(** ** Headers and samples as lines *)

Definition header_lines (name help typ : gostr) : list gostr :=
  (if bool_decide (help = []) then [] else [bs "# HELP " ++ name ++ bs " " ++ escapeHelp help]) ++ [bs "# TYPE " ++ name ++ bs " " ++ typ].
Definition header_entries (name help typ : gostr) : list entry :=
  (if bool_decide (help = []) then [] else [e_help name help]) ++ [e_type name typ].
Definition sample_text (name labels : gostr) (v : float64) : gostr := name ++ labels ++ bs " " ++ formatFloat v.

Lemma one_line s : [s] ≫= line = line s.
Proof. apply app_nil_r. Qed.

Lemma header_is_lines name help typ : header name help typ = header_lines name help typ ≫= line.
Proof. unfold header, header_lines. rewrite bind_app, one_line. f_equal. case_bool_decide; [done|]. by rewrite one_line. Qed.

Lemma name_no_space name : valid_name name -> 32 ∉ name.
Proof. intros [_ H] Hin. rewrite Forall_forall in H. by apply H in Hin. Qed.

Lemma read_header name help typ : valid_name name -> mapM read_line (header_lines name help typ) = Some (header_entries name help typ).
Proof.
  intros Hn. pose proof (name_no_space name Hn) as Hs.
  assert (Ht : read_line (bs "# TYPE " ++ name ++ bs " " ++ typ) = Some (e_type name typ)).
  { unfold read_line. change (HasPrefix (bs "# TYPE " ++ ?x) (bs "# HELP ")) with false. cbn iota.
    rewrite HasPrefix_app.
    change (drop 7 (bs "# TYPE " ++ ?x)) with x. change (bs " " ++ typ) with (32 :: typ). by rewrite Cut_app. }
  unfold header_lines, header_entries. case_bool_decide; cbn [app mapM].
  - change (mapM read_line [?x]) with (y ← read_line x; Some [y]). by rewrite Ht.
  - assert (Hh : read_line (bs "# HELP " ++ name ++ bs " " ++ escapeHelp help) = Some (e_help name help)).
    { unfold read_line. rewrite HasPrefix_app.
      change (drop 7 (bs "# HELP " ++ ?x)) with x. change (bs " " ++ ?x) with (32 :: x). rewrite Cut_app by done.
      cbn [mbind option_bind]. by rewrite read_help_escape. }
    change (mapM read_line [?x; ?z]) with (y ← read_line x; l ← (w ← read_line z; Some [w]); Some (y :: l)). by rewrite Hh, Ht.
Qed.

Lemma printable_header name help typ : valid_name name -> printable typ -> Forall printable (header_lines name help typ).
Proof.
  intros Hn Ht. apply printable_name in Hn. apply Forall_app. split; [case_bool_decide; [constructor|]|]; (apply Forall_cons_2; [|constructor]);
    repeat (apply printable_app; split); try done; try (by apply printable_bs). apply printable_help.
Qed.

Lemma printable_sample name kv v : valid_name name -> Forall (fun p => valid_name p.1) kv -> printable (sample_text name (encodeLabels kv) v).
Proof.
  intros Hn Hk. unfold sample_text. repeat (apply printable_app; split); [by apply printable_name|by apply printable_labels|by apply printable_bs|apply printable_float].
Qed.

(** ** Operations on a registry *)

(** What a program does with the registry: it asks for the value of a metric under
    some label values, and maybe changes it. *)
Inductive action := act_touch | act_add (delta : float64) | act_set (x : float64).
Record op := { o_name : gostr; o_values : list gostr; o_act : action }.

Definition act (a : action) (x : float64) : float64 := match a with act_touch => x | act_add d => fadd x d | act_set y => y end.

Section Schema.
(** The help text, the type and the label names each metric is registered with. *)
Context (schema : gostr -> gostr * metricType * list gostr).

Definition labels_of (name : gostr) : list gostr := (schema name).2.

Definition run_op (o : op) (r : Registry) : Registry :=
  let '(help, typ, ns) := schema (o_name o) in
  let '(v, r) := vec (o_name o) help typ ns r in
  let '(h, r) := With v (o_values o) r in
  match o_act o with
  | act_touch => r
  | act_add d => value_add h d r
  | act_set x => value_set h x r
  end.

Definition run (ops : list op) : Registry := foldl (fun r o => run_op o r) New ops.

(** The abstract registry: one value per metric and label values. *)
Definition spec_op (o : op) (m : gmap (gostr * list gostr) float64) : gmap (gostr * list gostr) float64 :=
  <[(o_name o, o_values o) := act (o_act o) (default fzero (m !! (o_name o, o_values o)))]> m.
Definition spec (ops : list op) : gmap (gostr * list gostr) float64 := foldl (fun m o => spec_op o m) ∅ ops.

Definition schema_ok : Prop := forall name, NoDup (labels_of name) /\ Forall valid_name (labels_of name).
Definition op_ok (o : op) : Prop := valid_name (o_name o) /\ length (o_values o) = length (labels_of (o_name o)).

(** *** Label values are told apart *)

Lemma zip_valid ns (vs : list gostr) : Forall valid_name ns -> Forall (fun p => valid_name p.1) (zip ns vs).
Proof. intros H. revert vs. induction H as [|n ns Hn _ IH]; intros [|v vs]; cbn; constructor; done || apply IH. Qed.

Lemma zip_perm_inj (ns vs ws : list gostr) : NoDup ns -> length vs = length ns -> length ws = length ns -> zip ns vs ≡ₚ zip ns ws -> vs = ws.
Proof.
  intros Hnd. revert vs ws. induction Hnd as [|n ns Hn _ IH]; intros [|v vs] [|w ws] Hv Hw Hp; try done. cbn in Hp.
  assert (E : v = w).
  { assert (Hin : (n, v) ∈ (n, w) :: zip ns ws) by (rewrite <- Hp; left). apply elem_of_cons in Hin as [[= ->]|Hin]; [done|].
    exfalso. apply Hn. by apply elem_of_zip_l in Hin. }
  subst w. apply Permutation_cons_inv in Hp. f_equal. apply IH; [cbn in *; lia..|done].
Qed.

Lemma sorted_inj ns vs ws : NoDup ns -> length vs = length ns -> length ws = length ns ->
  sorted_labels (zip ns vs) = sorted_labels (zip ns ws) -> vs = ws.
Proof. intros H1 H2 H3 E. apply (zip_perm_inj ns); try done. by rewrite <- (sorted_labels_perm (zip ns vs)), E, sorted_labels_perm. Qed.

Lemma zip_labels_inj ns vs ws : NoDup ns -> Forall valid_name ns -> length vs = length ns -> length ws = length ns ->
  zip_labels ns vs = zip_labels ns ws -> vs = ws.
Proof.
  intros H1 H2 H3 H4 E. apply (sorted_inj ns); try done. unfold zip_labels in E.
  assert (Hx : valid_name (bs "x")) by (split; [done|repeat constructor]).
  pose proof (read_sample (bs "x") (zip ns vs) [] Hx (zip_valid ns vs H2)) as R1.
  pose proof (read_sample (bs "x") (zip ns ws) [] Hx (zip_valid ns ws H2)) as R2. rewrite E in R1. congruence.
Qed.

(** *** The registry holds the abstract values *)

Record family_ok (m : gmap (gostr * list gostr) float64) (f : family) : Prop := {
  fo_name : valid_name (fm_name f);
  fo_labels : fm_labelNs f = labels_of (fm_name f);
  fo_order : NoDup (fm_order f);
  fo_series : forall key, key ∈ fm_order f <-> is_Some (fm_series f !! key);
  fo_keys : forall key, key ∈ fm_order f -> exists vs, length vs = length (labels_of (fm_name f)) /\ key = zip_labels (labels_of (fm_name f)) vs;
  fo_values : forall vs, length vs = length (labels_of (fm_name f)) -> fm_series f !! zip_labels (labels_of (fm_name f)) vs = m !! (fm_name f, vs)
}.

Record holds (r : Registry) (m : gmap (gostr * list gostr) float64) : Prop := {
  ho_names : NoDup (fm_name <$> r);
  ho_families : Forall (family_ok m) r;
  ho_all : forall n vs x, m !! (n, vs) = Some x -> length vs = length (labels_of n) /\ n ∈ fm_name <$> r
}.

Lemma find_family_Some name r f : find_family name r = Some f -> f ∈ r /\ fm_name f = name.
Proof.
  unfold find_family. intros H. assert (Hin : f ∈ filter (fun f => fm_name f = name) r)
    by (destruct (filter _ r); cbn in H; [done|injection H as ->; left]).
  apply list_elem_of_filter in Hin as [? ?]. done.
Qed.

Lemma find_family_None name r : find_family name r = None -> name ∉ fm_name <$> r.
Proof.
  unfold find_family. intros H (f & -> & Hf)%list_elem_of_fmap.
  assert (Hin : f ∈ filter (fun g => fm_name g = fm_name f) r) by (by apply list_elem_of_filter).
  destruct (filter _ r); [by apply elem_of_nil in Hin|done].
Qed.

Lemma find_family_in name r : name ∈ fm_name <$> r -> exists f, find_family name r = Some f.
Proof. intros H. destruct (find_family name r) as [f|] eqn:E; [by exists f|]. by apply find_family_None in E. Qed.

Lemma ensure_holds name help typ r m : valid_name name -> holds r m ->
  let r' := ensure_family name help typ (labels_of name) r in holds r' m /\ name ∈ fm_name <$> r'.
Proof.
  intros Hn [H1 H2 H3]. unfold ensure_family. destruct (find_family name r) as [f|] eqn:E; cbn.
  - apply find_family_Some in E as [Hf <-]. split; [done|]. by apply list_elem_of_fmap_2.
  - apply find_family_None in E. rewrite fmap_app. split; [|apply elem_of_app; right; left]. split.
    + rewrite fmap_app. apply NoDup_app. split; [done|]. split; [|apply NoDup_singleton].
      intros x Hx Hin. apply list_elem_of_singleton in Hin as ->. done.
    + apply Forall_app. split; [done|]. apply Forall_singleton. split; cbn; try done.
      * constructor.
      * intros key. rewrite lookup_empty. split; [by intros ?%elem_of_nil|by intros []].
      * intros key Hk. by apply elem_of_nil in Hk.
      * intros vs _. rewrite lookup_empty. destruct (m !! (name, vs)) as [x|] eqn:Em; [|done]. exfalso. by apply E, (H3 _ _ _ Em).
    + intros n vs x Hx. destruct (H3 n vs x Hx). split; [done|]. rewrite fmap_app, elem_of_app. by left.
Qed.

(** [With] and then a change. *)
Definition touch (key : gostr) (u : float64 -> float64) (f : family) : family := set_value key u (family_get key f).

Lemma touch_name key u f : fm_name (touch key u f) = fm_name f.
Proof. unfold touch, set_value, family_get. by destruct (fm_series f !! key). Qed.
Lemma touch_labels key u f : fm_labelNs (touch key u f) = fm_labelNs f.
Proof. unfold touch, set_value, family_get. by destruct (fm_series f !! key). Qed.
Lemma touch_series key u f : fm_series (touch key u f) = <[key := u (default fzero (fm_series f !! key))]> (fm_series f).
Proof.
  unfold touch, set_value, family_get. apply map_eq. intros k. destruct (fm_series f !! key) as [x|] eqn:E; cbn.
  - destruct (decide (k = key)) as [->|Hk]; [by rewrite lookup_alter_eq, lookup_insert_eq, E|by rewrite lookup_alter_ne, lookup_insert_ne].
  - destruct (decide (k = key)) as [->|Hk]; [by rewrite lookup_alter_eq, !lookup_insert_eq|by rewrite lookup_alter_ne, !lookup_insert_ne].
Qed.
Lemma touch_order key u f : fm_order (touch key u f) = match fm_series f !! key with Some _ => fm_order f | None => fm_order f ++ [key] end.
Proof. unfold touch, set_value, family_get. by destruct (fm_series f !! key). Qed.

Lemma touch_ok name vs u m f : schema_ok -> length vs = length (labels_of name) -> family_ok m f ->
  fm_name f = name ->
  family_ok (<[(name, vs) := u (default fzero (m !! (name, vs)))]> m) (touch (zip_labels (labels_of name) vs) u f).
Proof.
  intros Hs Hl [F1 F2 F3 F4 F5 F6] <-. destruct (Hs (fm_name f)) as [S1 S2]. set (key := zip_labels (labels_of (fm_name f)) vs).
  assert (Hord : forall k, k ∈ fm_order (touch key u f) <-> k = key \/ k ∈ fm_order f).
  { intros k. rewrite touch_order. destruct (fm_series f !! key) as [x|] eqn:E.
    - split; [by right|]. intros [->|H]; [|done]. apply F4. by exists x.
    - rewrite elem_of_app, list_elem_of_singleton. tauto. }
  split; rewrite ?touch_name, ?touch_labels; try done.
  - rewrite touch_order. destruct (fm_series f !! key) as [x|] eqn:E; [done|]. apply NoDup_app. split; [done|]. split; [|apply NoDup_singleton].
    intros k Hk Hin. apply list_elem_of_singleton in Hin as ->. apply F4 in Hk as [y Hy]. congruence.
  - intros k. rewrite Hord, touch_series, lookup_insert_is_Some, F4. destruct (decide (key = k)) as [->|Hk]; [tauto|]. split; [intros [->|H]; [done|by right]|intros [?|[_ H]]; [done|by right]].
  - intros k [->|Hk]%Hord; [by exists vs|by apply F5].
  - intros ws Hw. rewrite touch_series. destruct (decide (ws = vs)) as [->|Hne].
    + fold key. pose proof (F6 vs Hl) as Hv. fold key in Hv. by rewrite !lookup_insert_eq, Hv.
    + rewrite !lookup_insert_ne; [by apply F6|congruence|]. intros E. apply Hne. symmetry. by apply (zip_labels_inj (labels_of (fm_name f))).
Qed.

Lemma family_ok_other name vs x m f : fm_name f <> name -> family_ok m f -> family_ok (<[(name, vs) := x]> m) f.
Proof. intros Hn [F1 F2 F3 F4 F5 F6]. split; try done. intros ws Hw. rewrite lookup_insert_ne by congruence. by apply F6. Qed.

Lemma upd_holds name vs u r m : schema_ok -> length vs = length (labels_of name) -> name ∈ fm_name <$> r -> holds r m ->
  holds (upd_family name (touch (zip_labels (labels_of name) vs) u) r) (<[(name, vs) := u (default fzero (m !! (name, vs)))]> m).
Proof.
  intros Hs Hl Hin [H1 H2 H3].
  assert (En : fm_name <$> upd_family name (touch (zip_labels (labels_of name) vs) u) r = fm_name <$> r).
  { unfold upd_family. rewrite <- list_fmap_compose. apply list_fmap_ext. intros i f _. unfold compose. case_bool_decide; [apply touch_name|done]. }
  split; rewrite ?En; [done| |].
  - unfold upd_family. apply Forall_fmap. eapply Forall_impl; [exact H2|]. intros f Hf. unfold compose.
    case_bool_decide as E; [by apply touch_ok|by apply family_ok_other].
  - intros n ws x Hx. destruct (decide ((n, ws) = (name, vs))) as [[= -> ->]|Hne]; [done|].
    rewrite lookup_insert_ne in Hx by congruence. by apply (H3 n ws x).
Qed.

Lemma upd_upd name f g r : (forall x, fm_name (f x) = fm_name x) -> upd_family name g (upd_family name f r) = upd_family name (fun x => g (f x)) r.
Proof.
  intros H. unfold upd_family. rewrite map_map. apply map_ext. intros x.
  destruct (bool_decide (fm_name x = name)) eqn:E; [by rewrite H, E|by rewrite E].
Qed.

Lemma find_upd name u r : (forall x, fm_name (u x) = fm_name x) -> find_family name (upd_family name u r) = u <$> find_family name r.
Proof.
  intros H. unfold find_family, upd_family. induction r as [|f r IH]; [done|]. cbn [map].
  destruct (decide (fm_name f = name)) as [E|E].
  - rewrite bool_decide_eq_true_2 by done. rewrite !filter_cons_True by (rewrite ?H; done). done.
  - rewrite bool_decide_eq_false_2 by done. rewrite !filter_cons_False by done. exact IH.
Qed.

Lemma get_name key f : fm_name (family_get key f) = fm_name f.
Proof. unfold family_get. by destruct (fm_series f !! key). Qed.

Lemma set_value_id key f : set_value key (fun x => x) f = f.
Proof.
  unfold set_value. assert (E : alter (fun x => x) key (fm_series f) = fm_series f).
  { apply map_eq. intros k. destruct (decide (k = key)) as [->|Hk]; [|by rewrite lookup_alter_ne]. rewrite lookup_alter_eq. by destruct (_ !! _). }
  rewrite E. by destruct f.
Qed.

Lemma run_op_holds o r m : schema_ok -> op_ok o -> holds r m -> holds (run_op o r) (spec_op o m).
Proof.
  intros Hs [Hn Hl] H. unfold run_op, spec_op. destruct (schema (o_name o)) as [[help typ] ns] eqn:Es.
  assert (Ens : labels_of (o_name o) = ns) by (unfold labels_of; by rewrite Es). unfold vec.
  destruct (ensure_holds (o_name o) help typ r m Hn H) as [H1 Hin]. rewrite Ens in H1, Hin. set (r1 := ensure_family _ _ _ _ r) in *.
  pose proof (upd_holds (o_name o) (o_values o) (act (o_act o)) r1 m Hs Hl Hin H1) as H2. rewrite Ens in H2.
  unfold With. destruct (find_family_in _ _ Hin) as [f Ef]. rewrite Ef.
  assert (El : fm_labelNs f = ns).
  { apply find_family_Some in Ef as [Hf Hfn]. pose proof (ho_families _ _ H1) as HF. rewrite Forall_forall in HF.
    destruct (HF f Hf) as [_ -> _ _ _ _]. by rewrite Hfn. }
  rewrite El. unfold touch in H2. destruct (o_act o); cbn [act] in H2 |- *; unfold value_add, value_set; cbn [h_family h_labels].
  - eapply (eq_rect _ (fun r => holds r _)); [exact H2|]. unfold upd_family. apply map_ext. intros x.
    case_bool_decide; [|done]. apply set_value_id.
  - rewrite upd_upd by (intros; apply get_name). done.
  - rewrite upd_upd by (intros; apply get_name). done.
Qed.

Lemma run_holds ops : schema_ok -> Forall op_ok ops -> holds (run ops) (spec ops).
Proof.
  intros Hs. unfold run, spec.
  assert (H0 : holds New ∅).
  { split; [constructor|constructor|]. intros n vs x Hx. by rewrite lookup_empty in Hx. }
  revert H0. generalize New (∅ : gmap (gostr * list gostr) float64).
  induction ops as [|o ops IH]; intros r m H Ho; [done|]. apply Forall_cons in Ho as [Ho Hops]. cbn [foldl]. apply IH; [by apply run_op_holds|done].
Qed.

(** *** The exposition of the registry *)

Definition family_lines (f : family) : list gostr :=
  header_lines (fm_name f) (fm_help f) (type_text (fm_typ f)) ++
  (fm_order f ≫= fun key => match fm_series f !! key with Some v => [sample_text (fm_name f) key v] | None => [] end).

Lemma render_family_lines f : render_family f = family_lines f ≫= line.
Proof.
  unfold render_family, family_lines. rewrite bind_app, header_is_lines. f_equal. induction (fm_order f) as [|k l IH]; [done|].
  rewrite !bind_cons, bind_app, IH. f_equal. destruct (fm_series f !! k); [|done]. symmetry. apply one_line.
Qed.

Lemma render_lines r : r ≫= render_family = (r ≫= family_lines) ≫= line.
Proof. induction r as [|f r IH]; [done|]. by rewrite !bind_cons, bind_app, render_family_lines, IH. Qed.

Definition entry_sample (e : entry) : option (gostr * list (gostr * gostr) * gostr) :=
  match e with e_sample n kv t => Some (n, kv, t) | _ => None end.
Definition entry_key (e : entry) : option (gostr * list (gostr * gostr)) := fst <$> entry_sample e.

Definition value_entry (m : gmap (gostr * list gostr) float64) (name : gostr) (vs : list gostr) : entry :=
  e_sample name (sorted_labels (zip (labels_of name) vs)) (formatFloat (default fzero (m !! (name, vs)))).

Lemma keys_values ns (order : list gostr) :
  (forall key, key ∈ order -> exists vs : list gostr, length vs = length ns /\ key = zip_labels ns vs) ->
  exists vsl, order = map (zip_labels ns) vsl /\ Forall (fun vs => length vs = length ns) vsl.
Proof.
  induction order as [|k l IH]; intros H; [by exists []|]. destruct (H k ltac:(left)) as (vs & Hl & ->).
  destruct IH as (vsl & -> & HF); [intros k Hk; apply H; by right|]. exists (vs :: vsl). split; [done|by constructor].
Qed.

Lemma read_family m f : schema_ok -> family_ok m f -> exists vsl,
  NoDup vsl /\ (forall vs, vs ∈ vsl <-> length vs = length (labels_of (fm_name f)) /\ is_Some (m !! (fm_name f, vs))) /\
  Forall printable (family_lines f) /\
  mapM read_line (family_lines f) =
    Some (header_entries (fm_name f) (fm_help f) (type_text (fm_typ f)) ++ map (value_entry m (fm_name f)) vsl).
Proof.
  intros Hs [F1 F2 F3 F4 F5 F6]. destruct (Hs (fm_name f)) as [S1 S2]. destruct (keys_values _ _ F5) as (vsl & Eo & HF).
  exists vsl. rewrite Eo in F3. split; [by apply NoDup_fmap_1 in F3|]. split.
  { intros vs. split.
    - intros Hin. rewrite Forall_forall in HF. split; [by apply HF|]. rewrite <- F6 by (by apply HF). apply F4. rewrite Eo. by apply list_elem_of_fmap_2.
    - intros [Hl Hm]. rewrite <- F6 in Hm by done. apply F4 in Hm. rewrite Eo in Hm. apply list_elem_of_fmap in Hm as (ws & Ez & Hw).
      rewrite Forall_forall in HF. apply zip_labels_inj in Ez; [by subst|done|done|done|by apply HF]. }
  assert (Ht : printable (type_text (fm_typ f))) by (destruct (fm_typ f); by apply printable_bs).
  assert (Hv : forall vs, vs ∈ vsl -> exists x, fm_series f !! zip_labels (labels_of (fm_name f)) vs = Some x /\ m !! (fm_name f, vs) = Some x).
  { intros vs Hin. rewrite Forall_forall in HF. rewrite <- F6 by (by apply HF).
    destruct (proj1 (F4 (zip_labels (labels_of (fm_name f)) vs))) as [x Hx]; [rewrite Eo; by apply list_elem_of_fmap_2|]. by exists x. }
  unfold family_lines. rewrite Eo. clear Eo F3 F4 F5 F6 HF. split.
  - apply Forall_app. split; [by apply printable_header|]. induction vsl as [|vs vsl IH]; [constructor|].
    cbn [map]. rewrite bind_cons. apply Forall_app. split; [|apply IH; intros; apply Hv; by right].
    destruct (Hv vs ltac:(left)) as (x & -> & _). apply Forall_singleton. apply printable_sample; [done|by apply zip_valid].
  - apply mapM_app_Some; [by apply read_header|].
    apply mapM_Some. induction vsl as [|vs vsl IH]; [constructor|]. cbn [map]. rewrite bind_cons.
    destruct (Hv vs ltac:(left)) as (x & Ex & Em). rewrite Ex. cbn [app]. constructor; [|apply IH; intros; apply Hv; by right].
    unfold sample_text, zip_labels, value_entry. rewrite Em. apply read_sample; [done|by apply zip_valid].
Qed.

Lemma header_samples name help typ : omap entry_sample (header_entries name help typ) = [].
Proof. unfold header_entries. by case_bool_decide. Qed.

Lemma header_keys name help typ : omap entry_key (header_entries name help typ) = [].
Proof. unfold header_entries. by case_bool_decide. Qed.

Lemma elem_sample n kv t (es : list entry) : e_sample n kv t ∈ es <-> (n, kv, t) ∈ omap entry_sample es.
Proof.
  rewrite list_elem_of_omap. split; [intros H; by exists (e_sample n kv t)|]. intros (e & He & E). by destruct e; [..|injection E as -> -> ->].
Qed.

Lemma value_samples m name vsl :
  omap entry_sample (map (value_entry m name) vsl) =
  map (fun vs => (name, sorted_labels (zip (labels_of name) vs), formatFloat (default fzero (m !! (name, vs))))) vsl.
Proof. induction vsl as [|vs vsl IH]; [done|]. cbn. by rewrite IH. Qed.

Lemma value_keys m name vsl :
  omap entry_key (map (value_entry m name) vsl) = map (fun vs => (name, sorted_labels (zip (labels_of name) vs))) vsl.
Proof. induction vsl as [|vs vsl IH]; [done|]. cbn. by rewrite IH. Qed.

(** What a registry that holds [m] shows of the families [r]. *)
Lemma read_registry m r : schema_ok -> Forall (family_ok m) r -> NoDup (fm_name <$> r) -> exists es,
  Forall printable (r ≫= family_lines) /\ mapM read_line (r ≫= family_lines) = Some es /\
  NoDup (omap entry_key es) /\
  (forall n kv t, e_sample n kv t ∈ es <-> n ∈ fm_name <$> r /\
     exists vs x, length vs = length (labels_of n) /\ m !! (n, vs) = Some x /\ kv = sorted_labels (zip (labels_of n) vs) /\ t = formatFloat x).
Proof.
  intros Hs Hf Hnd. induction Hf as [|f r Hf _ IH].
  { exists []. do 3 (split; [constructor|]). intros n kv t. split; [by intros ?%elem_of_nil|]. by intros [?%elem_of_nil _]. }
  apply NoDup_cons in Hnd as [Hn Hnd]. destruct (IH Hnd) as (es & H1 & H2 & H3 & H4).
  destruct (read_family m f Hs Hf) as (vsl & V1 & V2 & V3 & V4). rewrite bind_cons.
  eexists. split; [apply Forall_app; done|]. split; [by apply mapM_app_Some|].
  assert (Hin : forall n kv t, e_sample n kv t ∈ header_entries (fm_name f) (fm_help f) (type_text (fm_typ f)) ++ map (value_entry m (fm_name f)) vsl <->
    n = fm_name f /\ exists vs x, length vs = length (labels_of n) /\ m !! (n, vs) = Some x /\ kv = sorted_labels (zip (labels_of n) vs) /\ t = formatFloat x).
  { intros n kv t. rewrite elem_sample, omap_app, header_samples, value_samples. cbn [app]. rewrite list_elem_of_fmap. split.
    - intros (vs & [= -> -> ->] & Hvs). split; [done|]. apply V2 in Hvs as [Hl [x Hx]]. exists vs, x. by rewrite Hx.
    - intros (-> & vs & x & Hl & Hx & -> & ->). exists vs. rewrite Hx. split; [done|]. apply V2. by eauto. }
  split.
  - rewrite omap_app. apply NoDup_app. split; [|split; [|done]].
    + rewrite omap_app, header_keys, value_keys. cbn [app]. apply NoDup_fmap_2_strong; [|done].
      intros vs ws Hv Hw [= E]. destruct (Hs (fm_name f)) as [S1 S2].
      apply V2 in Hv as [Hv _]. apply V2 in Hw as [Hw _]. by apply sorted_inj in E.
    + intros [n kv] Ha Hb. rewrite list_elem_of_omap in Ha, Hb. destruct Ha as (e1 & He1 & E1). destruct Hb as (e2 & He2 & E2).
      destruct e1 as [| |n1 kv1 t1]; try done. injection E1 as -> ->. destruct e2 as [| |n2 kv2 t2]; try done. injection E2 as -> ->.
      apply Hin in He1 as [-> _]. apply H4 in He2 as [He2 _]. done.
  - intros n kv t. rewrite elem_of_app, Hin, H4, fmap_cons, elem_of_cons. tauto.
Qed.

(** *** Collectors *)

Definition sample_ok (s : Sample) : Prop :=
  valid_name (sa_Name s) /\ Forall (fun p => valid_name p.1) (pairs (sa_Labels s)) /\ printable (sa_Type s).
Definition sample_tuple (s : Sample) : gostr * list (gostr * gostr) * gostr :=
  (sa_Name s, sorted_labels (pairs (sa_Labels s)), formatFloat (sa_Value s)).

Lemma read_samples seen l : Forall sample_ok l -> exists ls es,
  (render_samples seen l).1 = ls ≫= line /\ Forall printable ls /\ mapM read_line ls = Some es /\ omap entry_sample es = map sample_tuple l.
Proof.
  intros H. revert seen. induction H as [|s l (Hn & Hk & Ht) _ IH]; intros seen; [by exists [], []|]. cbn [render_samples].
  set (fresh := bool_decide (sa_Name s ∉ seen)). set (typ := if bool_decide _ then _ else _).
  destruct (IH (if fresh then sa_Name s :: seen else seen)) as (ls & es & E1 & E2 & E3 & E4). destruct (render_samples _ l) as [t seen']. cbn in E1. subst t.
  set (hl := if fresh then header_lines (sa_Name s) (sa_Help s) typ else []).
  set (he := if fresh then header_entries (sa_Name s) (sa_Help s) typ else []).
  exists (hl ++ [sample_text (sa_Name s) (encodeLabels (pairs (sa_Labels s))) (sa_Value s)] ++ ls), (he ++ [e_sample (sa_Name s) (sorted_labels (pairs (sa_Labels s))) (formatFloat (sa_Value s))] ++ es).
  split; [|split; [|split]].
  - cbn [fst]. rewrite !bind_app, one_line. f_equal. subst hl. destruct fresh; [apply header_is_lines|done].
  - apply Forall_app. split; [|apply Forall_cons; split; [by apply printable_sample|done]].
    subst hl. destruct fresh; [|constructor]. apply printable_header; [done|]. subst typ. case_bool_decide; [by apply printable_bs|done].
  - apply mapM_app_Some; [subst hl he; destruct fresh; [by apply read_header|done]|].
    apply mapM_app_Some; [|done]. apply mapM_Some. constructor; [by apply read_sample|constructor].
  - assert (Eh : omap entry_sample he = []) by (subst he; destruct fresh; [apply header_samples|done]). by rewrite !omap_app, E4, Eh.
Qed.

Lemma read_collectors seen cols : Forall (Forall sample_ok) cols -> exists ls es,
  render_collectors seen cols = ls ≫= line /\ Forall printable ls /\ mapM read_line ls = Some es /\
  omap entry_sample es = cols ≫= (fun l => map sample_tuple (merge_sort sample_le l)).
Proof.
  intros H. revert seen. induction H as [|l cols Hl _ IH]; intros seen; [by exists [], []|]. cbn [render_collectors].
  destruct (read_samples seen (merge_sort sample_le l)) as (ls & es & E1 & E2 & E3 & E4); [by rewrite merge_sort_Permutation|].
  destruct (render_samples _ _) as [t seen']. cbn in E1. subst t. destruct (IH seen') as (ls' & es' & F1 & F2 & F3 & F4).
  exists (ls ++ ls'), (es ++ es'). rewrite F1, bind_app, bind_cons, omap_app, E4, F4. split; [done|]. split; [by apply Forall_app|]. split; [by apply mapM_app_Some|done].
Qed.

(** A registry that holds [m] shows it. *)
Lemma read_exposition r m cols : schema_ok -> holds r m -> Forall (Forall sample_ok) cols ->
  exists es1 es2, read_text (ServeHTTP r cols) = Some (es1 ++ es2) /\
    NoDup (omap entry_key es1) /\
    (forall n kv t, e_sample n kv t ∈ es1 <->
       exists vs x, m !! (n, vs) = Some x /\ kv = sorted_labels (zip (labels_of n) vs) /\ t = formatFloat x) /\
    (forall n vs ws x y, m !! (n, vs) = Some x -> m !! (n, ws) = Some y ->
       sorted_labels (zip (labels_of n) vs) = sorted_labels (zip (labels_of n) ws) -> vs = ws) /\
    omap entry_sample es2 = cols ≫= (fun l => map sample_tuple (merge_sort sample_le l)).
Proof.
  intros Hs [R1 R2 R3] Hc. destruct (read_registry m r Hs R2 R1) as (es1 & A1 & A2 & A3 & A4).
  destruct (read_collectors [] cols Hc) as (ls & es2 & B1 & B2 & B3 & B4). exists es1, es2.
  split; [|split; [done|split; [|split; [|done]]]].
  - unfold ServeHTTP. rewrite B1, render_lines, <- bind_app, read_lines by (by apply Forall_app). by apply mapM_app_Some.
  - intros n kv t. rewrite A4. split.
    + intros (_ & vs & x & _ & H). by exists vs, x.
    + intros (vs & x & Hx & H). destruct (R3 n vs x Hx) as [Hl Hn]. split; [done|]. by exists vs, x.
  - intros n vs ws x y Hx Hy E. destruct (R3 _ _ _ Hx) as [Hv _]. destruct (R3 _ _ _ Hy) as [Hw _]. destruct (Hs n) as [S1 _].
    by apply sorted_inj in E.
Qed.

(** The exposition tells what was recorded.  For any series of operations on
    metrics with a fixed set of valid, distinct label names, a reader of the text
    format finds: of the registry, one sample per metric and label values that were
    used (distinct label values never share one), with the value the operations
    leave; and every sample of the collectors.  Label values and help texts are
    arbitrary bytes: none can add, change or hide a line. *)
Theorem exposition_refines ops cols :
  schema_ok -> Forall op_ok ops -> Forall (Forall sample_ok) cols ->
  exists es1 es2, read_text (ServeHTTP (run ops) cols) = Some (es1 ++ es2) /\
    NoDup (omap entry_key es1) /\
    (forall n kv t, e_sample n kv t ∈ es1 <->
       exists vs x, spec ops !! (n, vs) = Some x /\ kv = sorted_labels (zip (labels_of n) vs) /\ t = formatFloat x) /\
    (forall n vs ws x y, spec ops !! (n, vs) = Some x -> spec ops !! (n, ws) = Some y ->
       sorted_labels (zip (labels_of n) vs) = sorted_labels (zip (labels_of n) ws) -> vs = ws) /\
    omap entry_sample es2 = cols ≫= (fun l => map sample_tuple (merge_sort sample_le l)).
Proof. intros Hs Ho. apply read_exposition; [done|by apply run_holds]. Qed.

End Schema.
(** ** Concurrent updates *)

(** The delta a goroutine has still to add. *)
Definition owed (a : adder) : option float64 := match a with ad_start d | ad_loaded _ d => Some d | ad_done => None end.

Lemma owed_same (ts : list adder) i a b : ts !! i = Some a -> owed a = owed b -> omap owed (<[i := b]> ts) = omap owed ts.
Proof.
  revert i. induction ts as [|t ts IH]; intros [|i] Hi E; try done.
  - injection Hi as ->. cbn. by rewrite E.
  - change (<[S i := b]> (t :: ts)) with (t :: <[i := b]> ts). cbn [omap list_omap]. by rewrite (IH i).
Qed.

Lemma owed_paid (ts : list adder) i old d : ts !! i = Some (ad_loaded old d) -> omap owed ts ≡ₚ d :: omap owed (<[i := ad_done]> ts).
Proof.
  revert i. induction ts as [|t ts IH]; intros [|i] Hi; try done; [by injection Hi as ->|].
  change (<[S i := ad_done]> (t :: ts)) with (t :: <[i := ad_done]> ts). cbn [omap list_omap].
  destruct (owed t); [|by apply IH]. rewrite (IH i) by done. apply Permutation_swap.
Qed.

(** What the goroutines have added so far, in the order of their swaps. *)
Lemma add_run v0 ts0 s : rtc add_step (v0, ts0) s -> exists paid, s.1 = foldl fadd v0 paid /\ omap owed ts0 ≡ₚ paid ++ omap owed s.2.
Proof.
  revert s. apply (rtc_ind_r (R := add_step)); [by exists []|]. intros s s' _ Hstep (paid & E & Hp). destruct Hstep as [v ts i d Hi|v ts i d Hi|v ts i old d Hi Hne]; cbn in *.
  - exists paid. by rewrite (owed_same ts i (ad_start d) (ad_loaded v d)).
  - exists (paid ++ [d]). rewrite foldl_app. cbn. rewrite <- E, <- app_assoc. split; [done|]. cbn [app]. by rewrite <- (owed_paid ts i v d).
  - exists paid. by rewrite (owed_same ts i (ad_loaded old d) (ad_start d)).
Qed.

#[local] Instance float_dec : EqDecision float64.
Proof. solve_decision. Defined.

#[local] Instance adder_dec : EqDecision adder.
Proof. solve_decision. Defined.

(** The work left to a goroutine: a stale load costs a retry. *)
Definition work (v : float64) (a : adder) : Z :=
  match a with ad_done => 0 | ad_start _ => 2 | ad_loaded old _ => if decide (old = v) then 1 else 3 end.

Definition unfinished (a : adder) : Z := match a with ad_done => 0 | _ => 1 end.

Lemma zsum_insert {A} (g : A -> Z) (l : list A) i a b : l !! i = Some a -> zsum g (<[i := b]> l) = zsum g l - g a + g b.
Proof.
  revert i. induction l as [|x l IH]; intros [|i] Hi; try done.
  - injection Hi as ->. change (<[0%nat := b]> (a :: l)) with (b :: l). rewrite !zsum_cons. lia.
  - change (<[S i := b]> (x :: l)) with (x :: <[i := b]> l). rewrite !zsum_cons, (IH i) by done. lia.
Qed.

Lemma work_bounds v ts : 0 <= zsum (work v) ts <= 3 * Z.of_nat (length ts) /\ 0 <= zsum unfinished ts <= Z.of_nat (length ts).
Proof.
  induction ts as [|t ts IH]; [cbn; lia|]. cbn [length]. rewrite !zsum_cons.
  assert (0 <= work v t <= 3) by (destruct t; cbn; repeat case_decide; lia). assert (0 <= unfinished t <= 1) by (destruct t; cbn; lia). lia.
Qed.

Definition measure (n : Z) (s : float64 * list adder) : Z := zsum unfinished s.2 * (3 * n + 1) + zsum (work s.1) s.2.

Lemma step_measure s s' : add_step s s' -> length s'.2 = length s.2 /\ measure (Z.of_nat (length s.2)) s' < measure (Z.of_nat (length s.2)) s.
Proof.
  intros H. destruct H as [v ts i d Hi|v ts i d Hi|v ts i old d Hi Hne]; unfold measure; cbn [fst snd]; rewrite length_insert; (split; [done|]).
  - rewrite (zsum_insert unfinished _ _ _ _ Hi), (zsum_insert (work v) _ _ _ _ Hi). cbn. rewrite decide_True by done. lia.
  - rewrite (zsum_insert unfinished _ _ _ _ Hi). cbn [unfinished].
    pose proof (work_bounds v ts). pose proof (work_bounds (fadd v d) (<[i := ad_done]> ts)) as H2. rewrite length_insert in H2. nia.
  - rewrite (zsum_insert unfinished _ _ _ _ Hi), (zsum_insert (work v) _ _ _ _ Hi). cbn. rewrite decide_False by congruence. lia.
Qed.

Lemma add_steps_bound k s s' : nsteps add_step k s s' -> length s'.2 = length s.2 /\
  Z.of_nat k + measure (Z.of_nat (length s.2)) s' <= measure (Z.of_nat (length s.2)) s.
Proof.
  induction 1 as [s|k s s1 s' Hs _ [L IH]]; [lia|]. destruct (step_measure _ _ Hs) as [L1 M1]. rewrite L1 in *. split; [done|]. lia.
Qed.

(** [C38] No update is lost.  However the loads and compare-and-swaps of goroutines
    that add to one value interleave, the value is at every moment the result of
    adding, one after another, the deltas of the calls that have returned; when all
    have returned these are the deltas of all calls.  A schedule makes a bounded
    number of steps, and as long as a call has not returned some step is possible: the
    retries end. *)
Theorem add_atomic v0 ds k v ts :
  nsteps add_step k (v0, map ad_start ds) (v, ts) ->
  let n := Z.of_nat (length ds) in
  (exists paid, v = foldl fadd v0 paid /\ ds ≡ₚ paid ++ omap owed ts) /\
  (Forall (eq ad_done) ts -> exists paid, v = foldl fadd v0 paid /\ paid ≡ₚ ds) /\
  Z.of_nat k <= n * (3 * n + 1) + 3 * n /\
  (~ Forall (eq ad_done) ts -> exists s', add_step (v, ts) s').
Proof.
  intros H n. assert (Hd : omap owed (map ad_start ds) = ds) by (induction ds as [|d ds' IHd]; [done|]; cbn; f_equal; clear - ds'; by induction ds' as [|x l IHl]; cbn; [|f_equal]).
  destruct (add_run v0 (map ad_start ds) (v, ts)) as (paid & E & Hp); [apply rtc_nsteps; by exists k|]. rewrite Hd in Hp. cbn in E, Hp.
  split; [by exists paid|]. split.
  - intros Hall. exists paid. split; [done|]. rewrite Hp. assert (E0 : omap owed ts = []) by (clear - Hall; induction Hall as [|? ? <- _ IH]; [done|exact IH]).
    by rewrite E0, app_nil_r.
  - split.
    + destruct (add_steps_bound _ _ _ H) as [_ HM]. cbn [snd] in HM. rewrite length_map in HM. fold n in HM.
      pose proof (work_bounds v0 (map ad_start ds)) as [W1 W2]. rewrite length_map in W1, W2. fold n in W1, W2.
      pose proof (work_bounds v ts) as [W3 W4]. unfold measure in HM. cbn [fst snd] in HM. assert (0 <= n) by lia. nia.
    + intros Hn. apply not_Forall_Exists in Hn; [|apply _]. apply Exists_exists in Hn as (a & Ha & Hne).
      apply list_elem_of_lookup in Ha as [i Hi]. destruct a as [d|old d|]; [| |by destruct Hne].
      * eexists. by eapply step_load.
      * destruct (decide (v = old)) as [->|Hv]; eexists; [by eapply step_swap|by eapply step_retry].
Qed.

End MetricsFacts.
