(* ===== verification/Tokens.v ===== *)
(** * Signed tokens

    Models pkg/captivetoken/token.go (the hint the captive daemon hands to the
    portal), backend/session.go (the session cookie) and
    backend/nostr/challenge.go (login challenges and their single use).  All three
    are text authenticated by the first half of an HMAC-SHA256. *)

From S2P Require Import Prelude GoStrings Netip Sha256.

Module Tokens.

Definition dot_byte : Z := 46.
Definition bar_byte : Z := 124.

(** [h.Sum(nil)[:16]] *)
Definition mac16 (secret : list Z) (msg : gostr) : list Z := take 16 (hmac_sha256 secret msg).

(** ** The captive token *)

Inductive captive_err := BadBase64 | Malformed | BadSignature | BadExpiry | ErrExpired | BadAddr.

Definition TTLSeconds : Z := 300.

Definition Sign (secret : list Z) (addr : Addr) (expUnix : Z) : gostr :=
  let payload := addr_String addr ++ [bar_byte] ++ FormatInt expUnix in
  B64Encode (payload ++ [bar_byte] ++ B64Encode (mac16 secret payload)).

Definition Verify (secret : list Z) (token : gostr) (now : Z) : result captive_err Addr :=
  match B64Decode token with
  | None => Err BadBase64
  | Some raw =>
      match Split bar_byte raw with
      | [p0; p1; p2] =>
          match B64Decode p2 with
          | None => Err BadSignature
          | Some got =>
              if negb (bool_decide (mac16 secret (p0 ++ [bar_byte] ++ p1) = got)) then Err BadSignature else
              match ParseInt p1 with
              | None => Err BadExpiry
              | Some exp =>
                  if exp <? now then Err ErrExpired else
                  match ParseAddr p0 with
                  | None => Err BadAddr
                  | Some addr => Ok addr
                  end
              end
          end
      | _ => Err Malformed
      end
  end.

(** ** The session cookie *)

Definition sessionTTLHours : Z := 24 * 7.

Definition sessionMAC (secret : list Z) (msg : gostr) : gostr := B64Encode (mac16 secret msg).

(** The cookie value [setSession] writes at time [now], and its expiry. *)
Definition session_expiry (now : Z) : Z := time_Unix (now + sessionTTLHours * 60 * time_Minute).

Definition setSession (secret : list Z) (npub : gostr) (now : Z) : gostr :=
  let payload := B64Encode npub ++ [dot_byte] ++ FormatInt (session_expiry now) in
  payload ++ [dot_byte] ++ sessionMAC secret payload.

(** [None] is the request without the cookie. *)
Definition session (secret : list Z) (cookie : option gostr) (now : Z) : option gostr :=
  match cookie with
  | None => None
  | Some value =>
      match Split dot_byte value with
      | [p0; p1; p2] =>
          if negb (bool_decide (p2 = sessionMAC secret (p0 ++ [dot_byte] ++ p1))) then None else
          match ParseInt p1 with
          | None => None
          | Some exp => if exp <? time_Unix now then None else B64Decode p0
          end
      | _ => None
      end
  end.

(** ** Login challenges *)

Inductive challenge_err := MalformedChallenge | BadChallengeSignature | BadChallengeExpiry | ChallengeExpired.

Definition ChallengeTTLSeconds : Z := 120.

Definition macOf (secret : list Z) (msg : gostr) : gostr := B64Encode (mac16 secret msg).

(** [nonce] is what rand.Read returned. *)
Definition IssueChallenge (secret nonce : list Z) (nowUnix : Z) : gostr :=
  let exp := i64 (nowUnix + ChallengeTTLSeconds) in
  let payload := B64Encode nonce ++ [dot_byte] ++ FormatInt exp in
  payload ++ [dot_byte] ++ macOf secret payload.

Definition VerifyChallenge (secret : list Z) (challenge : gostr) (nowUnix : Z) : result challenge_err unit :=
  match Split dot_byte challenge with
  | [p0; p1; p2] =>
      if negb (bool_decide (p2 = macOf secret (p0 ++ [dot_byte] ++ p1))) then Err BadChallengeSignature else
      match ParseInt p1 with
      | None => Err BadChallengeExpiry
      | Some exp => if exp <? nowUnix then Err ChallengeExpired else Ok tt
      end
  | _ => Err MalformedChallenge
  end.

(** The first tag named [name] with a value. *)
Fixpoint ExtractTag (tags : list (list gostr)) (name : gostr) : gostr :=
  match tags with
  | [] => []
  | t :: r => match t with
              | k :: v :: _ => if bool_decide (k = name) then v else ExtractTag r name
              | _ => ExtractTag r name
              end
  end.

Definition ExtractChallenge (tags : list (list gostr)) : gostr := ExtractTag tags (bs "challenge").

(** *** Single use *)

Definition NewUsedChallenges : gmap gostr Z := ∅.

(** The entries kept by the pruning loop. *)
Definition prune (now : Z) (seen : gmap gostr Z) : gmap gostr Z := filter (fun kv => (now <=? kv.2) = true) seen.

Definition Consume (challenge : gostr) (nowUnix : Z) : State (gmap gostr Z) bool := fun seen =>
  match seen !! challenge with
  | Some exp => if nowUnix <=? exp then (false, seen) else
      let seen := if (1024 <? Z.of_nat (size seen)) then prune nowUnix seen else seen in
      (true, <[challenge := i64 (nowUnix + ChallengeTTLSeconds)]> seen)
  | None =>
      let seen := if (1024 <? Z.of_nat (size seen)) then prune nowUnix seen else seen in
      (true, <[challenge := i64 (nowUnix + ChallengeTTLSeconds)]> seen)
  end.

(** ** Facts *)

Lemma mac16_bytes secret msg : Forall in_u8 (mac16 secret msg).
Proof. apply Forall_take, hmac_bytes. Qed.

Lemma B64Encode_notin b c : Forall in_u8 b -> c = 46 \/ c = 124 -> c ∉ B64Encode b.
Proof.
  intros Hb Hc Hin. pose proof (B64Encode_chars b Hb) as HF. rewrite Forall_forall in HF.
  destruct (HF c Hin) as (_ & _ & ? & ?). lia.
Qed.

Lemma FormatInt_notin n c : c = 46 \/ c = 124 -> c ∉ FormatInt n.
Proof. intros Hc Hin. apply FormatInt_chars in Hin. lia. Qed.

Lemma Split3 c p0 p1 p2 : c ∉ p0 -> c ∉ p1 -> c ∉ p2 -> Split c ((p0 ++ [c] ++ p1) ++ [c] ++ p2) = [p0; p1; p2].
Proof.
  intros H0 H1 H2. rewrite <- !app_assoc. cbn [app]. rewrite Split_app, Split_app, Split_notin by done. done.
Qed.

Lemma Split3_inv c s p0 p1 p2 : Split c s = [p0; p1; p2] -> s = (p0 ++ [c] ++ p1) ++ [c] ++ p2.
Proof. intros H. rewrite <- (Join_Split c s), H. cbn [Join]. by rewrite <- !app_assoc. Qed.

Lemma Split_parts c s p : p ∈ Split c s -> c ∉ p.
Proof.
  revert p. induction s as [|x s IH]; cbn [Split]; intros p Hp.
  - apply list_elem_of_singleton in Hp as ->. apply not_elem_of_nil.
  - destruct (x =? c) eqn:E; bool_hyps.
    + apply elem_of_cons in Hp as [->|Hp]; [apply not_elem_of_nil|auto].
    + destruct (Split c s) as [|h r] eqn:Es; [by apply Split_nonempty in Es|].
      apply elem_of_cons in Hp as [->|Hp]; [|apply IH; by right]. assert (c ∉ h) by (apply IH; by left).
      rewrite elem_of_cons. intros [?|?]; [lia|done].
Qed.

Lemma split_parts c s p0 p1 p2 : Split c s = [p0; p1; p2] -> (c ∉ p0) /\ (c ∉ p1) /\ (c ∉ p2).
Proof. intros H. repeat split; apply (Split_parts c s); rewrite H; set_solver. Qed.

Lemma addr_bytes a : addr_wf a -> zoneless a -> Forall in_u8 (addr_String a).
Proof.
  intros H1 H2. eapply Forall_weaken; [apply addr_String_chars; done|]. intros c Hc.
  unfold addr_char, hex_char, colon, dot, in_u8 in *. change (2 ^ 8) with 256. lia.
Qed.

Lemma FormatInt_bytes n : Forall in_u8 (FormatInt n).
Proof.
  assert (H : forall m, 0 <= m -> Forall in_u8 (FormatUint 10 m)).
  { intros m Hm. eapply Forall_weaken; [by apply FormatUint10_chars|]. intros c. unfold dec_char, in_u8. change (2 ^ 8) with 256. lia. }
  unfold FormatInt. destruct (n <? 0) eqn:E; bool_hyps; [apply Forall_cons_2; [unfold in_u8; lia|]|]; apply H; lia.
Qed.

Lemma B64Encode_bytes b : Forall in_u8 b -> Forall in_u8 (B64Encode b).
Proof.
  intros Hb. eapply Forall_impl; [exact (B64Encode_ascii b Hb)|]. intros c [H1 H2]. unfold in_u8. change (2 ^ 8) with 256. lia.
Qed.

(** *** The captive token *)

Definition captive_payload (a : Addr) (exp : Z) : gostr := addr_String a ++ [bar_byte] ++ FormatInt exp.

Lemma Sign_decodes secret a exp : addr_wf a -> zoneless a ->
  B64Decode (Sign secret a exp) = Some (captive_payload a exp ++ [bar_byte] ++ B64Encode (mac16 secret (captive_payload a exp))).
Proof.
  intros H1 H2. apply B64Decode_Encode. unfold captive_payload.
  assert (Hbar : Forall in_u8 [bar_byte]) by (apply Forall_singleton; unfold in_u8, bar_byte; lia).
  repeat apply Forall_app_2; auto using addr_bytes, FormatInt_bytes, B64Encode_bytes, mac16_bytes.
Qed.

Lemma captive_split a exp m : addr_wf a -> zoneless a -> Forall in_u8 m ->
  Split bar_byte (captive_payload a exp ++ [bar_byte] ++ B64Encode m) = [addr_String a; FormatInt exp; B64Encode m].
Proof.
  intros H1 H2 Hm. apply Split3.
  - intros Hin. pose proof (addr_String_chars a H1 H2) as HF. rewrite Forall_forall in HF. specialize (HF _ Hin).
    unfold addr_char, hex_char, colon, dot, bar_byte in HF. lia.
  - apply FormatInt_notin. by right.
  - apply B64Encode_notin; [done|by right].
Qed.

(** A signed token verifies to its address until it expires. *)
Lemma Verify_Sign secret a exp now : addr_wf a -> zoneless a -> in_i64 exp ->
  Verify secret (Sign secret a exp) now = if exp <? now then Err ErrExpired else Ok a.
Proof.
  intros H1 H2 He. unfold Verify. rewrite Sign_decodes, captive_split by auto using mac16_bytes.
  rewrite B64Decode_Encode by apply mac16_bytes. unfold captive_payload. rewrite bool_decide_eq_true_2 by done. cbn [negb].
  rewrite ParseInt_FormatInt by done. destruct (exp <? now); [done|]. by rewrite ParseAddr_String.
Qed.

(** Captive tokens: a token signed for an address verifies to exactly that
    address until its expiry and is reported as expired afterwards; and any token
    the portal accepts carries the MAC, under the shared secret, of the very text
    the address and the expiry are read from, so a token made from a signed
    payload names the signed address and is not past the signed expiry. *)
Theorem captive_token secret :
  (forall a exp now, addr_wf a -> zoneless a -> in_i64 exp ->
     Verify secret (Sign secret a exp) now = if exp <? now then Err ErrExpired else Ok a) /\
  (forall token now a, Verify secret token now = Ok a ->
     exists payload m, B64Decode token = Some (payload ++ [bar_byte] ++ m) /\ B64Decode m = Some (mac16 secret payload) /\
       forall a0 exp0, addr_wf a0 -> zoneless a0 -> in_i64 exp0 -> payload = captive_payload a0 exp0 -> a = a0 /\ now <= exp0).
Proof.
  split.
  - intros a exp now. apply Verify_Sign.
  - intros token now a H. unfold Verify in H. destruct (B64Decode token) as [raw|]; [|done].
    destruct (Split bar_byte raw) as [|p0 [|p1 [|p2 [|]]]] eqn:Es; try done.
    destruct (B64Decode p2) as [got|] eqn:E2; [|done]. case_bool_decide as Em; [|done]. cbn [negb] in H. subst got.
    destruct (ParseInt p1) as [e|] eqn:E1; [|done]. destruct (e <? now) eqn:En; [done|]. bool_hyps.
    destruct (ParseAddr p0) as [a'|] eqn:E0; [|done]. injection H as <-. exists (p0 ++ [bar_byte] ++ p1), p2.
    split; [f_equal; by apply Split3_inv|]. split; [done|]. intros a0 exp0 W Z I Hp.
    assert (Hs : Split bar_byte (p0 ++ [bar_byte] ++ p1) = [addr_String a0; FormatInt exp0]).
    { rewrite Hp. unfold captive_payload. cbn [app]. rewrite Split_app, Split_notin; [done|by apply FormatInt_notin; right|].
      intros Hin. pose proof (addr_String_chars a0 W Z) as HF. rewrite Forall_forall in HF. specialize (HF _ Hin).
      unfold addr_char, hex_char, colon, dot, bar_byte in HF. lia. }
    assert (Hs' : Split bar_byte (p0 ++ [bar_byte] ++ p1) = [p0; p1]).
    { apply split_parts in Es as (N0 & N1 & N2). cbn [app]. by rewrite Split_app, Split_notin. }
    rewrite Hs in Hs'. injection Hs' as <- <-. rewrite ParseAddr_String in E0 by done. rewrite ParseInt_FormatInt in E1 by done.
    split; congruence || (injection E1 as ->; lia).
Qed.

(** *** The session cookie *)

(** Sessions: the cookie set for an npub reads back as that npub for the
    seven days of its life and as no session afterwards; and whatever value is
    accepted ends in the MAC, under the session secret, of the text before it,
    from which the npub is decoded. *)
Theorem session_cookie secret npub t now :
  Forall in_u8 npub -> in_i64 (session_expiry t) ->
  session secret (Some (setSession secret npub t)) now = (if session_expiry t <? time_Unix now then None else Some npub) /\
  forall value npub', session secret (Some value) now = Some npub' ->
    exists p0 p1, value = (p0 ++ [dot_byte] ++ p1) ++ [dot_byte] ++ sessionMAC secret (p0 ++ [dot_byte] ++ p1) /\
      B64Decode p0 = Some npub' /\ exists exp, ParseInt p1 = Some exp /\ time_Unix now <= exp.
Proof.
  intros Hn He. split.
  - unfold session, setSession. rewrite Split3.
    + rewrite bool_decide_eq_true_2 by done. cbn [negb]. rewrite ParseInt_FormatInt by done.
      destruct (_ <? _); [done|]. by apply B64Decode_Encode.
    + apply B64Encode_notin; [done|by left].
    + apply FormatInt_notin. by left.
    + apply B64Encode_notin; [apply mac16_bytes|by left].
  - intros value npub' H. unfold session in H. destruct (Split dot_byte value) as [|p0 [|p1 [|p2 [|]]]] eqn:Es; try done.
    case_bool_decide as Em; [|done]. cbn [negb] in H. subst p2. destruct (ParseInt p1) as [e|] eqn:E1; [|done].
    destruct (e <? time_Unix now) eqn:En; [done|]. bool_hyps. exists p0, p1. split; [by apply Split3_inv|]. split; [done|]. exists e. done.
Qed.

(** *** Login challenges *)

Lemma VerifyChallenge_issued secret nonce t0 now : Forall in_u8 nonce -> in_i64 (t0 + ChallengeTTLSeconds) ->
  VerifyChallenge secret (IssueChallenge secret nonce t0) now =
  if t0 + ChallengeTTLSeconds <? now then Err ChallengeExpired else Ok tt.
Proof.
  intros Hn Ht. unfold VerifyChallenge, IssueChallenge. rewrite (i64_small _ Ht), Split3.
  - rewrite bool_decide_eq_true_2 by done. cbn [negb]. by rewrite ParseInt_FormatInt.
  - apply B64Encode_notin; [done|by left].
  - apply FormatInt_notin. by left.
  - apply B64Encode_notin; [apply mac16_bytes|by left].
Qed.

(** One presentation of a challenge, as the portal handles it: [Consume] is
    reached only by a challenge that verifies. *)
Definition present (secret : list Z) (p : Z * gostr) : State (gmap gostr Z) bool :=
  if is_ok (VerifyChallenge secret p.2 p.1) then Consume p.2 p.1 else mret false.

(** How often [c] was accepted over a series of presentations. *)
Fixpoint accepted (secret : list Z) (c : gostr) (l : list (Z * gostr)) (seen : gmap gostr Z) : nat :=
  match l with
  | [] => 0
  | p :: r =>
      let '(ok, seen') := present secret p seen in
      (if ok && bool_decide (p.2 = c) then 1 else 0) + accepted secret c r seen'
  end.

(** [c], dead from [dead] on, cannot be accepted any more. *)
Definition spent (c : gostr) (dead now : Z) (seen : gmap gostr Z) : Prop :=
  dead < now \/ exists e, seen !! c = Some e /\ dead <= e.

Lemma Consume_other c c' now seen e : c' <> c -> seen !! c = Some e -> now <= e -> (Consume c' now seen).2 !! c = Some e.
Proof.
  intros Hne Hc He. unfold Consume.
  assert (Hk : forall x, (<[c' := x]> (if 1024 <? Z.of_nat (size seen) then prune now seen else seen)) !! c = Some e).
  { intros x. rewrite lookup_insert_ne by done. destruct (_ <? _); [|done]. unfold prune. apply map_lookup_filter_Some. split; [done|].
    cbn [snd]. by apply Z.leb_le. }
  destruct (seen !! c'); [destruct (_ <=? _)|]; cbn [snd]; auto.
Qed.

Lemma spent_never secret c dead l t seen :
  (forall now, is_ok (VerifyChallenge secret c now) = true -> now <= dead) ->
  StronglySorted Z.le (t :: l.*1) -> spent c dead t seen -> accepted secret c l seen = 0%nat.
Proof.
  intros Hv. revert t seen. induction l as [|[now c'] l IH]; intros t seen Hs Hsp; [done|]. cbn [accepted].
  apply StronglySorted_inv in Hs as [Hs Ht]. cbn in Ht. apply Forall_cons in Ht as [Ht _]. cbn in Hs.
  assert (Hsp' : spent c dead now seen) by (destruct Hsp as [?|?]; [left; lia|by right]).
  unfold present. cbn [fst snd]. destruct (decide (c' = c)) as [->|Hne].
  - destruct (is_ok (VerifyChallenge secret c now)) eqn:Ev.
    + apply Hv in Ev. destruct Hsp' as [?|(e & He & Hd)]; [lia|]. unfold Consume. rewrite He.
      rewrite (proj2 (Z.leb_le now e)) by lia. cbn [andb]. apply (IH now); [done|]. right. by exists e.
    + cbn. by apply (IH now).
  - rewrite (bool_decide_eq_false_2 (c' = c)) by done. 
    assert (Hk : forall ok s, (ok, s) = (if is_ok (VerifyChallenge secret c' now) then Consume c' now else mret false) seen -> spent c dead now s).
    { intros ok s E. destruct (is_ok _); [|cbn in E; by injection E as _ ->]. destruct Hsp' as [?|(e & He & Hd)]; [by left|].
      destruct (decide (now <= e)); [|left; lia]. right. exists e. split; [|done].
      pose proof (Consume_other c c' now seen e Hne He ltac:(done)) as Hc. rewrite <- E in Hc. done. }
    destruct ((if is_ok (VerifyChallenge secret c' now) then Consume c' now else mret false) seen) as [ok s] eqn:E. rewrite andb_false_r. cbn. apply (IH now); [done|]. by apply (Hk ok).
Qed.

(** [C31] A login challenge is good for one login: over any series of
    presentations after it was issued (of any challenges, valid or not, in any
    number, on any earlier state of the memory), the issued challenge is accepted
    at most once, and only within two minutes. *)
Theorem challenge_single_use secret nonce t0 l seen :
  Forall in_u8 nonce -> (forall t, t ∈ t0 :: l.*1 -> in_i64 (t + ChallengeTTLSeconds)) -> StronglySorted Z.le (t0 :: l.*1) ->
  (accepted secret (IssueChallenge secret nonce t0) l seen <= 1)%nat.
Proof.
  intros Hn Hr Hs. set (c := IssueChallenge secret nonce t0).
  assert (Hv : forall now, is_ok (VerifyChallenge secret c now) = true -> now <= t0 + ChallengeTTLSeconds).
  { intros now. unfold c. rewrite VerifyChallenge_issued; [|done|apply Hr; by left]. destruct (_ <? now) eqn:E; [done|]. bool_hyps. done. }
  assert (H : forall l t seen, (forall x, x ∈ t :: l.*1 -> in_i64 (x + ChallengeTTLSeconds)) -> t0 <= t -> StronglySorted Z.le (t :: l.*1) ->
    (accepted secret c l seen <= 1)%nat); [|by apply (H l t0)].
  clear Hr Hs l seen. intros l. induction l as [|[now c'] l IH]; intros t seen Hr Ht Hs; [cbn; lia|]. cbn [accepted].
  apply StronglySorted_inv in Hs as [Hs Ht']. cbn in Ht'. apply Forall_cons in Ht' as [Ht' _]. cbn in Hs.
  assert (Hr' : forall x, x ∈ now :: l.*1 -> in_i64 (x + ChallengeTTLSeconds)) by (intros x Hx; apply Hr; by right).
  destruct (present secret (now, c') seen) as [ok s] eqn:Ep. destruct (ok && bool_decide (_ = c)) eqn:Ea; [|cbn; apply (IH now); try done; lia].
  bool_hyps. cbn [snd] in *. subst c'. rewrite (spent_never secret c (t0 + ChallengeTTLSeconds) l now); [done|done|done|].
  right. unfold present in Ep. cbn [fst snd] in Ep. destruct (is_ok _); [|unfold mret, state_ret in Ep; congruence]. exists (now + ChallengeTTLSeconds). split; [|lia].
  unfold Consume in Ep. rewrite (i64_small (now + _)) in Ep by (apply Hr'; by left).
  destruct (seen !! c); [destruct (_ <=? _)|]; injection Ep as ? <-; congruence || apply lookup_insert_eq.
Qed.

(** ** Examples *)

(** A session opened in 2024, read an hour later. *)
Definition session_t : Z := 63839664000 * time_Second.

Lemma session_cookie_witness :
  session (bs "k") (Some (setSession (bs "k") (bs "npub1x") session_t)) (session_t + 60 * time_Minute) = Some (bs "npub1x").
Proof.
  rewrite (proj1 (session_cookie (bs "k") (bs "npub1x") session_t (session_t + 60 * time_Minute)
    ltac:(apply (bool_decide_unpack _); vm_compute; exact I) ltac:(vm_compute; split; congruence))).
  vm_compute. reflexivity.
Defined.

(** The same challenge presented three times. *)
Definition challenge1 : gostr := IssueChallenge (bs "k") [1; 2] 100.

Definition three_times : list (Z * gostr) := [(101, challenge1); (102, challenge1); (230, challenge1)].

Lemma challenge_single_use_witness : (accepted (bs "k") challenge1 three_times ∅ <= 1)%nat.
Proof.
  apply (challenge_single_use (bs "k") [1; 2] 100 three_times ∅).
  - repeat (apply Forall_cons_2; [unfold in_u8; lia|]); apply Forall_nil_2.
  - intros t Ht. cbn in Ht. rewrite !elem_of_cons in Ht. unfold in_i64, ChallengeTTLSeconds, int64_min, int64_max.
    destruct Ht as [ -> |[ -> |[ -> |[ -> |Ht]]]]; try lia. by apply elem_of_nil in Ht.
  - cbn. do 4 (apply SSorted_cons; [|repeat (apply Forall_cons_2; [lia|]); apply Forall_nil_2]). apply SSorted_nil.
Defined.

End Tokens.
