(* ===== verification/Dispatch.v ===== *)
(** * dispatch: the SOCKS front end

    Models dispatch/socks.go, dispatch/route.go and the connection handler, the
    configuration and the idle watchdog of dispatch/main.go.  A connection is the
    bytes the peer sends until it closes, the bytes written to it so far and a
    script of failing writes; the handshake code runs in a state and error monad
    over it.  Dialing an upstream is an argument of the handler.  Deadlines show
    as a peer that stops sending. *)

From S2P Require Import Prelude GoStrings Netip.

(** Case and white space beyond ASCII follow the Unicode tables of the Go library,
    which are not reproduced: these are what [strings.ToLower], [strings.TrimSpace]
    and [strings.EqualFold] return for a text with a byte above 127. *)
Class GoUnicode := {
  unicode_ToLower : gostr -> gostr;
  unicode_TrimSpace : gostr -> gostr;
  unicode_EqualFold : gostr -> gostr -> bool;
  unicode_TrimSpace_sub : forall s, exists a b, s = a ++ unicode_TrimSpace s ++ b
}.

Module Dispatch.

Definition is_ascii (s : gostr) : bool := forallb (fun c => c <? 128) s.

Definition strings_ToLower `{GoUnicode} (s : gostr) : gostr :=
  if is_ascii s then ToLower s else unicode_ToLower s.

Definition strings_TrimSpace `{GoUnicode} (s : gostr) : gostr :=
  if is_ascii s then TrimSpace s else unicode_TrimSpace s.

Definition strings_EqualFold `{GoUnicode} (s t : gostr) : bool :=
  if is_ascii s && is_ascii t then bool_decide (ToLower s = ToLower t) else unicode_EqualFold s t.

(** ** Connections *)

Record conn := { cn_in : list Z; cn_out : list Z; cn_fails : list bool }.

Inductive sock_err :=
| ShortRead
| WriteFailed
| NotSocks5
| NoMethod
| errUnsupported
| DialFailed
| RefusedAuth
| BadLiteral
| BadAtyp.

Definition Conn (A : Type) : Type := conn -> result sock_err A * conn.

#[export] Instance conn_ret : MRet Conn := fun A a c => (Ok a, c).
#[export] Instance conn_bind : MBind Conn :=
  fun A B f m c => match m c with
                   | (Ok a, c') => f a c'
                   | (Err e, c') => (Err e, c')
                   end.
Definition fail {A} (e : sock_err) : Conn A := fun c => (Err e, c).

(** [io.ReadFull] of [n] bytes. *)
Definition ReadFull (n : nat) : Conn (list Z) := fun c =>
  if bool_decide (n <= length (cn_in c))%nat
  then (Ok (take n (cn_in c)), {| cn_in := drop n (cn_in c); cn_out := cn_out c; cn_fails := cn_fails c |})
  else (Err ShortRead, {| cn_in := []; cn_out := cn_out c; cn_fails := cn_fails c |}).

(** A failing write delivers nothing; a write that fails half way is not represented. *)
Definition Write (b : list Z) : Conn unit := fun c =>
  match cn_fails c with
  | true :: r => (Err WriteFailed, {| cn_in := cn_in c; cn_out := cn_out c; cn_fails := r |})
  | f => (Ok tt, {| cn_in := cn_in c; cn_out := cn_out c ++ b; cn_fails := tail f |})
  end.

(** [_ = f()] *)
Definition ignore_err (m : Conn unit) : Conn unit := fun c => (Ok tt, (m c).2).

(** ** The protocol's numbers *)

Definition ver : Z := 0x05.
Definition methNoAuth : Z := 0x00.
Definition methNoAccept : Z := 0xff.
Definition cmdConnect : Z := 0x01.
Definition atypIPv4 : Z := 0x01.
Definition atypDomain : Z := 0x03.
Definition atypIPv6 : Z := 0x04.
Definition repSucceeded : Z := 0x00.
Definition repGeneralFailure : Z := 0x01.
Definition repNotAllowed : Z := 0x02.
Definition repHostUnreachable : Z := 0x04.
Definition repCmdNotSupported : Z := 0x07.
Definition repAtypNotSupported : Z := 0x08.

(** ** Package net *)

(** [net.IP.String] of 4 or 16 bytes. *)
Definition IP_String (b : list Z) : gostr :=
  match length b with
  | 4%nat => addr_String (AddrFrom4 b)
  | _ => addr_String (Unmap (AddrFrom16 b))
  end.

Definition addr_Zone (a : Addr) : gostr :=
  match a with
  | Addr6 _ z => z
  | _ => []
  end.

(** [net.ParseIP]: always 16 bytes. *)
Definition ParseIP (s : gostr) : option (list Z) :=
  match ParseAddr s with
  | None => None
  | Some a => if bool_decide (addr_Zone a = []) then Some (As16 a) else None
  end.

Definition To4 (ip : list Z) : option (list Z) :=
  if bool_decide (take 12 ip = replicate 10 0 ++ [255; 255]) then Some (drop 12 ip) else None.

(** ** Server side *)

Definition negotiate : Conn unit :=
  hdr ← ReadFull 2;
  if negb (nth 0 hdr 0 =? ver) then fail NotSocks5 else
  methods ← ReadFull (Z.to_nat (nth 1 hdr 0));
  if existsb (Z.eqb methNoAuth) methods then Write [ver; methNoAuth]
  else ignore_err (Write [ver; methNoAccept]) ;; fail NoMethod.

Definition writeReply (rep : Z) : Conn unit := Write [ver; rep; 0x00; atypIPv4; 0; 0; 0; 0; 0; 0].

(** The [switch] on the address type: the host. *)
Definition readHost (atyp : Z) : Conn gostr :=
  if atyp =? atypIPv4 then b ← ReadFull 4; mret (IP_String b)
  else if atyp =? atypIPv6 then b ← ReadFull 16; mret (IP_String b)
  else if atyp =? atypDomain then
    lb ← ReadFull 1;
    ReadFull (Z.to_nat (nth 0 lb 0))
  else ignore_err (writeReply repAtypNotSupported) ;; fail errUnsupported.

Record target := { tg_atyp : Z; tg_host : gostr; tg_port : Z }.

Definition readConnect : Conn target :=
  h ← ReadFull 4;
  if negb (nth 0 h 0 =? ver) then fail NotSocks5 else
  let atyp := nth 3 h 0 in
  host ← readHost atyp;
  pb ← ReadFull 2;
  let port := Z.lor (u16 (Z.shiftl (nth 0 pb 0) 8)) (nth 1 pb 0) in
  if negb (nth 1 h 0 =? cmdConnect) then ignore_err (writeReply repCmdNotSupported) ;; fail errUnsupported
  else mret {| tg_atyp := atyp; tg_host := host; tg_port := port |}.

(** ** Client side *)

Definition readReply : Conn (list Z) :=
  h ← ReadFull 4;
  let atyp := nth 3 h 0 in
  if atyp =? atypIPv4 then rest ← ReadFull (4 + 2); mret (h ++ rest)
  else if atyp =? atypIPv6 then rest ← ReadFull (16 + 2); mret (h ++ rest)
  else if atyp =? atypDomain then
    lb ← ReadFull 1;
    rest ← ReadFull (Z.to_nat (nth 0 lb 0) + 2);
    mret ((h ++ lb) ++ rest)
  else fail BadAtyp.

(** The address field of the forwarded request; [None] is a bad literal. *)
Definition request_addr (atyp : Z) (host : gostr) : option (list Z) :=
  if atyp =? atypDomain then Some (u8 (Z.of_nat (length host)) :: host)
  else if atyp =? atypIPv4 then ip ← ParseIP host; To4 ip
  else if atyp =? atypIPv6 then ParseIP host
  else Some [].

(** [dialThrough] on the connection that was opened. *)
Definition connectThrough (t : target) : Conn (list Z) :=
  Write [ver; 1; methNoAuth] ;;
  sel ← ReadFull 2;
  if negb (nth 0 sel 0 =? ver) || negb (nth 1 sel 0 =? methNoAuth) then fail RefusedAuth else
  match request_addr (tg_atyp t) (tg_host t) with
  | None => fail BadLiteral
  | Some addr =>
      Write ([ver; cmdConnect; 0x00; tg_atyp t] ++ addr ++ [u8 (Z.shiftr (tg_port t) 8); u8 (tg_port t)]) ;;
      readReply
  end.

(** ** Routing and configuration *)

Record config := {
  cf_listen : gostr; cf_clearnetUpstream : gostr; cf_torUpstream : gostr; cf_onionSuffix : gostr;
  cf_dialTimeout : Z; cf_handshakeTimeout : Z; cf_idleTimeout : Z; cf_maxLifetime : Z; cf_maxConns : Z
}.

(** [env k] is [os.Getenv(k)], empty for an unset variable. *)
Definition getenv (env : gostr -> gostr) (k def : gostr) : gostr :=
  if bool_decide (env k = []) then def else env k.

Definition getenvInt (env : gostr -> gostr) (k : gostr) (def : Z) : Z :=
  if bool_decide (env k = []) then def else
  match ParseInt (env k) with
  | Some n => n
  | None => def
  end.

Definition loadConfig (env : gostr -> gostr) : config :=
  {| cf_listen := getenv env (bs "DISPATCH_LISTEN") (bs "[::1]:1080");
     cf_clearnetUpstream := getenv env (bs "DISPATCH_CLEARNET_UPSTREAM") (bs "127.0.0.1:1090");
     cf_torUpstream := getenv env (bs "DISPATCH_TOR_UPSTREAM") (bs "127.0.0.1:9052");
     cf_onionSuffix := getenv env (bs "DISPATCH_ONION_SUFFIX") (bs ".onion");
     cf_dialTimeout := i64 (getenvInt env (bs "DISPATCH_DIAL_TIMEOUT_S") 15 * time_Second);
     cf_handshakeTimeout := i64 (getenvInt env (bs "DISPATCH_HANDSHAKE_TIMEOUT_S") 15 * time_Second);
     cf_idleTimeout := i64 (getenvInt env (bs "DISPATCH_IDLE_TIMEOUT_S") 7200 * time_Second);
     cf_maxLifetime := i64 (getenvInt env (bs "DISPATCH_MAX_LIFETIME_S") 0 * time_Second);
     cf_maxConns := getenvInt env (bs "DISPATCH_MAX_CONNS") 4096 |}.

Section Handler.
Context `{GoUnicode}.

Definition isOnion (host suffix : gostr) : bool :=
  HasSuffix (strings_ToLower (TrimSuffix host (bs "."))) suffix.

Definition pickUpstream (host : gostr) (isDomain : bool) (cfg : config) : gostr * Z :=
  if isDomain && isOnion host (cf_onionSuffix cfg) then
    if bool_decide (cf_torUpstream cfg = []) then ([], repNotAllowed) else (cf_torUpstream cfg, repSucceeded)
  else (cf_clearnetUpstream cfg, repSucceeded).

(** ** One connection *)

(** [relay] without its time limits: each side is sent what the other sends until
    it closes. *)
Definition relay (a b : conn) : conn * conn :=
  let a' := (Write (cn_in b) a).2 in
  let b' := (Write (cn_in a) b).2 in
  ({| cn_in := []; cn_out := cn_out a'; cn_fails := cn_fails a' |},
   {| cn_in := []; cn_out := cn_out b'; cn_fails := cn_fails b' |}).

(** What a connection led to: the client's side at the end, the upstream that was
    dialed with its side if it answered, and whether a tunnel was opened. *)
Record handled := { h_client : conn; h_dialed : option gostr; h_upstream : option conn; h_tunnel : bool }.

Definition ended (c : conn) : handled :=
  {| h_client := c; h_dialed := None; h_upstream := None; h_tunnel := false |}.

(** [dial] opens a connection to an upstream address. *)
Definition handle (dial : gostr -> option conn) (cfg : config) (client : conn) : handled :=
  match (negotiate ;; readConnect) client with
  | (Err _, client) => ended client
  | (Ok t, client) =>
      let '(upstream, rep) := pickUpstream (tg_host t) (tg_atyp t =? atypDomain) cfg in
      if negb (rep =? repSucceeded) then ended (writeReply rep client).2 else
      match dial upstream with
      | None => {| h_client := (writeReply repHostUnreachable client).2; h_dialed := Some upstream;
                   h_upstream := None; h_tunnel := false |}
      | Some up =>
          match connectThrough t up with
          | (Err _, up) => {| h_client := (writeReply repHostUnreachable client).2; h_dialed := Some upstream;
                              h_upstream := Some up; h_tunnel := false |}
          | (Ok reply, up) =>
              match Write reply client with
              | (Err _, client) => {| h_client := client; h_dialed := Some upstream; h_upstream := Some up; h_tunnel := false |}
              | (Ok _, client) =>
                  if negb (nth 1 reply 0 =? repSucceeded)
                  then {| h_client := client; h_dialed := Some upstream; h_upstream := Some up; h_tunnel := false |}
                  else let '(client, up) := relay client up in
                       {| h_client := client; h_dialed := Some upstream; h_upstream := Some up; h_tunnel := true |}
              end
          end
      end
  end.
End Handler.

(** ** The idle watchdog *)

(** The ticker's period. *)
Definition watch_interval (idle : Z) : Z :=
  let iv := Z.quot idle 4 in
  if iv <? time_Second then time_Second else iv.

Inductive verdict := keep_watching | stop_watching | close_both.

(** One tick; [None] is a connection without the kernel's signal. *)
Definition watch_tick (idle : Z) (ia ib : option Z) : verdict :=
  match ia, ib with
  | Some ia, Some ib => if (idle <=? ia) && (idle <=? ib) then close_both else keep_watching
  | _, _ => stop_watching
  end.

(** [idleWatchdog] over the ticks [k], [k+1], ... : the tick that closed the
    tunnel.  [since n] are the readings at tick [n]. *)
Fixpoint idleWatchdog (idle : Z) (since : nat -> option Z * option Z) (k fuel : nat) : option nat :=
  match fuel with
  | O => None
  | S fuel =>
      match watch_tick idle (since k).1 (since k).2 with
      | close_both => Some k
      | stop_watching => None
      | keep_watching => idleWatchdog idle since (S k) fuel
      end
  end.

End Dispatch.
