(* ===== verification/DispatchFacts.v ===== *)
(** * dispatch: theorems about the SOCKS front end

    What the client asks for reaches the upstream byte for byte and the upstream's
    answer comes back the same way; a client is never told of a success the
    upstream did not report; the watchdog closes idle tunnels and no others. *)

From S2P Require Import Prelude GoStrings Netip Dispatch.
Import Dispatch.

Module DispatchFacts.

(** ** Addresses through their text *)

Section Literals.

Lemma mapped_bytes b : Forall in_u8 b -> length b = 4%nat ->
  digits_be 256 16 (mapped_prefix + undigits 256 b) = replicate 10 0 ++ [255; 255] ++ b.
Proof.
  intros Hb Hl. destruct b as [|x0 [|x1 [|x2 [|x3 [|]]]]]; try done.
  rewrite <- (digits_undigits 256 (replicate 10 0 ++ [255; 255] ++ [x0; x1; x2; x3])).
  - f_equal. unfold undigits, mapped_prefix. cbn [replicate app foldl]. change (Z.shiftl 65535 32) with (65535 * 2 ^ 32). lia.
  - lia.
  - rewrite !Forall_app. split; [apply Forall_replicate; lia|]. split; [repeat constructor; lia|]. exact Hb.
Qed.

Lemma from4_wf b : Forall in_u8 b -> length b = 4%nat -> addr_wf (AddrFrom4 b).
Proof. intros Hb Hl. pose proof (undigits_bound 256 b ltac:(lia) Hb) as H. rewrite Hl in H. exact H. Qed.

Lemma from16_wf b : Forall in_u8 b -> length b = 16%nat -> addr_wf (AddrFrom16 b).
Proof. intros Hb Hl. pose proof (undigits_bound 256 b ltac:(lia) Hb) as H. rewrite Hl in H. exact H. Qed.

(** An address that goes through its text comes back as its 16 bytes. *)
Lemma ParseIP_String a : addr_wf a -> zoneless a -> ParseIP (addr_String a) = Some (As16 a).
Proof. intros Ha Hz. unfold ParseIP. rewrite ParseAddr_String by done. by rewrite bool_decide_true by by destruct a. Qed.

Lemma literal4 b : Forall in_u8 b -> length b = 4%nat -> (ip ← ParseIP (IP_String b); To4 ip) = Some b.
Proof.
  intros Hb Hl. unfold IP_String. rewrite Hl, ParseIP_String by (done || by apply from4_wf).
  cbn [mbind option_bind]. change (As16 (AddrFrom4 b)) with (digits_be 256 16 (mapped_prefix + undigits 256 b)). rewrite mapped_bytes by done. unfold To4. by rewrite bool_decide_true.
Qed.

Lemma literal16 b : Forall in_u8 b -> length b = 16%nat -> ParseIP (IP_String b) = Some b.
Proof.
  intros Hb Hl. pose proof (from16_wf b Hb Hl) as Hw. unfold IP_String. rewrite Hl. unfold AddrFrom16 in *.
  assert (E : digits_be 256 16 (undigits 256 b) = b) by (rewrite <- Hl at 1; apply digits_undigits; [lia|exact Hb]).
  unfold Unmap. destruct (Is4In6 _) eqn:E4.
  - destruct (Is4In6_split _ _ Hw E4) as [Hv Hm]. rewrite ParseIP_String by done. f_equal.
    change (As16 (Addr4 ?x)) with (digits_be 256 16 (mapped_prefix + x)). by rewrite <- Hv.
  - rewrite ParseIP_String by done. f_equal. exact E.
Qed.

End Literals.

(** ** Messages *)

(** The address field of a request or a reply for the type [atyp]. *)
Inductive addr_field : Z -> list Z -> Prop :=
| field4 b : length b = 4%nat -> addr_field atypIPv4 b
| field16 b : length b = 16%nat -> addr_field atypIPv6 b
| field_domain n name : n = Z.of_nat (length name) -> addr_field atypDomain (n :: name).

(** The host the dispatcher routes by. *)
Definition host_of (atyp : Z) (field : list Z) : gostr :=
  if atyp =? atypDomain then tail field else IP_String field.

Definition greeting (methods : list Z) : list Z := ver :: Z.of_nat (length methods) :: methods.
Definition request (cmd rsv atyp : Z) (field port : list Z) : list Z := [ver; cmd; rsv; atyp] ++ field ++ port.

Definition with_in (c : conn) (input : list Z) : conn :=
  {| cn_in := input; cn_out := cn_out c; cn_fails := cn_fails c |}.

Lemma ReadFull_app n c a r : cn_in c = a ++ r -> length a = n -> ReadFull n c = (Ok a, with_in c r).
Proof.
  intros E Hl. unfold ReadFull. rewrite E, bool_decide_true by (rewrite length_app; lia).
  subst n. by rewrite take_app_length, drop_app_length.
Qed.

(** Nothing fails to be written. *)
Definition healthy (c : conn) : Prop := cn_fails c = [].

Definition wrote (c : conn) (b : list Z) : conn :=
  {| cn_in := cn_in c; cn_out := cn_out c ++ b; cn_fails := cn_fails c |}.

Lemma Write_healthy c b : healthy c -> Write b c = (Ok tt, wrote c b).
Proof. intros H. unfold Write, wrote, healthy in *. by rewrite H. Qed.

Lemma request_addr_field atyp field : Forall in_u8 field -> addr_field atyp field ->
  request_addr atyp (host_of atyp field) = Some field.
Proof.
  intros Hb Hf. destruct Hf as [b Hl|b Hl|n name ->]; unfold request_addr, host_of; cbn.
  - by apply literal4.
  - by apply literal16.
  - apply Forall_cons in Hb as [Hn _]. unfold u8. by rewrite Z.mod_small.
Qed.

Lemma readHost_field atyp field c r : Forall in_u8 field -> addr_field atyp field -> cn_in c = field ++ r ->
  readHost atyp c = (Ok (host_of atyp field), with_in c r).
Proof.
  intros Hb Hf E. destruct Hf as [b Hl|b Hl|n name ->]; unfold readHost, host_of; cbn [atypIPv4 atypIPv6 atypDomain Z.eqb Pos.eqb];
    unfold mbind, conn_bind.
  - by rewrite (ReadFull_app 4 c b r).
  - by rewrite (ReadFull_app 16 c b r).
  - rewrite (ReadFull_app 1 c [Z.of_nat (length name)] (name ++ r)) by done. cbn [nth tail]. rewrite Nat2Z.id.
    by rewrite (ReadFull_app _ (with_in c (name ++ r)) name r).
Qed.

Lemma negotiate_ok methods c r : healthy c -> methNoAuth ∈ methods -> cn_in c = greeting methods ++ r ->
  negotiate c = (Ok tt, wrote (with_in c r) [ver; methNoAuth]).
Proof.
  intros Hh Hm E. unfold negotiate, mbind, conn_bind.
  rewrite (ReadFull_app 2 c [ver; Z.of_nat (length methods)] (methods ++ r)) by done. cbn [nth]. rewrite Z.eqb_refl, Nat2Z.id. cbn [negb].
  rewrite (ReadFull_app _ (with_in c (methods ++ r)) methods r) by done.
  assert (Ex : existsb (Z.eqb methNoAuth) methods = true) by (apply existsb_exists; exists methNoAuth; split; [by apply list_elem_of_In|done]).
  rewrite Ex, Write_healthy by done. done.
Qed.

Lemma lor_high_low a b : 0 <= b < 2 ^ 8 -> Z.lor (a * 2 ^ 8) b = a * 2 ^ 8 + b.
Proof.
  intros Hb. pose proof (Z.add_lor_land (a * 2 ^ 8) b) as Hs. assert (E : Z.land (a * 2 ^ 8) b = 0); [|lia].
  apply Z.bits_inj'. intros n Hn. rewrite Z.land_spec, Z.bits_0. destruct (decide (n < 8)) as [Hl|Hl].
  - by rewrite Z.mul_pow2_bits_low.
  - rewrite andb_comm. rewrite <- (Z.mod_small b (2 ^ 8)), Z.mod_pow2_bits_high by lia. done.
Qed.

Lemma port_value p0 p1 : in_u8 p0 -> in_u8 p1 ->
  let port := Z.lor (u16 (Z.shiftl p0 8)) p1 in [u8 (Z.shiftr port 8); u8 port] = [p0; p1].
Proof.
  intros H0 H1 port. unfold in_u8 in *. assert (E : port = p0 * 2 ^ 8 + p1).
  { unfold port, u16. rewrite Z.shiftl_mul_pow2, (Z.mod_small (p0 * 2 ^ 8)) by lia. by apply lor_high_low. }
  rewrite E. unfold u8. rewrite Z.shiftr_div_pow2, Z.div_add_l, Z.div_small, Z.add_0_r by lia.
  rewrite (Z.add_comm (p0 * 2 ^ 8)), Z_mod_plus_full, !Z.mod_small by lia. done.
Qed.

Lemma readConnect_ok rsv atyp field p0 p1 c r : Forall in_u8 field -> addr_field atyp field -> in_u8 p0 -> in_u8 p1 ->
  cn_in c = request cmdConnect rsv atyp field [p0; p1] ++ r ->
  readConnect c = (Ok {| tg_atyp := atyp; tg_host := host_of atyp field; tg_port := Z.lor (u16 (Z.shiftl p0 8)) p1 |}, with_in c r).
Proof.
  intros Hb Hf H0 H1 E. unfold readConnect, mbind, conn_bind.
  rewrite (ReadFull_app 4 c [ver; cmdConnect; rsv; atyp] (field ++ [p0; p1] ++ r)) by (rewrite ?E; unfold request; by rewrite <- ?app_assoc).
  cbn [nth]. rewrite Z.eqb_refl. cbn [negb]. rewrite (readHost_field atyp field _ ([p0; p1] ++ r)) by done.
  rewrite (ReadFull_app 2 _ [p0; p1] r) by done. cbn [nth]. rewrite Z.eqb_refl. done.
Qed.

(** A reply: version, code, reserved byte, address type, address, port. *)
Definition reply_of (v rep rsv atyp : Z) (field port : list Z) : list Z := [v; rep; rsv; atyp] ++ field ++ port.

Lemma readReply_ok v rep rsv atyp field port c r : addr_field atyp field -> length port = 2%nat ->
  cn_in c = reply_of v rep rsv atyp field port ++ r ->
  readReply c = (Ok (reply_of v rep rsv atyp field port), with_in c r).
Proof.
  intros Hf Hp E. unfold readReply, mbind, conn_bind.
  rewrite (ReadFull_app 4 c [v; rep; rsv; atyp] ((field ++ port) ++ r)) by (rewrite ?E; unfold reply_of; by rewrite <- ?app_assoc).
  cbn [nth]. destruct Hf as [b Hl|b Hl|n name ->]; cbn [atypIPv4 atypIPv6 atypDomain Z.eqb Pos.eqb].
  - by rewrite (ReadFull_app _ _ (b ++ port) r) by (rewrite ?length_app; done || lia).
  - by rewrite (ReadFull_app _ _ (b ++ port) r) by (rewrite ?length_app; done || lia).
  - rewrite (ReadFull_app 1 _ [Z.of_nat (length name)] ((name ++ port) ++ r)) by done. cbn [nth]. rewrite Nat2Z.id.
    by rewrite (ReadFull_app _ _ (name ++ port) r) by (rewrite ?length_app; done || lia).
Qed.

Lemma connectThrough_ok atyp field p0 p1 up reply r : healthy up -> Forall in_u8 field -> addr_field atyp field -> in_u8 p0 -> in_u8 p1 ->
  cn_in up = [ver; methNoAuth] ++ reply ++ r ->
  (forall c, cn_in c = reply ++ r -> readReply c = (Ok reply, with_in c r)) ->
  connectThrough {| tg_atyp := atyp; tg_host := host_of atyp field; tg_port := Z.lor (u16 (Z.shiftl p0 8)) p1 |} up =
    (Ok reply, wrote (with_in up r) ([ver; 1; methNoAuth] ++ request cmdConnect 0x00 atyp field [p0; p1])).
Proof.
  intros Hh Hb Hf H0 H1 E Hr. unfold connectThrough, mbind, conn_bind. rewrite Write_healthy by done.
  rewrite (ReadFull_app 2 _ [ver; methNoAuth] (reply ++ r)) by done. cbn [nth tg_atyp tg_host tg_port]. rewrite !Z.eqb_refl. cbn [negb orb].
  rewrite request_addr_field by done. rewrite Write_healthy by done. rewrite Hr by done.
  do 2 f_equal. unfold wrote, with_in. cbn [cn_out cn_in cn_fails]. f_equal. rewrite <- app_assoc. do 2 f_equal.
  unfold request. by rewrite port_value.
Qed.

(** ** One connection *)

Section Handle.
Context `{GoUnicode}.

(** Where a request goes. *)
Definition route (cfg : config) (atyp : Z) (field : list Z) : gostr :=
  if (atyp =? atypDomain) && isOnion (host_of atyp field) (cf_onionSuffix cfg) then cf_torUpstream cfg
  else cf_clearnetUpstream cfg.

(** [C16] Forwarding is verbatim.  A client that offers no authentication and asks
    to connect gets its address (an IPv4 or IPv6 literal, although it goes through
    its text form, or a name of any bytes) and port to the upstream unchanged; the
    upstream is Tor for onion names and the clearnet proxy for everything else;
    the upstream's reply, whatever its code, comes back byte for byte; and only
    after a success both sides get everything the other one sends. *)
Theorem handle_forwards_verbatim dial cfg client methods rsv atyp field p0 p1 payload up v rep rrsv ratyp rfield rport data :
  healthy client -> cn_out client = [] -> methNoAuth ∈ methods ->
  Forall in_u8 field -> addr_field atyp field -> in_u8 p0 -> in_u8 p1 ->
  cn_in client = greeting methods ++ request cmdConnect rsv atyp field [p0; p1] ++ payload ->
  cf_torUpstream cfg <> [] -> dial (route cfg atyp field) = Some up ->
  healthy up -> cn_out up = [] -> addr_field ratyp rfield -> length rport = 2%nat ->
  cn_in up = [ver; methNoAuth] ++ reply_of v rep rrsv ratyp rfield rport ++ data ->
  let h := handle dial cfg client in
  let ok := rep =? repSucceeded in
  h_dialed h = Some (route cfg atyp field) /\ h_tunnel h = ok /\
  cn_out (h_client h) = [ver; methNoAuth] ++ reply_of v rep rrsv ratyp rfield rport ++ (if ok then data else []) /\
  exists up', h_upstream h = Some up' /\
    cn_out up' = [ver; 1; methNoAuth] ++ request cmdConnect 0x00 atyp field [p0; p1] ++ (if ok then payload else []).
Proof.
  intros Hc Oc Hm Hb Hf H0 H1 Ec Ht Hd Hu Ou Hrf Hrp Eu h ok.
  assert (E : (negotiate ;; readConnect) client =
    (Ok {| tg_atyp := atyp; tg_host := host_of atyp field; tg_port := Z.lor (u16 (Z.shiftl p0 8)) p1 |},
     with_in (wrote client [ver; methNoAuth]) payload)).
  { unfold mbind, conn_bind. rewrite (negotiate_ok methods client (request cmdConnect rsv atyp field [p0; p1] ++ payload)) by done.
    rewrite (readConnect_ok rsv atyp field p0 p1 _ payload) by done. done. }
  assert (P : pickUpstream (host_of atyp field) (atyp =? atypDomain) cfg = (route cfg atyp field, repSucceeded)).
  { unfold pickUpstream, route. destruct (_ && _); [|done]. by rewrite bool_decide_false. }
  assert (T := connectThrough_ok atyp field p0 p1 up _ data Hu Hb Hf H0 H1 Eu
    (fun c Hc => readReply_ok v rep rrsv ratyp rfield rport c data Hrf Hrp Hc)).
  subst h ok. unfold handle. rewrite E. cbn [tg_host tg_atyp]. rewrite P, Z.eqb_refl, Hd, T. cbn [negb].
  rewrite Write_healthy by done. change (nth 1 (reply_of v rep rrsv ratyp rfield rport) 0) with rep.
  unfold relay. destruct (rep =? repSucceeded); cbn [negb];
    rewrite ?Write_healthy by done; cbn [h_dialed h_tunnel h_client h_upstream cn_out cn_in fst snd wrote with_in];
    rewrite ?Oc, ?Ou, ?app_nil_l, ?app_nil_r, <- ?app_assoc; (split; [done|]); (split; [done|]); (split; [done|]);
    eexists; (split; [reflexivity|]); cbn [cn_out wrote with_in]; rewrite ?Ou, ?app_nil_l, ?app_nil_r, <- ?app_assoc; done.
Qed.

(** What may be on the wire to the client before a tunnel: nothing, a method
    choice, or a method choice and one reply that is not a success. *)
Inductive refusal : list Z -> Prop :=
| ref_nothing : refusal []
| ref_no_method : refusal [ver; methNoAccept]
| ref_greeted : refusal [ver; methNoAuth]
| ref_replied v rep rest : rep <> repSucceeded -> refusal ([ver; methNoAuth] ++ v :: rep :: rest).

(** [emits m Q]: what [m] writes, with its result, satisfies [Q]. *)
Definition emits {A} (m : Conn A) (Q : result sock_err A -> list Z -> Prop) : Prop :=
  forall c, exists x, cn_out (m c).2 = cn_out c ++ x /\ Q (m c).1 x.

Lemma emits_weaken {A} (m : Conn A) (Q Q' : result sock_err A -> list Z -> Prop) :
  emits m Q -> (forall r x, Q r x -> Q' r x) -> emits m Q'.
Proof. intros Hm HQ c. destruct (Hm c) as (x & E & Hx). eauto. Qed.

Lemma emits_bind {A B} (m : Conn A) (f : A -> Conn B) (Q : result sock_err B -> list Z -> Prop) :
  emits m (fun r x => match r with
                      | Err e => Q (Err e) x
                      | Ok a => emits (f a) (fun r' y => Q r' (x ++ y))
                      end) ->
  emits (m ≫= f) Q.
Proof.
  intros Hm c. destruct (Hm c) as (x & E & Hx). unfold mbind, conn_bind. destruct (m c) as [[a|e] c1]; cbn [fst snd] in *; [|eauto].
  destruct (Hx c1) as (y & E2 & Hy). exists (x ++ y). rewrite E2, E, app_assoc. done.
Qed.

Lemma emits_ret {A} (a : A) (Q : result sock_err A -> list Z -> Prop) : Q (Ok a) [] -> emits (mret a) Q.
Proof. intros H1 c. exists []. by rewrite app_nil_r. Qed.

Lemma emits_fail {A} e (Q : result sock_err A -> list Z -> Prop) : Q (Err e) [] -> emits (fail e) Q.
Proof. intros H1 c. exists []. by rewrite app_nil_r. Qed.

Lemma emits_read n (Q : result sock_err (list Z) -> list Z -> Prop) : (forall r, Q r []) -> emits (ReadFull n) Q.
Proof. intros H1 c. exists []. unfold ReadFull. rewrite app_nil_r. case_bool_decide; done. Qed.

Lemma emits_write b (Q : result sock_err unit -> list Z -> Prop) :
  Q (Ok tt) b -> (forall e, Q (Err e) []) -> emits (Write b) Q.
Proof.
  intros H1 H2 c. unfold Write. destruct (cn_fails c) as [|[] f]; cbn; [by exists b|exists []|by exists b].
  by rewrite app_nil_r.
Qed.

Lemma emits_ignore b (Q : result sock_err unit -> list Z -> Prop) :
  Q (Ok tt) b -> Q (Ok tt) [] -> emits (ignore_err (Write b)) Q.
Proof.
  intros H1 H2 c. unfold ignore_err, Write. destruct (cn_fails c) as [|[] f]; cbn; [by exists b|exists []|by exists b].
  by rewrite app_nil_r.
Qed.

Ltac emit_step :=
  match goal with
  | |- emits (_ ≫= _) _ => apply emits_bind
  | |- emits (mret _) _ => apply emits_ret
  | |- emits (fail _) _ => apply emits_fail
  | |- emits (ReadFull _) _ => apply emits_read; intros [?|?]
  | |- emits (Write _) _ => apply emits_write
  | |- emits (writeReply _) _ => apply emits_write
  | |- emits (ignore_err _) _ => apply emits_ignore
  | |- emits (if ?b then _ else _) _ => destruct b
  end; cbn [app] in *.

(** The method choice. *)
Lemma negotiate_emits : emits negotiate (fun r x =>
  match r with
  | Ok _ => x = [ver; methNoAuth]
  | Err _ => x = [] \/ x = [ver; methNoAccept]
  end).
Proof. unfold negotiate. repeat emit_step; intros; auto. Qed.

(** A failed request gets at most one reply, not a success. *)
Lemma readConnect_emits : emits readConnect (fun r x =>
  match r with
  | Ok _ => x = []
  | Err _ => x = [] \/ exists rep rest, rep <> repSucceeded /\ x = ver :: rep :: rest
  end).
Proof.
  unfold readConnect, readHost. repeat emit_step; auto; right; do 2 eexists; (split; [|reflexivity]); discriminate.
Qed.

(** What is read is a prefix of what was sent. *)
Lemma ReadFull_split n c a c' : ReadFull n c = (Ok a, c') -> cn_in c = a ++ cn_in c' /\ length a = n.
Proof.
  unfold ReadFull. case_bool_decide as Hn; [|done]. intros [= <- <-]. cbn. by rewrite take_drop, length_take_le.
Qed.

Lemma Write_in b c : cn_in (Write b c).2 = cn_in c.
Proof. unfold Write. by destruct (cn_fails c) as [|[] f]. Qed.

Lemma readReply_split c reply c' : readReply c = (Ok reply, c') ->
  cn_in c = reply ++ cn_in c' /\ exists v rest, reply = v :: nth 1 reply 0 :: rest.
Proof.
  unfold readReply, mbind, conn_bind. intros E. destruct (ReadFull 4 c) as [[h|] c1] eqn:E1; [|done].
  apply ReadFull_split in E1 as [E1 L1]. destruct h as [|x0 [|x1 [|x2 [|x3 [|]]]]]; try done. cbn [nth] in E.
  assert (K : forall n, match ReadFull n c1 with (Ok rest, c2) => (Ok ([x0; x1; x2; x3] ++ rest), c2) | (Err e, c2) => (Err e, c2) end
    = (Ok reply, c') -> cn_in c = reply ++ cn_in c' /\ exists v rest, reply = v :: nth 1 reply 0 :: rest).
  { intros n E2. destruct (ReadFull n c1) as [[rest|] c2] eqn:Er; [|done]. apply ReadFull_split in Er as [Er _].
    injection E2 as <- <-. rewrite E1, Er. split; [done|]. by eexists _, _. }
  destruct (x3 =? atypIPv4); [by eapply K|]. destruct (x3 =? atypIPv6); [by eapply K|]. destruct (x3 =? atypDomain); [|done].
  clear K. destruct (ReadFull 1 c1) as [[lb|] c2] eqn:E2; [|done]. apply ReadFull_split in E2 as [E2 L2].
  destruct (ReadFull _ c2) as [[rest|] c3] eqn:E3; [|done]. apply ReadFull_split in E3 as [E3 _]. injection E as <- <-.
  rewrite E1, E2, E3. split; [cbn; by rewrite <- ?app_assoc|]. by eexists _, _.
Qed.

Lemma connectThrough_split t up reply up' : connectThrough t up = (Ok reply, up') ->
  (exists sel, length sel = 2%nat /\ cn_in up = sel ++ reply ++ cn_in up') /\ exists v rest, reply = v :: nth 1 reply 0 :: rest.
Proof.
  unfold connectThrough, mbind, conn_bind. intros E. pose proof (Write_in [ver; 1; methNoAuth] up) as I1.
  destruct (Write _ up) as [[]  c1]; [|done]. destruct (ReadFull 2 c1) as [[sel|] c2] eqn:E2; [|done]. apply ReadFull_split in E2 as [E2 L2].
  destruct (negb _ || negb _); [done|]. destruct (request_addr _ _) as [addr|]; [|done]. cbn [fst snd] in *.
  match type of E with context [Write ?b c2] => pose proof (Write_in b c2) as I3; destruct (Write b c2) as [[] c3]; [|done] end.
  apply readReply_split in E as [E Hs]. cbn [fst snd] in *. split; [|done]. exists sel. split; [done|]. congruence.
Qed.

(** [C35] A client is told of a success only when the upstream reported one.  For
    every client and every upstream, well behaved or not: without a tunnel the
    client has received at most the method choice and one reply whose code is not
    success; with a tunnel, the reply it received is one the dialed upstream sent,
    with the code of success. *)
Theorem no_false_success dial cfg client :
  cn_out client = [] ->
  let h := handle dial cfg client in
  if h_tunnel h then
    exists u up v rest data pre post, h_dialed h = Some u /\ dial u = Some up /\
      cn_in up = pre ++ (v :: repSucceeded :: rest) ++ post /\
      cn_out (h_client h) = [ver; methNoAuth] ++ (v :: repSucceeded :: rest) ++ data
  else refusal (cn_out (h_client h)).
Proof.
  intros Oc. unfold handle.
  destruct (negotiate_emits client) as (x & E1 & H1). unfold mbind, conn_bind.
  destruct (negotiate client) as [[]  c1]; cbn [fst snd] in *; rewrite Oc in E1; cbn [app] in E1.
  2: { cbn. rewrite E1. destruct H1 as [-> | ->]; constructor. }
  rewrite H1 in E1. clear x H1. destruct (readConnect_emits c1) as (x & E2 & H2). destruct (readConnect c1) as [[t|] c2]; cbn [fst snd] in *; rewrite E1 in E2.
  2: { cbn [ended h_tunnel h_client]. rewrite E2. destruct H2 as [-> | (rep & rest & Hr & ->)]; [rewrite app_nil_r|]; by constructor. }
  rewrite H2, app_nil_r in E2. clear x H2.
  assert (R : forall rep, rep <> repSucceeded -> refusal (cn_out (writeReply rep c2).2)).
  { intros rep Hr. destruct (emits_write [ver; rep; 0; atypIPv4; 0; 0; 0; 0; 0; 0] (fun _ x => x = [] \/ x = [ver; rep; 0; atypIPv4; 0; 0; 0; 0; 0; 0])
      ltac:(by right) ltac:(by left) c2) as (x & E & [-> | ->]); unfold writeReply; rewrite E, E2, ?app_nil_r; by constructor. }
  destruct (pickUpstream _ _ _) as [u rep]. destruct (rep =? repSucceeded) eqn:Er; cbn [negb]; bool_hyps; [|by apply R].
  destruct (dial u) as [up|] eqn:Ed; [|by apply R].
  destruct (connectThrough t up) as [[reply|] up1] eqn:Ec; [|by apply R].
  apply connectThrough_split in Ec as [(sel & _ & Ein) (v & rest & Ev)].
  destruct (emits_write reply (fun r x => x = if is_ok r then reply else []) eq_refl (fun _ => eq_refl) c2) as (x & E3 & ->).
  destruct (Write reply c2) as [[[]|e] c3]; cbn [fst snd is_ok] in E3; rewrite E2, ?app_nil_r in E3.
  2: { cbn [h_tunnel h_client]. rewrite E3. constructor. }
  destruct (nth 1 reply 0 =? repSucceeded) eqn:En; bool_hyps; cbn [negb].
  - unfold relay. cbn [h_tunnel h_client h_dialed cn_out]. rewrite En in Ev.
    destruct (emits_write (cn_in up1) (fun _ _ => True) I (fun _ => I) c3) as (data & E4 & _).
    exists u, up, v, rest, data, sel, (cn_in up1). rewrite <- Ev. split; [done|]. split; [done|].
    split; [done|]. rewrite E4, E3. by rewrite <- app_assoc.
  - cbn [h_tunnel h_client]. rewrite E3, Ev. by constructor.
Qed.
End Handle.

(** ** Configuration *)

(** No environment disables onion routing: an empty DISPATCH_TOR_UPSTREAM means
    the default upstream, so a configured node never answers [repNotAllowed] for
    an onion name. *)
Theorem onion_never_disabled `{GoUnicode} env host isDomain :
  cf_torUpstream (loadConfig env) <> [] /\ (pickUpstream host isDomain (loadConfig env)).2 = repSucceeded.
Proof.
  assert (E : cf_torUpstream (loadConfig env) <> []) by (cbn; unfold getenv; by case_bool_decide).
  split; [done|]. unfold pickUpstream. destruct (_ && _); [|done]. by rewrite bool_decide_false.
Qed.

(** ** The watchdog *)

Section Watchdog.
(** When the two sides last received data, as of each tick. *)
Context (idle : Z) (la lb : nat -> Z).

Definition tick_at (k : nat) : Z := Z.of_nat k * watch_interval idle.
Definition readings (k : nat) : option Z * option Z := (Some (tick_at k - la k), Some (tick_at k - lb k)).

Lemma watch_interval_pos : time_Second <= watch_interval idle.
Proof. unfold watch_interval. destruct (_ <? _) eqn:E; bool_hyps; lia. Qed.

Lemma tick_verdict k : watch_tick idle (readings k).1 (readings k).2 = close_both <->
  idle <= tick_at k - la k /\ idle <= tick_at k - lb k.
Proof. cbn. destruct (_ && _) eqn:E; bool_hyps; [split; [lia|done]|]. split; [done|]. intros [H1 H2]. lia. Qed.

Lemma watchdog_closes k fuel n : idleWatchdog idle readings k fuel = Some n ->
  (k <= n)%nat /\ idle <= tick_at n - la n /\ idle <= tick_at n - lb n.
Proof.
  revert k. induction fuel as [|fuel IH]; intros k E; [done|]. cbn [idleWatchdog] in E.
  destruct (watch_tick idle _ _) eqn:Et; [apply IH in E; lia|done|]. injection E as <-. apply tick_verdict in Et. lia.
Qed.

Lemma watchdog_reaches k fuel n : (k <= n)%nat -> (n - k < fuel)%nat -> idle <= tick_at n - la n -> idle <= tick_at n - lb n ->
  exists m, idleWatchdog idle readings k fuel = Some m /\ (m <= n)%nat.
Proof.
  revert k. induction fuel as [|fuel IH]; intros k Hk Hf Ha Hb; [lia|]. cbn [idleWatchdog].
  destruct (watch_tick idle (readings k).1 (readings k).2) eqn:Et.
  - assert (k <> n) by (intros ->; rewrite (proj2 (tick_verdict n)) in Et by done; done). apply IH; lia || done.
  - cbn in Et. by destruct (_ && _).
  - by exists k.
Qed.
End Watchdog.

(** The idle bound of a tunnel.  The watchdog closes it only at a tick at which
    neither side has received data for [idle]; and if both sides are silent from
    [t] on, it closes it by some tick before [t + idle] plus one period, which for
    a bound of four seconds or more is within 1.25 times the bound. *)
Theorem watchdog_bound idle la lb t :
  0 < idle -> 0 <= t ->
  (forall fuel n, idleWatchdog idle (readings idle la lb) 1 fuel = Some n ->
     la n + idle <= tick_at idle n /\ lb n + idle <= tick_at idle n) /\
  ((forall k, la k <= t /\ lb k <= t) ->
     exists fuel n, idleWatchdog idle (readings idle la lb) 1 fuel = Some n /\
       tick_at idle n < t + idle + watch_interval idle /\
       (4 * time_Second <= idle -> tick_at idle n <= t + idle + idle / 4)).
Proof.
  intros Hi Ht. pose proof (watch_interval_pos idle) as Hp. unfold time_Second in Hp. split.
  - intros fuel n E. apply watchdog_closes in E. lia.
  - intros Hq. set (iv := watch_interval idle) in *. set (n := Z.to_nat ((t + idle + iv - 1) / iv)).
    pose proof (Z.div_mod (t + idle + iv - 1) iv ltac:(lia)) as D. pose proof (Z.mod_pos_bound (t + idle + iv - 1) iv ltac:(lia)) as M.
    assert (P : 1 <= (t + idle + iv - 1) / iv) by (apply Z.div_le_lower_bound; lia).
    assert (Tn : tick_at idle n = (t + idle + iv - 1) / iv * iv) by (unfold tick_at, n; rewrite Z2Nat.id by lia; done).
    destruct (watchdog_reaches idle la lb 1 (S n) n) as (m & Em & Hm); [unfold n; lia|lia|destruct (Hq n); lia..|].
    assert (Tm : tick_at idle m <= tick_at idle n) by (unfold tick_at; fold iv; nia).
    exists (S n), m. split; [done|]. split; [lia|]. intros H4. unfold time_Second in H4.
    assert (Ei : iv = idle / 4).
    { unfold iv, watch_interval. rewrite Z.quot_div_nonneg by lia. pose proof (Z.div_le_lower_bound idle 4 1000000000 ltac:(lia) ltac:(lia)).
      destruct (_ <? _) eqn:E; bool_hyps; unfold time_Second in *; lia. }
    lia.
Qed.

End DispatchFacts.
