(* ===== verification/Listener.v ===== *)
(** * Listening processes

    The goroutines around the handlers: the accept loop of dispatch/main.go and
    captive/main.go with its bound on connections, the two copies of a tunnel
    ([relay] of dispatch/main.go) with the timers that cut it off, and the end of the
    backend process (backend/main.go).  Each is a step relation over what the
    goroutines, the peers and the kernel do. *)

From S2P Require Import Prelude GoStrings.

(** ** The accept loop *)

Module Accept.

(** [lp_busy] is the tokens in the semaphore, one for each handler that runs;
    [lp_done] the context, [lp_closed] the listener. *)
Record loop := { lp_cap : Z; lp_busy : Z; lp_done : bool; lp_closed : bool; lp_returned : bool; lp_handled : Z; lp_shed : Z }.
Definition set_busy (n : Z) (l : loop) : loop :=
  {| lp_cap := lp_cap l; lp_busy := n; lp_done := lp_done l; lp_closed := lp_closed l; lp_returned := lp_returned l; lp_handled := lp_handled l; lp_shed := lp_shed l |}.

(** [make(chan struct{}, maxConns)] panics on a negative size. *)
Definition start (maxConns : Z) : option loop :=
  if maxConns <? 0 then None
  else Some {| lp_cap := maxConns; lp_busy := 0; lp_done := false; lp_closed := false; lp_returned := false; lp_handled := 0; lp_shed := 0 |}.

(** What [Accept] returned. *)
Inductive accepted := a_conn | a_error.

(** One turn of the loop. *)
Definition turn (x : accepted) (l : loop) : loop :=
  match x with
  | a_error =>
      {| lp_cap := lp_cap l; lp_busy := lp_busy l; lp_done := lp_done l; lp_closed := lp_closed l; lp_returned := lp_done l;
         lp_handled := lp_handled l; lp_shed := lp_shed l |}
  | a_conn =>
      if lp_busy l <? lp_cap l
      then {| lp_cap := lp_cap l; lp_busy := lp_busy l + 1; lp_done := lp_done l; lp_closed := lp_closed l; lp_returned := false;
              lp_handled := lp_handled l + 1; lp_shed := lp_shed l |}
      else {| lp_cap := lp_cap l; lp_busy := lp_busy l; lp_done := lp_done l; lp_closed := lp_closed l; lp_returned := false;
              lp_handled := lp_handled l; lp_shed := lp_shed l + 1 |}
  end.

(** The loop, a handler that ends, a signal, and the goroutine that closes the listener
    after it.  A closed listener accepts nothing. *)
Inductive loop_step (l : loop) : loop -> Prop :=
| ls_conn : lp_returned l = false -> lp_closed l = false -> loop_step l (turn a_conn l)
| ls_error : lp_returned l = false -> loop_step l (turn a_error l)
| ls_handled : 0 < lp_busy l -> loop_step l (set_busy (lp_busy l - 1) l)
| ls_signal : loop_step l {| lp_cap := lp_cap l; lp_busy := lp_busy l; lp_done := true; lp_closed := lp_closed l; lp_returned := lp_returned l;
                             lp_handled := lp_handled l; lp_shed := lp_shed l |}
| ls_close : lp_done l = true ->
    loop_step l {| lp_cap := lp_cap l; lp_busy := lp_busy l; lp_done := lp_done l; lp_closed := true; lp_returned := lp_returned l;
                   lp_handled := lp_handled l; lp_shed := lp_shed l |}.

(** At most [maxConns] handlers run at any time, and the loop ends only after a
    signal. *)
Definition loop_ok (maxConns : Z) (l : loop) : Prop :=
  lp_cap l = maxConns /\ 0 <= lp_busy l <= maxConns /\ (lp_returned l = true -> lp_done l = true) /\ (lp_closed l = true -> lp_done l = true).

Lemma loop_step_ok maxConns l l' : loop_step l l' -> loop_ok maxConns l -> loop_ok maxConns l'.
Proof.
  intros H (H1 & H2 & H3 & H4). unfold loop_ok. destruct H; cbn [turn set_busy lp_cap lp_busy lp_done lp_closed lp_returned].
  - destruct (_ <? _) eqn:E; bool_hyps; cbn; (split; [done|split; [lia|done]]).
  - cbn. done.
  - split; [done|split; [lia|done]].
  - done.
  - split; [done|split; [done|split; [done|by intros _]]].
Qed.

Theorem accept_bounded maxConns l0 l : start maxConns = Some l0 -> rtc loop_step l0 l -> loop_ok maxConns l.
Proof.
  intros H0 H. assert (Hok : loop_ok maxConns l0).
  { unfold start in H0. destruct (maxConns <? 0) eqn:E; [done|]. bool_hyps. injection H0 as <-. unfold loop_ok. cbn. split; [done|split; [lia|done]]. }
  clear H0. induction H as [|l l1 l2 H _ IH]; [done|]. by eapply IH, loop_step_ok.
Qed.

(** A connection is turned away exactly when all of them are taken. *)
Lemma turn_sheds maxConns l : loop_ok maxConns l -> (lp_shed (turn a_conn l) = lp_shed l + 1 <-> lp_busy l = maxConns).
Proof. intros (H1 & H2 & _). cbn [turn]. destruct (_ <? _) eqn:E; bool_hyps; cbn; lia. Qed.

(** After a signal the loop returns with the next error, which the closed listener
    gives. *)
Lemma stops l : lp_done l = true -> lp_returned l = false ->
  exists l1, loop_step l l1 /\ lp_closed l1 = true /\ lp_returned (turn a_error l1) = true /\ loop_step l1 (turn a_error l1).
Proof. intros Hd Hr. eexists. split; [by apply ls_close|]. cbn. split; [done|]. split; [done|]. by apply ls_error. Qed.

(** A negative bound ends the process at start, and zero turns everybody away. *)
Lemma negative_bound maxConns : start maxConns = None <-> maxConns < 0.
Proof. unfold start. destruct (_ <? _) eqn:E; bool_hyps; split; (done || lia). Qed.

End Accept.

(** ** The tunnel *)

Module Tunnel.

(** One direction: what the source has sent altogether, what of it has not been read
    yet, whether the source has shut its side, what the destination was written, whether
    its side was shut in turn, whether the copy is over, and whether an error ended it. *)
Record flow := {
  fl_total : list Z; fl_sent : list Z; fl_eof : bool; fl_got : list Z; fl_fin : bool; fl_done : bool; fl_broken : bool
}.
Definition idle_flow : flow :=
  {| fl_total := []; fl_sent := []; fl_eof := false; fl_got := []; fl_fin := false; fl_done := false; fl_broken := false |}.

(** The source, the copy and the errors of either connection; [closed] says whether both
    were closed here.  After the copy [CloseWrite] shuts the destination, if it can. *)
Inductive flow_step (closed : bool) (f : flow) : flow -> Prop :=
| fs_send bytes : fl_eof f = false ->
    flow_step closed f {| fl_total := fl_total f ++ bytes; fl_sent := fl_sent f ++ bytes; fl_eof := false; fl_got := fl_got f; fl_fin := fl_fin f;
                          fl_done := fl_done f; fl_broken := fl_broken f |}
| fs_eof : flow_step closed f {| fl_total := fl_total f; fl_sent := fl_sent f; fl_eof := true; fl_got := fl_got f; fl_fin := fl_fin f;
                          fl_done := fl_done f; fl_broken := fl_broken f |}
| fs_copy chunk rest : closed = false -> fl_done f = false -> fl_sent f = chunk ++ rest ->
    flow_step closed f {| fl_total := fl_total f; fl_sent := rest; fl_eof := fl_eof f; fl_got := fl_got f ++ chunk; fl_fin := fl_fin f;
                          fl_done := false; fl_broken := fl_broken f |}
| fs_end : closed = false -> fl_done f = false -> fl_sent f = [] -> fl_eof f = true ->
    flow_step closed f {| fl_total := fl_total f; fl_sent := []; fl_eof := true; fl_got := fl_got f; fl_fin := true; fl_done := true;
                          fl_broken := fl_broken f |}
| fs_fail fin : fl_done f = false ->
    flow_step closed f {| fl_total := fl_total f; fl_sent := fl_sent f; fl_eof := fl_eof f; fl_got := fl_got f; fl_fin := fin; fl_done := true;
                          fl_broken := true |}.

(** Both directions; [tn_idle] and [tn_life] are the bounds, 0 for none. *)
Record tunnel := { tn_ab : flow; tn_ba : flow; tn_closed : bool; tn_idle : Z; tn_life : Z }.
Definition relay_start (idle maxLife : Z) : tunnel :=
  {| tn_ab := idle_flow; tn_ba := idle_flow; tn_closed := false; tn_idle := idle; tn_life := maxLife |}.

(** [relay] returns when both copies have reported. *)
Definition returned (t : tunnel) : bool := fl_done (tn_ab t) && fl_done (tn_ba t).

Inductive tunnel_step (t : tunnel) : tunnel -> Prop :=
| ts_ab f : flow_step (tn_closed t) (tn_ab t) f ->
    tunnel_step t {| tn_ab := f; tn_ba := tn_ba t; tn_closed := tn_closed t; tn_idle := tn_idle t; tn_life := tn_life t |}
| ts_ba f : flow_step (tn_closed t) (tn_ba t) f ->
    tunnel_step t {| tn_ab := tn_ab t; tn_ba := f; tn_closed := tn_closed t; tn_idle := tn_idle t; tn_life := tn_life t |}
| ts_close : 0 < tn_idle t \/ 0 < tn_life t -> returned t = false ->
    tunnel_step t {| tn_ab := tn_ab t; tn_ba := tn_ba t; tn_closed := true; tn_idle := tn_idle t; tn_life := tn_life t |}.

(** Bytes arrive in their order, none is lost or made up; a copy that ended without an
    error has delivered everything, and the end of the stream after it. *)
Definition flow_ok (f : flow) : Prop :=
  fl_total f = fl_got f ++ fl_sent f /\
  (fl_done f = true -> fl_broken f = false -> fl_fin f = true /\ fl_eof f = true /\ fl_sent f = []) /\ (fl_fin f = true -> fl_done f = true).

Lemma flow_step_ok closed f f' : flow_step closed f f' -> flow_ok f -> flow_ok f'.
Proof.
  intros H (H1 & H2 & H3). unfold flow_ok. destruct H; cbn.
  - rewrite H1. split; [by rewrite app_assoc|]. split; [|done]. intros Hd Hb. destruct (H2 Hd Hb) as (_ & He & _). congruence.
  - split; [done|]. split; [|done]. intros Hd Hb. destruct (H2 Hd Hb) as (? & _ & ?). done.
  - split; [rewrite H1, <- app_assoc; by f_equal|]. split; [done|]. intros Hf. rewrite (H3 Hf) in *. done.
  - split; [congruence|]. done.
  - done.
Qed.

Definition tunnel_ok (t : tunnel) : Prop :=
  flow_ok (tn_ab t) /\ flow_ok (tn_ba t) /\ (tn_closed t = true -> 0 < tn_idle t \/ 0 < tn_life t).

Theorem relay_faithful idle maxLife t : rtc tunnel_step (relay_start idle maxLife) t -> tunnel_ok t.
Proof.
  intros H. assert (H0 : tunnel_ok (relay_start idle maxLife)) by (unfold tunnel_ok, flow_ok; cbn; naive_solver).
  induction H as [|t t1 t2 H _ IH]; [done|]. apply IH. clear IH. destruct H0 as (A & B & C), H; (split; [|split]); cbn; try done;
    by eapply flow_step_ok.
Qed.

(** Closing both connections ends the tunnel: at most two failing copies are left, and
    nothing can be copied any more. *)
Theorem close_ends t : tn_closed t = true -> exists t', nsteps tunnel_step ((if fl_done (tn_ab t) then 0 else 1) + (if fl_done (tn_ba t) then 0 else 1))%nat t t' /\
  returned t' = true /\ fl_got (tn_ab t') = fl_got (tn_ab t) /\ fl_got (tn_ba t') = fl_got (tn_ba t).
Proof.
  intros Hc. destruct t as [fa fb c i m]. cbn in Hc. subst c. cbn [tn_ab tn_ba].
  destruct (fl_done fa) eqn:Ea, (fl_done fb) eqn:Eb; cbn [plus].
  - eexists. split; [apply nsteps_O|]. unfold returned. cbn. by rewrite Ea, Eb.
  - eexists. split; [eapply nsteps_l; [apply ts_ba, (fs_fail _ _ false); exact Eb|apply nsteps_O]|]. unfold returned. cbn. by rewrite Ea.
  - eexists. split; [eapply nsteps_l; [apply ts_ab, (fs_fail _ _ false); exact Ea|apply nsteps_O]|]. unfold returned. cbn. by rewrite Eb.
  - eexists. split; [eapply nsteps_l; [apply ts_ab, (fs_fail _ _ false); exact Ea|]; eapply nsteps_l; [apply ts_ba, (fs_fail _ _ false); exact Eb|apply nsteps_O]|].
    unfold returned. by cbn.
Qed.

Lemma closed_copies_nothing f f' : flow_step true f f' -> fl_got f' = fl_got f.
Proof. by destruct 1. Qed.

(** An end of stream one way leaves the other way open. *)
Lemma half_close t : tn_closed t = false -> fl_done (tn_ab t) = false -> fl_sent (tn_ab t) = [] -> fl_eof (tn_ab t) = true ->
  exists t', tunnel_step t t' /\ fl_fin (tn_ab t') = true /\ tn_ba t' = tn_ba t /\ tn_closed t' = false.
Proof. intros Hc Hd Hs He. eexists. split; [apply ts_ab, fs_end; done|]. done. Qed.

End Tunnel.

(** ** The end of the backend *)

Module Lifecycle.

(** [main] waits for the first listener to end, then for the context; an error that is
    not [ErrServerClosed] is fatal.  One listener's connections are enough to show. *)
Inductive main_pc := m_serving | m_waiting | m_exited | m_fatal.
Inductive serve_end := e_closed | e_failed.

(** [lc_shut] is whether [Shutdown] has closed the listeners, [lc_drained] whether it
    has returned; [lc_errc] the buffered channel. *)
Record process := { lc_main : main_pc; lc_done : bool; lc_shut : bool; lc_drained : bool; lc_errc : list serve_end; lc_inflight : nat }.
Definition set_main (m : main_pc) (errc : list serve_end) (p : process) : process :=
  {| lc_main := m; lc_done := lc_done p; lc_shut := lc_shut p; lc_drained := lc_drained p; lc_errc := errc; lc_inflight := lc_inflight p |}.
Definition set_inflight (n : nat) (p : process) : process :=
  {| lc_main := lc_main p; lc_done := lc_done p; lc_shut := lc_shut p; lc_drained := lc_drained p; lc_errc := lc_errc p; lc_inflight := n |}.

Definition running (p : process) : bool := match lc_main p with m_exited | m_fatal => false | _ => true end.

Definition serving : process :=
  {| lc_main := m_serving; lc_done := false; lc_shut := false; lc_drained := false; lc_errc := []; lc_inflight := 0 |}.

Inductive process_step (p : process) : process -> Prop :=
| st_signal : process_step p {| lc_main := lc_main p; lc_done := true; lc_shut := lc_shut p; lc_drained := lc_drained p; lc_errc := lc_errc p; lc_inflight := lc_inflight p |}
| st_request : running p = true -> lc_shut p = false -> process_step p (set_inflight (S (lc_inflight p)) p)
| st_answer n : running p = true -> lc_inflight p = S n -> process_step p (set_inflight n p)
| st_fail : running p = true -> process_step p (set_main (lc_main p) (lc_errc p ++ [e_failed]) p)
| st_shutdown : running p = true -> lc_done p = true -> lc_shut p = false ->
    process_step p {| lc_main := lc_main p; lc_done := true; lc_shut := true; lc_drained := false; lc_errc := lc_errc p ++ [e_closed]; lc_inflight := lc_inflight p |}
| st_drained : running p = true -> lc_shut p = true -> lc_inflight p = O ->
    process_step p {| lc_main := lc_main p; lc_done := lc_done p; lc_shut := true; lc_drained := true; lc_errc := lc_errc p; lc_inflight := lc_inflight p |}
| st_main_err e rest : lc_main p = m_serving -> lc_errc p = e :: rest ->
    process_step p (set_main (match e with e_closed => m_waiting | e_failed => m_fatal end) rest p)
| st_main_exit : lc_main p = m_waiting -> lc_done p = true -> process_step p (set_main m_exited (lc_errc p) p).

(** The process ends in order only after a signal. *)
Definition process_ok (p : process) : Prop :=
  (lc_main p = m_exited -> lc_done p = true) /\ (lc_shut p = true -> lc_done p = true) /\ (lc_main p = m_waiting -> lc_shut p = true) /\
  (e_closed ∈ lc_errc p -> lc_shut p = true).

Lemma process_step_ok p p' : process_step p p' -> process_ok p -> process_ok p'.
Proof.
  intros H (H1 & H2 & H3 & H4). unfold process_ok. destruct H; cbn; try (by repeat split; auto).
  - split; [done|]. split; [done|]. split; [done|]. intros [Hin|Hin%list_elem_of_singleton]%elem_of_app; [auto|done].
  - rewrite H in *. split; [by destruct e|]. split; [done|]. split; [destruct e; [|done]; intros _; apply H4; rewrite H0; apply list_elem_of_here|].
    intros Hin. apply H4. rewrite H0. by apply list_elem_of_further.
Qed.

Theorem exits_on_signal p : rtc process_step serving p -> lc_main p = m_exited -> lc_done p = true.
Proof.
  intros H. assert (H0 : process_ok serving) by (unfold process_ok, serving; cbn; repeat split; try done; by intros ?%elem_of_nil).
  enough (process_ok p) as (Hp & _) by exact Hp. induction H as [|p p1 p2 H _ IH]; [done|]. by eapply IH, process_step_ok.
Qed.

(** [Shutdown] makes [ListenAndServe] return at once, and nothing waits for it: the
    process can end while a request is still being served, although [Shutdown] was given
    five seconds for it. *)
Theorem exit_cuts_requests : exists p, rtc process_step serving p /\ lc_main p = m_exited /\ lc_drained p = false /\ lc_inflight p = 1%nat.
Proof.
  exists {| lc_main := m_exited; lc_done := true; lc_shut := true; lc_drained := false; lc_errc := []; lc_inflight := 1 |}. split; [|done].
  eapply rtc_l; [by apply st_request|]. eapply rtc_l; [by apply st_signal|]. eapply rtc_l; [by apply st_shutdown|].
  eapply rtc_l; [by apply (st_main_err _ e_closed [])|]. eapply rtc_l; [by apply st_main_exit|]. apply rtc_refl.
Qed.

End Lifecycle.
