(* ===== verification/Captive.v ===== *)
(** * captive: the daemon unauthorized clients are sent to

    Models captive/socks.go, captive/redirect.go, the connection handler of
    captive/main.go and its counters.  Connections are those of [Dispatch]. *)

From S2P Require Import Prelude GoStrings Netip GoNet Sha256 Tokens Dispatch.
Import Tokens Dispatch.

Module Captive.

(** ** captive/socks.go *)

Definition socksVersion : Z := 0x05.
Definition methodNoAuth : Z := 0x00.
Definition repCommandNotSupported : Z := 0x07.
Definition repAddressTypeNotAllowed : Z := 0x08.

Definition writeSocksReply (rep : Z) : Conn unit := Write [socksVersion; rep; 0x00; atypIPv4; 0; 0; 0; 0; 0; 0].

(** The number of address bytes, read from the connection for a name. *)
Definition addr_len (atyp : Z) : Conn nat :=
  if atyp =? atypIPv4 then mret 4%nat
  else if atyp =? atypIPv6 then mret 16%nat
  else if atyp =? atypDomain then lb ← ReadFull 1; mret (Z.to_nat (nth 0 lb 0))
  else fail BadAtyp.

Definition discardAddrPort (atyp : Z) : Conn unit :=
  n ← addr_len atyp;
  _ ← ReadFull (n + 2);
  mret tt.

Definition socksAccept : Conn unit :=
  hdr ← ReadFull 2;
  if negb (nth 0 hdr 0 =? socksVersion) then fail NotSocks5 else
  _ ← ReadFull (Z.to_nat (nth 1 hdr 0));
  Write [socksVersion; methodNoAuth] ;;
  req ← ReadFull 4;
  if negb (nth 0 req 0 =? socksVersion) then fail NotSocks5 else
  discardAddrPort (nth 3 req 0) ;;
  if negb (nth 1 req 0 =? cmdConnect) then ignore_err (writeSocksReply repCommandNotSupported) ;; fail errUnsupported
  else writeSocksReply repSucceeded.

(** ** captive/redirect.go *)

Definition maxRequestLine : nat := Z.to_nat (8 * 2 ^ 10).

Definition knownHTTPMethods : list gostr :=
  map bs ["GET "; "POST "; "HEAD "; "PUT "; "DELETE "; "OPTIONS "; "PATCH "; "TRACE "; "CONNECT "]%string.

Definition looksLikeHTTP (line : gostr) : bool := existsb (HasPrefix line) knownHTTPMethods.

(** [br.ReadString('\n')]: the line with its newline, whether the input ended
    before one, and the rest. *)
Fixpoint ReadString (s : list Z) : gostr * bool * list Z :=
  match s with
  | [] => ([], true, [])
  | c :: r => if c =? 10 then ([10], false, r)
              else let '(line, eof, rest) := ReadString r in (c :: line, eof, rest)
  end.

(** [strings.TrimRight(s, "\r\n")] *)
Fixpoint TrimCRLF (s : gostr) : gostr :=
  match s with
  | [] => []
  | c :: r => match TrimCRLF r with
              | [] => if (c =? 13) || (c =? 10) then [] else [c]
              | r' => c :: r'
              end
  end.

Section Redirect.
Context `{GoUnicode}.

(** Every iteration reads at least one byte (see [hostFromHeaders_fuel]). *)
Fixpoint hostFromHeaders_loop (fuel : nat) (s : list Z) : gostr :=
  match fuel with
  | O => []
  | S fuel =>
      let '(line, eof, rest) := ReadString s in
      if bool_decide (line = []) || eof then [] else
      let line := TrimCRLF line in
      if bool_decide (line = []) then [] else
      match Cut line 58 with
      | Some (k, v) => if strings_EqualFold (strings_TrimSpace k) (bs "host") then strings_TrimSpace v
                       else hostFromHeaders_loop fuel rest
      | None => hostFromHeaders_loop fuel rest
      end
  end.

Definition hostFromHeaders (s : list Z) : gostr := hostFromHeaders_loop (S (length s)) s.

(** [url.Values.Encode] sorts by key. *)
Definition encode_query (t dest : gostr) : gostr :=
  (if bool_decide (dest = []) then [] else bs "dest=" ++ QueryEscape dest ++ bs "&") ++ bs "t=" ++ QueryEscape t.

Definition buildPortalURL (portalBase : gostr) (src : Addr) (origHost : gostr) (secret : list Z) (expUnix : Z) : gostr :=
  let sep := if existsb (Z.eqb 63) portalBase then bs "&" else bs "?" in
  portalBase ++ sep ++ encode_query (Sign secret src expUnix) origHost.

Definition crlf : gostr := [13; 10].
Definition redirect_body : gostr := bs "Redirecting to the fips-exit portal." ++ [10].

Definition redirect_response (location : gostr) : gostr :=
  bs "HTTP/1.1 302 Found" ++ crlf ++
  bs "Location: " ++ location ++ crlf ++
  bs "Cache-Control: no-store" ++ crlf ++
  bs "Content-Type: text/plain; charset=utf-8" ++ crlf ++
  bs "Content-Length: " ++ FormatInt (Z.of_nat (length redirect_body)) ++ crlf ++
  bs "Connection: close" ++ crlf ++ crlf ++ redirect_body.

Definition serveRedirect (src : Addr) (portalBase : gostr) (secret : list Z) (expUnix : Z) : Conn bool := fun c =>
  let '(line, eof, rest) := ReadString (take maxRequestLine (cn_in c)) in
  let c := {| cn_in := drop maxRequestLine (cn_in c); cn_out := cn_out c; cn_fails := cn_fails c |} in
  if bool_decide (line = []) then (Err ShortRead, c) else
  if negb (looksLikeHTTP line) then (Ok false, c) else
  let host := hostFromHeaders rest in
  let location := buildPortalURL portalBase src host secret expUnix in
  match Write (redirect_response location) c with
  | (Ok _, c) => (Ok true, c)
  | (Err e, c) => (Err e, c)
  end.

(** ** captive/main.go *)

Record captiveConfig := { cc_listen : gostr; cc_portalURL : gostr; cc_secret : list Z; cc_maxConns : Z; cc_ioTimeout : Z }.

Definition getenv (env : gostr -> gostr) (k def : gostr) : gostr := if bool_decide (env k = []) then def else env k.
Definition getenvInt (env : gostr -> gostr) (k : gostr) (def : Z) : Z := if bool_decide (env k = []) then def else default def (ParseInt (env k)).

(** [None] is an error, which ends the process. *)
Definition loadConfig (env : gostr -> gostr) : option captiveConfig :=
  if bool_decide (env (bs "CAPTIVE_PORTAL_URL") = []) then None else
  if bool_decide (env (bs "CAPTIVE_TOKEN_SECRET") = []) then None else
  Some {| cc_listen := getenv env (bs "CAPTIVE_LISTEN") (bs "[::1]:1080"); cc_portalURL := env (bs "CAPTIVE_PORTAL_URL");
          cc_secret := env (bs "CAPTIVE_TOKEN_SECRET"); cc_maxConns := getenvInt env (bs "CAPTIVE_MAX_CONNS") 1024;
          cc_ioTimeout := i64 (getenvInt env (bs "CAPTIVE_IO_TIMEOUT_S") 10 * time_Second) |}.

Record captiveMetrics := { cm_connections : Z; cm_redirects : Z; cm_refused : Z; cm_shed : Z }.

Definition newCaptiveMetrics : captiveMetrics :=
  {| cm_connections := 0; cm_redirects := 0; cm_refused := 0; cm_shed := 0 |}.
Definition m_conn (m : captiveMetrics) : captiveMetrics :=
  {| cm_connections := cm_connections m + 1; cm_redirects := cm_redirects m; cm_refused := cm_refused m; cm_shed := cm_shed m |}.
Definition m_redirect (m : captiveMetrics) : captiveMetrics :=
  {| cm_connections := cm_connections m; cm_redirects := cm_redirects m + 1; cm_refused := cm_refused m; cm_shed := cm_shed m |}.
Definition m_refuse (m : captiveMetrics) : captiveMetrics :=
  {| cm_connections := cm_connections m; cm_redirects := cm_redirects m; cm_refused := cm_refused m + 1; cm_shed := cm_shed m |}.
Definition m_shedConn (m : captiveMetrics) : captiveMetrics :=
  {| cm_connections := cm_connections m; cm_redirects := cm_redirects m; cm_refused := cm_refused m; cm_shed := cm_shed m + 1 |}.

(** [ip] is the slice in the remote TCP address. *)
Definition sourceAddr (ip : list Z) : Addr :=
  match length ip with
  | 4%nat => AddrFrom4 ip
  | 16%nat => Unmap (AddrFrom16 ip)
  | _ => AddrZero
  end.

(** Reading the clock once, between the handshake and the redirect. *)
Definition handle (cfg : captiveConfig) (ip : list Z) (now : Z) (m : captiveMetrics) (c : conn) : captiveMetrics * conn :=
  let src := sourceAddr ip in
  match socksAccept c with
  | (Err _, c) => (m_refuse m, c)
  | (Ok _, c) =>
      let exp := time_Unix (now + TTLSeconds * time_Second) in
      match serveRedirect src (cc_portalURL cfg) (cc_secret cfg) exp c with
      | (Ok true, c) => (m_redirect m, c)
      | (_, c) => (m_refuse m, c)
      end
  end.

(** The [select] of the accept loop: [busy] connections are being handled. *)
Definition accept (busy : Z) (cfg : captiveConfig) (ip : list Z) (now : Z) (m : captiveMetrics) (c : conn)
    : captiveMetrics * conn :=
  if busy <? cc_maxConns cfg then handle cfg ip now (m_conn m) c else (m_shedConn m, c).
End Redirect.

End Captive.
