(* ===== verification/CaptiveFacts.v ===== *)
(** * captive: theorems about the redirect

    An HTTP client is sent to the portal with a token that names the very address
    it came from, whatever it puts in its headers; every other client gets no
    application data at all. *)

From S2P Require Import Prelude GoStrings Netip GoNet Sha256 Tokens Dispatch DispatchFacts Captive.
Import Tokens Dispatch DispatchFacts Captive.

Module CaptiveFacts.

Section Facts.
Context `{GoUnicode}.

(** ** The handshake *)

Lemma discard_ok atyp field port c r : addr_field atyp field -> length port = 2%nat ->
  cn_in c = field ++ port ++ r -> discardAddrPort atyp c = (Ok tt, with_in c r).
Proof.
  intros Hf Hp E. unfold discardAddrPort, addr_len, mbind, conn_bind, mret, conn_ret.
  destruct Hf as [b Hl|b Hl|n name ->]; cbn [atypIPv4 atypIPv6 atypDomain Z.eqb Pos.eqb].
  - by rewrite (ReadFull_app _ c (b ++ port) r) by (rewrite ?E, ?length_app, <- ?app_assoc; done || lia).
  - by rewrite (ReadFull_app _ c (b ++ port) r) by (rewrite ?E, ?length_app, <- ?app_assoc; done || lia).
  - rewrite (ReadFull_app 1 c [Z.of_nat (length name)] ((name ++ port) ++ r)) by (rewrite ?E, <- ?app_assoc; done).
    cbn [nth]. rewrite Nat2Z.id. by rewrite (ReadFull_app _ _ (name ++ port) r) by (rewrite ?length_app; done || lia).
Qed.

Definition accepted_reply : list Z := [socksVersion; repSucceeded; 0; atypIPv4; 0; 0; 0; 0; 0; 0].

Lemma socksAccept_ok methods rsv atyp field port c r : healthy c -> addr_field atyp field -> length port = 2%nat ->
  cn_in c = greeting methods ++ request cmdConnect rsv atyp field port ++ r ->
  socksAccept c = (Ok tt, wrote (with_in c r) ([socksVersion; methodNoAuth] ++ accepted_reply)).
Proof.
  intros Hh Hf Hp E. unfold socksAccept, mbind, conn_bind.
  rewrite (ReadFull_app 2 c [ver; Z.of_nat (length methods)] (methods ++ request cmdConnect rsv atyp field port ++ r)) by done.
  cbn [nth]. change (negb (ver =? socksVersion)) with false. cbn beta iota. rewrite Nat2Z.id.
  rewrite (ReadFull_app _ _ methods (request cmdConnect rsv atyp field port ++ r)) by done. rewrite Write_healthy by done.
  rewrite (ReadFull_app 4 _ [ver; cmdConnect; rsv; atyp] (field ++ port ++ r)) by (unfold request; cbn; by rewrite <- ?app_assoc).
  cbn [nth]. change (negb (ver =? socksVersion)) with false. change (negb (cmdConnect =? cmdConnect)) with false. cbn beta iota.
  rewrite (discard_ok atyp field port _ r) by done. unfold writeSocksReply. rewrite Write_healthy by done.
  unfold wrote, with_in. cbn [cn_out cn_in cn_fails]. by rewrite <- app_assoc.
Qed.

(** ** The location *)

(** The two parameters are read back as they were set. *)
Lemma encode_query_get t dest : Forall in_u8 t -> Forall in_u8 dest ->
  QueryGet (encode_query t dest) (bs "t") = t /\ QueryGet (encode_query t dest) (bs "dest") = dest.
Proof.
  intros Ht Hd.
  assert (E : encode_query t dest = form_encode ((if bool_decide (dest = []) then [] else [(bs "dest", dest)]) ++ [(bs "t", t)]))
    by (unfold encode_query; case_bool_decide; cbn -[QueryEscape]; rewrite <- ?app_assoc; done).
  rewrite E, !form_get by (case_bool_decide; repeat (apply Forall_cons_2; [split; [done|split; [by apply bytes_check|done]]|]); constructor).
  case_bool_decide; subst; done.
Qed.

(** The bytes of the query break neither an URL nor a header line. *)
Lemma encode_query_plain t dest c : Forall in_u8 t -> Forall in_u8 dest -> c = 10 \/ c = 13 \/ c = 35 \/ c = 63 -> c ∉ encode_query t dest.
Proof.
  intros Ht Hd Hc. assert (Ne : ~ escaped_char c) by (apply not_escaped; by destruct Hc as [-> |[-> |[-> | ->]]]).
  assert (Nl : forall l, existsb (fun x => (x =? 10) || (x =? 13) || (x =? 35) || (x =? 63)) l = false -> c ∉ l).
  { intros l El Hin. apply not_true_iff_false in El. apply El, existsb_exists. exists c. split; [by apply list_elem_of_In|].
    destruct Hc as [-> |[-> |[-> | ->]]]; done. }
  unfold encode_query. intros Hin. rewrite elem_of_app in Hin. destruct Hin as [Hin|Hin].
  - case_bool_decide; [by apply not_elem_of_nil in Hin|]. rewrite !elem_of_app in Hin.
    destruct Hin as [Hin|[Hin|Hin]]; [by revert Hin; apply Nl|by revert Hin; apply escaped_notin|by revert Hin; apply Nl].
  - rewrite elem_of_app in Hin. destruct Hin as [Hin|Hin]; [by revert Hin; apply Nl|by revert Hin; apply escaped_notin].
Qed.

(** ** The host header *)

Lemma trim_left_sub s : exists a, s = a ++ trim_left s.
Proof. induction s as [|c r [a IH]]; [by exists []|]. cbn. destruct (is_space c); [exists (c :: a); cbn; by f_equal|by exists []]. Qed.

Lemma strings_TrimSpace_bytes s : Forall in_u8 s -> Forall in_u8 (strings_TrimSpace s).
Proof.
  intros Hs. unfold strings_TrimSpace. destruct (is_ascii s).
  - unfold TrimSpace. rewrite Forall_reverse.
    assert (K : forall l, Forall in_u8 l -> Forall in_u8 (trim_left l)).
    { intros l Hl. destruct (trim_left_sub l) as [a E]. rewrite E in Hl. by apply Forall_app in Hl as [_ ?]. }
    apply K. rewrite Forall_reverse. by apply K.
  - destruct (unicode_TrimSpace_sub s) as (a & b & E). rewrite E, !Forall_app in Hs. tauto.
Qed.

Lemma ReadString_split s line eof rest : ReadString s = (line, eof, rest) -> s = line ++ rest /\ (line = [] -> eof = true).
Proof.
  revert line eof rest. induction s as [|c r IH]; intros line eof rest E; cbn in E; [by injection E as <- <- <-|].
  destruct (c =? 10) eqn:Ec; [apply Z.eqb_eq in Ec as ->; by injection E as <- <- <-|].
  destruct (ReadString r) as [[l e] t]. injection E as <- <- <-. destruct (IH l e t eq_refl) as [-> _]. done.
Qed.

Lemma TrimCRLF_prefix s : exists b, s = TrimCRLF s ++ b.
Proof.
  induction s as [|c r [b IH]]; [by exists []|]. cbn. destruct (TrimCRLF r) as [|x t] eqn:E.
  - destruct ((c =? 13) || (c =? 10)); [by exists (c :: r)|by exists r].
  - exists b. cbn. by f_equal.
Qed.

Lemma Cut_split s sep b a : Cut s sep = Some (b, a) -> s = b ++ sep :: a.
Proof.
  revert b a. induction s as [|c r IH]; intros b a E; cbn in E; [done|]. destruct (c =? sep) eqn:Ec.
  - apply Z.eqb_eq in Ec as ->. by injection E as <- <-.
  - destruct (Cut r sep) as [[b' a']|]; [|done]. injection E as <- <-. cbn. f_equal. by apply IH.
Qed.

(** The loop reads every header with as much fuel as there are bytes. *)
Lemma hostFromHeaders_fuel fuel s : (length s < fuel)%nat -> hostFromHeaders_loop fuel s = hostFromHeaders s.
Proof.
  unfold hostFromHeaders. enough (K : forall n m s, (length s < n)%nat -> (length s < m)%nat -> hostFromHeaders_loop n s = hostFromHeaders_loop m s)
    by (intros Hf; apply K; lia).
  clear. induction n as [|n IH]; intros [|m] s Hn Hm; try lia. cbn [hostFromHeaders_loop].
  destruct (ReadString s) as [[line eof] rest] eqn:E. apply ReadString_split in E as [-> He].
  case_bool_decide as El; [done|]. cbn [orb]. destruct eof; [done|]. rewrite length_app in *.
  assert (length line <> 0%nat) by (intros ?%length_zero_iff_nil; done).
  case_bool_decide; [done|]. destruct (Cut _ _) as [[k v]|]; [destruct (strings_EqualFold _ _); [done|]|]; apply IH; lia.
Qed.

Lemma hostFromHeaders_bytes s : Forall in_u8 s -> Forall in_u8 (hostFromHeaders s).
Proof.
  unfold hostFromHeaders. generalize (S (length s)). intros n. revert s. induction n as [|n IH]; intros s Hs; [constructor|].
  cbn [hostFromHeaders_loop]. destruct (ReadString s) as [[line eof] rest] eqn:E. apply ReadString_split in E as [-> _].
  apply Forall_app in Hs as [Hl Hr]. case_bool_decide; [constructor|]. destruct eof; [constructor|]. cbn [orb].
  case_bool_decide; [constructor|]. destruct (Cut _ _) as [[k v]|] eqn:Ec; [|by apply IH].
  destruct (strings_EqualFold _ _); [|by apply IH]. apply strings_TrimSpace_bytes. apply Cut_split in Ec.
  destruct (TrimCRLF_prefix line) as [b Eb]. rewrite Eb, Ec in Hl. apply Forall_app in Hl as [Hl _].
  apply Forall_app in Hl as [_ Hl]. by apply Forall_cons in Hl as [_ ?].
Qed.

(** ** The redirect *)

Lemma sourceAddr_wf ip : Forall in_u8 ip -> length ip = 4%nat \/ length ip = 16%nat ->
  addr_wf (sourceAddr ip) /\ zoneless (sourceAddr ip).
Proof.
  intros Hb Hl. unfold sourceAddr. destruct Hl as [Hl|Hl]; rewrite Hl; [by split; [apply from4_wf|]|].
  pose proof (from16_wf ip Hb Hl) as Hw. unfold Unmap, AddrFrom16 in *. destruct (Is4In6 _); [|done].
  split; [|done]. apply Z.mod_pos_bound. lia.
Qed.

Lemma Sign_bytes secret a exp : addr_wf a -> zoneless a -> Forall in_u8 (Sign secret a exp).
Proof.
  intros H1 H2. apply B64Encode_bytes. repeat apply Forall_app_2; auto using addr_bytes, FormatInt_bytes, B64Encode_bytes, mac16_bytes;
    by repeat constructor.
Qed.

(** The location for a base without query and fragment. *)
Lemma location_ok base src host secret exp : addr_wf src -> zoneless src -> Forall in_u8 host ->
  (forall c, c ∈ base -> c ∉ [10; 13; 35; 63]) ->
  let loc := buildPortalURL base src host secret exp in
  (10 ∉ loc) /\ (13 ∉ loc) /\ QueryGet (RawQuery loc) (bs "t") = Sign secret src exp /\ QueryGet (RawQuery loc) (bs "dest") = host.
Proof.
  intros H1 H2 Hh Hb loc. pose proof (Sign_bytes secret src exp H1 H2) as Hs.
  assert (Nb : forall c, c = 10 \/ c = 13 \/ c = 35 \/ c = 63 -> c ∉ base).
  { intros c Hc Hin. apply (Hb c Hin). rewrite !elem_of_cons. tauto. }
  assert (E : loc = base ++ 63 :: encode_query (Sign secret src exp) host).
  { subst loc. unfold buildPortalURL. destruct (existsb (Z.eqb 63) base) eqn:Ex; [|done].
    apply existsb_exists in Ex as (x & Hx%list_elem_of_In & <-%Z.eqb_eq). exfalso. apply (Nb 63); tauto. }
  assert (Nq : forall c, c = 10 \/ c = 13 \/ c = 35 \/ c = 63 -> c ∉ encode_query (Sign secret src exp) host)
    by (intros c; by apply encode_query_plain).
  assert (Nl : forall c, c = 10 \/ c = 13 \/ c = 35 -> c ∉ loc).
  { intros c Hc. rewrite E, elem_of_app, elem_of_cons. intros [Hin|[->|Hin]]; [apply (Nb c); tauto|lia|apply (Nq c); tauto]. }
  split; [apply Nl; tauto|]. split; [apply Nl; tauto|].
  assert (Er : RawQuery loc = encode_query (Sign secret src exp) host).
  { unfold RawQuery. rewrite (Cut_notin loc 35) by (apply Nl; tauto). rewrite E, Cut_app by (apply Nb; tauto). done. }
  rewrite Er. by apply encode_query_get.
Qed.

(** What a client of the SOCKS handshake has received. *)
Definition handshake : list Z := [socksVersion; methodNoAuth] ++ accepted_reply.

(** [C17] The captive redirect.  A client that asks to connect anywhere and then
    speaks HTTP gets one response with exactly the daemon's header lines: its
    location is the portal with a token that verifies, until it expires, to the
    very address the client came from, and with the Host header as sent, whatever
    bytes that header holds.  A client that speaks anything else gets no byte of
    application data. *)
Theorem captive_redirect cfg ip now m c methods rsv atyp field port http :
  healthy c -> cn_out c = [] -> addr_field atyp field -> length port = 2%nat ->
  cn_in c = greeting methods ++ request cmdConnect rsv atyp field port ++ http ->
  Forall in_u8 http -> Forall in_u8 ip -> length ip = 4%nat \/ length ip = 16%nat ->
  (forall b, b ∈ cc_portalURL cfg -> b ∉ [10; 13; 35; 63]) ->
  let exp := time_Unix (now + TTLSeconds * time_Second) in in_i64 exp ->
  let r := handle cfg ip now m c in
  let '(line, _, headers) := ReadString (take maxRequestLine http) in
  if looksLikeHTTP line then
    exists loc, r.1 = m_redirect m /\ cn_out r.2 = handshake ++ redirect_response loc /\
      (10 ∉ loc) /\ (13 ∉ loc) /\
      (forall t, Verify (cc_secret cfg) (QueryGet (RawQuery loc) (bs "t")) t =
                 if exp <? t then Err ErrExpired else Ok (sourceAddr ip)) /\
      QueryGet (RawQuery loc) (bs "dest") = hostFromHeaders headers
  else r.1 = m_refuse m /\ cn_out r.2 = handshake.
Proof.
  intros Hh Oc Hf Hp Ec Hb Hi Hl Hu exp He r. destruct (ReadString (take maxRequestLine http)) as [[line eof] headers] eqn:El.
  assert (Hhd : Forall in_u8 headers).
  { apply ReadString_split in El as [El _]. apply (Forall_take _ maxRequestLine) in Hb. rewrite El in Hb. by apply Forall_app in Hb as [_ ?]. }
  destruct (sourceAddr_wf ip Hi Hl) as [Hw Hz].
  destruct (location_ok (cc_portalURL cfg) (sourceAddr ip) (hostFromHeaders headers) (cc_secret cfg) exp Hw Hz
    (hostFromHeaders_bytes headers Hhd) Hu) as (N1 & N2 & Et & Ed).
  subst r. unfold handle. rewrite (socksAccept_ok methods rsv atyp field port c http) by done.
  unfold serveRedirect. cbn [cn_in cn_out cn_fails wrote with_in]. rewrite El.
  destruct (looksLikeHTTP line) eqn:Ell.
  - rewrite bool_decide_false by (intros ->; done). cbn [negb]. rewrite Write_healthy by exact Hh.
    exists (buildPortalURL (cc_portalURL cfg) (sourceAddr ip) (hostFromHeaders headers) (cc_secret cfg) exp).
    split; [reflexivity|]. split; [cbn [cn_out wrote snd]; by rewrite Oc|]. split; [exact N1|]. split; [exact N2|].
    split; [|exact Ed]. intros t. rewrite Et. by apply Verify_Sign.
  - case_bool_decide; cbn [negb fst snd cn_out]; rewrite Oc; done.
Qed.
End Facts.

End CaptiveFacts.
