(* ===== verification/GateExamples.v ===== *)
(** * dispatch and captive: concrete connections

    The theorems of [DispatchFacts] and [CaptiveFacts] applied to concrete bytes. *)

From S2P Require Import Prelude GoStrings Netip GoNet Sha256 Tokens Dispatch DispatchFacts Captive CaptiveFacts.
Import Dispatch DispatchFacts.

Module Connections.

(** A library whose tables know no case and no space beyond ASCII. *)
#[local] Instance ascii_tables : GoUnicode.
Proof.
  refine {| unicode_ToLower := fun s => s; unicode_TrimSpace := fun s => s; unicode_EqualFold := fun s t => bool_decide (s = t) |}.
  intros s. exists [], []. by rewrite app_nil_r.
Defined.

Definition defaults : config := loadConfig (fun _ => []).

Example route_onion : map (fun h => (pickUpstream (bs h) true defaults).1)
    ["abcdefghij.onion"; "ABCDEFGHIJ.ONION"; "abcdefghij.onion."; "onion.example.com"; "myonion.com"]%string =
  [bs "127.0.0.1:9052"; bs "127.0.0.1:9052"; bs "127.0.0.1:9052"; bs "127.0.0.1:1090"; bs "127.0.0.1:1090"].
Proof. reflexivity. Qed.

(** A client asks for an IPv4-mapped IPv6 address, the longest way round. *)
Definition mapped_field : list Z := replicate 10 0 ++ [255; 255; 203; 0; 113; 4].
Definition client_in : list Z := greeting [0; 2] ++ request cmdConnect 0 atypIPv6 mapped_field [1; 187] ++ [22; 3; 1].
Definition client : conn := {| cn_in := client_in; cn_out := []; cn_fails := [] |}.
Definition up_reply : list Z := reply_of 5 0 0 atypIPv4 [10; 0; 0; 1] [4; 210].
Definition upstream : conn := {| cn_in := [5; 0] ++ up_reply ++ [22; 3; 3]; cn_out := []; cn_fails := [] |}.
Definition dial (u : gostr) : option conn := if bool_decide (u = bs "127.0.0.1:1090") then Some upstream else None.

Lemma small_bytes l : forallb (fun b => (0 <=? b) && (b <? 256)) l = true -> Forall in_u8 l.
Proof.
  intros H. apply Forall_forall. intros b Hb%list_elem_of_In. rewrite forallb_forall in H. specialize (H b Hb).
  bool_hyps. unfold in_u8. lia.
Qed.

Lemma handle_forwards_verbatim_witness :
  h_tunnel (handle dial defaults client) = true /\
  cn_out (h_client (handle dial defaults client)) = [5; 0] ++ up_reply ++ [22; 3; 3].
Proof.
  destruct (handle_forwards_verbatim dial defaults client [0; 2] 0 atypIPv6 mapped_field 1 187 [22; 3; 1] upstream
    5 0 0 atypIPv4 [10; 0; 0; 1] [4; 210] [22; 3; 3]) as (_ & H1 & H2 & _).
  1, 2, 8, 11, 12, 14, 15: reflexivity.
  - by left.
  - by apply small_bytes.
  - by constructor.
  - unfold in_u8. lia.
  - unfold in_u8. lia.
  - discriminate.
  - vm_compute. reflexivity.
  - by constructor.
  - split; [exact H1|exact H2].
Defined.

Lemma no_false_success_witness :
  refusal (cn_out (h_client (handle (fun _ => None) defaults client))).
Proof. exact (no_false_success (fun _ => None) defaults client eq_refl). Defined.

(** Both sides fall silent one second after the start. *)
Lemma watchdog_bound_witness :
  exists fuel n, idleWatchdog (8 * time_Second) (readings (8 * time_Second) (fun _ => time_Second) (fun _ => time_Second)) 1 fuel = Some n /\
    tick_at (8 * time_Second) n <= 11 * time_Second.
Proof.
  destruct (watchdog_bound (8 * time_Second) (fun _ => time_Second) (fun _ => time_Second) time_Second eq_refl)
    as [_ H]; [discriminate|]. destruct H as (fuel & n & E & _ & H4); [intros k; split; discriminate|].
  exists fuel, n. split; [exact E|]. apply H4. discriminate.
Defined.

(** With a bound of one second the watchdog closes after almost two. *)
Theorem watchdog_slack :
  let last := time_Second / 100 in
  idleWatchdog time_Second (readings time_Second (fun _ => last) (fun _ => last)) 1 5 = Some 2%nat /\
  time_Second + time_Second / 4 < tick_at time_Second 2 - last.
Proof. split; vm_compute; reflexivity. Qed.

(** ** The captive daemon *)

Definition portal_cfg : Captive.captiveConfig :=
  {| Captive.cc_listen := bs "[::1]:1080"; Captive.cc_portalURL := bs "http://portal.fips/captive"; Captive.cc_secret := bs "secret";
     Captive.cc_maxConns := 1024; Captive.cc_ioTimeout := 10 * time_Second |}.
Definition captive_env (k : gostr) : gostr :=
  if bool_decide (k = bs "CAPTIVE_PORTAL_URL") then bs "http://portal.fips/captive"
  else if bool_decide (k = bs "CAPTIVE_TOKEN_SECRET") then bs "secret"
  else if bool_decide (k = bs "CAPTIVE_MAX_CONNS") then bs "many" else [].
Example portal_cfg_loaded : Captive.loadConfig captive_env = Some portal_cfg /\ Captive.loadConfig (fun _ => []) = None.
Proof. split; vm_compute; reflexivity. Qed.

Definition fips_source : list Z := 253 :: replicate 14 0 ++ [1].
Definition http_request : list Z :=
  bs "GET / HTTP/1.1" ++ [13; 10] ++ bs "HOST: a&t=x" ++ [13; 10; 13; 10].
Definition http_client : conn :=
  {| cn_in := greeting [0] ++ request cmdConnect 0 atypDomain (7 :: bs "example") [0; 80] ++ http_request;
     cn_out := []; cn_fails := [] |}.

Definition http_line : gostr := bs "GET / HTTP/1.1" ++ [13; 10].
Definition http_headers : gostr := bs "HOST: a&t=x" ++ [13; 10; 13; 10].

Lemma http_lines : Captive.ReadString (take Captive.maxRequestLine http_request) = (http_line, false, http_headers).
Proof. vm_compute. reflexivity. Qed.

Lemma http_recognized : Captive.looksLikeHTTP http_line = true.
Proof. vm_compute. reflexivity. Qed.

Lemma http_host : Captive.hostFromHeaders http_headers = bs "a&t=x".
Proof. vm_compute. reflexivity. Qed.

Lemma captive_redirect_witness :
  exists loc, cn_out (Captive.handle portal_cfg fips_source 0 Captive.newCaptiveMetrics http_client).2 =
                CaptiveFacts.handshake ++ Captive.redirect_response loc /\
    (10 ∉ loc) /\ QueryGet (RawQuery loc) (bs "dest") = bs "a&t=x".
Proof.
  pose proof (CaptiveFacts.captive_redirect portal_cfg fips_source 0 Captive.newCaptiveMetrics http_client [0] 0 atypDomain
    (7 :: bs "example") [0; 80] http_request eq_refl eq_refl ltac:(by constructor) eq_refl eq_refl
    ltac:(by apply small_bytes) ltac:(by apply small_bytes) ltac:(by right)) as H.
  specialize (H ltac:(intros b Hb; apply (bool_decide_eq_true_1 _); revert b Hb; apply Forall_forall; vm_compute; repeat constructor)).
  specialize (H ltac:(split; vm_compute; discriminate)).
  rewrite http_lines, http_recognized, http_host in H. destruct H as (loc & _ & H1 & H2 & _ & _ & H3).
  exists loc. split; [exact H1|]. split; [exact H2|exact H3].
Defined.

End Connections.
