(* ===== verification/AgentTypes.v ===== *)
(** * agent: wire types and the firewall interface

    Models agent/types.go (the typed contents of the agent/backend messages; their
    JSON is in [AgentClient] and [SystemWire]) and the [Firewall] interface of
    agent/firewall.go with the contract its comments state.  The agent's theorems
    are proved against the interface. *)

From S2P Require Import Prelude GoStrings Netip Authzhash.
Import Authzhash.

(** ** agent/types.go *)

Record enrollRequest := { er_EnrollToken : gostr; er_NodePubkey : gostr; er_Name : gostr }.
Record enrollResponse := { en_NodeID : gostr; en_AuthToken : gostr }.

Record authzMember := { am_Addr : Addr; am_Account : gostr }.

Record authzResponse := {
  az_Rev : Z;
  az_Full : bool;
  az_Addresses : list authzMember;
  az_Add : list authzMember;
  az_Del : list Addr;
  az_Force : bool
}.

Record usageSample := { us_Service : gostr; us_Addr : Addr; us_Bytes : Z }.

(** [ur_WindowEnd] is the instant, in Unix seconds, that the RFC 3339 text of
    the wire field denotes. *)
Record usageReport := {
  ur_ReportID : gostr;
  ur_CounterEpoch : gostr;
  ur_WindowEnd : Z;
  ur_Samples : list usageSample
}.

Record usageAck := { ua_Ack : gostr; ua_Revoke : list Addr }.

Record heartbeatRequest := {
  hr_Version : gostr;
  hr_AuthzRev : Z;
  hr_SetSize : Z;
  hr_SetHash : gostr;
  hr_WgPubkey : gostr;
  hr_WgEndpoint : gostr
}.

Record wgPeerInfo := { wi_Pubkey : gostr; wi_Addr : gostr; wi_IP4 : gostr; wi_IP6 : gostr }.
Record wgPeersResponse := { wp_Etag : gostr; wp_Peers : list wgPeerInfo }.

Record serviceInfo := { si_Key : gostr; si_Port : Z }.

Record wgConfig := { wc_Port : Z; wc_Pool4 : gostr; wc_Pool6 : gostr }.

Record agentConfig := {
  ac_UsageIntervalS : Z;
  ac_GraceMinutes : Z;
  ac_Services : list serviceInfo;
  ac_Wg : wgConfig
}.

Record heartbeatResponse := { hb_Config : agentConfig; hb_Resync : bool }.

#[export] Instance authzMember_eq_dec : EqDecision authzMember.
Proof. solve_decision. Defined.
#[export] Instance usageSample_eq_dec : EqDecision usageSample.
Proof. solve_decision. Defined.
#[export] Instance usageReport_eq_dec : EqDecision usageReport.
Proof. solve_decision. Defined.
#[export] Instance wgConfig_eq_dec : EqDecision wgConfig.
Proof. solve_decision. Defined.

(** ** agent/firewall.go: the interface *)

Record acctKey := { ak_Addr : Addr; ak_Port : Z }.

#[export] Instance acctKey_eq_dec : EqDecision acctKey.
Proof. solve_decision. Defined.
#[export] Instance acctKey_countable : Countable acctKey :=
  inj_countable' (fun k => (ak_Addr k, ak_Port k))
    (fun '(a, p) => {| ak_Addr := a; ak_Port := p |}) ltac:(by intros []).

(** Why a firewall call failed: the message of the underlying command. *)
Inductive fw_err := FwError.

(** [fw] is the kernel state behind the interface.  [fw_up] says that the
    underlying command can be run; while it can, the calls only fail for the
    reason the interface documents (a batch that names an absent member).
    Whenever a call fails, nothing is applied. *)
Class Firewall := {
  fw : Type;
  fw_set : fw -> gset Addr;
  fw_acct : fw -> gmap acctKey Z;
  fw_up : fw -> Prop;
  ListAuthorized : State fw (result fw_err (gset Addr));
  ApplyAuthorized : list Addr -> list Addr -> State fw (result fw_err unit);
  ReadAcct : State fw (result fw_err (gmap acctKey Z));
  DeleteAcct : list acctKey -> State fw (result fw_err unit);

  ListAuthorized_frame : forall f,
    fw_set (ListAuthorized f).2 = fw_set f /\ fw_acct (ListAuthorized f).2 = fw_acct f;
  ListAuthorized_ok : forall f s, (ListAuthorized f).1 = Ok s -> s = fw_set f;
  ListAuthorized_up : forall f, fw_up f ->
    is_ok (ListAuthorized f).1 = true /\ fw_up (ListAuthorized f).2;

  ApplyAuthorized_acct : forall add del f, fw_acct (ApplyAuthorized add del f).2 = fw_acct f;
  ApplyAuthorized_err : forall add del f e,
    (ApplyAuthorized add del f).1 = Err e -> fw_set (ApplyAuthorized add del f).2 = fw_set f;
  ApplyAuthorized_ok : forall add del f,
    (ApplyAuthorized add del f).1 = Ok tt ->
    fw_set (ApplyAuthorized add del f).2 = (fw_set f ∪ list_to_set add) ∖ list_to_set del;
  ApplyAuthorized_up : forall add del f, fw_up f -> NoDup del -> list_to_set del ⊆ fw_set f ->
    is_ok (ApplyAuthorized add del f).1 = true;
  ApplyAuthorized_still_up : forall add del f, fw_up f -> fw_up (ApplyAuthorized add del f).2;

  ReadAcct_frame : forall f, fw_set (ReadAcct f).2 = fw_set f /\ fw_acct (ReadAcct f).2 = fw_acct f;
  ReadAcct_ok : forall f m, (ReadAcct f).1 = Ok m -> m = fw_acct f;
  ReadAcct_up : forall f, fw_up f -> is_ok (ReadAcct f).1 = true /\ fw_up (ReadAcct f).2;

  DeleteAcct_set : forall keys f, fw_set (DeleteAcct keys f).2 = fw_set f;
  DeleteAcct_err : forall keys f e,
    (DeleteAcct keys f).1 = Err e -> fw_acct (DeleteAcct keys f).2 = fw_acct f;
  DeleteAcct_ok : forall keys f,
    (DeleteAcct keys f).1 = Ok tt ->
    fw_acct (DeleteAcct keys f).2 = filter (fun kv => kv.1 ∉ keys) (fw_acct f);
  DeleteAcct_up : forall keys f, fw_up f -> NoDup keys ->
    Forall (fun k => is_Some (fw_acct f !! k)) keys -> is_ok (DeleteAcct keys f).1 = true;
  DeleteAcct_still_up : forall keys f, fw_up f -> fw_up (DeleteAcct keys f).2
}.

(** ** agent/wg.go: the interface

    [wgPeer] and [WgIface]; [wg] is the state of the WireGuard interface. *)

Record wgPeer := { wg_Pubkey : gostr; wg_AllowedIPs : list gostr }.

#[export] Instance wgPeer_eq_dec : EqDecision wgPeer.
Proof. solve_decision. Defined.

Inductive wg_err := WgError.

(** Cryptokey routing: giving a peer its allowed IPs replaces the ones it had and
    takes them away from every other peer. *)
Definition wg_assign (m : gmap gostr wgPeer) (p : wgPeer) : gmap gostr wgPeer :=
  <[wg_Pubkey p := p]>
    ((fun q => {| wg_Pubkey := wg_Pubkey q;
                  wg_AllowedIPs := filter (fun ip => ip ∉ wg_AllowedIPs p) (wg_AllowedIPs q) |}) <$> m).

(** One [wg set]: the peers of [add] in order, then the removals. *)
Definition wg_set (add : list wgPeer) (del : list gostr) (m : gmap gostr wgPeer) : gmap gostr wgPeer :=
  foldl (fun m k => delete k m) (foldl wg_assign m add) del.

(** A peer that is listed back as it was given: its allowed IPs are sorted,
    distinct and in the form the tool prints. *)
Definition wg_row (plain : gostr -> Prop) (p : wgPeer) : Prop :=
  StronglySorted bytes_le (wg_AllowedIPs p) /\ NoDup (wg_AllowedIPs p) /\ Forall plain (wg_AllowedIPs p).

(** The peers of a listing, filed under their own keys. *)
Definition wg_listing (plain : gostr -> Prop) : gmap gostr wgPeer -> Prop :=
  map_Forall (fun k p => wg_Pubkey p = k /\ Forall plain (wg_AllowedIPs p)).

(** [wg_up] says that the command can be run; [wg_rejects] are the rows it
    refuses (a malformed key or allowed IP), [wg_plain] the allowed-IP texts it
    prints as they are given.  While the command can be run, a batch is applied as
    a whole, or refused as a whole because it holds a refused row. *)
Class WgIface := {
  wg : Type;
  wg_peers : wg -> gmap gostr wgPeer;
  wg_up : wg -> Prop;
  wg_rejects : wg -> wgPeer -> bool;
  wg_plain : gostr -> Prop;
  PublicKey : State wg (result wg_err gostr);
  ListPeers : State wg (result wg_err (gmap gostr wgPeer));
  SetPeers : list wgPeer -> list gostr -> State wg (result wg_err unit);
  wg_plain_text : forall ip, wg_plain ip -> ip <> [] /\ 44 ∉ ip;
  wg_up_listing : forall w, wg_up w -> wg_listing wg_plain (wg_peers w);
  PublicKey_frame : forall w, wg_peers (PublicKey w).2 = wg_peers w;
  ListPeers_frame : forall w, wg_peers (ListPeers w).2 = wg_peers w;
  ListPeers_ok : forall w m, (ListPeers w).1 = Ok m -> m = wg_peers w;
  ListPeers_up : forall w, wg_up w ->
    is_ok (ListPeers w).1 = true /\ wg_up (ListPeers w).2 /\ wg_rejects (ListPeers w).2 = wg_rejects w;
  SetPeers_up : forall add del w, wg_up w ->
    Forall (fun p => wg_rejects w p = false -> wg_row wg_plain p) add ->
    Forall (fun k => is_Some (wg_peers w !! k)) del ->
    wg_up (SetPeers add del w).2 /\ wg_rejects (SetPeers add del w).2 = wg_rejects w /\
    if existsb (wg_rejects w) add
    then (SetPeers add del w).1 = Err WgError /\ wg_peers (SetPeers add del w).2 = wg_peers w
    else (SetPeers add del w).1 = Ok tt /\ wg_peers (SetPeers add del w).2 = wg_set add del (wg_peers w)
}.

(** ** An in-memory firewall

    The behaviour of real nft that the repository's own test double reproduces,
    with a script of injected failures: each call consumes one entry, and an
    exhausted script means the command works. *)
Module MemFirewall.

Record memfw := {
  authorized : gset Addr;
  acct : gmap acctKey Z;
  faults : list bool
}.

Definition attempt {A} (op : memfw -> result fw_err A * memfw) : State memfw (result fw_err A) :=
  fun f => match faults f with
           | true :: r => (Err FwError, {| authorized := authorized f; acct := acct f; faults := r |})
           | false :: r => op {| authorized := authorized f; acct := acct f; faults := r |}
           | [] => op f
           end.

Definition list_authorized : State memfw (result fw_err (gset Addr)) :=
  attempt (fun f => (Ok (authorized f), f)).

Definition apply_authorized (add del : list Addr) : State memfw (result fw_err unit) :=
  attempt (fun f =>
    if forallb (fun a => bool_decide (a ∈ authorized f)) del then
      (Ok tt, {| authorized := (authorized f ∪ list_to_set add) ∖ list_to_set del;
                 acct := acct f; faults := faults f |})
    else (Err FwError, f)).

Definition read_acct : State memfw (result fw_err (gmap acctKey Z)) :=
  attempt (fun f => (Ok (acct f), f)).

Definition delete_acct (keys : list acctKey) : State memfw (result fw_err unit) :=
  attempt (fun f =>
    if forallb (fun k => bool_decide (is_Some (acct f !! k))) keys then
      (Ok tt, {| authorized := authorized f; acct := filter (fun kv => kv.1 ∉ keys) (acct f);
                 faults := faults f |})
    else (Err FwError, f)).

Ltac crush_fw :=
  intros; unfold list_authorized, apply_authorized, read_acct, delete_acct, attempt in *;
  repeat (case_scrutinee || (match goal with H : context [match _ with _ => _ end] |- _ =>
    case_scrutinee_in H end)); simpl in *; simplify_eq; try done.

#[export] Instance mem_firewall : Firewall.
Proof.
  refine {| fw := memfw; fw_set := authorized; fw_acct := acct; fw_up := fun f => faults f = [];
            ListAuthorized := list_authorized; ApplyAuthorized := apply_authorized;
            ReadAcct := read_acct; DeleteAcct := delete_acct |}; try solve [crush_fw].
  - crush_fw. apply not_true_iff_false in E0. exfalso. apply E0, forallb_forall.
    intros a Ha. apply bool_decide_eq_true. apply H1, elem_of_list_to_set. by apply list_elem_of_In.
  - crush_fw. apply not_true_iff_false in E0. exfalso. apply E0, forallb_forall.
    intros a Ha. apply bool_decide_eq_true. rewrite Forall_forall in H1. apply H1. by apply list_elem_of_In.
Defined.

End MemFirewall.

(** An in-memory WireGuard interface: a key, a peer table, and a predicate for
    the rows the tool rejects. *)
Module MemWg.

Record memwg := { key : option gostr; peers : gmap gostr wgPeer; rejects : wgPeer -> bool }.

Definition plain (ip : gostr) : Prop := ip <> [] /\ 44 ∉ ip.

Definition set_peers (add : list wgPeer) (del : list gostr) : State memwg (result wg_err unit) :=
  fun w =>
    if existsb (rejects w) add then (Err WgError, w)
    else (Ok tt, {| key := key w; peers := wg_set add del (peers w); rejects := rejects w |}).

Lemma wg_assign_listing m p : wg_listing plain m -> Forall plain (wg_AllowedIPs p) -> wg_listing plain (wg_assign m p).
Proof.
  intros Hm Hp k q. unfold wg_assign. destruct (decide (k = wg_Pubkey p)) as [->|Hne].
  - rewrite lookup_insert_eq. by intros [= <-].
  - rewrite lookup_insert_ne, lookup_fmap by done. destruct (m !! k) as [x|] eqn:E; [|done]. intros [= <-].
    destruct (Hm k x E) as [H1 H2]. split; [done|]. by apply Forall_filter_weaken.
Qed.

Lemma wg_set_listing add del m : wg_listing plain m -> Forall (fun p => Forall plain (wg_AllowedIPs p)) add ->
  wg_listing plain (wg_set add del m).
Proof.
  intros Hm Ha. unfold wg_set.
  assert (H : wg_listing plain (foldl wg_assign m add))
    by (revert m Hm; induction Ha as [|p r Hp _ IH]; intros m Hm; [done|]; cbn; by apply IH, wg_assign_listing).
  revert H. generalize (foldl wg_assign m add). induction del as [|k r IH]; intros m' H; [done|]. cbn. apply IH.
  by apply map_Forall_delete.
Qed.

#[export] Instance mem_wg : WgIface.
Proof.
  refine {| wg := memwg; wg_peers := peers; wg_up := fun w => wg_listing plain (peers w);
            wg_rejects := rejects; wg_plain := plain;
            PublicKey := fun w => (of_option WgError (key w), w);
            ListPeers := fun w => (Ok (peers w), w);
            SetPeers := set_peers |}; try done.
  - cbn. congruence.
  - intros add del w Hw Ha _. unfold set_peers. destruct (existsb (rejects w) add) eqn:E; cbn; [done|].
    split; [|done]. apply wg_set_listing; [done|]. eapply Forall_impl_in; [exact Ha|].
    intros p Hp H. apply H. apply not_true_iff_false. intros Hr. apply not_true_iff_false in E. apply E.
    apply existsb_exists. exists p. split; [by apply list_elem_of_In|done].
Defined.

End MemWg.
