(* ===== verification/AgentStore.v ===== *)
(** * agent: the persistent store

    Models agent/state.go: the identity and runtime files, the atomic write
    (temp file, fsync, rename, directory fsync) against a file system that can
    fail at every stage and lose power at every stage, and the recovery of a
    corrupt runtime file at start. *)

From S2P Require Import Prelude GoStrings Netip AgentTypes.

(** ** A directory entry, its temp file, and power loss *)

Inductive contents (A : Type) := Torn | Json (v : A).
Arguments Torn {A}.
Arguments Json {A} v.

(** [synced]: the data has reached stable storage. *)
Record inode (A : Type) := { data : contents A; synced : bool }.
Arguments data {A} _.
Arguments synced {A} _.

(** [tmp] is the entry [path + ".tmp"], [cur] the entry [path] as the running
    system sees it, [dur] the entry [path] as it is on stable storage. *)
Record pathfs (A : Type) := { tmp : option (inode A); cur : option (inode A); dur : option (inode A) }.
Arguments tmp {A} _.
Arguments cur {A} _.
Arguments dur {A} _.

Definition empty_path {A} : pathfs A := {| tmp := None; cur := None; dur := None |}.

(** [os.ReadFile] and [json.Unmarshal]: [None] when there is no readable file. *)
Definition readFile {A} (p : pathfs A) : option (contents A) := data <$> cur p.

(** The system calls of [writeJSONAtomic], in order. *)
Inductive wstage := AtOpen | AtWrite | AtSync | AtClose | AtRename | AtDirSync.

#[export] Instance wstage_eq_dec : EqDecision wstage.
Proof. solve_decision. Defined.

Inductive io_err := IoError (at_ : wstage).

Definition set_tmp {A} (i : option (inode A)) (p : pathfs A) : pathfs A :=
  {| tmp := i; cur := cur p; dur := dur p |}.

Definition fails (fault : option wstage) (st : wstage) : bool := bool_decide (fault = Some st).

(** [writeJSONAtomic]; [fault] is the call that fails, if any.  A failing write
    leaves a torn temp file; the directory fsync's failure is ignored by the
    code. *)
Definition writeJSONAtomic {A} (v : A) (fault : option wstage) : State (pathfs A) (result io_err unit) :=
  fun p =>
    if fails fault AtOpen then (Err (IoError AtOpen), p) else
    let p := set_tmp (Some {| data := Torn; synced := false |}) p in
    if fails fault AtWrite then (Err (IoError AtWrite), p) else
    let p := set_tmp (Some {| data := Json v; synced := false |}) p in
    if fails fault AtSync then (Err (IoError AtSync), p) else
    let p := set_tmp (Some {| data := Json v; synced := true |}) p in
    if fails fault AtClose then (Err (IoError AtClose), p) else
    if fails fault AtRename then (Err (IoError AtRename), p) else
    let p := {| tmp := None; cur := tmp p; dur := dur p |} in
    if fails fault AtDirSync then (Ok tt, p) else
    (Ok tt, {| tmp := tmp p; cur := cur p; dur := cur p |}).

(** Power loss: the directory comes back with either entry, and a file whose
    data was not synced may come back torn. *)
Inductive inode_survives {A} : option (inode A) -> option (inode A) -> Prop :=
| survive_none : inode_survives None None
| survive_data d b : inode_survives (Some {| data := d; synced := b |}) (Some {| data := d; synced := true |})
| survive_torn d : inode_survives (Some {| data := d; synced := false |}) (Some {| data := Torn; synced := true |}).

Inductive power_loss {A} (p : pathfs A) : pathfs A -> Prop :=
| lose e e' t : e = cur p \/ e = dur p -> inode_survives e e' ->
    power_loss p {| tmp := t; cur := e'; dur := e' |}.

(** The entry is on stable storage and so is its data. *)
Definition settled {A} (p : pathfs A) : Prop :=
  cur p = dur p /\ match cur p with Some i => synced i = true | None => True end.

(** ** identity and runtime *)

Record identity := { id_NodeID : gostr; id_AuthToken : gostr; id_PrivSeedB64 : gostr }.

Record runtime := {
  rt_AuthzRev : Z;
  rt_CounterEpoch : gostr;
  rt_Baselines : gmap gostr Z;
  rt_BufferedUsage : list usageReport;
  rt_LastAuthzOK : Z;
  rt_PrimeBaselines : bool
}.

Definition empty_runtime : runtime :=
  {| rt_AuthzRev := 0; rt_CounterEpoch := []; rt_Baselines := ∅; rt_BufferedUsage := [];
     rt_LastAuthzOK := 0; rt_PrimeBaselines := false |}.

Definition set_AuthzRev (r : Z) (t : runtime) : runtime :=
  {| rt_AuthzRev := r; rt_CounterEpoch := rt_CounterEpoch t; rt_Baselines := rt_Baselines t;
     rt_BufferedUsage := rt_BufferedUsage t; rt_LastAuthzOK := rt_LastAuthzOK t;
     rt_PrimeBaselines := rt_PrimeBaselines t |}.
Definition set_LastAuthzOK (x : Z) (t : runtime) : runtime :=
  {| rt_AuthzRev := rt_AuthzRev t; rt_CounterEpoch := rt_CounterEpoch t; rt_Baselines := rt_Baselines t;
     rt_BufferedUsage := rt_BufferedUsage t; rt_LastAuthzOK := x;
     rt_PrimeBaselines := rt_PrimeBaselines t |}.
Definition set_Baselines (b : gmap gostr Z) (e : gostr) (t : runtime) : runtime :=
  {| rt_AuthzRev := rt_AuthzRev t; rt_CounterEpoch := e; rt_Baselines := b;
     rt_BufferedUsage := rt_BufferedUsage t; rt_LastAuthzOK := rt_LastAuthzOK t;
     rt_PrimeBaselines := rt_PrimeBaselines t |}.
Definition set_BufferedUsage (l : list usageReport) (t : runtime) : runtime :=
  {| rt_AuthzRev := rt_AuthzRev t; rt_CounterEpoch := rt_CounterEpoch t; rt_Baselines := rt_Baselines t;
     rt_BufferedUsage := l; rt_LastAuthzOK := rt_LastAuthzOK t;
     rt_PrimeBaselines := rt_PrimeBaselines t |}.
Definition set_PrimeBaselines (b : bool) (t : runtime) : runtime :=
  {| rt_AuthzRev := rt_AuthzRev t; rt_CounterEpoch := rt_CounterEpoch t; rt_Baselines := rt_Baselines t;
     rt_BufferedUsage := rt_BufferedUsage t; rt_LastAuthzOK := rt_LastAuthzOK t;
     rt_PrimeBaselines := b |}.

(** The state directory.  [d_faults] scripts the outcome of the coming writes,
    an exhausted script meaning they succeed; [d_aside] collects the corrupt
    runtime files that were moved away. *)
Record disk := {
  d_id : pathfs identity;
  d_rt : pathfs runtime;
  d_aside : list (contents runtime);
  d_faults : list (option wstage)
}.

Record store := { s_disk : disk; s_id : option identity; s_rt : runtime }.

Definition next_fault (d : disk) : option wstage :=
  match d_faults d with f :: _ => f | [] => None end.

Definition write_runtime (v : runtime) : State disk (result io_err unit) :=
  fun d => let '(r, p) := writeJSONAtomic v (next_fault d) (d_rt d) in
           (r, {| d_id := d_id d; d_rt := p; d_aside := d_aside d; d_faults := tail (d_faults d) |}).

Definition write_identity (v : identity) : State disk (result io_err unit) :=
  fun d => let '(r, p) := writeJSONAtomic v (next_fault d) (d_id d) in
           (r, {| d_id := p; d_rt := d_rt d; d_aside := d_aside d; d_faults := tail (d_faults d) |}).

(** ** Opening *)

Inductive open_err := MkdirFailed | ParseIdentity | ParseRuntime | PersistRecovered (e : io_err).

(** [load]: the store it fills in, whether a corrupt runtime file was replaced,
    and the directory afterwards.  [rename_ok] is the outcome of moving the
    corrupt file aside. *)
Definition load (rename_ok : bool) : State disk (result open_err (option identity * runtime * bool)) :=
  fun d =>
    match readFile (d_id d) with
    | Some Torn => (Err ParseIdentity, d)
    | idc =>
        let id := match idc with Some (Json i) => Some i | _ => None end in
        match readFile (d_rt d) with
        | Some Torn =>
            if negb rename_ok then (Err ParseRuntime, d) else
            (Ok (id, set_PrimeBaselines true empty_runtime, true),
             {| d_id := d_id d;
                d_rt := {| tmp := tmp (d_rt d); cur := None; dur := dur (d_rt d) |};
                d_aside := d_aside d ++ [Torn]; d_faults := d_faults d |})
        | Some (Json rt) => (Ok (id, rt, false), d)
        | None => (Ok (id, empty_runtime, false), d)
        end
    end.

Definition openStore (mkdir_ok rename_ok : bool) : State disk (result open_err store) :=
  fun d =>
    if negb mkdir_ok then (Err MkdirFailed, d) else
    match load rename_ok d with
    | (Err e, d) => (Err e, d)
    | (Ok (id, rt, recovered), d) =>
        if recovered then
          match write_runtime rt d with
          | (Err e, d) => (Err (PersistRecovered e), d)
          | (Ok _, d) => (Ok {| s_disk := d; s_id := id; s_rt := rt |}, d)
          end
        else (Ok {| s_disk := d; s_id := id; s_rt := rt |}, d)
    end.

(** ** Accessors and updates *)

Definition authzRev : State store Z := gets (fun s => rt_AuthzRev (s_rt s)).
Definition enrolled : State store bool := gets (fun s => bool_decide (is_Some (s_id s))).
Definition get_identity : State store (option identity) := gets s_id.
(** [snapshotRuntime] deep-copies, so a value is what the caller gets. *)
Definition snapshotRuntime : State store runtime := gets s_rt.

Definition saveIdentity (id : identity) : State store (result io_err unit) :=
  fun s => let '(r, d) := write_identity id (s_disk s) in
           (r, {| s_disk := d; s_id := Some id; s_rt := s_rt s |}).

(** [withRuntime]: [fn] mutates the runtime in memory; the memory keeps the
    mutation even when persisting it fails. *)
Definition withRuntime {A} (fn : State runtime A) : State store (A * result io_err unit) :=
  fun s => let '(x, rt) := fn (s_rt s) in
           let '(r, d) := write_runtime rt (s_disk s) in
           ((x, r), {| s_disk := d; s_id := s_id s; s_rt := rt |}).

(** ** Facts *)

(** Power loss of the whole directory; the coming writes may fail anyhow. *)
Inductive disk_power_loss (d : disk) : disk -> Prop :=
| disk_lose pi pr fs : power_loss (d_id d) pi -> power_loss (d_rt d) pr ->
    disk_power_loss d {| d_id := pi; d_rt := pr; d_aside := d_aside d; d_faults := fs |}.

(** A store at rest: what is in memory is what is on stable storage. *)
Definition at_rest (s : store) : Prop :=
  settled (d_id (s_disk s)) /\ settled (d_rt (s_disk s)) /\
  readFile (d_id (s_disk s)) = Json <$> s_id s /\
  readFile (d_rt (s_disk s)) = Some (Json (s_rt s)).

Lemma writeJSONAtomic_cases {A} (v : A) fault p r p' :
  writeJSONAtomic v fault p = (r, p') ->
  (exists e, r = Err e /\ cur p' = cur p /\ dur p' = dur p) \/
  (r = Ok tt /\ cur p' = Some {| data := Json v; synced := true |} /\
   dur p' = if fails fault AtDirSync then dur p else cur p').
Proof.
  unfold writeJSONAtomic. intros H.
  repeat (case_scrutinee_in H; [inv H; left; by eexists|]).
  right. destruct (fails fault AtDirSync); by inv H.
Qed.

Lemma settled_power_loss {A} (p p' : pathfs A) :
  settled p -> power_loss p p' -> settled p' /\ readFile p' = readFile p.
Proof.
  intros [E S] [e e' t He Hs].
  assert (e = cur p) as -> by (destruct He; congruence).
  unfold settled, readFile in *. simpl. destruct Hs; simpl in *; simplify_eq; done.
Qed.

(** After a completed or failed write, at whatever stage, power loss leaves the
    old contents or the new ones. *)
Lemma write_power_loss {A} (v : A) fault p r p' p'' :
  settled p -> writeJSONAtomic v fault p = (r, p') -> power_loss p' p'' ->
  settled p'' /\
  (readFile p'' = readFile p \/ readFile p'' = Some (Json v)) /\
  (r = Ok tt -> fault <> Some AtDirSync -> readFile p'' = Some (Json v)).
Proof.
  intros Hp Hw Hl. pose proof Hp as [E S].
  destruct (writeJSONAtomic_cases _ _ _ _ _ Hw) as [(e & -> & Ec & Ed)|(-> & Ec & Ed)].
  - assert (Hs : settled p') by (unfold settled; by rewrite Ec, Ed).
    apply settled_power_loss in Hl as [? Hr]; [|done]. split; [done|]. split; [|done].
    left. rewrite Hr. unfold readFile. by rewrite Ec.
  - destruct Hl as [e0 e' t He Hs]. unfold settled, readFile in *. cbn [cur dur].
    rewrite Ec in *. unfold fails in Ed. destruct (bool_decide_reflect (fault = Some AtDirSync)) as [->|Hf].
    + destruct He as [->| ->]; [inv Hs; split; [done|split; [by right|done]]|].
      rewrite Ed, <- E in Hs. inv Hs; simpl in *; simplify_eq.
      * split; [done|]. split; [by left|done].
      * rewrite <- H0 in S. simpl in S. subst. split; [done|]. split; [by left|done].
      * rewrite <- H0 in S. done.
    + assert (e0 = Some {| data := Json v; synced := true |}) as -> by (destruct He; congruence).
      inv Hs. split; [done|]. split; [by right|done].
Qed.

Lemma openStore_intact rename_ok d id rt :
  readFile (d_id d) = Json <$> id -> readFile (d_rt d) = Some (Json rt) ->
  openStore true rename_ok d = (Ok {| s_disk := d; s_id := id; s_rt := rt |}, d).
Proof. intros Hi Hr. unfold openStore, load. rewrite Hi, Hr. by destruct id. Qed.

Lemma withRuntime_eq {A} (fn : State runtime A) s :
  withRuntime fn s =
  (((fn (s_rt s)).1, (write_runtime (fn (s_rt s)).2 (s_disk s)).1),
   {| s_disk := (write_runtime (fn (s_rt s)).2 (s_disk s)).2; s_id := s_id s; s_rt := (fn (s_rt s)).2 |}).
Proof.
  unfold withRuntime. destruct (fn (s_rt s)) as [x rt]. simpl. by destruct (write_runtime rt (s_disk s)).
Qed.

(** [C21] Crash consistency of every runtime update: starting from a store at
    rest, if power is lost at any stage of [withRuntime] (a write error being the
    same as being stopped there), the next start succeeds without recovery and
    resumes from exactly the runtime before the update or exactly the runtime
    after it; when the update reported success (and the directory fsync worked)
    it is the one after. *)
Theorem withRuntime_crash_consistent {A} (fn : State runtime A) s x r s' d' rename_ok :
  at_rest s -> withRuntime fn s = ((x, r), s') -> disk_power_loss (s_disk s') d' ->
  exists rt, openStore true rename_ok d' = (Ok {| s_disk := d'; s_id := s_id s; s_rt := rt |}, d') /\
    (rt = s_rt s \/ rt = (fn (s_rt s)).2) /\
    (r = Ok tt -> next_fault (s_disk s) <> Some AtDirSync -> rt = (fn (s_rt s)).2).
Proof.
  intros (Si & Sr & Ri & Rr). rewrite withRuntime_eq. intros H. inv H. simpl.
  unfold write_runtime. destruct (writeJSONAtomic _ _ _) as [r p] eqn:Ew. simpl.
  intros [pi pr fs Hpi Hpr]. simpl in *.
  apply settled_power_loss in Hpi as [_ Ei]; [|done].
  destruct (write_power_loss _ _ _ _ _ _ Sr Ew Hpr) as (_ & Hor & Hok).
  assert (Hrt : exists rt, readFile pr = Some (Json rt) /\
            (rt = s_rt s \/ rt = (fn (s_rt s)).2) /\
            (r = Ok tt -> next_fault (s_disk s) <> Some AtDirSync -> rt = (fn (s_rt s)).2)).
  { destruct Hor as [E|E]; [rewrite Rr in E|].
    - exists (s_rt s). split; [done|]. split; [by left|]. intros H1 H2. specialize (Hok H1 H2). congruence.
    - exists (fn (s_rt s)).2. split; [done|]. split; [by right|done]. }
  destruct Hrt as (rt & E & H1 & H2). exists rt. split; [|done].
  apply openStore_intact; simpl; congruence.
Qed.

Definition example_store : store :=
  let d := (write_runtime empty_runtime
             {| d_id := empty_path; d_rt := empty_path; d_aside := []; d_faults := [] |}).2 in
  {| s_disk := d; s_id := None; s_rt := empty_runtime |}.

Lemma example_store_at_rest : at_rest example_store.
Proof. by repeat split. Qed.

Lemma withRuntime_crash_consistent_witness :
  let s' := (withRuntime (modify (set_AuthzRev 7)) example_store).2 in
  exists rt, openStore true true (s_disk s') = (Ok {| s_disk := s_disk s'; s_id := None; s_rt := rt |}, s_disk s') /\
    (rt = empty_runtime \/ rt = set_AuthzRev 7 empty_runtime) /\
    (@Ok io_err unit tt = Ok tt -> next_fault (s_disk example_store) <> Some AtDirSync -> rt = set_AuthzRev 7 empty_runtime).
Proof.
  intros s'.
  apply (withRuntime_crash_consistent (modify (set_AuthzRev 7)) example_store tt _ s'); [by repeat split|reflexivity|].
  apply (disk_lose (s_disk s') _ _ []).
  - apply (lose _ None None); [by left|constructor].
  - apply (lose _ (Some {| data := Json (set_AuthzRev 7 empty_runtime); synced := true |})); [by left|constructor].
Defined.

(** A corrupt runtime file: the directory after it was moved aside, and what
    [openStore] does then. *)
Definition moved_aside (d : disk) : disk :=
  {| d_id := d_id d; d_rt := {| tmp := tmp (d_rt d); cur := None; dur := dur (d_rt d) |};
     d_aside := d_aside d ++ [Torn]; d_faults := d_faults d |}.

Lemma openStore_corrupt d id :
  readFile (d_id d) = Json <$> id -> readFile (d_rt d) = Some Torn ->
  openStore true true d =
  let '(r, d') := write_runtime (set_PrimeBaselines true empty_runtime) (moved_aside d) in
  (match r with
   | Ok _ => Ok {| s_disk := d'; s_id := id; s_rt := set_PrimeBaselines true empty_runtime |}
   | Err e => Err (PersistRecovered e)
   end, d').
Proof.
  intros Hi Hr. unfold openStore, load. rewrite Hi, Hr.
  destruct id; simpl; by destruct (write_runtime _ _) as [[] ?].
Qed.

Lemma openStore_id_ok d s d' rename_ok :
  openStore true rename_ok d = (Ok s, d') -> exists id, readFile (d_id d) = Json <$> id.
Proof.
  unfold openStore, load. destruct (readFile (d_id d)) as [[|i]|]; [done|by exists (Some i)|by exists None].
Qed.

(** Recovery from a corrupt runtime file: when [openStore] succeeds on a
    directory whose runtime file does not parse, the agent starts from revision
    0 with the prime flag set, the corrupt file has been kept, and that clean
    state is already on disk, so that losing power right after the start comes
    back to it rather than to an absent file. *)
Theorem openStore_recovers d s d' d'' :
  settled (d_id d) -> readFile (d_rt d) = Some Torn ->
  openStore true true d = (Ok s, d') -> next_fault d <> Some AtDirSync ->
  disk_power_loss d' d'' ->
  s_rt s = set_PrimeBaselines true empty_runtime /\ s_disk s = d' /\
  d_aside d' = d_aside d ++ [Torn] /\
  openStore true true d'' = (Ok {| s_disk := d''; s_id := s_id s; s_rt := s_rt s |}, d'').
Proof.
  intros Si Rr Ho Hf [pi pr fs Hpi Hpr]. destruct (openStore_id_ok _ _ _ _ Ho) as [id Hid].
  rewrite (openStore_corrupt d id) in Ho by done. unfold write_runtime in Ho.
  destruct (writeJSONAtomic _ _ _) as [[u|e] p] eqn:Ew; [|done]. inv Ho. simpl in *.
  destruct (writeJSONAtomic_cases _ _ _ _ _ Ew) as [(?&?&?)|(_ & Ec & Ed)]; [done|].
  unfold fails in Ed. rewrite bool_decide_eq_false_2 in Ed by exact Hf.
  assert (Sp : settled p) by (unfold settled; by rewrite Ed, Ec).
  apply settled_power_loss in Hpi as [_ Epi]; [|done].
  apply settled_power_loss in Hpr as [_ Epr]; [|done].
  repeat split. apply openStore_intact; simpl; [congruence|].
  rewrite Epr. unfold readFile. by rewrite Ec.
Qed.

Definition corrupt_disk : disk :=
  {| d_id := empty_path;
     d_rt := {| tmp := None; cur := Some {| data := Torn; synced := true |};
                dur := Some {| data := Torn; synced := true |} |};
     d_aside := []; d_faults := [] |}.

Lemma openStore_recovers_witness :
  let d' := (openStore true true corrupt_disk).2 in
  let s := {| s_disk := d'; s_id := None; s_rt := set_PrimeBaselines true empty_runtime |} in
  s_rt s = set_PrimeBaselines true empty_runtime /\ s_disk s = d' /\ d_aside d' = [Torn] /\
  openStore true true d' = (Ok {| s_disk := d'; s_id := None; s_rt := s_rt s |}, d').
Proof.
  intros d' s. apply (openStore_recovers corrupt_disk s d' d'); [done|done|reflexivity|done|].
  apply (disk_lose d' _ _ []).
  - apply (lose _ None None); [by left|constructor].
  - apply (lose _ (Some {| data := Json (set_PrimeBaselines true empty_runtime); synced := true |}));
      [by left|constructor].
Defined.

(** The window that remains: if persisting the recovered state fails after
    the corrupt file was moved aside, the start fails, and the next start finds
    no runtime file and comes up with empty baselines and no prime flag, so that
    its first collection reports every live counter from zero. *)
Theorem openStore_recovery_gap d st fs :
  readFile (d_id d) = None -> readFile (d_rt d) = Some Torn ->
  d_faults d = Some st :: fs -> st <> AtDirSync ->
  exists e d', openStore true true d = (Err (PersistRecovered e), d') /\
    exists s, (openStore true true d').1 = Ok s /\ s_rt s = empty_runtime.
Proof.
  intros Ei Er Ef Hst. rewrite (openStore_corrupt d None) by done.
  unfold write_runtime, next_fault. cbn [d_faults moved_aside]. rewrite Ef.
  destruct (writeJSONAtomic _ _ _) as [r p] eqn:Ep.
  destruct (writeJSONAtomic_cases _ _ _ _ _ Ep) as [(e & -> & Ec & _)|(-> & _)]; [|by destruct st].
  eexists e, _. split; [done|]. unfold openStore, load. cbn [d_id d_rt moved_aside negb].
  rewrite Ei. unfold readFile. rewrite Ec. cbn. by eexists.
Qed.
