(* ===== verification/AgentUsage.v ===== *)
(** * agent: usage accounting and set difference

    Models agent/usage.go.  The facts: the new baselines are exactly the counters
    read, the bytes reported are the sum of the per-counter deltas in whatever
    order the map is iterated, and applying a set difference gives the desired
    set.  [Kernel] relates the reported bytes to the traffic that passed. *)

From S2P Require Import Prelude GoStrings Netip AgentTypes.

Section Usage.
Context `{MI : MapIter}.

(** [fmt.Sprintf("%s|%d", k.Addr, k.Port)] *)
Definition baselineKey (k : acctKey) : gostr :=
  addr_String (ak_Addr k) ++ bs "|" ++ FormatUint 10 (ak_Port k).

(** [prev[bk]]: a missing key reads as 0. *)
Definition baseline (prev : gmap gostr Z) (bk : gostr) : Z := default 0 (prev !! bk).

Definition delta_of (last absBytes : Z) : Z :=
  if last <=? absBytes then absBytes - last else absBytes.

Definition service_label (services : gmap Z gostr) (port : Z) : gostr :=
  match services !! port with
  | Some svc => svc
  | None => bs "unknown:" ++ FormatUint 10 port
  end.

(** The loop of [computeDelta], over the entries in iteration order. *)
Fixpoint computeDelta_loop (prev : gmap gostr Z) (services : gmap Z gostr)
    (entries : list (acctKey * Z)) (samples : list usageSample) (next : gmap gostr Z)
    : list usageSample * gmap gostr Z :=
  match entries with
  | [] => (samples, next)
  | (k, absBytes) :: r =>
      let bk := baselineKey k in
      let next := <[bk := absBytes]> next in
      let delta := delta_of (baseline prev bk) absBytes in
      if delta =? 0 then computeDelta_loop prev services r samples next
      else computeDelta_loop prev services r
             (samples ++ [{| us_Service := service_label services (ak_Port k);
                             us_Addr := ak_Addr k; us_Bytes := delta |}]) next
  end.

Definition computeDelta (prev : gmap gostr Z) (cur : gmap acctKey Z) (services : gmap Z gostr)
    : list usageSample * gmap gostr Z :=
  computeDelta_loop prev services (map_range cur) [] ∅.

Definition diffAuthorized (current desired : gset Addr) : list Addr * list Addr :=
  (filter (fun a => a ∉ current) (set_range desired),
   filter (fun a => a ∉ desired) (set_range current)).

End Usage.

(** ** Set difference *)
Section DiffFacts.
Context `{MI : MapIter}.
Implicit Types current desired : gset Addr.

Lemma elem_of_diff_add current desired a :
  a ∈ (diffAuthorized current desired).1 <-> a ∈ desired /\ a ∉ current.
Proof. simpl. rewrite list_elem_of_filter, elem_of_set_range. tauto. Qed.

Lemma elem_of_diff_del current desired a :
  a ∈ (diffAuthorized current desired).2 <-> a ∈ current /\ a ∉ desired.
Proof. simpl. rewrite list_elem_of_filter, elem_of_set_range. tauto. Qed.

Lemma NoDup_diff_del current desired : NoDup (diffAuthorized current desired).2.
Proof. simpl. apply NoDup_filter, NoDup_set_range. Qed.

Lemma diff_applied current desired :
  (current ∪ list_to_set (diffAuthorized current desired).1) ∖
    list_to_set (diffAuthorized current desired).2 = desired.
Proof.
  apply set_eq. intros a.
  rewrite elem_of_difference, elem_of_union, !elem_of_list_to_set, elem_of_diff_add, elem_of_diff_del.
  destruct (decide (a ∈ current)), (decide (a ∈ desired)); tauto.
Qed.

Lemma diff_del_present current desired : list_to_set (diffAuthorized current desired).2 ⊆ current.
Proof. intros a. rewrite elem_of_list_to_set, elem_of_diff_del. tauto. Qed.

Lemma length_diff_del current desired :
  length (diffAuthorized current desired).2 = size (current ∖ desired).
Proof.
  rewrite <- (size_list_to_set (C := gset Addr)) by apply NoDup_diff_del.
  f_equal. apply set_eq. intros a.
  rewrite elem_of_list_to_set, elem_of_diff_del, elem_of_difference. done.
Qed.
End DiffFacts.

(** ** Deltas *)

Definition acctKey_wf (k : acctKey) : Prop :=
  addr_wf (ak_Addr k) /\ zoneless (ak_Addr k) /\ in_u16 (ak_Port k).

Definition msum {K} `{Countable K} (f : K -> Z -> Z) (m : gmap K Z) : Z :=
  zsum (fun '(k, v) => f k v) (map_to_list m).

Lemma msum_insert {K} `{Countable K} f (m : gmap K Z) k v :
  m !! k = None -> msum f (<[k := v]> m) = f k v + msum f m.
Proof.
  intros Hk. unfold msum. rewrite (zsum_perm _ _ ((k, v) :: map_to_list m)); [done|].
  by apply map_to_list_insert.
Qed.

Lemma msum_delete {K} `{Countable K} f (m : gmap K Z) k v :
  m !! k = Some v -> msum f m = f k v + msum f (delete k m).
Proof.
  intros Hk. rewrite <- (insert_delete_id m k v) at 1 by done.
  apply msum_insert. apply lookup_delete_eq.
Qed.

Lemma msum_ext {K} `{Countable K} f g (m : gmap K Z) :
  (forall k v, m !! k = Some v -> f k v = g k v) -> msum f m = msum g m.
Proof.
  intros Hfg. unfold msum. assert (HF : Forall (fun kv => f kv.1 kv.2 = g kv.1 kv.2) (map_to_list m)).
  { apply Forall_forall. intros [k v] Hkv. apply Hfg. by apply elem_of_map_to_list. }
  induction HF as [|[k v] l Hx _ IH]; unfold zsum in *; simpl in *; lia.
Qed.

Lemma app_sep_inj (c : Z) (a b x y : list Z) :
  Forall (fun d => d <> c) a -> Forall (fun d => d <> c) b ->
  a ++ c :: x = b ++ c :: y -> a = b /\ x = y.
Proof.
  intros Ha. revert b; induction Ha as [|d a Hd Ha IH]; intros b Hb E; destruct Hb as [|d' b Hd' Hb];
    cbn [app] in E; [by inv E|by inv E|by inv E|].
  assert (d = d' /\ a ++ c :: x = b ++ c :: y) as [<- E2] by (by inv E).
  destruct (IH b Hb E2) as [-> ->]. done.
Qed.

Lemma baselineKey_inj k k' :
  acctKey_wf k -> acctKey_wf k' -> baselineKey k = baselineKey k' -> k = k'.
Proof.
  destruct k as [a p], k' as [a' p']. unfold acctKey_wf, baselineKey, in_u16.
  cbn [ak_Addr ak_Port]. intros (Wa & Za & Hp) (Wa' & Za' & Hp') E.
  change (bs "|" ++ FormatUint 10 p) with (124 :: FormatUint 10 p) in E.
  change (bs "|" ++ FormatUint 10 p') with (124 :: FormatUint 10 p') in E.
  apply app_sep_inj in E as [E1 E2].
  - f_equal; [by apply addr_String_inj|apply (FormatUint_inj 10); [lia|lia|lia|done]].
  - eapply Forall_weaken; [by apply addr_String_chars|]. unfold addr_char, hex_char, colon, dot. intros; lia.
  - eapply Forall_weaken; [by apply addr_String_chars|]. unfold addr_char, hex_char, colon, dot. intros; lia.
Qed.

Section DeltaFacts.
Context `{MI : MapIter}.
Implicit Types prev : gmap gostr Z.

Lemma computeDelta_loop_samples prev services entries samples next :
  (computeDelta_loop prev services entries samples next).1 =
  samples ++ omap (fun '(k, v) =>
    let d := delta_of (baseline prev (baselineKey k)) v in
    if d =? 0 then None
    else Some {| us_Service := service_label services (ak_Port k); us_Addr := ak_Addr k; us_Bytes := d |})
    entries.
Proof.
  revert samples next; induction entries as [|[k v] r IH]; intros samples next; cbn [computeDelta_loop].
  - by rewrite app_nil_r.
  - cbn [omap list_omap]. destruct (delta_of _ v =? 0); rewrite IH; [done|]. by rewrite <- app_assoc.
Qed.

Lemma computeDelta_loop_next prev services entries samples next :
  (computeDelta_loop prev services entries samples next).2 =
  foldl (fun m '(k, v) => <[baselineKey k := v]> m) next entries.
Proof.
  revert samples next; induction entries as [|[k v] r IH]; intros samples next; cbn [computeDelta_loop]; [done|].
  cbn [foldl]. destruct (delta_of _ v =? 0); by rewrite IH.
Qed.

(** Bytes reported = sum of the deltas of the counters, in any order. *)
Lemma computeDelta_total prev cur services :
  zsum us_Bytes (computeDelta prev cur services).1 =
  msum (fun k v => delta_of (baseline prev (baselineKey k)) v) cur.
Proof.
  unfold computeDelta. rewrite computeDelta_loop_samples. cbn [app]. unfold msum.
  rewrite <- (zsum_perm _ _ _ (map_range_perm cur)).
  induction (map_range cur) as [|[k v] l IH]; [done|]. cbn [omap list_omap].
  destruct (delta_of _ v =? 0) eqn:E; unfold zsum in *; cbn [foldr us_Bytes]; [|by rewrite IH].
  bool_hyps. by rewrite E, IH.
Qed.

Lemma foldl_insert_notin (entries : list (acctKey * Z)) (next : gmap gostr Z) bk :
  Forall (fun kv => baselineKey kv.1 <> bk) entries ->
  foldl (fun m '(k, v) => <[baselineKey k := v]> m) next entries !! bk = next !! bk.
Proof.
  intros H. revert next; induction H as [|[k v] r Hk _ IH]; intros next; [done|].
  cbn [foldl]. rewrite IH. by rewrite lookup_insert_ne.
Qed.

Lemma foldl_insert_lookup (entries : list (acctKey * Z)) (next : gmap gostr Z) k v :
  Forall (fun kv => acctKey_wf kv.1) entries -> NoDup entries.*1 -> (k, v) ∈ entries ->
  foldl (fun m '(k, v) => <[baselineKey k := v]> m) next entries !! baselineKey k = Some v.
Proof.
  intros HF. revert next; induction HF as [|[k' v'] r Hk' HF IH]; intros next ND Hin; [set_solver|].
  cbn [foldl]. cbn [fmap list_fmap] in ND. apply NoDup_cons in ND as [Hni ND]. cbn [fst] in *.
  apply elem_of_cons in Hin as [E|Hin]; [|by apply IH]. inv E.
  rewrite foldl_insert_notin; [by rewrite lookup_insert_eq|].
  rewrite Forall_forall in HF |- *. intros [k2 v2] Hin E. cbn in *.
  apply baselineKey_inj in E; [|by apply (HF (k2, v2))|done]. subst. apply Hni.
  apply list_elem_of_fmap. by exists (k', v2).
Qed.

(** The new baseline of a counter is its value. *)
Lemma computeDelta_next prev cur services k :
  map_Forall (fun k _ => acctKey_wf k) cur -> acctKey_wf k ->
  (computeDelta prev cur services).2 !! baselineKey k = cur !! k.
Proof.
  intros Hwf Hk. unfold computeDelta. rewrite computeDelta_loop_next.
  assert (HF : Forall (fun kv => acctKey_wf kv.1) (map_range cur)).
  { apply Forall_forall. intros [k' v'] Hin. apply elem_of_map_range in Hin. by apply (Hwf k' v'). }
  destruct (cur !! k) as [v|] eqn:E.
  - apply foldl_insert_lookup; [done|apply NoDup_fst_map_range|by apply elem_of_map_range].
  - rewrite foldl_insert_notin; [apply lookup_empty|]. rewrite Forall_forall in HF |- *.
    intros [k' v'] Hin E'. apply baselineKey_inj in E'; [|by apply (HF (k', v'))|done].
    cbn in E'. subst. apply elem_of_map_range in Hin. congruence.
Qed.

Lemma computeDelta_positive prev cur services :
  map_Forall (fun _ v => 0 <= v) cur ->
  Forall (fun s => 0 < us_Bytes s) (computeDelta prev cur services).1.
Proof.
  intros Hv. unfold computeDelta. rewrite computeDelta_loop_samples. cbn [app].
  apply Forall_forall. intros s Hs. apply list_elem_of_omap in Hs as ([k v] & Hin & Hs).
  apply elem_of_map_range in Hin. specialize (Hv k v Hin). cbn beta in Hv.
  destruct (delta_of _ v =? 0) eqn:E; [done|]. inv Hs. cbn [us_Bytes]. bool_hyps.
  unfold delta_of in *. destruct (_ <=? v) eqn:E'; bool_hyps; lia.
Qed.
End DeltaFacts.

(** ** Metering over a history

    The kernel counters under traffic, element removal (garbage collection, a
    flush, a reload) and collections, in any order. *)
Section Metering.
Context `{MI : MapIter}.

Inductive kevent :=
| Traffic (k : acctKey) (n : Z)
| Removed (k : acctKey)
| Collect (services : gmap Z gostr).

Record meter := {
  counters : gmap acctKey Z;   (* the live accounting elements *)
  base : gmap gostr Z;         (* the agent's baselines *)
  carried : Z;                 (* bytes the kernel has carried *)
  reported : Z                 (* bytes in the samples produced so far *)
}.

Definition meter_step (m : meter) (e : kevent) : meter :=
  match e with
  | Traffic k n =>
      {| counters := <[k := default 0 (counters m !! k) + n]> (counters m); base := base m;
         carried := carried m + n; reported := reported m |}
  | Removed k =>
      {| counters := delete k (counters m); base := base m;
         carried := carried m; reported := reported m |}
  | Collect services =>
      let '(samples, next) := computeDelta (base m) (counters m) services in
      {| counters := counters m; base := next; carried := carried m;
         reported := reported m + zsum us_Bytes samples |}
  end.

Definition kevent_ok (e : kevent) : Prop :=
  match e with Traffic k n => acctKey_wf k /\ 0 <= n | _ => True end.

Definition no_removal (e : kevent) : Prop :=
  match e with Removed _ => False | _ => True end.

Definition pending (m : meter) : Z :=
  msum (fun k v => delta_of (baseline (base m) (baselineKey k)) v) (counters m).

Definition meter_ok (m : meter) : Prop :=
  map_Forall (fun k v => acctKey_wf k /\ 0 <= v) (counters m) /\
  map_Forall (fun _ v => 0 <= v) (base m) /\
  reported m + pending m <= carried m.

(** With no removals, baselines never exceed the counters and nothing is lost. *)
Definition meter_exact (m : meter) : Prop :=
  map_Forall (fun k v => acctKey_wf k /\ baseline (base m) (baselineKey k) <= v) (counters m) /\
  (forall k, acctKey_wf k -> counters m !! k = None -> base m !! baselineKey k = None) /\
  reported m + pending m = carried m.

Definition meter_init : meter := {| counters := ∅; base := ∅; carried := 0; reported := 0 |}.

Lemma pending_traffic base cs k n :
  msum (fun k v => delta_of (baseline base (baselineKey k)) v) (<[k := default 0 (cs !! k) + n]> cs) =
  msum (fun k v => delta_of (baseline base (baselineKey k)) v) cs +
  (delta_of (baseline base (baselineKey k)) (default 0 (cs !! k) + n) -
   match cs !! k with Some v => delta_of (baseline base (baselineKey k)) v | None => 0 end).
Proof.
  destruct (cs !! k) as [v|] eqn:E; simpl.
  - rewrite (msum_delete _ cs k v E), <- insert_delete_eq, msum_insert by apply lookup_delete_eq. lia.
  - rewrite msum_insert by done. lia.
Qed.

Lemma msum_zero {K} `{Countable K} f (m : gmap K Z) :
  (forall k v, m !! k = Some v -> f k v = 0) -> msum f m = 0.
Proof.
  intros H0. rewrite (msum_ext f (fun _ _ => 0)) by done. unfold msum.
  induction (map_to_list m) as [|[k v] l IH]; unfold zsum in *; simpl; lia.
Qed.

Lemma pending_collected prev cs services :
  map_Forall (fun k _ => acctKey_wf k) cs ->
  msum (fun k v => delta_of (baseline (computeDelta prev cs services).2 (baselineKey k)) v) cs = 0.
Proof.
  intros Hwf. apply msum_zero. intros k v E. unfold baseline.
  rewrite computeDelta_next, E by (done || by apply (Hwf k v)). simpl.
  unfold delta_of. rewrite Z.leb_refl. lia.
Qed.

Lemma computeDelta_next_nonneg prev cs services :
  map_Forall (fun _ v => 0 <= v) cs ->
  map_Forall (fun _ v => 0 <= v) (computeDelta prev cs services).2.
Proof.
  intros H. unfold computeDelta. rewrite computeDelta_loop_next.
  assert (HF : Forall (fun kv => 0 <= kv.2) (map_range cs)).
  { apply Forall_forall. intros [k v] Hin. apply elem_of_map_range in Hin. by apply (H k v). }
  assert (H0 : map_Forall (fun (_ : gostr) v => 0 <= v) (∅ : gmap gostr Z)) by apply map_Forall_empty.
  revert H0. generalize (∅ : gmap gostr Z). induction HF as [|[k v] r Hv _ IH]; intros next H0; [done|].
  cbn [foldl]. apply IH. by apply map_Forall_insert_2.
Qed.

Lemma delta_of_ge b v : b <= v -> delta_of b v = v - b.
Proof. unfold delta_of. intros. destruct (b <=? v) eqn:E; bool_hyps; lia. Qed.

Lemma delta_of_grow b v n : 0 <= b -> 0 <= n -> delta_of b (v + n) <= delta_of b v + n.
Proof. unfold delta_of. intros. destruct (b <=? v) eqn:E1, (b <=? v + n) eqn:E2; bool_hyps; lia. Qed.

Lemma delta_of_nonneg b v : 0 <= v -> 0 <= delta_of b v.
Proof. unfold delta_of. intros. destruct (b <=? v) eqn:E1; bool_hyps; lia. Qed.

Lemma baseline_nonneg (b : gmap gostr Z) bk : map_Forall (fun _ v => 0 <= v) b -> 0 <= baseline b bk.
Proof. intros H. unfold baseline. destruct (b !! bk) eqn:E; simpl; [by apply (H bk)|lia]. Qed.

Lemma meter_step_ok m e : meter_ok m -> kevent_ok e -> meter_ok (meter_step m e).
Proof.
  intros (Hc & Hb & Hle) He. destruct e as [k n|k|services]; unfold meter_ok, pending in *.
  - destruct He as [Hk Hn]. cbn [meter_step counters base carried reported].
    assert (Hv : 0 <= default 0 (counters m !! k)).
    { destruct (counters m !! k) eqn:E; simpl; [by apply (Hc k)|lia]. }
    split; [apply map_Forall_insert_2; [split; [done|lia]|done]|]. split; [done|].
    rewrite pending_traffic. pose proof (baseline_nonneg _ (baselineKey k) Hb).
    destruct (counters m !! k) as [v|]; simpl in *;
      [pose proof (delta_of_grow (baseline (base m) (baselineKey k)) v n)
      |pose proof (delta_of_grow (baseline (base m) (baselineKey k)) 0 n);
       assert (delta_of (baseline (base m) (baselineKey k)) 0 <= 0)
         by (unfold delta_of; destruct (_ <=? 0) eqn:?; bool_hyps; lia)]; lia.
  - cbn [meter_step counters base carried reported].
    split; [by apply map_Forall_delete|]. split; [done|].
    destruct (counters m !! k) as [v|] eqn:E.
    + rewrite (msum_delete _ _ k v E) in Hle.
      pose proof (delta_of_nonneg (baseline (base m) (baselineKey k)) v ltac:(by apply (Hc k))). lia.
    + by rewrite delete_id.
  - cbn [meter_step]. pose proof (computeDelta_total (base m) (counters m) services) as Et.
    pose proof (pending_collected (base m) (counters m) services) as Ep.
    pose proof (computeDelta_next_nonneg (base m) (counters m) services) as En.
    destruct (computeDelta _ _ _) as [samples next]. cbn [fst snd counters base carried reported] in *.
    assert (Hwf : map_Forall (fun k _ => acctKey_wf k) (counters m)) by (intros k v E; by apply (Hc k v)).
    split; [done|]. split; [apply En; intros k v E; by apply (Hc k v)|].
    rewrite Ep by done. lia.
Qed.

Lemma meter_step_exact m e :
  meter_exact m -> kevent_ok e -> no_removal e -> meter_exact (meter_step m e).
Proof.
  intros (Hc & Hd & Heq) He Hr. destruct e as [k n|k|services]; [| done |]; unfold meter_exact, pending in *.
  - destruct He as [Hk Hn]. cbn [meter_step counters base carried reported].
    assert (Hbk : baseline (base m) (baselineKey k) <= default 0 (counters m !! k)).
    { destruct (counters m !! k) eqn:E; simpl; [by apply (Hc k)|].
      unfold baseline. by rewrite Hd. }
    split; [apply map_Forall_insert_2; [split; [done|lia]|done]|]. split.
    + intros k' Hk' E. apply lookup_insert_None in E as [E _]. by apply Hd.
    + rewrite pending_traffic, (delta_of_ge _ (_ + n)) by lia.
      destruct (counters m !! k) as [v|] eqn:E; simpl in *; [rewrite delta_of_ge by lia; lia|].
      assert (Hz : baseline (base m) (baselineKey k) = 0) by (unfold baseline; by rewrite Hd). lia.
  - cbn [meter_step]. pose proof (computeDelta_total (base m) (counters m) services) as Et.
    pose proof (pending_collected (base m) (counters m) services) as Ep.
    assert (Hwf : map_Forall (fun k _ => acctKey_wf k) (counters m)) by (intros k v E; by apply (Hc k v)).
    pose proof (fun k => computeDelta_next (base m) (counters m) services k Hwf) as En.
    destruct (computeDelta _ _ _) as [samples next]. cbn [fst snd counters base carried reported] in *.
    split; [|split].
    + intros k v E. destruct (Hc k v E) as [Hk _]. split; [done|]. unfold baseline. rewrite En, E by done. done.
    + intros k Hk E. by rewrite En.
    + rewrite Ep by done. lia.
Qed.

(** [C20] Customers are never billed for bytes that did not pass: over any
    history of traffic, counter removals and collections, in any order, the bytes
    in the samples produced never exceed the bytes the kernel carried. When no
    counter is removed, the bytes reported plus the bytes still to be collected
    are exactly the bytes carried. *)
Theorem metering_conserves (es : list kevent) :
  Forall kevent_ok es ->
  let m := foldl meter_step meter_init es in
  reported m <= carried m /\
  (Forall no_removal es -> reported m + pending m = carried m).
Proof.
  intros Hes m.
  assert (Hok : meter_ok m).
  { subst m. assert (H0 : meter_ok meter_init) by (split; [apply map_Forall_empty|]; split; [apply map_Forall_empty|done]).
    revert H0. generalize meter_init. induction Hes as [|e es He _ IH]; intros m0 H0; [done|].
    cbn [foldl]. by apply IH, meter_step_ok. }
  split.
  - destruct Hok as (Hc & Hb & Hle). enough (0 <= pending m) by lia.
    unfold pending, msum, zsum. assert (HF : Forall (fun kv => 0 <= kv.2) (map_to_list (counters m))).
    { apply Forall_forall. intros [k v] Hin. apply elem_of_map_to_list in Hin. by apply (Hc k v). }
    induction HF as [|[k v] l Hv _ IH]; [done|]. simpl in *.
    pose proof (delta_of_nonneg (baseline (base m) (baselineKey k)) v Hv). lia.
  - intros Hnr. subst m. assert (H0 : meter_exact meter_init) by (split; [apply map_Forall_empty|by split]).
    clear Hok. revert H0 Hnr. generalize meter_init.
    induction Hes as [|e es He _ IH]; intros m0 H0 Hnr; [by destruct H0 as (_ & _ & ?)|].
    cbn [foldl]. apply Forall_cons in Hnr as [Hn Hnr]. by apply IH; [apply meter_step_exact|].
Qed.
End Metering.

Lemma metering_conserves_witness :
  let k := {| ak_Addr := Addr6 (2 ^ 127) []; ak_Port := 1080 |} in
  let es := [Traffic k 100; Collect ∅; Traffic k 50; Removed k; Traffic k 30; Collect ∅] in
  let m := foldl meter_step meter_init es in
  reported m <= carried m /\ (Forall no_removal es -> reported m + pending m = carried m).
Proof.
  intros k es. apply (metering_conserves es).
  assert (Hk : acctKey_wf k) by (repeat split; vm_compute; congruence).
  by repeat constructor.
Defined.
