(* ===== verification/Agent.v ===== *)
(** * agent: the sync, usage and heartbeat loops

    Models agent/agent.go and agent/metrics.go.  An [Agent] holds the store, the
    firewall behind its interface and the variables of the three loops; each
    method is one definition in the state monad, composed as the code composes
    them.  A loop body is one definition per iteration: [syncRequest] up to the
    backend call, [syncHandle] from its answer to the next iteration, and so for
    the others; the backend's answers are arguments.  The clock, the random
    report ids and the boot id are scripts of the environment. *)

From S2P Require Import Prelude GoStrings Netip Authzhash AgentTypes AgentStore AgentUsage.
Import Authzhash.

(** ** agent/metrics.go *)

Record agentMetrics := {
  m_authorizedAddrs : Z;
  m_authzRev : Z;
  m_lastSync : Z;
  m_backendUp : Z;
  m_failOpen : Z;
  m_syncErrors : Z;
  m_nftErrors : Z;
  m_usageSent : Z;
  m_usageDropped : Z;
  m_usageBuffered : Z;
  m_massRevokeRef : Z;
  m_fullSyncs : Z;
  m_usageCollected : Z;
  m_usageBytes : Z;
  m_collectErrors : Z;
  m_wgPeers : Z;
  m_wgErrors : Z
}.

Definition newAgentMetrics : agentMetrics :=
  {| m_authorizedAddrs := 0; m_authzRev := 0; m_lastSync := 0; m_backendUp := 0; m_failOpen := 0; m_syncErrors := 0; m_nftErrors := 0; m_usageSent := 0; m_usageDropped := 0; m_usageBuffered := 0; m_massRevokeRef := 0; m_fullSyncs := 0; m_usageCollected := 0; m_usageBytes := 0; m_collectErrors := 0; m_wgPeers := 0; m_wgErrors := 0 |}.

Definition set_authorizedAddrs (v : Z) (x : agentMetrics) : agentMetrics :=
  {| m_authorizedAddrs := v; m_authzRev := m_authzRev x; m_lastSync := m_lastSync x; m_backendUp :=
     m_backendUp x; m_failOpen := m_failOpen x; m_syncErrors := m_syncErrors x; m_nftErrors := m_nftErrors
     x; m_usageSent := m_usageSent x; m_usageDropped := m_usageDropped x; m_usageBuffered := m_usageBuffered
     x; m_massRevokeRef := m_massRevokeRef x; m_fullSyncs := m_fullSyncs x; m_usageCollected :=
     m_usageCollected x; m_usageBytes := m_usageBytes x; m_collectErrors := m_collectErrors x; m_wgPeers :=
     m_wgPeers x; m_wgErrors := m_wgErrors x |}.
Definition set_authzRev (v : Z) (x : agentMetrics) : agentMetrics :=
  {| m_authorizedAddrs := m_authorizedAddrs x; m_authzRev := v; m_lastSync := m_lastSync x; m_backendUp :=
     m_backendUp x; m_failOpen := m_failOpen x; m_syncErrors := m_syncErrors x; m_nftErrors := m_nftErrors
     x; m_usageSent := m_usageSent x; m_usageDropped := m_usageDropped x; m_usageBuffered := m_usageBuffered
     x; m_massRevokeRef := m_massRevokeRef x; m_fullSyncs := m_fullSyncs x; m_usageCollected :=
     m_usageCollected x; m_usageBytes := m_usageBytes x; m_collectErrors := m_collectErrors x; m_wgPeers :=
     m_wgPeers x; m_wgErrors := m_wgErrors x |}.
Definition set_lastSync (v : Z) (x : agentMetrics) : agentMetrics :=
  {| m_authorizedAddrs := m_authorizedAddrs x; m_authzRev := m_authzRev x; m_lastSync := v; m_backendUp :=
     m_backendUp x; m_failOpen := m_failOpen x; m_syncErrors := m_syncErrors x; m_nftErrors := m_nftErrors
     x; m_usageSent := m_usageSent x; m_usageDropped := m_usageDropped x; m_usageBuffered := m_usageBuffered
     x; m_massRevokeRef := m_massRevokeRef x; m_fullSyncs := m_fullSyncs x; m_usageCollected :=
     m_usageCollected x; m_usageBytes := m_usageBytes x; m_collectErrors := m_collectErrors x; m_wgPeers :=
     m_wgPeers x; m_wgErrors := m_wgErrors x |}.
Definition set_backendUp (v : Z) (x : agentMetrics) : agentMetrics :=
  {| m_authorizedAddrs := m_authorizedAddrs x; m_authzRev := m_authzRev x; m_lastSync := m_lastSync x;
     m_backendUp := v; m_failOpen := m_failOpen x; m_syncErrors := m_syncErrors x; m_nftErrors :=
     m_nftErrors x; m_usageSent := m_usageSent x; m_usageDropped := m_usageDropped x; m_usageBuffered :=
     m_usageBuffered x; m_massRevokeRef := m_massRevokeRef x; m_fullSyncs := m_fullSyncs x; m_usageCollected
     := m_usageCollected x; m_usageBytes := m_usageBytes x; m_collectErrors := m_collectErrors x; m_wgPeers
     := m_wgPeers x; m_wgErrors := m_wgErrors x |}.
Definition set_failOpen (v : Z) (x : agentMetrics) : agentMetrics :=
  {| m_authorizedAddrs := m_authorizedAddrs x; m_authzRev := m_authzRev x; m_lastSync := m_lastSync x;
     m_backendUp := m_backendUp x; m_failOpen := v; m_syncErrors := m_syncErrors x; m_nftErrors :=
     m_nftErrors x; m_usageSent := m_usageSent x; m_usageDropped := m_usageDropped x; m_usageBuffered :=
     m_usageBuffered x; m_massRevokeRef := m_massRevokeRef x; m_fullSyncs := m_fullSyncs x; m_usageCollected
     := m_usageCollected x; m_usageBytes := m_usageBytes x; m_collectErrors := m_collectErrors x; m_wgPeers
     := m_wgPeers x; m_wgErrors := m_wgErrors x |}.
Definition set_syncErrors (v : Z) (x : agentMetrics) : agentMetrics :=
  {| m_authorizedAddrs := m_authorizedAddrs x; m_authzRev := m_authzRev x; m_lastSync := m_lastSync x;
     m_backendUp := m_backendUp x; m_failOpen := m_failOpen x; m_syncErrors := v; m_nftErrors := m_nftErrors
     x; m_usageSent := m_usageSent x; m_usageDropped := m_usageDropped x; m_usageBuffered := m_usageBuffered
     x; m_massRevokeRef := m_massRevokeRef x; m_fullSyncs := m_fullSyncs x; m_usageCollected :=
     m_usageCollected x; m_usageBytes := m_usageBytes x; m_collectErrors := m_collectErrors x; m_wgPeers :=
     m_wgPeers x; m_wgErrors := m_wgErrors x |}.
Definition set_nftErrors (v : Z) (x : agentMetrics) : agentMetrics :=
  {| m_authorizedAddrs := m_authorizedAddrs x; m_authzRev := m_authzRev x; m_lastSync := m_lastSync x;
     m_backendUp := m_backendUp x; m_failOpen := m_failOpen x; m_syncErrors := m_syncErrors x; m_nftErrors
     := v; m_usageSent := m_usageSent x; m_usageDropped := m_usageDropped x; m_usageBuffered :=
     m_usageBuffered x; m_massRevokeRef := m_massRevokeRef x; m_fullSyncs := m_fullSyncs x; m_usageCollected
     := m_usageCollected x; m_usageBytes := m_usageBytes x; m_collectErrors := m_collectErrors x; m_wgPeers
     := m_wgPeers x; m_wgErrors := m_wgErrors x |}.
Definition set_usageSent (v : Z) (x : agentMetrics) : agentMetrics :=
  {| m_authorizedAddrs := m_authorizedAddrs x; m_authzRev := m_authzRev x; m_lastSync := m_lastSync x;
     m_backendUp := m_backendUp x; m_failOpen := m_failOpen x; m_syncErrors := m_syncErrors x; m_nftErrors
     := m_nftErrors x; m_usageSent := v; m_usageDropped := m_usageDropped x; m_usageBuffered :=
     m_usageBuffered x; m_massRevokeRef := m_massRevokeRef x; m_fullSyncs := m_fullSyncs x; m_usageCollected
     := m_usageCollected x; m_usageBytes := m_usageBytes x; m_collectErrors := m_collectErrors x; m_wgPeers
     := m_wgPeers x; m_wgErrors := m_wgErrors x |}.
Definition set_usageDropped (v : Z) (x : agentMetrics) : agentMetrics :=
  {| m_authorizedAddrs := m_authorizedAddrs x; m_authzRev := m_authzRev x; m_lastSync := m_lastSync x;
     m_backendUp := m_backendUp x; m_failOpen := m_failOpen x; m_syncErrors := m_syncErrors x; m_nftErrors
     := m_nftErrors x; m_usageSent := m_usageSent x; m_usageDropped := v; m_usageBuffered := m_usageBuffered
     x; m_massRevokeRef := m_massRevokeRef x; m_fullSyncs := m_fullSyncs x; m_usageCollected :=
     m_usageCollected x; m_usageBytes := m_usageBytes x; m_collectErrors := m_collectErrors x; m_wgPeers :=
     m_wgPeers x; m_wgErrors := m_wgErrors x |}.
Definition set_usageBuffered (v : Z) (x : agentMetrics) : agentMetrics :=
  {| m_authorizedAddrs := m_authorizedAddrs x; m_authzRev := m_authzRev x; m_lastSync := m_lastSync x;
     m_backendUp := m_backendUp x; m_failOpen := m_failOpen x; m_syncErrors := m_syncErrors x; m_nftErrors
     := m_nftErrors x; m_usageSent := m_usageSent x; m_usageDropped := m_usageDropped x; m_usageBuffered :=
     v; m_massRevokeRef := m_massRevokeRef x; m_fullSyncs := m_fullSyncs x; m_usageCollected :=
     m_usageCollected x; m_usageBytes := m_usageBytes x; m_collectErrors := m_collectErrors x; m_wgPeers :=
     m_wgPeers x; m_wgErrors := m_wgErrors x |}.
Definition set_massRevokeRef (v : Z) (x : agentMetrics) : agentMetrics :=
  {| m_authorizedAddrs := m_authorizedAddrs x; m_authzRev := m_authzRev x; m_lastSync := m_lastSync x;
     m_backendUp := m_backendUp x; m_failOpen := m_failOpen x; m_syncErrors := m_syncErrors x; m_nftErrors
     := m_nftErrors x; m_usageSent := m_usageSent x; m_usageDropped := m_usageDropped x; m_usageBuffered :=
     m_usageBuffered x; m_massRevokeRef := v; m_fullSyncs := m_fullSyncs x; m_usageCollected :=
     m_usageCollected x; m_usageBytes := m_usageBytes x; m_collectErrors := m_collectErrors x; m_wgPeers :=
     m_wgPeers x; m_wgErrors := m_wgErrors x |}.
Definition set_fullSyncs (v : Z) (x : agentMetrics) : agentMetrics :=
  {| m_authorizedAddrs := m_authorizedAddrs x; m_authzRev := m_authzRev x; m_lastSync := m_lastSync x;
     m_backendUp := m_backendUp x; m_failOpen := m_failOpen x; m_syncErrors := m_syncErrors x; m_nftErrors
     := m_nftErrors x; m_usageSent := m_usageSent x; m_usageDropped := m_usageDropped x; m_usageBuffered :=
     m_usageBuffered x; m_massRevokeRef := m_massRevokeRef x; m_fullSyncs := v; m_usageCollected :=
     m_usageCollected x; m_usageBytes := m_usageBytes x; m_collectErrors := m_collectErrors x; m_wgPeers :=
     m_wgPeers x; m_wgErrors := m_wgErrors x |}.
Definition set_usageCollected (v : Z) (x : agentMetrics) : agentMetrics :=
  {| m_authorizedAddrs := m_authorizedAddrs x; m_authzRev := m_authzRev x; m_lastSync := m_lastSync x;
     m_backendUp := m_backendUp x; m_failOpen := m_failOpen x; m_syncErrors := m_syncErrors x; m_nftErrors
     := m_nftErrors x; m_usageSent := m_usageSent x; m_usageDropped := m_usageDropped x; m_usageBuffered :=
     m_usageBuffered x; m_massRevokeRef := m_massRevokeRef x; m_fullSyncs := m_fullSyncs x; m_usageCollected
     := v; m_usageBytes := m_usageBytes x; m_collectErrors := m_collectErrors x; m_wgPeers := m_wgPeers x;
     m_wgErrors := m_wgErrors x |}.
Definition set_usageBytes (v : Z) (x : agentMetrics) : agentMetrics :=
  {| m_authorizedAddrs := m_authorizedAddrs x; m_authzRev := m_authzRev x; m_lastSync := m_lastSync x;
     m_backendUp := m_backendUp x; m_failOpen := m_failOpen x; m_syncErrors := m_syncErrors x; m_nftErrors
     := m_nftErrors x; m_usageSent := m_usageSent x; m_usageDropped := m_usageDropped x; m_usageBuffered :=
     m_usageBuffered x; m_massRevokeRef := m_massRevokeRef x; m_fullSyncs := m_fullSyncs x; m_usageCollected
     := m_usageCollected x; m_usageBytes := v; m_collectErrors := m_collectErrors x; m_wgPeers := m_wgPeers
     x; m_wgErrors := m_wgErrors x |}.
Definition set_collectErrors (v : Z) (x : agentMetrics) : agentMetrics :=
  {| m_authorizedAddrs := m_authorizedAddrs x; m_authzRev := m_authzRev x; m_lastSync := m_lastSync x;
     m_backendUp := m_backendUp x; m_failOpen := m_failOpen x; m_syncErrors := m_syncErrors x; m_nftErrors
     := m_nftErrors x; m_usageSent := m_usageSent x; m_usageDropped := m_usageDropped x; m_usageBuffered :=
     m_usageBuffered x; m_massRevokeRef := m_massRevokeRef x; m_fullSyncs := m_fullSyncs x; m_usageCollected
     := m_usageCollected x; m_usageBytes := m_usageBytes x; m_collectErrors := v; m_wgPeers := m_wgPeers x;
     m_wgErrors := m_wgErrors x |}.
Definition set_wgPeers (v : Z) (x : agentMetrics) : agentMetrics :=
  {| m_authorizedAddrs := m_authorizedAddrs x; m_authzRev := m_authzRev x; m_lastSync := m_lastSync x;
     m_backendUp := m_backendUp x; m_failOpen := m_failOpen x; m_syncErrors := m_syncErrors x; m_nftErrors
     := m_nftErrors x; m_usageSent := m_usageSent x; m_usageDropped := m_usageDropped x; m_usageBuffered :=
     m_usageBuffered x; m_massRevokeRef := m_massRevokeRef x; m_fullSyncs := m_fullSyncs x; m_usageCollected
     := m_usageCollected x; m_usageBytes := m_usageBytes x; m_collectErrors := m_collectErrors x; m_wgPeers
     := v; m_wgErrors := m_wgErrors x |}.
Definition set_wgErrors (v : Z) (x : agentMetrics) : agentMetrics :=
  {| m_authorizedAddrs := m_authorizedAddrs x; m_authzRev := m_authzRev x; m_lastSync := m_lastSync x;
     m_backendUp := m_backendUp x; m_failOpen := m_failOpen x; m_syncErrors := m_syncErrors x; m_nftErrors
     := m_nftErrors x; m_usageSent := m_usageSent x; m_usageDropped := m_usageDropped x; m_usageBuffered :=
     m_usageBuffered x; m_massRevokeRef := m_massRevokeRef x; m_fullSyncs := m_fullSyncs x; m_usageCollected
     := m_usageCollected x; m_usageBytes := m_usageBytes x; m_collectErrors := m_collectErrors x; m_wgPeers
     := m_wgPeers x; m_wgErrors := v |}.

Definition syncOK (rev now : Z) (m : agentMetrics) : agentMetrics :=
  set_authzRev rev (set_lastSync (time_Unix now) (set_failOpen 0 (set_backendUp 1 m))).
Definition syncErr (m : agentMetrics) : agentMetrics := set_syncErrors (m_syncErrors m + 1) m.
Definition outage (m : agentMetrics) : agentMetrics := set_failOpen 1 (set_backendUp 0 m).
Definition nftErr (m : agentMetrics) : agentMetrics := set_nftErrors (m_nftErrors m + 1) m.
Definition usageSentInc (m : agentMetrics) : agentMetrics := set_usageSent (m_usageSent m + 1) m.
Definition usageDrop (n : Z) (m : agentMetrics) : agentMetrics :=
  if n <=? 0 then m else set_usageDropped (m_usageDropped m + n) m.
Definition collected (bytes now : Z) (m : agentMetrics) : agentMetrics :=
  set_usageBytes (m_usageBytes m + bytes) (set_usageCollected (time_Unix now) m).
Definition collectErr (m : agentMetrics) : agentMetrics := set_collectErrors (m_collectErrors m + 1) m.
Definition setBuffered (n : Z) (m : agentMetrics) : agentMetrics := set_usageBuffered n m.
Definition massRevokeRefused (m : agentMetrics) : agentMetrics := set_massRevokeRef (m_massRevokeRef m + 1) m.
Definition fullSync (m : agentMetrics) : agentMetrics := set_fullSyncs (m_fullSyncs m + 1) m.
Definition wgErr (n : Z) (m : agentMetrics) : agentMetrics :=
  if n <=? 0 then m else set_wgErrors (m_wgErrors m + n) m.
Definition setWgPeers (n : Z) (m : agentMetrics) : agentMetrics := set_wgPeers n m.
Definition setAuthorized (n : Z) (m : agentMetrics) : agentMetrics := set_authorizedAddrs n m.

(** ** The Agent *)

(** Fields set before [Run] and read-only afterwards. *)
Record agentParams := {
  p_nodeName : gostr;
  p_enrollToken : gostr;
  p_wgEndpoint : gostr;
  p_wgSyncEvery : Z;
  p_fullSyncEvery : Z;
  p_heartbeatEvery : Z;
  p_longPollWait : Z;
  p_massRevokeMin : Z;
  p_allowMassRevoke : bool;
  p_failClosedAfterGrace : bool;
  p_bufferCap : Z
}.

(** The environment: [nowFn]'s successive readings, [randID]'s successive
    values, and the contents of /proc/sys/kernel/random/boot_id. *)
Record agentEnv := {
  e_nowFn : nat -> Z;
  e_ticks : nat;
  e_rand : nat -> gostr;
  e_rands : nat;
  e_bootID : option gostr
}.

Section Agent.
Context `{MI : MapIter} `{FW : Firewall} `{WG : WgIface}.

Record Agent := {
  a_store : store;
  a_fw : fw;
  a_wg : option wg;
  a_conf : agentParams;
  a_env : agentEnv;
  a_wgEtag : gostr;
  a_wgPubkey : gostr;
  a_startedAt : Z;
  a_cfg : agentConfig;
  a_services : gmap Z gostr;
  a_lastAuthzOK : Z;
  a_forceResync : bool;
  a_metrics : option agentMetrics
}.

Definition set_store (v : store) (x : Agent) : Agent :=
  {| a_store := v; a_fw := a_fw x; a_wg := a_wg x; a_conf := a_conf x; a_env := a_env x; a_wgEtag :=
     a_wgEtag x; a_wgPubkey := a_wgPubkey x; a_startedAt := a_startedAt x; a_cfg := a_cfg x; a_services :=
     a_services x; a_lastAuthzOK := a_lastAuthzOK x; a_forceResync := a_forceResync x; a_metrics :=
     a_metrics x |}.
Definition set_fw (v : fw) (x : Agent) : Agent :=
  {| a_store := a_store x; a_fw := v; a_wg := a_wg x; a_conf := a_conf x; a_env := a_env x; a_wgEtag :=
     a_wgEtag x; a_wgPubkey := a_wgPubkey x; a_startedAt := a_startedAt x; a_cfg := a_cfg x; a_services :=
     a_services x; a_lastAuthzOK := a_lastAuthzOK x; a_forceResync := a_forceResync x; a_metrics :=
     a_metrics x |}.
Definition set_wg (v : option wg) (x : Agent) : Agent :=
  {| a_store := a_store x; a_fw := a_fw x; a_wg := v; a_conf := a_conf x; a_env := a_env x; a_wgEtag :=
     a_wgEtag x; a_wgPubkey := a_wgPubkey x; a_startedAt := a_startedAt x; a_cfg := a_cfg x; a_services :=
     a_services x; a_lastAuthzOK := a_lastAuthzOK x; a_forceResync := a_forceResync x; a_metrics :=
     a_metrics x |}.
Definition set_env (v : agentEnv) (x : Agent) : Agent :=
  {| a_store := a_store x; a_fw := a_fw x; a_wg := a_wg x; a_conf := a_conf x; a_env := v; a_wgEtag :=
     a_wgEtag x; a_wgPubkey := a_wgPubkey x; a_startedAt := a_startedAt x; a_cfg := a_cfg x; a_services :=
     a_services x; a_lastAuthzOK := a_lastAuthzOK x; a_forceResync := a_forceResync x; a_metrics :=
     a_metrics x |}.
Definition set_wgEtag (v : gostr) (x : Agent) : Agent :=
  {| a_store := a_store x; a_fw := a_fw x; a_wg := a_wg x; a_conf := a_conf x; a_env := a_env x; a_wgEtag :=
     v; a_wgPubkey := a_wgPubkey x; a_startedAt := a_startedAt x; a_cfg := a_cfg x; a_services := a_services
     x; a_lastAuthzOK := a_lastAuthzOK x; a_forceResync := a_forceResync x; a_metrics := a_metrics x |}.
Definition set_wgPubkey (v : gostr) (x : Agent) : Agent :=
  {| a_store := a_store x; a_fw := a_fw x; a_wg := a_wg x; a_conf := a_conf x; a_env := a_env x; a_wgEtag :=
     a_wgEtag x; a_wgPubkey := v; a_startedAt := a_startedAt x; a_cfg := a_cfg x; a_services := a_services
     x; a_lastAuthzOK := a_lastAuthzOK x; a_forceResync := a_forceResync x; a_metrics := a_metrics x |}.
Definition set_startedAt (v : Z) (x : Agent) : Agent :=
  {| a_store := a_store x; a_fw := a_fw x; a_wg := a_wg x; a_conf := a_conf x; a_env := a_env x; a_wgEtag :=
     a_wgEtag x; a_wgPubkey := a_wgPubkey x; a_startedAt := v; a_cfg := a_cfg x; a_services := a_services x;
     a_lastAuthzOK := a_lastAuthzOK x; a_forceResync := a_forceResync x; a_metrics := a_metrics x |}.
Definition set_cfg (v : agentConfig) (x : Agent) : Agent :=
  {| a_store := a_store x; a_fw := a_fw x; a_wg := a_wg x; a_conf := a_conf x; a_env := a_env x; a_wgEtag :=
     a_wgEtag x; a_wgPubkey := a_wgPubkey x; a_startedAt := a_startedAt x; a_cfg := v; a_services :=
     a_services x; a_lastAuthzOK := a_lastAuthzOK x; a_forceResync := a_forceResync x; a_metrics :=
     a_metrics x |}.
Definition set_services (v : gmap Z gostr) (x : Agent) : Agent :=
  {| a_store := a_store x; a_fw := a_fw x; a_wg := a_wg x; a_conf := a_conf x; a_env := a_env x; a_wgEtag :=
     a_wgEtag x; a_wgPubkey := a_wgPubkey x; a_startedAt := a_startedAt x; a_cfg := a_cfg x; a_services :=
     v; a_lastAuthzOK := a_lastAuthzOK x; a_forceResync := a_forceResync x; a_metrics := a_metrics x |}.
Definition set_lastAuthzOK (v : Z) (x : Agent) : Agent :=
  {| a_store := a_store x; a_fw := a_fw x; a_wg := a_wg x; a_conf := a_conf x; a_env := a_env x; a_wgEtag :=
     a_wgEtag x; a_wgPubkey := a_wgPubkey x; a_startedAt := a_startedAt x; a_cfg := a_cfg x; a_services :=
     a_services x; a_lastAuthzOK := v; a_forceResync := a_forceResync x; a_metrics := a_metrics x |}.
Definition set_forceResync (v : bool) (x : Agent) : Agent :=
  {| a_store := a_store x; a_fw := a_fw x; a_wg := a_wg x; a_conf := a_conf x; a_env := a_env x; a_wgEtag :=
     a_wgEtag x; a_wgPubkey := a_wgPubkey x; a_startedAt := a_startedAt x; a_cfg := a_cfg x; a_services :=
     a_services x; a_lastAuthzOK := a_lastAuthzOK x; a_forceResync := v; a_metrics := a_metrics x |}.
Definition set_metrics (v : option agentMetrics) (x : Agent) : Agent :=
  {| a_store := a_store x; a_fw := a_fw x; a_wg := a_wg x; a_conf := a_conf x; a_env := a_env x; a_wgEtag :=
     a_wgEtag x; a_wgPubkey := a_wgPubkey x; a_startedAt := a_startedAt x; a_cfg := a_cfg x; a_services :=
     a_services x; a_lastAuthzOK := a_lastAuthzOK x; a_forceResync := a_forceResync x; a_metrics := v |}.

Definition on_store {A} : State store A -> State Agent A := embed a_store set_store.
Definition on_fw {A} : State fw A -> State Agent A := embed a_fw set_fw.
(** [a.metrics.f()]: the methods are nil-safe. *)
Definition on_metrics (f : agentMetrics -> agentMetrics) : State Agent unit :=
  modify (fun a => set_metrics (f <$> a_metrics a) a).

Definition now : State Agent Z :=
  fun a => let e := a_env a in
           (e_nowFn e (e_ticks e),
            set_env {| e_nowFn := e_nowFn e; e_ticks := S (e_ticks e); e_rand := e_rand e;
                       e_rands := e_rands e; e_bootID := e_bootID e |} a).

Definition randID : State Agent gostr :=
  fun a => let e := a_env a in
           (e_rand e (e_rands e),
            set_env {| e_nowFn := e_nowFn e; e_ticks := e_ticks e; e_rand := e_rand e;
                       e_rands := S (e_rands e); e_bootID := e_bootID e |} a).

Definition newAgent (st : store) (f : fw) (env : agentEnv) (name enrollToken : gostr)
    (failClosed : bool) (bufferCap : Z) : Agent :=
  {| a_store := st; a_fw := f; a_wg := None;
     a_conf := {| p_nodeName := name; p_enrollToken := enrollToken; p_wgEndpoint := [];
                  p_wgSyncEvery := 15 * time_Second; p_fullSyncEvery := 5 * time_Minute;
                  p_heartbeatEvery := 60 * time_Second; p_longPollWait := 50 * time_Second;
                  p_massRevokeMin := 50; p_allowMassRevoke := false;
                  p_failClosedAfterGrace := failClosed; p_bufferCap := bufferCap |};
     a_env := env; a_wgEtag := []; a_wgPubkey := []; a_startedAt := 0;
     a_cfg := {| ac_UsageIntervalS := 30; ac_GraceMinutes := 240; ac_Services := [];
                 ac_Wg := {| wc_Port := 0; wc_Pool4 := []; wc_Pool6 := [] |} |};
     a_services := ∅; a_lastAuthzOK := 0; a_forceResync := false; a_metrics := None |}.

Definition counterEpoch : State Agent gostr :=
  gets (fun a => match e_bootID (a_env a) with
                 | Some b => bs "boot-" ++ TrimSpace b
                 | None => bs "boot-unknown"
                 end).

(** ** Enrollment and start *)

Inductive enroll_err := errNoEnrollToken | EnrollFailed | SaveFailed (e : io_err).

(** [ensureEnrolled]; [keypair] is what [newIdentity] generates (public key and
    seed, base64) and [enroll] the backend's answer to the request.  The result
    on success is the argument of [client.setAuth]. *)
Definition ensureEnrolled (keypair : gostr * gostr)
    (enroll : enrollRequest -> option enrollResponse) : State Agent (result enroll_err (gostr * gostr)) :=
  e ← on_store enrolled;
  if (e : bool) then
    id ← on_store get_identity;
    match id with
    | Some id => mret (Ok (id_NodeID id, id_AuthToken id))
    | None => mret (Err EnrollFailed)
    end
  else
    a ← get;
    if bool_decide (p_enrollToken (a_conf a) = []) then mret (Err errNoEnrollToken) else
    let '(pub, seed) := keypair in
    match enroll {| er_EnrollToken := p_enrollToken (a_conf a); er_NodePubkey := pub;
                    er_Name := p_nodeName (a_conf a) |} with
    | None => mret (Err EnrollFailed)
    | Some resp =>
        r ← on_store (saveIdentity {| id_NodeID := en_NodeID resp; id_AuthToken := en_AuthToken resp;
                                      id_PrivSeedB64 := seed |});
        match r with
        | Err e => mret (Err (SaveFailed e))
        | Ok _ => mret (Ok (en_NodeID resp, en_AuthToken resp))
        end
    end.

Definition initLastAuthzOK : State Agent unit :=
  rt ← on_store snapshotRuntime;
  t ← now;
  let last := if time_IsZero (rt_LastAuthzOK rt) then t else rt_LastAuthzOK rt in
  modify (set_lastAuthzOK last) ;; modify (set_startedAt t).

(** [time.Duration(a.cfg.GraceMinutes) * time.Minute] on int64. *)
Definition graceWindow (a : Agent) : Z := i64 (ac_GraceMinutes (a_cfg a) * time_Minute).

Definition startupGrace (a : Agent) : Z :=
  let g := 10 * time_Minute in
  let half := Z.quot (graceWindow a) 2 in
  if (0 <? half) && (half <? g) then half else g.

(** ** Authorization sync *)

Inductive authz_err :=
| FwFailed
| massRevokeError (del current : Z)
| revRegressionError (got cursor : Z)
| PersistFailed (e : io_err).

Definition presentOnly (del : list Addr) : State Agent (result fw_err (list Addr)) :=
  match del with
  | [] => mret (Ok [])
  | _ =>
      r ← on_fw ListAuthorized;
      match r with
      | Err e => mret (Err e)
      | Ok current => mret (Ok (filter (fun d => d ∈ current) del))
      end
  end.

Definition requestResync : State Agent unit := modify (set_forceResync true).

Definition takeResync : State Agent bool :=
  a ← get;
  if a_forceResync a then modify (set_forceResync false) ;; mret true else mret false.

Definition isMassRevoke (a : Agent) (del current : Z) : bool :=
  (p_massRevokeMin (a_conf a) <? del) && (current <? i64 (del * 2)).

(** The common tail of [applyAuthz]: the batch, then the cursor. *)
Definition applyAndAdvance (add del : list Addr) (rev : Z) : State Agent (result authz_err unit) :=
  r ← on_fw (ApplyAuthorized add del);
  match r with
  | Err _ => mret (Err FwFailed)
  | Ok _ =>
      r ← on_store (withRuntime (modify (set_AuthzRev rev)));
      match r.2 with
      | Err e => mret (Err (PersistFailed e))
      | Ok _ => mret (Ok tt)
      end
  end.

Definition applyAuthz (resp : authzResponse) : State Agent (result authz_err unit) :=
  if az_Full resp then
    r ← on_fw ListAuthorized;
    match r with
    | Err _ => mret (Err FwFailed)
    | Ok current =>
        let desired : gset Addr := list_to_set (map am_Addr (az_Addresses resp)) in
        let '(add, del) := diffAuthorized current desired in
        a ← get;
        if negb (az_Force resp) && negb (p_allowMassRevoke (a_conf a)) &&
           isMassRevoke a (Z.of_nat (length del)) (Z.of_nat (size current))
        then mret (Err (massRevokeError (Z.of_nat (length del)) (Z.of_nat (size current))))
        else applyAndAdvance add del (az_Rev resp)
    end
  else
    cursor ← on_store authzRev;
    if az_Rev resp <? cursor then mret (Err (revRegressionError (az_Rev resp) cursor)) else
    let add := map am_Addr (az_Add resp) in
    r ← presentOnly (az_Del resp);
    match r with
    | Err _ => mret (Err FwFailed)
    | Ok del => applyAndAdvance add del (az_Rev resp)
    end.

Definition persistAuthzOKEvery : Z := time_Minute.

Definition markAuthzOK : State Agent unit :=
  t ← now;
  modify (set_lastAuthzOK t) ;;
  a ← get;
  let stale := persistAuthzOKEvery <=? time_Sub t (rt_LastAuthzOK (s_rt (a_store a))) in
  (if stale then (_ ← on_store (withRuntime (modify (set_LastAuthzOK t))); mret tt) else mret tt) ;;
  rev ← on_store authzRev;
  on_metrics (syncOK rev t).

Definition graceCheck : State Agent unit :=
  on_metrics outage ;;
  t ← now;
  a ← get;
  let over := graceWindow a <? time_Sub t (a_lastAuthzOK a) in
  let settled := time_IsZero (a_startedAt a) || (startupGrace a <=? time_Sub t (a_startedAt a)) in
  if negb over || negb (p_failClosedAfterGrace (a_conf a)) || negb settled then mret tt else
  r ← on_fw ListAuthorized;
  match r with
  | Err _ => mret tt
  | Ok current =>
      if bool_decide (size current = 0%nat) then mret tt else
      _ ← on_fw (ApplyAuthorized [] (set_range current)); mret tt
  end.

(** *** Backoff *)

Definition backoffMax : Z := 60 * time_Second.

(** [next] without its random jitter: the new [cur]. *)
Definition backoff_next (cur : Z) : Z :=
  let cur := if cur =? 0 then time_Second
             else if cur <? backoffMax then i64 (cur * 2) else cur in
  if backoffMax <? cur then backoffMax else cur.

(** *** The loop *)

(** The locals of [runSync]; [sl_sleep] is the wait before the next iteration
    (before jitter), 0 when the loop continues at once. *)
Record syncLoop := { sl_forceFull : bool; sl_lastFull : Z; sl_backoff : Z; sl_sleep : Z }.

Definition syncLoop_init : syncLoop :=
  {| sl_forceFull := true; sl_lastFull := 0; sl_backoff := 0; sl_sleep := 0 |}.

Definition sleep_retry (forceFull : bool) (l : syncLoop) : syncLoop :=
  {| sl_forceFull := forceFull; sl_lastFull := sl_lastFull l;
     sl_backoff := backoff_next (sl_backoff l); sl_sleep := backoff_next (sl_backoff l) |}.

(** [forceFull = false; lastFull = a.now()] when [c]. *)
Definition clearForce (c : bool) (l : syncLoop) : State Agent syncLoop :=
  if c then
    t ← now;
    mret {| sl_forceFull := false; sl_lastFull := t; sl_backoff := sl_backoff l; sl_sleep := sl_sleep l |}
  else mret l.

Definition resetBackoff (l : syncLoop) : syncLoop :=
  {| sl_forceFull := sl_forceFull l; sl_lastFull := sl_lastFull l; sl_backoff := 0; sl_sleep := 0 |}.

Inductive getAuthz_err := errUnchanged | getAuthz_failed.

(** The arguments of the [getAuthz] call the iteration makes. *)
Record authzQuery := { q_rev : Z; q_wait : Z; q_full : bool }.

(** From the top of the loop to the [getAuthz] call: the loop's locals, the
    cursor read, and the query. *)
Definition syncRequest (l : syncLoop) : State Agent (syncLoop * Z * authzQuery) :=
  resync ← takeResync;
  let forceFull := if (resync : bool) then true else sl_forceFull l in
  a ← get;
  forceFull ← (if negb forceFull && (0 <? p_fullSyncEvery (a_conf a))
               then t ← now; mret (p_fullSyncEvery (a_conf a) <=? time_Sub t (sl_lastFull l))
               else mret forceFull);
  persisted ← on_store authzRev;
  mret ({| sl_forceFull := forceFull; sl_lastFull := sl_lastFull l; sl_backoff := sl_backoff l;
           sl_sleep := 0 |}, persisted,
        {| q_rev := if (forceFull : bool) then 0 else persisted;
           q_wait := Z.quot (p_longPollWait (a_conf a)) time_Second;
           q_full := forceFull |}).

(** From the answer to the end of the iteration. *)
Definition syncHandle (l : syncLoop) (persisted : Z)
    (answer : result getAuthz_err authzResponse) : State Agent syncLoop :=
  match answer with
  | Err errUnchanged =>
      l ← clearForce (sl_forceFull l) l;
      markAuthzOK ;; mret (resetBackoff l)
  | Err getAuthz_failed =>
      on_metrics syncErr ;; graceCheck ;; mret (sleep_retry (sl_forceFull l) l)
  | Ok resp =>
      r ← applyAuthz resp;
      match r with
      | Err (massRevokeError _ _) =>
          on_metrics massRevokeRefused ;; markAuthzOK ;;
          if sl_forceFull l && (0 <? persisted) then
            l ← clearForce true l; mret (resetBackoff l)
          else mret (sleep_retry (sl_forceFull l) l)
      | Err (revRegressionError _ _) => markAuthzOK ;; mret (sleep_retry true l)
      | Err _ => on_metrics nftErr ;; mret (sleep_retry (sl_forceFull l) l)
      | Ok _ =>
          (if az_Full resp then on_metrics fullSync else mret tt) ;;
          l ← clearForce (sl_forceFull l) l;
          markAuthzOK ;; mret (resetBackoff l)
      end
  end.

(** One iteration of [runSync] against a backend that answers at once. *)
Definition runSync_iter (getAuthz : authzQuery -> result getAuthz_err authzResponse)
    (l : syncLoop) : State Agent syncLoop :=
  x ← syncRequest l;
  syncHandle x.1.1 x.1.2 (getAuthz x.2).

(** ** Usage *)

Inductive collect_err :=
| AcctFailed
| CollectPersist (e : io_err)
| SlicePanic.   (* the slice expression is out of range: a negative buffer cap *)

(** The closure [collectAndBuffer] runs under the store's lock.  [id] and [t]
    are the report id and the time it would use; the result is the byte total,
    the number of dropped reports, whether the id and time were used, and whether
    the drop is out of range. *)
Definition collectFn (cur : gmap acctKey Z) (services : gmap Z gostr) (epoch id : gostr) (t cap : Z)
    : State runtime (Z * Z * bool * bool) :=
  fun rt =>
    let '(samples, next) := computeDelta (rt_Baselines rt) cur services in
    let rt := set_Baselines next epoch rt in
    if rt_PrimeBaselines rt then ((0, 0, false, false), set_PrimeBaselines false rt) else
    let total := foldl (fun acc s => u64 (acc + us_Bytes s)) 0 samples in
    match samples with
    | [] => ((total, 0, false, false), rt)
    | _ =>
        let buf := rt_BufferedUsage rt ++
          [{| ur_ReportID := id; ur_CounterEpoch := epoch; ur_WindowEnd := time_Unix t;
              ur_Samples := samples |}] in
        let n := Z.of_nat (length buf) in
        if cap <? n then
          let d := n - cap in
          ((total, d, true, n <? d), set_BufferedUsage (drop (Z.to_nat d) buf) rt)
        else ((total, 0, true, false), set_BufferedUsage buf rt)
    end.

(** Advance the id and clock scripts if the closure used them. *)
Definition useScripts (used : bool) : State Agent unit :=
  if used then (_ ← randID; _ ← now; mret tt) else mret tt.

Definition peek {A} (m : State Agent A) : State Agent A := fun a => ((m a).1, a).

Definition collectAndBuffer : State Agent (result collect_err unit) :=
  r ← on_fw ReadAcct;
  match r with
  | Err _ => mret (Err AcctFailed)
  | Ok cur =>
      services ← gets a_services;
      epoch ← counterEpoch;
      id ← peek randID;
      t ← peek now;
      a ← get;
      x ← on_store (withRuntime (collectFn cur services epoch id t (p_bufferCap (a_conf a))));
      let '((total, dropped, used, panics), persisted) := x in
      useScripts used ;;
      if (panics : bool) then mret (Err SlicePanic) else
      on_metrics (usageDrop dropped) ;;
      match persisted with
      | Err e => mret (Err (CollectPersist e))
      | Ok _ => t ← now; on_metrics (collected total t) ;; mret (Ok tt)
      end
  end.

Definition gcAcct (addrs : list Addr) : State Agent unit :=
  r ← on_fw ReadAcct;
  match r with
  | Err _ => mret tt
  | Ok existing =>
      let want : gset Addr := list_to_set addrs in
      let keys := filter (fun k => ak_Addr k ∈ want) (map_range existing).*1 in
      _ ← on_fw (DeleteAcct keys); mret tt
  end.

Definition applyRevocations (revoke : list Addr) : State Agent unit :=
  match revoke with
  | [] => mret tt
  | _ =>
      r ← presentOnly revoke;
      match r with
      | Err _ => mret tt
      | Ok del =>
          r ← on_fw (ApplyAuthorized [] del);
          match r with
          | Err _ => mret tt
          | Ok _ => gcAcct revoke
          end
      end
  end.

(** Drop the acknowledged report if it is still the oldest. *)
Definition ackFn (id : gostr) : State runtime unit :=
  modify (fun rt => match rt_BufferedUsage rt with
                    | r :: rest => if bool_decide (ur_ReportID r = id) then set_BufferedUsage rest rt else rt
                    | [] => rt
                    end).

(** [flushBuffer]: [postUsage] answers each delivery.  The loop ends when the
    buffer is empty, a delivery fails or persisting fails; [fuel] bounds the
    deliveries (see [flushBuffer_fuel]). *)
Fixpoint flushBuffer_loop (fuel : nat) (postUsage : usageReport -> option usageAck) : State Agent (list usageReport) :=
  match fuel with
  | O => mret []
  | S fuel =>
      snap ← on_store snapshotRuntime;
      match rt_BufferedUsage snap with
      | [] => mret []
      | report :: _ =>
          match postUsage report with
          | None => mret []
          | Some ack =>
              on_metrics usageSentInc ;;
              applyRevocations (ua_Revoke ack) ;;
              r ← on_store (withRuntime (ackFn (ur_ReportID report)));
              match r.2 with
              | Err _ => mret [report]
              | Ok _ => sent ← flushBuffer_loop fuel postUsage; mret (report :: sent)
              end
          end
      end
  end.

(** The reports delivered (accepted by the backend), in order. *)
Definition flushBuffer (postUsage : usageReport -> option usageAck) : State Agent (list usageReport) :=
  fun a => flushBuffer_loop (S (length (rt_BufferedUsage (s_rt (a_store a))))) postUsage a.

(** One iteration of [runUsage]: the interval to sleep. *)
Definition runUsage_iter (postUsage : usageReport -> option usageAck) : State Agent Z :=
  r ← collectAndBuffer;
  (match r with Err _ => on_metrics collectErr | Ok _ => mret tt end) ;;
  _ ← flushBuffer postUsage;
  rt ← on_store snapshotRuntime;
  on_metrics (setBuffered (Z.of_nat (length (rt_BufferedUsage rt)))) ;;
  gets (fun a => i64 (ac_UsageIntervalS (a_cfg a) * time_Second)).

(** ** Heartbeat *)

Definition agentVersion : gostr := bs "0.3.0".

Definition set_cfg_UsageIntervalS (v : Z) (c : agentConfig) : agentConfig :=
  {| ac_UsageIntervalS := v; ac_GraceMinutes := ac_GraceMinutes c; ac_Services := ac_Services c; ac_Wg := ac_Wg c |}.
Definition set_cfg_GraceMinutes (v : Z) (c : agentConfig) : agentConfig :=
  {| ac_UsageIntervalS := ac_UsageIntervalS c; ac_GraceMinutes := v; ac_Services := ac_Services c; ac_Wg := ac_Wg c |}.
Definition set_cfg_Wg (v : wgConfig) (c : agentConfig) : agentConfig :=
  {| ac_UsageIntervalS := ac_UsageIntervalS c; ac_GraceMinutes := ac_GraceMinutes c; ac_Services := ac_Services c; ac_Wg := v |}.

Definition servicesMap (l : list serviceInfo) : gmap Z gostr :=
  foldl (fun m s => <[si_Port s := si_Key s]> m) ∅ l.

Definition applyConfig (cfg : agentConfig) : State Agent unit :=
  modify (fun a =>
    let c := a_cfg a in
    let c := if 0 <? ac_UsageIntervalS cfg then set_cfg_UsageIntervalS (ac_UsageIntervalS cfg) c else c in
    let c := if 0 <? ac_GraceMinutes cfg then set_cfg_GraceMinutes (ac_GraceMinutes cfg) c else c in
    let a := set_cfg c a in
    match ac_Services cfg with
    | [] => a
    | l => set_services (servicesMap l) a
    end).

Definition checkWgConfig (cfg : wgConfig) : State Agent unit :=
  modify (fun a =>
    match a_wg a with
    | None => a
    | Some _ =>
        if wc_Port cfg =? 0 then a
        else if bool_decide (ac_Wg (a_cfg a) = cfg) then a
        else set_cfg (set_cfg_Wg cfg (a_cfg a)) a
    end).

(** [wgPublicKey] (agent/wg.go): cached after the first success. *)
Definition wgPublicKey (w : wg) : State Agent (result wg_err gostr) :=
  a ← get;
  if negb (bool_decide (a_wgPubkey a = [])) then mret (Ok (a_wgPubkey a)) else
  let '(r, w) := PublicKey w in
  modify (set_wg (Some w)) ;;
  match r with
  | Err e => mret (Err e)
  | Ok pub => modify (set_wgPubkey pub) ;; mret (Ok pub)
  end.

(** The request of one heartbeat. *)
Definition heartbeatBuild : State Agent heartbeatRequest :=
  rt ← on_store snapshotRuntime;
  r ← on_fw ListAuthorized;
  x ← match r with
      | Err _ => mret (-1, [])
      | Ok set => on_metrics (setAuthorized (Z.of_nat (size set))) ;;
                  mret (Z.of_nat (size set), OfSet set)
      end;
  a ← get;
  y ← match a_wg a with
      | None => mret ([], [])
      | Some w =>
          p ← wgPublicKey w;
          match p with
          | Ok pub => mret (pub, p_wgEndpoint (a_conf a))
          | Err _ => mret ([], [])
          end
      end;
  mret {| hr_Version := agentVersion; hr_AuthzRev := rt_AuthzRev rt; hr_SetSize := x.1; hr_SetHash := x.2;
          hr_WgPubkey := y.1; hr_WgEndpoint := y.2 |}.

(** One iteration of [runHeartbeat]; [None] is a failed call. *)
Definition runHeartbeat_iter (heartbeat : heartbeatRequest -> option heartbeatResponse) : State Agent unit :=
  req ← heartbeatBuild;
  match heartbeat req with
  | None => mret tt
  | Some resp =>
      applyConfig (hb_Config resp) ;;
      checkWgConfig (ac_Wg (hb_Config resp)) ;;
      (if hb_Resync resp then requestResync else mret tt)
  end.

End Agent.
