(* ===== verification/AgentFacts.v ===== *)
(** * agent: theorems about the loops

    Proved against the [Firewall] interface for every map iteration order. The
    first part runs one firewall or store call; the sections after it hold the
    authorization sync, the grace window, the loop's cadence, and usage delivery. *)

From S2P Require Import Prelude GoStrings Netip Authzhash AgentTypes AgentStore AgentUsage Agent.
Import Authzhash.

(** Run one bind: the scrutinee of the first pending call is destructed. *)
Ltac run_state :=
  unfold mbind, state_bind, mret, state_ret in *; cbn beta iota in *.

Section AgentFacts.
Context `{MI : MapIter} `{FW : Firewall} `{WG : WgIface}.
Implicit Types a : Agent.

Definition kernel (a : Agent) : gset Addr := fw_set (a_fw a).
Definition acct_of (a : Agent) : gmap acctKey Z := fw_acct (a_fw a).
Definition cursor (a : Agent) : Z := rt_AuthzRev (s_rt (a_store a)).
Definition buffered (a : Agent) : list usageReport := rt_BufferedUsage (s_rt (a_store a)).
Definition up (a : Agent) : Prop := fw_up (a_fw a).

(** The variables other than the store, the firewall, the scripts and the
    metrics are the same. *)
Definition same_vars (a a' : Agent) : Prop :=
  a_conf a' = a_conf a /\ a_cfg a' = a_cfg a /\ a_services a' = a_services a /\
  a_lastAuthzOK a' = a_lastAuthzOK a /\ a_startedAt a' = a_startedAt a /\
  a_forceResync a' = a_forceResync a /\ a_wg a' = a_wg a /\ a_wgEtag a' = a_wgEtag a /\
  a_wgPubkey a' = a_wgPubkey a.

(** ** One call *)

Lemma list_spec a r a' :
  on_fw ListAuthorized a = (r, a') ->
  exists f, a' = set_fw f a /\ fw_set f = kernel a /\ fw_acct f = acct_of a /\
    (forall s, r = Ok s -> s = kernel a) /\ (up a -> is_ok r = true /\ fw_up f).
Proof.
  unfold on_fw, embed. pose proof (ListAuthorized_frame (a_fw a)) as [H1 H2].
  pose proof (ListAuthorized_ok (a_fw a)) as H3. pose proof (ListAuthorized_up (a_fw a)) as H4.
  destruct (ListAuthorized (a_fw a)) as [r0 f]. intros E. inv E. by exists f.
Qed.

Lemma apply_spec add del a r a' :
  on_fw (ApplyAuthorized add del) a = (r, a') ->
  exists f, a' = set_fw f a /\ fw_acct f = acct_of a /\
    fw_set f = (if is_ok r then (kernel a ∪ list_to_set add) ∖ list_to_set del else kernel a) /\
    (up a -> fw_up f) /\
    (up a -> NoDup del -> list_to_set del ⊆ kernel a -> is_ok r = true).
Proof.
  unfold on_fw, embed. pose proof (ApplyAuthorized_acct add del (a_fw a)) as H1.
  pose proof (ApplyAuthorized_err add del (a_fw a)) as H2.
  pose proof (ApplyAuthorized_ok add del (a_fw a)) as H3.
  pose proof (ApplyAuthorized_up add del (a_fw a)) as H4.
  pose proof (ApplyAuthorized_still_up add del (a_fw a)) as H5.
  destruct (ApplyAuthorized add del (a_fw a)) as [r0 f]. intros E. inv E. exists f. split; [done|].
  split; [done|]. split; [|done]. destruct r as [[]|e]; cbn [is_ok fst snd] in *; [by apply H3|by eapply H2].
Qed.

Lemma acct_spec a r a' :
  on_fw ReadAcct a = (r, a') ->
  exists f, a' = set_fw f a /\ fw_set f = kernel a /\ fw_acct f = acct_of a /\
    (forall s, r = Ok s -> s = acct_of a) /\ (up a -> is_ok r = true /\ fw_up f).
Proof.
  unfold on_fw, embed. pose proof (ReadAcct_frame (a_fw a)) as [H1 H2].
  pose proof (ReadAcct_ok (a_fw a)) as H3. pose proof (ReadAcct_up (a_fw a)) as H4.
  destruct (ReadAcct (a_fw a)) as [r0 f]. intros E. inv E. by exists f.
Qed.

Lemma delete_spec keys a r a' :
  on_fw (DeleteAcct keys) a = (r, a') ->
  exists f, a' = set_fw f a /\ fw_set f = kernel a /\
    fw_acct f = (if is_ok r then filter (fun kv => kv.1 ∉ keys) (acct_of a) else acct_of a) /\
    (up a -> fw_up f) /\
    (up a -> NoDup keys -> Forall (fun k => is_Some (acct_of a !! k)) keys -> is_ok r = true).
Proof.
  unfold on_fw, embed. pose proof (DeleteAcct_set keys (a_fw a)) as H1.
  pose proof (DeleteAcct_err keys (a_fw a)) as H2.
  pose proof (DeleteAcct_ok keys (a_fw a)) as H3.
  pose proof (DeleteAcct_up keys (a_fw a)) as H4.
  pose proof (DeleteAcct_still_up keys (a_fw a)) as H5.
  destruct (DeleteAcct keys (a_fw a)) as [r0 f]. intros E. inv E. exists f. split; [done|].
  split; [done|]. split; [|done]. destruct r as [[]|e]; cbn [is_ok fst snd] in *; [by apply H3|by eapply H2].
Qed.

Lemma runtime_spec {A} (fn : State runtime A) a x a' :
  on_store (withRuntime fn) a = (x, a') ->
  exists s, a' = set_store s a /\ s_rt s = (fn (s_rt (a_store a))).2 /\ s_id s = s_id (a_store a) /\
    x.1 = (fn (s_rt (a_store a))).1 /\
    s_disk s = (write_runtime (fn (s_rt (a_store a))).2 (s_disk (a_store a))).2 /\
    x.2 = (write_runtime (fn (s_rt (a_store a))).2 (s_disk (a_store a))).1.
Proof.
  unfold on_store, embed. rewrite withRuntime_eq. intros E. inv E. by eexists.
Qed.

Lemma write_runtime_ok rt d : d_faults d = [] ->
  (write_runtime rt d).1 = Ok tt /\ readFile (d_rt (write_runtime rt d).2) = Some (Json rt) /\
  d_faults (write_runtime rt d).2 = [].
Proof. intros E. unfold write_runtime, next_fault. by rewrite E. Qed.

(** ** Applying an authorization response *)

Definition desired_of (resp : authzResponse) : gset Addr := list_to_set (map am_Addr (az_Addresses resp)).
Definition adds_of (resp : authzResponse) : gset Addr := list_to_set (map am_Addr (az_Add resp)).
Definition dels_of (resp : authzResponse) : gset Addr := list_to_set (az_Del resp).

Lemma applyAndAdvance_spec add del rev a r a' :
  applyAndAdvance add del rev a = (r, a') ->
  acct_of a' = acct_of a /\ a_conf a' = a_conf a /\ (up a -> up a') /\
  match r with
  | Ok _ => kernel a' = (kernel a ∪ list_to_set add) ∖ list_to_set del /\ cursor a' = rev /\
            readFile (d_rt (s_disk (a_store a'))) = Some (Json (s_rt (a_store a')))
  | Err (PersistFailed _) => kernel a' = (kernel a ∪ list_to_set add) ∖ list_to_set del /\ cursor a' = rev /\
            d_faults (s_disk (a_store a)) <> []
  | Err FwFailed => kernel a' = kernel a /\ a_store a' = a_store a /\
      ~ (up a /\ NoDup del /\ list_to_set del ⊆ kernel a)
  | Err _ => False
  end.
Proof.
  unfold applyAndAdvance. run_state.
  destruct (on_fw (ApplyAuthorized add del) a) as [r1 a1] eqn:E1.
  destruct (apply_spec _ _ _ _ _ E1) as (f & -> & Ha & Hs & Hu & Hok).
  destruct r1 as [u|e]; cbn [is_ok] in *.
  - destruct (on_store _ _) as [x a2] eqn:E2.
    destruct (runtime_spec _ _ _ _ E2) as (st & -> & Hrt & _ & _ & Hd & Hr).
    destruct (x.2) as [u2|e2] eqn:Ex; intros H; inv H; unfold kernel, acct_of, cursor, up;
      cbn [set_store set_fw a_fw a_store a_conf] in *; rewrite Hrt; cbn;
      (split; [done|]; split; [done|]; split; [done|]); (split; [done|]; split; [done|]).
    2:{ intros Hf. rewrite (proj1 (write_runtime_ok _ _ Hf)) in Hr. done. }
    rewrite Hd in *. cbn in *.
    revert Hr. unfold write_runtime. destruct (writeJSONAtomic _ _ _) as [r p] eqn:Ew. cbn. intros <-.
    destruct (writeJSONAtomic_cases _ _ _ _ _ Ew) as [(?&?&?)|(_ & Ec & _)]; [done|].
    unfold readFile. by rewrite Ec.
  - intros H; inv H. repeat split; try done. intros (H1 & H2 & H3). by discriminate (Hok H1 H2 H3).
Qed.

Lemma isMassRevoke_small a del current :
  isMassRevoke a del current = true <->
  p_massRevokeMin (a_conf a) < del /\ current < i64 (del * 2).
Proof. unfold isMassRevoke. rewrite andb_true_iff, !Z.ltb_lt. done. Qed.

Lemma applyAuthz_full resp a r a' :
  az_Full resp = true -> Z.of_nat (size (kernel a)) < 2 ^ 62 ->
  applyAuthz resp a = (r, a') ->
  let gone := Z.of_nat (size (kernel a ∖ desired_of resp)) in
  let live := Z.of_nat (size (kernel a)) in
  let guarded := az_Force resp = false /\ p_allowMassRevoke (a_conf a) = false /\
                 p_massRevokeMin (a_conf a) < gone /\ live < 2 * gone in
  acct_of a' = acct_of a /\
  match r with
  | Ok _ => ~ guarded /\ kernel a' = desired_of resp /\ cursor a' = az_Rev resp /\
            readFile (d_rt (s_disk (a_store a'))) = Some (Json (s_rt (a_store a')))
  | Err (massRevokeError d c) => guarded /\ d = gone /\ c = live /\
            kernel a' = kernel a /\ a_store a' = a_store a
  | Err FwFailed => kernel a' = kernel a /\ a_store a' = a_store a /\ ~ up a
  | Err (PersistFailed _) => ~ guarded /\ kernel a' = desired_of resp /\ cursor a' = az_Rev resp /\
            d_faults (s_disk (a_store a)) <> []
  | Err (revRegressionError _ _) => False
  end.
Proof.
  intros Hfull Hsz H gone live guarded. unfold applyAuthz in H. rewrite Hfull in H.
  unfold mbind, state_bind, mret, state_ret in H.
  destruct (on_fw ListAuthorized a) as [r1 a1] eqn:E1.
  destruct (list_spec _ _ _ E1) as (f & -> & Hs & Ha & Hok & Hu).
  destruct r1 as [current|e].
  2:{ inv H. split; [done|]. split; [done|]. split; [done|]. intros Hup. by destruct (Hu Hup). }
  rewrite (Hok current eq_refl) in *. clear Hok.
  pose proof (length_diff_del (kernel a) (desired_of resp)) as Hdl.
  pose proof (diff_applied (kernel a) (desired_of resp)) as Happ.
  pose proof (NoDup_diff_del (kernel a) (desired_of resp)) as Hnd.
  pose proof (diff_del_present (kernel a) (desired_of resp)) as Hpr.
  fold (desired_of resp) in H. destruct (diffAuthorized _ _) as [add del]. cbn [fst snd get] in *.
  rewrite Hdl in H. fold gone live in H.
  assert (Hi : i64 (gone * 2) = 2 * gone).
  { rewrite i64_small; [lia|]. unfold in_i64, int64_min, int64_max.
    assert (gone <= live) by (unfold gone, live; apply inj_le, subseteq_size; intros x; rewrite elem_of_difference; tauto). lia. }
  assert (Hg : negb (az_Force resp) && negb (p_allowMassRevoke (a_conf (set_fw f a))) &&
               isMassRevoke (set_fw f a) gone live = true <-> guarded).
  { rewrite !andb_true_iff, !negb_true_iff, isMassRevoke_small, Hi. unfold guarded. tauto. }
  destruct (negb _ && _ && _) eqn:Eg.
  - inv H. split; [done|]. split; [by apply Hg|done].
  - assert (~ guarded) by (rewrite <- Hg; congruence).
    destruct (applyAndAdvance_spec _ _ _ _ _ _ H) as (Hacct & _ & _ & Hr).
    unfold kernel, acct_of, up in *. cbn [set_fw a_fw a_store] in *.
    rewrite Hs, ?Happ in Hr. split; [congruence|].
    destruct r as [u|[| | |]]; try done.
    destruct Hr as (-> & -> & Hn). split; [done|]. split; [done|]. intros Hup. apply Hn.
    split; [by apply Hu|done].
Qed.

(** [C9] A full response, on every branch: on success the kernel set is exactly
    the backend's set and the cursor is the response's revision, in memory and on
    disk; the mass-revoke guard refuses exactly when the response is not forced,
    the operator has not opted out, and the reconcile would delete more than
    [massRevokeMin] members and more than half of the live set, and then nothing
    at all changes; a firewall failure leaves set and cursor alone; and no
    accounting element is touched. *)
Theorem applyAuthz_full_spec resp a r a' :
  az_Full resp = true -> Z.of_nat (size (kernel a)) < 2 ^ 62 ->
  applyAuthz resp a = (r, a') ->
  let gone := Z.of_nat (size (kernel a ∖ desired_of resp)) in
  let live := Z.of_nat (size (kernel a)) in
  let guarded := az_Force resp = false /\ p_allowMassRevoke (a_conf a) = false /\
                 p_massRevokeMin (a_conf a) < gone /\ live < 2 * gone in
  acct_of a' = acct_of a /\
  match r with
  | Ok _ => ~ guarded /\ kernel a' = desired_of resp /\ cursor a' = az_Rev resp /\
            readFile (d_rt (s_disk (a_store a'))) = Some (Json (s_rt (a_store a')))
  | Err (massRevokeError d c) => guarded /\ d = gone /\ c = live /\
            kernel a' = kernel a /\ a_store a' = a_store a
  | Err FwFailed => kernel a' = kernel a /\ a_store a' = a_store a /\ ~ up a
  | Err (PersistFailed _) => ~ guarded /\ kernel a' = desired_of resp /\ cursor a' = az_Rev resp /\
            d_faults (s_disk (a_store a)) <> []
  | Err (revRegressionError _ _) => False
  end.
Proof. apply applyAuthz_full. Qed.

Lemma presentOnly_spec del a r a' :
  presentOnly del a = (r, a') ->
  exists f, a' = set_fw f a /\ fw_set f = kernel a /\ fw_acct f = acct_of a /\
    (forall out, r = Ok out -> out = filter (fun d => d ∈ kernel a) del) /\
    (up a -> is_ok r = true /\ fw_up f).
Proof.
  unfold presentOnly. destruct del as [|d del].
  - intros H; inv H. exists (a_fw a'). destruct a'. repeat split; try done. by intros out [= <-].
  - unfold mbind, state_bind, mret, state_ret.
    destruct (on_fw ListAuthorized a) as [r1 a1] eqn:E1.
    destruct (list_spec _ _ _ E1) as (f & -> & Hs & Ha & Hok & Hu).
    destruct r1 as [current|e]; intros H; inv H; exists f; repeat split; try done; try (by apply Hu).
    intros out [= <-]. by rewrite (Hok current).
Qed.

Lemma filter_present_applies (s add : gset Addr) (del : list Addr) :
  add ## list_to_set del ->
  (s ∪ add) ∖ list_to_set (filter (fun d => d ∈ s) del) = (s ∪ add) ∖ list_to_set del.
Proof.
  intros Hdisj. apply set_eq. intros x.
  rewrite !elem_of_difference, !elem_of_union, !elem_of_list_to_set, list_elem_of_filter.
  specialize (Hdisj x). rewrite elem_of_list_to_set in Hdisj. tauto.
Qed.

Lemma filter_present_subset (s : gset Addr) (del : list Addr) :
  list_to_set (filter (fun d => d ∈ s) del) ⊆ s.
Proof. intros x. rewrite elem_of_list_to_set, list_elem_of_filter. tauto. Qed.

Lemma applyAuthz_delta resp a r a' :
  az_Full resp = false -> adds_of resp ## dels_of resp -> NoDup (az_Del resp) ->
  applyAuthz resp a = (r, a') ->
  acct_of a' = acct_of a /\
  match r with
  | Ok _ => cursor a <= az_Rev resp /\ kernel a' = (kernel a ∪ adds_of resp) ∖ dels_of resp /\
            cursor a' = az_Rev resp /\
            readFile (d_rt (s_disk (a_store a'))) = Some (Json (s_rt (a_store a')))
  | Err (revRegressionError got c) => az_Rev resp < cursor a /\ got = az_Rev resp /\ c = cursor a /\ a' = a
  | Err FwFailed => kernel a' = kernel a /\ a_store a' = a_store a /\ ~ up a
  | Err (PersistFailed _) => cursor a <= az_Rev resp /\
            kernel a' = (kernel a ∪ adds_of resp) ∖ dels_of resp /\ cursor a' = az_Rev resp /\
            d_faults (s_disk (a_store a)) <> []
  | Err (massRevokeError _ _) => False
  end.
Proof.
  intros Hfull Hdisj Hnd H. unfold applyAuthz in H. rewrite Hfull in H.
  unfold mbind, state_bind, mret, state_ret in H.
  change (on_store authzRev a) with (cursor a, set_store (a_store a) a) in H.
  replace (set_store (a_store a) a) with a in H by (by destruct a).
  destruct (az_Rev resp <? cursor a) eqn:Er; bool_hyps.
  { inv H. done. }
  destruct (presentOnly (az_Del resp) a) as [r1 a1] eqn:E1.
  destruct (presentOnly_spec _ _ _ _ E1) as (f & -> & Hs & Ha & Hok & Hu).
  destruct r1 as [del|e].
  2:{ inv H. split; [done|]. split; [done|]. split; [done|]. intros Hup. by destruct (Hu Hup). }
  rewrite (Hok del eq_refl) in H. clear Hok.
  destruct (applyAndAdvance_spec _ _ _ _ _ _ H) as (Hacct & _ & _ & Hr).
  unfold kernel, acct_of, up in *. cbn [set_fw a_fw a_store] in *. rewrite Hs in Hr.
  rewrite filter_present_applies in Hr by exact Hdisj. split; [congruence|].
  destruct r as [u|[| | |]]; try done.
  destruct Hr as (-> & -> & Hn). split; [done|]. split; [done|]. intros Hup. apply Hn.
  split; [by apply Hu|]. split; [by apply NoDup_filter|apply filter_present_subset].
Qed.

(** A delta response, on every branch: a revision below the cursor is
    refused with nothing changed, and only then; otherwise on success the kernel
    set is the old set with the adds inserted and the dels removed and the cursor
    advances to the response's revision.  Dels that are already absent never make
    the batch fail: with a working firewall (and distinct dels) the only other
    outcome is a failure to persist. *)
Theorem applyAuthz_delta_spec resp a r a' :
  az_Full resp = false -> adds_of resp ## dels_of resp -> NoDup (az_Del resp) ->
  applyAuthz resp a = (r, a') ->
  acct_of a' = acct_of a /\
  match r with
  | Ok _ => cursor a <= az_Rev resp /\ kernel a' = (kernel a ∪ adds_of resp) ∖ dels_of resp /\
            cursor a' = az_Rev resp /\
            readFile (d_rt (s_disk (a_store a'))) = Some (Json (s_rt (a_store a')))
  | Err (revRegressionError got c) => az_Rev resp < cursor a /\ got = az_Rev resp /\ c = cursor a /\ a' = a
  | Err FwFailed => kernel a' = kernel a /\ a_store a' = a_store a /\ ~ up a
  | Err (PersistFailed _) => cursor a <= az_Rev resp /\
            kernel a' = (kernel a ∪ adds_of resp) ∖ dels_of resp /\ cursor a' = az_Rev resp /\
            d_faults (s_disk (a_store a)) <> []
  | Err (massRevokeError _ _) => False
  end.
Proof. apply applyAuthz_delta. Qed.

(** ** The grace window *)

Lemma on_metrics_eq g a : on_metrics g a = (tt, set_metrics (g <$> a_metrics a) a).
Proof. done. Qed.

Definition clock (a : Agent) : Z := e_nowFn (a_env a) (e_ticks (a_env a)).

Lemma now_eq a : exists e, now a = (clock a, set_env e a) /\
  e = {| e_nowFn := e_nowFn (a_env a); e_ticks := S (e_ticks (a_env a)); e_rand := e_rand (a_env a);
         e_rands := e_rands (a_env a); e_bootID := e_bootID (a_env a) |}.
Proof. by eexists. Qed.

(** When fail-closed applies: the operator opted in, the backend has not
    answered for longer than the grace window, and this process has been up for
    the startup grace. *)
Definition fails_closed (a : Agent) : Prop :=
  p_failClosedAfterGrace (a_conf a) = true /\
  graceWindow a < time_Sub (clock a) (a_lastAuthzOK a) /\
  (a_startedAt a = 0 \/ startupGrace a <= time_Sub (clock a) (a_startedAt a)).

#[export] Instance fails_closed_dec a : Decision (fails_closed a).
Proof. unfold fails_closed. apply _. Defined.

(** [graceCheck], as a frame. *)
Lemma graceCheck_frame a a' :
  graceCheck a = (tt, a') ->
  a_store a' = a_store a /\ same_vars a a' /\ (kernel a' = kernel a \/ kernel a' = ∅) /\
  (~ fails_closed a -> kernel a' = kernel a) /\ (fails_closed a -> up a -> kernel a' = ∅) /\
  (up a -> up a').
Proof.
  unfold graceCheck, mbind, state_bind. rewrite on_metrics_eq.
  destruct (now_eq (set_metrics (outage <$> a_metrics a) a)) as (e & -> & _). cbn [get].
  set (a0 := set_env e (set_metrics (outage <$> a_metrics a) a)).
  change (clock (set_metrics (outage <$> a_metrics a) a)) with (clock a).
  change (graceWindow a0) with (graceWindow a). change (startupGrace a0) with (startupGrace a).
  assert (Hc : negb (graceWindow a <? time_Sub (clock a) (a_lastAuthzOK a0)) ||
    negb (p_failClosedAfterGrace (a_conf a0)) ||
    negb (time_IsZero (a_startedAt a0) || (startupGrace a <=? time_Sub (clock a) (a_startedAt a0))) = false
    <-> fails_closed a).
  { unfold fails_closed, time_IsZero. rewrite !orb_false_iff, !negb_false_iff, orb_true_iff, Z.ltb_lt, Z.eqb_eq, Z.leb_le.
    cbn. tauto. }
  destruct (negb _ || _ || _) eqn:Ec.
  { intros H; inv H. repeat split; try done; [by left|]. intros Hf. by apply Hc in Hf. }
  assert (Hf : fails_closed a) by (by apply Hc).
  destruct (on_fw ListAuthorized a0) as [r1 a1] eqn:E1.
  destruct (list_spec _ _ _ E1) as (f & -> & Hs & Ha & Hok & Hu).
  destruct r1 as [current|e1].
  2:{ intros H; inv H. repeat split; try done; [by left| |by apply Hu]. intros _ Hup. by destruct (Hu Hup). }
  rewrite (Hok current eq_refl) in *. clear Hok.
  case_bool_decide as Hz.
  { intros H; inv H. apply size_empty_inv, leibniz_equiv in Hz. repeat split; try done; [by left| |by apply Hu].
    intros _ _. unfold kernel in *. cbn in *. congruence. }
  destruct (on_fw (ApplyAuthorized _ _) _) as [r2 a2] eqn:E2.
  destruct (apply_spec _ _ _ _ _ E2) as (f2 & -> & Ha2 & Hs2 & Hu2 & Hok2).
  intros H; inv H. unfold kernel, acct_of, up in *. cbn [a_fw a_store set_fw] in *.
  assert (Hflush : (fw_set (a_fw a0) ∪ list_to_set []) ∖ list_to_set (set_range (fw_set (a_fw a0))) = ∅).
  { apply set_eq. intros x.
    rewrite elem_of_difference, elem_of_union, !elem_of_list_to_set, elem_of_set_range, elem_of_nil, elem_of_empty. tauto. }
  rewrite Hs in *. rewrite Hs2. repeat split; try done.
  - destruct (is_ok r2); [by right|by left].
  - intros _ Hup. rewrite Hok2; [done|by apply Hu|apply NoDup_set_range|].
    intros x. by rewrite elem_of_list_to_set, elem_of_set_range.
  - intros Hup. by apply Hu2, Hu.
Qed.
(** The grace check fails closed exactly when it should: outside
    [fails_closed] the kernel set is kept (fail-open), inside it, with a working
    firewall, the set is emptied; either way the store (cursor and
    usage buffer), the grace clock and the configuration are untouched. *)
Theorem graceCheck_spec a a' :
  graceCheck a = (tt, a') ->
  (~ fails_closed a -> kernel a' = kernel a) /\
  (fails_closed a -> up a -> kernel a' = ∅) /\
  (kernel a' = kernel a \/ kernel a' = ∅) /\
  a_store a' = a_store a /\ same_vars a a'.
Proof.
  intros E. pose proof (graceCheck_frame a a' E). tauto.
Qed.

(** ** Outages across restarts *)







Lemma collectFn_frame cur services epoch id t cap rt :
  rt_LastAuthzOK (collectFn cur services epoch id t cap rt).2 = rt_LastAuthzOK rt /\
  rt_AuthzRev (collectFn cur services epoch id t cap rt).2 = rt_AuthzRev rt.
Proof.
  unfold collectFn. destruct (computeDelta _ _ _) as [[|s samples] next]; cbn;
    destruct (rt_PrimeBaselines rt); try done; by destruct (cap <? _).
Qed.

Lemma collect_run a r a' :
  collectAndBuffer a = (r, a') ->
  exists f, fw_set f = kernel a /\ fw_acct f = acct_of a /\ (up a -> fw_up f) /\
  ((r = Err AcctFailed /\ a' = set_fw f a /\ ~ up a) \/
   exists x s, let fn := collectFn (acct_of a) (a_services a) (counterEpoch a).1 (randID a).1 (clock a)
                       (p_bufferCap (a_conf a)) in
     a_fw a' = f /\ a_store a' = s /\ same_vars a a' /\
     x = (fn (s_rt (a_store a))).1 /\ s_rt s = (fn (s_rt (a_store a))).2 /\ s_id s = s_id (a_store a) /\
     s_disk s = (write_runtime (s_rt s) (s_disk (a_store a))).2 /\
     r = (if x.2 then Err SlicePanic else
          match (write_runtime (s_rt s) (s_disk (a_store a))).1 with
          | Ok _ => Ok tt | Err e => Err (CollectPersist e) end)).
Proof.
  unfold collectAndBuffer, mbind, state_bind, mret, state_ret. cbn beta.
  destruct (on_fw ReadAcct a) as [r1 a1] eqn:E1.
  destruct (acct_spec _ _ _ E1) as (f & -> & Hs & Ha & Hok & Hu).
  intros H. exists f. split; [done|]. split; [done|]. split; [by intros; apply Hu|].
  destruct r1 as [cur|e1].
  2:{ inv H. left. repeat split; try done. intros Hup. by destruct (Hu Hup). }
  right. rewrite (Hok cur eq_refl) in H. cbn [gets get counterEpoch peek] in H.
  destruct (on_store _ _) as [x a2] eqn:E2.
  destruct (runtime_spec _ _ _ _ E2) as (st & -> & Hrt & Hid & Hx & Hd & Hr).
  destruct x as [[[[total dropped] used] panics] persisted]. cbn [fst snd] in *.
  rewrite <- Hrt in *. cbn [a_store set_fw] in *. exists (total, dropped, used, panics), st.
  unfold useScripts, mbind, state_bind, mret, state_ret in H.
  rewrite <- Hr. destruct used; cbn in H.
  all: destruct panics; [inv H; by repeat split|].
  all: destruct persisted as [u|e3]; inv H; by repeat split.
Qed.









(** ** Cadence *)

Lemma markAuthzOK_spec a a' :
  markAuthzOK a = (tt, a') ->
  a_fw a' = a_fw a /\ a_lastAuthzOK a' = clock a /\ cursor a' = cursor a /\
  buffered a' = buffered a /\ a_startedAt a' = a_startedAt a /\ a_conf a' = a_conf a /\
  (rt_LastAuthzOK (s_rt (a_store a')) = clock a \/
   time_Sub (clock a) (rt_LastAuthzOK (s_rt (a_store a'))) < persistAuthzOKEvery).
Proof.
  unfold markAuthzOK, mbind, state_bind. destruct (now_eq a) as (e & -> & _). cbn [modify get].
  destruct (_ <=? _) eqn:Es; cbn.
  - unfold on_store, embed at 1. rewrite withRuntime_eq. cbn. intros H; inv H. cbn. repeat split; try done. by left.
  - intros H; inv H. cbn. repeat split; try done. right. bool_hyps. exact Es.
Qed.

(** When the next pull is a full one. *)
Definition wants_full (l : syncLoop) (a : Agent) : Prop :=
  a_forceResync a = true \/ sl_forceFull l = true \/
  (0 < p_fullSyncEvery (a_conf a) /\ p_fullSyncEvery (a_conf a) <= time_Sub (clock a) (sl_lastFull l)).

Lemma syncRequest_spec l a l' persisted q a' :
  syncRequest l a = ((l', persisted, q), a') ->
  (q_full q = true <-> wants_full l a) /\ q_rev q = (if q_full q then 0 else cursor a) /\
  persisted = cursor a /\ sl_forceFull l' = q_full q /\ sl_backoff l' = sl_backoff l /\
  a_fw a' = a_fw a /\ a_store a' = a_store a /\ a_conf a' = a_conf a /\ a_forceResync a' = false.
Proof.
  unfold syncRequest, takeResync, mbind, state_bind, wants_full. cbn [get].
  destruct (a_forceResync a) eqn:Er; cbn [modify mret state_ret negb andb].
  - cbn. intros H; inv H. cbn. repeat split; try done. by left.
  - destruct (sl_forceFull l) eqn:Ef; cbn [negb andb].
    + cbn. intros H; inv H. cbn. repeat split; try done. by right; left.
    + destruct (0 <? p_fullSyncEvery (a_conf a)) eqn:E0; cbn [negb andb].
      * destruct (now_eq a) as (e & -> & _). cbn. intros H; inv H. cbn.
        repeat split; try done; rewrite Z.leb_le; bool_hyps; [by right; right|].
        intros [|[|[]]]; done.
      * cbn. intros H; inv H. cbn. bool_hyps. repeat split; try done. intros [|[|[]]]; done || lia.
Qed.

Lemma clearForce_spec c l a l' a' :
  clearForce c l a = (l', a') ->
  a_fw a' = a_fw a /\ a_store a' = a_store a /\ sl_forceFull l' = (if c then false else sl_forceFull l) /\
  (c = true -> sl_lastFull l' = clock a) /\ (c = false -> l' = l).
Proof.
  unfold clearForce, mbind, state_bind. destruct c.
  - destruct (now_eq a) as (e & -> & _). intros H; inv H. done.
  - intros H; inv H. done.
Qed.

(** The good end of an iteration: what was applied stays, the force flag is
    cleared. *)
Lemma finish_spec l a l' a' :
  (l0 ← clearForce (sl_forceFull l) l; markAuthzOK ;; mret (resetBackoff l0)) a = (l', a') ->
  a_fw a' = a_fw a /\ cursor a' = cursor a /\ buffered a' = buffered a /\
  sl_forceFull l' = false /\ sl_backoff l' = 0.
Proof.
  unfold mbind, state_bind, mret, state_ret.
  destruct (clearForce _ l a) as [l1 a1] eqn:E1.
  destruct (clearForce_spec _ _ _ _ _ E1) as (H1 & H2 & H3 & _).
  destruct (markAuthzOK a1) as [[] a2] eqn:E2.
  destruct (markAuthzOK_spec _ _ E2) as (G1 & G2 & G3 & G4 & _). intros H; inv H.
  unfold cursor, buffered in *. rewrite H2 in *. repeat split; try congruence.
  cbn. rewrite H3. by destruct (sl_forceFull l).
Qed.

(** Drift heals at the next full pull: whenever a resync was requested, a
    full pull is already due, or [fullSyncEvery] has passed since the last one,
    the iteration asks for the full set, and if the backend answers with a full
    set the guard does not refuse, then (firewall and disk working) after the
    iteration the kernel set is exactly that set, whatever it had drifted to, the
    cursor is the answer's revision, and the loop goes back to long-polling
    deltas. In particular the first iteration after a start is such a pull. *)
Theorem full_pull_heals l a getAuthz resp l' a' :
  wants_full l a ->
  (forall q, q_full q = true -> q_rev q = 0 -> getAuthz q = Ok resp) ->
  az_Full resp = true -> Z.of_nat (size (kernel a)) < 2 ^ 62 ->
  ~ (az_Force resp = false /\ p_allowMassRevoke (a_conf a) = false /\
     p_massRevokeMin (a_conf a) < Z.of_nat (size (kernel a ∖ desired_of resp)) /\
     Z.of_nat (size (kernel a)) < 2 * Z.of_nat (size (kernel a ∖ desired_of resp))) ->
  up a -> d_faults (s_disk (a_store a)) = [] ->
  runSync_iter getAuthz l a = (l', a') ->
  kernel a' = desired_of resp /\ cursor a' = az_Rev resp /\ sl_forceFull l' = false /\ sl_backoff l' = 0.
Proof.
  intros Hw Hget Hfull Hsz Hng Hup Hd H. unfold runSync_iter, mbind, state_bind in H.
  destruct (syncRequest l a) as [[[l1 persisted] q] a1] eqn:E1.
  destruct (syncRequest_spec _ _ _ _ _ _ E1) as (Hq & Hrev & _ & Hff & _ & Ef & Es & Ec & _).
  assert (Hq' : q_full q = true) by (by apply Hq). rewrite Hq' in Hrev.
  cbn [fst snd] in H. rewrite (Hget q Hq' Hrev) in H. unfold syncHandle, mbind, state_bind in H.
  destruct (applyAuthz resp a1) as [r a2] eqn:E2.
  assert (Ek : kernel a1 = kernel a) by (unfold kernel; congruence).
  pose proof (applyAuthz_full resp a1 r a2 Hfull ltac:(by rewrite Ek) E2) as (_ & Hr).
  rewrite Ek, Ec in Hr.
  destruct r as [u|[| | |e]]; cbn beta iota in H.
  - rewrite Hfull, on_metrics_eq in H.
    destruct (finish_spec _ _ _ _ H) as (G1 & G2 & _ & G4 & G5).
    destruct Hr as (_ & Hk & Hc & _). unfold kernel, cursor in *. cbn in G1, G2. rewrite G1, G2. done.
  - destruct Hr as (_ & _ & Hn). exfalso. apply Hn. unfold up. by rewrite Ef.
  - exfalso. apply Hng. tauto.
  - done.
  - destruct Hr as (_ & _ & _ & Hn). rewrite Es in Hn. done.
Qed.


(** ** Refusals *)

Lemma mass_refusal l persisted resp d c a a1 l' a' :
  applyAuthz resp a = (Err (massRevokeError d c), a1) ->
  syncHandle l persisted (Ok resp) a = (l', a') ->
  a_fw a' = a_fw a1 /\ cursor a' = cursor a1 /\ buffered a' = buffered a1 /\
  sl_forceFull l' = sl_forceFull l && negb (0 <? persisted) /\
  (sl_forceFull l = true -> 0 < persisted -> exists n, sl_lastFull l' = e_nowFn (a_env a') n).
Proof.
  intros E. unfold syncHandle, mbind, state_bind. rewrite E, on_metrics_eq.
  destruct (markAuthzOK _) as [[] a2] eqn:E2. destruct (markAuthzOK_spec _ _ E2) as (G1 & G2 & G3 & G4 & _).
  unfold cursor, buffered in *. cbn [a_fw a_store set_metrics] in *.
  destruct (sl_forceFull l) eqn:Ef; cbn [andb negb]; [|by intros H; inv H].
  destruct (0 <? persisted) eqn:Ep; cbn [negb].
  - unfold clearForce, mbind, state_bind. destruct (now_eq a2) as (e & -> & ->). intros H; inv H. cbn.
    repeat split; try done. intros _ _. by eexists.
  - intros H; inv H. repeat split; try done. intros _ Hp. bool_hyps. lia.
Qed.

(** A refused full reconcile changes neither the kernel set nor the store's
    cursor, and when the pull was forced and the agent has a cursor, the loop
    falls back to the delta log: unless a resync is requested or the periodic
    pull falls due again, the next query asks for the changes since the cursor. *)
Theorem mass_revoke_falls_back l resp d c a a1 l1 a2 l2 persisted q a3 :
  applyAuthz resp a = (Err (massRevokeError d c), a1) -> az_Full resp = true ->
  Z.of_nat (size (kernel a)) < 2 ^ 62 ->
  sl_forceFull l = true -> 0 < cursor a ->
  syncHandle l (cursor a) (Ok resp) a = (l1, a2) ->
  a_forceResync a2 = false ->
  time_Sub (clock a2) (sl_lastFull l1) < p_fullSyncEvery (a_conf a2) ->
  syncRequest l1 a2 = ((l2, persisted, q), a3) ->
  kernel a3 = kernel a /\ cursor a3 = cursor a /\ q_full q = false /\ q_rev q = cursor a.
Proof.
  intros E Hfull Hsz Hff Hc Hs Hr Ht Hq.
  destruct (applyAuthz_full _ _ _ _ Hfull Hsz E) as (_ & _ & _ & _ & Hk & Hst).
  destruct (mass_refusal _ _ _ _ _ _ _ _ _ E Hs) as (G1 & G2 & _ & G4 & _).
  destruct (syncRequest_spec _ _ _ _ _ _ Hq) as (Q1 & Q2 & _ & _ & _ & Q3 & Q4 & _).
  assert (Hc2 : cursor a2 = cursor a) by (rewrite G2; unfold cursor; by rewrite Hst).
  assert (Hnf : q_full q = false).
  { apply not_true_iff_false. rewrite Q1. unfold wants_full. rewrite Hr, G4, Hff.
    rewrite (proj2 (Z.ltb_lt 0 (cursor a))) by done. cbn. intros [|[|[]]]; done || lia. }
  rewrite Hnf in Q2. unfold kernel, cursor in *. rewrite Q3, Q4, G1. repeat split; try done; congruence.
Qed.

(** A revision that went backwards (a restored or fresh backend database)
    is never followed silently: a delta below the cursor changes neither the
    kernel set nor the cursor, the backend counts as reachable, and the next
    query asks for the full set, which the mass-revoke guard then judges. *)
Theorem regression_forces_full l persisted0 resp a l1 a1 l2 persisted q a2 :
  az_Full resp = false -> az_Rev resp < cursor a ->
  syncHandle l persisted0 (Ok resp) a = (l1, a1) ->
  syncRequest l1 a1 = ((l2, persisted, q), a2) ->
  kernel a2 = kernel a /\ cursor a2 = cursor a /\ a_lastAuthzOK a1 = clock a /\
  q_full q = true /\ q_rev q = 0.
Proof.
  intros Hfull Hrev Hs Hq. unfold syncHandle, mbind, state_bind in Hs.
  assert (Ha : applyAuthz resp a = (Err (revRegressionError (az_Rev resp) (cursor a)), a)).
  { unfold applyAuthz. rewrite Hfull. unfold mbind, state_bind, mret, state_ret.
    change (on_store authzRev a) with (cursor a, set_store (a_store a) a).
    replace (set_store (a_store a) a) with a by (by destruct a).
    by rewrite (proj2 (Z.ltb_lt _ _)). }
  rewrite Ha in Hs. destruct (markAuthzOK a) as [[] a'] eqn:E. inv Hs.
  destruct (markAuthzOK_spec _ _ E) as (G1 & G2 & G3 & _).
  destruct (syncRequest_spec _ _ _ _ _ _ Hq) as (Q1 & Q2 & _ & _ & _ & Q3 & Q4 & _).
  assert (Hf : q_full q = true) by (apply Q1; by right; left).
  rewrite Hf in Q2. unfold kernel, cursor in *. rewrite Q3, Q4, G1. done.
Qed.

(** ** Usage *)

Lemma collectFn_spec cur services epoch id t cap rt :
  let out := collectFn cur services epoch id t cap rt in
  let delta := computeDelta (rt_Baselines rt) cur services in
  let rpt := {| ur_ReportID := id; ur_CounterEpoch := epoch; ur_WindowEnd := time_Unix t;
                ur_Samples := delta.1 |} in
  0 <= cap ->
  out.1.2 = false /\ rt_Baselines out.2 = delta.2 /\ rt_PrimeBaselines out.2 = false /\
  rt_BufferedUsage out.2 =
    (if rt_PrimeBaselines rt || bool_decide (delta.1 = []) then rt_BufferedUsage rt
     else drop (length (rt_BufferedUsage rt) + 1 - Z.to_nat cap) (rt_BufferedUsage rt ++ [rpt])).
Proof.
  intros out delta rpt Hcap. subst out delta rpt. unfold collectFn.
  destruct (computeDelta _ _ _) as [samples next]. cbn [fst snd rt_PrimeBaselines set_Baselines].
  destruct (rt_PrimeBaselines rt) eqn:Ep; cbn [orb]; [done|].
  destruct samples as [|s samples]; [done|].
  rewrite bool_decide_eq_false_2 by done. cbn [rt_BufferedUsage set_Baselines].
  rewrite length_app. cbn [length].
  destruct (cap <? _) eqn:Ec; bool_hyps; cbn [fst snd rt_Baselines rt_PrimeBaselines rt_BufferedUsage set_BufferedUsage set_Baselines].
  - repeat split; try done; [apply Z.ltb_ge; lia|]. f_equal. lia.
  - repeat split; try done. replace (_ - _)%nat with 0%nat by lia. done.
Qed.

(** One usage collection, with a working firewall and a non-negative buffer
    cap: the kernel set, the cursor and the counters are untouched and no slice
    goes out of range; the baselines become exactly the counters read; after a
    state recovery (prime flag) nothing is reported; otherwise a report whose
    samples carry exactly the bytes counted since the previous baselines is
    appended, the newest reports are the ones kept, and an append never leaves
    more than [bufferCap] of them. *)
Theorem collectAndBuffer_spec a r a' :
  up a -> 0 <= p_bufferCap (a_conf a) -> map_Forall (fun k _ => acctKey_wf k) (acct_of a) ->
  collectAndBuffer a = (r, a') ->
  kernel a' = kernel a /\ acct_of a' = acct_of a /\ cursor a' = cursor a /\
  r <> Err SlicePanic /\ r <> Err AcctFailed /\
  (forall k, acctKey_wf k ->
     rt_Baselines (s_rt (a_store a')) !! baselineKey k = acct_of a !! k) /\
  let samples := (computeDelta (rt_Baselines (s_rt (a_store a))) (acct_of a) (a_services a)).1 in
  zsum us_Bytes samples =
    msum (fun k v => delta_of (baseline (rt_Baselines (s_rt (a_store a))) (baselineKey k)) v) (acct_of a) /\
  if rt_PrimeBaselines (s_rt (a_store a)) || bool_decide (samples = []) then buffered a' = buffered a
  else exists dropped rpt, ur_Samples rpt = samples /\
    buffered a ++ [rpt] = dropped ++ buffered a' /\
    Z.of_nat (length (buffered a')) <= p_bufferCap (a_conf a) /\
    (Z.of_nat (length (buffered a)) < p_bufferCap (a_conf a) -> dropped = []).
Proof.
  intros Hup Hcap Hwf H. destruct (collect_run _ _ _ H) as (f & Hs & Ha & _ & [(_ & _ & Hn)|(x & s & H')]); [done|].
  cbn zeta in H'. destruct H' as (Ef & Es & Hv & -> & Hrs & _ & Hds & ->).
  pose proof (collectFn_spec (acct_of a) (a_services a) (counterEpoch a).1 (randID a).1 (clock a)
    (p_bufferCap (a_conf a)) (s_rt (a_store a)) Hcap) as (Hp & Hb & _ & Hbuf).
  pose proof (collectFn_frame (acct_of a) (a_services a) (counterEpoch a).1 (randID a).1 (clock a)
    (p_bufferCap (a_conf a)) (s_rt (a_store a))) as [_ Hcur].
  unfold kernel, acct_of, cursor, buffered in *. rewrite Es, Ef, Hrs, Hp.
  split; [done|]. split; [done|]. split; [done|].
  assert (Hr : forall w : result io_err unit, let r := match w with Ok _ => Ok tt | Err e => Err (CollectPersist e) end in
    r <> Err SlicePanic /\ r <> Err AcctFailed) by (intros []; done).
  split; [apply Hr|]. split; [apply Hr|]. clear Hr.
  split; [intros k Hk; rewrite Hb; by apply computeDelta_next|].
  cbn zeta. split; [apply computeDelta_total|]. rewrite Hbuf.
  destruct (_ || _); [done|]. match goal with |- context [drop ?n (?l ++ [?r])] => exists (take n (l ++ [r])), r end.
  split; [reflexivity|].
  split; [symmetry; apply take_drop|]. rewrite length_drop, length_app. cbn [length]. split; [lia|].
  intros Hlt. match goal with |- take ?n _ = [] => replace n with 0%nat by lia end. apply take_0.
Qed.

(** ** Inline revocations *)

Definition drop_acct (addrs : gset Addr) (m : gmap acctKey Z) : gmap acctKey Z :=
  filter (fun kv => ak_Addr kv.1 ∉ addrs) m.

Lemma gcAcct_spec addrs a a' :
  gcAcct addrs a = (tt, a') ->
  kernel a' = kernel a /\ a_store a' = a_store a /\ same_vars a a' /\ (up a -> up a') /\
  (acct_of a' = acct_of a \/ acct_of a' = drop_acct (list_to_set addrs) (acct_of a)) /\
  (up a -> acct_of a' = drop_acct (list_to_set addrs) (acct_of a)).
Proof.
  unfold gcAcct, mbind, state_bind, mret, state_ret.
  destruct (on_fw ReadAcct a) as [r1 a1] eqn:E1.
  destruct (acct_spec _ _ _ E1) as (f & -> & Hs & Ha & Hok & Hu).
  destruct r1 as [existing|e].
  2:{ intros H; inv H. repeat split; try done; [by apply Hu|by left|]. intros Hup. by destruct (Hu Hup). }
  rewrite (Hok existing eq_refl). clear Hok.
  destruct (on_fw (DeleteAcct _) _) as [r2 a2] eqn:E2.
  destruct (delete_spec _ _ _ _ E2) as (f2 & -> & Hs2 & Ha2 & Hu2 & Hok2).
  intros H; inv H. unfold kernel, acct_of, up in *. cbn [set_fw a_fw a_store] in *. rewrite Ha in *.
  set (keys := filter _ (map_range _).*1) in *.
  assert (Hf : filter (fun kv => kv.1 ∉ keys) (fw_acct (a_fw a)) = drop_acct (list_to_set addrs) (fw_acct (a_fw a))).
  { apply map_filter_ext. intros k v Hk. cbn [fst]. unfold keys. rewrite list_elem_of_filter.
    assert (k ∈ (map_range (fw_acct (a_fw a))).*1).
    { apply list_elem_of_fmap. exists (k, v). split; [done|]. by apply elem_of_map_range. }
    tauto. }
  rewrite Ha2, Hf. repeat split; try done; try congruence.
  - intros Hup. by apply Hu2, Hu.
  - destruct (is_ok r2); [by right|by left].
  - intros Hup. rewrite Hok2; [done|by apply Hu|apply NoDup_filter, NoDup_fst_map_range|].
    apply Forall_forall. intros k Hk. unfold keys in Hk. apply list_elem_of_filter in Hk as [_ Hk].
    apply list_elem_of_fmap in Hk as ([k' v] & -> & Hk). apply elem_of_map_range in Hk. by exists v.
Qed.

Lemma applyRevocations_frame revoke a a' :
  applyRevocations revoke a = (tt, a') ->
  a_store a' = a_store a /\ same_vars a a' /\ (up a -> up a') /\
  (kernel a' = kernel a \/ kernel a' = kernel a ∖ list_to_set revoke) /\
  (up a -> NoDup revoke -> kernel a' = kernel a ∖ list_to_set revoke /\
     acct_of a' = drop_acct (list_to_set revoke) (acct_of a)).
Proof.
  unfold applyRevocations. destruct revoke as [|d0 revoke0].
  { intros H; inv H. repeat split; try done; [by left|cbn [list_to_set]; by rewrite difference_empty_L|].
    unfold drop_acct. symmetry. apply map_filter_id. intros k v _. cbn. apply not_elem_of_empty. }
  set (revoke := d0 :: revoke0). clearbody revoke.
  unfold mbind, state_bind, mret, state_ret.
  destruct (presentOnly revoke a) as [r1 a1] eqn:E1.
  destruct (presentOnly_spec _ _ _ _ E1) as (f & -> & Hs & Ha & Hok & Hu).
  destruct r1 as [del|e].
  2:{ intros H; inv H. repeat split; try done; [by apply Hu|by left|..]; intros; by destruct (Hu ltac:(assumption)). }
  rewrite (Hok del eq_refl). clear Hok.
  destruct (on_fw (ApplyAuthorized _ _) _) as [r2 a2] eqn:E2.
  destruct (apply_spec _ _ _ _ _ E2) as (f2 & -> & Ha2 & Hs2 & Hu2 & Hok2).
  unfold kernel, acct_of, up in *. cbn [set_fw a_fw a_store] in *. rewrite Hs in *.
  pose proof (filter_present_applies (fw_set (a_fw a)) ∅ revoke ltac:(set_solver)) as Hflt.
  rewrite union_empty_r_L in Hflt. cbn [list_to_set] in Hs2. rewrite union_empty_r_L, Hflt in Hs2.
  assert (Hok3 : fw_up (a_fw a) -> NoDup revoke -> is_ok r2 = true).
  { intros Hup Hnd. apply Hok2; [by apply Hu|by apply NoDup_filter|apply filter_present_subset]. }
  destruct r2 as [u|e]; cbn [is_ok] in *.
  - intros H. destruct (gcAcct_spec _ _ _ H) as (G1 & G2 & G3 & G4 & _ & G5).
    unfold kernel, acct_of, up in *. cbn [set_fw a_fw a_store] in *. rewrite G1, Hs2.
    split; [done|]. split; [done|]. split; [intros; by apply G4, Hu2, Hu|]. split; [by right|].
    intros Hup Hnd. split; [done|]. rewrite G5 by (by apply Hu2, Hu). congruence.
  - intros H; inv H. cbn [set_fw a_fw a_store]. repeat split; try done; [by intros; apply Hu2, Hu|by left|..];
      by discriminate Hok3.
Qed.

(** Inline revocations cut a client off at once and only that client: with
    a working firewall the revoked addresses leave the kernel set (members that
    are already gone do not make the batch fail), their accounting elements are
    collected, every other member and element stays, and the cursor and usage
    buffer do not move; if the firewall fails, the set is either untouched or
    fully updated. *)
Theorem applyRevocations_spec revoke a a' :
  applyRevocations revoke a = (tt, a') ->
  cursor a' = cursor a /\ buffered a' = buffered a /\
  (kernel a' = kernel a \/ kernel a' = kernel a ∖ list_to_set revoke) /\
  (up a -> NoDup revoke -> kernel a' = kernel a ∖ list_to_set revoke /\
     acct_of a' = drop_acct (list_to_set revoke) (acct_of a)).
Proof.
  intros H. destruct (applyRevocations_frame _ _ _ H) as (H1 & _ & _ & H2 & H3).
  unfold cursor, buffered. rewrite H1. done.
Qed.

(** ** Delivery *)

Lemma ack_run rpt rest a :
  buffered a = rpt :: rest ->
  exists s, on_store (withRuntime (ackFn (ur_ReportID rpt))) a =
    ((tt, (write_runtime (s_rt s) (s_disk (a_store a))).1), set_store s a) /\
    s_rt s = set_BufferedUsage rest (s_rt (a_store a)) /\
    s_disk s = (write_runtime (s_rt s) (s_disk (a_store a))).2.
Proof.
  intros Hb. unfold on_store, embed. rewrite withRuntime_eq. unfold buffered in Hb.
  assert (E : ackFn (ur_ReportID rpt) (s_rt (a_store a)) = (tt, set_BufferedUsage rest (s_rt (a_store a)))).
  { unfold ackFn. cbn. by rewrite Hb, bool_decide_eq_true_2. }
  rewrite E. by exists {| s_disk := (write_runtime (set_BufferedUsage rest (s_rt (a_store a))) (s_disk (a_store a))).2;
    s_id := s_id (a_store a); s_rt := set_BufferedUsage rest (s_rt (a_store a)) |}.
Qed.

(** With enough fuel: what was sent, followed by what is left, is the buffer. *)
Lemma flush_loop_spec post fuel a sent a' :
  (length (buffered a) < fuel)%nat ->
  flushBuffer_loop fuel post a = (sent, a') ->
  buffered a = sent ++ buffered a' /\ cursor a' = cursor a /\
  Forall (fun r => is_Some (post r)) sent /\
  ((forall r, is_Some (post r)) -> d_faults (s_disk (a_store a)) = [] -> buffered a' = []).
Proof.
  revert a sent a'; induction fuel as [|fuel IH]; intros a sent a' Hf; [lia|].
  cbn [flushBuffer_loop]. unfold mbind, state_bind, mret, state_ret.
  change (on_store snapshotRuntime a) with (s_rt (a_store a), set_store (a_store a) a).
  replace (set_store (a_store a) a) with a by (by destruct a). fold (buffered a).
  destruct (buffered a) as [|rpt rest] eqn:Eb; [intros H; inv H; by rewrite Eb|].
  destruct (post rpt) as [ack|] eqn:Ep.
  2:{ intros H; inv H. repeat split; try done. intros Hall _. by destruct (Hall rpt) as [? [=]]; congruence. }
  rewrite on_metrics_eq. destruct (applyRevocations _ _) as [[] a1] eqn:E1.
  destruct (applyRevocations_frame _ _ _ E1) as (Es & _). cbn [a_store set_metrics] in Es.
  destruct (ack_run rpt rest a1) as (s & -> & Hrt & Hd); [unfold buffered in *; by rewrite Es|].
  cbn [snd]. rewrite Es in Hrt, Hd.
  assert (Hb : buffered (set_store s a1) = rest) by (unfold buffered; cbn; by rewrite Hrt).
  assert (Hc : cursor (set_store s a1) = cursor a) by (unfold cursor; cbn; by rewrite Hrt).
  destruct (write_runtime _ _).1 as [u|e] eqn:Ew.
  - destruct (flushBuffer_loop fuel post _) as [sent' a2] eqn:E2. intros [= <- <-].
    apply IH in E2 as (G1 & G2 & G3 & G4); [|rewrite Hb; cbn in Hf; lia].
    rewrite Hb in G1. split; [by rewrite G1 at 1|]. split; [congruence|]. split; [by constructor|].
    intros Hall Hd0. apply G4; [done|]. cbn. rewrite Hd. by apply write_runtime_ok.
  - intros [= <- <-]. split; [by rewrite Hb|]. split; [done|]. split; [by constructor|].
    intros _ Hd0. rewrite Es in Ew. rewrite (proj1 (write_runtime_ok _ _ Hd0)) in Ew. done.
Qed.

(** [C23] Delivery is first-in first-out and loses nothing: the loop terminates
    within the number of buffered reports, the reports the backend accepted are
    exactly the oldest ones, in order, and those not accepted are exactly what
    remains buffered; when the backend accepts everything (and the disk works)
    the buffer is empty afterwards. *)
Theorem flushBuffer_spec post a sent a' :
  flushBuffer post a = (sent, a') ->
  buffered a = sent ++ buffered a' /\ cursor a' = cursor a /\
  Forall (fun r => is_Some (post r)) sent /\
  ((forall r, is_Some (post r)) -> d_faults (s_disk (a_store a)) = [] -> buffered a' = []).
Proof. unfold flushBuffer. intros H. eapply flush_loop_spec, H. unfold buffered. lia. Qed.

(** ** Backoff *)

Lemma backoff_next_double c :
  time_Second <= c <= backoffMax -> backoff_next c = Z.min (2 * c) backoffMax.
Proof.
  unfold backoff_next, backoffMax, time_Second. intros H.
  destruct (Z.eqb_spec c 0) as [|_]; [lia|].
  destruct (Z.ltb_spec c (60 * 1000000000)).
  - rewrite i64_small by (unfold in_i64, int64_min, int64_max; lia).
    destruct (Z.ltb_spec (60 * 1000000000) (c * 2)); lia.
  - destruct (Z.ltb_spec (60 * 1000000000) c); lia.
Qed.

(** The wait after [n + 1] consecutive failures: doubling from one second,
    capped at a minute. *)
Lemma backoff_schedule (n : nat) :
  Nat.iter (S n) backoff_next 0 = Z.min (2 ^ Z.of_nat n * time_Second) backoffMax.
Proof.
  induction n as [|n IH]; [reflexivity|].
  rewrite Nat.iter_succ, IH, backoff_next_double.
  - rewrite Nat2Z.inj_succ, Z.pow_succ_r by lia. unfold backoffMax, time_Second. lia.
  - unfold backoffMax, time_Second. pose proof (Z.pow_pos_nonneg 2 (Z.of_nat n)). lia.
Qed.

End AgentFacts.
