(* ===== verification/AgentClient.v ===== *)
(** * agent: the backend client and start-up

    Models agent/client.go (the requests the agent sends and what it makes of a
    response), the JSON of the messages of agent/types.go that it sends and reads, and
    the configuration of agent/main.go.  A response is its status with the bytes of
    the body; [None] is a request that was not answered in time. *)

From S2P Require Import Prelude GoStrings GoJson GoText Netip GoNet Fipsaddr AgentTypes AgentStore AgentUsage Agent.
Import Derive Json JsonText.

Module Client.

(** ** The transport rule *)

(** [url_Parse] is the scheme and the host name of [url.Parse]. *)
Definition confidential_host (host : gostr) : bool :=
  bool_decide (host = bs "localhost") || HasSuffix host (bs ".fips") ||
  match ParseAddr host with Some ip => IsLoopback ip || Valid ip | None => false end.

Definition checkBackendURL (url_Parse : gostr -> option (gostr * gostr)) (raw : gostr) (allowInsecure : bool) : bool :=
  match url_Parse raw with
  | None => false
  | Some (scheme, host) =>
      if bool_decide (scheme = bs "https") then true
      else if bool_decide (scheme = bs "http") then confidential_host host || allowInsecure
      else false
  end.

(** ** Requests *)

Record backendClient := { bc_baseURL : gostr; bc_authToken : gostr; bc_nodeID : gostr }.

Definition newBackendClient (baseURL : gostr) : backendClient := {| bc_baseURL := baseURL; bc_authToken := []; bc_nodeID := [] |}.
Definition setAuth (nodeID token : gostr) (c : backendClient) : backendClient :=
  {| bc_baseURL := bc_baseURL c; bc_authToken := token; bc_nodeID := nodeID |}.

(** A header is empty if it is not set; there may be no body. *)
Record http_request := { hq_method : gostr; hq_url : gostr; hq_contentType : gostr; hq_auth : gostr; hq_body : option gostr }.

Definition request_of (c : backendClient) (method path : gostr) (body : option jvalue) : http_request :=
  {| hq_method := method; hq_url := bc_baseURL c ++ path;
     hq_contentType := match body with None => [] | Some _ => bs "application/json" end;
     hq_auth := if bool_decide (bc_authToken c = []) then [] else bs "Bearer " ++ bc_authToken c; hq_body := Marshal <$> body |}.

(** The decoded body, [None] with a 204; the outer [None] is an error. *)
Definition handle_response {T} (unmarshal : jvalue -> option T) (resp : option (Z * gostr)) : option (option T) :=
  match resp with
  | None => None
  | Some (status, body) =>
      if status =? 204 then Some None
      else if (status <? 200) || (300 <=? status) then None
      else v ← Decode body; x ← unmarshal v; Some (Some x)
  end.

Definition do {T} (unmarshal : jvalue -> option T) (http : http_request -> option (Z * gostr)) (c : backendClient) (method path : gostr)
    (body : option jvalue) : option (option T) :=
  handle_response unmarshal (http (request_of c method path body)).

(** *** Messages (types.go) *)

(** [netip.Addr] as a text. *)
Definition addr_text (a : Addr) : gostr := match a with AddrZero => [] | _ => addr_String a end.
Definition as_addr (v : jvalue) : option Addr :=
  match v with
  | jnull => Some AddrZero
  | jstr s => if bool_decide (s = []) then Some AddrZero else ParseAddr s
  | _ => None
  end.

(** A string that is left out when it is empty. *)
Definition omitempty (key s : gostr) : list (gostr * jvalue) := if bool_decide (s = []) then [] else [(key, jstr s)].

Definition enroll_json (r : enrollRequest) : jvalue :=
  jobj [(bs "enroll_token", jstr (er_EnrollToken r)); (bs "node_pubkey", jstr (er_NodePubkey r)); (bs "name", jstr (er_Name r))].

Definition sample_json (s : usageSample) : jvalue :=
  jobj [(bs "service", jstr (us_Service s)); (bs "addr", jstr (addr_text (us_Addr s))); (bs "bytes", jnum (us_Bytes s))].

Definition usage_json (r : usageReport) : jvalue :=
  jobj [(bs "report_id", jstr (ur_ReportID r)); (bs "counter_epoch", jstr (ur_CounterEpoch r));
        (bs "window_end", jstr (Rfc3339.Format (ur_WindowEnd r))); (bs "samples", jarr (map sample_json (ur_Samples r)))].

Definition heartbeat_json (r : heartbeatRequest) : jvalue :=
  jobj ([(bs "version", jstr (hr_Version r)); (bs "authz_rev", jnum (hr_AuthzRev r)); (bs "set_size", jnum (hr_SetSize r))] ++
        omitempty (bs "set_hash") (hr_SetHash r) ++ omitempty (bs "wg_pubkey") (hr_WgPubkey r) ++ omitempty (bs "wg_endpoint") (hr_WgEndpoint r)).

Definition enrollResponse_of (v : jvalue) : option enrollResponse :=
  l ← as_struct v; id ← strict as_string (bs "node_id") l; token ← strict as_string (bs "auth_token") l;
  Some {| en_NodeID := id; en_AuthToken := token |}.

Definition member_of (v : jvalue) : option authzMember :=
  l ← as_struct v; a ← strict as_addr (bs "addr") l; acct ← strict as_string (bs "account") l;
  Some {| am_Addr := a; am_Account := acct |}.

Definition authzResponse_of (v : jvalue) : option authzResponse :=
  l ← as_struct v;
  rev ← strict (as_int 64) (bs "rev") l; full ← strict as_bool (bs "full") l;
  addresses ← strict (as_list member_of) (bs "addresses") l; add ← strict (as_list member_of) (bs "add") l;
  del ← strict (as_list as_addr) (bs "del") l; force ← strict as_bool (bs "force") l;
  Some {| az_Rev := rev; az_Full := full; az_Addresses := addresses; az_Add := add; az_Del := del; az_Force := force |}.

Definition usageAck_of (v : jvalue) : option usageAck :=
  l ← as_struct v; ack ← strict as_string (bs "ack") l; revoke ← strict (as_list as_addr) (bs "revoke") l;
  Some {| ua_Ack := ack; ua_Revoke := revoke |}.

Definition wgPeerInfo_of (v : jvalue) : option wgPeerInfo :=
  l ← as_struct v;
  key ← strict as_string (bs "pubkey") l; addr ← strict as_string (bs "addr") l;
  ip4 ← strict as_string (bs "ip4") l; ip6 ← strict as_string (bs "ip6") l;
  Some {| wi_Pubkey := key; wi_Addr := addr; wi_IP4 := ip4; wi_IP6 := ip6 |}.

Definition wgPeersResponse_of (v : jvalue) : option wgPeersResponse :=
  l ← as_struct v; etag ← strict as_string (bs "etag") l; peers ← strict (as_list wgPeerInfo_of) (bs "peers") l;
  Some {| wp_Etag := etag; wp_Peers := peers |}.

Definition serviceInfo_of (v : jvalue) : option serviceInfo :=
  l ← as_struct v; key ← strict as_string (bs "key") l; port ← strict (as_uint 16) (bs "port") l;
  Some {| si_Key := key; si_Port := port |}.

Definition wgConfig_of (v : jvalue) : option wgConfig :=
  l ← as_struct v; port ← strict (as_int 64) (bs "port") l; p4 ← strict as_string (bs "pool4") l; p6 ← strict as_string (bs "pool6") l;
  Some {| wc_Port := port; wc_Pool4 := p4; wc_Pool6 := p6 |}.

Definition agentConfig_of (v : jvalue) : option agentConfig :=
  l ← as_struct v;
  usage ← strict (as_int 64) (bs "usage_interval_s") l; grace ← strict (as_int 64) (bs "grace_minutes") l;
  services ← strict (as_list serviceInfo_of) (bs "services") l; wg ← strict wgConfig_of (bs "wg") l;
  Some {| ac_UsageIntervalS := usage; ac_GraceMinutes := grace; ac_Services := services; ac_Wg := wg |}.

Definition heartbeatResponse_of (v : jvalue) : option heartbeatResponse :=
  l ← as_struct v; config ← strict agentConfig_of (bs "config") l; resync ← strict as_bool (bs "resync") l;
  Some {| hb_Config := config; hb_Resync := resync |}.

(** *** The calls *)

(** A 204 leaves [out] at its zero value. *)
Definition enroll (http : http_request -> option (Z * gostr)) (c : backendClient) (req : enrollRequest) : option enrollResponse :=
  default {| en_NodeID := []; en_AuthToken := [] |} <$> do enrollResponse_of http c (bs "POST") (bs "/v1/nodes/enroll") (Some (enroll_json req)).

Definition authz_path (nodeID : gostr) (q : authzQuery) : gostr :=
  bs "/v1/nodes/" ++ nodeID ++ bs "/authz?rev=" ++ FormatInt (q_rev q) ++ bs "&wait=" ++ FormatInt (q_wait q) ++
  (if q_full q then bs "&full=1" else []).

Definition unchanged {T} (r : option (option T)) : result getAuthz_err T :=
  match r with
  | None => Err getAuthz_failed
  | Some None => Err errUnchanged
  | Some (Some x) => Ok x
  end.

Definition getAuthz (http : http_request -> option (Z * gostr)) (c : backendClient) (q : authzQuery) : result getAuthz_err authzResponse :=
  unchanged (do authzResponse_of http c (bs "GET") (authz_path (bc_nodeID c) q) None).

Definition postUsage (http : http_request -> option (Z * gostr)) (c : backendClient) (report : usageReport) : option usageAck :=
  default {| ua_Ack := []; ua_Revoke := [] |} <$> do usageAck_of http c (bs "POST") (bs "/v1/nodes/" ++ bc_nodeID c ++ bs "/usage") (Some (usage_json report)).

Definition wg_path (nodeID etag : gostr) : gostr := bs "/v1/nodes/" ++ nodeID ++ bs "/wg?etag=" ++ QueryEscape etag.

Definition getWgPeers (http : http_request -> option (Z * gostr)) (c : backendClient) (etag : gostr) : result getAuthz_err wgPeersResponse :=
  unchanged (do wgPeersResponse_of http c (bs "GET") (wg_path (bc_nodeID c) etag) None).

Definition zero_heartbeat : heartbeatResponse :=
  {| hb_Config := {| ac_UsageIntervalS := 0; ac_GraceMinutes := 0; ac_Services := []; ac_Wg := {| wc_Port := 0; wc_Pool4 := []; wc_Pool6 := [] |} |};
     hb_Resync := false |}.

Definition heartbeat (http : http_request -> option (Z * gostr)) (c : backendClient) (req : heartbeatRequest) : option heartbeatResponse :=
  default zero_heartbeat <$> do heartbeatResponse_of http c (bs "POST") (bs "/v1/nodes/" ++ bc_nodeID c ++ bs "/heartbeat") (Some (heartbeat_json req)).

(** ** Start-up (main.go) *)

Section Main.
Context (Getenv : gostr -> gostr) (Hostname : option gostr) (url_Parse : gostr -> option (gostr * gostr)).

Definition getenv (k def : gostr) : gostr := if bool_decide (Getenv k = []) then def else Getenv k.
Definition getenvInt (k : gostr) (def : Z) : Z := if bool_decide (Getenv k = []) then def else default def (ParseInt (Getenv k)).
Definition clampInt (v lo hi : Z) : Z := if v <? lo then lo else if hi <? v then hi else v.
Definition hostnameOr (def : gostr) : gostr := match Hostname with Some h => if bool_decide (h = []) then def else h | None => def end.

(** The parameters of the agent, the client, and what it is started with. *)
Record agent_main := {
  am_client : backendClient; am_params : agentParams; am_stateDir : gostr; am_nft : gostr; am_table : gostr;
  am_wgIf : option (gostr * gostr);     (* the wg command and the interface *)
  am_metricsAddr : gostr
}.

(** [None] is log.Fatal. *)
Definition load : option agent_main :=
  let baseURL := Getenv (bs "FIPS_AGENT_BACKEND_URL") in
  if bool_decide (baseURL = []) then None else
  if negb (checkBackendURL url_Parse baseURL (bool_decide (Getenv (bs "FIPS_AGENT_ALLOW_INSECURE") = bs "1"))) then None else
  let fs := getenvInt (bs "FIPS_AGENT_FULL_SYNC_S") 300 in
  let wgIf := Getenv (bs "FIPS_AGENT_WG_IF") in
  let wgEndpoint := if bool_decide (wgIf = []) then [] else Getenv (bs "FIPS_AGENT_WG_ENDPOINT") in
  if negb (bool_decide (wgIf = [])) && bool_decide (wgEndpoint = []) then None else
  let s := getenvInt (bs "FIPS_AGENT_WG_SYNC_S") 15 in
  Some {|
    am_client := newBackendClient baseURL;
    am_params := {|
      p_nodeName := getenv (bs "FIPS_AGENT_NODE_NAME") (hostnameOr (bs "fips-exit"));
      p_enrollToken := Getenv (bs "FIPS_AGENT_ENROLL_TOKEN");
      p_wgEndpoint := wgEndpoint;
      p_wgSyncEvery := if negb (bool_decide (wgIf = [])) && (0 <? s) then i64 (s * time_Second) else 15 * time_Second;
      p_fullSyncEvery := if fs <=? 0 then 0 else i64 (clampInt fs 30 (Z.shiftl 1 20) * time_Second);
      p_heartbeatEvery := i64 (getenvInt (bs "FIPS_AGENT_HEARTBEAT_S") 60 * time_Second);
      p_longPollWait := i64 (clampInt (getenvInt (bs "FIPS_AGENT_LONGPOLL_S") 50) 5 55 * time_Second);
      p_massRevokeMin := getenvInt (bs "FIPS_AGENT_MASS_REVOKE_MIN") 50;
      p_allowMassRevoke := bool_decide (Getenv (bs "FIPS_AGENT_ALLOW_MASS_REVOKE") = bs "1");
      p_failClosedAfterGrace := bool_decide (Getenv (bs "FIPS_AGENT_FAIL_CLOSED_AFTER_GRACE") = bs "1");
      p_bufferCap := getenvInt (bs "FIPS_AGENT_USAGE_BUFFER_CAP") 2880 |};
    am_stateDir := getenv (bs "FIPS_AGENT_STATE_DIR") (bs "/var/lib/fips-exit-agent");
    am_nft := getenv (bs "FIPS_AGENT_NFT") (bs "nft");
    am_table := getenv (bs "FIPS_AGENT_TABLE") (bs "inet fips_exit");
    am_wgIf := if bool_decide (wgIf = []) then None else Some (getenv (bs "FIPS_AGENT_WG") (bs "wg"), wgIf);
    am_metricsAddr := Getenv (bs "FIPS_AGENT_METRICS_ADDR")
  |}.

(** *** What a started agent may rely on *)

Lemma clampInt_range v lo hi : lo <= hi -> lo <= clampInt v lo hi <= hi.
Proof. intros H. unfold clampInt. destruct (v <? lo) eqn:E1; bool_hyps; [lia|]. destruct (hi <? v) eqn:E2; bool_hyps; lia. Qed.

(** An agent starts only with a backend it may send its token to: over https, over
    plain http to the mesh or to itself, or by the operator's explicit leave.  A full
    reconcile is off or at most every 30 seconds; the wait of a long poll is one the
    backend honours; peers are announced with an endpoint or not at all. *)
Theorem started_safely m : load = Some m ->
  (exists scheme host, url_Parse (bc_baseURL (am_client m)) = Some (scheme, host) /\
     (scheme = bs "https" \/ scheme = bs "http" /\ (confidential_host host = true \/ Getenv (bs "FIPS_AGENT_ALLOW_INSECURE") = bs "1"))) /\
  (p_fullSyncEvery (am_params m) = 0 \/ 30 * time_Second <= p_fullSyncEvery (am_params m)) /\
  (exists w, p_longPollWait (am_params m) = w * time_Second /\ 5 <= w <= 55) /\
  (is_Some (am_wgIf m) <-> p_wgEndpoint (am_params m) <> []).
Proof.
  unfold load. cbv zeta. case_bool_decide; [done|]. destruct (checkBackendURL _ _ _) eqn:Ec; cbn [negb]; [|done].
  destruct (negb _ && _) eqn:Ew; [done|]. intros <-%(inj Some). cbn [am_client am_params newBackendClient bc_baseURL p_fullSyncEvery p_longPollWait am_wgIf p_wgEndpoint].
  split; [|split; [|split]].
  - unfold checkBackendURL in Ec. destruct (url_Parse _) as [[scheme host]|]; [|done]. exists scheme, host. split; [done|].
    revert Ec. destruct (bool_decide_reflect (scheme = bs "https")); [intros _; by left|].
    destruct (bool_decide_reflect (scheme = bs "http")); [|done]. intros [Hc|Hi]%orb_true_iff; right; (split; [done|]); [by left|].
    right. by apply bool_decide_eq_true in Hi.
  - destruct (_ <=? 0); [by left|]. right. set (fs := getenvInt _ _). pose proof (clampInt_range fs 30 (Z.shiftl 1 20) ltac:(vm_compute; discriminate)) as Hr.
    change (Z.shiftl 1 20) with 1048576 in *. rewrite i64_small; unfold in_i64, int64_min, int64_max, time_Second in *; lia.
  - set (w := getenvInt _ _). exists (clampInt w 5 55). pose proof (clampInt_range w 5 55 ltac:(lia)) as Hr. split; [|done].
    apply i64_small. unfold in_i64, int64_min, int64_max, time_Second. lia.
  - revert Ew. destruct (bool_decide_reflect (Getenv (bs "FIPS_AGENT_WG_IF") = [])) as [Ei|Ei]; cbn [negb andb].
    { intros _. split; [by intros ?%is_Some_None|intros H0; by destruct H0]. }
    intros Ew.
    apply bool_decide_eq_false in Ew. split; [intros _; exact Ew|intros _; by eexists].
Qed.

End Main.
End Client.
