(* ===== verification/AgentWg.v ===== *)
(** * agent: mirroring the WireGuard peer table

    Models agent/wg.go: reading [wg show dump], the difference between the
    interface and the backend's table, applying it, and the polling loop.  The
    interface is behind [WgIface]; the [wg] command itself is a parameter of the
    definitions that run it. *)

From S2P Require Import Prelude GoStrings Netip Authzhash AgentTypes AgentStore AgentUsage Agent.
Import Authzhash.

(** [sort.Strings] *)
Definition sort_Strings (l : list gostr) : list gostr := merge_sort bytes_le l.

(** [strings.TrimRight(s, c)] for one byte. *)
Fixpoint TrimRight (s : gostr) (c : Z) : gostr :=
  match s with
  | [] => []
  | x :: r => match TrimRight r c with
              | [] => if x =? c then [] else [x]
              | r' => x :: r'
              end
  end.

(** ** The wg tool *)

(** The body of the loop over the lines after the first. *)
Definition parsePeerLine (peers : gmap gostr wgPeer) (line : gostr) : gmap gostr wgPeer :=
  match line with
  | [] => peers
  | _ =>
      match Split 9 line with
      | f0 :: _ :: _ :: f3 :: _ =>
          let ips := if bool_decide (f3 = bs "(none)") || bool_decide (f3 = []) then [] else Split 44 f3 in
          <[f0 := {| wg_Pubkey := f0; wg_AllowedIPs := sort_Strings ips |}]> peers
      | _ => peers
      end
  end.

Definition parseWgDump (dump : gostr) : gmap gostr wgPeer :=
  foldl parsePeerLine ∅ (tail (Split 10 (TrimRight dump 10))).

(** [wgTool]: [run] executes the command with its arguments, and changes the
    state [S] of the machine. *)
Section WgTool.
Context {S : Type} (run : list gostr -> State S (result wg_err gostr)) (iface : gostr).

Definition wgTool_PublicKey : State S (result wg_err gostr) :=
  r ← run [bs "show"; iface; bs "public-key"];
  match r with
  | Err e => mret (Err e)
  | Ok out => mret (Ok (TrimSpace out))
  end.

Definition wgTool_ListPeers : State S (result wg_err (gmap gostr wgPeer)) :=
  r ← run [bs "show"; iface; bs "dump"];
  match r with
  | Err e => mret (Err e)
  | Ok out => mret (Ok (parseWgDump out))
  end.

Definition setPeersArgs (add : list wgPeer) (del : list gostr) : list gostr :=
  [bs "set"; iface] ++
  (add ≫= fun p => [bs "peer"; wg_Pubkey p; bs "allowed-ips"; Join [44] (wg_AllowedIPs p)]) ++
  (del ≫= fun k => [bs "peer"; k; bs "remove"]).

Definition wgTool_SetPeers (add : list wgPeer) (del : list gostr) : State S (result wg_err unit) :=
  match add, del with
  | [], [] => mret (Ok tt)
  | _, _ =>
      r ← run (setPeersArgs add del);
      match r with
      | Err e => mret (Err e)
      | Ok _ => mret (Ok tt)
      end
  end.
End WgTool.

(** ** The difference *)

Definition by_key (x y : wgPeer) : Prop := bytes_le (wg_Pubkey x) (wg_Pubkey y).
#[export] Instance by_key_dec : RelDecision by_key.
Proof. intros x y. unfold by_key. apply _. Defined.

Definition sameIPs (have want : wgPeer) : bool :=
  bool_decide (Join [44] (wg_AllowedIPs have) = Join [44] (wg_AllowedIPs want)).

(** The entry is missing from [current] or has other allowed IPs there. *)
Definition outdated (current : gmap gostr wgPeer) (kv : gostr * wgPeer) : bool :=
  match current !! kv.1 with
  | None => true
  | Some have => negb (sameIPs have kv.2)
  end.

Section Diff.
Context `{MI : MapIter}.

(** The keys are distinct, so the unstable [sort.Slice] has one result. *)
Definition diffPeers (current desired : gmap gostr wgPeer) : list wgPeer * list gostr :=
  (merge_sort by_key (filter (fun kv => outdated current kv = true) (map_range desired)).*2,
   sort_Strings (filter (fun k => desired !! k = None) (map_range current).*1)).

Definition desiredPeer (p : wgPeerInfo) : wgPeer :=
  let ips := (if bool_decide (wi_IP4 p = []) then [] else [wi_IP4 p]) ++
             (if bool_decide (wi_IP6 p = []) then [] else [wi_IP6 p]) in
  {| wg_Pubkey := wi_Pubkey p; wg_AllowedIPs := sort_Strings ips |}.

Definition desiredPeers (resp : wgPeersResponse) : gmap gostr wgPeer :=
  foldl (fun out p => <[wi_Pubkey p := desiredPeer p]> out) ∅ (wp_Peers resp).
End Diff.

(** ** Applying *)

Section Sync.
Context `{MI : MapIter} `{FW : Firewall} `{WG : WgIface}.

(** One call per element; the number of failures so far is [failed]. *)
Fixpoint retryEach {A} (op : A -> State wg (result wg_err unit)) (l : list A) (failed : Z) : State wg Z :=
  match l with
  | [] => mret failed
  | x :: r =>
      e ← op x;
      retryEach op r (match e with Err _ => failed + 1 | Ok _ => failed end)
  end.

(** The interface's part of [applyWgPeers]: the number of failed changes. *)
Definition reconcilePeers (resp : wgPeersResponse) : State wg (result wg_err Z) :=
  r ← ListPeers;
  match r with
  | Err e => mret (Err e)
  | Ok current =>
      let '(add, del) := diffPeers current (desiredPeers resp) in
      r ← SetPeers add del;
      match r with
      | Ok _ => mret (Ok 0)
      | Err e =>
          failed ← retryEach (fun p => SetPeers [p] []) add 0;
          failed ← retryEach (fun k => SetPeers [] [k]) del failed;
          if failed =? Z.of_nat (length add) + Z.of_nat (length del)
          then mret (Err e) else mret (Ok failed)
      end
  end.

(** [applyWgPeers] on the agent's interface [w]; [wgErr 0] does nothing. *)
Definition applyWgPeers (w : wg) (resp : wgPeersResponse) : State Agent (result wg_err unit) :=
  let '(r, w) := reconcilePeers resp w in
  modify (set_wg (Some w)) ;;
  match r with
  | Err e => mret (Err e)
  | Ok failed =>
      on_metrics (wgErr failed) ;;
      modify (set_wgEtag (wp_Etag resp)) ;;
      on_metrics (setWgPeers (Z.of_nat (size (desiredPeers resp)))) ;;
      mret (Ok tt)
  end.

(** *** The loop *)

(** The locals of [runWgSync]; [wl_sleep] is the wait before the next iteration
    (before jitter). *)
Record wgLoop := { wl_lastFull : Z; wl_backoff : Z; wl_sleep : Z }.

Definition wgLoop_init : wgLoop := {| wl_lastFull := 0; wl_backoff := 0; wl_sleep := 0 |}.

Definition wg_retry (l : wgLoop) : wgLoop :=
  {| wl_lastFull := wl_lastFull l; wl_backoff := backoff_next (wl_backoff l);
     wl_sleep := backoff_next (wl_backoff l) |}.

Definition wg_wait (every : Z) (l : wgLoop) : wgLoop :=
  {| wl_lastFull := wl_lastFull l; wl_backoff := 0; wl_sleep := every |}.

(** The etag the iteration asks with. *)
Definition wgRequest (l : wgLoop) : State Agent gostr :=
  a ← get;
  if 0 <? p_fullSyncEvery (a_conf a) then
    t ← now;
    mret (if p_fullSyncEvery (a_conf a) <=? time_Sub t (wl_lastFull l) then [] else a_wgEtag a)
  else mret (a_wgEtag a).

(** From the answer to the end of the iteration. *)
Definition wgHandle (w : wg) (l : wgLoop) (etag : gostr)
    (answer : result getAuthz_err wgPeersResponse) : State Agent wgLoop :=
  a ← get;
  match answer with
  | Err errUnchanged => mret (wg_wait (p_wgSyncEvery (a_conf a)) l)
  | Err getAuthz_failed => mret (wg_retry l)
  | Ok resp =>
      r ← applyWgPeers w resp;
      match r with
      | Err _ => on_metrics (wgErr 1) ;; mret (wg_retry l)
      | Ok _ =>
          l ← (if bool_decide (etag = []) then
                 t ← now;
                 mret {| wl_lastFull := t; wl_backoff := wl_backoff l; wl_sleep := wl_sleep l |}
               else mret l);
          mret (wg_wait (p_wgSyncEvery (a_conf a)) l)
      end
  end.

(** One iteration of [runWgSync] on the interface [w]. *)
Definition runWgSync_iter (getWgPeers : gostr -> result getAuthz_err wgPeersResponse) (w : wg) (l : wgLoop)
    : State Agent wgLoop :=
  etag ← wgRequest l;
  wgHandle w l etag (getWgPeers etag).

End Sync.
