(* ===== verification/AgentWgFacts.v ===== *)
(** * agent: theorems about the WireGuard mirror

    Proved against [WgIface] for every map iteration order: applying a response
    leaves exactly the backend's peers on the interface, a refused row does not
    block the others, and what [wg show dump] prints is read back. *)

From S2P Require Import Prelude GoStrings Netip Authzhash AgentTypes AgentStore AgentUsage Agent AgentFacts AgentWg.
Import Authzhash.

Lemma sort_Strings_sorted l : StronglySorted bytes_le (sort_Strings l).
Proof. apply StronglySorted_merge_sort; apply _. Qed.

Lemma sort_Strings_perm l : sort_Strings l ≡ₚ l.
Proof. apply merge_sort_Permutation. Qed.

(** ** One [wg set] *)

Section WgSet.
Implicit Types (m : gmap gostr wgPeer) (p q : wgPeer).

(** No address of [p] is one of [q]. *)
Definition disjoint_ips p q : Prop := forall ip, ip ∈ wg_AllowedIPs p -> ip ∉ wg_AllowedIPs q.

Lemma assign_other m p k q : m !! k = Some q -> k <> wg_Pubkey p -> disjoint_ips q p -> wg_assign m p !! k = Some q.
Proof.
  intros E Hk Hd. unfold wg_assign. rewrite lookup_insert_ne, lookup_fmap, E by done. cbn. f_equal.
  destruct q as [key ips]. f_equal. cbn. apply filter_all, Forall_forall. exact Hd.
Qed.

Lemma assigns_other add m k q : m !! k = Some q -> k ∉ wg_Pubkey <$> add -> Forall (disjoint_ips q) add ->
  foldl wg_assign m add !! k = Some q.
Proof.
  intros E Hk Hd. revert m E Hk. induction Hd as [|p r Hp _ IH]; intros m E Hk; [done|]. cbn in *.
  apply not_elem_of_cons in Hk as [Hk1 Hk2]. apply IH; [|done]. by apply assign_other.
Qed.

Lemma assigns_none add m k : m !! k = None -> k ∉ wg_Pubkey <$> add -> foldl wg_assign m add !! k = None.
Proof.
  revert m. induction add as [|p r IH]; intros m E Hk; [done|]. cbn in *. apply not_elem_of_cons in Hk as [Hk1 Hk2].
  apply IH; [|done]. unfold wg_assign. by rewrite lookup_insert_ne, lookup_fmap, E.
Qed.

Lemma assigns_some add m k : is_Some (m !! k) -> is_Some (foldl wg_assign m add !! k).
Proof.
  revert m. induction add as [|p r IH]; intros m [q E]; [by exists q|]. cbn. apply IH. unfold wg_assign.
  destruct (decide (k = wg_Pubkey p)) as [->|Hne]; [rewrite lookup_insert_eq; eauto|].
  rewrite lookup_insert_ne, lookup_fmap, E by done. cbn. eauto.
Qed.

Lemma assigns_set add m p : NoDup (wg_Pubkey <$> add) -> p ∈ add ->
  (forall q, q ∈ add -> q <> p -> disjoint_ips p q) -> foldl wg_assign m add !! wg_Pubkey p = Some p.
Proof.
  revert m. induction add as [|x r IH]; intros m ND Hp Hd; [by apply not_elem_of_nil in Hp|]. cbn in *.
  apply NoDup_cons in ND as [Hx ND]. destruct (decide (p = x)) as [->|Hne].
  - apply assigns_other; [unfold wg_assign; by rewrite lookup_insert_eq|done|]. apply Forall_forall. intros q Hq.
    apply Hd; [by right|]. intros ->. by apply Hx, list_elem_of_fmap_2.
  - apply elem_of_cons in Hp as [->|Hp]; [done|]. apply IH; [done..|]. intros q Hq. apply Hd. by right.
Qed.

Lemma deletes_lookup del m k :
  foldl (fun m k => delete k m) m del !! k = if decide (k ∈ del) then None else m !! k.
Proof.
  revert m. induction del as [|x r IH]; intros m; cbn; [done|]. rewrite IH.
  destruct (decide (k = x)) as [->|Hne].
  - rewrite lookup_delete_eq, (decide_True (P := x ∈ x :: r)) by left. by case_decide.
  - rewrite lookup_delete_ne by done. case (decide (k ∈ r)); case (decide (k ∈ x :: r)); rewrite ?elem_of_cons; tauto.
Qed.

Lemma wg_set_add add add' del m : wg_set add' del (wg_set add [] m) = wg_set (add ++ add') del m.
Proof. unfold wg_set. cbn. by rewrite foldl_app. Qed.
End WgSet.

(** ** The difference *)

Section DiffPeers.
Context `{MI : MapIter}.
Implicit Types current desired : gmap gostr wgPeer.

(** Every peer is filed under its own key. *)
Definition keyed (m : gmap gostr wgPeer) : Prop := map_Forall (fun k p => wg_Pubkey p = k) m.

(** Peers under different keys share no address. *)
Definition exclusive (m : gmap gostr wgPeer) : Prop :=
  forall k k' p p', m !! k = Some p -> m !! k' = Some p' -> k <> k' -> disjoint_ips p p'.

Lemma desiredPeers_keyed resp : keyed (desiredPeers resp).
Proof.
  unfold desiredPeers. assert (H : keyed ∅) by apply map_Forall_empty. revert H. generalize (∅ : gmap gostr wgPeer).
  induction (wp_Peers resp) as [|p r IH]; intros m Hm; [done|]. cbn. apply IH. by apply map_Forall_insert_2.
Qed.

Lemma elem_of_diffPeers_add current desired p : keyed desired ->
  p ∈ (diffPeers current desired).1 <-> desired !! wg_Pubkey p = Some p /\ outdated current (wg_Pubkey p, p) = true.
Proof.
  intros Hk. cbn. rewrite merge_sort_Permutation, list_elem_of_fmap. setoid_rewrite list_elem_of_filter. split.
  - intros ([k q] & -> & Ho & Hq%elem_of_map_range). cbn. pose proof (Hk k q Hq) as <-. done.
  - intros [H1 H2]. exists (wg_Pubkey p, p). split; [done|]. split; [done|]. by apply elem_of_map_range.
Qed.

Lemma elem_of_diffPeers_del current desired k :
  k ∈ (diffPeers current desired).2 <-> is_Some (current !! k) /\ desired !! k = None.
Proof.
  cbn. rewrite sort_Strings_perm, list_elem_of_filter, list_elem_of_fmap. split.
  - intros (Hd & [k' q] & -> & Hq%elem_of_map_range). cbn. eauto.
  - intros ([q Hq] & Hd). split; [done|]. exists (k, q). split; [done|]. by apply elem_of_map_range.
Qed.

Lemma diffPeers_add_keys current desired : keyed desired -> NoDup (wg_Pubkey <$> (diffPeers current desired).1).
Proof.
  intros Hk. cbn. rewrite merge_sort_Permutation.
  assert (E : forall l : list (gostr * wgPeer), (forall kv, kv ∈ l -> desired !! kv.1 = Some kv.2) -> wg_Pubkey <$> l.*2 = l.*1).
  { intros l Hl. rewrite <- list_fmap_compose. apply list_fmap_ext. intros i [k q] Hq. cbn.
    apply (Hk k q), (Hl (k, q)), list_elem_of_lookup. eauto. }
  rewrite E; [apply NoDup_fst_filter, NoDup_fst_map_range|].
  intros [k q] [_ Hq]%list_elem_of_filter. by apply elem_of_map_range in Hq.
Qed.

Lemma Join_inj sep ps qs : Forall (fun p => p <> [] /\ sep ∉ p) ps -> Forall (fun p => p <> [] /\ sep ∉ p) qs ->
  Join [sep] ps = Join [sep] qs -> ps = qs.
Proof.
  assert (N : forall ps, Forall (fun p => p <> [] /\ sep ∉ p) ps -> Join [sep] ps = [] -> ps = []).
  { intros [|p [|q r]] H E; [done| |]; inversion_clear H as [|? ? [Hp _] _]; cbn in E; [done|].
    by destruct p. }
  intros Hp Hq E. destruct ps as [|p ps']; [symmetry; apply N; [done|by rewrite <- E]|].
  destruct qs as [|q qs']; [by apply N in E|]. apply (f_equal (Split sep)) in E.
  rewrite !Split_Join in E; [done|done| |done|]; (eapply Forall_weaken; [eassumption|]; by intros ? []).
Qed.

(** What a reconciliation promises: every accepted peer is on the interface as
    the backend has it, and no peer the backend does not have. *)
Definition reconciled (rejects : wgPeer -> bool) (desired m : gmap gostr wgPeer) : Prop :=
  forall k, match desired !! k with
            | None => m !! k = None
            | Some p => rejects p = false -> m !! k = Some p
            end.

Lemma reconciled_exact rejects desired m : reconciled rejects desired m ->
  map_Forall (fun _ p => rejects p = false) desired -> m = desired.
Proof.
  intros H Hr. apply map_eq. intros k. specialize (H k). destruct (desired !! k) as [p|] eqn:E; [|done].
  apply H. by apply (Hr k p).
Qed.

(** The interface after the accepted rows of the difference. *)
Lemma diff_reconciles plain current desired (bad : wgPeer -> bool) :
  (forall ip, plain ip -> ip <> [] /\ 44 ∉ ip) ->
  wg_listing plain current -> keyed desired -> exclusive desired ->
  (forall k p, desired !! k = Some p -> bad p = false -> Forall plain (wg_AllowedIPs p)) ->
  reconciled bad desired (wg_set (filter (fun p => bad p = false) (diffPeers current desired).1) (diffPeers current desired).2 current).
Proof.
  intros Ht Hc Hk Hx Hp k. unfold wg_set. rewrite deletes_lookup. set (add := (diffPeers current desired).1).
  assert (Hadd : forall p, p ∈ filter (fun p => bad p = false) add -> desired !! wg_Pubkey p = Some p).
  { intros p [_ Hin]%list_elem_of_filter. by apply elem_of_diffPeers_add in Hin as [? _]. }
  assert (ND : NoDup (wg_Pubkey <$> filter (fun p => bad p = false) add)).
  { eapply sublist_NoDup; [by apply (diffPeers_add_keys current desired)|]. apply fmap_sublist, sublist_filter. }
  assert (Hkeys : forall k, k ∈ wg_Pubkey <$> filter (fun p => bad p = false) add -> is_Some (desired !! k)).
  { intros k' (p & -> & Hin)%list_elem_of_fmap. rewrite (Hadd p Hin). eauto. }
  destruct (desired !! k) as [p|] eqn:Ek.
  - intros Hb. pose proof (Hk k p Ek) as Hkey. cbn in Hkey.
    rewrite decide_False by (intros [_ ?]%elem_of_diffPeers_del; congruence).
    assert (Hd : forall q, q ∈ filter (fun p => bad p = false) add -> q <> p -> disjoint_ips p q).
    { intros q Hin Hne. eapply Hx; [exact Ek|by apply Hadd|]. intros ->. apply Hne. rewrite (Hadd q Hin) in Ek. congruence. }
    destruct (outdated current (k, p)) eqn:Eo.
    + rewrite <- Hkey. apply assigns_set; [done| |done]. apply list_elem_of_filter. split; [done|].
      apply elem_of_diffPeers_add; [done|]. by rewrite Hkey.
    + assert (Hnot : p ∉ filter (fun p => bad p = false) add).
      { intros [_ Hin]%list_elem_of_filter. apply elem_of_diffPeers_add in Hin as [_ Ho]; [|done]. rewrite Hkey in Ho. congruence. }
      unfold outdated in Eo. cbn in Eo. destruct (current !! k) as [have|] eqn:Ec; [|done].
      destruct (Hc k have Ec) as [Hkh Hph]. apply negb_false_iff, bool_decide_eq_true in Eo.
      assert (have = p) as ->.
      { destruct have as [kh ih], p as [kp ip]. cbn in *. subst. f_equal. revert Eo.
        apply Join_inj; (eapply Forall_weaken; [|exact Ht]); [done|]. by eapply (Hp _ _ Ek). }
      apply assigns_other; [done| |].
      * intros (q & Eq & Hin)%list_elem_of_fmap. pose proof (Hadd q Hin) as Eq'. rewrite <- Eq, Ek in Eq'.
        injection Eq' as ->. done.
      * apply Forall_forall. intros q Hin. apply Hd; [done|]. intros ->. done.
  - case_decide as Hd; [done|]. apply assigns_none.
    + destruct (current !! k) eqn:Ec; [|done]. destruct Hd. apply elem_of_diffPeers_del. rewrite Ec. eauto.
    + intros Hin%Hkeys. rewrite Ek in Hin. by destruct Hin.
Qed.
End DiffPeers.

(** ** Applying a response *)

Section Apply.
Context `{MI : MapIter} `{FW : Firewall} `{WG : WgIface}.
Implicit Types (w : wg) (a : Agent).

Definition accepted (w : wg) (add : list wgPeer) : list wgPeer := filter (fun p => wg_rejects w p = false) add.
Definition refused (w : wg) (add : list wgPeer) : list wgPeer := filter (fun p => wg_rejects w p = true) add.

(** The accepted rows are ones the tool lists back as given. *)
Definition printable (w : wg) (p : wgPeer) : Prop := wg_rejects w p = false -> wg_row wg_plain p.

Lemma retry_add add n w : wg_up w -> Forall (printable w) add ->
  exists w', retryEach (fun p => SetPeers [p] []) add n w = (n + Z.of_nat (length (refused w add)), w') /\
    wg_up w' /\ wg_rejects w' = wg_rejects w /\ wg_peers w' = wg_set (accepted w add) [] (wg_peers w).
Proof.
  revert n w. induction add as [|p r IH]; intros n w Hu Ha.
  - exists w. split; [|done]. cbn. f_equal. lia.
  - inversion_clear Ha as [|? ? Hp Hr]. cbn [retryEach]. unfold mbind, state_bind.
    assert (Hp1 : Forall (printable w) [p]) by by constructor.
    destruct (SetPeers_up [p] [] w Hu Hp1 (Forall_nil_2 _)) as (U1 & R1 & S1).
    destruct (SetPeers [p] [] w) as [x w1]. cbn [fst snd] in *. cbn [existsb] in S1. rewrite orb_false_r in S1.
    assert (Hr1 : Forall (printable w1) r) by (unfold printable in *; by rewrite R1).
    destruct (IH (match x with Err _ => n + 1 | Ok _ => n end) w1 U1 Hr1) as (w' & E & U' & R' & P').
    exists w'. unfold refused, accepted in *. rewrite R1 in *. rewrite E, !filter_cons.
    destruct (wg_rejects w p); destruct S1 as [-> P1]; repeat case_decide; try done;
      (split; [f_equal; cbn [length]; lia|]); rewrite P', P1; [done|]. by rewrite (wg_set_add [p]).
Qed.

Lemma retry_del del n w : wg_up w -> NoDup del -> Forall (fun k => is_Some (wg_peers w !! k)) del ->
  exists w', retryEach (fun k => SetPeers [] [k]) del n w = (n, w') /\
    wg_up w' /\ wg_rejects w' = wg_rejects w /\ wg_peers w' = wg_set [] del (wg_peers w).
Proof.
  revert n w. induction del as [|k r IH]; intros n w Hu ND Hd; [by exists w|].
  apply NoDup_cons in ND as [Hk ND]. inversion_clear Hd as [|? ? Hk1 Hr]. cbn [retryEach]. unfold mbind, state_bind.
  assert (H1 : Forall (fun k => is_Some (wg_peers w !! k)) [k]) by by constructor.
  destruct (SetPeers_up [] [k] w Hu (Forall_nil_2 _) H1) as (U1 & R1 & S1 & P1).
  destruct (SetPeers [] [k] w) as [x w1]. cbn [fst snd] in *. subst x.
  destruct (IH n w1 U1 ND) as (w' & E & U' & R' & P').
  - rewrite P1. cbn. eapply Forall_impl_in; [exact Hr|]. intros k' Hin H. rewrite lookup_delete_ne; [done|]. by intros ->.
  - exists w'. rewrite E, R', P', P1, R1. done.
Qed.

(** The two loops after a refused batch. *)
Lemma retry_all add del w : wg_up w -> Forall (printable w) add -> NoDup del ->
  Forall (fun k => is_Some (wg_peers w !! k)) del ->
  exists w', ((failed ← retryEach (fun p => SetPeers [p] []) add 0; retryEach (fun k => SetPeers [] [k]) del failed)
              : State wg Z) w = (Z.of_nat (length (refused w add)), w') /\
    wg_up w' /\ wg_rejects w' = wg_rejects w /\ wg_peers w' = wg_set (accepted w add) del (wg_peers w).
Proof.
  intros Hu Ha ND Hd. destruct (retry_add add 0 w Hu Ha) as (w3 & E3 & U3 & R3 & P3). unfold mbind, state_bind.
  rewrite E3, Z.add_0_l. destruct (retry_del del (Z.of_nat (length (refused w add))) w3 U3 ND) as (w4 & E4 & U4 & R4 & P4).
  - rewrite P3. eapply Forall_weaken; [exact Hd|]. intros k. apply assigns_some.
  - exists w4. rewrite E4, R4, P4, P3, R3. done.
Qed.

(** The response is one the backend can serve: what the tool accepts of it is
    listed back as given, and no address is given to two peers. *)
Definition servable (w : wg) (resp : wgPeersResponse) : Prop :=
  map_Forall (fun _ p => printable w p) (desiredPeers resp) /\ exclusive (desiredPeers resp).

Lemma NoDup_diffPeers_del current desired : NoDup (diffPeers current desired).2.
Proof. cbn. rewrite sort_Strings_perm. apply NoDup_filter, NoDup_fst_map_range. Qed.

Lemma no_refusals (f : wgPeer -> bool) add : existsb f add = false ->
  filter (fun p => f p = false) add = add /\ filter (fun p => f p = true) add = [].
Proof.
  intros E. assert (H : Forall (fun p => f p = false) add).
  { apply Forall_forall. intros p Hp%list_elem_of_In. apply not_true_iff_false. intros Hf.
    apply not_true_iff_false in E. apply E, existsb_exists. eauto. }
  split; [by apply filter_all|]. apply filter_none. eapply Forall_weaken; [exact H|]. cbn. congruence.
Qed.

Lemma some_refusal (f : wgPeer -> bool) add : existsb f add = true -> filter (fun p => f p = true) add <> [].
Proof.
  intros (p & Hin%list_elem_of_In & Hp)%existsb_exists E.
  assert (Hf : p ∈ filter (fun p => f p = true) add) by by apply list_elem_of_filter.
  rewrite E in Hf. by apply not_elem_of_nil in Hf.
Qed.

Lemma count_split (f : wgPeer -> bool) add :
  length add = (length (filter (fun p => f p = false) add) + length (filter (fun p => f p = true) add))%nat.
Proof. induction add as [|p r IH]; [done|]. rewrite !filter_cons. destruct (f p); repeat case_decide; simplify_eq; cbn; lia. Qed.

Lemma reconcilePeers_spec resp w : wg_up w -> servable w resp ->
  let add := (diffPeers (wg_peers w) (desiredPeers resp)).1 in
  let del := (diffPeers (wg_peers w) (desiredPeers resp)).2 in
  exists r w', reconcilePeers resp w = (r, w') /\ wg_up w' /\ wg_rejects w' = wg_rejects w /\
    wg_peers w' = wg_set (accepted w add) del (wg_peers w) /\
    reconciled (wg_rejects w) (desiredPeers resp) (wg_peers w') /\
    r = (if bool_decide (refused w add <> [] /\ accepted w add = [] /\ del = []) then Err WgError
         else Ok (Z.of_nat (length (refused w add)))).
Proof.
  intros Hu [Hs Hx] add del. unfold reconcilePeers, mbind, state_bind, mret, state_ret.
  destruct (ListPeers_up w Hu) as (O1 & U1 & R1). pose proof (ListPeers_frame w) as F1. pose proof (ListPeers_ok w) as K1.
  destruct (ListPeers w) as [[cur|e] w1]; [|done]. cbn [fst snd] in *. rewrite (K1 cur eq_refl). clear K1 O1 cur.
  destruct (diffPeers (wg_peers w) (desiredPeers resp)) as [add' del'] eqn:Ed. subst add del. cbn [fst snd].
  pose proof (desiredPeers_keyed resp) as Hk.
  assert (Ha : forall w2, wg_rejects w2 = wg_rejects w -> Forall (printable w2) add').
  { intros w2 R2. apply Forall_forall. intros p Hp. unfold printable. rewrite R2. change add' with (add', del').1 in Hp. rewrite <- Ed in Hp.
    apply elem_of_diffPeers_add in Hp as [Hp _]; [|done]. by apply (Hs _ _ Hp). }
  assert (Hd : Forall (fun k => is_Some (wg_peers w !! k)) del').
  { apply Forall_forall. intros k Hin. change del' with (add', del').2 in Hin. rewrite <- Ed in Hin. by apply elem_of_diffPeers_del in Hin as [? _]. }
  assert (Hr : reconciled (wg_rejects w) (desiredPeers resp) (wg_set (accepted w add') del' (wg_peers w))).
  { pose proof (diff_reconciles wg_plain (wg_peers w) (desiredPeers resp) (wg_rejects w) wg_plain_text (wg_up_listing w Hu) Hk Hx) as H.
    rewrite Ed in H. apply H. intros k p Hp Hb. by destruct (Hs k p Hp Hb) as (_ & _ & ?). }
  destruct (SetPeers_up add' del' w1 U1) as (U2 & R2 & S2); [by apply Ha|by rewrite F1|]. rewrite R1, F1 in S2.
  destruct (SetPeers add' del' w1) as [r2 w2]. cbn [fst snd] in *. destruct (existsb (wg_rejects w) add') eqn:Ex; destruct S2 as [-> P2].
  - destruct (retry_all add' del' w2 U2) as (w4 & E4 & U4 & R4 & P4); [apply Ha; congruence| |by rewrite P2|].
    { change del' with (add', del').2. rewrite <- Ed. apply NoDup_diffPeers_del. }
    unfold mbind, state_bind in E4. unfold accepted, refused in *. rewrite R2, R1, P2 in *.
    destruct (retryEach _ add' 0 w2) as [n3 w3]. rewrite E4. pose proof (count_split (wg_rejects w) add') as Hc.
    pose proof (some_refusal _ _ Ex) as Hne.
    destruct (_ =? _) eqn:Ec; bool_hyps; eexists _, w4; (split; [reflexivity|]); (split; [done|]); (split; [congruence|]);
      (split; [done|]); (split; [by rewrite P4|]); case_bool_decide as Hb; try done.
    + destruct Hb. split; [done|]. split; apply length_zero_iff_nil; lia.
    + destruct Hb as (_ & E1 & E2). rewrite E1, E2 in *. cbn in *. lia.
  - exists (Ok 0), w2. destruct (no_refusals _ _ Ex) as [Ea Er]. unfold accepted, refused in *. rewrite Ea, Er in *. split; [done|]. split; [done|].
    split; [congruence|]. split; [done|]. split; [by rewrite P2|]. rewrite bool_decide_false by tauto. done.
Qed.

(** [applyWgPeers] as a function of the interface's outcome. *)
Lemma applyWgPeers_run resp w a : wg_up w -> servable w resp ->
  let add := (diffPeers (wg_peers w) (desiredPeers resp)).1 in
  let del := (diffPeers (wg_peers w) (desiredPeers resp)).2 in
  exists r a' w', applyWgPeers w resp a = (r, a') /\ a_wg a' = Some w' /\ wg_up w' /\ wg_rejects w' = wg_rejects w /\
    wg_peers w' = wg_set (accepted w add) del (wg_peers w) /\
    reconciled (wg_rejects w) (desiredPeers resp) (wg_peers w') /\
    a_conf a' = a_conf a /\ a_env a' = a_env a /\
    if bool_decide (refused w add <> [] /\ accepted w add = [] /\ del = [])
    then r = Err WgError /\ a_wgEtag a' = a_wgEtag a /\ a_metrics a' = a_metrics a
    else r = Ok tt /\ a_wgEtag a' = wp_Etag resp /\
         a_metrics a' = setWgPeers (Z.of_nat (size (desiredPeers resp))) <$>
                          (wgErr (Z.of_nat (length (refused w add))) <$> a_metrics a).
Proof.
  intros Hu Hs add del. destruct (reconcilePeers_spec resp w Hu Hs) as (r & w' & E & U & R & P & Hr & Er).
  fold add del in Er. unfold applyWgPeers. rewrite E. case_bool_decide; subst r;
    (do 3 eexists; split; [reflexivity|]); repeat (split; [done|]); done.
Qed.

Lemma none_refused w current resp : map_Forall (fun _ p => wg_rejects w p = false) (desiredPeers resp) ->
  refused w (diffPeers current (desiredPeers resp)).1 = [].
Proof.
  intros Ha. apply filter_none, Forall_forall. intros p Hp.
  apply elem_of_diffPeers_add in Hp as [Hp _]; [|apply desiredPeers_keyed]. rewrite (Ha _ _ Hp). done.
Qed.

Lemma applyWgPeers_exact resp w a : wg_up w -> servable w resp ->
  map_Forall (fun _ p => wg_rejects w p = false) (desiredPeers resp) ->
  exists a' w', applyWgPeers w resp a = (Ok tt, a') /\ a_wg a' = Some w' /\ wg_up w' /\ wg_rejects w' = wg_rejects w /\
    wg_peers w' = desiredPeers resp /\ a_conf a' = a_conf a /\ a_wgEtag a' = wp_Etag resp.
Proof.
  intros Hu Hs Ha. destruct (applyWgPeers_run resp w a Hu Hs) as (r & a' & w' & E & W & U & R & _ & Hr & C & _ & H).
  rewrite bool_decide_false in H by (intros [Hb _]; by apply Hb, none_refused). destruct H as (-> & He & _).
  exists a', w'. repeat (split; [done|]). split; [by eapply reconciled_exact|done].
Qed.

(** Applying a peer table, whatever is on the interface: afterwards every
    peer of the table that the tool accepts is configured with exactly its allowed
    IPs, every peer not in the table is gone, and a refused row blocks none of the
    others; the etag advances unless no change at all could be applied, and then
    the interface is as before. *)
Theorem applyWgPeers_mirrors resp w a r a' :
  wg_up w -> servable w resp -> applyWgPeers w resp a = (r, a') ->
  exists w', a_wg a' = Some w' /\ wg_up w' /\
    (forall k, match desiredPeers resp !! k with
               | None => wg_peers w' !! k = None
               | Some p => wg_rejects w p = false -> wg_peers w' !! k = Some p
               end) /\
    (map_Forall (fun _ p => wg_rejects w p = false) (desiredPeers resp) ->
       r = Ok tt /\ a_wgEtag a' = wp_Etag resp /\ wg_peers w' = desiredPeers resp) /\
    (r = Ok tt -> a_wgEtag a' = wp_Etag resp) /\
    (forall e, r = Err e -> a_wgEtag a' = a_wgEtag a /\ wg_peers w' = wg_peers w).
Proof.
  intros Hu Hs E. destruct (applyWgPeers_run resp w a Hu Hs) as (r1 & a1 & w' & E1 & W & U & R & P & Hr & _ & _ & H).
  rewrite E in E1. injection E1 as <- <-. exists w'. split; [done|]. split; [done|]. split; [exact Hr|].
  case_bool_decide as Hb; destruct H as (-> & He & _).
  - split; [|split; [done|]].
    + intros Ha. exfalso. by apply (proj1 Hb), none_refused.
    + intros e _. split; [done|]. destruct Hb as (_ & E1 & E2). rewrite P, E1, E2. done.
  - split; [|split; [done|done]]. intros Ha. split; [done|]. split; [done|]. by eapply reconciled_exact.
Qed.
End Apply.

(** ** Reading [wg show dump]

    The format of wg(8): the interface's line, then one line per peer, fields
    separated by tabs, the allowed IPs by commas or [(none)]. *)
Section Dump.

Record dumpPeer := {
  dp_key : gostr; dp_psk : gostr; dp_endpoint : gostr; dp_ips : list gostr; dp_rest : list gostr
}.

Definition dump_ips (ips : list gostr) : gostr :=
  match ips with
  | [] => bs "(none)"
  | _ => Join [44] ips
  end.

Definition dump_fields (p : dumpPeer) : list gostr :=
  dp_key p :: dp_psk p :: dp_endpoint p :: dump_ips (dp_ips p) :: dp_rest p.

Definition dump_text (head : gostr) (ps : list dumpPeer) : gostr :=
  (head :: map (fun p => Join [9] (dump_fields p)) ps) ≫= (fun s => s ++ [10]).

(** No field holds a separator, and no address is the word for no address. *)
Definition dump_ok (p : dumpPeer) : Prop :=
  Forall (fun f => (9 ∉ f) /\ (10 ∉ f)) (dump_fields p) /\
  Forall (fun ip => ip <> [] /\ (44 ∉ ip) /\ ip <> bs "(none)") (dp_ips p).

Lemma TrimRight_cut s c x : x <> c -> TrimRight ((s ++ [x]) ++ [c]) c = s ++ [x].
Proof.
  intros Hx. induction s as [|y s IH]; cbn; rewrite ?Z.eqb_refl; [by rewrite (proj2 (Z.eqb_neq x c))|].
  cbn in IH. rewrite IH. by destruct s.
Qed.

Lemma Join_origin sep ps c : c ∈ Join sep ps -> c ∈ sep \/ exists p, p ∈ ps /\ c ∈ p.
Proof.
  induction ps as [|p ps IH]; [by intros ?%not_elem_of_nil|]. intros H.
  assert (Hc : c ∈ p \/ c ∈ sep \/ c ∈ Join sep ps)
    by (destruct ps; [by left|]; cbn [Join] in H; rewrite !elem_of_app in H; exact H).
  destruct Hc as [Hc|[Hc|Hc]]; [right; exists p; by split; [left|]|by left|].
  destruct (IH Hc) as [?|(x & Hx & Hxc)]; [by left|]. right. exists x. by split; [right|].
Qed.

Lemma Join_nonempty sep ps : (2 <= length ps)%nat -> sep <> [] -> Join sep ps <> [].
Proof. destruct ps as [|p [|q r]]; cbn; [lia|lia|]. intros _ Hs E. by apply app_eq_nil in E as [_ [-> _]%app_eq_nil]. Qed.

(** The lines of a text whose last line is not empty. *)
Lemma dump_lines ls : Forall (fun s => 10 ∉ s) ls -> (forall s, last ls = Some s -> s <> []) ->
  ls <> [] -> Split 10 (TrimRight (ls ≫= (fun s => s ++ [10])) 10) = ls.
Proof.
  intros Hn Hl Hne. destruct (last ls) as [s|] eqn:E; [|by apply last_None in E].
  apply last_Some in E as [r ->]. pose proof (Hl s eq_refl) as Hs. destruct (exists_last Hs) as (s0 & x & ->).
  rewrite Forall_app in Hn. destruct Hn as [Hr [Hx _]%Forall_cons].
  rewrite bind_app. cbn [mbind list_bind]. rewrite app_nil_r, !app_assoc, <- (app_assoc _ s0).
  rewrite (app_assoc _ s0), TrimRight_cut by (intros ->; apply Hx, elem_of_app; right; by left).
  rewrite <- app_assoc. clear Hl Hne Hs. induction Hr as [|y r Hy _ IH]; cbn; [by rewrite Split_notin|].
  rewrite <- !app_assoc. cbn [app]. by rewrite Split_app, IH.
Qed.

Definition dump_row (p : dumpPeer) : gostr * wgPeer :=
  (dp_key p, {| wg_Pubkey := dp_key p; wg_AllowedIPs := sort_Strings (dp_ips p) |}).

Lemma parsePeerLine_dump m p : dump_ok p ->
  parsePeerLine m (Join [9] (dump_fields p)) = <[(dump_row p).1 := (dump_row p).2]> m.
Proof.
  intros [Hf Hi]. unfold parsePeerLine.
  destruct (Join [9] (dump_fields p)) as [|c r] eqn:E.
  { exfalso. revert E. apply Join_nonempty; [cbn; lia|done]. }
  assert (F : Split 9 (c :: r) = dump_fields p)
    by (rewrite <- E; apply Split_Join; [done|]; eapply Forall_weaken; [exact Hf|]; by intros ? []).
  rewrite F. unfold dump_fields. cbn [dump_row fst snd]. do 3 f_equal. unfold dump_ips. destruct (dp_ips p) as [|i rest]; [done|].
  assert (S : Split 44 (Join [44] (i :: rest)) = i :: rest).
  { apply Split_Join; [done|]. eapply Forall_weaken; [exact Hi|]. by intros ? (_ & ? & _). }
  apply Forall_cons in Hi as [(H1 & H2 & H3) _]. rewrite !bool_decide_false; [done| |].
  - intros E0. rewrite E0 in S. injection S as <- <-. done.
  - intros E0. rewrite E0, Split_notin in S by (vm_compute; set_solver). injection S as <- <-. done.
Qed.

Lemma dump_lines_plain ps : Forall dump_ok ps -> Forall (fun s => 10 ∉ s) (map (fun p => Join [9] (dump_fields p)) ps).
Proof.
  intros H. apply Forall_fmap. eapply Forall_weaken; [exact H|]. intros p [Hf _] Hin.
  apply Join_origin in Hin as [Hin%list_elem_of_singleton|(f & Hin & Hc)]; [done|].
  rewrite Forall_forall in Hf. by apply (Hf f Hin).
Qed.

Lemma foldl_map_row ps m : Forall dump_ok ps ->
  foldl parsePeerLine m (map (fun p => Join [9] (dump_fields p)) ps) =
  foldl (fun m kv => <[kv.1 := kv.2]> m) m (map dump_row ps).
Proof.
  intros H. revert m. induction H as [|p ps Hp _ IH]; intros m; [done|]. cbn [map foldl]. by rewrite parsePeerLine_dump, IH.
Qed.

(** What [wg show dump] prints is read back: every peer of the interface with
    its allowed IPs in sorted order, and nothing else. *)
Theorem parseWgDump_dump head ps :
  10 ∉ head -> head <> [] -> Forall dump_ok ps -> NoDup (map dp_key ps) ->
  parseWgDump (dump_text head ps) = list_to_map (map dump_row ps).
Proof.
  intros H10 Hh Hps ND. unfold parseWgDump, dump_text. rewrite dump_lines; [|by constructor; [|apply dump_lines_plain]| |done].
  - cbn [tail]. rewrite foldl_map_row by done. apply foldl_insert_map. by rewrite map_map.
  - intros s Hs. destruct (last ps) as [p|] eqn:El.
    + apply last_Some in El as [r ->]. rewrite map_app in Hs. cbn [map] in Hs. rewrite app_comm_cons, last_snoc in Hs.
      assert (s = Join [9] (dump_fields p)) as -> by congruence.
      apply Join_nonempty; [cbn; lia|done].
    + apply last_None in El as ->. by injection Hs as <-.
Qed.
End Dump.
