(* ===== verification/AgentRun.v ===== *)
(** * agent: the loops side by side

    Models [Run] of agent/agent.go: the loops are goroutines that share the firewall,
    the state file and the fields of the agent.  A goroutine is a program over single
    calls: a command of the firewall, a section under one of the two mutexes, a
    request to the backend; between two of them any other goroutine may run, and the
    kernel set may be changed from outside.  Run on its own, each program is the
    iteration of [Agent]. *)

From S2P Require Import Prelude GoStrings Netip Authzhash AgentTypes AgentStore AgentUsage Agent AgentFacts AgentWg.
Import Authzhash.

Module Run.

Section Run.
Context `{MI : MapIter} `{FW : Firewall} `{WG : WgIface}.
Implicit Types a : Agent.

(** ** Programs *)

(** The requests to the backend, with the type of their answers. *)
Inductive net : Type -> Type :=
| net_authz (q : authzQuery) : net (result getAuthz_err authzResponse)
| net_usage (r : usageReport) : net (option usageAck)
| net_heartbeat (r : heartbeatRequest) : net (option heartbeatResponse)
| net_wg (etag : gostr) : net (result getAuthz_err wgPeersResponse).

Inductive prog (A : Type) : Type :=
| p_ret (x : A)
| p_call (B : Type) (m : State Agent B) (k : B -> prog A)
| p_net (R : Type) (e : net R) (k : R -> prog A).
#[global] Arguments p_ret {A} x.
#[global] Arguments p_call {A B} m k.
#[global] Arguments p_net {A R} e k.

Fixpoint p_bind {A B} (f : A -> prog B) (p : prog A) : prog B :=
  match p with
  | p_ret x => f x
  | p_call m k => p_call m (fun b => p_bind f (k b))
  | p_net e k => p_net e (fun r => p_bind f (k r))
  end.
#[global] Instance prog_ret : MRet prog := fun A x => p_ret x.
#[global] Instance prog_bind : MBind prog := fun A B f p => p_bind f p.

(** One call, one request. *)
Definition call {B} (m : State Agent B) : prog B := p_call m p_ret.
Definition ask {R} (e : net R) : prog R := p_net e p_ret.

(** A program on its own, with a backend that answers at once. *)
Fixpoint alone {A} (h : forall R, net R -> R) (p : prog A) : State Agent A :=
  match p with
  | p_ret x => fun a => (x, a)
  | p_call m k => fun a => let '(b, a') := m a in alone h (k b) a'
  | p_net e k => fun a => alone h (k (h _ e)) a
  end.

Lemma alone_bind {A B} h (p : prog A) (f : A -> prog B) a :
  alone h (p ≫= f) a = let '(x, a') := alone h p a in alone h (f x) a'.
Proof.
  unfold mbind, prog_bind. revert a. induction p as [x|C m k IH|R e k IH]; intros a; cbn; [done| |apply IH].
  destruct (m a) as [b a']. apply IH.
Qed.

(** ** The sync loop *)

Definition presentOnly_p (del : list Addr) : prog (result fw_err (list Addr)) :=
  match del with
  | [] => mret (Ok [])
  | _ =>
      r ← call (on_fw ListAuthorized);
      match r with
      | Err e => mret (Err e)
      | Ok current => mret (Ok (filter (fun d => d ∈ current) del))
      end
  end.

Definition applyAndAdvance_p (add del : list Addr) (rev : Z) : prog (result authz_err unit) :=
  r ← call (on_fw (ApplyAuthorized add del));
  match r with
  | Err _ => mret (Err FwFailed)
  | Ok _ =>
      r ← call (on_store (withRuntime (modify (set_AuthzRev rev))));
      match r.2 with
      | Err e => mret (Err (PersistFailed e))
      | Ok _ => mret (Ok tt)
      end
  end.

Definition applyAuthz_p (resp : authzResponse) : prog (result authz_err unit) :=
  if az_Full resp then
    r ← call (on_fw ListAuthorized);
    match r with
    | Err _ => mret (Err FwFailed)
    | Ok current =>
        let desired : gset Addr := list_to_set (map am_Addr (az_Addresses resp)) in
        let '(add, del) := diffAuthorized current desired in
        refuse ← call (gets (fun a => negb (az_Force resp) && negb (p_allowMassRevoke (a_conf a)) &&
                                      isMassRevoke a (Z.of_nat (length del)) (Z.of_nat (size current))));
        if (refuse : bool)
        then mret (Err (massRevokeError (Z.of_nat (length del)) (Z.of_nat (size current))))
        else applyAndAdvance_p add del (az_Rev resp)
    end
  else
    cursor ← call (on_store authzRev);
    if az_Rev resp <? cursor then mret (Err (revRegressionError (az_Rev resp) cursor)) else
    r ← presentOnly_p (az_Del resp);
    match r with
    | Err _ => mret (Err FwFailed)
    | Ok del => applyAndAdvance_p (map am_Addr (az_Add resp)) del (az_Rev resp)
    end.

Definition markAuthzOK_p : prog unit :=
  t ← call now;
  call (modify (set_lastAuthzOK t)) ;;
  stale ← call (gets (fun a => persistAuthzOKEvery <=? time_Sub t (rt_LastAuthzOK (s_rt (a_store a)))));
  (if (stale : bool) then _ ← call (on_store (withRuntime (modify (set_LastAuthzOK t)))); mret tt else mret tt) ;;
  rev ← call (on_store authzRev);
  call (on_metrics (syncOK rev t)).

(** The section of [graceCheck] under the mutex: whether to cut off. *)
Definition grace_over : State Agent bool :=
  t ← now;
  gets (fun a => (graceWindow a <? time_Sub t (a_lastAuthzOK a)) && p_failClosedAfterGrace (a_conf a) &&
                 (time_IsZero (a_startedAt a) || (startupGrace a <=? time_Sub t (a_startedAt a)))).

Definition graceCheck_p : prog unit :=
  call (on_metrics outage) ;;
  over ← call grace_over;
  if negb over then mret tt else
  r ← call (on_fw ListAuthorized);
  match r with
  | Err _ => mret tt
  | Ok current =>
      if bool_decide (size current = 0%nat) then mret tt else
      _ ← call (on_fw (ApplyAuthorized [] (set_range current))); mret tt
  end.

Definition syncRequest_p (l : syncLoop) : prog (syncLoop * Z * authzQuery) :=
  resync ← call takeResync;
  let forceFull := if (resync : bool) then true else sl_forceFull l in
  conf ← call (gets a_conf);
  forceFull ← (if negb forceFull && (0 <? p_fullSyncEvery conf)
               then t ← call now; mret (p_fullSyncEvery conf <=? time_Sub t (sl_lastFull l))
               else mret forceFull);
  persisted ← call (on_store authzRev);
  mret ({| sl_forceFull := forceFull; sl_lastFull := sl_lastFull l; sl_backoff := sl_backoff l; sl_sleep := 0 |}, persisted,
        {| q_rev := if (forceFull : bool) then 0 else persisted; q_wait := Z.quot (p_longPollWait conf) time_Second; q_full := forceFull |}).

Definition clearForce_p (c : bool) (l : syncLoop) : prog syncLoop :=
  if c then
    t ← call now;
    mret {| sl_forceFull := false; sl_lastFull := t; sl_backoff := sl_backoff l; sl_sleep := sl_sleep l |}
  else mret l.

Definition syncHandle_p (l : syncLoop) (persisted : Z) (answer : result getAuthz_err authzResponse) : prog syncLoop :=
  match answer with
  | Err errUnchanged => l ← clearForce_p (sl_forceFull l) l; markAuthzOK_p ;; mret (resetBackoff l)
  | Err getAuthz_failed => call (on_metrics syncErr) ;; graceCheck_p ;; mret (sleep_retry (sl_forceFull l) l)
  | Ok resp =>
      r ← applyAuthz_p resp;
      match r with
      | Err (massRevokeError _ _) =>
          call (on_metrics massRevokeRefused) ;; markAuthzOK_p ;;
          if sl_forceFull l && (0 <? persisted) then l ← clearForce_p true l; mret (resetBackoff l)
          else mret (sleep_retry (sl_forceFull l) l)
      | Err (revRegressionError _ _) => markAuthzOK_p ;; mret (sleep_retry true l)
      | Err _ => call (on_metrics nftErr) ;; mret (sleep_retry (sl_forceFull l) l)
      | Ok _ =>
          (if az_Full resp then call (on_metrics fullSync) else mret tt) ;;
          l ← clearForce_p (sl_forceFull l) l; markAuthzOK_p ;; mret (resetBackoff l)
      end
  end.

Definition runSync_p (l : syncLoop) : prog syncLoop :=
  x ← syncRequest_p l;
  answer ← ask (net_authz x.2);
  syncHandle_p x.1.1 x.1.2 answer.

(** ** The usage loop *)

(** [collectAndBuffer] from the section under the store's mutex on. *)
Definition bufferReport (cur : gmap acctKey Z) (services : gmap Z gostr) (epoch : gostr) : State Agent (result collect_err unit) :=
  id ← peek randID;
  t ← peek now;
  a ← get;
  x ← on_store (withRuntime (collectFn cur services epoch id t (p_bufferCap (a_conf a))));
  let '((total, dropped, used, panics), persisted) := x in
  useScripts used ;;
  if (panics : bool) then mret (Err SlicePanic) else
  on_metrics (usageDrop dropped) ;;
  match persisted with
  | Err e => mret (Err (CollectPersist e))
  | Ok _ => t ← now; on_metrics (collected total t) ;; mret (Ok tt)
  end.

Definition collectAndBuffer_p : prog (result collect_err unit) :=
  r ← call (on_fw ReadAcct);
  match r with
  | Err _ => mret (Err AcctFailed)
  | Ok cur =>
      services ← call (gets a_services);
      epoch ← call counterEpoch;
      call (bufferReport cur services epoch)
  end.

Definition gcAcct_p (addrs : list Addr) : prog unit :=
  r ← call (on_fw ReadAcct);
  match r with
  | Err _ => mret tt
  | Ok existing =>
      let want : gset Addr := list_to_set addrs in
      let keys := filter (fun k => ak_Addr k ∈ want) (map_range existing).*1 in
      _ ← call (on_fw (DeleteAcct keys)); mret tt
  end.

Definition applyRevocations_p (revoke : list Addr) : prog unit :=
  match revoke with
  | [] => mret tt
  | _ =>
      r ← presentOnly_p revoke;
      match r with
      | Err _ => mret tt
      | Ok del =>
          r ← call (on_fw (ApplyAuthorized [] del));
          match r with
          | Err _ => mret tt
          | Ok _ => gcAcct_p revoke
          end
      end
  end.

(** The buffer is this goroutine's: the bound read at the start holds (see
    [flushBuffer_loop]). *)
Fixpoint flush_p (fuel : nat) : prog unit :=
  match fuel with
  | O => mret tt
  | S fuel =>
      snap ← call (on_store snapshotRuntime);
      match rt_BufferedUsage snap with
      | [] => mret tt
      | report :: _ =>
          answer ← ask (net_usage report);
          match answer with
          | None => mret tt
          | Some ack =>
              call (on_metrics usageSentInc) ;;
              applyRevocations_p (ua_Revoke ack) ;;
              r ← call (on_store (withRuntime (ackFn (ur_ReportID report))));
              match r.2 with
              | Err _ => mret tt
              | Ok _ => flush_p fuel
              end
          end
      end
  end.

Definition flushBuffer_p : prog unit :=
  n ← call (gets (fun a => S (length (rt_BufferedUsage (s_rt (a_store a))))));
  flush_p n.

Definition runUsage_p : prog Z :=
  r ← collectAndBuffer_p;
  (match r with Err _ => call (on_metrics collectErr) | Ok _ => mret tt end) ;;
  flushBuffer_p ;;
  rt ← call (on_store snapshotRuntime);
  call (on_metrics (setBuffered (Z.of_nat (length (rt_BufferedUsage rt))))) ;;
  call (gets (fun a => i64 (ac_UsageIntervalS (a_cfg a) * time_Second))).

(** ** The heartbeat loop *)

Definition heartbeatBuild_p : prog heartbeatRequest :=
  rt ← call (on_store snapshotRuntime);
  r ← call (on_fw ListAuthorized);
  x ← match r with
      | Err _ => mret (-1, [])
      | Ok set => call (on_metrics (setAuthorized (Z.of_nat (size set)))) ;; mret (Z.of_nat (size set), OfSet set)
      end;
  w ← call (gets a_wg);
  y ← match w with
      | None => mret ([], [])
      | Some w =>
          p ← call (wgPublicKey w);
          match p with
          | Ok pub => e ← call (gets (fun a => p_wgEndpoint (a_conf a))); mret (pub, e)
          | Err _ => mret ([], [])
          end
      end;
  mret {| hr_Version := agentVersion; hr_AuthzRev := rt_AuthzRev rt; hr_SetSize := x.1; hr_SetHash := x.2;
          hr_WgPubkey := y.1; hr_WgEndpoint := y.2 |}.

Definition runHeartbeat_p : prog unit :=
  req ← heartbeatBuild_p;
  answer ← ask (net_heartbeat req);
  match answer with
  | None => mret tt
  | Some resp =>
      call (applyConfig (hb_Config resp)) ;;
      call (checkWgConfig (ac_Wg (hb_Config resp))) ;;
      (if hb_Resync resp then call requestResync else mret tt)
  end.

(** ** The WireGuard loop *)

(** Its interface is used by no other loop but for the key the heartbeat reads, so
    applying a table is one call. *)
Definition runWgSync_p (l : wgLoop) : prog wgLoop :=
  etag ← call (wgRequest l);
  answer ← ask (net_wg etag);
  w ← call (gets a_wg);
  match w with
  | None => mret l
  | Some w => call (wgHandle w l etag answer)
  end.

(** ** [Run] *)

Inductive goroutine :=
| g_sync (p : prog syncLoop)
| g_usage (p : prog Z)
| g_heartbeat (p : prog unit)
| g_wg (p : prog wgLoop)
| g_ended.

(** Enrollment, the grace clock, then the loops; an error ends the process. *)
Definition Run (keypair : gostr * gostr) (enroll : enrollRequest -> option enrollResponse) : State Agent (result enroll_err (list goroutine)) :=
  r ← ensureEnrolled keypair enroll;
  match r with
  | Err e => mret (Err e)
  | Ok _ =>
      initLastAuthzOK ;;
      w ← gets a_wg;
      mret (Ok ([g_sync (runSync_p syncLoop_init); g_usage runUsage_p; g_heartbeat runHeartbeat_p] ++
                match w with Some _ => [g_wg (runWgSync_p wgLoop_init)] | None => [] end))
  end.

(** The addresses an answer grants. *)
Definition grants {R} (e : net R) : R -> gset Addr :=
  match e in net R return R -> gset Addr with
  | net_authz _ => fun r =>
      match r with
      | Ok resp => list_to_set (map am_Addr (if az_Full resp then az_Addresses resp else az_Add resp))
      | Err _ => ∅
      end
  | _ => fun _ => ∅
  end.

Section Steps.
(** The answers the backend may give. *)
Variable answers : forall R, net R -> R -> Prop.

(** One call or answer of a program, with the addresses it is granted. *)
Inductive prog_step {A} (a : Agent) : prog A -> gset Addr -> prog A -> Agent -> Prop :=
| ps_call B (m : State Agent B) k : prog_step a (p_call m k) ∅ (k (m a).1) (m a).2
| ps_net R (e : net R) k r : answers R e r -> prog_step a (p_net e k) (grants e r) (k r) a.

(** A loop that has come to its end, and slept, begins again, unless the context is
    done. *)
Inductive goroutine_step (a : Agent) : goroutine -> gset Addr -> goroutine -> Agent -> Prop :=
| gs_sync p g p' a' : prog_step a p g p' a' -> goroutine_step a (g_sync p) g (g_sync p') a'
| gs_usage p g p' a' : prog_step a p g p' a' -> goroutine_step a (g_usage p) g (g_usage p') a'
| gs_heartbeat p g p' a' : prog_step a p g p' a' -> goroutine_step a (g_heartbeat p) g (g_heartbeat p') a'
| gs_wg p g p' a' : prog_step a p g p' a' -> goroutine_step a (g_wg p) g (g_wg p') a'
| gs_sync_next l : goroutine_step a (g_sync (p_ret l)) ∅ (g_sync (runSync_p l)) a
| gs_usage_next z : goroutine_step a (g_usage (p_ret z)) ∅ (g_usage runUsage_p) a
| gs_heartbeat_next u : goroutine_step a (g_heartbeat (p_ret u)) ∅ (g_heartbeat runHeartbeat_p) a
| gs_wg_next l : goroutine_step a (g_wg (p_ret l)) ∅ (g_wg (runWgSync_p l)) a
| gs_end g : goroutine_step a g ∅ g_ended a.

End Steps.

(** ** A loop alone is the iteration of [Agent] *)

Section Alone.
Variable h : forall R, net R -> R.

(** Run both sides to the first call whose result matters. *)
Ltac both := unfold mbind, prog_bind, state_bind, mret, prog_ret, state_ret, get, gets, modify; cbn [p_bind call ask alone].
Ltac fork := repeat (both; match goal with |- context [match ?x with _ => _ end] => destruct x eqn:? end; try reflexivity).

Lemma state_run {A B} (m : State Agent A) (f : A -> State Agent B) a : (m ≫= f) a = let '(x, a') := m a in f x a'.
Proof. done. Qed.

Lemma alone_call {B} (m : State Agent B) a : alone h (call m) a = m a.
Proof. cbn. by destruct (m a). Qed.

Lemma alone_presentOnly del a : alone h (presentOnly_p del) a = presentOnly del a.
Proof. unfold presentOnly_p, presentOnly. destruct del; [done|]. both. by destruct (on_fw ListAuthorized a) as [[] ?]. Qed.

Lemma alone_applyAndAdvance add del rev a : alone h (applyAndAdvance_p add del rev) a = applyAndAdvance add del rev a.
Proof.
  unfold applyAndAdvance_p, applyAndAdvance. both. destruct (on_fw _ a) as [[u|e] a1]; [|done]. both.
  destruct (on_store _ a1) as [[x [u2|e]] a2]; done.
Qed.

Lemma alone_applyAuthz resp a : alone h (applyAuthz_p resp) a = applyAuthz resp a.
Proof.
  unfold applyAuthz_p, applyAuthz. destruct (az_Full resp).
  - both. destruct (on_fw ListAuthorized a) as [[current|e] a1]; [|done]. destruct (diffAuthorized _ _) as [add del]. both.
    destruct (negb _ && _ && _); [done|]. apply alone_applyAndAdvance.
  - rewrite alone_bind, alone_call. unfold mbind, state_bind. destruct (on_store authzRev a) as [cur a1]. destruct (_ <? _); [done|].
    change (p_bind ?f ?p) with (p ≫= f). rewrite alone_bind, alone_presentOnly. destruct (presentOnly _ a1) as [[del|e] a2]; [|done].
    apply alone_applyAndAdvance.
Qed.

Lemma alone_markAuthzOK a : alone h markAuthzOK_p a = markAuthzOK a.
Proof.
  unfold markAuthzOK_p, markAuthzOK. both. destruct (now a) as [t a1]. both. destruct (_ <=? _); both.
  - destruct (on_store (withRuntime _) _) as [x a2]. both. destruct (on_store authzRev a2) as [rev a3]. by destruct (on_metrics _ a3) as [[] ?].
  - destruct (on_store authzRev _) as [rev a3]. by destruct (on_metrics _ a3) as [[] ?].
Qed.

Lemma alone_graceCheck a : alone h graceCheck_p a = graceCheck a.
Proof.
  unfold graceCheck_p, graceCheck, grace_over. both. destruct (on_metrics outage a) as [[] a1]. both. destruct (now a1) as [t a2]. both.
  destruct (graceWindow a2 <? _), (p_failClosedAfterGrace (a_conf a2)), (time_IsZero (a_startedAt a2) || _); cbn [andb orb negb]; try done.
  both. destruct (on_fw ListAuthorized a2) as [[current|e] a3]; [|done]. case_bool_decide; [done|]. both. by destruct (on_fw _ a3).
Qed.

Lemma alone_syncRequest l a : alone h (syncRequest_p l) a = syncRequest l a.
Proof.
  unfold syncRequest_p, syncRequest. rewrite alone_bind, alone_call. rewrite state_run. destruct (takeResync a) as [r a1]. both.
  destruct (negb _ && _); both; [destruct (now a1) as [t a2]|]; both; by destruct (on_store authzRev _).
Qed.

Lemma alone_clearForce c l a : alone h (clearForce_p c l) a = clearForce c l a.
Proof. unfold clearForce_p, clearForce. destruct c; [|done]. both. by destruct (now a). Qed.

Lemma alone_syncHandle l persisted answer a : alone h (syncHandle_p l persisted answer) a = syncHandle l persisted answer a.
Proof.
  assert (M : forall (l : syncLoop) a, alone h (markAuthzOK_p ;; mret (resetBackoff l)) a = (markAuthzOK ;; mret (resetBackoff l)) a).
  { intros l' a'. rewrite alone_bind, alone_markAuthzOK. unfold mbind, state_bind. by destruct (markAuthzOK a'). }
  assert (C : forall c a, alone h (l ← clearForce_p c l; markAuthzOK_p ;; mret (resetBackoff l)) a =
    (l ← clearForce c l; markAuthzOK ;; mret (resetBackoff l)) a).
  { intros c a'. rewrite alone_bind, alone_clearForce. rewrite state_run. destruct (clearForce c l a'). apply M. }
  unfold syncHandle_p, syncHandle. destruct answer as [resp|[]]; [|apply C|].
  - rewrite alone_bind, alone_applyAuthz. rewrite state_run. destruct (applyAuthz resp a) as [[u|[]] a1].
    + rewrite alone_bind. rewrite state_run. destruct (az_Full resp).
      * rewrite alone_call. destruct (on_metrics fullSync a1) as [u1 a2]. apply C.
      * apply C.
    + rewrite alone_bind, alone_call. rewrite state_run. by destruct (on_metrics _ a1).
    + rewrite alone_bind, alone_call. rewrite state_run. destruct (on_metrics _ a1) as [u1 a2].
      rewrite alone_bind, alone_markAuthzOK. rewrite state_run. destruct (markAuthzOK a2) as [u2 a3].
      destruct (_ && _); [|done]. rewrite alone_bind, alone_clearForce. unfold mbind, state_bind. by destruct (clearForce true l a3).
    + rewrite alone_bind, alone_markAuthzOK. rewrite state_run. by destruct (markAuthzOK a1).
    + rewrite alone_bind, alone_call. rewrite state_run. by destruct (on_metrics _ a1).
  - rewrite alone_bind, alone_call. rewrite state_run. destruct (on_metrics syncErr a) as [u a1].
    rewrite alone_bind, alone_graceCheck. rewrite state_run. by destruct (graceCheck a1).
Qed.

(** The three loops of [Agent] and the one of [AgentWg]. *)
Lemma alone_runSync l a : alone h (runSync_p l) a = runSync_iter (fun q => h _ (net_authz q)) l a.
Proof.
  unfold runSync_p, runSync_iter. rewrite alone_bind, alone_syncRequest. rewrite state_run.
  destruct (syncRequest l a) as [x a1]. rewrite alone_bind. cbn [ask alone]. apply alone_syncHandle.
Qed.

Lemma alone_collect a : alone h collectAndBuffer_p a = collectAndBuffer a.
Proof.
  unfold collectAndBuffer_p, collectAndBuffer. rewrite alone_bind, alone_call. rewrite state_run.
  destruct (on_fw ReadAcct a) as [[cur|e] a1]; [|done]. rewrite alone_bind, alone_call. rewrite state_run.
  destruct (gets a_services a1) as [sv a2]. rewrite alone_bind, alone_call. rewrite state_run.
  destruct (counterEpoch a2) as [ep a3]. by rewrite alone_call.
Qed.

Lemma alone_gcAcct addrs a : alone h (gcAcct_p addrs) a = gcAcct addrs a.
Proof. unfold gcAcct_p, gcAcct. both. destruct (on_fw ReadAcct a) as [[cur|e] a1]; [|done]. both. by destruct (on_fw _ a1). Qed.

Lemma alone_applyRevocations revoke a : alone h (applyRevocations_p revoke) a = applyRevocations revoke a.
Proof.
  unfold applyRevocations_p, applyRevocations. destruct revoke as [|x r]; [done|]. rewrite alone_bind, alone_presentOnly. rewrite state_run.
  destruct (presentOnly _ a) as [[del|e] a1]; [|done]. rewrite alone_bind, alone_call. rewrite state_run.
  destruct (on_fw _ a1) as [[u|e] a2]; [|done]. apply alone_gcAcct.
Qed.

Lemma alone_flush n a : alone h (flush_p n) a = (tt, (flushBuffer_loop n (fun r => h _ (net_usage r)) a).2).
Proof.
  revert a. induction n as [|n IH]; intros a; [done|]. cbn [flush_p flushBuffer_loop]. rewrite alone_bind, alone_call, state_run.
  destruct (on_store snapshotRuntime a) as [snap a1]. destruct (rt_BufferedUsage snap) as [|report rest]; [done|].
  rewrite alone_bind. cbn [ask alone]. destruct (h _ (net_usage report)) as [ack|]; [|done].
  rewrite alone_bind, alone_call, state_run. destruct (on_metrics usageSentInc a1) as [u a2].
  rewrite alone_bind, alone_applyRevocations, state_run. destruct (applyRevocations _ a2) as [u2 a3].
  rewrite alone_bind, alone_call, state_run. destruct (on_store (withRuntime _) a3) as [[x [u4|e]] a4]; [|done]. cbn [snd].
  rewrite IH, state_run. by destruct (flushBuffer_loop n _ a4).
Qed.

Lemma alone_runUsage a : alone h runUsage_p a = runUsage_iter (fun r => h _ (net_usage r)) a.
Proof.
  unfold runUsage_p, runUsage_iter. rewrite alone_bind, alone_collect, state_run. destruct (collectAndBuffer a) as [r a1].
  rewrite alone_bind, state_run.
  assert (E : alone h (match r with Ok _ => mret tt | Err _ => call (on_metrics collectErr) end) a1 =
    (match r with Ok _ => mret tt | Err _ => on_metrics collectErr end) a1) by (destruct r; [done|apply alone_call]). rewrite E.
  match goal with |- (let '(_, _) := ?x in _) = _ => destruct x as [u a2] end. rewrite alone_bind, state_run. unfold flushBuffer_p, flushBuffer.
  rewrite alone_bind, alone_call. cbn [gets]. rewrite alone_flush. destruct (flushBuffer_loop _ _ a2) as [sent a3]. cbn [snd].
  rewrite alone_bind, alone_call, state_run. destruct (on_store snapshotRuntime a3) as [rt a4].
  rewrite alone_bind, alone_call, state_run. destruct (on_metrics _ a4) as [u5 a5]. by rewrite alone_call.
Qed.

Lemma alone_heartbeatBuild a : alone h heartbeatBuild_p a = heartbeatBuild a.
Proof.
  unfold heartbeatBuild_p, heartbeatBuild. rewrite alone_bind, alone_call, state_run. destruct (on_store snapshotRuntime a) as [rt a1].
  rewrite alone_bind, alone_call, state_run. destruct (on_fw ListAuthorized a1) as [r a2].
  rewrite alone_bind, state_run.
  assert (E : forall a2, alone h (match r with Ok set => call (on_metrics (setAuthorized (Z.of_nat (size set)))) ;; mret (Z.of_nat (size set), OfSet set)
                                  | Err _ => mret (-1, []) end) a2 =
    (match r with Ok set => on_metrics (setAuthorized (Z.of_nat (size set))) ;; mret (Z.of_nat (size set), OfSet set)
                                  | Err _ => mret (-1, []) end) a2).
  { intros a'. destruct r; [|done]. rewrite alone_bind, alone_call, state_run. by destruct (on_metrics _ a'). }
  rewrite E. match goal with |- (let '(_, _) := ?m in _) = _ => destruct m as [x a3] end. rewrite alone_bind, alone_call, state_run. cbn [get gets].
  rewrite alone_bind, state_run. destruct (a_wg a3) as [w|]; [|done]. rewrite alone_bind, alone_call, state_run.
  assert (Hc : a_conf (wgPublicKey w a3).2 = a_conf a3).
  { unfold wgPublicKey. both. destruct (negb _); [done|]. destruct (PublicKey w) as [[pub|e] w']; done. }
  destruct (wgPublicKey w a3) as [[pub|e] a4]; [|done]. cbn [snd] in Hc. both. by rewrite Hc.
Qed.

Lemma alone_runHeartbeat a : alone h runHeartbeat_p a = runHeartbeat_iter (fun r => h _ (net_heartbeat r)) a.
Proof.
  unfold runHeartbeat_p, runHeartbeat_iter. rewrite alone_bind, alone_heartbeatBuild, state_run. destruct (heartbeatBuild a) as [req a1].
  rewrite alone_bind. cbn [ask alone]. destruct (h _ (net_heartbeat req)) as [resp|]; [|done].
  rewrite alone_bind, alone_call, state_run. destruct (applyConfig _ a1) as [u a2].
  rewrite alone_bind, alone_call, state_run. destruct (checkWgConfig _ a2) as [u3 a3]. destruct (hb_Resync resp); [apply alone_call|done].
Qed.

Lemma alone_runWgSync w l a : a_wg a = Some w ->
  alone h (runWgSync_p l) a = runWgSync_iter (fun e => h _ (net_wg e)) w l a.
Proof.
  intros Hw. unfold runWgSync_p, runWgSync_iter. rewrite alone_bind, alone_call, state_run.
  assert (E : a_wg (wgRequest l a).2 = Some w) by (unfold wgRequest; both; destruct (0 <? _); [|done]; both; done).
  destruct (wgRequest l a) as [etag a1]. cbn [snd] in E. rewrite alone_bind. cbn [ask alone].
  rewrite alone_bind, alone_call. cbn [gets]. rewrite E. apply alone_call.
Qed.

End Alone.

End Run.
End Run.

(** * agent: what holds however the loops interleave

    The kernel set of a running agent contains nothing but what it held at the start
    and what answers have granted, at every moment, between any two calls of the
    loops. *)

Import Authzhash Run.

Module RunFacts.

Section RunFacts.
Context `{MI : MapIter} `{FW : Firewall} `{WG : WgIface}.
Implicit Types (a : Agent) (G : gset Addr).

(** ** Calls that leave the kernel set *)

Definition quiet {B} (m : State Agent B) : Prop := forall a, kernel (m a).2 = kernel a.

Lemma ret_quiet {B} (x : B) : quiet (mret x).
Proof. done. Qed.

Lemma bind_quiet {B C} (m : State Agent B) (f : B -> State Agent C) : quiet m -> (forall x, quiet (f x)) -> quiet (m ≫= f).
Proof. intros Hm Hf a. rewrite state_run. pose proof (Hm a) as H. destruct (m a) as [x a']. cbn [snd] in H. rewrite Hf. exact H. Qed.

Lemma quiet_store {B} (m : State store B) : quiet (on_store m).
Proof. intros a. unfold on_store, embed. by destruct (m (a_store a)). Qed.

Lemma quiet_metrics f : quiet (on_metrics f).
Proof. intros a. unfold on_metrics. repeat run_state. by repeat case_match. Qed.

Lemma quiet_now : quiet now.
Proof. intros a. done. Qed.

Lemma quiet_randID : quiet randID.
Proof. intros a. done. Qed.

Lemma quiet_peek {B} (m : State Agent B) : quiet (peek m).
Proof. done. Qed.

Lemma quiet_get : quiet get.
Proof. done. Qed.

Lemma quiet_gets {B} (f : Agent -> B) : quiet (gets f).
Proof. done. Qed.

Lemma quiet_modify f : (forall a, a_fw (f a) = a_fw a) -> quiet (modify f).
Proof. intros H a. unfold kernel. cbn. by rewrite H. Qed.

Lemma quiet_list : quiet (on_fw ListAuthorized).
Proof. intros a. destruct (on_fw ListAuthorized a) as [r a'] eqn:E. by apply list_spec in E as (f & -> & Hf & _). Qed.

Lemma quiet_acct : quiet (on_fw ReadAcct).
Proof. intros a. destruct (on_fw ReadAcct a) as [r a'] eqn:E. by apply acct_spec in E as (f & -> & Hf & _). Qed.

Lemma quiet_delete keys : quiet (on_fw (DeleteAcct keys)).
Proof. intros a. destruct (on_fw (DeleteAcct keys) a) as [r a'] eqn:E. by apply delete_spec in E as (f & -> & Hf & _). Qed.

(** Programs built from binds and matches. *)
Ltac quiet_step :=
  first [ done | apply bind_quiet; [|intros ?] | apply quiet_store | apply quiet_metrics | apply quiet_now | apply quiet_randID | apply quiet_peek
        | apply quiet_get | apply quiet_gets | apply quiet_list | apply quiet_acct | apply quiet_delete | apply ret_quiet
        | apply quiet_modify; done | progress cbn beta iota zeta | case_match ].
Ltac quiet := repeat quiet_step.

Lemma quiet_takeResync : quiet takeResync.
Proof. unfold takeResync. quiet. Qed.

Lemma quiet_grace_over : quiet grace_over.
Proof. unfold grace_over. quiet. Qed.

Lemma quiet_bufferReport cur sv ep : quiet (bufferReport cur sv ep).
Proof. unfold bufferReport, useScripts. quiet. Qed.

Lemma quiet_applyConfig cfg : quiet (applyConfig cfg).
Proof. apply quiet_modify. intros a. by repeat case_match. Qed.

Lemma quiet_checkWgConfig cfg : quiet (checkWgConfig cfg).
Proof. apply quiet_modify. intros a. by repeat case_match. Qed.

Lemma quiet_wgPublicKey w : quiet (wgPublicKey w).
Proof. unfold wgPublicKey. quiet. Qed.

Lemma quiet_wgRequest l : quiet (wgRequest l).
Proof. unfold wgRequest. quiet. Qed.

Lemma quiet_wgHandle w l etag answer : quiet (wgHandle w l etag answer).
Proof. unfold wgHandle, applyWgPeers. quiet. Qed.

(** ** Programs that admit only what they are granted *)

(** With [G] granted so far, no call of the program puts anything else into the set. *)
Fixpoint admits {A} (G : gset Addr) (p : prog A) : Prop :=
  match p with
  | p_ret _ => True
  | p_call m k => (forall a, kernel (m a).2 ⊆ kernel a ∪ G) /\ forall b, admits G (k b)
  | p_net e k => forall r, admits (G ∪ grants e r) (k r)
  end.

Lemma admits_mono {A} (p : prog A) : forall G G', G ⊆ G' -> admits G p -> admits G' p.
Proof.
  induction p as [x|B m k IH|R e k IH]; intros G G' HG; cbn [admits]; [done| |].
  - intros [H1 H2]. split; [intros a; etrans; [apply H1|by apply union_mono_l]|]. intros b. by eapply IH.
  - intros H r. eapply IH; [|apply H]. by apply union_mono_r.
Qed.

Lemma admits_bind {A B} (p : prog A) (f : A -> prog B) : forall G,
  admits G p -> (forall G' x, G ⊆ G' -> admits G' (f x)) -> admits G (p ≫= f).
Proof.
  unfold mbind, prog_bind. induction p as [x|C m k IH|R e k IH]; intros G Hp Hf; cbn [p_bind admits] in *; [by apply Hf| |].
  - destruct Hp as [H1 H2]. split; [done|]. intros b. by apply IH.
  - intros r. apply IH; [apply Hp|]. intros G' x HG. apply Hf. etrans; [apply union_subseteq_l|exact HG].
Qed.

Lemma admits_quiet {B} (m : State Agent B) G : quiet m -> admits G (call m).
Proof. intros Hm. cbn. split; [|done]. intros a. rewrite Hm. apply union_subseteq_l. Qed.

Lemma admits_apply add del G : list_to_set add ⊆ G -> admits G (call (on_fw (ApplyAuthorized add del))).
Proof.
  intros Ha. cbn. split; [|done]. intros a. destruct (on_fw _ a) as [r a'] eqn:E. apply apply_spec in E as (f & -> & _ & Hf & _).
  change (kernel (r, set_fw f a).2) with (fw_set f). rewrite Hf. destruct (is_ok r); set_solver.
Qed.

Ltac admits_step :=
  first [ done
        | apply admits_bind; [|intros ? ? ?]
        | apply admits_quiet; solve [quiet_step; quiet | apply quiet_takeResync | apply quiet_grace_over | apply quiet_bufferReport | apply quiet_applyConfig
                                    | apply quiet_checkWgConfig | apply quiet_wgPublicKey | apply quiet_wgRequest | apply quiet_wgHandle]
        | apply admits_apply; apply empty_subseteq
        | progress cbn beta iota zeta
        | case_match ].
Ltac admits := repeat admits_step.

Lemma admits_presentOnly del G : admits G (presentOnly_p del).
Proof. unfold presentOnly_p. admits. Qed.

Lemma admits_applyAndAdvance add del rev G : list_to_set add ⊆ G -> admits G (applyAndAdvance_p add del rev).
Proof. intros Ha. unfold applyAndAdvance_p. apply admits_bind; [by apply admits_apply|]. intros G' r HG. admits. Qed.

Lemma admits_applyAuthz q resp G : grants (net_authz q) (Ok resp) ⊆ G -> admits G (applyAuthz_p resp).
Proof.
  unfold applyAuthz_p, grants. intros Hg. destruct (az_Full resp).
  - apply admits_bind; [admits|]. intros G1 [current|e] HG1; [|done]. destruct (diffAuthorized _ _) as [add del] eqn:E.
    apply admits_bind; [admits|]. intros G2 [] HG2; [done|]. apply admits_applyAndAdvance. intros x Hx%elem_of_list_to_set.
    assert (Hin : x ∈ (diffAuthorized current (list_to_set (map am_Addr (az_Addresses resp)))).1) by (by rewrite E).
    apply elem_of_diff_add in Hin as [Hin _]. set_solver.
  - apply admits_bind; [admits|]. intros G1 cur HG1. destruct (_ <? _); [done|].
    apply admits_bind; [apply admits_presentOnly|]. intros G2 [del|e] HG2; [|done]. apply admits_applyAndAdvance. set_solver.
Qed.

Lemma admits_markAuthzOK G : admits G markAuthzOK_p.
Proof. unfold markAuthzOK_p. admits. Qed.

Lemma admits_graceCheck G : admits G graceCheck_p.
Proof. unfold graceCheck_p. admits. Qed.

Lemma admits_clearForce c l G : admits G (clearForce_p c l).
Proof. unfold clearForce_p. admits. Qed.

Ltac admits_tail := repeat first [apply admits_markAuthzOK | apply admits_graceCheck | apply admits_clearForce | admits_step].

Lemma admits_syncHandle l persisted q answer G : grants (net_authz q) answer ⊆ G -> admits G (syncHandle_p l persisted answer).
Proof.
  intros Hg. unfold syncHandle_p. destruct answer as [resp|[]]; [|admits_tail..].
  apply admits_bind; [by apply (admits_applyAuthz q)|]. intros G1 [u|[]] HG; admits_tail.
Qed.

Lemma admits_ask {R B} (e : net R) (f : R -> prog B) G : (forall r, admits (G ∪ grants e r) (f r)) -> admits G (ask e ≫= f).
Proof. intros H. exact H. Qed.

Lemma admits_runSync l G : admits G (runSync_p l).
Proof.
  unfold runSync_p. apply admits_bind; [unfold syncRequest_p; admits|]. intros G1 x HG1. apply admits_ask. intros r.
  apply (admits_syncHandle _ _ x.2). apply union_subseteq_r.
Qed.

Lemma admits_applyRevocations revoke G : admits G (applyRevocations_p revoke).
Proof.
  unfold applyRevocations_p. destruct revoke as [|x l]; [done|]. apply admits_bind; [apply admits_presentOnly|].
  intros G1 [del|e] HG1; [|done]. apply admits_bind; [apply admits_apply; apply empty_subseteq|]. intros G2 [u|e] HG2; [|done].
  unfold gcAcct_p. admits.
Qed.

Lemma admits_flush n G : admits G (flush_p n).
Proof.
  revert G. induction n as [|n IH]; intros G; [done|]. cbn [flush_p]. apply admits_bind; [admits|]. intros G1 snap HG1.
  destruct (rt_BufferedUsage snap) as [|report l]; [done|]. apply admits_ask. intros [ack|]; [|done].
  apply admits_bind; [admits|]. intros G2 u HG2. apply admits_bind; [apply admits_applyRevocations|]. intros G3 u3 HG3.
  apply admits_bind; [admits|]. intros G4 [x [u4|e]] HG4; [apply IH|done].
Qed.

Lemma admits_runUsage G : admits G runUsage_p.
Proof.
  unfold runUsage_p, collectAndBuffer_p, flushBuffer_p. apply admits_bind; [admits|]. intros G1 r HG1. apply admits_bind; [admits|]. intros G2 u HG2.
  apply admits_bind; [apply admits_bind; [admits|]; intros; apply admits_flush|]. intros G3 u3 HG3. admits.
Qed.

Lemma admits_runHeartbeat G : admits G runHeartbeat_p.
Proof.
  unfold runHeartbeat_p, heartbeatBuild_p. apply admits_bind; [admits|]. intros G1 req HG1. apply admits_ask. intros [resp|]; [|done]. admits.
Qed.

Lemma admits_runWgSync l G : admits G (runWgSync_p l).
Proof. unfold runWgSync_p. apply admits_bind; [admits|]. intros G1 etag HG1. apply admits_ask. intros r. admits. Qed.

(** ** Every interleaving *)

Definition goroutine_admits (G : gset Addr) (g : goroutine) : Prop :=
  match g with
  | g_sync p => admits G p
  | g_usage p => admits G p
  | g_heartbeat p => admits G p
  | g_wg p => admits G p
  | g_ended => True
  end.

Lemma goroutine_admits_mono G G' g : G ⊆ G' -> goroutine_admits G g -> goroutine_admits G' g.
Proof. destruct g; cbn; [by apply admits_mono..|done]. Qed.

Lemma prog_step_admits answers {A} a (p : prog A) g p' a' G : prog_step answers a p g p' a' -> admits G p ->
  kernel a' ⊆ kernel a ∪ G /\ admits (G ∪ g) p'.
Proof.
  intros H Hp. destruct H as [B m k|R e k r _]; cbn [admits] in Hp.
  - destruct Hp as [H1 H2]. split; [apply H1|]. rewrite union_empty_r_L. apply H2.
  - split; [apply union_subseteq_l|]. apply Hp.
Qed.

Lemma goroutine_step_admits answers a t g t' a' G : goroutine_step answers a t g t' a' -> goroutine_admits G t ->
  kernel a' ⊆ kernel a ∪ G /\ goroutine_admits (G ∪ g) t'.
Proof.
  intros H Ht. destruct H as [p g p' a' H|p g p' a' H|p g p' a' H|p g p' a' H|l|z|u|l|x]; cbn [goroutine_admits] in *;
    try (by eapply prog_step_admits); (split; [apply union_subseteq_l|]).
  - apply admits_runSync.
  - apply admits_runUsage.
  - apply admits_runHeartbeat.
  - apply admits_runWgSync.
  - done.
Qed.

(** The agent with its goroutines; [w_granted] is what answers have granted so far. *)
Record world := { w_agent : Agent; w_gos : list goroutine; w_granted : gset Addr }.

(** A step of a goroutine, or a kernel set that lost entries by another hand (a
    reload of the firewall). *)
Inductive world_step (answers : forall R, net R -> R -> Prop) (w : world) : world -> Prop :=
| ws_go i t g t' a' : w_gos w !! i = Some t -> goroutine_step answers (w_agent w) t g t' a' ->
    world_step answers w {| w_agent := a'; w_gos := <[i := t']> (w_gos w); w_granted := w_granted w ∪ g |}
| ws_outside f : fw_set f ⊆ kernel (w_agent w) ->
    world_step answers w {| w_agent := set_fw f (w_agent w); w_gos := w_gos w; w_granted := w_granted w |}.

Definition world_ok (K0 : gset Addr) (w : world) : Prop :=
  kernel (w_agent w) ⊆ K0 ∪ w_granted w /\ Forall (goroutine_admits (K0 ∪ w_granted w)) (w_gos w).

Lemma world_step_ok answers K0 w w' : world_step answers w w' -> world_ok K0 w -> world_ok K0 w'.
Proof.
  intros H [Hk Hg]. destruct H as [i t g t' a' Hi H|f Hf].
  - assert (Ht : goroutine_admits (K0 ∪ w_granted w) t) by (rewrite Forall_lookup in Hg; by eapply Hg).
    destruct (goroutine_step_admits _ _ _ _ _ _ _ H Ht) as [H1 H2]. rewrite <- union_assoc_L in H2. split; cbn [w_agent w_granted w_gos].
    + rewrite union_assoc_L. etrans; [exact H1|]. apply union_least; [|apply union_subseteq_l]. etrans; [exact Hk|apply union_subseteq_l].
    + apply Forall_insert; [|done]. eapply Forall_impl; [exact Hg|]. intros x. apply goroutine_admits_mono. rewrite union_assoc_L. apply union_subseteq_l.
  - split; [|done]. cbn. etrans; [exact Hf|exact Hk].
Qed.

Lemma world_steps_ok answers K0 w w' : rtc (world_step answers) w w' -> world_ok K0 w -> world_ok K0 w'.
Proof. induction 1 as [|w w1 w' H _ IH]; [done|]. intros Hw. by apply IH, (world_step_ok answers K0 w). Qed.

Lemma Run_world keypair enroll a0 gos a : Run keypair enroll a0 = (Ok gos, a) ->
  world_ok (kernel a0) {| w_agent := a; w_gos := gos; w_granted := ∅ |}.
Proof.
  unfold Run. rewrite state_run.
  assert (Qe : quiet (ensureEnrolled keypair enroll)) by (unfold ensureEnrolled; quiet).
  pose proof (Qe a0) as H1. destruct (ensureEnrolled keypair enroll a0) as [[x|e] a1]; [|done]. cbn [snd] in H1. rewrite state_run.
  assert (Qi : quiet initLastAuthzOK) by (unfold initLastAuthzOK; quiet).
  pose proof (Qi a1) as H2. destruct (initLastAuthzOK a1) as [u a2]. cbn [snd] in H2. cbn [gets]. rewrite state_run. cbn [gets]. intros [= <- <-].
  split; cbn [w_agent w_gos w_granted]; [rewrite H2, H1; apply union_subseteq_l|].
  repeat (apply Forall_cons; split); [apply admits_runSync|apply admits_runUsage|apply admits_runHeartbeat|].
  destruct (a_wg a2); [apply Forall_singleton, admits_runWgSync|constructor].
Qed.

(** However the loops interleave, and whatever the backend answers, the kernel set
    holds nothing but what it held at the start and what answers have granted. *)
Theorem run_admits_only_granted answers keypair enroll a0 gos a w : Run keypair enroll a0 = (Ok gos, a) ->
  rtc (world_step answers) {| w_agent := a; w_gos := gos; w_granted := ∅ |} w ->
  kernel (w_agent w) ⊆ kernel a0 ∪ w_granted w.
Proof. intros H Hs. eapply world_steps_ok; [exact Hs|]. by eapply Run_world. Qed.

End RunFacts.
End RunFacts.
