(* ===== verification/AgentNft.v ===== *)
(** * agent: the nft implementation of the firewall

    Models the [nftFirewall] of agent/firewall.go: the scripts it feeds to nft and
    the decoding of what [nft -j list set] prints.  The command is a parameter; its
    output is a JSON value. *)

From S2P Require Import Prelude GoStrings GoJson Netip Authzhash AgentTypes AgentUsage AgentWg.
Import Authzhash Json.

Module Nft.

(** ** The output of [nft -j list set] *)

(** [nftElemWrapper]: an object with its value and counter, or anything else.  A
    missing value is an empty [json.RawMessage], which no [Unmarshal] accepts. *)
Inductive nftElemWrapper :=
| elem_obj (val : option jvalue) (counter : option Z)
| elem_bare (v : jvalue).

(** The pointer to the counter: [None] is a type error. *)
Definition counter_of (v : jvalue) : option (option Z) :=
  match v with
  | jnull => Some None
  | jobj l => Some <$> as_uint 64 (or_null (field (bs "bytes") l))
  | _ => None
  end.

Definition unmarshalElem (v : jvalue) : nftElemWrapper :=
  match v with
  | jobj l =>
      match or_null (field (bs "elem") l) with
      | jobj e =>
          match counter_of (or_null (field (bs "counter") e)) with
          | Some c => elem_obj (field (bs "val") e) c
          | None => elem_bare v
          end
      | _ => elem_bare v
      end
  | _ => elem_bare v
  end.

(** One item: the elements of its set, if it is one; [None] is a type error. *)
Definition unmarshalItem (v : jvalue) : option (option (list nftElemWrapper)) :=
  match v with
  | jnull => Some None
  | jobj l =>
      match or_null (field (bs "set") l) with
      | jnull => Some None
      | jobj s =>
          match as_string (or_null (field (bs "name") s)), or_null (field (bs "elem") s) with
          | Some _, jnull => Some (Some [])
          | Some _, jarr es => Some (Some (map unmarshalElem es))
          | _, _ => None
          end
      | _ => None
      end
  | _ => None
  end.

(** [nftJSON] *)
Definition unmarshalNft (v : jvalue) : option (list (option (list nftElemWrapper))) :=
  match v with
  | jnull => Some []
  | jobj l =>
      match or_null (field (bs "nftables") l) with
      | jnull => Some []
      | jarr items => mapM unmarshalItem items
      | _ => None
      end
  | _ => None
  end.

(** The elements of every set of the document, in order. *)
Definition set_elems (doc : list (option (list nftElemWrapper))) : list nftElemWrapper :=
  doc ≫= fun item => default [] item.

(** ** Elements *)

Definition authorizedElem (e : nftElemWrapper) : option Addr :=
  raw ← match e with elem_obj v _ => v | elem_bare v => Some v end;
  s ← as_string raw;
  ParseAddr s.

Definition concatParts (val : option jvalue) : option (list jvalue) :=
  match val with
  | Some (jobj l) =>
      match field (bs "concat") l with
      | Some (jarr parts) => Some parts
      | _ => None
      end
  | Some (jarr arr) => Some arr
  | Some jnull => Some []
  | _ => None
  end.

(** [netip.ParseAddrPort("[::]:" + s)]: its port. *)
Definition port_of_text (s : gostr) : option Z :=
  if existsb (Z.eqb 58) s then None else
  match parse_digits 10 s with
  | Some n => if n <? 2 ^ 16 then Some n else None
  | None => None
  end.

Definition parsePort (raw : jvalue) : option Z :=
  match as_uint 16 raw with
  | Some n => Some n
  | None => s ← as_string raw; port_of_text s
  end.

Definition acctElem (e : nftElemWrapper) : option (acctKey * Z) :=
  match e with
  | elem_obj val (Some bytes) =>
      match concatParts val with
      | Some [a; p] =>
          addrStr ← as_string a;
          port ← parsePort p;
          addr ← ParseAddr addrStr;
          Some ({| ak_Addr := addr; ak_Port := port |}, bytes)
      | _ => None
      end
  | _ => None
  end.

(** ** Statements *)

Definition joinAddrs (addrs : list Addr) : gostr := Join (bs ", ") (sort_Strings (map addr_String addrs)).

(** [fmt.Sprintf("%s element %s %s { %s }\n", ...)] *)
Definition element_stmt (verb table set items : gostr) : gostr :=
  verb ++ bs " element " ++ table ++ bs " " ++ set ++ bs " { " ++ items ++ bs " }" ++ [10].

Definition acct_item (k : acctKey) : gostr := addr_String (ak_Addr k) ++ bs " . " ++ FormatInt (ak_Port k).

Definition authorized_script (table : gostr) (add del : list Addr) : gostr :=
  (match add with [] => [] | _ => element_stmt (bs "add") table (bs "authorized") (joinAddrs add) end) ++
  (match del with [] => [] | _ => element_stmt (bs "delete") table (bs "authorized") (joinAddrs del) end).

Definition acct_script (table : gostr) (keys : list acctKey) : gostr :=
  element_stmt (bs "delete") table (bs "acct") (Join (bs ", ") (map acct_item keys)).

(** [strings.Fields] *)
Fixpoint fields_from (word : gostr) (s : gostr) : list gostr :=
  match s with
  | [] => match word with [] => [] | _ => [word] end
  | c :: r => if is_space c then match word with [] => fields_from [] r | _ => word :: fields_from [] r end
              else fields_from (word ++ [c]) r
  end.
Definition Fields (s : gostr) : list gostr := fields_from [] s.

(** ** The implementation *)

Section NftFirewall.
(** [run stdin args] is the command; on success its output, decoded ([None] is
    text that is not JSON). *)
Context {K : Type} (run : gostr -> list gostr -> State K (result fw_err (option jvalue))) (table : gostr).

Definition listSet (name : gostr) : State K (result fw_err (list (option (list nftElemWrapper)))) :=
  match Fields table with
  | [f0; f1] =>
      r ← run [] [bs "-j"; bs "list"; bs "set"; f0; f1; name];
      match r with
      | Err e => mret (Err e)
      | Ok out => mret (of_option FwError (v ← out; unmarshalNft v))
      end
  | _ => mret (Err FwError)
  end.

Definition nft_ListAuthorized : State K (result fw_err (gset Addr)) :=
  r ← listSet (bs "authorized");
  match r with
  | Err e => mret (Err e)
  | Ok parsed => mret (Ok (list_to_set (omap authorizedElem (set_elems parsed))))
  end.

Definition nft_ApplyAuthorized (add del : list Addr) : State K (result fw_err unit) :=
  match add, del with
  | [], [] => mret (Ok tt)
  | _, _ =>
      r ← run (authorized_script table add del) [bs "-f"; bs "-"];
      match r with
      | Err e => mret (Err e)
      | Ok _ => mret (Ok tt)
      end
  end.

Definition nft_ReadAcct : State K (result fw_err (gmap acctKey Z)) :=
  r ← listSet (bs "acct");
  match r with
  | Err e => mret (Err e)
  | Ok parsed => mret (Ok (foldl (fun m kv => <[kv.1 := kv.2]> m) ∅ (omap acctElem (set_elems parsed))))
  end.

Definition nft_DeleteAcct (keys : list acctKey) : State K (result fw_err unit) :=
  match keys with
  | [] => mret (Ok tt)
  | _ =>
      r ← run (acct_script table keys) [bs "-f"; bs "-"];
      match r with
      | Err e => mret (Err e)
      | Ok _ => mret (Ok tt)
      end
  end.
End NftFirewall.

End Nft.
