(* ===== verification/AgentNftFacts.v ===== *)
(** * agent: theorems about the nft firewall

    [NftKernel] states what is used of nft: how it prints its sets and what it does
    with a script.  Against it, the nft implementation meets the contract that the
    interface [Firewall] states, for the addresses the sets can hold. *)

From S2P Require Import Prelude GoStrings GoJson Netip Authzhash AgentTypes AgentUsage AgentWg AgentWgFacts AgentNft.
Import Authzhash Json Nft.

Module NftFacts.

(** ** nft *)

(** The tables of the exit: the set authorized and the counters of the set acct. *)
Definition tables : Type := gset Addr * gmap acctKey Z.

Inductive stmt :=
| add_authorized (l : list Addr)
| del_authorized (l : list Addr)
| del_acct (l : list acctKey).

Definition key_ok (k : acctKey) : Prop := plain6 (ak_Addr k) /\ in_u16 (ak_Port k).

Definition stmt_ok (s : stmt) : Prop :=
  match s with
  | add_authorized l | del_authorized l => l <> [] /\ Forall plain6 l
  | del_acct l => l <> [] /\ Forall key_ok l
  end.

Definition stmt_text (table : gostr) (s : stmt) : gostr :=
  match s with
  | add_authorized l => element_stmt (bs "add") table (bs "authorized") (Join (bs ", ") (map addr_String l))
  | del_authorized l => element_stmt (bs "delete") table (bs "authorized") (Join (bs ", ") (map addr_String l))
  | del_acct l => element_stmt (bs "delete") table (bs "acct") (Join (bs ", ") (map acct_item l))
  end.

Definition script_text (table : gostr) (l : list stmt) : gostr := l ≫= stmt_text table.

(** Deleting an absent element, or one twice, fails. *)
Definition exec (s : stmt) (t : tables) : option tables :=
  match s with
  | add_authorized l => Some (t.1 ∪ list_to_set l, t.2)
  | del_authorized l => if bool_decide (NoDup l /\ Forall (fun a => a ∈ t.1) l) then Some (t.1 ∖ list_to_set l, t.2) else None
  | del_acct l => if bool_decide (NoDup l /\ Forall (fun k => is_Some (t.2 !! k)) l)
                  then Some (t.1, filter (fun kv => kv.1 ∉ l) t.2) else None
  end.

Fixpoint exec_all (l : list stmt) (t : tables) : option tables :=
  match l with
  | [] => Some t
  | s :: r => t ← exec s t; exec_all r t
  end.

(** A listing: the metadata, then the set with its attributes; a set without
    elements is printed without the field. *)
Definition set_doc (meta : jvalue) (attrs : list (gostr * jvalue)) (name : gostr) (elems : list jvalue) : jvalue :=
  jobj [(bs "nftables", jarr [jobj [(bs "metainfo", meta)];
    jobj [(bs "set", jobj ((bs "name", jstr name) :: attrs ++
             match elems with [] => [] | _ => [(bs "elem", jarr elems)] end))]])].

Inductive shows_addr (a : Addr) : jvalue -> Prop :=
| shows_bare : shows_addr a (jstr (addr_String a))
| shows_wrapped : shows_addr a (jobj [(bs "elem", jobj [(bs "val", jstr (addr_String a))])]).

Inductive shows_port (p : Z) : jvalue -> Prop :=
| shows_number : shows_port p (jnum p)
| shows_text : shows_port p (jstr (FormatInt p)).

Inductive shows_acct (kv : acctKey * Z) : jvalue -> Prop :=
| shows_counter packets port : shows_port (ak_Port kv.1) port ->
    shows_acct kv (jobj [(bs "elem", jobj [
      (bs "val", jobj [(bs "concat", jarr [jstr (addr_String (ak_Addr kv.1)); port])]);
      (bs "counter", jobj [(bs "packets", jnum packets); (bs "bytes", jnum kv.2)])])]).

(** The other attributes have other names. *)
Definition attrs_ok (attrs : list (gostr * jvalue)) : Prop :=
  Forall (fun kv => ToLower kv.1 <> bs "name" /\ ToLower kv.1 <> bs "elem") attrs.

Definition tables_ok (t : tables) : Prop :=
  set_Forall plain6 t.1 /\ map_Forall (fun k b => key_ok k /\ in_u64 b) t.2.

(** [nk_up] says that the command can be run and the tables are as it can hold
    them: it lists a set without changing it, and executes a script as a whole or
    not at all. *)
Class NftKernel (table : gostr) := {
  nk : Type;
  nk_tables : nk -> tables;
  nk_up : nk -> Prop;
  nk_run : gostr -> list gostr -> State nk (result fw_err (option jvalue));
  nk_names : gostr * gostr;
  nk_table : Fields table = [nk_names.1; nk_names.2];
  nk_up_ok : forall k, nk_up k -> tables_ok (nk_tables k);
  nk_list_authorized : forall k, nk_up k ->
    exists meta attrs l vs k',
      nk_run [] [bs "-j"; bs "list"; bs "set"; nk_names.1; nk_names.2; bs "authorized"] k =
        (Ok (Some (set_doc meta attrs (bs "authorized") vs)), k') /\
      nk_up k' /\ nk_tables k' = nk_tables k /\ attrs_ok attrs /\
      l ≡ₚ elements (nk_tables k).1 /\ Forall2 shows_addr l vs;
  nk_list_acct : forall k, nk_up k ->
    exists meta attrs l vs k',
      nk_run [] [bs "-j"; bs "list"; bs "set"; nk_names.1; nk_names.2; bs "acct"] k =
        (Ok (Some (set_doc meta attrs (bs "acct") vs)), k') /\
      nk_up k' /\ nk_tables k' = nk_tables k /\ attrs_ok attrs /\
      l ≡ₚ map_to_list (nk_tables k).2 /\ Forall2 shows_acct l vs;
  nk_script : forall k l, nk_up k -> l <> [] -> Forall stmt_ok l ->
    exists k', nk_up k' /\
      match exec_all l (nk_tables k) with
      | Some t => (exists out, nk_run (script_text table l) [bs "-f"; bs "-"] k = (Ok out, k')) /\ nk_tables k' = t
      | None => nk_run (script_text table l) [bs "-f"; bs "-"] k = (Err FwError, k') /\ nk_tables k' = nk_tables k
      end
}.

(** ** Reading a listing *)

Lemma plain6_parts a : plain6 a -> addr_wf a /\ zoneless a.
Proof. destruct a as [| |v z]; [done..|]. intros [-> H]. done. Qed.

Lemma authorizedElem_shown a v : plain6 a -> shows_addr a v -> authorizedElem (unmarshalElem v) = Some a.
Proof. intros [H1 H2]%plain6_parts []; cbn -[addr_String ParseAddr]; by apply ParseAddr_String. Qed.

Lemma FormatInt_no_colon p : 0 <= p -> existsb (Z.eqb 58) (FormatInt p) = false.
Proof.
  intros Hp. apply not_true_iff_false. intros (c & Hc%list_elem_of_In & <-%Z.eqb_eq)%existsb_exists.
  pose proof (FormatInt_chars p 58 Hc) as HF. lia.
Qed.

Lemma parsePort_shown p v : in_u16 p -> shows_port p v -> parsePort v = Some p.
Proof.
  intros Hp []; unfold parsePort; cbn [as_uint as_string].
  - unfold in_u16 in Hp. destruct (_ && _) eqn:E; [done|]. bool_hyps. lia.
  - cbn [mbind option_bind]. unfold port_of_text. unfold in_u16 in Hp. rewrite FormatInt_no_colon by lia.
    unfold FormatInt. rewrite (proj2 (Z.ltb_ge p 0)) by lia. rewrite parse_digits_FormatUint by lia.
    destruct (p <? 2 ^ 16) eqn:E; [done|]. bool_hyps. lia.
Qed.

Lemma acctElem_shown kv v : key_ok kv.1 -> in_u64 kv.2 -> shows_acct kv v -> acctElem (unmarshalElem v) = Some kv.
Proof.
  destruct kv as [[a p] b]. intros [Ha Hp] Hb [packets port Hs]. cbn [fst snd ak_Addr ak_Port] in *.
  apply plain6_parts in Ha as [H1 H2]. unfold in_u64 in Hb.
  assert (Eb : as_uint 64 (jnum b) = Some b) by (cbn; destruct (_ && _) eqn:E; [done|]; bool_hyps; lia).
  unfold unmarshalElem. change (or_null (field (bs "elem") _)) with
    (jobj [(bs "val", jobj [(bs "concat", jarr [jstr (addr_String a); port])]);
           (bs "counter", jobj [(bs "packets", jnum packets); (bs "bytes", jnum b)])]). cbn iota.
  change (counter_of (or_null (field (bs "counter") _))) with (Some <$> as_uint 64 (jnum b)). rewrite Eb.
  change (field (bs "val") _) with (Some (jobj [(bs "concat", jarr [jstr (addr_String a); port])])).
  cbn [fmap option_fmap option_map acctElem]. change (concatParts _) with (Some [jstr (addr_String a); port]).
  cbn [as_string mbind option_bind]. rewrite (parsePort_shown p port Hp Hs). cbn [mbind option_bind].
  rewrite ParseAddr_String by done. done.
Qed.

Lemma field_skip key k v l : ToLower k <> key -> field key ((k, v) :: l) = field key l.
Proof. intros H. unfold field. rewrite filter_cons_False by done. done. Qed.

Lemma field_skips key attrs l : Forall (fun kv => ToLower kv.1 <> key) attrs -> field key (attrs ++ l) = field key l.
Proof. induction 1 as [|[k v] r H _ IH]; [done|]. cbn [app]. by rewrite field_skip. Qed.

(** The elements of a printed document. *)
Lemma unmarshal_doc meta attrs name elems : attrs_ok attrs ->
  unmarshalNft (set_doc meta attrs name elems) = Some [None; Some (map unmarshalElem elems)].
Proof.
  intros Ha. unfold unmarshalNft, set_doc. change (or_null (field (bs "nftables") [(bs "nftables", ?x)])) with x. cbn iota.
  cbn [mapM]. change (unmarshalItem (jobj [(bs "metainfo", meta)])) with (Some (@None (list nftElemWrapper))).
  unfold unmarshalItem. change (or_null (field (bs "set") [(bs "set", ?x)])) with x. cbn iota.
  set (tl := match elems with [] => [] | _ => _ end).
  change (field (bs "name") ((bs "name", jstr name) :: attrs ++ tl)) with (Some (jstr name)).
  rewrite (field_skip (bs "elem")) by (vm_compute; discriminate).
  rewrite field_skips by (eapply Forall_weaken; [exact Ha|]; by intros ? []).
  subst tl. by destruct elems.
Qed.

Lemma omap_shown {A} (P : A -> jvalue -> Prop) (f : nftElemWrapper -> option A) l vs :
  Forall2 P l vs -> (forall x v, x ∈ l -> P x v -> f (unmarshalElem v) = Some x) -> omap f (map unmarshalElem vs) = l.
Proof.
  induction 1 as [|x v l vs Hx _ IH]; intros Hf; [done|]. cbn [map omap list_omap]. rewrite (Hf x v) by (done || by left).
  f_equal. apply IH. intros y w Hy. apply Hf. by right.
Qed.

Lemma set_elems_one l : set_elems [None; Some l] = l.
Proof. cbn. apply app_nil_r. Qed.

(** ** Scripts *)

Lemma joinAddrs_perm l : exists l', l' ≡ₚ l /\ joinAddrs l = Join (bs ", ") (map addr_String l').
Proof.
  unfold joinAddrs. destruct (Permutation_map_inv addr_String _ (sort_Strings_perm (map addr_String l))) as (l' & E & HP).
  exists l'. split; [by symmetry|]. by rewrite E.
Qed.

Definition authorized_stmts (add del : list Addr) : list stmt :=
  (match add with [] => [] | _ => [add_authorized add] end) ++ (match del with [] => [] | _ => [del_authorized del] end).

Lemma authorized_script_text table add del : exists add' del', add' ≡ₚ add /\ del' ≡ₚ del /\
  authorized_script table add del = script_text table (authorized_stmts add' del').
Proof.
  destruct (joinAddrs_perm add) as (add' & Pa & Ea), (joinAddrs_perm del) as (del' & Pd & Ed). exists add', del'.
  split; [done|]. split; [done|]. unfold authorized_script, script_text, authorized_stmts. rewrite bind_app. f_equal.
  - destruct add as [|a add]; [apply Permutation_nil_r in Pa as ->; done|].
    destruct add' as [|a' add']; [by apply Permutation_nil_l in Pa|]. rewrite Ea. cbn [mbind list_bind]. by rewrite app_nil_r.
  - destruct del as [|a del]; [apply Permutation_nil_r in Pd as ->; done|].
    destruct del' as [|a' del']; [by apply Permutation_nil_l in Pd|]. rewrite Ed. cbn [mbind list_bind]. by rewrite app_nil_r.
Qed.

(** What a batch does to the tables: members are added, then removed, unless one to
    be removed is absent or named twice. *)
Lemma exec_authorized add del (t : tables) :
  exec_all (authorized_stmts add del) t =
  if bool_decide (NoDup del /\ Forall (fun a => a ∈ t.1 ∪ list_to_set add) del)
  then Some ((t.1 ∪ list_to_set add) ∖ list_to_set del, t.2) else None.
Proof.
  assert (Hd : forall s m, exec_all (match del with [] => [] | _ => [del_authorized del] end) (s, m) =
    if bool_decide (NoDup del /\ Forall (fun a => a ∈ s) del) then Some (s ∖ list_to_set del, m) else None).
  { intros s m. destruct del as [|a del]; cbn [exec_all exec mbind option_bind fst snd].
    - rewrite bool_decide_true by (split; constructor). do 2 f_equal. by rewrite list_to_set_nil, difference_empty_L.
    - by case_bool_decide. }
  unfold authorized_stmts. destruct add as [|a add]; cbn [app exec_all].
  - rewrite (surjective_pairing t) at 1. rewrite Hd.
    assert (E : t.1 ∪ list_to_set (@nil Addr) = t.1) by (rewrite list_to_set_nil; apply union_empty_r_L). by rewrite E.
  - cbn [exec mbind option_bind]. by rewrite Hd.
Qed.

(** ** The contract *)

Section Contract.
Context (table : gostr) `{NK : NftKernel table}.
Implicit Types k : nk.

#[local] Abbreviation kernel := (nk_run (table := table)).

Lemma listSet_run name k meta attrs vs k' : attrs_ok attrs ->
  kernel [] [bs "-j"; bs "list"; bs "set"; nk_names.1; nk_names.2; name] k = (Ok (Some (set_doc meta attrs name vs)), k') ->
  listSet kernel table name k = (Ok [None; Some (map unmarshalElem vs)], k').
Proof.
  intros Ha E. unfold listSet. rewrite nk_table. unfold mbind, state_bind. rewrite E. cbn [mbind option_bind].
  rewrite unmarshal_doc by done. done.
Qed.

Lemma list_authorized_run k : nk_up k ->
  exists k', nft_ListAuthorized kernel table k = (Ok (nk_tables k).1, k') /\ nk_up k' /\ nk_tables k' = nk_tables k.
Proof.
  intros Hu. destruct (nk_up_ok k Hu) as [Hp _].
  destruct (nk_list_authorized k Hu) as (meta & attrs & l & vs & k' & E & U & T & Ha & Hl & Hs). exists k'. split; [|done].
  unfold nft_ListAuthorized, mbind, state_bind. rewrite (listSet_run _ k meta attrs vs k') by done.
  unfold mret, state_ret. do 2 f_equal. rewrite set_elems_one. rewrite (omap_shown shows_addr authorizedElem l vs Hs).
  - rewrite Hl. apply list_to_set_elements_L.
  - intros a v Hin. apply authorizedElem_shown, Hp. rewrite Hl in Hin. by apply elem_of_elements.
Qed.

Lemma read_acct_run k : nk_up k ->
  exists k', nft_ReadAcct kernel table k = (Ok (nk_tables k).2, k') /\ nk_up k' /\ nk_tables k' = nk_tables k.
Proof.
  intros Hu. destruct (nk_up_ok k Hu) as [_ Hp].
  destruct (nk_list_acct k Hu) as (meta & attrs & l & vs & k' & E & U & T & Ha & Hl & Hs). exists k'. split; [|done].
  unfold nft_ReadAcct, mbind, state_bind. rewrite (listSet_run _ k meta attrs vs k') by done.
  unfold mret, state_ret. do 2 f_equal. rewrite set_elems_one. rewrite (omap_shown shows_acct acctElem l vs Hs).
  - rewrite foldl_insert_map by (change (map fst l) with l.*1; rewrite Hl; apply NoDup_fst_map_to_list).
    rewrite <- (list_to_map_to_list (nk_tables k).2). apply list_to_map_proper; [|done]. rewrite Hl. apply NoDup_fst_map_to_list.
  - intros kv v Hin. rewrite Hl in Hin. destruct kv as [x b]. apply elem_of_map_to_list in Hin. destruct (Hp x b Hin). by apply acctElem_shown.
Qed.

Lemma apply_run add del k : nk_up k -> Forall plain6 add -> Forall plain6 del ->
  exists r k', nft_ApplyAuthorized kernel table add del k = (r, k') /\ nk_up k' /\
    (is_ok r = true <-> NoDup del /\ Forall (fun a => a ∈ (nk_tables k).1 ∪ list_to_set add) del) /\
    nk_tables k' = if is_ok r then (((nk_tables k).1 ∪ list_to_set add) ∖ list_to_set del, (nk_tables k).2) else nk_tables k.
Proof.
  intros Hu Hadd Hdel. destruct (authorized_script_text table add del) as (add' & del' & Pa & Pd & Es).
  destruct (decide (add = [] /\ del = [])) as [[-> ->]|Hne].
  - exists (Ok tt), k. split; [done|]. split; [done|]. split; [split; [split; constructor|done]|].
    cbn [is_ok]. destruct (nk_tables k) as [s m]. f_equal. cbn [fst]. by rewrite list_to_set_nil, union_empty_r_L, difference_empty_L.
  - assert (Hst : authorized_stmts add' del' <> []).
    { intros E. apply Hne. unfold authorized_stmts in E. destruct add', del'; try done.
      by apply Permutation_nil_l in Pa, Pd. }
    assert (Hok : Forall stmt_ok (authorized_stmts add' del')).
    { rewrite <- Pa in Hadd. rewrite <- Pd in Hdel. unfold authorized_stmts. destruct add', del'; cbn [app]; rewrite ?Forall_cons, ?Forall_nil; done. }
    destruct (nk_script k _ Hu Hst Hok) as (k' & U & Hx). rewrite exec_authorized, <- Es in Hx.
    rewrite (list_to_set_perm_L _ _ Pa), (list_to_set_perm_L _ _ Pd) in Hx.
    assert (Er : nft_ApplyAuthorized kernel table add del k =
      match kernel (authorized_script table add del) [bs "-f"; bs "-"] k with (Ok _, k1) => (Ok tt, k1) | (Err e, k1) => (Err e, k1) end).
    { unfold nft_ApplyAuthorized, mbind, state_bind. destruct add, del; [tauto|..]; by destruct (kernel _ _ k) as [[] ?]. }
    rewrite Er. case_bool_decide as Hc.
    + destruct Hx as [[out ->] T]. exists (Ok tt), k'. split; [done|]. split; [done|]. rewrite Pd in Hc. done.
    + destruct Hx as [-> T]. exists (Err FwError), k'. split; [done|]. split; [done|]. rewrite Pd in Hc. split; [|done]. split; [done|]. tauto.
Qed.

Lemma delete_run keys k : nk_up k -> Forall key_ok keys ->
  exists r k', nft_DeleteAcct kernel table keys k = (r, k') /\ nk_up k' /\
    (is_ok r = true <-> NoDup keys /\ Forall (fun x => is_Some ((nk_tables k).2 !! x)) keys) /\
    nk_tables k' = if is_ok r then ((nk_tables k).1, filter (fun kv => kv.1 ∉ keys) (nk_tables k).2) else nk_tables k.
Proof.
  intros Hu Hkeys. destruct keys as [|x keys].
  - exists (Ok tt), k. split; [done|]. split; [done|]. split; [split; [split; constructor|done]|]. cbn.
    destruct (nk_tables k) as [s m]. f_equal. symmetry. apply map_filter_id. intros. by apply not_elem_of_nil.
  - destruct (nk_script k [del_acct (x :: keys)] Hu) as (k' & U & Hx); [done|by rewrite Forall_cons, Forall_nil|].
    unfold script_text in Hx. cbn [mbind list_bind stmt_text exec_all exec option_bind] in Hx. rewrite app_nil_r in Hx.
    unfold nft_DeleteAcct, acct_script, mbind, state_bind. case_bool_decide as Hc; cbn [mbind option_bind] in Hx.
    + destruct Hx as [[out E] T]. rewrite E. exists (Ok tt), k'. done.
    + destruct Hx as [E T]. rewrite E. exists (Err FwError), k'. split; [done|]. split; [done|]. split; [|done]. split; [done|]. tauto.
Qed.

(** [C36] The nft firewall meets the contract of the interface, whatever order and
    shape nft prints its elements in: listing returns exactly the set and reading
    exactly the counters, without changing either; a batch is applied as a whole,
    adding then removing, or refused as a whole exactly when a member to be removed
    is absent or named twice; deleting counters likewise.  [up] is kept throughout. *)
Theorem nft_contract k : nk_up k ->
  (exists k', nft_ListAuthorized kernel table k = (Ok (nk_tables k).1, k') /\ nk_up k' /\ nk_tables k' = nk_tables k) /\
  (exists k', nft_ReadAcct kernel table k = (Ok (nk_tables k).2, k') /\ nk_up k' /\ nk_tables k' = nk_tables k) /\
  (forall add del, Forall plain6 add -> Forall plain6 del ->
     exists r k', nft_ApplyAuthorized kernel table add del k = (r, k') /\ nk_up k' /\
       (is_ok r = true <-> NoDup del /\ Forall (fun a => a ∈ (nk_tables k).1 ∪ list_to_set add) del) /\
       nk_tables k' = if is_ok r then (((nk_tables k).1 ∪ list_to_set add) ∖ list_to_set del, (nk_tables k).2) else nk_tables k) /\
  (forall keys, Forall key_ok keys ->
     exists r k', nft_DeleteAcct kernel table keys k = (r, k') /\ nk_up k' /\
       (is_ok r = true <-> NoDup keys /\ Forall (fun x => is_Some ((nk_tables k).2 !! x)) keys) /\
       nk_tables k' = if is_ok r then ((nk_tables k).1, filter (fun kv => kv.1 ∉ keys) (nk_tables k).2) else nk_tables k).
Proof.
  intros Hu. split; [by apply list_authorized_run|]. split; [by apply read_acct_run|].
  split; intros; [by apply apply_run|by apply delete_run].
Qed.
End Contract.
End NftFacts.
