(* ===== verification/AgentExamples.v ===== *)
(** * agent: concrete runs

    The theorems of [AgentFacts] applied to a concrete agent on the in-memory
    firewall: each example evaluates the code's definitions on an input that meets
    the hypotheses. *)

From S2P Require Import Prelude GoStrings Netip Authzhash AgentTypes AgentStore AgentUsage Agent AgentFacts AgentWg AgentWgFacts.
Import MemFirewall MemWg.

Definition addr_a : Addr := Addr6 (2 ^ 120) [].
Definition addr_b : Addr := Addr6 (2 ^ 120 + 1) [].
Definition addr_c : Addr := Addr6 (2 ^ 120 + 2) [].

Definition member (x : Addr) : authzMember := {| am_Addr := x; am_Account := bs "acct" |}.

Definition full_response : authzResponse :=
  {| az_Rev := 9; az_Full := true; az_Addresses := [member addr_b; member addr_c]; az_Add := []; az_Del := [];
     az_Force := false |}.
Definition empty_response : authzResponse :=
  {| az_Rev := 9; az_Full := true; az_Addresses := []; az_Add := []; az_Del := []; az_Force := false |}.
(** Removes [addr_a], and [addr_c] which is not in the set. *)
Definition delta_response : authzResponse :=
  {| az_Rev := 9; az_Full := false; az_Addresses := []; az_Add := [member addr_b]; az_Del := [addr_a; addr_c];
     az_Force := false |}.
Definition old_response : authzResponse :=
  {| az_Rev := 3; az_Full := false; az_Addresses := []; az_Add := []; az_Del := [addr_a]; az_Force := false |}.

(** 2024-01-01, at every reading. *)
Definition t0 : Z := 63839664000 * time_Second.

Definition ex_env : agentEnv :=
  {| e_nowFn := fun _ => t0; e_ticks := 0;
     e_rand := fun n => [Z.of_nat n]; e_rands := 0; e_bootID := Some (bs "b") |}.

Definition ex_key : acctKey := {| ak_Addr := addr_a; ak_Port := 1080 |}.

Definition ex_report : usageReport :=
  {| ur_ReportID := bs "r0"; ur_CounterEpoch := bs "boot-b"; ur_WindowEnd := 0;
     ur_Samples := [{| us_Service := bs "tor"; us_Addr := addr_a; us_Bytes := 5 |}] |}.

Definition ex_runtime : runtime :=
  {| rt_AuthzRev := 7; rt_CounterEpoch := bs "boot-b"; rt_Baselines := {[baselineKey ex_key := 40]};
     rt_BufferedUsage := [ex_report]; rt_LastAuthzOK := t0 - 300 * time_Minute; rt_PrimeBaselines := false |}.

Definition ex_store : store :=
  {| s_disk := (write_runtime ex_runtime
       {| d_id := empty_path; d_rt := empty_path; d_aside := []; d_faults := [] |}).2;
     s_id := None; s_rt := ex_runtime |}.

Definition ex_firewall : MemFirewall.memfw :=
  {| MemFirewall.authorized := {[addr_a]}; MemFirewall.acct := {[ex_key := 100]}; MemFirewall.faults := [] |}.

Definition ex_agent : Agent :=
  set_startedAt (t0 - 20 * time_Minute) (set_lastAuthzOK (t0 - 300 * time_Minute)
    (newAgent ex_store ex_firewall ex_env (bs "exit") (bs "token") true 10)).

(** An agent for which any deletion of most of the set is a mass revoke. *)
Definition guarded_agent : Agent :=
  {| a_store := a_store ex_agent; a_fw := a_fw ex_agent; a_wg := None;
     a_conf := {| p_nodeName := []; p_enrollToken := []; p_wgEndpoint := []; p_wgSyncEvery := 0;
                  p_fullSyncEvery := 5 * time_Minute; p_heartbeatEvery := 0; p_longPollWait := 0;
                  p_massRevokeMin := 0; p_allowMassRevoke := false; p_failClosedAfterGrace := false;
                  p_bufferCap := 0 |};
     a_env := ex_env; a_wgEtag := []; a_wgPubkey := []; a_startedAt := 0; a_cfg := a_cfg ex_agent;
     a_services := ∅; a_lastAuthzOK := 0; a_forceResync := false; a_metrics := None |}.

Lemma outcome {A B} (p : A * B) (x : A) : p.1 = x -> p = (x, p.2).
Proof. destruct p. by intros <-. Qed.

Lemma applyAuthz_full_spec_witness :
  kernel (applyAuthz full_response ex_agent).2 = desired_of full_response.
Proof.
  destruct (applyAuthz_full_spec full_response ex_agent (Ok tt) (applyAuthz full_response ex_agent).2)
    as (_ & _ & H & _); [reflexivity|reflexivity|apply outcome; vm_compute; reflexivity|exact H].
Defined.

Lemma applyAuthz_delta_spec_witness :
  kernel (applyAuthz delta_response ex_agent).2 =
  (kernel ex_agent ∪ adds_of delta_response) ∖ dels_of delta_response.
Proof.
  destruct (applyAuthz_delta_spec delta_response ex_agent (Ok tt) (applyAuthz delta_response ex_agent).2)
    as (_ & _ & H & _).
  - reflexivity.
  - apply (bool_decide_unpack _). vm_compute. exact I.
  - apply (bool_decide_unpack _). vm_compute. exact I.
  - apply outcome. vm_compute. reflexivity.
  - exact H.
Defined.

Lemma graceCheck_spec_witness : kernel (graceCheck ex_agent).2 = ∅.
Proof.
  destruct (graceCheck_spec ex_agent (graceCheck ex_agent).2) as (_ & H & _); [by apply outcome; destruct (graceCheck ex_agent).1|].
  apply H; [|reflexivity]. apply (bool_decide_unpack _). vm_compute. exact I.
Defined.



Lemma full_pull_heals_witness :
  kernel (runSync_iter (fun _ => Ok full_response) syncLoop_init ex_agent).2 = desired_of full_response.
Proof.
  apply (full_pull_heals syncLoop_init ex_agent (fun _ => Ok full_response) full_response
    (runSync_iter (fun _ => Ok full_response) syncLoop_init ex_agent).1
    (runSync_iter (fun _ => Ok full_response) syncLoop_init ex_agent).2).
  - right; left. reflexivity.
  - reflexivity.
  - reflexivity.
  - reflexivity.
  - vm_compute. intros (_ & _ & H & _). discriminate H.
  - reflexivity.
  - reflexivity.
  - apply surjective_pairing.
Defined.

Lemma mass_revoke_falls_back_witness :
  let s1 := syncHandle syncLoop_init 7 (Ok empty_response) guarded_agent in
  let s2 := syncRequest s1.1 s1.2 in
  kernel s2.2 = kernel guarded_agent /\ cursor s2.2 = 7 /\ q_full s2.1.2 = false /\ q_rev s2.1.2 = 7.
Proof.
  intros s1 s2.
  apply (mass_revoke_falls_back syncLoop_init empty_response 1 1 guarded_agent
    (applyAuthz empty_response guarded_agent).2 s1.1 s1.2 s2.1.1.1 s2.1.1.2 s2.1.2 s2.2).
  - apply outcome. vm_compute. reflexivity.
  - reflexivity.
  - vm_compute. reflexivity.
  - reflexivity.
  - vm_compute. reflexivity.
  - apply surjective_pairing.
  - vm_compute. reflexivity.
  - vm_compute. reflexivity.
  - subst s2. by destruct (syncRequest s1.1 s1.2) as [[[] ?] ?].
Defined.

Lemma regression_forces_full_witness :
  let s1 := syncHandle syncLoop_init 7 (Ok old_response) ex_agent in
  let s2 := syncRequest s1.1 s1.2 in
  kernel s2.2 = kernel ex_agent /\ cursor s2.2 = cursor ex_agent /\ a_lastAuthzOK s1.2 = clock ex_agent /\
  q_full s2.1.2 = true /\ q_rev s2.1.2 = 0.
Proof.
  intros s1 s2.
  apply (regression_forces_full syncLoop_init 7 old_response ex_agent s1.1 s1.2 s2.1.1.1 s2.1.1.2 s2.1.2 s2.2).
  - reflexivity.
  - reflexivity.
  - apply surjective_pairing.
  - subst s2. by destruct (syncRequest s1.1 s1.2) as [[[] ?] ?].
Defined.

Lemma ex_key_wf : acctKey_wf ex_key.
Proof. repeat split; vm_compute; congruence. Qed.

Lemma collectAndBuffer_spec_witness :
  kernel (collectAndBuffer ex_agent).2 = kernel ex_agent.
Proof.
  destruct (collectAndBuffer_spec ex_agent (collectAndBuffer ex_agent).1 (collectAndBuffer ex_agent).2) as (H & _).
  - reflexivity.
  - vm_compute. discriminate.
  - apply map_Forall_singleton, ex_key_wf.
  - apply surjective_pairing.
  - exact H.
Defined.

Lemma applyRevocations_spec_witness :
  kernel (applyRevocations [addr_a; addr_b] ex_agent).2 = kernel ex_agent ∖ list_to_set [addr_a; addr_b].
Proof.
  destruct (applyRevocations_spec [addr_a; addr_b] ex_agent (applyRevocations [addr_a; addr_b] ex_agent).2)
    as (_ & _ & _ & H).
  - apply outcome. by destruct (applyRevocations [addr_a; addr_b] ex_agent).1.
  - apply H; [reflexivity|]. apply (bool_decide_unpack _). vm_compute. exact I.
Defined.

Lemma flushBuffer_spec_witness :
  let post := fun _ : usageReport => Some {| ua_Ack := bs "r0"; ua_Revoke := [addr_a] |} in
  buffered (flushBuffer post ex_agent).2 = [].
Proof.
  intros post.
  destruct (flushBuffer_spec post ex_agent (flushBuffer post ex_agent).1 (flushBuffer post ex_agent).2) as (_ & _ & _ & H).
  - apply surjective_pairing.
  - apply H; [intros r; by eexists|reflexivity].
Defined.

(** ** WireGuard *)

Definition ip5 : gostr := bs "10.64.0.5/32".
Definition ip6 : gostr := bs "10.64.0.6/32".
Definition peer_of (k : gostr) (ips : list gostr) : wgPeer := {| wg_Pubkey := k; wg_AllowedIPs := ips |}.
Definition key_a : gostr := bs "AAAA".
Definition key_b : gostr := bs "BBBB".
Definition key_bad : gostr := bs "bad".

(** Another peer holds the address of [key_a], and the tool refuses [key_bad]. *)
Definition ex_wg : @wg mem_wg :=
  {| MemWg.key := Some (bs "NODEPUB="); MemWg.peers := {[key_b := peer_of key_b [ip5]]};
     MemWg.rejects := fun p => bool_decide (wg_Pubkey p = key_bad) |}.
Definition ex_table : wgPeersResponse :=
  {| wp_Etag := bs "e1";
     wp_Peers := [{| wi_Pubkey := key_a; wi_Addr := []; wi_IP4 := ip5; wi_IP6 := [] |};
                  {| wi_Pubkey := key_bad; wi_Addr := []; wi_IP4 := ip6; wi_IP6 := [] |}] |}.

Lemma ex_desired : desiredPeers ex_table = <[key_bad := peer_of key_bad [ip6]]> {[key_a := peer_of key_a [ip5]]}.
Proof. vm_compute. reflexivity. Qed.

Lemma plain_text s : s <> [] -> existsb (Z.eqb 44) s = false -> MemWg.plain s.
Proof.
  intros H1 H2. split; [done|]. intros Hin%list_elem_of_In. apply not_true_iff_false in H2. apply H2, existsb_exists.
  by exists 44.
Qed.

Lemma ex_wg_up : wg_up ex_wg.
Proof.
  apply map_Forall_singleton. split; [done|]. repeat constructor; [done|]. by apply plain_text.
Qed.

Lemma single_row k ip : ip <> [] -> existsb (Z.eqb 44) ip = false -> wg_row wg_plain (peer_of k [ip]).
Proof. intros H1 H2. repeat constructor; try done; [by apply not_elem_of_nil|by apply plain_text]. Qed.

Lemma ex_servable : servable ex_wg ex_table.
Proof.
  unfold servable. rewrite ex_desired. split.
  - apply map_Forall_insert_2; [|apply map_Forall_singleton]; intros _; by apply single_row.
  - intros k k' p p' H H' Hne ip. rewrite lookup_insert_Some, lookup_singleton_Some in H, H'.
    destruct H as [[<- <-]|(_ & <- & <-)], H' as [[<- <-]|(_ & <- & <-)]; try done;
      intros ->%list_elem_of_singleton ?%list_elem_of_singleton; done.
Qed.

(** The peer that held the address is gone, the refused row blocked nothing. *)
Lemma applyWgPeers_mirrors_witness :
  exists w', a_wg (applyWgPeers ex_wg ex_table ex_agent).2 = Some w' /\ wg_peers w' !! key_a = Some (peer_of key_a [ip5]) /\
    wg_peers w' !! key_b = None.
Proof.
  destruct (applyWgPeers_mirrors ex_table ex_wg ex_agent _ _ ex_wg_up ex_servable (surjective_pairing _))
    as (w' & H1 & _ & H2 & _). exists w'. split; [exact H1|]. rewrite ex_desired in H2. split; [exact (H2 key_a eq_refl)|exact (H2 key_b)].
Defined.

Definition dumped : list dumpPeer :=
  [{| dp_key := key_a; dp_psk := bs "(none)"; dp_endpoint := bs "[fd00::5]:40000"; dp_ips := [ip6; ip5];
      dp_rest := [bs "1700000000"; bs "100"; bs "200"; bs "25"] |};
   {| dp_key := key_b; dp_psk := bs "(none)"; dp_endpoint := bs "(none)"; dp_ips := [];
      dp_rest := [bs "0"; bs "0"; bs "0"; bs "off"] |}].

Lemma parseWgDump_dump_witness :
  parseWgDump (dump_text (bs "priv") dumped) =
  list_to_map [(key_a, peer_of key_a [ip5; ip6]); (key_b, peer_of key_b [])].
Proof.
  refine (parseWgDump_dump (bs "priv") dumped _ _ _ _).
  - apply (bool_decide_eq_true_1 _). reflexivity.
  - done.
  - repeat constructor; try done; apply (bool_decide_eq_true_1 _); reflexivity.
  - apply (bool_decide_eq_true_1 _). reflexivity.
Defined.

(** * agent: an nft of the table inet fips_exit

    An implementation of [NftKernel] that reads the statements back from the text of
    the script, and the theorems of [AgentNftFacts] applied to it. *)

From S2P Require Import GoJson AgentNft AgentNftFacts.
Import Authzhash Json Nft NftFacts.

Module MemNft.

Definition table : gostr := bs "inet fips_exit".

(** ** Reading a script *)

Fixpoint strip (p s : gostr) : option gostr :=
  match p, s with
  | [], _ => Some s
  | a :: p, b :: s => if a =? b then strip p s else None
  | _, _ => None
  end.

Definition read_items {A} (f : gostr -> option A) (r : gostr) : option (list A) :=
  mapM (fun s => f (TrimPrefix s [32])) (Split 44 (take (length r - 2) r)).

Definition read_key (s : gostr) : option acctKey :=
  match Split 32 s with
  | [a; _; p] => addr ← ParseAddr a; port ← ParseInt p; Some {| ak_Addr := addr; ak_Port := port |}
  | _ => None
  end.

Definition read_stmt (line : gostr) : option stmt :=
  match strip (bs "add element inet fips_exit authorized { ") line with
  | Some r => add_authorized <$> read_items ParseAddr r
  | None =>
      match strip (bs "delete element inet fips_exit authorized { ") line with
      | Some r => del_authorized <$> read_items ParseAddr r
      | None => r ← strip (bs "delete element inet fips_exit acct { ") line; del_acct <$> read_items read_key r
      end
  end.

Definition read_script (s : gostr) : option (list stmt) := mapM read_stmt (filter (fun l => l <> []) (Split 10 s)).

Definition run (stdin : gostr) (args : list gostr) : State tables (result fw_err (option jvalue)) := fun t =>
  let doc name vs := (Ok (Some (set_doc (jobj [(bs "json_schema_version", jnum 1)])
                                  [(bs "family", jstr (bs "inet")); (bs "table", jstr (bs "fips_exit"))] name vs)), t) in
  if bool_decide (args = [bs "-f"; bs "-"]) then
    match read_script stdin ≫= fun l => exec_all l t with
    | Some t' => (Ok None, t')
    | None => (Err FwError, t)
    end
  else if bool_decide (args = [bs "-j"; bs "list"; bs "set"; bs "inet"; bs "fips_exit"; bs "authorized"]) then
    doc (bs "authorized") (map (fun a => jstr (addr_String a)) (elements t.1))
  else if bool_decide (args = [bs "-j"; bs "list"; bs "set"; bs "inet"; bs "fips_exit"; bs "acct"]) then
    doc (bs "acct") (map (fun kv : acctKey * Z => jobj [(bs "elem", jobj [
      (bs "val", jobj [(bs "concat", jarr [jstr (addr_String (ak_Addr kv.1)); jnum (ak_Port kv.1)])]);
      (bs "counter", jobj [(bs "packets", jnum 1); (bs "bytes", jnum kv.2)])])]) (map_to_list t.2))
  else (Err FwError, t).

(** ** What is read is what was written *)

Lemma strip_app p s : strip p (p ++ s) = Some s.
Proof. induction p as [|a p IH]; [done|]. cbn. by rewrite Z.eqb_refl. Qed.

Lemma Join_comma p ps : Join (bs ", ") (p :: ps) = Join [44] (p :: map (cons 32) ps).
Proof.
  revert p. induction ps as [|q ps IH]; intros p; [done|]. cbn [map]. rewrite !Join_cons2, IH.
  destruct ps as [|r ps]; [done|]. cbn [map]. by rewrite !Join_cons2.
Qed.

Lemma TrimPrefix_none s : head s <> Some 32 -> TrimPrefix s [32] = s.
Proof.
  intros H. unfold TrimPrefix, HasPrefix. case_bool_decide as E; [|done]. destruct s as [|c s]; [done|]. cbn in E. by injection E as ->.
Qed.

Lemma TrimPrefix_cons s : TrimPrefix (32 :: s) [32] = s.
Proof. done. Qed.

Lemma read_items_text {A} (f : gostr -> option A) (text : A -> gostr) l : l <> [] ->
  Forall (fun x => f (text x) = Some x /\ (44 ∉ text x) /\ head (text x) <> Some 32) l ->
  read_items f (Join (bs ", ") (map text l) ++ bs " }") = Some l.
Proof.
  intros Hne Hl. unfold read_items. rewrite length_app, take_app_length' by (cbn; lia).
  destruct l as [|x l]; [done|]. apply Forall_cons in Hl as [(F & C & S) Hl]. cbn [map]. rewrite Join_comma, Split_Join; [|done|].
  - cbn [mapM]. rewrite TrimPrefix_none, F by done. cbn [mbind option_bind]. clear -Hl.
    assert (E : mapM (fun s => f (TrimPrefix s [32])) (map (cons 32) (map text l)) = Some l); [|by rewrite E].
    apply mapM_Some. induction Hl as [|y l (F & _) _ IH]; cbn [map]; [constructor|]. by constructor.
  - constructor; [done|]. clear -Hl. induction Hl as [|y l (_ & C & _) _ IH]; cbn [map]; [constructor|].
    constructor; [|done]. by apply not_elem_of_cons.
Qed.

Lemma addr_plain a c : plain6 a -> c ∈ addr_String a -> addr_char c.
Proof. intros [H1 H2]%plain6_wf. by apply Forall_forall, addr_String_chars. Qed.

Ltac plain_char H := unfold addr_char, hex_char, colon, dot in H; lia.

Lemma addr_readable a : plain6 a -> ParseAddr (addr_String a) = Some a /\ (44 ∉ addr_String a) /\ head (addr_String a) <> Some 32.
Proof.
  intros Ha. split; [apply plain6_wf in Ha as []; by apply ParseAddr_String|]. split.
  - intros H%addr_plain; [|done]. plain_char H.
  - intros H%head_Some_elem_of%addr_plain; [|done]. plain_char H.
Qed.

Lemma key_readable x : key_ok x -> read_key (acct_item x) = Some x /\ (44 ∉ acct_item x) /\ head (acct_item x) <> Some 32.
Proof.
  destruct x as [a p]. intros [Ha Hp]. unfold acct_item. cbn [ak_Addr ak_Port] in *.
  destruct (addr_readable a Ha) as (P & C & S).
  assert (Ap : forall c, c ∈ addr_String a -> addr_char c) by (intros c; by apply addr_plain).
  assert (Fp : forall c, c ∈ FormatInt p -> c = 45 \/ 48 <= c <= 57) by apply FormatInt_chars. split; [|split].
  - unfold read_key. change (bs " . ") with ([32] ++ [46] ++ [32]). rewrite <- !app_assoc. cbn [app].
    rewrite Split_app by (intros H%Ap; plain_char H).
    change (Split 32 (46 :: 32 :: FormatInt p)) with (Split 32 ([46] ++ 32 :: FormatInt p)). rewrite Split_app by (intros ?%list_elem_of_singleton; lia).
    rewrite Split_notin by (intros H%Fp; lia). rewrite P. cbn [mbind option_bind].
    rewrite ParseInt_FormatInt by (unfold in_u16, in_i64, int64_min, int64_max in *; lia). done.
  - rewrite !elem_of_app. intros [H|[H|H%Fp]]; [done|revert H; by apply (bool_decide_unpack (44 ∉ bs " . "))|lia].
  - destruct (addr_String a) as [|c s] eqn:E; [discriminate P|]. done.
Qed.

Definition head_of (s : stmt) : gostr :=
  match s with
  | add_authorized _ => bs "add element inet fips_exit authorized { "
  | del_authorized _ => bs "delete element inet fips_exit authorized { "
  | del_acct _ => bs "delete element inet fips_exit acct { "
  end.
Definition body_of (s : stmt) : gostr :=
  match s with
  | add_authorized l | del_authorized l => Join (bs ", ") (map addr_String l)
  | del_acct l => Join (bs ", ") (map acct_item l)
  end.
Definition line_of (s : stmt) : gostr := head_of s ++ body_of s ++ bs " }".

Lemma stmt_line s : stmt_text table s = line_of s ++ [10].
Proof. unfold line_of. destruct s; cbn -[Join addr_String acct_item]; unfold element_stmt; cbn -[Join]; by rewrite <- ?app_assoc. Qed.

Lemma strip_del_add r : strip (bs "add element inet fips_exit authorized { ") (bs "delete element inet fips_exit authorized { " ++ r) = None.
Proof. done. Qed.
Lemma strip_acct_add r : strip (bs "add element inet fips_exit authorized { ") (bs "delete element inet fips_exit acct { " ++ r) = None.
Proof. done. Qed.
Lemma strip_acct_del r : strip (bs "delete element inet fips_exit authorized { ") (bs "delete element inet fips_exit acct { " ++ r) = None.
Proof. done. Qed.

Lemma read_line s : stmt_ok s -> read_stmt (line_of s) = Some s.
Proof.
  unfold line_of, read_stmt. destruct s as [l|l|l]; intros [Hne Hl]; cbn [head_of body_of];
    [|rewrite strip_del_add|rewrite strip_acct_add, strip_acct_del]; rewrite strip_app; cbn [mbind option_bind].
  1, 2: rewrite (read_items_text ParseAddr addr_String); [done..|eapply Forall_weaken; [exact Hl|apply addr_readable]].
  rewrite (read_items_text read_key acct_item); [done..|eapply Forall_weaken; [exact Hl|apply key_readable]].
Qed.

(** A line holds no line feed. *)
Lemma line_plain s : stmt_ok s -> 10 ∉ line_of s.
Proof.
  intros Hs. unfold line_of. rewrite !elem_of_app. intros [H|[H|H]].
  - revert H. apply (bool_decide_unpack (10 ∉ head_of s)). by destruct s.
  - destruct s as [l|l|l]; cbn [body_of] in H; destruct Hs as [_ Hl]; rewrite Forall_forall in Hl;
      (apply Join_origin in H as [H|(p & (a & -> & Ha)%list_elem_of_fmap & H)];
        [revert H; by apply (bool_decide_unpack (10 ∉ bs ", "))|]).
    1, 2: apply addr_plain in H; [plain_char H|by apply Hl].
    destruct (Hl a Ha) as [Hp _]. unfold acct_item in H. rewrite !elem_of_app in H. destruct H as [H|[H|H]].
    + apply addr_plain in H; [plain_char H|done].
    + revert H. by apply (bool_decide_unpack (10 ∉ bs " . ")).
    + apply FormatInt_chars in H. lia.
  - revert H. by apply (bool_decide_unpack (10 ∉ bs " }")).
Qed.

Lemma read_script_text l : Forall stmt_ok l -> read_script (script_text table l) = Some l.
Proof.
  intros Hl. unfold read_script, script_text.
  assert (E : l ≫= stmt_text table = map line_of l ≫= fun s => s ++ [10]).
  { clear. induction l as [|s l IH]; [done|]. cbn [map]. by rewrite !bind_cons, stmt_line, IH. }
  rewrite E, Split_lines by (apply Forall_map; eapply Forall_weaken; [exact Hl|]; exact line_plain).
  rewrite filter_app, filter_cons_False by auto. rewrite filter_nil, app_nil_r. apply mapM_Some. clear E.
  induction Hl as [|s l Hs _ IH]; [constructor|]. cbn [map]. rewrite filter_cons_True by (by destruct s).
  constructor; [by apply read_line|done].
Qed.

(** ** The instance *)

Lemma exec_ok s t t' : stmt_ok s -> tables_ok t -> exec s t = Some t' -> tables_ok t'.
Proof.
  intros Hs [H1 H2] E. destruct s as [l|l|l]; cbn [exec] in E; [|case_bool_decide; [|done]..]; injection E as <-; split; cbn [fst snd]; try done.
  - intros a [Ha|Ha%elem_of_list_to_set]%elem_of_union; [by apply H1|]. destruct Hs as [_ Hl]. rewrite Forall_forall in Hl. by apply Hl.
  - intros a [Ha _]%elem_of_difference. by apply H1.
  - intros x b [Hx _]%map_lookup_filter_Some. by apply H2.
Qed.

Lemma exec_all_ok l t t' : Forall stmt_ok l -> tables_ok t -> exec_all l t = Some t' -> tables_ok t'.
Proof.
  intros Hl. revert t. induction Hl as [|s l Hs _ IH]; intros t Ht E; cbn [exec_all] in E; [by injection E as <-|].
  destruct (exec s t) as [t1|] eqn:E1; [|done]. eapply IH, E. by eapply exec_ok.
Qed.

Lemma attrs_plain : attrs_ok [(bs "family", jstr (bs "inet")); (bs "table", jstr (bs "fips_exit"))].
Proof. repeat constructor; vm_compute; discriminate. Qed.

#[export] Instance mem_nft : NftKernel table.
Proof.
  refine {| nk := tables; nk_tables := id; nk_up := tables_ok; nk_run := run; nk_names := (bs "inet", bs "fips_exit") |}; try done.
  - intros t Ht. eexists _, _, (elements t.1), _, t. split; [reflexivity|]. do 2 (split; [done|]). split; [exact attrs_plain|]. split; [done|].
    apply Forall2_fmap_r, Forall_Forall2_diag, Forall_true. constructor.
  - intros t Ht. eexists _, _, (map_to_list t.2), _, t. split; [reflexivity|]. do 2 (split; [done|]). split; [exact attrs_plain|]. split; [done|].
    apply Forall2_fmap_r, Forall_Forall2_diag, Forall_true. intros x. constructor. constructor.
  - intros t l Ht Hne Hl. unfold run. rewrite bool_decide_true by done. rewrite read_script_text by done. cbn [mbind option_bind id].
    destruct (exec_all l t) as [t'|] eqn:E; [|by exists t]. exists t'. split; [by eapply exec_all_ok|]. split; [by eexists|done].
Defined.

(** ** A run *)

Definition a1 : Addr := default AddrZero (ParseAddr (bs "fd00::1")).
Definition a2 : Addr := default AddrZero (ParseAddr (bs "fd00::2")).
Definition start : tables := ({[ a1 ]}, {[ {| ak_Addr := a1; ak_Port := 1080 |} := 4096 ]}).

Lemma start_ok : tables_ok start.
Proof.
  split; [intros a; change start.1 with ({[ a1 ]} : gset Addr); intros ->%elem_of_singleton; by vm_compute|].
  intros k b. change start.2 with ({[ {| ak_Addr := a1; ak_Port := 1080 |} := 4096 ]} : gmap acctKey Z). intros [<- <-]%lookup_singleton_Some. split; [split|]; by vm_compute.
Qed.

Lemma nft_contract_witness :
  (exists k', nft_ListAuthorized run table start = (Ok ({[ a1 ]} : gset Addr), k')) /\
  (exists k', nft_ApplyAuthorized run table [a2] [a1] start = (Ok tt, k') /\ k'.1 = ({[ a2 ]} : gset Addr)).
Proof.
  destruct (nft_contract table (NK := mem_nft) start start_ok) as ((k & E & _) & _ & Ha & _). split; [by exists k|].
  destruct (Ha [a2] [a1]) as (r & k' & Er & _ & Hr & Ht); [repeat constructor; by vm_compute..|].
  exists k'. change (nft_ApplyAuthorized run table [a2] [a1] start = (r, k')) in Er. rewrite Er.
  destruct r as [[]|e].
  - split; [done|]. cbn [is_ok] in Ht. change (k' = (({[ a1 ]} ∪ list_to_set [a2]) ∖ list_to_set [a1], start.2)) in Ht. rewrite Ht. cbn [fst].
    assert (Hne : a1 <> a2) by (vm_compute; discriminate). apply set_eq. intros x. set_solver.
  - exfalso. assert (is_ok (Err e : result fw_err unit) = true); [|done]. apply Hr. split; [by apply NoDup_singleton|].
    constructor; [|constructor]. cbn. set_solver.
Defined.

(** ** Captured listings *)

Definition captured (name : gostr) (ty : jvalue) (elems : list jvalue) : jvalue :=
  jobj [(bs "nftables", jarr [jobj [(bs "metainfo", jobj [(bs "version", jstr (bs "1.0.9"))])];
    jobj [(bs "set", jobj [(bs "family", jstr (bs "inet")); (bs "table", jstr (bs "fips_exit")); (bs "name", jstr name);
                           (bs "type", ty); (bs "flags", jarr [jstr (bs "interval")]); (bs "elem", jarr elems)])]])].

Definition counted (addr : gostr) (port : jvalue) (bytes : Z) : jvalue :=
  jobj [(bs "elem", jobj [(bs "val", jobj [(bs "concat", jarr [jstr addr; port])]);
                          (bs "counter", jobj [(bs "packets", jnum 7); (bs "bytes", jnum bytes)])])].

Definition peer1 : gostr := bs "fd10:93b2:8586:6046:e42d:c089:3228:ccff".
Definition peer2 : gostr := bs "fd54:dc85:5ad5:c438:acd6:aa8:8495:13dd".

Example captured_authorized :
  (fun d => map addr_String (omap authorizedElem (set_elems d))) <$>
    unmarshalNft (captured (bs "authorized") (jstr (bs "ipv6_addr")) [jstr peer1; jstr peer2]) = Some [peer1; peer2].
Proof. vm_compute. reflexivity. Qed.

(** An element whose port is printed as a service name is skipped. *)
Example captured_acct :
  (fun d => map (fun kv : acctKey * Z => (addr_String (ak_Addr kv.1), ak_Port kv.1, kv.2)) (omap acctElem (set_elems d))) <$>
    unmarshalNft (captured (bs "acct") (jarr [jstr (bs "ipv6_addr"); jstr (bs "inet_service")])
      [counted peer1 (jnum 1080) 123456; counted peer2 (jstr (bs "1081")) 2048; counted peer1 (jstr (bs "socks")) 9]) =
  Some [(peer1, 1080, 123456); (peer2, 1081, 2048)].
Proof. vm_compute. reflexivity. Qed.

Example script_order : authorized_script table [a2; a1] [a1] =
  bs "add element inet fips_exit authorized { fd00::1, fd00::2 }" ++ [10] ++
  bs "delete element inet fips_exit authorized { fd00::1 }" ++ [10].
Proof. vm_compute. reflexivity. Qed.

End MemNft.
