(* ===== verification/BackendMigrate.v ===== *)
(** * backend/store: opening the database

    Models [Open], [migrationNames], [migrate] and [Ready] of backend/store/store.go.
    What a migration file does is an argument: [Exec] executes its text on a schema,
    or fails.  Every call of [migrate] to the database is one step, and the processes
    that open the same database at the same time (instances that start together, one
    that crashed and starts again) interleave. *)

From S2P Require Import Prelude GoStrings Authzhash.
Import Authzhash.

Module Migrate.

(** [sort.Strings]. *)
Definition sort_names (l : list gostr) : list gostr := merge_sort bytes_le l.

(** The files of the embedded directory in the order they are applied. *)
Definition migrationNames (entries : list gostr) : list gostr :=
  sort_names (filter (fun n => HasSuffix n (bs ".sql") = true) entries).

Section Migrations.
Context {Schema : Type} (ReadFile : gostr -> gostr) (Exec : gostr -> Schema -> option Schema).

(** [schema_migrations] (no rows before it exists) and everything else. *)
Record pg := { pg_versions : option (list gostr); pg_schema : Schema }.
Definition versions (p : pg) : list gostr := default [] (pg_versions p).

Definition set_versions (v : list gostr) (p : pg) : pg := {| pg_versions := Some v; pg_schema := pg_schema p |}.

(** CREATE TABLE IF NOT EXISTS schema_migrations *)
Definition create_table (p : pg) : pg := set_versions (versions p) p.

(** SELECT EXISTS(SELECT 1 FROM schema_migrations WHERE version=$1) *)
Definition exists_version (name : gostr) (p : pg) : bool := bool_decide (name ∈ versions p).

(** The transaction of one migration: the file, then the row.  The primary key makes
    the INSERT fail when the row is there by now; [None] is rolled back. *)
Definition apply_tx (name : gostr) (p : pg) : option pg :=
  schema ← Exec (ReadFile name) (pg_schema p);
  if bool_decide (name ∈ versions p) then None
  else Some {| pg_versions := Some (versions p ++ [name]); pg_schema := schema |}.

(** ** One process *)

(** The loop, as it runs alone; [false] is an error. *)
Fixpoint migrate_loop (names : list gostr) (p : pg) : bool * pg :=
  match names with
  | [] => (true, p)
  | name :: rest =>
      if exists_version name p then migrate_loop rest p
      else match apply_tx name p with
           | None => (false, p)
           | Some p' => migrate_loop rest p'
           end
  end.

Definition migrate (entries : list gostr) (p : pg) : bool * pg := migrate_loop (migrationNames entries) (create_table p).

(** [Open] when the pool connects and answers. *)
Definition Open (connects answers : bool) (entries : list gostr) (p : pg) : bool * pg :=
  if negb connects || negb answers then (false, p) else migrate entries p.

(** [Ready]: the first file without a row, if any; [Err None] is a database that does
    not answer or has no such table. *)
Definition Ready (answers : bool) (entries : list gostr) (p : pg) : result (option gostr) unit :=
  if negb answers then Err None else
  match pg_versions p with
  | None => Err None
  | Some applied =>
      match filter (fun n => n ∉ applied) (migrationNames entries) with
      | [] => Ok tt
      | n :: _ => Err (Some n)
      end
  end.

(** ** Many processes *)

(** Where a process is: before the table is created, before looking for the row of
    the next file, before its transaction, returned. *)
Inductive opening := o_create | o_look (rest : list gostr) | o_apply (name : gostr) (rest : list gostr) | o_done | o_failed.

Definition open_step (names : list gostr) (o : opening) (p : pg) : option (opening * pg) :=
  match o with
  | o_create => Some (o_look names, create_table p)
  | o_look [] => Some (o_done, p)
  | o_look (name :: rest) => Some (if exists_version name p then o_look rest else o_apply name rest, p)
  | o_apply name rest =>
      match apply_tx name p with
      | Some p' => Some (o_look rest, p')
      | None => Some (o_failed, p)
      end
  | o_done | o_failed => None
  end.

Record fleet := { fl_db : pg; fl_opening : list opening }.

(** A process starts, takes its next step, or fails (a lost connection, a crash). *)
Inductive fleet_step (names : list gostr) (s : fleet) : fleet -> Prop :=
| fs_start : fleet_step names s {| fl_db := fl_db s; fl_opening := fl_opening s ++ [o_create] |}
| fs_step i o o' p' : fl_opening s !! i = Some o -> open_step names o (fl_db s) = Some (o', p') ->
    fleet_step names s {| fl_db := p'; fl_opening := <[i := o']> (fl_opening s) |}
| fs_fail i : fleet_step names s {| fl_db := fl_db s; fl_opening := <[i := o_failed]> (fl_opening s) |}.

(** *** The schema is the files in order *)

(** Executing files one after the other. *)
Fixpoint run_files (names : list gostr) (schema : Schema) : option Schema :=
  match names with
  | [] => Some schema
  | name :: rest => s ← Exec (ReadFile name) schema; run_files rest s
  end.

Lemma run_files_app l1 l2 s : run_files (l1 ++ l2) s = s' ← run_files l1 s; run_files l2 s'.
Proof. revert s. induction l1 as [|n l IH]; intros s; [done|]. cbn. destruct (Exec _ s); [apply IH|done]. Qed.

(** The rows are a beginning of the file list, and the schema is what these files
    make of the one there was. *)
Definition in_order (names : list gostr) (s0 : Schema) (p : pg) : Prop :=
  exists rest, names = versions p ++ rest /\ run_files (versions p) s0 = Some (pg_schema p).

(** A process is past the files it has looked at only if they have rows. *)
Definition opening_ok (names : list gostr) (p : pg) (o : opening) : Prop :=
  match o with
  | o_create | o_failed => True
  | o_look rest => exists past, names = past ++ rest /\ past `prefix_of` versions p
  | o_apply name rest => exists past, names = past ++ name :: rest /\ past `prefix_of` versions p
  | o_done => versions p = names
  end.

Definition fleet_ok (names : list gostr) (s0 : Schema) (s : fleet) : Prop :=
  in_order names s0 (fl_db s) /\ Forall (opening_ok names (fl_db s)) (fl_opening s).

Lemma create_table_versions p : versions (create_table p) = versions p.
Proof. done. Qed.

(** The tables only grow, so a process stays where it may be. *)
Lemma opening_ok_grow names p p' o : versions p `prefix_of` versions p' -> versions p' `prefix_of` names ->
  opening_ok names p o -> opening_ok names p' o.
Proof.
  intros Hg Hn. destruct o as [|rest|name rest| |]; [done|..|done].
  - intros (past & E & Hp). exists past. split; [done|by etrans].
  - intros (past & E & Hp). exists past. split; [done|by etrans].
  - cbn. intros E. apply (anti_symm prefix); [done|]. by rewrite <- E.
Qed.

(** A file with a row is not ahead of a process that has come to it. *)
Lemma past_row names past name rest (rows : list gostr) : NoDup names -> names = past ++ name :: rest -> past `prefix_of` rows ->
  rows `prefix_of` names -> (name ∈ rows <-> past ++ [name] `prefix_of` rows).
Proof.
  intros ND -> [k ->] [k' E]. rewrite <- app_assoc in E. apply app_inv_head in E. split.
  - intros [H|H]%elem_of_app.
    + exfalso. apply NoDup_app in ND as (_ & Hd & _). apply (Hd name H). left.
    + destruct k as [|x k]; [by apply elem_of_nil in H|]. injection E as -> _. exists k. by rewrite <- app_assoc.
  - intros [k1 ->]. apply elem_of_app. left. apply elem_of_app. right. left.
Qed.

Lemma in_order_prefix names s0 p : in_order names s0 p -> versions p `prefix_of` names.
Proof. intros (rest & -> & _). by eexists. Qed.

Lemma apply_tx_order names s0 name past rest p p' : in_order names s0 p -> names = past ++ name :: rest -> past `prefix_of` versions p ->
  apply_tx name p = Some p' -> in_order names s0 p' /\ versions p' = past ++ [name] /\ versions p `prefix_of` versions p'.
Proof.
  intros (k & E & Hr) En [l El] H. unfold apply_tx in H. apply bind_Some in H as (schema & Hs & H). case_bool_decide as Hn; [done|].
  injection H as <-. change (versions {| pg_versions := Some (versions p ++ [name]); pg_schema := schema |}) with (versions p ++ [name]).
  assert (l = []) as ->.
  { destruct l as [|x l]; [done|]. exfalso. apply Hn. rewrite El. rewrite En, El, <- app_assoc in E. apply app_inv_head in E. injection E as -> _.
    apply elem_of_app. right. left. }
  rewrite app_nil_r in El. split; [|split; [by rewrite El|by eexists]]. exists rest. split.
  - cbn. rewrite El, <- app_assoc. exact En.
  - cbn. rewrite run_files_app, Hr. cbn. by rewrite Hs.
Qed.

Lemma open_step_ok names s0 o p o' p' : NoDup names -> in_order names s0 p -> opening_ok names p o -> open_step names o p = Some (o', p') ->
  in_order names s0 p' /\ versions p `prefix_of` versions p' /\ opening_ok names p' o'.
Proof.
  intros ND Hp Ho. destruct o as [|[|name rest]|name rest| |]; cbn [open_step]; [..|done|done].
  - intros [= <- <-]. split; [exact Hp|]. split; [done|]. exists []. split; [done|]. apply prefix_nil.
  - intros [= <- <-]. split; [done|]. split; [done|]. destruct Ho as (past & -> & Hpast). rewrite app_nil_r in *. cbn.
    apply (anti_symm prefix); [by eapply in_order_prefix|done].
  - intros [= <- <-]. split; [done|]. split; [done|]. destruct Ho as (past & E & Hpast). unfold exists_version. case_bool_decide as Hn.
    + exists (past ++ [name]). split; [by rewrite <- app_assoc|]. by eapply past_row; [..|eapply in_order_prefix|].
    + by exists past.
  - destruct Ho as (past & E & Hpast). destruct (apply_tx name p) as [q|] eqn:Et; intros [= <- <-]; [|done].
    destruct (apply_tx_order _ _ _ _ _ _ _ Hp E Hpast Et) as (H1 & H2 & H3). split; [done|]. split; [done|].
    exists (past ++ [name]). split; [by rewrite <- app_assoc|]. by rewrite H2.
Qed.

Lemma fleet_step_ok names s0 s s' : NoDup names -> fleet_step names s s' -> fleet_ok names s0 s -> fleet_ok names s0 s'.
Proof.
  intros ND H [Hp Ho]. destruct H as [|i o o' p' Hi Hs|i].
  - split; [exact Hp|]. apply Forall_app. split; [exact Ho|]. by apply Forall_singleton.
  - assert (Hoi : opening_ok names (fl_db s) o) by (rewrite Forall_lookup in Ho; by eapply Ho).
    destruct (open_step_ok _ _ _ _ _ _ ND Hp Hoi Hs) as (H1 & H2 & H3). split; [done|]. cbn [fl_db fl_opening].
    apply Forall_insert; [|done]. eapply Forall_impl; [exact Ho|]. intros x. apply opening_ok_grow; [done|by eapply in_order_prefix].
  - split; [exact Hp|]. by apply Forall_insert.
Qed.

(** The whole loop of a process that runs alone is its steps. *)
Lemma migrate_steps names rest p b p' : migrate_loop rest p = (b, p') ->
  exists n, Nat.iter n (fun x => match x with (o, q) => default (o, q) (open_step names o q) end) (o_look rest, p) =
    (if b then o_done else o_failed, p').
Proof.
  revert p. induction rest as [|name rest IH]; intros p; cbn [migrate_loop].
  - intros [= <- <-]. by exists 1%nat.
  - destruct (exists_version name p) eqn:Ee.
    + intros (n & Hn)%IH. exists (S n). rewrite Nat.iter_succ_r. cbn [open_step]. by rewrite Ee.
    + destruct (apply_tx name p) as [q|] eqn:Et; intros H.
      * apply IH in H as (n & Hn). exists (S (S n)). rewrite !Nat.iter_succ_r. cbn [open_step]. rewrite Ee. cbn [default from_option id].
        cbn [open_step]. by rewrite Et.
      * injection H as <- <-. exists 2%nat. cbn [Nat.iter nat_rect]. cbn [open_step]. rewrite Ee. cbn [default from_option id]. cbn [open_step]. by rewrite Et.
Qed.

Lemma migrate_loop_completes names s0 s1 rest : NoDup names -> run_files names s0 = Some s1 ->
  forall past p, names = past ++ rest -> past `prefix_of` versions p -> in_order names s0 p ->
  exists p', migrate_loop rest p = (true, p') /\ versions p' = names /\ pg_schema p' = s1.
Proof.
  intros ND Hrun. induction rest as [|name rest IH]; intros past p E Hpast Hp; cbn [migrate_loop].
  - exists p. rewrite app_nil_r in E. subst past. assert (Ev : versions p = names) by (apply (anti_symm prefix); [by eapply in_order_prefix|done]).
    split; [done|]. split; [done|]. destruct Hp as (_ & _ & Hr). rewrite Ev, Hrun in Hr. congruence.
  - assert (E' : names = (past ++ [name]) ++ rest) by (by rewrite <- app_assoc).
    pose proof (past_row names past name rest (versions p) ND E Hpast (in_order_prefix _ _ _ Hp)) as Hrow.
    unfold exists_version. case_bool_decide as Hn; [apply (IH _ _ E'); [by apply Hrow|done]|].
    destruct (apply_tx name p) as [q|] eqn:Et.
    + destruct (apply_tx_order _ _ _ _ _ _ _ Hp E Hpast Et) as (H1 & H2 & H3). apply (IH _ _ E'); [by rewrite H2|done].
    + exfalso. destruct Hp as (k & Ek & Hr). destruct Hpast as [l El].
      assert (l = []) as ->.
      { destruct l as [|x l]; [done|]. exfalso. apply Hn. rewrite El. rewrite Ek, El, <- app_assoc in E. apply app_inv_head in E. injection E as -> _.
        apply elem_of_app. right. left. }
      rewrite app_nil_r in El. rewrite E, <- El, run_files_app, Hr in Hrun. cbn in Hrun. apply bind_Some in Hrun as (x & Hx & _).
      unfold apply_tx in Et. rewrite Hx in Et. cbn in Et. by rewrite bool_decide_false in Et.
Qed.

Lemma names_NoDup entries : NoDup entries -> NoDup (migrationNames entries).
Proof. intros H. unfold migrationNames, sort_names. rewrite merge_sort_Permutation. by apply NoDup_filter. Qed.

Lemma Ready_complete entries p : migrationNames entries <> [] -> versions p = migrationNames entries -> Ready true entries p = Ok tt.
Proof.
  intros Hne Hv. unfold Ready, versions in *. cbn [negb]. destruct (pg_versions p) as [a|]; cbn in Hv; [|by rewrite <- Hv in Hne]. subst a.
  destruct (filter _ _) as [|n l] eqn:Ef; [done|]. exfalso. assert (Hn : n ∈ filter (fun n => n ∉ migrationNames entries) (migrationNames entries)) by (rewrite Ef; left).
  apply list_elem_of_filter in Hn as [H1 H2]. by apply H1.
Qed.

(** [C40] Migrations are applied in order, each once, whoever applies them.  Whatever
    processes open the database, at the same time, again after a crash, or failing on
    the way: its rows are always a beginning of the sorted file list and its schema is
    exactly what these files, executed one after the other, make of the schema [s0]
    there was before the first; a process that has opened it leaves it complete and
    ready; and while the files execute, the next one to open it undisturbed completes
    it.  The database may be new or one an earlier release has opened, but in order. *)
Theorem migrations_in_order entries s0 p0 s :
  let names := migrationNames entries in
  NoDup entries -> names <> [] -> in_order names s0 p0 -> rtc (fleet_step names) {| fl_db := p0; fl_opening := [] |} s ->
  in_order names s0 (fl_db s) /\
  (o_done ∈ fl_opening s -> Ready true entries (fl_db s) = Ok tt /\ run_files names s0 = Some (pg_schema (fl_db s))) /\
  (forall s1, run_files names s0 = Some s1 ->
     exists p', Open true true entries (fl_db s) = (true, p') /\ Ready true entries p' = Ok tt /\ pg_schema p' = s1).
Proof.
  intros names ND Hne H0 Hs. pose proof (names_NoDup _ ND) as NDn.
  assert (Hok : fleet_ok names s0 s).
  { remember {| fl_db := p0; fl_opening := [] |} as x eqn:Ex. assert (Hx : fleet_ok names s0 x) by (subst x; by split).
    clear Ex. induction Hs as [|x y z Hxy _ IH]; [done|]. by eapply IH, fleet_step_ok. }
  destruct Hok as [Ho HF]. split; [done|]. split.
  - intros Hd. rewrite Forall_forall in HF. specialize (HF _ Hd). cbn in HF. split; [by apply Ready_complete|].
    destruct Ho as (_ & _ & Hr). by rewrite HF in Hr.
  - intros s1 Hrun. destruct (migrate_loop_completes names _ s1 names NDn Hrun [] (create_table (fl_db s))) as (p' & H1 & H2 & H3);
      [done|apply prefix_nil|exact Ho|]. exists p'. split; [exact H1|]. split; [by apply Ready_complete|done].
Qed.

End Migrations.

(** ** The files of the repository *)

(** A file that is executed twice fails, as CREATE TABLE does. *)
Definition create_once (f : gostr) (schema : list gostr) : option (list gostr) :=
  if bool_decide (f ∈ schema) then None else Some (schema ++ [f]).

Definition embedded : list gostr :=
  map bs ["0001_init.sql"; "0002_checkout_url.sql"; "0003_pay_request.sql"; "0004_package_available_until.sql"; "0005_usage_daily.sql";
          "0005_whitelist_consent.sql"; "0006_authz_revisions_addr_index.sql"; "0007_wireguard.sql"]%string.

Definition empty_pg : pg := {| pg_versions := None; pg_schema := ([] : list gostr) |}.
Definition text_of (name : gostr) : gostr := name.

Example names_sorted : migrationNames (bs "README" :: reverse embedded) = embedded.
Proof. vm_compute. reflexivity. Qed.

Example not_ready : Ready true embedded (create_table empty_pg) = Err (Some (bs "0001_init.sql")).
Proof. vm_compute. reflexivity. Qed.

(** Two processes look for the first row, both find none, one applies the file and the
    other fails; a third completes the work. *)
Definition files : list gostr := migrationNames embedded.
Definition race : fleet :=
  {| fl_db := {| pg_versions := Some [bs "0001_init.sql"]; pg_schema := [bs "0001_init.sql"] |};
     fl_opening := [o_look (drop 1 files); o_failed] |}.

Lemma race_reachable : rtc (fleet_step text_of create_once files) {| fl_db := empty_pg; fl_opening := [] |} race.
Proof.
  eapply rtc_l; [apply fs_start|]. eapply rtc_l; [apply fs_start|]. cbn [fl_db fl_opening app].
  do 2 (eapply rtc_l; [eapply (fs_step _ _ _ _ 0%nat); [reflexivity|vm_compute; reflexivity]|cbn [fl_db fl_opening insert list_insert]]).
  do 2 (eapply rtc_l; [eapply (fs_step _ _ _ _ 1%nat); [reflexivity|vm_compute; reflexivity]|cbn [fl_db fl_opening insert list_insert]]).
  eapply rtc_l; [eapply (fs_step _ _ _ _ 0%nat); [reflexivity|vm_compute; reflexivity]|cbn [fl_db fl_opening insert list_insert]].
  eapply rtc_l; [eapply (fs_step _ _ _ _ 1%nat); [reflexivity|vm_compute; reflexivity]|].
  match goal with |- rtc _ ?x ?y => replace x with y by (vm_compute; reflexivity) end. apply rtc_refl.
Qed.

Lemma migrations_in_order_witness :
  exists p', Open text_of create_once true true embedded (fl_db race) = (true, p') /\ Ready true embedded p' = Ok tt /\ pg_schema p' = files.
Proof.
  refine (proj2 (proj2 (migrations_in_order text_of create_once embedded [] empty_pg race _ _ _ race_reachable)) files _).
  - apply (bool_decide_unpack _). vm_compute. exact I.
  - vm_compute. discriminate.
  - exists files. split; reflexivity.
  - vm_compute. reflexivity.
Defined.

(** A file that sorts before one that is applied already comes after it: the order of
    a new database and of an upgraded one differ. *)
Example late_file :
  let old := (Open text_of create_once true true (map bs ["0001_init.sql"; "0005_whitelist_consent.sql"]%string) empty_pg).2 in
  pg_schema (Open text_of create_once true true (map bs ["0001_init.sql"; "0005_usage_daily.sql"; "0005_whitelist_consent.sql"]%string) old).2 =
  map bs ["0001_init.sql"; "0005_whitelist_consent.sql"; "0005_usage_daily.sql"]%string.
Proof. vm_compute. reflexivity. Qed.

End Migrate.
