(* ===== verification/BackendDB.v ===== *)
(** * backend/store: the database

    The tables of backend/store/migrations as lists of rows, with the two
    transaction disciplines of backend/store/store.go.  Addresses (inet), ids
    (uuid) and instants (timestamptz) are typed values rather than their text;
    instants are nanoseconds.  An operation is a function of the database: [Tx] is
    the body of a transaction, [inTx] commits it or leaves the database as it was,
    and [Store] sequences committed statements, so an error after some of them
    keeps their effect.  A statement fails where a constraint of the schema
    rejects it; connection failures are not represented. *)

From S2P Require Import Prelude GoStrings Netip.

Module DB.

(** ** Rows *)

Record service := { sv_id : Z; sv_key : gostr; sv_name : gostr; sv_port : Z; sv_rate : Z; sv_enabled : bool }.

Record node := {
  nd_id : Z; nd_name : gostr; nd_pubkey : gostr; nd_token_hash : gostr;
  nd_last_seen : option Z; nd_version : option gostr;
  nd_wg_pubkey : option gostr; nd_wg_endpoint : option gostr; nd_wg_seen : option Z
}.

Record enroll_token := { et_hash : gostr; et_note : gostr; et_used : option Z; et_node : option Z }.

Record account := { ac_id : Z; ac_npub : gostr; ac_addr : Addr; ac_active : bool (* status = 'active' *) }.

Inductive role := owner | guest.

Record wl := {
  w_id : Z; w_account : Z; w_npub : gostr; w_addr : Addr; w_role : role;
  w_enabled : bool; w_pending : bool; w_label : option gostr; w_created : Z
}.

Record package := {
  pk_id : Z; pk_kind : gostr; pk_name : gostr; pk_volume : option Z; pk_days : Z; pk_price : Z;
  pk_active : bool; pk_until : option Z
}.

Inductive pstatus := pending | processing | settled | expired | invalid.

Record purchase := {
  pu_id : Z; pu_account : Z; pu_package : Z; pu_invoice : option gostr; pu_status : pstatus;
  pu_created : Z; pu_settled : option Z; pu_checkout : option gostr; pu_payreq : option gostr
}.

Record entitlement := {
  en_id : Z; en_account : Z; en_purchase : option Z; en_kind : gostr; en_volume : option Z;
  en_used : Z; en_starts : Z; en_expires : Z
}.

Record report := { rp_id : gostr; rp_node : Z; rp_epoch : gostr; rp_window_end : Z; rp_received : Z }.

Record sample := {
  sm_id : Z; sm_report : gostr; sm_service : option Z; sm_addr : Addr; sm_account : option Z; sm_bytes : Z
}.

Inductive rev_op := op_add | op_del.

Record revision := { rv_rev : Z; rv_op : rev_op; rv_addr : Addr; rv_account : option Z; rv_created : Z }.

Record wg_peer := {
  wq_id : Z; wq_account : Z; wq_npub : gostr; wq_addr : Addr; wq_pubkey : gostr; wq_idx : Z;
  wq_label : option gostr; wq_created_by : gostr; wq_created : Z
}.

#[export] Instance role_eq_dec : EqDecision role.
Proof. solve_decision. Defined.
#[export] Instance pstatus_eq_dec : EqDecision pstatus.
Proof. solve_decision. Defined.
#[export] Instance rev_op_eq_dec : EqDecision rev_op.
Proof. solve_decision. Defined.
#[export] Instance wl_eq_dec : EqDecision wl.
Proof. solve_decision. Defined.
#[export] Instance purchase_eq_dec : EqDecision purchase.
Proof. solve_decision. Defined.
#[export] Instance entitlement_eq_dec : EqDecision entitlement.
Proof. solve_decision. Defined.

(** ** The database

    [db_now] is [now()]; [db_next] supplies ids (gen_random_uuid and the
    bigserial of usage_samples); [db_revseq] is the sequence of
    authz_revisions.rev, and [db_wgseq] the sequence wg_peer_alloc; [db_notify]
    is the payloads delivered on the channel fips_authz. *)
Record db := {
  db_now : Z;
  db_next : Z;
  db_revseq : Z;
  db_services : list service;
  db_nodes : list node;
  db_tokens : list enroll_token;
  db_accounts : list account;
  db_whitelist : list wl;
  db_packages : list package;
  db_purchases : list purchase;
  db_entitlements : list entitlement;
  db_reports : list report;
  db_samples : list sample;
  db_daily : gmap (Z * Z * Z) Z;
  db_current : gmap Addr Z;
  db_revisions : list revision;
  db_wgpeers : list wg_peer;
  db_wgseq : Z;
  db_notify : list Z
}.

Definition set_now (v : Z) (x : db) : db :=
  {| db_now := v; db_next := db_next x; db_revseq := db_revseq x; db_services := db_services x; db_nodes :=
     db_nodes x; db_tokens := db_tokens x; db_accounts := db_accounts x; db_whitelist := db_whitelist x;
     db_packages := db_packages x; db_purchases := db_purchases x; db_entitlements := db_entitlements x;
     db_reports := db_reports x; db_samples := db_samples x; db_daily := db_daily x; db_current :=
     db_current x; db_revisions := db_revisions x; db_wgpeers := db_wgpeers x; db_wgseq := db_wgseq x;
     db_notify := db_notify x |}.
Definition set_next (v : Z) (x : db) : db :=
  {| db_now := db_now x; db_next := v; db_revseq := db_revseq x; db_services := db_services x; db_nodes :=
     db_nodes x; db_tokens := db_tokens x; db_accounts := db_accounts x; db_whitelist := db_whitelist x;
     db_packages := db_packages x; db_purchases := db_purchases x; db_entitlements := db_entitlements x;
     db_reports := db_reports x; db_samples := db_samples x; db_daily := db_daily x; db_current :=
     db_current x; db_revisions := db_revisions x; db_wgpeers := db_wgpeers x; db_wgseq := db_wgseq x;
     db_notify := db_notify x |}.
Definition set_revseq (v : Z) (x : db) : db :=
  {| db_now := db_now x; db_next := db_next x; db_revseq := v; db_services := db_services x; db_nodes :=
     db_nodes x; db_tokens := db_tokens x; db_accounts := db_accounts x; db_whitelist := db_whitelist x;
     db_packages := db_packages x; db_purchases := db_purchases x; db_entitlements := db_entitlements x;
     db_reports := db_reports x; db_samples := db_samples x; db_daily := db_daily x; db_current :=
     db_current x; db_revisions := db_revisions x; db_wgpeers := db_wgpeers x; db_wgseq := db_wgseq x;
     db_notify := db_notify x |}.
Definition set_services (v : list service) (x : db) : db :=
  {| db_now := db_now x; db_next := db_next x; db_revseq := db_revseq x; db_services := v; db_nodes :=
     db_nodes x; db_tokens := db_tokens x; db_accounts := db_accounts x; db_whitelist := db_whitelist x;
     db_packages := db_packages x; db_purchases := db_purchases x; db_entitlements := db_entitlements x;
     db_reports := db_reports x; db_samples := db_samples x; db_daily := db_daily x; db_current :=
     db_current x; db_revisions := db_revisions x; db_wgpeers := db_wgpeers x; db_wgseq := db_wgseq x;
     db_notify := db_notify x |}.
Definition set_nodes (v : list node) (x : db) : db :=
  {| db_now := db_now x; db_next := db_next x; db_revseq := db_revseq x; db_services := db_services x;
     db_nodes := v; db_tokens := db_tokens x; db_accounts := db_accounts x; db_whitelist := db_whitelist x;
     db_packages := db_packages x; db_purchases := db_purchases x; db_entitlements := db_entitlements x;
     db_reports := db_reports x; db_samples := db_samples x; db_daily := db_daily x; db_current :=
     db_current x; db_revisions := db_revisions x; db_wgpeers := db_wgpeers x; db_wgseq := db_wgseq x;
     db_notify := db_notify x |}.
Definition set_tokens (v : list enroll_token) (x : db) : db :=
  {| db_now := db_now x; db_next := db_next x; db_revseq := db_revseq x; db_services := db_services x;
     db_nodes := db_nodes x; db_tokens := v; db_accounts := db_accounts x; db_whitelist := db_whitelist x;
     db_packages := db_packages x; db_purchases := db_purchases x; db_entitlements := db_entitlements x;
     db_reports := db_reports x; db_samples := db_samples x; db_daily := db_daily x; db_current :=
     db_current x; db_revisions := db_revisions x; db_wgpeers := db_wgpeers x; db_wgseq := db_wgseq x;
     db_notify := db_notify x |}.
Definition set_accounts (v : list account) (x : db) : db :=
  {| db_now := db_now x; db_next := db_next x; db_revseq := db_revseq x; db_services := db_services x;
     db_nodes := db_nodes x; db_tokens := db_tokens x; db_accounts := v; db_whitelist := db_whitelist x;
     db_packages := db_packages x; db_purchases := db_purchases x; db_entitlements := db_entitlements x;
     db_reports := db_reports x; db_samples := db_samples x; db_daily := db_daily x; db_current :=
     db_current x; db_revisions := db_revisions x; db_wgpeers := db_wgpeers x; db_wgseq := db_wgseq x;
     db_notify := db_notify x |}.
Definition set_whitelist (v : list wl) (x : db) : db :=
  {| db_now := db_now x; db_next := db_next x; db_revseq := db_revseq x; db_services := db_services x;
     db_nodes := db_nodes x; db_tokens := db_tokens x; db_accounts := db_accounts x; db_whitelist := v;
     db_packages := db_packages x; db_purchases := db_purchases x; db_entitlements := db_entitlements x;
     db_reports := db_reports x; db_samples := db_samples x; db_daily := db_daily x; db_current :=
     db_current x; db_revisions := db_revisions x; db_wgpeers := db_wgpeers x; db_wgseq := db_wgseq x;
     db_notify := db_notify x |}.
Definition set_packages (v : list package) (x : db) : db :=
  {| db_now := db_now x; db_next := db_next x; db_revseq := db_revseq x; db_services := db_services x;
     db_nodes := db_nodes x; db_tokens := db_tokens x; db_accounts := db_accounts x; db_whitelist :=
     db_whitelist x; db_packages := v; db_purchases := db_purchases x; db_entitlements := db_entitlements x;
     db_reports := db_reports x; db_samples := db_samples x; db_daily := db_daily x; db_current :=
     db_current x; db_revisions := db_revisions x; db_wgpeers := db_wgpeers x; db_wgseq := db_wgseq x;
     db_notify := db_notify x |}.
Definition set_purchases (v : list purchase) (x : db) : db :=
  {| db_now := db_now x; db_next := db_next x; db_revseq := db_revseq x; db_services := db_services x;
     db_nodes := db_nodes x; db_tokens := db_tokens x; db_accounts := db_accounts x; db_whitelist :=
     db_whitelist x; db_packages := db_packages x; db_purchases := v; db_entitlements := db_entitlements x;
     db_reports := db_reports x; db_samples := db_samples x; db_daily := db_daily x; db_current :=
     db_current x; db_revisions := db_revisions x; db_wgpeers := db_wgpeers x; db_wgseq := db_wgseq x;
     db_notify := db_notify x |}.
Definition set_entitlements (v : list entitlement) (x : db) : db :=
  {| db_now := db_now x; db_next := db_next x; db_revseq := db_revseq x; db_services := db_services x;
     db_nodes := db_nodes x; db_tokens := db_tokens x; db_accounts := db_accounts x; db_whitelist :=
     db_whitelist x; db_packages := db_packages x; db_purchases := db_purchases x; db_entitlements := v;
     db_reports := db_reports x; db_samples := db_samples x; db_daily := db_daily x; db_current :=
     db_current x; db_revisions := db_revisions x; db_wgpeers := db_wgpeers x; db_wgseq := db_wgseq x;
     db_notify := db_notify x |}.
Definition set_reports (v : list report) (x : db) : db :=
  {| db_now := db_now x; db_next := db_next x; db_revseq := db_revseq x; db_services := db_services x;
     db_nodes := db_nodes x; db_tokens := db_tokens x; db_accounts := db_accounts x; db_whitelist :=
     db_whitelist x; db_packages := db_packages x; db_purchases := db_purchases x; db_entitlements :=
     db_entitlements x; db_reports := v; db_samples := db_samples x; db_daily := db_daily x; db_current :=
     db_current x; db_revisions := db_revisions x; db_wgpeers := db_wgpeers x; db_wgseq := db_wgseq x;
     db_notify := db_notify x |}.
Definition set_samples (v : list sample) (x : db) : db :=
  {| db_now := db_now x; db_next := db_next x; db_revseq := db_revseq x; db_services := db_services x;
     db_nodes := db_nodes x; db_tokens := db_tokens x; db_accounts := db_accounts x; db_whitelist :=
     db_whitelist x; db_packages := db_packages x; db_purchases := db_purchases x; db_entitlements :=
     db_entitlements x; db_reports := db_reports x; db_samples := v; db_daily := db_daily x; db_current :=
     db_current x; db_revisions := db_revisions x; db_wgpeers := db_wgpeers x; db_wgseq := db_wgseq x;
     db_notify := db_notify x |}.
Definition set_daily (v : gmap (Z * Z * Z) Z) (x : db) : db :=
  {| db_now := db_now x; db_next := db_next x; db_revseq := db_revseq x; db_services := db_services x;
     db_nodes := db_nodes x; db_tokens := db_tokens x; db_accounts := db_accounts x; db_whitelist :=
     db_whitelist x; db_packages := db_packages x; db_purchases := db_purchases x; db_entitlements :=
     db_entitlements x; db_reports := db_reports x; db_samples := db_samples x; db_daily := v; db_current :=
     db_current x; db_revisions := db_revisions x; db_wgpeers := db_wgpeers x; db_wgseq := db_wgseq x;
     db_notify := db_notify x |}.
Definition set_current (v : gmap Addr Z) (x : db) : db :=
  {| db_now := db_now x; db_next := db_next x; db_revseq := db_revseq x; db_services := db_services x;
     db_nodes := db_nodes x; db_tokens := db_tokens x; db_accounts := db_accounts x; db_whitelist :=
     db_whitelist x; db_packages := db_packages x; db_purchases := db_purchases x; db_entitlements :=
     db_entitlements x; db_reports := db_reports x; db_samples := db_samples x; db_daily := db_daily x;
     db_current := v; db_revisions := db_revisions x; db_wgpeers := db_wgpeers x; db_wgseq := db_wgseq x;
     db_notify := db_notify x |}.
Definition set_revisions (v : list revision) (x : db) : db :=
  {| db_now := db_now x; db_next := db_next x; db_revseq := db_revseq x; db_services := db_services x;
     db_nodes := db_nodes x; db_tokens := db_tokens x; db_accounts := db_accounts x; db_whitelist :=
     db_whitelist x; db_packages := db_packages x; db_purchases := db_purchases x; db_entitlements :=
     db_entitlements x; db_reports := db_reports x; db_samples := db_samples x; db_daily := db_daily x;
     db_current := db_current x; db_revisions := v; db_wgpeers := db_wgpeers x; db_wgseq := db_wgseq x;
     db_notify := db_notify x |}.
Definition set_wgpeers (v : list wg_peer) (x : db) : db :=
  {| db_now := db_now x; db_next := db_next x; db_revseq := db_revseq x; db_services := db_services x;
     db_nodes := db_nodes x; db_tokens := db_tokens x; db_accounts := db_accounts x; db_whitelist :=
     db_whitelist x; db_packages := db_packages x; db_purchases := db_purchases x; db_entitlements :=
     db_entitlements x; db_reports := db_reports x; db_samples := db_samples x; db_daily := db_daily x;
     db_current := db_current x; db_revisions := db_revisions x; db_wgpeers := v; db_wgseq := db_wgseq x;
     db_notify := db_notify x |}.
Definition set_wgseq (v : Z) (x : db) : db :=
  {| db_now := db_now x; db_next := db_next x; db_revseq := db_revseq x; db_services := db_services x;
     db_nodes := db_nodes x; db_tokens := db_tokens x; db_accounts := db_accounts x; db_whitelist :=
     db_whitelist x; db_packages := db_packages x; db_purchases := db_purchases x; db_entitlements :=
     db_entitlements x; db_reports := db_reports x; db_samples := db_samples x; db_daily := db_daily x;
     db_current := db_current x; db_revisions := db_revisions x; db_wgpeers := db_wgpeers x; db_wgseq := v;
     db_notify := db_notify x |}.
Definition set_notify (v : list Z) (x : db) : db :=
  {| db_now := db_now x; db_next := db_next x; db_revseq := db_revseq x; db_services := db_services x;
     db_nodes := db_nodes x; db_tokens := db_tokens x; db_accounts := db_accounts x; db_whitelist :=
     db_whitelist x; db_packages := db_packages x; db_purchases := db_purchases x; db_entitlements :=
     db_entitlements x; db_reports := db_reports x; db_samples := db_samples x; db_daily := db_daily x;
     db_current := db_current x; db_revisions := db_revisions x; db_wgpeers := db_wgpeers x; db_wgseq :=
     db_wgseq x; db_notify := v |}.
(** ** Errors *)

Inductive store_err :=
| ErrPackageNotFound | ErrPurchaseNotFound | ErrAccountNotFound | ErrAddressInUse
| ErrGuestLimit | ErrNoActiveEntitlement | ErrSelfWhitelist | ErrInviteNotFound
| ErrInvalidEnrollToken | ErrUnauthorized | ErrCompacted
| ErrDeriveAddress            (* "derive address": the npub does not decode *)
| ErrWgPeerLimit | ErrWgForbidden | ErrWgBadKey | ErrWgPeerNotFound | ErrWgPoolFull
| ErrWgNotActive | ErrWgBadEndpoint
| ErrScan                     (* a NULL read into a value that cannot hold it *)
| ErrRange                    (* a number that its column cannot hold *)
| UniqueViolation (index : gostr)
| ForeignKeyViolation.

#[export] Instance store_err_eq_dec : EqDecision store_err.
Proof. solve_decision. Defined.

(** ** Transactions *)

Definition Tx (A : Type) : Type := db -> result store_err (A * db).
Definition Store (A : Type) : Type := db -> result store_err A * db.

#[export] Instance tx_ret : MRet Tx := fun A a d => Ok (a, d).
#[export] Instance tx_bind : MBind Tx :=
  fun A B f m d => match m d with Ok (a, d') => f a d' | Err e => Err e end.
#[export] Instance store_ret : MRet Store := fun A a d => (Ok a, d).
#[export] Instance store_bind : MBind Store :=
  fun A B f m d => match m d with (Ok a, d') => f a d' | (Err e, d') => (Err e, d') end.

(** [inTx]: commit on success, roll back on error. *)
Definition inTx {A} (t : Tx A) : Store A :=
  fun d => match t d with Ok (a, d') => (Ok a, d') | Err e => (Err e, d) end.

Definition tx_fail {A} (e : store_err) : Tx A := fun _ => Err e.
Definition tx_get {A} (f : db -> A) : Tx A := fun d => Ok (f d, d).
Definition tx_modify (f : db -> db) : Tx unit := fun d => Ok (tt, f d).

(** A read outside a transaction. *)
Definition query {A} (f : db -> A) : Store A := fun d => (Ok (f d), d).
Definition fail {A} (e : store_err) : Store A := fun d => (Err e, d).

(** [gen_random_uuid()] *)
Definition fresh_id : Tx Z := fun d => Ok (db_next d, set_next (db_next d + 1) d).

(** [for _, x := range l { ... }] inside a transaction. *)
Fixpoint tx_for {A} (body : A -> Tx unit) (l : list A) : Tx unit :=
  match l with
  | [] => mret tt
  | x :: r => body x ;; tx_for body r
  end.

(** The first row satisfying [p], and the rows of a table updated in place. *)
Definition find_row {A} (p : A -> bool) (l : list A) : option A := head (filter (fun x => p x = true) l).
Definition update_rows {A} (p : A -> bool) (f : A -> A) (l : list A) : list A :=
  map (fun x => if p x then f x else x) l.
Definition delete_rows {A} (p : A -> bool) (l : list A) : list A := filter (fun x => p x = false) l.
Definition count_rows {A} (p : A -> bool) (l : list A) : Z := Z.of_nat (length (filter (fun x => p x = true) l)).

Lemma find_row_Some {A} (p : A -> bool) l x : find_row p l = Some x -> x ∈ l /\ p x = true.
Proof.
  unfold find_row. intros H. apply head_Some_elem_of in H. apply list_elem_of_filter in H. tauto.
Qed.

Lemma find_row_None {A} (p : A -> bool) l : find_row p l = None -> forall x, x ∈ l -> p x = false.
Proof.
  unfold find_row. intros H x Hx. destruct (filter _ l) as [|y r] eqn:E; [|done].
  destruct (p x) eqn:Ep; [|done]. assert (Hin : x ∈ filter (fun x => p x = true) l) by (by apply list_elem_of_filter).
  rewrite E in Hin. by apply elem_of_nil in Hin.
Qed.

Lemma elem_of_update_rows {A} (p : A -> bool) f l y :
  y ∈ update_rows p f l <-> exists x, x ∈ l /\ y = if p x then f x else x.
Proof. unfold update_rows. rewrite list_elem_of_fmap. split; intros (x & ? & ?); exists x; done. Qed.

Lemma elem_of_delete_rows {A} (p : A -> bool) l y : y ∈ delete_rows p l <-> y ∈ l /\ p y = false.
Proof. unfold delete_rows. rewrite list_elem_of_filter. tauto. Qed.

End DB.
