(* ===== verification/BackendAuthz.v ===== *)
(** * backend/store: the authorized set and its revision log

    Models backend/store/authz.go and CompactAuthzRevisions of
    backend/store/retention.go. *)

From S2P Require Import Prelude GoStrings Netip Authzhash BackendDB.
Import DB.

Module Authz.

(** ** The desired set *)

(** [now() >= starts_at AND now() <= expires_at AND (kind = 'time' OR
    volume_used < volume_bytes)]; a NULL volume compares as not true. *)
Definition entitlement_active (t : Z) (e : entitlement) : bool :=
  (en_starts e <=? t) && (t <=? en_expires e) &&
  (bool_decide (en_kind e = bs "time") ||
   match en_volume e with Some v => en_used e <? v | None => false end).

Definition has_entitlement (d : db) (acct : Z) : bool :=
  existsb (fun e => (en_account e =? acct) && entitlement_active (db_now d) e) (db_entitlements d).

Definition account_active (d : db) (acct : Z) : bool :=
  existsb (fun a => (ac_id a =? acct) && ac_active a) (db_accounts d).

(** A row that attributes its address: [enabled AND NOT pending]. *)
Definition active_row (w : wl) : bool := w_enabled w && negb (w_pending w).

(** [desiredSQL] *)
Definition desired_rows (d : db) : list (Addr * Z) :=
  map (fun w => (w_addr w, w_account w))
    (filter (fun w => active_row w && account_active d (w_account w) && has_entitlement d (w_account w) = true)
       (db_whitelist d)).

(** [scanAddrAccount]: a later row of the same address replaces an earlier one. *)
Definition scanAddrAccount (rows : list (Addr * Z)) : gmap Addr Z :=
  foldl (fun m r => <[r.1 := r.2]> m) ∅ rows.

Definition desired (d : db) : gmap Addr Z := scanAddrAccount (desired_rows d).

(** [SELECT COALESCE(max(rev), 0) FROM authz_revisions] *)
Definition max_rev (d : db) : Z := foldr (fun r m => Z.max (rv_rev r) m) 0 (db_revisions d).

(** [INSERT INTO authz_revisions(op, fips_addr, account_id)] *)
Definition append_rev (op : rev_op) (addr : Addr) (acct : Z) : Tx unit :=
  tx_modify (fun d =>
    let rev := db_revseq d + 1 in
    set_revseq rev (set_revisions (db_revisions d ++
      [{| rv_rev := rev; rv_op := op; rv_addr := addr; rv_account := Some acct; rv_created := db_now d |}]) d)).

Section Authz.
Context `{MI : MapIter}.

(** ** RecomputeAuthz *)

Definition recompute_add (current : gmap Addr Z) (r : Addr * Z) : Tx unit :=
  let '(addr, acct) := r in
  if bool_decide (current !! addr = Some acct) then mret tt else
  tx_modify (fun d => set_current (<[addr := acct]> (db_current d)) d) ;;
  append_rev op_add addr acct.

Definition recompute_del (desired : gmap Addr Z) (r : Addr * Z) : Tx unit :=
  let '(addr, acct) := r in
  if bool_decide (is_Some (desired !! addr)) then mret tt else
  tx_modify (fun d => set_current (delete addr (db_current d)) d) ;;
  append_rev op_del addr acct.

(** The advisory lock serializes calls: the model runs one at a time. *)
Definition RecomputeAuthz : Store (list Addr * Z) :=
  inTx (
    want ← tx_get desired;
    current ← tx_get db_current;
    tx_for (recompute_add current) (map_range want) ;;
    tx_for (recompute_del want) (map_range current) ;;
    let removed := (filter (fun r => want !! r.1 = None) (map_range current)).*1 in
    let changed := existsb (fun r => negb (bool_decide (current !! r.1 = Some r.2))) (map_range want) ||
                   negb (bool_decide (removed = [])) in
    rev ← tx_get max_rev;
    (if changed then tx_modify (fun d => set_notify (db_notify d ++ [rev]) d) else mret tt) ;;
    mret (removed, rev)).

(** ** Readers *)

Definition CurrentRev : Store Z := query max_rev.

Record AuthzMember := { mb_Addr : Addr; mb_Account : Z }.

Definition FullSet : Store (list AuthzMember * Z) :=
  query (fun d => (map (fun r => {| mb_Addr := r.1; mb_Account := r.2 |}) (map_range (db_current d)), max_rev d)).

(** The memoized AuthzStatus result, part of the in-memory [Store]. *)
Record authzStatus := { as_rev : Z; as_count : Z; as_hash : gostr }.

Definition no_status : authzStatus := {| as_rev := 0; as_count := 0; as_hash := [] |}.

(** [AuthzStatus]: the cache, then the answer (count, hash, rev) and the cache
    afterwards. *)
Definition AuthzStatus (cache : authzStatus) (d : db) : (Z * gostr * Z) * authzStatus :=
  let rev := max_rev d in
  if (as_rev cache =? rev) && negb (bool_decide (as_hash cache = [])) then
    ((as_count cache, as_hash cache, rev), cache)
  else
    let addrs := (map_range (db_current d)).*1 in
    let count := Z.of_nat (length addrs) in
    let hash := Authzhash.Of addrs in
    ((count, hash, rev), {| as_rev := rev; as_count := count; as_hash := hash |}).

(** [SELECT COALESCE(min(rev), 0) FROM authz_revisions] *)
Definition min_rev (d : db) : Z :=
  match db_revisions d with
  | [] => 0
  | r :: rest => foldr (fun r m => Z.min (rv_rev r) m) (rv_rev r) rest
  end.

Definition rev_le (x y : revision) : Prop := rv_rev x <= rv_rev y.
#[export] Instance rev_le_dec : RelDecision rev_le.
Proof. intros x y. unfold rev_le. apply _. Defined.

(** The replay of [rev > clientRev ORDER BY rev]: the last row of each address. *)
Definition replay (rows : list revision) : gmap Addr (rev_op * option Z) :=
  foldl (fun m r => <[rv_addr r := (rv_op r, rv_account r)]> m) ∅ rows.

Definition rows_after (clientRev : Z) (d : db) : list revision :=
  merge_sort rev_le (filter (fun r => clientRev < rv_rev r) (db_revisions d)).

(** [rows.Scan] of a NULL account into a string is an error. *)
Definition DeltaSince (clientRev : Z) : Store (list (Addr * option Z) * list Addr * Z) :=
  fun d =>
    if (0 <? min_rev d) && (clientRev + 1 <? min_rev d) then (Err ErrCompacted, d) else
    if existsb (fun r => bool_decide (rv_account r = None)) (rows_after clientRev d) then (Err ErrScan, d) else
    let final := map_range (replay (rows_after clientRev d)) in
    (Ok (omap (fun '(a, (op, acct)) => match op with op_add => Some (a, acct) | op_del => None end) final,
         omap (fun '(a, (op, _)) => match op with op_del => Some a | op_add => None end) final,
         max_rev d), d).

(** ** CompactAuthzRevisions: the number of rows deleted *)
Definition CompactAuthzRevisions (cutoff : Z) : Store Z :=
  fun d =>
    let gone := fun r => (rv_created r <? cutoff) && (rv_rev r <? max_rev d) in
    (Ok (count_rows gone (db_revisions d)), set_revisions (delete_rows gone (db_revisions d)) d).

End Authz.
End Authz.
