(* ===== verification/BackendAuthzFacts.v ===== *)
(** * backend/store: theorems about the authorized set

    After a recompute the materialized set is the desired set; the revision log
    always ends, per address, with the operation that produced its state; a delta
    applied to any set that was right at the client's revision gives the current
    set, across recomputes and compactions; the memoized fingerprint is never
    stale. *)

From S2P Require Import Prelude GoStrings Netip Authzhash BackendDB BackendAuthz.
Import DB Authz.

Module AuthzFacts.

(** ** The log invariant *)

Definition rev_lt (x y : revision) : Prop := rv_rev x < rv_rev y /\ rv_created x <= rv_created y.

(** Revisions are numbered and stamped in order, within the sequence and the
    clock, and the last entry of an address agrees with authz_current. *)
Record log_ok (d : db) : Prop := {
  log_sorted : StronglySorted rev_lt (db_revisions d);
  log_bounds : Forall (fun r => 0 < rv_rev r <= db_revseq d /\ rv_created r <= db_now d /\ is_Some (rv_account r))
    (db_revisions d);
  log_seq : 0 <= db_revseq d;
  log_last : forall a op acct, replay (db_revisions d) !! a = Some (op, acct) ->
    db_current d !! a = match op with op_add => acct | op_del => None end
}.

Lemma replay_snoc l r : replay (l ++ [r]) = <[rv_addr r := (rv_op r, rv_account r)]> (replay l).
Proof. unfold replay. by rewrite foldl_snoc. Qed.

Lemma replay_None l a : replay l !! a = None <-> forall r, r ∈ l -> rv_addr r <> a.
Proof.
  induction l as [|r l IH] using rev_ind.
  - split; [intros _ r Hr; by apply elem_of_nil in Hr|done].
  - rewrite replay_snoc, lookup_insert_None, IH. split.
    + intros [H1 H2] r' Hr'. apply elem_of_app in Hr' as [Hr'|Hr']; [by apply H1|].
      apply list_elem_of_singleton in Hr' as ->. done.
    + intros H. split; [intros r' Hr'; apply H, elem_of_app; by left|].
      apply H, elem_of_app. right. by apply list_elem_of_singleton.
Qed.

Lemma replay_app l1 l2 a :
  replay (l1 ++ l2) !! a = match replay l2 !! a with Some x => Some x | None => replay l1 !! a end.
Proof.
  induction l2 as [|r l2 IH] using rev_ind; [by rewrite app_nil_r|].
  rewrite app_assoc, !replay_snoc. destruct (decide (rv_addr r = a)) as [->|Hne].
  - by rewrite !lookup_insert_eq.
  - by rewrite !lookup_insert_ne.
Qed.

(** ** Changes *)

(** [changes d d']: only the set, the log, its sequence and the notifications
    differ; the log was extended above the old sequence, and an address without a
    new entry kept its state. *)
Definition other_tables (d d' : db) : Prop :=
  db_now d' = db_now d /\ db_next d' = db_next d /\ db_services d' = db_services d /\
  db_nodes d' = db_nodes d /\ db_tokens d' = db_tokens d /\ db_accounts d' = db_accounts d /\
  db_whitelist d' = db_whitelist d /\ db_packages d' = db_packages d /\ db_purchases d' = db_purchases d /\
  db_entitlements d' = db_entitlements d /\ db_reports d' = db_reports d /\ db_samples d' = db_samples d /\
  db_daily d' = db_daily d /\ db_wgpeers d' = db_wgpeers d /\ db_wgseq d' = db_wgseq d.

Record changes (d d' : db) : Prop := {
  ch_tables : other_tables d d';
  ch_seq : db_revseq d <= db_revseq d';
  ch_log : exists new, db_revisions d' = db_revisions d ++ new /\
    Forall (fun r => db_revseq d < rv_rev r) new /\
    forall a, (forall r, r ∈ new -> rv_addr r <> a) -> db_current d' !! a = db_current d !! a
}.

Lemma other_tables_refl d : other_tables d d.
Proof. by repeat split. Qed.

Lemma other_tables_trans d1 d2 d3 : other_tables d1 d2 -> other_tables d2 d3 -> other_tables d1 d3.
Proof. unfold other_tables. intuition congruence. Qed.

Lemma changes_refl d : changes d d.
Proof.
  split; [apply other_tables_refl|done|]. exists []. rewrite app_nil_r. by repeat split.
Qed.

Lemma changes_trans d1 d2 d3 : changes d1 d2 -> changes d2 d3 -> changes d1 d3.
Proof.
  intros [T1 S1 (n1 & E1 & F1 & C1)] [T2 S2 (n2 & E2 & F2 & C2)].
  split; [by eapply other_tables_trans|lia|]. exists (n1 ++ n2).
  rewrite E2, E1, app_assoc. split; [done|]. split.
  - apply Forall_app. split; [done|]. eapply Forall_weaken; [exact F2|]. cbn. lia.
  - intros a Ha. rewrite C2, C1; [done|intros r Hr; apply Ha, elem_of_app; by left|].
    intros r Hr. apply Ha, elem_of_app. by right.
Qed.

(** One change of the set with its log entry. *)
Definition change (op : rev_op) (a : Addr) (acct : Z) (d : db) : db :=
  let cur := match op with op_add => <[a := acct]> (db_current d) | op_del => delete a (db_current d) end in
  set_revseq (db_revseq d + 1) (set_revisions (db_revisions d ++
    [{| rv_rev := db_revseq d + 1; rv_op := op; rv_addr := a; rv_account := Some acct;
        rv_created := db_now d |}]) (set_current cur d)).

Lemma change_changes op a acct d : changes d (change op a acct d).
Proof.
  split; [by repeat split|cbn; lia|]. eexists. split; [reflexivity|]. split; [by repeat constructor; cbn; lia|].
  intros b Hb. assert (a <> b) by (apply (Hb _ (list_elem_of_here _ _))).
  cbn. destruct op; [by rewrite lookup_insert_ne|by rewrite lookup_delete_ne].
Qed.

Lemma change_log_ok op a acct d : log_ok d -> log_ok (change op a acct d).
Proof.
  intros [Hs Hb Hq Hl]. split; cbn.
  - apply StronglySorted_app_2; [|done|by repeat constructor]. intros x y Hx Hy.
    apply list_elem_of_singleton in Hy as ->. rewrite Forall_forall in Hb. specialize (Hb x Hx).
    unfold rev_lt. cbn. lia.
  - apply Forall_app. split.
    + eapply Forall_weaken; [exact Hb|]. cbn. intros r (? & ? & ?). split; [lia|done].
    + apply Forall_singleton. cbn. split; [lia|]. split; [done|]. by eexists.
  - lia.
  - intros b op' acct'. rewrite replay_snoc. cbn. destruct (decide (a = b)) as [->|Hne].
    + rewrite lookup_insert_eq. intros [= <- <-].
      destruct op; [by rewrite lookup_insert_eq|by rewrite lookup_delete_eq].
    + rewrite lookup_insert_ne by done. intros H.
      destruct op; [rewrite lookup_insert_ne by done|rewrite lookup_delete_ne by done]; by apply (Hl b).
Qed.

Section AuthzFacts.
Context `{MI : MapIter}.

Lemma recompute_add_eq cur a acct d :
  recompute_add cur (a, acct) d =
  Ok (tt, if bool_decide (cur !! a = Some acct) then d else change op_add a acct d).
Proof. unfold recompute_add. by case_bool_decide. Qed.

Lemma recompute_del_eq want a acct d :
  recompute_del want (a, acct) d =
  Ok (tt, if bool_decide (is_Some (want !! a)) then d else change op_del a acct d).
Proof. unfold recompute_del. by case_bool_decide. Qed.

Lemma tx_for_cons {A} (body : A -> Tx unit) x r d :
  tx_for body (x :: r) d = match body x d with Ok (_, d') => tx_for body r d' | Err e => Err e end.
Proof. cbn. unfold mbind, tx_bind. by destruct (body x d) as [[[] d']|e]. Qed.

(** The two loops. *)
Lemma add_loop cur l d :
  NoDup l.*1 -> (forall a acct, (a, acct) ∈ l -> db_current d !! a = cur !! a) ->
  exists d', tx_for (recompute_add cur) l d = Ok (tt, d') /\ changes d d' /\ (log_ok d -> log_ok d') /\
    (forall a acct, (a, acct) ∈ l -> db_current d' !! a = Some acct) /\
    (forall a, a ∉ l.*1 -> db_current d' !! a = db_current d !! a).
Proof.
  revert d; induction l as [|[a acct] l IH]; intros d ND Hcur.
  { exists d. split; [done|]. split; [apply changes_refl|]. split; [done|]. split; [|done].
    intros a acct H. by apply elem_of_nil in H. }
  cbn in ND. apply NoDup_cons in ND as [Hni ND].
  rewrite tx_for_cons, recompute_add_eq.
  set (d1 := if bool_decide _ then d else change op_add a acct d).
  assert (Hch : changes d d1) by (subst d1; case_bool_decide; [apply changes_refl|apply change_changes]).
  assert (Hlog : log_ok d -> log_ok d1) by (subst d1; case_bool_decide; [done|apply change_log_ok]).
  assert (Ha : db_current d1 !! a = Some acct).
  { subst d1. case_bool_decide as E; [|cbn; apply lookup_insert_eq]. rewrite <- E. apply (Hcur a acct). left. }
  assert (Hother : forall b, b <> a -> db_current d1 !! b = db_current d !! b).
  { intros b Hb. subst d1. case_bool_decide; [done|]. cbn. by rewrite lookup_insert_ne. }
  destruct (IH d1 ND) as (d' & E & C & L & H1 & H2).
  { intros b bc Hb. rewrite Hother; [apply (Hcur b bc); by right|]. intros ->. apply Hni.
    apply list_elem_of_fmap. by exists (a, bc). }
  exists d'. split; [done|]. split; [by eapply changes_trans|]. split; [by intros; apply L, Hlog|]. split.
  - intros b bc Hb. apply elem_of_cons in Hb as [[= -> ->]|Hb]; [|by apply H1]. by rewrite H2.
  - intros b Hb. cbn in Hb. apply not_elem_of_cons in Hb as [Hne Hb]. rewrite H2, Hother by done. done.
Qed.

Lemma del_loop want l d :
  NoDup l.*1 ->
  exists d', tx_for (recompute_del want) l d = Ok (tt, d') /\ changes d d' /\ (log_ok d -> log_ok d') /\
    (forall a, a ∈ l.*1 -> want !! a = None -> db_current d' !! a = None) /\
    (forall a, a ∉ l.*1 \/ is_Some (want !! a) -> db_current d' !! a = db_current d !! a).
Proof.
  revert d; induction l as [|[a acct] l IH]; intros d ND.
  { exists d. split; [done|]. split; [apply changes_refl|]. split; [done|]. split; [|done].
    intros a H. by apply elem_of_nil in H. }
  cbn in ND. apply NoDup_cons in ND as [Hni ND].
  rewrite tx_for_cons, recompute_del_eq.
  set (d1 := if bool_decide _ then d else change op_del a acct d).
  assert (Hch : changes d d1) by (subst d1; case_bool_decide; [apply changes_refl|apply change_changes]).
  assert (Hlog : log_ok d -> log_ok d1) by (subst d1; case_bool_decide; [done|apply change_log_ok]).
  assert (Ha : want !! a = None -> db_current d1 !! a = None).
  { intros E. subst d1. rewrite bool_decide_eq_false_2; [cbn; apply lookup_delete_eq|].
    rewrite E. by intros []. }
  assert (Hother : forall b, b <> a \/ is_Some (want !! b) -> db_current d1 !! b = db_current d !! b).
  { intros b Hb. subst d1. case_bool_decide as E; [done|]. cbn. rewrite lookup_delete_ne; [done|].
    intros ->. by destruct Hb. }
  destruct (IH d1 ND) as (d' & E & C & L & H1 & H2).
  exists d'. split; [done|]. split; [by eapply changes_trans|]. split; [by intros; apply L, Hlog|]. split.
  - intros b Hb Hw. cbn in Hb. apply elem_of_cons in Hb as [->|Hb]; [|by apply H1].
    rewrite H2 by (by left). by apply Ha.
  - intros b Hb. cbn in Hb. rewrite not_elem_of_cons in Hb.
    rewrite H2 by tauto. apply Hother. tauto.
Qed.

Lemma max_rev_ge d r : r ∈ db_revisions d -> rv_rev r <= max_rev d.
Proof.
  unfold max_rev. induction (db_revisions d) as [|x l IH]; intros H; [by apply elem_of_nil in H|].
  cbn. apply elem_of_cons in H as [->|H]; [lia|]. specialize (IH H). lia.
Qed.

Lemma max_rev_attained d : db_revisions d <> [] -> Forall (fun r => 0 < rv_rev r) (db_revisions d) ->
  exists r, r ∈ db_revisions d /\ rv_rev r = max_rev d.
Proof.
  unfold max_rev. intros Hne HF. induction HF as [|x l Hx HF IH]; [done|]. cbn.
  destruct l as [|y l]; [exists x; split; [left|cbn in *; lia]|].
  destruct (IH ltac:(done)) as (r & Hr & E).
  destruct (Z.max_spec (rv_rev x) (foldr (fun r m => Z.max (rv_rev r) m) 0 (y :: l))) as [[_ ->]|[_ ->]].
  - exists r. split; [by right|done].
  - exists x. split; [left|done].
Qed.

(** What [RecomputeAuthz] does, in one statement. *)
Lemma recompute_run d :
  exists removed rev d',
    RecomputeAuthz d = (Ok (removed, rev), d') /\ changes d d' /\ (log_ok d -> log_ok d') /\
    db_current d' = desired d /\ rev = max_rev d' /\
    NoDup removed /\ (forall a, a ∈ removed <-> is_Some (db_current d !! a) /\ desired d !! a = None).
Proof.
  unfold RecomputeAuthz, inTx. unfold mbind, tx_bind, tx_get, mret, tx_ret.
  destruct (add_loop (db_current d) (map_range (desired d)) d (NoDup_fst_map_range _)) as (d1 & E1 & C1 & L1 & A1 & A2).
  { done. }
  rewrite E1.
  destruct (del_loop (desired d) (map_range (db_current d)) d1 (NoDup_fst_map_range _)) as (d2 & E2 & C2 & L2 & B1 & B2).
  rewrite E2. clear E1 E2.
  assert (Hcur : db_current d2 = desired d).
  { apply map_eq. intros a. destruct (desired d !! a) as [acct|] eqn:Ea.
    - rewrite B2 by (right; by rewrite Ea). apply A1. by apply elem_of_map_range.
    - assert (Hn : a ∉ (map_range (desired d)).*1).
      { intros H. apply list_elem_of_fmap in H as ([a' v] & -> & H). apply elem_of_map_range in H. cbn in Ea. congruence. }
      destruct (db_current d !! a) as [acct|] eqn:Ec.
      + apply B1; [|done]. apply list_elem_of_fmap. exists (a, acct). split; [done|]. by apply elem_of_map_range.
      + rewrite B2; [rewrite A2 by done; done|]. left. intros H.
        apply list_elem_of_fmap in H as ([a' v] & -> & H). apply elem_of_map_range in H. cbn in Ec. congruence. }
  set (removed := (filter _ (map_range (db_current d))).*1).
  exists removed. set (ch := existsb _ _ || _).
  exists (max_rev d2), (if ch then set_notify (db_notify d2 ++ [max_rev d2]) d2 else d2).
  assert (Hfin : changes d d2) by (by eapply changes_trans).
  split; [by destruct ch|]. split.
  { destruct ch; [|done]. destruct Hfin as [T S Lg]. split; [by cbn|done|done]. }
  split. { intros Hl. specialize (L2 (L1 Hl)). destruct ch; [|done]. by destruct L2. }
  split; [by destruct ch|]. split; [by destruct ch|]. split.
  - subst removed. pose proof (NoDup_fst_map_range (db_current d)) as ND.
    by apply NoDup_fst_filter.
  - intros a. subst removed. split.
    + intros H. apply list_elem_of_fmap in H as ([a' v] & -> & H).
      apply list_elem_of_filter in H as [H1 H2]. apply elem_of_map_range in H2. cbn in *. by rewrite H2.
    + intros [[v Hv] Hw]. apply list_elem_of_fmap. exists (a, v). split; [done|].
      apply list_elem_of_filter. split; [done|]. by apply elem_of_map_range.
Qed.

(** ** Coherence of a client *)

(** [S] is what a client last applied, at revision [c]: unless the log was
    compacted past [c], every address without an entry above [c] is in [S]
    exactly when it is authorized. *)
Definition coherent (S : gset Addr) (c : Z) (d : db) : Prop :=
  (db_revisions d <> [] /\ c + 1 < min_rev d) \/
  (forall a, (forall r, r ∈ db_revisions d -> c < rv_rev r -> rv_addr r <> a) ->
     (a ∈ S <-> is_Some (db_current d !! a))).

Lemma foldr_min_le (l : list revision) z :
  foldr (fun r m => Z.min (rv_rev r) m) z l <= z /\
  forall y, y ∈ l -> foldr (fun r m => Z.min (rv_rev r) m) z l <= rv_rev y.
Proof.
  induction l as [|y l [IH1 IH2]]; cbn; [split; [lia|intros y Hy; by apply elem_of_nil in Hy]|].
  split; [lia|]. intros y' Hy. apply elem_of_cons in Hy as [->|Hy]; [lia|]. specialize (IH2 y' Hy). lia.
Qed.

Lemma min_rev_le d r : r ∈ db_revisions d -> min_rev d <= rv_rev r.
Proof.
  unfold min_rev. destruct (db_revisions d) as [|x l]; [intros H; by apply elem_of_nil in H|].
  intros H. destruct (foldr_min_le l (rv_rev x)) as [G1 G2].
  apply elem_of_cons in H as [->|H]; [done|by apply G2].
Qed.

Lemma min_rev_attained d : db_revisions d <> [] -> exists r, r ∈ db_revisions d /\ rv_rev r = min_rev d.
Proof.
  unfold min_rev. destruct (db_revisions d) as [|x l]; [done|]. intros _.
  assert (G : forall x, exists r, r ∈ x :: l /\ rv_rev r = foldr (fun r m => Z.min (rv_rev r) m) (rv_rev x) l).
  { clear x. induction l as [|y l IH]; intros x; [exists x; split; [left|done]|]. cbn.
    destruct (IH x) as (r & Hr & E).
    destruct (Z.min_spec (rv_rev y) (foldr (fun r m => Z.min (rv_rev r) m) (rv_rev x) l)) as [[_ ->]|[_ ->]].
    - exists y. split; [right; left|done].
    - exists r. split; [|done]. apply elem_of_cons in Hr as [->|Hr]; [left|right; by right]. }
  apply G.
Qed.

(** Recomputes keep every client coherent, whatever its revision. *)
Lemma changes_coherent d d' S c :
  log_ok d -> log_ok d' -> changes d d' -> c <= db_revseq d -> coherent S c d -> coherent S c d'.
Proof.
  intros Hl Hl' [_ Hs (new & E & F & C)] Hc [[Hne Hm]|H].
  - left. split; [rewrite E; by destruct (db_revisions d)|].
    destruct (min_rev_attained d') as (r & Hr & Er); [rewrite E; by destruct (db_revisions d)|].
    rewrite E in Hr. apply elem_of_app in Hr as [Hr|Hr].
    + pose proof (min_rev_le d r Hr). lia.
    + rewrite Forall_forall in F. specialize (F r Hr). destruct (min_rev_attained d Hne) as (r0 & Hr0 & E0).
      destruct Hl as [_ Hb _ _]. rewrite Forall_forall in Hb. specialize (Hb r0 Hr0). lia.
  - right. intros a Ha. rewrite C.
    + apply H. intros r Hr. apply Ha. rewrite E. apply elem_of_app. by left.
    + intros r Hr. apply Ha; [rewrite E; apply elem_of_app; by right|].
      rewrite Forall_forall in F. specialize (F r Hr). lia.
Qed.

(** ** The delta *)

#[local] Instance rev_le_total : Total rev_le.
Proof. intros x y. unfold rev_le. lia. Qed.
#[local] Instance rev_le_trans : Transitive rev_le.
Proof. intros x y z. unfold rev_le. lia. Qed.

Lemma sorted_weaken l : StronglySorted rev_lt l -> StronglySorted rev_le l.
Proof.
  induction 1 as [|x l Hl IH Hx]; constructor; [done|]. eapply Forall_weaken; [exact Hx|].
  intros y [H _]. unfold rev_le. lia.
Qed.

Lemma StronglySorted_filter {A} (R : relation A) (P : A -> Prop) `{!forall x, Decision (P x)} (l : list A) :
  StronglySorted R l -> StronglySorted R (filter P l).
Proof.
  induction 1 as [|x l Hl IH Hx]; [constructor|]. rewrite filter_cons. destruct (decide (P x)); [|done].
  constructor; [done|]. rewrite Forall_forall in Hx |- *. intros y Hy.
  apply list_elem_of_filter in Hy as [_ Hy]. by apply Hx.
Qed.

Lemma sorted_distinct l x y :
  StronglySorted rev_lt l -> x ∈ l -> y ∈ l -> rv_rev x = rv_rev y -> x = y.
Proof.
  intros Hl. revert x y; induction Hl as [|z l Hl IH Hz]; intros x y Hx Hy E; [by apply elem_of_nil in Hx|].
  rewrite Forall_forall in Hz. apply elem_of_cons in Hx. apply elem_of_cons in Hy.
  destruct Hx as [Ex|Hx], Hy as [Ey|Hy]; subst.
  - done.
  - destruct (Hz y Hy). lia.
  - destruct (Hz x Hx). lia.
  - by apply IH.
Qed.

Lemma rows_after_eq c d : StronglySorted rev_lt (db_revisions d) ->
  rows_after c d = filter (fun r => c < rv_rev r) (db_revisions d).
Proof.
  intros Hs. unfold rows_after. set (l := filter _ _).
  assert (Hl : StronglySorted rev_lt l) by (by apply StronglySorted_filter).
  apply (StronglySorted_unique_strong rev_le).
  - intros x y Hx Hy H1 H2. rewrite merge_sort_Permutation in Hx. apply (sorted_distinct l); try done.
    unfold rev_le in *. lia.
  - apply StronglySorted_merge_sort; apply _.
  - by apply sorted_weaken.
  - apply merge_sort_Permutation.
Qed.

(** In a sorted log the rows above a revision are a suffix. *)
Lemma filter_suffix l c : StronglySorted rev_lt l ->
  exists l1, l = l1 ++ filter (fun r => c < rv_rev r) l /\ forall r, r ∈ l1 -> rv_rev r <= c.
Proof.
  induction 1 as [|x l Hl IH Hx]; [exists []; split; [done|intros r Hr; by apply elem_of_nil in Hr]|].
  destruct (decide (c < rv_rev x)) as [Hc|Hc].
  - exists []. split; [|intros r Hr; by apply elem_of_nil in Hr].
    rewrite filter_cons_True by done. cbn. f_equal. symmetry. apply filter_all.
    eapply Forall_weaken; [exact Hx|]. intros y [H _]. lia.
  - destruct IH as (l1 & E & H1). exists (x :: l1). rewrite filter_cons_False by done. split; [by rewrite E at 1|].
    intros r Hr. apply elem_of_cons in Hr as [->|Hr]; [lia|by apply H1].
Qed.

Lemma replay_after c d a x : log_ok d ->
  replay (rows_after c d) !! a = Some x -> replay (db_revisions d) !! a = Some x.
Proof.
  intros [Hs _ _ _]. rewrite rows_after_eq by done.
  destruct (filter_suffix _ c Hs) as (l1 & E & _). intros H. rewrite E, replay_app, H. done.
Qed.

Lemma replay_account d a op acct : log_ok d ->
  replay (db_revisions d) !! a = Some (op, acct) -> is_Some acct.
Proof.
  intros [_ Hb _ _]. induction (db_revisions d) as [|r l IH] using rev_ind; [done|].
  apply Forall_app in Hb as [Hb Hr]. apply Forall_cons_1 in Hr as [Hr _].
  rewrite replay_snoc. destruct (decide (rv_addr r = a)) as [->|Hne].
  - rewrite lookup_insert_eq. intros [= <- <-]. apply Hr.
  - rewrite lookup_insert_ne by done. by apply IH.
Qed.

Lemma replay_after_None c d a : log_ok d ->
  replay (rows_after c d) !! a = None <-> forall r, r ∈ db_revisions d -> c < rv_rev r -> rv_addr r <> a.
Proof.
  intros [Hs _ _ _]. rewrite rows_after_eq, replay_None by done. split.
  - intros H r Hr Hc. apply H. by apply list_elem_of_filter.
  - intros H r Hr. apply list_elem_of_filter in Hr as [Hc Hr]. by apply H.
Qed.

Definition delta_add (x : list (Addr * option Z)) : gset Addr := list_to_set x.*1.
Definition delta_del (x : list Addr) : gset Addr := list_to_set x.

Lemma elem_of_delta_add c d a :
  a ∈ delta_add (omap (fun '(a, (op, acct)) => match op with op_add => Some (a, acct) | op_del => None end)
      (map_range (replay (rows_after c d)))) <->
  exists acct, replay (rows_after c d) !! a = Some (op_add, acct).
Proof.
  unfold delta_add. rewrite elem_of_list_to_set. split.
  - intros H. apply list_elem_of_fmap in H as ([a' acct] & -> & H).
    apply list_elem_of_omap in H as ([b [[|] acct']] & H & E); [|done]. inv E.
    apply elem_of_map_range in H. by exists acct.
  - intros [acct H]. apply list_elem_of_fmap. exists (a, acct). split; [done|].
    apply list_elem_of_omap. exists (a, (op_add, acct)). split; [by apply elem_of_map_range|done].
Qed.

Lemma elem_of_delta_del c d a :
  a ∈ omap (fun '(a, (op, _)) => match op with op_del => Some a | op_add => None end)
      (map_range (replay (rows_after c d))) <->
  exists acct, replay (rows_after c d) !! a = Some (op_del, acct).
Proof.
  split.
  - intros H. apply list_elem_of_omap in H as ([b [[|] acct']] & H & E); [done|]. inv E.
    apply elem_of_map_range in H. by exists acct'.
  - intros [acct H]. apply list_elem_of_omap. exists (a, (op_del, acct)). split; [by apply elem_of_map_range|done].
Qed.

Lemma NoDup_delta_del c d :
  NoDup (omap (fun '(a, (op, _)) => match op with op_del => Some a | op_add => None end)
      (map_range (replay (rows_after c d)))).
Proof.
  pose proof (NoDup_fst_map_range (replay (rows_after c d))) as ND.
  induction (map_range _) as [|[a [[|] acct]] l IH]; cbn; [constructor|..];
    rewrite fmap_cons in ND; apply NoDup_cons in ND as [Hni ND]; [by apply IH|].
  apply NoDup_cons. split; [|by apply IH]. intros H. apply Hni.
  apply list_elem_of_omap in H as ([b [[|] acct']] & H & E); [done|]. inv E.
  apply list_elem_of_fmap. by exists (a, (op_del, acct')).
Qed.

(** A delta against a coherent client. *)
Lemma delta_run S c d add del rev :
  log_ok d -> coherent S c d -> (DeltaSince c d).1 = Ok (add, del, rev) ->
  (S ∪ delta_add add) ∖ delta_del del = dom (db_current d) /\
  delta_add add ## delta_del del /\ NoDup del /\ rev = max_rev d.
Proof.
  intros Hlog Hco. unfold DeltaSince. destruct ((0 <? min_rev d) && _) eqn:Em; [done|].
  destruct (existsb _ _); [done|]. cbn. intros [= <- <- <-].
  assert (Hco' : forall a, (forall r, r ∈ db_revisions d -> c < rv_rev r -> rv_addr r <> a) ->
     (a ∈ S <-> is_Some (db_current d !! a))).
  { destruct Hco as [[Hne Hm]|Hco]; [|done]. exfalso.
    destruct (min_rev_attained d Hne) as (r & Hr & Er).
    destruct Hlog as [_ Hb _ _]. rewrite Forall_forall in Hb. specialize (Hb r Hr).
    apply andb_false_iff in Em as [Em|Em]; bool_hyps; lia. }
  repeat split.
  - apply set_eq. intros a. rewrite elem_of_difference, elem_of_union, elem_of_delta_add.
    unfold delta_del. rewrite elem_of_list_to_set, elem_of_delta_del, elem_of_dom.
    destruct (replay (rows_after c d) !! a) as [[[|] acct]|] eqn:Er.
    + pose proof (log_last d Hlog _ _ _ (replay_after _ _ _ _ Hlog Er)) as Hl. cbn in Hl.
      assert (Hs : is_Some acct) by (by eapply replay_account; [exact Hlog|eapply replay_after]).
      rewrite Hl. split; [done|]. intros _. split; [right; by eexists|]. by intros [? [=]].
    + pose proof (log_last d Hlog _ _ _ (replay_after _ _ _ _ Hlog Er)) as Hl. cbn in Hl. rewrite Hl.
      split; [intros [_ Hn]; exfalso; apply Hn; by eexists|by intros []].
    + rewrite (Hco' a (proj1 (replay_after_None c d a Hlog) Er)).
      split; [intros [[H|[? [=]]] _]; done|intros H; split; [by left|by intros [? [=]]]].
  - intros a. rewrite elem_of_delta_add. unfold delta_del. rewrite elem_of_list_to_set, elem_of_delta_del.
    intros [x Hx] [y Hy]. congruence.
  - apply NoDup_delta_del.
Qed.

(** ** Compaction *)

(** A filter by a property that later rows inherit keeps a suffix. *)
Lemma upward_suffix (P : revision -> Prop) `{!forall x, Decision (P x)} l :
  (forall x y, rev_lt x y -> P x -> P y) -> StronglySorted rev_lt l ->
  exists l1, l = l1 ++ filter P l /\ forall r, r ∈ l1 -> ~ P r.
Proof.
  intros Hup. induction 1 as [|x l Hl IH Hx]; [exists []; split; [done|intros r Hr; by apply elem_of_nil in Hr]|].
  destruct (decide (P x)) as [Hp|Hp].
  - exists []. split; [|intros r Hr; by apply elem_of_nil in Hr].
    rewrite filter_cons_True by done. cbn. f_equal. symmetry. apply filter_all.
    eapply Forall_weaken; [exact Hx|]. intros y Hxy. by apply (Hup x).
  - destruct IH as (l1 & E & H1). exists (x :: l1). rewrite filter_cons_False by done. split; [by rewrite E at 1|].
    intros r Hr. apply elem_of_cons in Hr as [->|Hr]; [done|by apply H1].
Qed.

Definition kept (cutoff m : Z) (r : revision) : Prop := (rv_created r <? cutoff) && (rv_rev r <? m) = false.

#[local] Instance kept_dec cutoff m r : Decision (kept cutoff m r).
Proof. unfold kept. apply _. Defined.

Lemma kept_iff cutoff m r : kept cutoff m r <-> cutoff <= rv_created r \/ m <= rv_rev r.
Proof. unfold kept. rewrite andb_false_iff, !Z.ltb_ge. done. Qed.

Lemma kept_upward cutoff m x y : rev_lt x y -> kept cutoff m x -> kept cutoff m y.
Proof. rewrite !kept_iff. unfold rev_lt. lia. Qed.

(** Compaction removes a prefix of the log, never the newest row. *)
Lemma compact_run cutoff d n d' :
  log_ok d -> CompactAuthzRevisions cutoff d = (Ok n, d') ->
  d' = set_revisions (db_revisions d') d /\
  (exists l1, db_revisions d = l1 ++ db_revisions d' /\
     (db_revisions d <> [] -> db_revisions d' <> []) /\
     forall x y, x ∈ l1 -> y ∈ db_revisions d' -> rv_rev x < rv_rev y).
Proof.
  intros [Hs Hb _ _]. unfold CompactAuthzRevisions. intros H. inv H. split; [done|].
  cbn [db_revisions set_revisions]. unfold delete_rows.
  destruct (upward_suffix (kept cutoff (max_rev d)) (db_revisions d)) as (l1 & E & H1);
    [intros x y; apply kept_upward|done|].
  exists l1. split; [exact E|]. split.
  - intros Hne Hnil. destruct (max_rev_attained d) as (r & Hr & Er); [done|eapply Forall_weaken; [exact Hb|cbn; lia]|].
    apply (not_elem_of_nil r). rewrite <- Hnil. apply list_elem_of_filter. split; [apply kept_iff; lia|done].
  - intros x y Hx Hy. rewrite E in Hs. by destruct (StronglySorted_app_1_elem_of _ _ _ x y Hs Hx Hy).
Qed.

Lemma compact_log_ok cutoff d n d' :
  log_ok d -> CompactAuthzRevisions cutoff d = (Ok n, d') -> log_ok d'.
Proof.
  intros Hl H. destruct (compact_run _ _ _ _ Hl H) as (Ed & l1 & E & _). destruct Hl as [Hs Hb Hq Hll].
  rewrite Ed. split; cbn [db_revisions set_revisions db_revseq db_now db_current].
  - rewrite E in Hs. by eapply StronglySorted_app_1_r.
  - rewrite E in Hb. by apply Forall_app in Hb as [_ ?].
  - done.
  - intros a op acct Hr. apply (Hll a). by rewrite E, replay_app, Hr.
Qed.

Lemma compact_max_rev cutoff d n d' :
  log_ok d -> CompactAuthzRevisions cutoff d = (Ok n, d') -> max_rev d' = max_rev d.
Proof.
  intros Hl H. pose proof (compact_log_ok _ _ _ _ Hl H) as Hl'.
  destruct (compact_run _ _ _ _ Hl H) as (_ & l1 & E & Hne & Hlt).
  destruct (decide (db_revisions d = [])) as [En|Hn].
  { unfold max_rev. rewrite En in E. symmetry in E. apply app_eq_nil in E as [_ ->]. by rewrite En. }
  destruct (max_rev_attained d Hn) as (r & Hr & Er).
  { eapply Forall_weaken; [apply (log_bounds d Hl)|]. cbn. lia. }
  destruct (max_rev_attained d' (Hne Hn)) as (r' & Hr' & Er').
  { eapply Forall_weaken; [apply (log_bounds d' Hl')|]. cbn. lia. }
  assert (r' ∈ db_revisions d) by (rewrite E; apply elem_of_app; by right).
  pose proof (max_rev_ge d r' ltac:(done)). rewrite E in Hr. apply elem_of_app in Hr as [Hr|Hr].
  - specialize (Hlt r r' Hr Hr'). lia.
  - pose proof (max_rev_ge d' r Hr). lia.
Qed.

Lemma compact_coherent cutoff d n d' S c :
  log_ok d -> CompactAuthzRevisions cutoff d = (Ok n, d') -> coherent S c d -> coherent S c d'.
Proof.
  intros Hl H Hco. destruct (compact_run _ _ _ _ Hl H) as (Ed & l1 & E & Hne & Hlt).
  destruct (decide (Exists (fun r => c < rv_rev r) l1)) as [Hex|Hnex].
  - left. apply Exists_exists in Hex as (r & Hr & Hc).
    assert (Hn : db_revisions d' <> []) by (apply Hne; rewrite E; intros [-> _]%app_eq_nil; by apply elem_of_nil in Hr).
    split; [done|]. destruct (min_rev_attained d' Hn) as (r' & Hr' & <-). specialize (Hlt r r' Hr Hr'). lia.
  - destruct Hco as [[Hn Hm]|Hco].
    + left. split; [by apply Hne|]. destruct (min_rev_attained d' (Hne Hn)) as (r' & Hr' & <-).
      pose proof (min_rev_le d r'). rewrite E in H0. specialize (H0 ltac:(apply elem_of_app; by right)). lia.
    + right. intros a Ha. replace (db_current d') with (db_current d) by (by rewrite Ed). apply Hco.
      intros r Hr Hc. rewrite E in Hr. apply elem_of_app in Hr as [Hr|Hr]; [|by apply Ha].
      exfalso. apply Hnex. apply Exists_exists. by exists r.
Qed.

(** ** Histories *)

(** What may happen to the log between two syncs of a client: recomputes,
    compactions, and anything that leaves the set and its log alone (time passes,
    sequence values are skipped, other tables change). *)
Inductive log_step (d : db) : db -> Prop :=
| step_recompute r d' : RecomputeAuthz d = (r, d') -> log_step d d'
| step_compact cutoff r d' : CompactAuthzRevisions cutoff d = (r, d') -> log_step d d'
| step_other d' : db_current d' = db_current d -> db_revisions d' = db_revisions d ->
    db_revseq d <= db_revseq d' -> db_now d <= db_now d' -> log_step d d'.

Lemma log_step_spec d d' : log_step d d' -> log_ok d ->
  log_ok d' /\ db_revseq d <= db_revseq d' /\
  forall S c, c <= db_revseq d -> coherent S c d -> coherent S c d'.
Proof.
  intros [r d1 H|cutoff r d1 H|d1 E1 E2 E3 E4] Hl.
  - destruct (recompute_run d) as (rm & rv & d2 & E & C & L & _). rewrite E in H. inv H.
    split; [by apply L|]. split; [apply C|]. intros S c Hc. apply changes_coherent; auto.
  - destruct r as [n|e]; [|done]. split; [by eapply compact_log_ok|].
    destruct (compact_run _ _ _ _ Hl H) as (Ed & _). split; [by rewrite Ed|].
    intros S c _. by eapply compact_coherent.
  - split; [|split; [done|]].
    + destruct Hl as [Hs Hb Hq Hll]. split; rewrite ?E1, ?E2; try done; [|lia].
      eapply Forall_weaken; [exact Hb|]. cbn. intros r (? & ? & ?). repeat split; lia || done.
    + intros S c _. unfold coherent, min_rev. rewrite E1, E2. done.
Qed.

Lemma log_steps_spec d d' : rtc log_step d d' -> log_ok d ->
  log_ok d' /\ db_revseq d <= db_revseq d' /\
  forall S c, c <= db_revseq d -> coherent S c d -> coherent S c d'.
Proof.
  induction 1 as [d|d1 d2 d3 H12 _ IH]; intros Hl; [done|].
  destruct (log_step_spec _ _ H12 Hl) as (Hl2 & Hs2 & Hc2).
  destruct (IH Hl2) as (Hl3 & Hs3 & Hc3). split; [done|]. split; [lia|].
  intros S c Hc Hco. apply Hc3; [lia|]. by apply Hc2.
Qed.

Lemma max_rev_bound d : log_ok d -> 0 <= max_rev d <= db_revseq d.
Proof.
  intros [_ Hb Hq _]. unfold max_rev. induction Hb as [|r l [Hr _] Hb IH]; cbn in *; lia.
Qed.

(** A client that has just applied the current set is coherent. *)
Lemma coherent_current d : log_ok d -> coherent (dom (db_current d)) (max_rev d) d.
Proof. intros _. right. intros a _. apply elem_of_dom. Qed.

(** ** Theorems *)

Lemma scan_rows_lookup rows a :
  is_Some (scanAddrAccount rows !! a) <-> exists acct, (a, acct) ∈ rows.
Proof.
  unfold scanAddrAccount. induction rows as [|[b acct] rows IH] using rev_ind.
  - split; [by intros []|intros [? H]; by apply elem_of_nil in H].
  - rewrite foldl_snoc. cbn. rewrite lookup_insert_is_Some', IH. split.
    + intros [->|[x Hx]]; [exists acct|exists x]; apply elem_of_app; [right; left|by left].
    + intros [x Hx]. apply elem_of_app in Hx as [Hx|Hx]; [right; by exists x|].
      apply list_elem_of_singleton in Hx as [= -> ->]. by left.
Qed.

(** An address has a row that attributes it to a paying, active account. *)
Definition entitled (d : db) (a : Addr) : Prop :=
  exists w, w ∈ db_whitelist d /\ w_addr w = a /\ active_row w = true /\
    account_active d (w_account w) = true /\ has_entitlement d (w_account w) = true.

Lemma desired_entitled d a : is_Some (desired d !! a) <-> entitled d a.
Proof.
  unfold desired. rewrite scan_rows_lookup. unfold desired_rows, entitled. split.
  - intros [acct H]. apply list_elem_of_fmap in H as (w & E & H). inv E.
    apply list_elem_of_filter in H as [H Hw]. bool_hyps. by exists w.
  - intros (w & Hw & <- & H1 & H2 & H3). exists (w_account w). apply list_elem_of_fmap. exists w. split; [done|].
    apply list_elem_of_filter. by rewrite H1, H2, H3.
Qed.

Lemma tx_for_noop {A} (body : A -> Tx unit) l d :
  (forall x, x ∈ l -> body x d = Ok (tt, d)) -> tx_for body l d = Ok (tt, d).
Proof.
  induction l as [|x l IH]; intros H; [done|]. rewrite tx_for_cons, H by left. apply IH.
  intros y Hy. apply H. by right.
Qed.

Lemma recompute_stable d : db_current d = desired d -> RecomputeAuthz d = (Ok ([], max_rev d), d).
Proof.
  intros E. unfold RecomputeAuthz, inTx. unfold mbind, tx_bind, tx_get, mret, tx_ret. rewrite E.
  rewrite tx_for_noop.
  2:{ intros [a acct] H. apply elem_of_map_range in H. by rewrite recompute_add_eq, bool_decide_eq_true_2. }
  rewrite tx_for_noop.
  2:{ intros [a acct] H. apply elem_of_map_range in H. rewrite recompute_del_eq, bool_decide_eq_true_2; [done|].
      by rewrite H. }
  rewrite (filter_none _ (map_range (desired d))).
  2:{ apply Forall_forall. intros [a acct] H. apply elem_of_map_range in H. cbn. congruence. }
  replace (existsb _ _) with false; [done|]. symmetry. apply not_true_iff_false. intros H.
  apply existsb_exists in H as ([a acct] & Hin & H). apply list_elem_of_In, elem_of_map_range in Hin.
  cbn in H. by rewrite bool_decide_eq_true_2 in H.
Qed.

Lemma desired_other d d' : other_tables d d' -> desired d' = desired d.
Proof.
  intros (E1 & _ & _ & _ & _ & E2 & E3 & _ & _ & E4 & _). unfold desired, desired_rows, account_active, has_entitlement.
  by rewrite E1, E2, E3, E4.
Qed.

(** [C14] A recompute always succeeds and makes the materialized set exactly the
    set of addresses with an enabled, accepted row of an active account that has
    an active entitlement; the addresses it returns for inline revocation are
    exactly those that just lost access, each once; the revision it returns is
    the log's; nothing outside the set, its log and the notification changes; and
    doing it again changes nothing at all. *)
Theorem RecomputeAuthz_spec d :
  log_ok d ->
  exists removed rev d', RecomputeAuthz d = (Ok (removed, rev), d') /\
    (forall a, is_Some (db_current d' !! a) <-> entitled d a) /\
    (forall a, a ∈ removed <-> is_Some (db_current d !! a) /\ ~ entitled d a) /\ NoDup removed /\
    rev = max_rev d' /\ log_ok d' /\ other_tables d d' /\
    RecomputeAuthz d' = (Ok ([], rev), d').
Proof.
  intros Hl. destruct (recompute_run d) as (removed & rev & d' & E & C & L & Hcur & Hrev & ND & Hrm).
  exists removed, rev, d'. split; [done|]. split.
  { intros a. rewrite Hcur. apply desired_entitled. }
  split. { intros a. by rewrite Hrm, <- desired_entitled, <- eq_None_not_Some. }
  split; [done|]. split; [done|]. split; [by apply L|]. split; [apply C|].
  rewrite Hrev. apply recompute_stable. by rewrite Hcur, (desired_other d d') by apply C.
Qed.

Lemma rows_have_accounts c d : log_ok d ->
  existsb (fun r => bool_decide (rv_account r = None)) (rows_after c d) = false.
Proof.
  intros [_ Hb _ _]. apply not_true_iff_false. intros H. apply existsb_exists in H as (r & Hr & E). bool_hyps.
  apply list_elem_of_In in Hr. unfold rows_after in Hr. rewrite merge_sort_Permutation in Hr.
  apply list_elem_of_filter in Hr as [_ Hr]. rewrite Forall_forall in Hb. destruct (Hb r Hr) as (_ & _ & [x Hx]). congruence.
Qed.

(** [C5] Deltas are exact across any history: a client that holds the set as it
    was at revision [c] (for instance after a full pull) and asks for the changes
    since [c], after any sequence of recomputes, compactions and unrelated
    changes, either gets adds and dels that turn its set into exactly the current
    one, with no address in both, each del once, and the revision they lead to;
    or is told that the log was compacted past its cursor. *)
Theorem DeltaSince_exact d0 d1 S c :
  log_ok d0 -> coherent S c d0 -> c <= db_revseq d0 -> rtc log_step d0 d1 ->
  match (DeltaSince c d1).1 with
  | Ok (add, del, rev) =>
      (S ∪ delta_add add) ∖ delta_del del = dom (db_current d1) /\ delta_add add ## delta_del del /\
      NoDup del /\ rev = max_rev d1 /\ coherent (dom (db_current d1)) rev d1
  | Err e => e = ErrCompacted
  end.
Proof.
  intros Hl Hco Hc Hh. destruct (log_steps_spec _ _ Hh Hl) as (Hl1 & _ & Hk). specialize (Hk S c Hc Hco).
  destruct ((DeltaSince c d1).1) as [[[add del] rev]|e] eqn:E.
  - destruct (delta_run _ _ _ _ _ _ Hl1 Hk E) as (H1 & H2 & H3 & ->). repeat split; try done.
    by apply coherent_current.
  - unfold DeltaSince in E. rewrite (rows_have_accounts c d1 Hl1) in E. by destruct (_ && _); simplify_eq/=.
Qed.

(** The memoized status is never stale: filled at any point, it answers,
    after any further history, with the size, fingerprint and revision the
    database has then. *)
Theorem AuthzStatus_fresh d0 d1 :
  log_ok d0 -> rtc log_step d0 d1 ->
  (AuthzStatus (AuthzStatus no_status d0).2 d1).1 =
  (Z.of_nat (size (db_current d1)), Authzhash.OfSet (dom (db_current d1)), max_rev d1).
Proof.
  intros Hl Hh. destruct (log_steps_spec _ _ Hh Hl) as (Hl1 & _ & Hk).
  specialize (Hk _ _ (proj2 (max_rev_bound d0 Hl)) (coherent_current d0 Hl)).
  assert (Hof : forall d : db, Authzhash.Of (map_range (db_current d)).*1 = Authzhash.OfSet (dom (db_current d))).
  { intros d. apply Authzhash.Of_members. intros a.
    etrans; [|symmetry; apply elem_of_set_range]. rewrite elem_of_dom. split.
    - intros H. apply list_elem_of_fmap in H as ([a' v] & -> & H). apply elem_of_map_range in H. by exists v.
    - intros [v H]. apply list_elem_of_fmap. exists (a, v). split; [done|]. by apply elem_of_map_range. }
  assert (Hlen : forall d : db, length (map_range (db_current d)).*1 = size (db_current d)).
  { intros d. rewrite length_fmap. apply length_map_range. }
  assert (H0 : (AuthzStatus no_status d0).2 =
    {| as_rev := max_rev d0; as_count := Z.of_nat (size (db_current d0));
       as_hash := Authzhash.OfSet (dom (db_current d0)) |}).
  { unfold AuthzStatus. cbn [as_rev as_hash no_status]. rewrite (bool_decide_eq_true_2 ([] = [])) by done.
    rewrite andb_false_r. by rewrite Hof, Hlen. }
  rewrite H0. unfold AuthzStatus. cbn [as_rev as_hash as_count].
  destruct (_ && _) eqn:E; [|by rewrite Hof, Hlen]. bool_hyps. cbn.
  assert (Hdom : dom (db_current d0) = dom (db_current d1)).
  { destruct Hk as [[Hn Hm]|Hk].
    - destruct (min_rev_attained d1 Hn) as (r & Hr & Er). pose proof (max_rev_ge d1 r Hr). lia.
    - apply set_eq. intros a. rewrite Hk, elem_of_dom; [done|]. intros r Hr Hc.
      pose proof (max_rev_ge d1 r Hr). lia. }
  rewrite <- !size_dom, Hdom. done.
Qed.
End AuthzFacts.
End AuthzFacts.
