(* ===== verification/BackendUsage.v ===== *)
(** * backend/store: usage ingest, volume accounting, retention

    Models backend/store/usage.go and AggregateUsage of backend/store/retention.go.
    The theorems about billing are in [BackendUsageFacts]. *)

From S2P Require Import Prelude GoStrings Netip BackendDB BackendAuthz.
Import DB Authz.

Module Usage.

Definition maxSampleBytes : Z := Z.shiftl 1 40.

Record SampleInput := { sp_Service : gostr; sp_Addr : Addr; sp_Bytes : Z }.
Record ReportInput := { ri_ReportID : gostr; ri_CounterEpoch : gostr; ri_WindowEnd : Z; ri_Samples : list SampleInput }.

(** [serviceMetaByKey]: the enabled services by key (id and rate). *)
Definition serviceMetaByKey (d : db) : gmap gostr (Z * Z) :=
  foldl (fun m s => <[sv_key s := (sv_id s, sv_rate s)]> m) ∅ (filter (fun s => sv_enabled s = true) (db_services d)).

(** ** consumeVolume *)

(** The rows the query considers. *)
Definition drawable (t acct : Z) (e : entitlement) : bool :=
  (en_account e =? acct) && bool_decide (en_kind e = bs "volume") &&
  (en_starts e <=? t) && (t <=? en_expires e) &&
  match en_volume e with Some v => en_used e <? v | None => false end.

(** [ORDER BY expires_at ASC LIMIT 1] *)
Fixpoint earliest (l : list entitlement) : option entitlement :=
  match l with
  | [] => None
  | e :: r => match earliest r with
              | Some e' => if en_expires e' <? en_expires e then Some e' else Some e
              | None => Some e
              end
  end.

Definition use_volume (n : Z) (e : entitlement) : entitlement :=
  {| en_id := en_id e; en_account := en_account e; en_purchase := en_purchase e; en_kind := en_kind e;
     en_volume := en_volume e; en_used := en_used e + n; en_starts := en_starts e; en_expires := en_expires e |}.

(** The loop, on the rows of entitlements: each round draws from the earliest
    expiring row with capacity.  [None] is fuel exhaustion. *)
Fixpoint consume_loop (fuel : nat) (t acct weighted : Z) (l : list entitlement) : option (list entitlement) :=
  if weighted <=? 0 then Some l else
  match fuel with
  | O => None
  | S fuel =>
      match earliest (filter (fun e => drawable t acct e = true) l) with
      | None => Some l
      | Some e =>
          let remaining := default 0 (en_volume e) - en_used e in
          let consume := if remaining <? weighted then remaining else weighted in
          consume_loop fuel t acct (weighted - consume)
            (update_rows (fun x => en_id x =? en_id e) (use_volume consume) l)
      end
  end.

(** Every round but the last exhausts a row, so one round per row and one more
    are enough ([consume_loop_total]). *)
Definition consumeVolume (accountID weighted : Z) : Tx unit :=
  tx_modify (fun d =>
    match consume_loop (S (length (db_entitlements d))) (db_now d) accountID weighted (db_entitlements d) with
    | Some l => set_entitlements l d
    | None => d
    end).

(** ** IngestUsage *)

Definition seven_days : Z := 7 * 24 * 60 * time_Minute.

(** The account that most recently held the address, within seven days. *)
Definition last_holder (a : Addr) (d : db) : option Z :=
  let rows := filter (fun r => bool_decide (rv_addr r = a) && bool_decide (is_Some (rv_account r)) &&
                        (db_now d - seven_days <? rv_created r) = true) (db_revisions d) in
  match last (merge_sort rev_le rows) with
  | Some r => rv_account r
  | None => None
  end.

Definition attribute (a : Addr) (d : db) : option Z :=
  match db_current d !! a with
  | Some acct => Some acct
  | None => last_holder a d
  end.

(** [b/1_000_000*meta.rate + b%1_000_000*meta.rate/1_000_000] on int64. *)
Definition weight (b rate : Z) : Z :=
  i64 (i64 (Z.quot b 1000000 * rate) + Z.quot (i64 (Z.rem b 1000000 * rate)) 1000000).

Definition clamp (b : Z) : Z := if maxSampleBytes <? b then maxSampleBytes else b.

Definition ingest_sample (services : gmap gostr (Z * Z)) (report_id : gostr) (smp : SampleInput) : Tx unit :=
  let sampleBytes := clamp (sp_Bytes smp) in
  let meta := services !! sp_Service smp in
  accountID ← tx_get (attribute (sp_Addr smp));
  id ← fresh_id;
  tx_modify (fun d => set_samples (db_samples d ++
    [{| sm_id := id; sm_report := report_id; sm_service := fst <$> meta; sm_addr := sp_Addr smp;
        sm_account := accountID; sm_bytes := sampleBytes |}]) d) ;;
  match accountID, meta with
  | Some acct, Some (_, rate) => if 0 <? rate then consumeVolume acct (weight sampleBytes rate) else mret tt
  | _, _ => mret tt
  end.

(** The transaction: whether the report is fresh. *)
Definition ingest_tx (services : gmap gostr (Z * Z)) (nodeID : Z) (r : ReportInput) : Tx bool :=
  reports ← tx_get db_reports;
  if existsb (fun x => bool_decide (rp_id x = ri_ReportID r)) reports then mret false else
  nodes ← tx_get db_nodes;
  if negb (existsb (fun n => nd_id n =? nodeID) nodes) then tx_fail ForeignKeyViolation else
  tx_modify (fun d => set_reports (db_reports d ++
    [{| rp_id := ri_ReportID r; rp_node := nodeID; rp_epoch := ri_CounterEpoch r;
        rp_window_end := ri_WindowEnd r; rp_received := db_now d |}]) d) ;;
  tx_for (ingest_sample services (ri_ReportID r)) (ri_Samples r) ;;
  mret true.

Definition IngestUsage `{MI : MapIter} (nodeID : Z) (r : ReportInput) : Store (list Addr) :=
  services ← query serviceMetaByKey;
  fresh ← inTx (ingest_tx services nodeID r);
  if (fresh : bool) then (x ← RecomputeAuthz; mret x.1) else mret [].

(** ** AggregateUsage *)

Definition day_ns : Z := 24 * 60 * time_Minute.

(** The report of a sample, and the day its window ended. *)
Definition report_of (d : db) (s : sample) : option report :=
  find_row (fun r => bool_decide (rp_id r = sm_report s)) (db_reports d).

Definition is_old (cutoff : Z) (d : db) (s : sample) : bool :=
  match report_of d s with Some r => rp_window_end r <? cutoff | None => false end.

(** The key a sample folds into, if it is billable. *)
Definition fold_key (d : db) (s : sample) : option (Z * Z * Z) :=
  match sm_account s, sm_service s, report_of d s with
  | Some a, Some sv, Some r => Some (a, rp_window_end r / day_ns, sv)
  | _, _, _ => None
  end.

Definition fold_sample (d : db) (m : gmap (Z * Z * Z) Z) (s : sample) : gmap (Z * Z * Z) Z :=
  match fold_key d s with
  | Some k => <[k := default 0 (m !! k) + sm_bytes s]> m
  | None => m
  end.

Definition AggregateUsage (cutoff : Z) : Store (Z * Z) :=
  inTx (fun d =>
    let old := filter (fun s => is_old cutoff d s = true) (db_samples d) in
    let d1 := set_samples (delete_rows (is_old cutoff d) (db_samples d))
                (set_daily (foldl (fold_sample d) (db_daily d) old) d) in
    let done_ := fun r => (rp_window_end r <? cutoff) &&
                   negb (existsb (fun s => bool_decide (sm_report s = rp_id r)) (db_samples d1)) in
    Ok ((Z.of_nat (length old), count_rows done_ (db_reports d1)),
        set_reports (delete_rows done_ (db_reports d1)) d1)).

End Usage.
