(* ===== verification/BackendUsageFacts.v ===== *)
(** * backend/store: theorems about usage accounting

    Volume is drawn exactly and only once, earliest-expiring first; a report is
    billed once; the weighting is exact where it does not overflow; rolling up
    raw samples conserves every billable byte. *)

From S2P Require Import Prelude GoStrings Netip BackendDB BackendAuthz BackendAuthzFacts BackendUsage.
Import DB Authz AuthzFacts Usage.

Module UsageFacts.

(** ** consumeVolume *)

(** Rows have distinct ids and never used more than their volume. *)
Definition row_ok (e : entitlement) : Prop :=
  match en_volume e with Some v => 0 <= en_used e <= v | None => True end.
Definition ents_ok (l : list entitlement) : Prop := NoDup (en_id <$> l) /\ Forall row_ok l.

(** What a row can still give, and what an account has used. *)
Definition cap (t acct : Z) (e : entitlement) : Z :=
  if drawable t acct e then default 0 (en_volume e) - en_used e else 0.
Definition capacity (t acct : Z) (l : list entitlement) : Z := zsum (cap t acct) l.
Definition used_by (acct : Z) (l : list entitlement) : Z :=
  zsum (fun e => if en_account e =? acct then en_used e else 0) l.

(** The rows of the other accounts. *)
Definition others (acct : Z) (l : list entitlement) : list entitlement :=
  filter (fun e => en_account e <> acct) l.

Lemma earliest_spec l e :
  earliest l = Some e -> e ∈ l /\ forall x, x ∈ l -> en_expires e <= en_expires x.
Proof.
  revert e; induction l as [|y l IH]; intros e; cbn; [done|].
  destruct (earliest l) as [e'|] eqn:E.
  - destruct (IH e' eq_refl) as [Hin Hmin]. destruct (en_expires e' <? en_expires y) eqn:El; intros [= <-]; bool_hyps.
    + split; [by right|]. intros x Hx. apply elem_of_cons in Hx as [->|Hx]; [lia|by apply Hmin].
    + split; [left|]. intros x Hx. apply elem_of_cons in Hx as [->|Hx]; [lia|]. specialize (Hmin x Hx). lia.
  - intros [= <-]. destruct l as [|z l]; [|cbn in E; by destruct (earliest l); try case_match].
    split; [left|]. intros x Hx. apply list_elem_of_singleton in Hx as ->. lia.
Qed.

Lemma earliest_None l : earliest l = None -> l = [].
Proof. destruct l as [|y l]; cbn; [done|]. destruct (earliest l); [case_match; done|done]. Qed.

Lemma drawable_volume t acct e : drawable t acct e = true ->
  exists v, en_volume e = Some v /\ en_used e < v /\ en_account e = acct.
Proof.
  unfold drawable. intros H. bool_hyps. destruct (en_volume e) as [v|]; [|done]. bool_hyps. by exists v.
Qed.

(** Updating by id touches the one row with that id. *)
Lemma update_by_id f l e :
  NoDup (en_id <$> l) -> e ∈ l ->
  exists l1 l2, l = l1 ++ e :: l2 /\ update_rows (fun x => en_id x =? en_id e) f l = l1 ++ f e :: l2.
Proof.
  intros ND Hin. apply list_elem_of_split in Hin as (l1 & l2 & ->). exists l1, l2. split; [done|].
  rewrite fmap_app, fmap_cons in ND. apply NoDup_app in ND as (_ & Hd & Hc). apply NoDup_cons in Hc as [Hn _].
  unfold update_rows. rewrite map_app. cbn [map]. rewrite Z.eqb_refl. f_equal; [|f_equal].
  - rewrite <- (map_id l1) at 2. apply map_ext_in. intros x Hx. apply list_elem_of_In in Hx.
    destruct (en_id x =? en_id e) eqn:E; [|done]. bool_hyps. exfalso. apply (Hd (en_id x)).
    + apply list_elem_of_fmap. by exists x.
    + rewrite E. left.
  - rewrite <- (map_id l2) at 2. apply map_ext_in. intros x Hx. apply list_elem_of_In in Hx.
    destruct (en_id x =? en_id e) eqn:E; [|done]. bool_hyps. exfalso. apply Hn. rewrite <- E.
    apply list_elem_of_fmap. by exists x.
Qed.

Lemma cap_use t acct n e :
  drawable t acct e = true -> 0 <= n <= default 0 (en_volume e) - en_used e ->
  cap t acct (use_volume n e) = cap t acct e - n /\
  (drawable t acct (use_volume n e) = true <-> n < default 0 (en_volume e) - en_used e).
Proof.
  intros Hd Hn. destruct (drawable_volume _ _ _ Hd) as (v & Ev & Hu & _). rewrite Ev in Hn. cbn in Hn.
  assert (Hd' : drawable t acct (use_volume n e) = (en_used e + n <? v)).
  { revert Hd. unfold drawable. cbn. rewrite Ev. intros Hd. apply andb_true_iff in Hd as [-> _]. done. }
  unfold cap. rewrite Hd, Hd'. cbn. rewrite Ev. cbn. destruct (en_used e + n <? v) eqn:E; bool_hyps; split; try lia; split; done || lia.
Qed.

Lemma cap_nonneg t acct e : 0 <= cap t acct e.
Proof.
  unfold cap. destruct (drawable t acct e) eqn:E; [|lia].
  apply drawable_volume in E as (v & Ev & Hu & _). rewrite Ev. cbn [default from_option id]. lia.
Qed.

Lemma capacity_nonneg t acct l : 0 <= capacity t acct l.
Proof. apply zsum_nonneg, Forall_forall. intros e _. apply cap_nonneg. Qed.

(** One round. *)
Lemma consume_round t acct w l e :
  ents_ok l -> 0 < w -> e ∈ l -> drawable t acct e = true ->
  let remaining := default 0 (en_volume e) - en_used e in
  let n := if remaining <? w then remaining else w in
  let l' := update_rows (fun x => en_id x =? en_id e) (use_volume n) l in
  ents_ok l' /\ 0 < n <= w /\ capacity t acct l' = capacity t acct l - n /\ used_by acct l' = used_by acct l + n /\
  others acct l' = others acct l /\ en_id <$> l' = en_id <$> l /\
  (n < w -> (length (filter (fun x => drawable t acct x = true) l') <
             length (filter (fun x => drawable t acct x = true) l))%nat) /\
  0 < capacity t acct l.
Proof.
  intros [ND HF] Hw Hin Hd remaining n l'. subst l'.
  destruct (drawable_volume _ _ _ Hd) as (v & Ev & Hu & Ha).
  assert (Hrem : remaining = v - en_used e) by (unfold remaining; by rewrite Ev).
  assert (Hn : 0 < n <= w /\ n <= remaining) by (unfold n; destruct (remaining <? w) eqn:E; bool_hyps; lia).
  destruct (update_by_id (use_volume n) l e ND Hin) as (l1 & l2 & El & ->).
  destruct (cap_use t acct n e Hd) as [Hc Hcd]; [fold remaining; lia|].
  pose proof (capacity_nonneg t acct l1) as Hcap1. pose proof (capacity_nonneg t acct l2) as Hcap2.
  assert (Hce : cap t acct e = remaining) by (unfold cap; by rewrite Hd).
  unfold capacity, used_by. rewrite El, !zsum_app, !zsum_cons, Hc. cbn [use_volume en_account en_used].
  rewrite Ha, Z.eqb_refl. repeat split; try lia.
  - rewrite El in ND. rewrite fmap_app, fmap_cons in ND |- *. done.
  - rewrite El in HF. apply Forall_app in HF as [H1 [H2 H3]%Forall_cons]. apply Forall_app. split; [done|].
    constructor; [|done]. unfold row_ok in *. cbn [use_volume en_volume en_used]. rewrite Ev in *. lia.
  - unfold others. rewrite !filter_app, !filter_cons_False by (cbn; tauto). done.
  - rewrite !fmap_app, !fmap_cons. done.
  - intros Hnw. rewrite !filter_app, !length_app.
    rewrite (filter_cons_True _ e) by done. rewrite filter_cons_False; [cbn; lia|].
    intros H. apply Hcd in H. fold remaining in H. subst n. destruct (remaining <? w) eqn:E; bool_hyps; lia.
  - rewrite Hce. unfold capacity in *. lia.
Qed.

Lemma capacity_none t acct l :
  filter (fun e => drawable t acct e = true) l = [] -> capacity t acct l = 0.
Proof.
  intros H. unfold capacity. rewrite (zsum_ext _ (fun _ => 0)).
  - induction l as [|x l IH]; [done|]. rewrite zsum_cons, IH; [done|].
    rewrite filter_cons in H. by destruct (decide _).
  - apply Forall_forall. intros e He. unfold cap. destruct (drawable t acct e) eqn:E; [|done].
    exfalso. apply (not_elem_of_nil e). rewrite <- H. by apply list_elem_of_filter.
Qed.

Lemma consume_loop_spec t acct fuel w l :
  ents_ok l -> 0 <= w -> (length (filter (fun e => drawable t acct e = true) l) < fuel)%nat ->
  exists l', consume_loop fuel t acct w l = Some l' /\ ents_ok l' /\
    used_by acct l' = used_by acct l + Z.min w (capacity t acct l) /\
    capacity t acct l' = capacity t acct l - Z.min w (capacity t acct l) /\
    others acct l' = others acct l /\ en_id <$> l' = en_id <$> l.
Proof.
  revert w l; induction fuel as [|fuel IH]; intros w l Hok Hw Hf; [lia|]. cbn [consume_loop].
  pose proof (capacity_nonneg t acct l) as Hcap.
  destruct (w <=? 0) eqn:Ew; bool_hyps.
  { exists l. assert (w = 0) as -> by lia. rewrite Z.min_l by lia. repeat split; try done; try lia; apply Hok. }
  destruct (earliest _) as [e|] eqn:Ee.
  - apply earliest_spec in Ee as [Hin _]. apply list_elem_of_filter in Hin as [Hd Hin].
    destruct (consume_round t acct w l e Hok Ew Hin Hd) as (Hok' & Hn & Hc & Hu & Hx & Hid & Hlen & Hpos).
    set (n := if _ <? w then _ else w) in *. set (l1 := update_rows _ _ l) in *.
    destruct (decide (n < w)) as [Hnw|Hnw].
    + destruct (IH (w - n) l1) as (l' & E & H1 & H2 & H3 & H4 & H5); [done|lia|specialize (Hlen Hnw); lia|].
      exists l'. split; [done|]. split; [done|]. repeat split; [lia|lia|congruence|congruence].
    + assert (Hz : w - n = 0) by lia. exists l1. rewrite Hz.
      assert (Hl1 : consume_loop fuel t acct 0 l1 = Some l1) by (by destruct fuel).
      pose proof (capacity_nonneg t acct l1).
      repeat split; try done; try lia; apply Hok'.
  - apply earliest_None in Ee. pose proof (capacity_none _ _ _ Ee) as Hz.
    exists l. split; [done|]. split; [done|]. split; [lia|]. split; [lia|done].
Qed.

Lemma zsum_others (g : entitlement -> Z) acct l :
  (forall e, en_account e = acct -> g e = 0) -> zsum g l = zsum g (others acct l).
Proof.
  intros Hg. unfold others. induction l as [|e l IH]; [done|]. rewrite zsum_cons, filter_cons.
  destruct (decide _) as [|Hn]; [rewrite zsum_cons, <- IH; done|]. rewrite Hg by lia. rewrite <- IH. lia.
Qed.

Lemma others_used acct acct' l l' :
  acct' <> acct -> others acct l' = others acct l -> used_by acct' l' = used_by acct' l.
Proof.
  intros Hne E. unfold used_by. rewrite (zsum_others _ acct l'), (zsum_others _ acct l); [by rewrite E|..];
    intros e ->; by rewrite (proj2 (Z.eqb_neq _ _)).
Qed.

Lemma others_capacity t acct acct' l l' :
  acct' <> acct -> others acct l' = others acct l -> capacity t acct' l' = capacity t acct' l.
Proof.
  intros Hne E. unfold capacity. rewrite (zsum_others _ acct l'), (zsum_others _ acct l); [by rewrite E|..];
    intros e <-; unfold cap; (destruct (drawable t acct' e) eqn:Ed; [|done]);
    apply drawable_volume in Ed as (? & _ & _ & ?); done.
Qed.

(** From rows [l] to rows [l'], account [acct] was charged [n]: exactly [n], or
    all it had left if that is less. *)
Definition drawn_by (t acct n : Z) (l l' : list entitlement) : Prop :=
  used_by acct l' = used_by acct l + Z.min n (capacity t acct l) /\
  capacity t acct l' = capacity t acct l - Z.min n (capacity t acct l).

Lemma drawn_by_zero t acct l : drawn_by t acct 0 l l.
Proof. unfold drawn_by. pose proof (capacity_nonneg t acct l). lia. Qed.

Lemma drawn_by_trans t acct n m l1 l2 l3 :
  0 <= n -> 0 <= m -> drawn_by t acct n l1 l2 -> drawn_by t acct m l2 l3 -> drawn_by t acct (n + m) l1 l3.
Proof. unfold drawn_by. pose proof (capacity_nonneg t acct l1). lia. Qed.

(** Enough rounds, always: the loop in [consumeVolume] never runs out. *)
Lemma consumeVolume_run acct w d :
  ents_ok (db_entitlements d) ->
  exists l, consumeVolume acct w d = Ok (tt, set_entitlements l d) /\ ents_ok l /\
    (forall acct', drawn_by (db_now d) acct' (if acct' =? acct then Z.max 0 w else 0) (db_entitlements d) l).
Proof.
  intros Hok. unfold consumeVolume, tx_modify.
  assert (Hlen : (length (filter (fun e => drawable (db_now d) acct e = true) (db_entitlements d)) <
                  S (length (db_entitlements d)))%nat).
  { pose proof (length_filter (fun e => drawable (db_now d) acct e = true) (db_entitlements d)). lia. }
  destruct (decide (0 <= w)) as [Hw|Hw].
  - destruct (consume_loop_spec (db_now d) acct _ w _ Hok Hw Hlen) as (l & -> & H1 & H2 & H3 & H4 & _).
    exists l. split; [done|]. split; [done|]. intros acct'.
    destruct (Z.eqb_spec acct' acct) as [->|Hne]; [rewrite Z.max_r by lia; done|].
    unfold drawn_by. pose proof (capacity_nonneg (db_now d) acct' (db_entitlements d)).
    rewrite (others_used acct acct' _ _ Hne H4), (others_capacity _ acct acct' _ _ Hne H4). lia.
  - exists (db_entitlements d). split.
    + cbn [consume_loop]. rewrite (proj2 (Z.leb_le w 0)) by lia. done.
    + split; [done|]. intros acct'. replace (if acct' =? acct then _ else _) with 0; [apply drawn_by_zero|].
      destruct (acct' =? acct); lia.
Qed.

(** ** One report *)

(** What a sample is charged to an account. *)
Definition charge (services : gmap gostr (Z * Z)) (d : db) (acct : Z) (smp : SampleInput) : Z :=
  match attribute (sp_Addr smp) d, services !! sp_Service smp with
  | Some acct', Some (_, rate) =>
      if (acct =? acct') && (0 <? rate) then Z.max 0 (weight (clamp (sp_Bytes smp)) rate) else 0
  | _, _ => 0
  end.

(** The tables that attribution and the reports depend on. *)
Definition same_books (d d' : db) : Prop :=
  db_now d' = db_now d /\ db_current d' = db_current d /\ db_revisions d' = db_revisions d /\
  db_revseq d' = db_revseq d /\ db_reports d' = db_reports d /\ db_services d' = db_services d /\
  db_nodes d' = db_nodes d /\ db_whitelist d' = db_whitelist d /\ db_accounts d' = db_accounts d /\
  db_purchases d' = db_purchases d /\ db_packages d' = db_packages d /\ db_daily d' = db_daily d.

Lemma same_books_refl d : same_books d d.
Proof. by repeat split. Qed.
Lemma same_books_trans d1 d2 d3 : same_books d1 d2 -> same_books d2 d3 -> same_books d1 d3.
Proof. unfold same_books. intuition congruence. Qed.

Lemma attribute_same a d d' : same_books d d' -> attribute a d' = attribute a d.
Proof. intros (E1 & E2 & E3 & _). unfold attribute, last_holder. by rewrite E1, E2, E3. Qed.

Lemma charge_same services d d' acct smp : same_books d d' -> charge services d' acct smp = charge services d acct smp.
Proof. intros H. unfold charge. by rewrite (attribute_same _ d d'). Qed.

Lemma charge_nonneg services d acct smp : 0 <= charge services d acct smp.
Proof. unfold charge. repeat case_match; lia. Qed.

Lemma ingest_sample_run services rid smp d :
  ents_ok (db_entitlements d) ->
  exists d', ingest_sample services rid smp d = Ok (tt, d') /\ same_books d d' /\ ents_ok (db_entitlements d') /\
    db_samples d' = db_samples d ++
      [{| sm_id := db_next d; sm_report := rid; sm_service := fst <$> services !! sp_Service smp;
          sm_addr := sp_Addr smp; sm_account := attribute (sp_Addr smp) d; sm_bytes := clamp (sp_Bytes smp) |}] /\
    forall acct, drawn_by (db_now d) acct (charge services d acct smp) (db_entitlements d) (db_entitlements d').
Proof.
  intros Hok. unfold ingest_sample, mbind, tx_bind, tx_get, fresh_id, tx_modify, mret, tx_ret. cbn beta iota.
  set (d1 := set_samples _ _).
  assert (Hbase : forall acct, charge services d acct smp = 0 ->
    drawn_by (db_now d) acct (charge services d acct smp) (db_entitlements d) (db_entitlements d))
    by (intros acct ->; apply drawn_by_zero).
  destruct (attribute (sp_Addr smp) d) as [acct0|] eqn:Ea, (services !! sp_Service smp) as [[sid rate]|] eqn:Es;
    try (exists d1; split; [done|]; split; [done|]; split; [done|]; split; [done|]; intros acct;
         apply Hbase; unfold charge; by rewrite Ea, ?Es).
  destruct (0 <? rate) eqn:Er.
  - destruct (consumeVolume_run acct0 (weight (clamp (sp_Bytes smp)) rate) d1) as (l & -> & Hl & Hu); [done|].
    exists (set_entitlements l d1). split; [done|]. split; [done|]. split; [done|]. split; [done|].
    intros acct. specialize (Hu acct). unfold charge. rewrite Ea, Es, Er, andb_true_r. exact Hu.
  - exists d1. split; [done|]; split; [done|]; split; [done|]; split; [done|]. intros acct.
    apply Hbase. unfold charge. by rewrite Ea, Es, Er, andb_false_r.
Qed.

Lemma ingest_samples_run services rid l d :
  ents_ok (db_entitlements d) ->
  exists d', tx_for (ingest_sample services rid) l d = Ok (tt, d') /\ same_books d d' /\ ents_ok (db_entitlements d') /\
    forall acct, drawn_by (db_now d) acct (zsum (charge services d acct) l) (db_entitlements d) (db_entitlements d').
Proof.
  revert d; induction l as [|smp l IH]; intros d Hok.
  { exists d. split; [done|]. split; [apply same_books_refl|]. split; [done|]. intros acct. apply drawn_by_zero. }
  rewrite tx_for_cons. destruct (ingest_sample_run services rid smp d Hok) as (d1 & -> & Hb & Hok1 & _ & Hu1).
  destruct (IH d1 Hok1) as (d2 & -> & Hb2 & Hok2 & Hu2).
  exists d2. split; [done|]. split; [by eapply same_books_trans|]. split; [done|]. intros acct.
  specialize (Hu1 acct). specialize (Hu2 acct). rewrite zsum_cons.
  assert (Hz : zsum (charge services d1 acct) l = zsum (charge services d acct) l).
  { apply zsum_ext, Forall_forall. intros x _. by apply charge_same. }
  rewrite Hz in Hu2. destruct Hb as (En & _). rewrite En in Hu2.
  eapply drawn_by_trans; [apply charge_nonneg| |exact Hu1|exact Hu2].
  apply zsum_nonneg, Forall_forall. intros x _. apply charge_nonneg.
Qed.


Section Ingest.
Context `{MI : MapIter}.

Definition known_report (d : db) (id : gostr) : bool := existsb (fun x => bool_decide (rp_id x = id)) (db_reports d).
Definition known_node (d : db) (node : Z) : bool := existsb (fun n => nd_id n =? node) (db_nodes d).

Lemma ingest_duplicate nodeID r d :
  known_report d (ri_ReportID r) = true -> IngestUsage nodeID r d = (Ok [], d).
Proof.
  intros H. unfold IngestUsage, mbind, store_bind, query, inTx, ingest_tx, mbind, tx_bind, tx_get.
  unfold known_report in H. by rewrite H.
Qed.

Lemma ingest_fresh nodeID r d :
  known_report d (ri_ReportID r) = false -> known_node d nodeID = true -> ents_ok (db_entitlements d) ->
  exists d1 removed rev d2,
    RecomputeAuthz d1 = (Ok (removed, rev), d2) /\ IngestUsage nodeID r d = (Ok removed, d2) /\
    changes d1 d2 /\ db_current d2 = desired d1 /\
    (forall a, a ∈ removed <-> is_Some (db_current d !! a) /\ desired d1 !! a = None) /\
    known_report d2 (ri_ReportID r) = true /\ ents_ok (db_entitlements d2) /\ db_now d2 = db_now d /\
    forall acct, drawn_by (db_now d) acct (zsum (charge (serviceMetaByKey d) d acct) (ri_Samples r))
      (db_entitlements d) (db_entitlements d2).
Proof.
  intros Hk Hn Hok. unfold IngestUsage, mbind, store_bind, query, inTx, ingest_tx.
  unfold mbind, tx_bind, tx_get, mret, tx_ret, store_ret, tx_modify.
  unfold known_report in Hk. rewrite Hk. unfold known_node in Hn. rewrite Hn. cbn [negb].
  set (d0 := set_reports _ d).
  destruct (ingest_samples_run (serviceMetaByKey d) (ri_ReportID r) (ri_Samples r) d0 Hok) as (d1 & -> & Hb & Hok1 & Hu).
  destruct (recompute_run d1) as (removed & rev & d2 & E & C & _ & Hcur & _ & _ & Hrm).
  exists d1, removed, rev, d2. rewrite E.
  destruct Hb as (En & Ec & _ & _ & Er & _).
  destruct (ch_tables _ _ C) as (Tn & _ & _ & _ & _ & _ & _ & _ & _ & Te & Tr & _).
  split; [done|]. split; [done|]. split; [done|]. split; [done|].
  split. { intros a. rewrite Hrm, Ec. done. }
  split. { unfold known_report. rewrite Tr, Er. subst d0. cbn. rewrite existsb_app. cbn.
    rewrite (bool_decide_eq_true_2 (ri_ReportID r = ri_ReportID r)) by done. by rewrite orb_true_r. }
  rewrite Te, Tn, En. split; [done|]. split; [done|]. exact Hu.
Qed.

(** [C6] A report is billed exactly once: the first ingest charges every account
    exactly the weighted bytes attributed to it, or whatever volume it had left if
    that is less, never drawing any entitlement beyond its volume; it then
    returns for revocation exactly the addresses the charge cost their access;
    and ingesting the same report again, which is what an agent does when the
    acknowledgement was lost, changes nothing and revokes nothing. *)
Theorem IngestUsage_exactly_once nodeID r d :
  known_report d (ri_ReportID r) = false -> known_node d nodeID = true -> ents_ok (db_entitlements d) ->
  exists removed d', IngestUsage nodeID r d = (Ok removed, d') /\
    (forall acct, let total := zsum (charge (serviceMetaByKey d) d acct) (ri_Samples r) in
       used_by acct (db_entitlements d') =
       used_by acct (db_entitlements d) + Z.min total (capacity (db_now d) acct (db_entitlements d))) /\
    ents_ok (db_entitlements d') /\
    (forall a, a ∈ removed <-> is_Some (db_current d !! a) /\ db_current d' !! a = None) /\
    IngestUsage nodeID r d' = (Ok [], d').
Proof.
  intros Hk Hn Hok.
  destruct (ingest_fresh nodeID r d Hk Hn Hok) as (d1 & removed & rev & d2 & _ & E & _ & Hc & Hrm & Hk2 & Hok2 & _ & Hu).
  exists removed, d2. split; [done|]. split; [intros acct; apply Hu|]. split; [done|].
  split; [intros a; by rewrite Hrm, Hc|]. by apply ingest_duplicate.
Qed.
End Ingest.

(** [C24] The weighting is exact: for every sample size (after the clamp) and
    every rate up to 8.3 million times the base rate, the divide-first expression
    equals bytes * rate / 1e6 rounded down, with no int64 operation overflowing. *)
Theorem weight_exact b rate :
  0 <= b -> 0 < rate <= 8300000000000 ->
  weight (clamp b) rate = clamp b * rate / 1000000 /\ in_i64 (weight (clamp b) rate).
Proof.
  intros Hb Hr. assert (Hc : 0 <= clamp b <= 2 ^ 40).
  { unfold clamp, maxSampleBytes. change (Z.shiftl 1 40) with (2 ^ 40). destruct (2 ^ 40 <? b) eqn:E; bool_hyps; lia. }
  generalize dependent (clamp b). intros c Hc. unfold weight.
  rewrite Z.quot_div_nonneg, Z.rem_mod_nonneg by lia.
  pose proof (Z.div_mod c 1000000 ltac:(lia)) as Hdm. pose proof (Z.mod_pos_bound c 1000000 ltac:(lia)) as Hm.
  set (q := c / 1000000) in *. set (m := c mod 1000000) in *.
  assert (Hq : 0 <= q <= 1099512) by (subst q; split; [apply Z.div_pos; lia|apply Z.div_le_upper_bound; lia]).
  assert (H1 : 0 <= q * rate <= 1099512 * 8300000000000) by nia.
  assert (H2 : 0 <= m * rate <= 1000000 * 8300000000000) by nia.
  rewrite (i64_small (q * rate)), (i64_small (m * rate)) by (unfold in_i64, int64_min, int64_max; lia).
  rewrite Z.quot_div_nonneg by lia.
  assert (H3 : 0 <= m * rate / 1000000 <= 8300000000000).
  { split; [apply Z.div_pos; lia|apply Z.div_le_upper_bound; lia]. }
  assert (Hs : in_i64 (q * rate + m * rate / 1000000)) by (unfold in_i64, int64_min, int64_max; lia).
  rewrite (i64_small _ Hs). split; [|done].
  replace (c * rate) with (q * rate * 1000000 + m * rate) by nia.
  rewrite Z.div_add_l by lia. done.
Qed.

Lemma weight_exact_witness :
  weight (clamp 1500001) 2000000 = 1500001 * 2000000 / 1000000 /\ in_i64 (weight (clamp 1500001) 2000000).
Proof. apply (weight_exact 1500001 2000000); lia. Defined.

(** Past that bound the multiplication wraps: at a rate of 2^43 a full sample
    weighs a negative amount and is therefore free. *)
Lemma weight_overflow : weight maxSampleBytes (2 ^ 43) < 0.
Proof. vm_compute. reflexivity. Qed.

(** ** Earliest-expiring first *)

Lemma consume_loop_monotone t acct fuel w l l' i e :
  ents_ok l -> consume_loop fuel t acct w l = Some l' -> l !! i = Some e ->
  exists e', l' !! i = Some e' /\ (drawable t acct e = false -> e' = e) /\ en_expires e' = en_expires e.
Proof.
  revert w l e; induction fuel as [|fuel IH]; intros w l e Hok; cbn [consume_loop];
    (destruct (w <=? 0) eqn:Ew; [intros [= <-] Hi; by exists e|]); [done|].
  destruct (earliest _) as [x|] eqn:Ee; [|intros [= <-] Hi; by exists e].
  apply earliest_spec in Ee as [Hin _]. apply list_elem_of_filter in Hin as [Hd Hin]. bool_hyps.
  intros H Hi. destruct (consume_round t acct w l x Hok Ew Hin Hd) as (Hok1 & _).
  set (n := if _ <? w then _ else w) in *. set (l1 := update_rows _ _ l) in *.
  assert (H1 : l1 !! i = Some (if en_id e =? en_id x then use_volume n e else e)).
  { subst l1. unfold update_rows. rewrite list_lookup_fmap, Hi. done. }
  destruct (IH _ _ _ Hok1 H H1) as (e' & He' & Hnd & Hex). exists e'. split; [done|].
  destruct (en_id e =? en_id x) eqn:Eid; [|done]. bool_hyps.
  assert (e = x) as ->.
  { apply (NoDup_key_inj en_id l); [apply Hok|by eapply list_elem_of_lookup_2|done|done]. }
  split; [congruence|done].
Qed.

(** Volume is drawn earliest-expiring first: if the loop took anything from
    one entitlement, then every entitlement of the account that expires earlier
    and could be drawn on has been used up completely. *)
Theorem consume_earliest_first t acct w l l' i j e1 e2 e1' e2' :
  ents_ok l -> consume_loop (S (length l)) t acct w l = Some l' ->
  l !! i = Some e1 -> l !! j = Some e2 -> l' !! i = Some e1' -> l' !! j = Some e2' ->
  drawable t acct e1 = true -> en_expires e1 < en_expires e2 -> en_used e2' <> en_used e2 ->
  Some (en_used e1') = en_volume e1'.
Proof.
  generalize (S (length l)) as fuel. intros fuel. revert w l e1 e2.
  induction fuel as [|fuel IH]; intros w l e1 e2 Hok; cbn [consume_loop];
    (destruct (w <=? 0) eqn:Ew; [intros [= <-] ? H2 ? H2' ? ? Hu; congruence|]); [done|].
  destruct (earliest _) as [x|] eqn:Ee; [|intros [= <-] ? H2 ? H2' ? ? Hu; congruence].
  apply earliest_spec in Ee as [Hin Hmin]. apply list_elem_of_filter in Hin as [Hd Hin]. bool_hyps.
  intros H Hi Hj Hi' Hj' Hd1 Hlt Hu.
  destruct (consume_round t acct w l x Hok Ew Hin Hd) as (Hok1 & Hn & _).
  pose proof (drawable_volume _ _ _ Hd) as (v & Ev & Huv & _).
  set (n := if _ <? w then _ else w) in *. set (l1 := update_rows _ _ l) in *.
  assert (Hupd : forall k e, l !! k = Some e -> l1 !! k = Some (if en_id e =? en_id x then use_volume n e else e)).
  { intros k e Hk. subst l1. unfold update_rows. by rewrite list_lookup_fmap, Hk. }
  assert (Huniq : forall k e, l !! k = Some e -> en_id e = en_id x -> e = x).
  { intros k e Hk Eid. apply (NoDup_key_inj en_id l); [apply Hok|by eapply list_elem_of_lookup_2|done|done]. }
  pose proof (Hupd i e1 Hi) as Hi1. pose proof (Hupd j e2 Hj) as Hj1.
  assert (Hx2 : en_id e2 <> en_id x).
  { intros E. apply (Huniq j) in E; [|done]. subst e2. specialize (Hmin e1). 
    assert (en_expires x <= en_expires e1); [|lia]. apply Hmin. apply list_elem_of_filter. split; [done|].
    by eapply list_elem_of_lookup_2. }
  rewrite (proj2 (Z.eqb_neq _ _) Hx2) in Hj1.
  destruct (Z.eqb_spec (en_id e1) (en_id x)) as [Eid|Hne].
  - apply (Huniq i) in Eid; [|done]. subst e1. destruct (decide (n < w)) as [Hnw|Hnw].
    + assert (Hnr : n = v - en_used x).
      { subst n. rewrite Ev in *. cbn [default from_option id] in *. destruct (v - en_used x <? w) eqn:E; bool_hyps; lia. }
      destruct (consume_loop_monotone _ _ _ _ _ _ _ _ Hok1 H Hi1) as (e' & He' & Hnd & _).
      rewrite Hi' in He'. injection He' as <-. rewrite Hnd; [cbn; rewrite Ev; f_equal; lia|].
      unfold drawable. cbn. rewrite Ev. rewrite Hnr. replace (en_used x + (v - en_used x)) with v by lia.
      rewrite Z.ltb_irrefl. by rewrite andb_false_r.
    + assert (Hz : w - n = 0) by lia. rewrite Hz in H. assert (l' = l1) by (by destruct fuel; cbn in H; simplify_eq).
      subst l'. rewrite Hj' in Hj1. congruence.
  - eapply (IH _ l1 e1 e2); try done.
Qed.

(** ** Retention *)

(** The raw bytes that count for a (account, day, service). *)
Definition raw_bytes (d : db) (k : Z * Z * Z) (l : list sample) : Z :=
  zsum (fun s => if bool_decide (fold_key d s = Some k) then sm_bytes s else 0) l.

Lemma fold_samples_lookup d k l m :
  default 0 (foldl (fold_sample d) m l !! k) = default 0 (m !! k) + raw_bytes d k l.
Proof.
  revert m; induction l as [|s l IH]; intros m; [cbn; unfold raw_bytes, zsum; cbn; lia|].
  cbn [foldl]. rewrite IH. unfold raw_bytes. rewrite zsum_cons. unfold fold_sample.
  destruct (fold_key d s) as [k'|] eqn:E; [|case_bool_decide; [congruence|lia]].
  case_bool_decide as Ek; simplify_eq.
  - rewrite lookup_insert_eq. cbn. lia.
  - rewrite lookup_insert_ne by congruence. lia.
Qed.

Lemma zsum_split {A} (f : A -> Z) (p : A -> bool) l :
  zsum f l = zsum f (filter (fun x => p x = true) l) + zsum f (delete_rows p l).
Proof.
  unfold delete_rows. induction l as [|x l IH]; [done|]. rewrite zsum_cons, IH, !filter_cons.
  destruct (p x) eqn:E; destruct (decide _), (decide _); try congruence; rewrite zsum_cons; lia.
Qed.

Lemma filter_filter_same {A} (P Q : A -> Prop) `{!forall x, Decision (P x)} `{!forall x, Decision (Q x)} (l : list A) :
  (forall x, x ∈ l -> P x -> Q x) -> filter P (filter Q l) = filter P l.
Proof.
  induction l as [|x l IH]; intros HPQ; [done|]. rewrite (filter_cons Q), (filter_cons P).
  assert (IH' : filter P (filter Q l) = filter P l) by (apply IH; intros y Hy; apply HPQ; by right).
  destruct (decide (P x)) as [Hp|Hp].
  - destruct (decide (Q x)) as [|Hq]; [by rewrite filter_cons_True, IH'|]. exfalso. apply Hq, HPQ; [left|done].
  - destruct (decide (Q x)); [by rewrite filter_cons_False|done].
Qed.

(** A report that still has a sample survives the sweep. *)
Lemma aggregate_keeps_reports cutoff d n d' s :
  AggregateUsage cutoff d = (Ok n, d') -> s ∈ db_samples d' -> report_of d' s = report_of d s.
Proof.
  unfold AggregateUsage, inTx. intros H. inv H. cbn [db_samples set_reports set_samples set_daily]. intros Hs.
  unfold report_of, find_row. cbn [db_reports set_reports set_samples set_daily]. f_equal.
  unfold delete_rows. apply filter_filter_same. intros r _ Hr. bool_hyps.
  apply andb_false_iff. right. apply negb_false_iff, existsb_exists. exists s.
  split; [by apply list_elem_of_In|]. by apply bool_decide_eq_true.
Qed.

(** Retention conserves billing: for every account, service and day, the
    daily total plus the raw samples still to be folded is the same before and
    after a sweep, so a sample is in exactly one of the two; only samples whose
    report window ended before the cutoff are removed, and every one of those. *)
Theorem AggregateUsage_conserves cutoff d n d' k :
  AggregateUsage cutoff d = (Ok n, d') ->
  default 0 (db_daily d' !! k) + raw_bytes d' k (db_samples d') =
  default 0 (db_daily d !! k) + raw_bytes d k (db_samples d) /\
  (forall s, s ∈ db_samples d' <-> s ∈ db_samples d /\ is_old cutoff d s = false) /\
  db_entitlements d' = db_entitlements d /\ db_current d' = db_current d.
Proof.
  intros H. pose proof (fun s => aggregate_keeps_reports _ _ _ _ s H) as Hk.
  assert (Hd : db_daily d' = foldl (fold_sample d) (db_daily d) (filter (fun s => is_old cutoff d s = true) (db_samples d)) /\
    db_samples d' = delete_rows (is_old cutoff d) (db_samples d) /\
    db_entitlements d' = db_entitlements d /\ db_current d' = db_current d).
  { unfold AggregateUsage, inTx in H. by inv H. }
  destruct Hd as (Ed & Es & Ee & Ec).
  split; [|split; [intros s; rewrite Es; apply elem_of_delete_rows|done]].
  rewrite Ed, fold_samples_lookup.
  assert (Hraw : raw_bytes d' k (db_samples d') = raw_bytes d k (db_samples d')).
  { apply zsum_ext, Forall_forall. intros s Hs. unfold fold_key. by rewrite (Hk s Hs). }
  rewrite Hraw, Es. unfold raw_bytes. rewrite (zsum_split _ (is_old cutoff d) (db_samples d)). lia.
Qed.

(** The duplicate check lasts only as long as the report row: once a sweep has
    removed it, the same report is accepted as new. *)
Lemma aggregate_forgets_report cutoff d n d' r :
  AggregateUsage cutoff d = (Ok n, d') -> NoDup (rp_id <$> db_reports d) ->
  r ∈ db_reports d -> rp_window_end r < cutoff ->
  known_report d' (rp_id r) = false.
Proof.
  intros H ND Hr Hw. unfold AggregateUsage, inTx in H. inv H. unfold known_report. cbn [db_reports set_reports set_samples set_daily].
  apply not_true_iff_false. intros Hx. apply existsb_exists in Hx as (r' & Hin & E). bool_hyps.
  apply list_elem_of_In, elem_of_delete_rows in Hin as [Hin Hdone].
  assert (r' = r) as ->.
  { by apply (NoDup_key_inj rp_id (db_reports d)). }
  apply andb_false_iff in Hdone as [Hd|Hd]; bool_hyps; [lia|].
  apply existsb_exists in Hd as (s & Hs & Es). bool_hyps.
  apply list_elem_of_In, elem_of_delete_rows in Hs as [_ Hold]. unfold is_old, report_of in Hold.
  destruct (find_row _ (db_reports d)) as [r0|] eqn:Ef.
  - apply find_row_Some in Ef as [Hr0 E0]. bool_hyps.
    assert (r0 = r) as ->; [apply (NoDup_key_inj rp_id (db_reports d)); try done; congruence|lia].
  - pose proof (find_row_None _ _ Ef r Hr) as Hn. cbn in Hn. bool_hyps. congruence.
Qed.
End UsageFacts.
