(* ===== verification/BackendWhitelist.v ===== *)
(** * backend/store: accounts and the whitelist

    Models backend/store/whitelist.go and backend/store/admin.go: accounts, guest
    invitations and the consent rules, operator actions, and direct credits.  The
    partial unique index whitelist_active_addr is checked by every statement that
    writes the table. *)

From S2P Require Import Prelude GoStrings Netip Fipsaddr BackendDB BackendAuthz.
Import DB Authz Derive.

Module Whitelist.

Definition normNpub (s : gostr) : gostr := ToLower (TrimSpace s).

Definition DefaultMaxGuests : Z := 5.
Definition maxGuests (MaxGuests : Z) : Z := if 0 <? MaxGuests then MaxGuests else DefaultMaxGuests.

(** ** Statements on whitelist_entries *)

(** The partial unique index: at most one [enabled AND NOT pending] row per
    address. *)
Definition active_unique (l : list wl) : bool :=
  bool_decide (NoDup (w_addr <$> filter (fun w => active_row w = true) l)).

Definition exec_wl (f : list wl -> list wl) : Tx unit :=
  fun d => let l := f (db_whitelist d) in
           if active_unique l then Ok (tt, set_whitelist l d)
           else Err (UniqueViolation (bs "whitelist_active_addr")).

Definition set_flags (enabled pending_ : bool) (w : wl) : wl :=
  {| w_id := w_id w; w_account := w_account w; w_npub := w_npub w; w_addr := w_addr w; w_role := w_role w;
     w_enabled := enabled; w_pending := pending_; w_label := w_label w; w_created := w_created w |}.
Definition set_label (label : option gostr) (w : wl) : wl :=
  {| w_id := w_id w; w_account := w_account w; w_npub := w_npub w; w_addr := w_addr w; w_role := w_role w;
     w_enabled := w_enabled w; w_pending := w_pending w; w_label := label; w_created := w_created w |}.

(** The row of an account for an npub. *)
Definition row_of (acct : Z) (npub : gostr) (w : wl) : bool :=
  (w_account w =? acct) && bool_decide (w_npub w = npub).

Definition is_role (r : role) (w : wl) : bool := bool_decide (w_role w = r).
Definition at_addr (a : Addr) (w : wl) : bool := bool_decide (w_addr w = a).

Definition insert_wl (acct : Z) (npub : gostr) (a : Addr) (r : role) (enabled pending_ : bool)
    (label : option gostr) : Tx unit :=
  id ← fresh_id;
  t ← tx_get db_now;
  exec_wl (fun l => l ++ [{| w_id := id; w_account := acct; w_npub := npub; w_addr := a; w_role := r;
                             w_enabled := enabled; w_pending := pending_; w_label := label; w_created := t |}]).

(** ** Accounts *)

Definition GetAccountByNpub (npub : gostr) : Store account :=
  fun d => match find_row (fun a => bool_decide (ac_npub a = normNpub npub)) (db_accounts d) with
           | Some a => (Ok a, d)
           | None => (Err ErrAccountNotFound, d)
           end.

(** [INSERT INTO accounts ... ON CONFLICT (npub) DO NOTHING]; fips_addr is
    UNIQUE as well. *)
Definition insert_account (npub : gostr) (a : Addr) : Tx unit :=
  accounts ← tx_get db_accounts;
  if existsb (fun x => bool_decide (ac_npub x = npub)) accounts then mret tt else
  if existsb (fun x => bool_decide (ac_addr x = a)) accounts
  then tx_fail (UniqueViolation (bs "accounts_fips_addr_key")) else
  id ← fresh_id;
  tx_modify (fun d => set_accounts (db_accounts d ++
    [{| ac_id := id; ac_npub := npub; ac_addr := a; ac_active := true |}]) d).

(** The owner row of a new account: parked when the address is active elsewhere;
    [ON CONFLICT (account_id, npub) DO NOTHING]. *)
Definition insert_owner (acct : Z) (npub : gostr) (a : Addr) : Tx unit :=
  l ← tx_get db_whitelist;
  if existsb (row_of acct npub) l then mret tt else
  insert_wl acct npub a owner (negb (existsb (fun w => at_addr a w && active_row w) l)) false None.

(** ** Activation *)

(** [activateRowTx]: park every other active row of the address, then activate
    the row. *)
Definition activateRowTx (id : Z) (a : Addr) : Tx unit :=
  exec_wl (update_rows (fun w => at_addr a w && active_row w && negb (w_id w =? id))
             (fun w => set_flags false (w_pending w) w)) ;;
  exec_wl (update_rows (fun w => w_id w =? id) (set_flags true false)).

Definition activateOwnerTx (acct : Z) : Tx unit :=
  l ← tx_get db_whitelist;
  match find_row (fun w => (w_account w =? acct) && is_role owner w) l with
  | None => mret tt
  | Some w => activateRowTx (w_id w) (w_addr w)
  end.

Definition reactivateOwnerIfOrphanTx (a : Addr) : Tx unit :=
  l ← tx_get db_whitelist;
  if existsb (fun w => at_addr a w && active_row w) l then mret tt else
  exec_wl (update_rows (fun w => at_addr a w && is_role owner w) (set_flags true false)).

Section Whitelist.
Context `{MI : MapIter}.

Definition derive (npub : gostr) : Store Addr :=
  match FromNpub npub with Ok a => mret a | Err _ => fail ErrDeriveAddress end.

(** [_, _, err = s.RecomputeAuthz(ctx)] *)
Definition recompute : Store unit := _ ← RecomputeAuthz; mret tt.

Definition CreateAccount (npub0 : gostr) : Store account :=
  let npub := normNpub npub0 in
  a ← derive npub;
  inTx (insert_account npub a) ;;
  acct ← GetAccountByNpub npub;
  inTx (insert_owner (ac_id acct) npub a) ;;
  recompute ;;
  mret acct.

Definition ActivateOwner (npub : gostr) : Store unit :=
  acct ← GetAccountByNpub npub;
  inTx (activateOwnerTx (ac_id acct)) ;;
  recompute.

(** ** Operator actions (admin.go) *)

(** The upsert of [AddWhitelist]: an existing row is enabled and relabelled,
    otherwise an active guest row is inserted. *)
Definition upsert_guest (acct : Z) (guestNpub : gostr) (a : Addr) (label : gostr) : Tx unit :=
  l ← tx_get db_whitelist;
  if existsb (row_of acct guestNpub) l
  then exec_wl (update_rows (row_of acct guestNpub) (fun w => set_label (Some label) (set_flags true false w)))
  else insert_wl acct guestNpub a guest true false (Some label).

Definition AddWhitelist (ownerNpub guestNpub0 label : gostr) : Store unit :=
  let guestNpub := normNpub guestNpub0 in
  acct ← GetAccountByNpub ownerNpub;
  a ← derive guestNpub;
  (fun d => match inTx (upsert_guest (ac_id acct) guestNpub a label) d with
    | (Err (UniqueViolation _), d') => (Err ErrAddressInUse, d')
    | r => r
    end) ;;
  recompute.

(** The UPDATE of [SetWhitelistEnabled]: a guest that is re-enabled while another
    row of its address is active becomes pending instead. *)
Definition toggle (enabled : bool) (l : list wl) (w : wl) : wl :=
  set_flags enabled
    (if enabled && is_role guest w && negb (w_enabled w) &&
        existsb (fun o => at_addr (w_addr w) o && negb (w_id o =? w_id w) && active_row o) l
     then true else w_pending w) w.

Definition withdrawn (acct : Z) (guestNpub : gostr) (w : wl) : bool :=
  row_of acct guestNpub w && is_role guest w && w_pending w.

Definition enable_tx (acct : Z) (guestNpub : gostr) (enabled : bool) : Tx unit :=
  l ← tx_get db_whitelist;
  if negb enabled && existsb (withdrawn acct guestNpub) l then exec_wl (delete_rows (withdrawn acct guestNpub)) else
  match find_row (row_of acct guestNpub) l with
  | None => mret tt
  | Some w =>
      exec_wl (update_rows (row_of acct guestNpub) (toggle enabled l)) ;;
      if enabled then mret tt else reactivateOwnerIfOrphanTx (w_addr w)
  end.

Definition SetWhitelistEnabled (ownerNpub guestNpub : gostr) (enabled : bool) : Store unit :=
  acct ← GetAccountByNpub ownerNpub;
  inTx (enable_tx (ac_id acct) (normNpub guestNpub) enabled) ;;
  recompute.

(** ** Direct credits (admin.go) *)

(** [time.Duration(validityDays) * 24 * time.Hour] on int64. *)
Definition days_duration (days : Z) : Z := i64 (i64 (days * 24) * (60 * time_Minute)).

Definition insert_entitlement (acct : Z) (purchase : option Z) (kind : gostr) (volume : option Z) (expires : Z) : Tx unit :=
  id ← fresh_id;
  tx_modify (fun d => set_entitlements (db_entitlements d ++
    [{| en_id := id; en_account := acct; en_purchase := purchase; en_kind := kind; en_volume := volume;
        en_used := 0; en_starts := db_now d; en_expires := expires |}]) d).

Definition CreditVolume (npub : gostr) (volumeBytes validityDays : Z) : Store unit :=
  acct ← CreateAccount npub;
  t ← query db_now;
  inTx (insert_entitlement (ac_id acct) None (bs "volume") (Some volumeBytes) (t + days_duration validityDays) ;;
        activateOwnerTx (ac_id acct)) ;;
  recompute.

Definition CreditTime (npub : gostr) (validityDays : Z) : Store unit :=
  acct ← CreateAccount npub;
  t ← query db_now;
  inTx (insert_entitlement (ac_id acct) None (bs "time") None (t + days_duration validityDays) ;;
        activateOwnerTx (ac_id acct)) ;;
  recompute.

(** ** Invitations (whitelist.go) *)

(** The guest row's new flags on re-invitation: an active row stays active, any
    other becomes pending. *)
Definition reinvite (label : gostr) (w : wl) : wl :=
  set_label (Some label) (set_flags true (negb (active_row w)) w).

(** The transaction of [InviteGuest]: whether the row is pending afterwards. *)
Definition invite_tx (MaxGuests acct : Z) (guestNpub : gostr) (a : Addr) (label : gostr) : Tx bool :=
  active ← tx_get (fun d => has_entitlement d acct);
  if negb active then tx_fail ErrNoActiveEntitlement else
  l ← tx_get db_whitelist;
  if existsb (row_of acct guestNpub) l then
    exec_wl (update_rows (row_of acct guestNpub) (reinvite label)) ;;
    l ← tx_get db_whitelist;
    mret (existsb (fun w => row_of acct guestNpub w && w_pending w) l)
  else
    if maxGuests MaxGuests <=? count_rows (fun w => (w_account w =? acct) && is_role guest w && w_enabled w) l
    then tx_fail ErrGuestLimit else
    insert_wl acct guestNpub a guest true true (Some label) ;;
    mret true.

Definition InviteGuest (MaxGuests : Z) (ownerNpub guestNpub0 label : gostr) : Store bool :=
  let guestNpub := normNpub guestNpub0 in
  acct ← GetAccountByNpub ownerNpub;
  a ← derive guestNpub;
  if bool_decide (a = ac_addr acct) then fail ErrSelfWhitelist else
  pending_ ← inTx (invite_tx MaxGuests (ac_id acct) guestNpub a label);
  recompute ;;
  mret pending_.

Definition WithdrawInvite (ownerNpub guestNpub : gostr) : Store unit :=
  acct ← GetAccountByNpub ownerNpub;
  inTx (
    l ← tx_get db_whitelist;
    let p := withdrawn (ac_id acct) (normNpub guestNpub) in
    if existsb p l then exec_wl (delete_rows p) else tx_fail ErrInviteNotFound).

(** [JOIN accounts a ON a.id = w.account_id WHERE a.npub = host]. *)
Definition hosted_by (d : db) (hostNpub : gostr) (w : wl) : bool :=
  existsb (fun a => (ac_id a =? w_account w) && bool_decide (ac_npub a = hostNpub)) (db_accounts d).

Record Invite := { iv_HostNpub : gostr; iv_HostAddr : Addr; iv_Label : gostr; iv_AccountID : Z }.

(** [ORDER BY w.created_at]: rows are in insertion order. *)
Definition PendingInvites (guestNpub : gostr) : Store (list Invite) :=
  query (fun d => omap (fun w =>
    if bool_decide (w_npub w = normNpub guestNpub) && w_pending w && w_enabled w && is_role guest w then
      (fun a => {| iv_HostNpub := ac_npub a; iv_HostAddr := ac_addr a; iv_Label := default [] (w_label w);
                   iv_AccountID := ac_id a |}) <$> find_row (fun a => ac_id a =? w_account w) (db_accounts d)
    else None) (db_whitelist d)).

(** The invitation [AcceptInvite] looks for. *)
Definition open_invite (d : db) (guestNpub hostNpub : gostr) (w : wl) : bool :=
  bool_decide (w_npub w = guestNpub) && hosted_by d hostNpub w && w_pending w && w_enabled w && is_role guest w &&
  account_active d (w_account w).

Definition accept_tx (guestNpub hostNpub : gostr) : Tx unit :=
  d ← tx_get id;
  match find_row (open_invite d guestNpub hostNpub) (db_whitelist d) with
  | None => tx_fail ErrInviteNotFound
  | Some w =>
      if negb (has_entitlement d (w_account w)) then tx_fail ErrNoActiveEntitlement
      else activateRowTx (w_id w) (w_addr w)
  end.

Definition AcceptInvite (guestNpub hostNpub : gostr) : Store unit :=
  inTx (accept_tx (normNpub guestNpub) (normNpub hostNpub)) ;;
  recompute.

Definition DeclineInvite (guestNpub0 hostNpub0 : gostr) : Store unit :=
  inTx (
    d ← tx_get id;
    let p := fun w => bool_decide (w_npub w = normNpub guestNpub0) && hosted_by d (normNpub hostNpub0) w &&
                      w_pending w && is_role guest w in
    if existsb p (db_whitelist d) then exec_wl (delete_rows p) else tx_fail ErrInviteNotFound).

(** [AttachedTo]: the owner npub of another account the address is active on. *)
Definition AttachedTo (acct : Z) (a : Addr) : Store (option gostr) :=
  query (fun d =>
    w ← find_row (fun w => at_addr a w && active_row w && negb (w_account w =? acct)) (db_whitelist d);
    ac_npub <$> find_row (fun x => ac_id x =? w_account w) (db_accounts d)).

End Whitelist.
End Whitelist.
