(* ===== verification/BackendWhitelistFacts.v ===== *)
(** * backend/store: theorems about accounts and consent

    Every operation keeps the whitelist well formed (in particular one active row
    per address), and an address moves to another account only through an action
    of its own identity: nobody else can attach it or take it away. *)

From S2P Require Import Prelude GoStrings Netip Fipsaddr BackendDB BackendAuthz BackendAuthzFacts BackendWhitelist.
Import DB Authz AuthzFacts Derive Whitelist.

Module WhitelistFacts.

(** ** Normalization *)

Lemma trim_left_head s : match trim_left s with [] => True | c :: _ => is_space c = false end.
Proof. induction s as [|c s IH]; cbn; [done|]. by destruct (is_space c) eqn:E. Qed.

Lemma trim_left_fix s : match s with [] => True | c :: _ => is_space c = false end -> trim_left s = s.
Proof. destruct s as [|c s]; [done|]. cbn. by intros ->. Qed.

Lemma trim_left_suffix s : exists p, s = p ++ trim_left s.
Proof.
  induction s as [|c s [p IH]]; [by exists []|]. cbn. destruct (is_space c); [|by exists []].
  exists (c :: p). cbn. by rewrite <- IH.
Qed.

Lemma TrimSpace_idem s : TrimSpace (TrimSpace s) = TrimSpace s.
Proof.
  unfold TrimSpace. set (u := trim_left s).
  assert (Hu : match u with [] => True | c :: _ => is_space c = false end) by apply trim_left_head.
  set (v := trim_left (reverse u)). assert (Hv : trim_left (reverse v) = reverse v).
  { apply trim_left_fix. destruct (trim_left_suffix (reverse u)) as [p Hp]. fold v in Hp.
    apply (f_equal reverse) in Hp. rewrite reverse_involutive, reverse_app in Hp.
    destruct (reverse v) as [|c r]; [done|]. by rewrite Hp in Hu. }
  rewrite Hv, reverse_involutive. f_equal. apply trim_left_fix, trim_left_head.
Qed.

Lemma lower_byte_space c : is_space (lower_byte c) = is_space c.
Proof.
  unfold lower_byte, is_upper, is_space. destruct ((65 <=? c) && (c <=? 90)) eqn:E; [|done]. bool_hyps.
  rewrite (proj2 (Z.leb_gt (c + 32) 13)), (proj2 (Z.leb_gt c 13)), !andb_false_r by lia.
  by rewrite !(proj2 (Z.eqb_neq _ _)) by lia.
Qed.

Lemma trim_left_ToLower s : trim_left (ToLower s) = ToLower (trim_left s).
Proof. induction s as [|c s IH]; [done|]. cbn. rewrite lower_byte_space. by destruct (is_space c). Qed.

Lemma TrimSpace_ToLower s : TrimSpace (ToLower s) = ToLower (TrimSpace s).
Proof.
  assert (R : forall t, reverse (ToLower t) = ToLower (reverse t)) by (intros t; symmetry; apply fmap_reverse).
  unfold TrimSpace. by rewrite trim_left_ToLower, R, trim_left_ToLower, R.
Qed.

Lemma normNpub_idem s : normNpub (normNpub s) = normNpub s.
Proof. unfold normNpub. by rewrite TrimSpace_ToLower, TrimSpace_idem, ToLower_idem. Qed.

(** ** The invariant *)

Definition row_key (w : wl) : Z * (Z * gostr) * Addr * role := (w_id w, (w_account w, w_npub w), w_addr w, w_role w).

Record wl_ok (d : db) : Prop := {
  wo_ids : NoDup (w_id <$> db_whitelist d);
  wo_next : Forall (fun w => w_id w < db_next d) (db_whitelist d);
  wo_pairs : NoDup ((fun w => (w_account w, w_npub w)) <$> db_whitelist d);
  wo_active : NoDup (w_addr <$> filter (fun w => active_row w = true) (db_whitelist d));
  wo_derive : Forall (fun w => FromNpub (w_npub w) = Ok (w_addr w)) (db_whitelist d);
  wo_owner : Forall (fun w => w_role w = owner ->
    Exists (fun a => ac_id a = w_account w /\ ac_npub a = w_npub w) (db_accounts d)) (db_whitelist d);
  wo_acc_ids : NoDup (ac_id <$> db_accounts d);
  wo_acc_next : Forall (fun a => ac_id a < db_next d) (db_accounts d);
  wo_acc_npubs : NoDup (ac_npub <$> db_accounts d);
  wo_acc_addrs : NoDup (ac_addr <$> db_accounts d);
  wo_acc_derive : Forall (fun a => FromNpub (ac_npub a) = Ok (ac_addr a)) (db_accounts d)
}.

(** Functions of the rows that only read identity fields. *)
Lemma fmap_key {B} (g : wl -> B) (f : Z * (Z * gostr) * Addr * role -> B) (l l' : list wl) :
  (forall w, g w = f (row_key w)) -> row_key <$> l' = row_key <$> l -> g <$> l' = g <$> l.
Proof.
  intros Hg E. assert (H : forall k : list wl, g <$> k = f <$> (row_key <$> k)).
  { intros k. induction k as [|w k IH]; [done|]. rewrite !fmap_cons, IH, Hg. done. }
  by rewrite !H, E.
Qed.

Lemma Forall_key (P : Z * (Z * gostr) * Addr * role -> Prop) (l l' : list wl) :
  row_key <$> l' = row_key <$> l -> Forall (fun w => P (row_key w)) l -> Forall (fun w => P (row_key w)) l'.
Proof.
  intros E H. apply (proj1 (Forall_fmap row_key P l')). rewrite E. by apply (proj2 (Forall_fmap row_key P l)).
Qed.

Lemma keys_update p f l :
  (forall w, row_key (f w) = row_key w) -> row_key <$> update_rows p f l = row_key <$> l.
Proof.
  intros Hf. induction l as [|w l IH]; [done|]. unfold update_rows in *. cbn [map]. rewrite !fmap_cons.
  f_equal; [by destruct (p w)|done].
Qed.

(** Keeping the keys and passing the index check keeps the invariant. *)
Lemma wl_ok_keys d l :
  wl_ok d -> row_key <$> l = row_key <$> db_whitelist d -> active_unique l = true -> wl_ok (set_whitelist l d).
Proof.
  intros [H1 H2 H3 H4 H5 H6 H7 H8 H9 H10 H11] E Ha. unfold active_unique in Ha. bool_hyps.
  split; cbn [db_whitelist db_next db_accounts set_whitelist]; try done.
  - by rewrite (fmap_key w_id (fun k => k.1.1.1) _ _ ltac:(done) E).
  - apply (Forall_key (fun k => k.1.1.1 < db_next d) _ _ E H2).
  - by rewrite (fmap_key (fun w => (w_account w, w_npub w)) (fun k => k.1.1.2) _ _ ltac:(by intros []) E).
  - apply (Forall_key (fun k => FromNpub k.1.1.2.2 = Ok k.1.2) _ _ E H5).
  - apply (Forall_key (fun k => k.2 = owner ->
      Exists (fun a => ac_id a = k.1.1.2.1 /\ ac_npub a = k.1.1.2.2) (db_accounts d)) _ _ E H6).
Qed.

Lemma NoDup_fmap_filter {A B} (f : A -> B) (P : A -> Prop) `{!forall x, Decision (P x)} (l : list A) :
  NoDup (f <$> l) -> NoDup (f <$> filter P l).
Proof.
  induction l as [|x l IH]; [done|]. rewrite fmap_cons. intros [Hni ND]%NoDup_cons.
  rewrite filter_cons. destruct (decide (P x)); [|by apply IH].
  rewrite fmap_cons. apply NoDup_cons. split; [|by apply IH]. intros Hin. apply Hni.
  apply list_elem_of_fmap in Hin as (y & Ey & Hin). apply list_elem_of_filter in Hin as [_ Hin].
  apply list_elem_of_fmap. by exists y.
Qed.

Lemma filter_comm {A} (P Q : A -> Prop) `{!forall x, Decision (P x)} `{!forall x, Decision (Q x)} (l : list A) :
  filter P (filter Q l) = filter Q (filter P l).
Proof.
  induction l as [|x l IH]; [done|]. rewrite (filter_cons P), (filter_cons Q).
  destruct (decide (P x)), (decide (Q x)); rewrite ?(filter_cons P), ?(filter_cons Q);
    repeat (destruct (decide _)); try done; by rewrite IH.
Qed.

Lemma wl_ok_delete d p : wl_ok d -> wl_ok (set_whitelist (delete_rows p (db_whitelist d)) d).
Proof.
  intros [H1 H2 H3 H4 H5 H6 H7 H8 H9 H10 H11].
  split; cbn [db_whitelist db_next db_accounts set_whitelist]; try done;
    unfold delete_rows; try (by apply NoDup_fmap_filter); try (by apply Forall_filter_weaken).
  rewrite filter_comm. by apply NoDup_fmap_filter.
Qed.

(** ** Who holds an address *)

Definition holds (l : list wl) (a : Addr) (x : Z) : Prop :=
  exists w, w ∈ l /\ active_row w = true /\ w_addr w = a /\ w_account w = x.

(** The account an address is attributed to. *)
Definition attribution (d : db) (a : Addr) : option Z :=
  w_account <$> find_row (fun w => at_addr a w && active_row w) (db_whitelist d).

Lemma active_row_inj l w w' :
  NoDup (w_addr <$> filter (fun w => active_row w = true) l) ->
  w ∈ l -> w' ∈ l -> active_row w = true -> active_row w' = true -> w_addr w = w_addr w' -> w = w'.
Proof.
  intros ND Hw Hw' Ha Ha' E. eapply (NoDup_key_inj w_addr); [exact ND|by apply list_elem_of_filter..|done].
Qed.

Lemma attribution_holds d a x :
  NoDup (w_addr <$> filter (fun w => active_row w = true) (db_whitelist d)) ->
  attribution d a = Some x <-> holds (db_whitelist d) a x.
Proof.
  intros ND. unfold attribution. split.
  - intros H. apply fmap_Some in H as (w & Hw & ->). apply find_row_Some in Hw as [Hin Hp].
    unfold at_addr in Hp. bool_hyps. by exists w.
  - intros (w & Hin & Ha & <- & <-). destruct (find_row _ _) as [w'|] eqn:E.
    + apply find_row_Some in E as [Hin' Hp]. unfold at_addr in Hp. bool_hyps.
      cbn. f_equal. f_equal. by eapply active_row_inj.
    + pose proof (find_row_None _ _ E w Hin) as Hn. cbn in Hn. unfold at_addr in Hn.
      rewrite Ha, bool_decide_eq_true_2 in Hn; done.
Qed.

Lemma attribution_eq d d' a :
  wl_ok d -> wl_ok d' -> (forall x, holds (db_whitelist d') a x <-> holds (db_whitelist d) a x) ->
  attribution d' a = attribution d a.
Proof.
  intros Hd Hd' H. apply option_eq. intros x. rewrite !attribution_holds; [apply H|apply Hd|apply Hd'].
Qed.

Lemma attribution_None d a x : wl_ok d -> attribution d a = None -> ~ holds (db_whitelist d) a x.
Proof. intros Hd E H. apply (attribution_holds d) in H; [congruence|apply Hd]. Qed.

Lemma holds_update p f l a x :
  (forall w, row_key (f w) = row_key w) ->
  holds (update_rows p f l) a x <->
  exists w, w ∈ l /\ active_row (if p w then f w else w) = true /\ w_addr w = a /\ w_account w = x.
Proof.
  intros Hf. unfold holds. split.
  - intros (w' & Hin & Ha & E1 & E2). apply elem_of_update_rows in Hin as (w & Hin & ->). exists w.
    split; [done|]. split; [done|]. destruct (p w); [|done].
    specialize (Hf w). unfold row_key in Hf. by inv Hf.
  - intros (w & Hin & Ha & <- & <-). exists (if p w then f w else w). split; [apply elem_of_update_rows; by exists w|].
    split; [done|]. destruct (p w); [|done]. specialize (Hf w). unfold row_key in Hf. by inv Hf.
Qed.

(** Statements that leave every active row as it is. *)
Lemma holds_update_same p f l a x :
  (forall w, row_key (f w) = row_key w) ->
  (forall w, w ∈ l -> p w = true -> w_addr w = a -> active_row (f w) = active_row w) ->
  holds (update_rows p f l) a x <-> holds l a x.
Proof.
  intros Hf Hp. rewrite holds_update by done. split; intros (w & Hin & Ha & E1 & E2); exists w.
  - split; [done|]. split; [|done]. destruct (p w) eqn:Ep; [|done]. by rewrite <- (Hp w).
  - split; [done|]. split; [|done]. destruct (p w) eqn:Ep; [|done]. by rewrite (Hp w).
Qed.

Lemma holds_delete_inactive p l a x :
  (forall w, w ∈ l -> p w = true -> active_row w = false) -> holds (delete_rows p l) a x <-> holds l a x.
Proof.
  intros Hp. unfold holds. split; intros (w & Hin & Ha & E1 & E2); exists w; (split; [|done]).
  - by apply elem_of_delete_rows in Hin as [? _].
  - apply elem_of_delete_rows. split; [done|]. destruct (p w) eqn:Ep; [|done]. rewrite (Hp w) in Ha; done.
Qed.

Lemma holds_snoc l w a x :
  holds (l ++ [w]) a x <-> holds l a x \/ (active_row w = true /\ w_addr w = a /\ w_account w = x).
Proof.
  unfold holds. split.
  - intros (w' & Hin & H). apply elem_of_app in Hin as [Hin|Hin]; [left; by exists w'|].
    apply list_elem_of_singleton in Hin as ->. by right.
  - intros [(w' & Hin & H)|H]; [exists w'|exists w]; (split; [apply elem_of_app|done]); [by left|].
    right. by apply list_elem_of_singleton.
Qed.

(** ** Statements *)

Lemma exec_wl_inv f d x d' :
  exec_wl f d = Ok (x, d') -> d' = set_whitelist (f (db_whitelist d)) d /\ active_unique (f (db_whitelist d)) = true.
Proof. unfold exec_wl. destruct (active_unique _) eqn:E; [|done]. intros H. by inv H. Qed.

Lemma row_key_flags b c w : row_key (set_flags b c w) = row_key w.
Proof. done. Qed.

Lemma update_wl_ok p f d x d' :
  wl_ok d -> (forall w, row_key (f w) = row_key w) ->
  exec_wl (update_rows p f) d = Ok (x, d') ->
  wl_ok d' /\ d' = set_whitelist (update_rows p f (db_whitelist d)) d.
Proof.
  intros Hd Hf H. apply exec_wl_inv in H as [-> Hu]. split; [|done].
  apply wl_ok_keys; [done|by apply keys_update|done].
Qed.

Lemma delete_wl_ok p d x d' :
  wl_ok d -> exec_wl (delete_rows p) d = Ok (x, d') ->
  wl_ok d' /\ d' = set_whitelist (delete_rows p (db_whitelist d)) d.
Proof. intros Hd H. apply exec_wl_inv in H as [-> _]. split; [by apply wl_ok_delete|done]. Qed.

(** Everything but the whitelist (and the id supply) is the same. *)
Definition only_whitelist (d d' : db) : Prop :=
  db_accounts d' = db_accounts d /\ db_now d' = db_now d /\ db_entitlements d' = db_entitlements d /\
  db_current d' = db_current d /\ db_revisions d' = db_revisions d /\ db_revseq d' = db_revseq d /\
  db_purchases d' = db_purchases d /\ db_packages d' = db_packages d /\ db_next d <= db_next d'.

Lemma only_whitelist_refl d : only_whitelist d d.
Proof. by repeat split. Qed.

Lemma wl_ok_insert d w acct :
  wl_ok d -> w_id w < db_next d -> Forall (fun v => w_id v <> w_id w) (db_whitelist d) ->
  existsb (row_of (w_account w) (w_npub w)) (db_whitelist d) = false ->
  FromNpub (w_npub w) = Ok (w_addr w) ->
  (w_role w = owner -> acct ∈ db_accounts d /\ ac_id acct = w_account w /\ ac_npub acct = w_npub w) ->
  active_unique (db_whitelist d ++ [w]) = true -> wl_ok (set_whitelist (db_whitelist d ++ [w]) d).
Proof.
  intros [H1 H2 H3 H4 H5 H6 H7 H8 H9 H10 H11] Hid Hne Hex Hdr Hown Hu. unfold active_unique in Hu. bool_hyps.
  split; cbn [db_whitelist db_next db_accounts set_whitelist]; try done.
  - rewrite fmap_app. apply NoDup_app. split; [done|]. split; [|apply NoDup_singleton].
    intros i Hi Hi'. apply list_elem_of_singleton in Hi'. apply list_elem_of_fmap in Hi as (v & -> & Hv).
    rewrite Forall_forall in Hne. by apply (Hne v Hv).
  - apply Forall_app. split; [done|]. by apply Forall_singleton.
  - rewrite fmap_app. apply NoDup_app. split; [done|]. split; [|apply NoDup_singleton].
    intros i Hi Hi'. apply list_elem_of_singleton in Hi'. apply list_elem_of_fmap in Hi as (v & -> & Hv). inv Hi'.
    apply not_true_iff_false in Hex. apply Hex, existsb_exists. exists v. split; [by apply list_elem_of_In|].
    unfold row_of. rewrite H0, Z.eqb_refl. cbn. by apply bool_decide_eq_true.
  - apply Forall_app. split; [done|]. by apply Forall_singleton.
  - apply Forall_app. split; [done|]. apply Forall_singleton. intros Hr. destruct (Hown Hr) as (? & ? & ?).
    apply Exists_exists. by exists acct.
Qed.

Lemma wl_ok_next d n : wl_ok d -> db_next d <= n -> wl_ok (set_next n d).
Proof.
  intros [H1 H2 H3 H4 H5 H6 H7 H8 H9 H10 H11] Hn. split; cbn; try done.
  - eapply Forall_weaken; [exact H2|]. cbn. lia.
  - eapply Forall_weaken; [exact H8|]. cbn. lia.
Qed.

Lemma insert_wl_ok acct npub a r en pd lb d x d' owner_acct :
  wl_ok d -> existsb (row_of acct npub) (db_whitelist d) = false -> FromNpub npub = Ok a ->
  (r = owner -> owner_acct ∈ db_accounts d /\ ac_id owner_acct = acct /\ ac_npub owner_acct = npub) ->
  insert_wl acct npub a r en pd lb d = Ok (x, d') ->
  wl_ok d' /\ only_whitelist d d' /\
  exists w, db_whitelist d' = db_whitelist d ++ [w] /\ w_addr w = a /\ w_account w = acct /\
    active_row w = en && negb pd.
Proof.
  intros Hd Hex Hdr Hown. unfold insert_wl, mbind, tx_bind, fresh_id, tx_get. intros H.
  apply exec_wl_inv in H as [-> Hu]. cbn [db_whitelist set_next] in *.
  split; [|split; [repeat split; cbn; lia|by eexists]].
  apply (wl_ok_insert (set_next (db_next d + 1) d) _ owner_acct); cbn; try done.
  - apply wl_ok_next; [done|lia].
  - lia.
  - eapply Forall_weaken; [apply (wo_next d Hd)|]. cbn. lia.
Qed.

Lemma active_unique_intro l :
  NoDup (w_id <$> l) ->
  (forall w w', w ∈ l -> w' ∈ l -> active_row w = true -> active_row w' = true -> w_addr w = w_addr w' -> w = w') ->
  active_unique l = true.
Proof.
  intros ND H. apply bool_decide_eq_true. apply NoDup_fmap_2_strong.
  - intros w w' Hw Hw' E. apply list_elem_of_filter in Hw as [Ha Hw], Hw' as [Ha' Hw']. by apply H.
  - apply NoDup_filter. by eapply NoDup_fmap_1.
Qed.

Definition park (id : Z) (a : Addr) : list wl -> list wl :=
  update_rows (fun w => at_addr a w && active_row w && negb (w_id w =? id)) (fun w => set_flags false (w_pending w) w).
Definition raise (id : Z) : list wl -> list wl := update_rows (fun w => w_id w =? id) (set_flags true false).

Lemma active_park a id w :
  active_row (if at_addr a w && active_row w && negb (w_id w =? id) then set_flags false (w_pending w) w else w) =
  active_row w && negb (at_addr a w && negb (w_id w =? id)).
Proof.
  assert (Hf : active_row (set_flags false (w_pending w) w) = false) by done.
  destruct (at_addr a w && active_row w && negb (w_id w =? id)) eqn:E.
  - rewrite Hf. bool_hyps. rewrite H, H1. by rewrite (proj2 (Z.eqb_neq _ _)), andb_false_r by done.
  - destruct (at_addr a w), (active_row w), (w_id w =? id); by cbn in *.
Qed.

Lemma ids_update p f l : (forall w, row_key (f w) = row_key w) -> w_id <$> update_rows p f l = w_id <$> l.
Proof. intros Hf. by apply (fmap_key w_id (fun k => k.1.1.1)), keys_update. Qed.

(** [activateRowTx] on an existing row always succeeds, and makes that row's
    account the one that holds its address. *)
Lemma activateRow_run w d :
  wl_ok d -> w ∈ db_whitelist d ->
  exists d', activateRowTx (w_id w) (w_addr w) d = Ok (tt, d') /\ wl_ok d' /\ only_whitelist d d' /\
    (forall y, holds (db_whitelist d') (w_addr w) y <-> y = w_account w) /\
    (forall b y, b <> w_addr w -> holds (db_whitelist d') b y <-> holds (db_whitelist d) b y).
Proof.
  intros Hd Hw. set (a := w_addr w). set (id := w_id w).
  assert (Huniq : forall v, v ∈ db_whitelist d -> w_id v = id -> v = w).
  { intros v Hv E. apply (NoDup_key_inj w_id (db_whitelist d)); [apply Hd|done..]. }
  assert (Hp : active_unique (park id a (db_whitelist d)) = true).
  { apply active_unique_intro; [unfold park; rewrite ids_update by done; apply Hd|].
    intros v v' Hv Hv' Ha Ha' E. apply elem_of_update_rows in Hv as (u & Hu & ->), Hv' as (u' & Hu' & ->).
    rewrite active_park in Ha, Ha'. bool_hyps. f_equal.
    assert (u = u') as ->; [|done]. apply (active_row_inj (db_whitelist d)); try done; [apply Hd|].
    by destruct (_ && _ && _), (at_addr a u' && active_row u' && _). }
  unfold activateRowTx, mbind, tx_bind. unfold exec_wl at 1. fold (park id a). rewrite Hp.
  set (d1 := set_whitelist (park id a (db_whitelist d)) d).
  assert (Hd1 : wl_ok d1) by (apply wl_ok_keys; [done|by apply keys_update|done]).
  assert (Hr : active_unique (raise id (db_whitelist d1)) = true).
  { apply active_unique_intro; [unfold raise; rewrite ids_update by done; apply Hd1|].
    intros v v' Hv Hv' Ha Ha' E. apply elem_of_update_rows in Hv as (u & Hu & ->), Hv' as (u' & Hu' & ->).
    assert (Hcase : forall x, x ∈ db_whitelist d1 -> active_row (if w_id x =? id then set_flags true false x else x) = true ->
      w_id x = id \/ (active_row x = true /\ w_addr x <> a)).
    { intros x Hx Hax. destruct (w_id x =? id) eqn:Ex; bool_hyps; [by left|right]. split; [done|].
      apply elem_of_update_rows in Hx as (x0 & Hx0 & ->). rewrite active_park in Hax. bool_hyps.
      assert (w_id x0 <> id) by (by destruct (at_addr a x0 && active_row x0 && _)).
      rewrite (proj2 (Z.eqb_neq _ _)) in H0 by done. rewrite andb_true_r in H0. unfold at_addr in H0. bool_hyps.
      by destruct (at_addr a x0 && active_row x0 && _). }
    assert (Ea : forall x, w_addr (if w_id x =? id then set_flags true false x else x) = w_addr x) by (intros x; by destruct (w_id x =? id)).
    rewrite !Ea in E.
    assert (Hwid : forall x, x ∈ db_whitelist d1 -> w_id x = id -> w_addr x = a).
    { intros x Hx Ex. apply elem_of_update_rows in Hx as (x0 & Hx0 & ->).
      assert (w_id x0 = id) by (by destruct (at_addr a x0 && active_row x0 && _)).
      rewrite (Huniq x0) in * by done. by destruct (at_addr a w && active_row w && _). }
    destruct (Hcase u Hu Ha) as [Eu|[Au Nu]], (Hcase u' Hu' Ha') as [Eu'|[Au' Nu']].
    - f_equal. assert (u = u') as ->; [|done]. apply (NoDup_key_inj w_id (db_whitelist d1)); [apply Hd1|done|done|congruence].
    - exfalso. apply Nu'. rewrite <- E. by apply Hwid.
    - exfalso. apply Nu. rewrite E. by apply Hwid.
    - assert (u = u') as ->; [|done]. apply (active_row_inj (db_whitelist d1)); try done. apply Hd1. }
  unfold exec_wl. fold (raise id). rewrite Hr. eexists. split; [reflexivity|].
  split; [apply wl_ok_keys; [done|by apply keys_update|done]|]. split; [by repeat split|]. cbn [db_whitelist set_whitelist].
  assert (Hh : forall b y, holds (raise id (park id a (db_whitelist d))) b y <->
    exists v, v ∈ db_whitelist d /\ w_addr v = b /\ w_account v = y /\
      (w_id v = id \/ (active_row v = true /\ b <> a))).
  { intros b y. unfold raise. rewrite holds_update by done. split.
    - intros (v & Hv & Ha & <- & <-). apply elem_of_update_rows in Hv as (u & Hu & ->).
      exists u. split; [done|]. split; [by destruct (_ && _ && _)|]. split; [by destruct (_ && _ && _)|].
      destruct (decide (w_id u = id)) as [|Hne]; [by left|right].
      assert (Hid : w_id (if at_addr a u && active_row u && negb (w_id u =? id) then set_flags false (w_pending u) u else u) <> id)
        by (by destruct (_ && _ && _)).
      rewrite (proj2 (Z.eqb_neq _ _) Hid), active_park in Ha. bool_hyps. split; [done|].
      rewrite (proj2 (Z.eqb_neq _ _)) in H0 by done. rewrite andb_true_r in H0. unfold at_addr in H0. bool_hyps.
      by destruct (_ && _ && _).
    - intros (u & Hu & <- & <- & Hcase).
      exists (if at_addr a u && active_row u && negb (w_id u =? id) then set_flags false (w_pending u) u else u).
      split; [apply elem_of_update_rows; by exists u|]. split; [|by destruct (_ && _ && _)].
      destruct (w_id (if at_addr a u && _ && _ then _ else u) =? id) eqn:Eid; [done|]. bool_hyps.
      rewrite active_park. destruct Hcase as [E|[Hact Hne]].
      + exfalso. apply Eid. by destruct (_ && _ && _).
      + rewrite Hact. unfold at_addr. by rewrite bool_decide_eq_false_2. }
  change (db_whitelist d1) with (park id a (db_whitelist d)). split.
  - intros y. rewrite Hh. split.
    + intros (v & Hv & Ea & <- & [E|[_ H]]); [by rewrite (Huniq v)|done].
    + intros ->. exists w. repeat split; try done. by left.
  - intros b y Hb. rewrite Hh. unfold holds. split.
    + intros (v & Hv & Ea & Ey & [E|[Hact _]]); [exfalso; apply Hb; by rewrite <- Ea, (Huniq v)|]. by exists v.
    + intros (v & Hv & Hact & Ea & Ey). exists v. repeat split; try done. by right.
Qed.
(** ** What an operation may move *)

(** [moves P d d']: the invariant holds after, and the attribution of every
    address outside [P] is as before. *)
Definition moves (P : Addr -> Prop) (d d' : db) : Prop :=
  wl_ok d' /\ forall b, attribution d' b = attribution d b \/ P b.

Lemma moves_refl P d : wl_ok d -> moves P d d.
Proof. intros H. split; [done|]. by left. Qed.

Lemma moves_trans (P : Addr -> Prop) d1 d2 d3 : moves P d1 d2 -> moves P d2 d3 -> moves P d1 d3.
Proof.
  intros [_ H1] [H2 H3]. split; [done|]. intros b. destruct (H1 b) as [E|?]; [|by right].
  destruct (H3 b); [left; congruence|by right].
Qed.

Lemma moves_weaken (P Q : Addr -> Prop) d d' : (forall b, P b -> Q b) -> moves P d d' -> moves Q d d'.
Proof. intros HPQ [H1 H2]. split; [done|]. intros b. destruct (H2 b); [by left|right; auto]. Qed.

(** Operations that touch neither the whitelist nor the accounts. *)
Lemma moves_steady P d d' :
  wl_ok d -> db_whitelist d' = db_whitelist d -> db_accounts d' = db_accounts d -> db_next d <= db_next d' ->
  moves P d d'.
Proof.
  intros [H1 H2 H3 H4 H5 H6 H7 H8 H9 H10 H11] Ew Ea En. split.
  - split; rewrite ?Ew, ?Ea; try done.
    + eapply Forall_weaken; [exact H2|]. cbn. lia.
    + eapply Forall_weaken; [exact H8|]. cbn. lia.
  - intros b. left. unfold attribution. by rewrite Ew.
Qed.

(** An address that was held stays with its account when no row lost it. *)
Lemma attribution_grow d d' b :
  wl_ok d -> wl_ok d' -> (forall y, holds (db_whitelist d) b y -> holds (db_whitelist d') b y) ->
  attribution d' b = attribution d b \/ attribution d b = None.
Proof.
  intros Hd Hd' H. destruct (attribution d b) as [y|] eqn:E; [left|by right].
  apply attribution_holds; [apply Hd'|]. apply H. apply attribution_holds; [apply Hd|done].
Qed.

Lemma inTx_moves {A} (P : Addr -> Prop) (t : Tx A) d :
  wl_ok d -> (forall x d', t d = Ok (x, d') -> moves P d d') -> moves P d (inTx t d).2.
Proof. intros Hd H. unfold inTx. destruct (t d) as [[x d']|e] eqn:E; [by eapply H|by apply moves_refl]. Qed.

(** *** Rows *)

Lemma derived d w : wl_ok d -> w ∈ db_whitelist d -> FromNpub (w_npub w) = Ok (w_addr w).
Proof. intros Hd. apply (proj1 (Forall_forall _ _) (wo_derive d Hd)). Qed.

Lemma row_of_spec acct npub w : row_of acct npub w = true <-> w_account w = acct /\ w_npub w = npub.
Proof. unfold row_of. rewrite andb_true_iff, Z.eqb_eq, bool_decide_eq_true. done. Qed.

Lemma derives_dec npub b : FromNpub npub = Ok b \/ FromNpub npub <> Ok b.
Proof.
  destruct (FromNpub npub) as [a|e]; [|by right]. destruct (decide (a = b)) as [->|]; [by left|right; congruence].
Qed.

(** An update of one identity's rows moves only its address. *)
Lemma update_moves acct npub f d d' x :
  wl_ok d -> (forall w, row_key (f w) = row_key w) ->
  (forall w, w ∈ db_whitelist d -> row_of acct npub w = true -> active_row w = true -> active_row (f w) = true) ->
  exec_wl (update_rows (row_of acct npub) f) d = Ok (x, d') ->
  moves (fun b => FromNpub npub = Ok b /\ attribution d b = None) d d'.
Proof.
  intros Hd Hf Hact H. apply update_wl_ok in H as [Hd' ->]; [|done..]. split; [done|]. intros b.
  destruct (derives_dec npub b) as [E|E].
  - destruct (attribution_grow d _ b Hd Hd'); [|by left|by right].
    intros y (w & Hw & Ha & E1 & E2). cbn [db_whitelist set_whitelist]. apply holds_update; [done|]. exists w.
    split; [done|]. split; [|done]. destruct (row_of _ _ _) eqn:Er; [by apply Hact|done].
  - left. apply attribution_eq; [done..|]. intros y. cbn [db_whitelist set_whitelist].
    apply holds_update_same; [done|]. intros w Hw Hr Hb. apply row_of_spec in Hr as [_ Hr].
    exfalso. apply E. by rewrite <- Hr, <- Hb, (derived d).
Qed.

Lemma delete_moves P p d d' x :
  wl_ok d -> (forall w, p w = true -> w_pending w = true) -> exec_wl (delete_rows p) d = Ok (x, d') -> moves P d d'.
Proof.
  intros Hd Hp H. apply delete_wl_ok in H as [Hd' ->]; [|done]. split; [done|]. intros b. left.
  apply attribution_eq; [done..|]. intros y. apply holds_delete_inactive. intros w _ Hw.
  unfold active_row. by rewrite (Hp w Hw), andb_false_r.
Qed.

Lemma insert_moves acct npub a r en pd lb d x d' o :
  wl_ok d -> existsb (row_of acct npub) (db_whitelist d) = false -> FromNpub npub = Ok a ->
  (r = owner -> o ∈ db_accounts d /\ ac_id o = acct /\ ac_npub o = npub) ->
  insert_wl acct npub a r en pd lb d = Ok (x, d') ->
  moves (fun b => b = a /\ attribution d b = None /\ en && negb pd = true) d d' /\ db_accounts d' = db_accounts d.
Proof.
  intros Hd Hex Hdr Hown H.
  destruct (insert_wl_ok _ _ _ _ _ _ _ _ _ _ _ Hd Hex Hdr Hown H) as (Hd' & Hw & w & El & Ea & Ey & Eact).
  split; [|apply Hw]. split; [done|]. intros b. destruct (en && negb pd) eqn:Ep; [destruct (decide (b = a)) as [->|Hne]|].
  - destruct (attribution_grow d d' a Hd Hd'); [|by left|by right].
    intros y Hy. rewrite El, holds_snoc. by left.
  - left. apply attribution_eq; [done..|]. intros y. rewrite El, holds_snoc. split; [|by left].
    intros [?|(_ & E & _)]; [done|congruence].
  - left. apply attribution_eq; [done..|]. intros y. rewrite El, holds_snoc. split; [|by left].
    intros [?|(E & _)]; [done|congruence].
Qed.

Lemma activateRow_moves w d x d' :
  wl_ok d -> w ∈ db_whitelist d -> activateRowTx (w_id w) (w_addr w) d = Ok (x, d') ->
  moves (fun b => b = w_addr w) d d' /\ attribution d' (w_addr w) = Some (w_account w).
Proof.
  intros Hd Hw H. destruct (activateRow_run w d Hd Hw) as (d1 & E & Hd1 & _ & H1 & H2). rewrite E in H. inv H.
  split; [split; [done|]|].
  - intros b. destruct (decide (b = w_addr w)); [by right|left]. apply attribution_eq; [done..|]. intros y. by apply H2.
  - apply attribution_holds; [apply Hd1|]. by apply H1.
Qed.

End WhitelistFacts.
