(* ===== verification/BackendConsent.v ===== *)
(** * backend/store: consent

    Every account and whitelist operation as one step; each step keeps the
    whitelist well formed, and an address leaves an account only by an action of
    its own identity or of the host it is attached to. *)

From S2P Require Import Prelude GoStrings Netip Fipsaddr BackendDB BackendAuthz BackendAuthzFacts BackendWhitelist.
From S2P Require Import BackendWhitelistFacts.
Import DB Authz AuthzFacts Derive Whitelist WhitelistFacts.

Module Consent.

Ltac tx_unfold := unfold mbind, tx_bind, tx_get, mret, tx_ret, tx_fail in *.

Section Consent.
Context `{MI : MapIter}.

(** ** Steps *)

Inductive wl_op :=
| op_create (npub : gostr)
| op_activate (npub : gostr)
| op_add_guest (ownerNpub guestNpub label : gostr)
| op_enable (ownerNpub guestNpub : gostr) (enabled : bool)
| op_credit_volume (npub : gostr) (bytes days : Z)
| op_credit_time (npub : gostr) (days : Z)
| op_invite (MaxGuests : Z) (ownerNpub guestNpub label : gostr)
| op_withdraw (ownerNpub guestNpub : gostr)
| op_accept (guestNpub hostNpub : gostr)
| op_decline (guestNpub hostNpub : gostr)
| op_recompute.

Definition run_op (o : wl_op) (d : db) : db :=
  match o with
  | op_create n => (CreateAccount n d).2
  | op_activate n => (ActivateOwner n d).2
  | op_add_guest h g l => (AddWhitelist h g l d).2
  | op_enable h g b => (SetWhitelistEnabled h g b d).2
  | op_credit_volume n v k => (CreditVolume n v k d).2
  | op_credit_time n k => (CreditTime n k d).2
  | op_invite m h g l => (InviteGuest m h g l d).2
  | op_withdraw h g => (WithdrawInvite h g d).2
  | op_accept g h => (AcceptInvite g h d).2
  | op_decline g h => (DeclineInvite g h d).2
  | op_recompute => (RecomputeAuthz d).2
  end.

(** The account an npub names. *)
Definition account_of (d : db) (npub : gostr) : option Z :=
  ac_id <$> find_row (fun a => bool_decide (ac_npub a = normNpub npub)) (db_accounts d).

(** What a step is entitled to re-attribute: the identity's own address, for the
    steps it takes itself; an address nobody holds, for an operator's grant; the
    host's own guest (or an unheld one), for the host's switch. *)
Definition entitled_to (o : wl_op) (d : db) (b : Addr) : Prop :=
  match o with
  | op_create n | op_activate n | op_credit_volume n _ _ | op_credit_time n _ | op_accept n _ =>
      FromNpub (normNpub n) = Ok b
  | op_add_guest h g _ => FromNpub (normNpub g) = Ok b /\ attribution d b = None
  | op_enable h g true => FromNpub (normNpub g) = Ok b /\ attribution d b = None
  | op_enable h g false =>
      FromNpub (normNpub g) = Ok b /\ (attribution d b = None \/ attribution d b = account_of d h)
  | op_invite _ _ _ _ | op_withdraw _ _ | op_decline _ _ | op_recompute => False
  end.

(** ** Each step *)

Lemma recompute_moves P d : wl_ok d -> moves P d (RecomputeAuthz d).2 /\ db_accounts (RecomputeAuthz d).2 = db_accounts d.
Proof.
  intros Hd. destruct (recompute_run d) as (rm & rev & d' & E & [T _ _] & _). rewrite E. cbn [snd].
  unfold other_tables in T. destruct T as (_ & T1 & _ & _ & _ & T2 & T3 & _).
  split; [apply moves_steady; rewrite ?T1; done|done].
Qed.

Lemma recompute_snd d : (recompute d).2 = (RecomputeAuthz d).2.
Proof. unfold recompute, mbind, store_bind. by destruct (RecomputeAuthz d) as [[?|?] ?]. Qed.

(** A transaction followed by a recompute. *)
Lemma tx_recompute_eq (t : Tx unit) d :
  (inTx t ;; recompute) d = match t d with Ok (_, d1) => (Ok tt, (RecomputeAuthz d1).2) | Err e => (Err e, d) end.
Proof.
  unfold mbind, store_bind, inTx. destruct (t d) as [[u d1]|e]; [|done].
  destruct (recompute_run d1) as (rm & rev & d2 & E & _). unfold recompute, mbind, store_bind. by rewrite E.
Qed.

Lemma tx_recompute_moves P (t : Tx unit) d :
  wl_ok d -> (forall x d', t d = Ok (x, d') -> moves P d d') -> moves P d ((inTx t ;; recompute) d).2.
Proof.
  intros Hd Ht. pose proof (inTx_moves P t d Hd Ht) as H1. unfold mbind, store_bind.
  destruct (inTx t d) as [[u|e] d1]; [|done]. eapply moves_trans; [exact H1|]. rewrite recompute_snd.
  apply recompute_moves, H1.
Qed.

Lemma account_run npub d :
  (exists a, GetAccountByNpub npub d = (Ok a, d) /\ a ∈ db_accounts d /\ ac_npub a = normNpub npub /\
     account_of d npub = Some (ac_id a)) \/
  GetAccountByNpub npub d = (Err ErrAccountNotFound, d).
Proof.
  unfold GetAccountByNpub, account_of. destruct (find_row _ _) as [a|] eqn:E; [left|by right].
  apply find_row_Some in E as [Hin Hp]. bool_hyps. by exists a.
Qed.

(** The owner row of an account is for the account's own identity. *)
Lemma owner_account d w : wl_ok d -> w ∈ db_whitelist d -> w_role w = owner ->
  exists a, a ∈ db_accounts d /\ ac_id a = w_account w /\ ac_npub a = w_npub w /\ ac_addr a = w_addr w.
Proof.
  intros Hd Hw Hr. pose proof (proj1 (Forall_forall _ _) (wo_owner d Hd) w Hw Hr) as He.
  apply Exists_exists in He as (a & Ha & Ei & En). exists a. repeat split; try done.
  pose proof (proj1 (Forall_forall _ _) (wo_acc_derive d Hd) a Ha) as Hda. cbn in Hda.
  rewrite En, (derived d w Hd Hw) in Hda. by inv Hda.
Qed.

Lemma owner_row d a w : wl_ok d -> a ∈ db_accounts d -> w ∈ db_whitelist d -> w_account w = ac_id a -> w_role w = owner ->
  FromNpub (ac_npub a) = Ok (w_addr w).
Proof.
  intros Hd Ha Hw E Hr. destruct (owner_account d w Hd Hw Hr) as (a' & Ha' & Ei & En & _).
  assert (a' = a) as -> by (apply (NoDup_key_inj ac_id (db_accounts d)); [apply Hd|done|done|congruence]).
  rewrite En. by apply (derived d).
Qed.

Lemma activateOwner_moves a d x d' : wl_ok d -> a ∈ db_accounts d ->
  activateOwnerTx (ac_id a) d = Ok (x, d') -> moves (fun b => FromNpub (ac_npub a) = Ok b) d d'.
Proof.
  intros Hd Ha. unfold activateOwnerTx. tx_unfold. destruct (find_row _ _) as [w|] eqn:E.
  - apply find_row_Some in E as [Hw Hp]. unfold is_role in Hp. bool_hyps. intros H'. apply activateRow_moves in H' as [H' _]; [|done..].
    eapply moves_weaken; [|exact H']. cbn. intros b ->. by apply (owner_row d).
  - intros H. inv H. by apply moves_refl.
Qed.

Lemma insert_account_moves P npub a d x d' : wl_ok d -> FromNpub npub = Ok a ->
  insert_account npub a d = Ok (x, d') -> moves P d d'.
Proof.
  intros Hd Hn. unfold insert_account. tx_unfold. destruct (existsb _ _) eqn:E1; [intros H; inv H; by apply moves_refl|].
  destruct (existsb (fun y => bool_decide (ac_addr y = a)) _) eqn:E2; [done|].
  unfold fresh_id, tx_modify. intros H. inv H.
  destruct Hd as [H1 H2 H3 H4 H5 H6 H7 H8 H9 H10 H11]. split; [|by left]. cbn. split; cbn; try done.
  - eapply Forall_weaken; [exact H2|]. cbn. lia.
  - eapply Forall_weaken; [exact H6|]. cbn. intros w Hw Hr. apply Exists_app. left. by apply Hw.
  - rewrite fmap_app. apply NoDup_app. split; [done|]. split; [|apply NoDup_singleton].
    intros i Hi Hi'. apply list_elem_of_singleton in Hi'. apply list_elem_of_fmap in Hi as (v & -> & Hv).
    rewrite Forall_forall in H8. specialize (H8 v Hv). cbn in *. lia.
  - apply Forall_app. split; [|apply Forall_singleton; cbn; lia].
    eapply Forall_weaken; [exact H8|]. cbn. lia.
  - rewrite fmap_app. apply NoDup_app. split; [done|]. split; [|apply NoDup_singleton].
    intros i Hi Hi'. apply list_elem_of_singleton in Hi'. apply list_elem_of_fmap in Hi as (v & -> & Hv). cbn in *.
    apply not_true_iff_false in E1. apply E1, existsb_exists. exists v. split; [by apply list_elem_of_In|].
    by apply bool_decide_eq_true.
  - rewrite fmap_app. apply NoDup_app. split; [done|]. split; [|apply NoDup_singleton].
    intros i Hi Hi'. apply list_elem_of_singleton in Hi'. apply list_elem_of_fmap in Hi as (v & -> & Hv). cbn in *.
    apply not_true_iff_false in E2. apply E2, existsb_exists. exists v. split; [by apply list_elem_of_In|].
    by apply bool_decide_eq_true.
  - apply Forall_app. split; [done|]. by apply Forall_singleton.
Qed.

Lemma insert_owner_moves a npub addr d x d' : wl_ok d -> a ∈ db_accounts d -> ac_npub a = npub -> FromNpub npub = Ok addr ->
  insert_owner (ac_id a) npub addr d = Ok (x, d') ->
  moves (fun b => FromNpub npub = Ok b) d d' /\ db_accounts d' = db_accounts d.
Proof.
  intros Hd Ha En Hn. unfold insert_owner. tx_unfold.
  destruct (existsb (row_of _ _) _) eqn:E; [intros H; inv H; split; [by apply moves_refl|done]|].
  intros H. destruct (insert_moves _ _ _ _ _ _ _ _ _ _ a Hd E Hn ltac:(done) H) as [H' Hacc].
  split; [|done]. eapply moves_weaken; [|exact H']. by intros b (-> & _).
Qed.

Lemma create_moves npub d : wl_ok d ->
  moves (fun b => FromNpub (normNpub npub) = Ok b) d (CreateAccount npub d).2 /\
  forall a d', CreateAccount npub d = (Ok a, d') -> a ∈ db_accounts d' /\ ac_npub a = normNpub npub.
Proof.
  intros Hd. set (P := fun b => FromNpub (normNpub npub) = Ok b). unfold CreateAccount, derive.
  destruct (FromNpub (normNpub npub)) as [addr|e] eqn:En; [|by split; [apply moves_refl|]].
  unfold mbind, store_bind, mret, store_ret. cbn beta iota.
  pose proof (inTx_moves P (insert_account (normNpub npub) addr) d Hd
    (fun x d' => insert_account_moves P _ _ d x d' Hd En)) as M1.
  destruct (inTx (insert_account _ _) d) as [[u|e] d1] eqn:E1; [|by split].
  destruct (account_run (normNpub npub) d1) as [(a & Ea & Ha & Hna & _)|Ea]; rewrite Ea; [|by split].
  rewrite normNpub_idem in Hna. destruct M1 as [Hd1 M1'].
  assert (M2 : moves P d1 (inTx (insert_owner (ac_id a) (normNpub npub) addr) d1).2 /\
    db_accounts (inTx (insert_owner (ac_id a) (normNpub npub) addr) d1).2 = db_accounts d1).
  { unfold inTx. destruct (insert_owner _ _ _ d1) as [[x d2]|e] eqn:Ei; [|by split; [apply moves_refl|]].
    destruct (insert_owner_moves a _ _ _ _ _ Hd1 Ha Hna En Ei) as [Hm Hacc]. split; [|done].
    eapply moves_weaken; [|exact Hm]. intros b. by rewrite En. }
  destruct (inTx (insert_owner _ _ _) d1) as [[u2|e] d2] eqn:E2; cbn [snd] in M2; destruct M2 as [M2 Hacc];
    [|split; [by eapply moves_trans|done]].
  pose proof (recompute_moves P d2 (proj1 M2)) as [M3 Hacc3]. pose proof (recompute_snd d2) as E3.
  destruct (recompute d2) as [[u3|e] d3] eqn:Er; cbn [snd] in E3; rewrite <- E3 in M3, Hacc3;
    (split; [eapply moves_trans; [by split|]; by eapply moves_trans|]); [|done].
  intros a' d' H. inv H. by rewrite Hacc3, Hacc.
Qed.

Lemma activate_moves npub d : wl_ok d -> moves (fun b => FromNpub (normNpub npub) = Ok b) d (ActivateOwner npub d).2.
Proof.
  intros Hd. unfold ActivateOwner. unfold mbind at 1, store_bind at 1.
  destruct (account_run npub d) as [(a & Ea & Ha & Hna & _)|Ea]; rewrite Ea; [|by apply moves_refl].
  apply (tx_recompute_moves _ _ d Hd). intros x d' H. rewrite <- Hna. by eapply activateOwner_moves.
Qed.

Lemma insert_entitlement_moves P acct pu kind vol ex d x d' : wl_ok d ->
  insert_entitlement acct pu kind vol ex d = Ok (x, d') -> moves P d d' /\ db_accounts d' = db_accounts d.
Proof.
  intros Hd H. unfold insert_entitlement, mbind, tx_bind, fresh_id, tx_modify in H. inv H.
  split; [apply moves_steady; cbn; done || lia|done].
Qed.

(** Both credits: an entitlement row, then the owner's activation. *)
Lemma credit_moves npub kind vol (expires : Z -> Z) d : wl_ok d ->
  moves (fun b => FromNpub (normNpub npub) = Ok b) d
    ((acct ← CreateAccount npub; t ← query db_now;
      inTx (insert_entitlement (ac_id acct) None kind vol (expires t) ;; activateOwnerTx (ac_id acct)) ;;
      recompute) d).2.
Proof.
  intros Hd. destruct (create_moves npub d Hd) as [M1 Hacct]. unfold mbind at 1, store_bind at 1.
  destruct (CreateAccount npub d) as [[a|e] d1]; [|done]. destruct (Hacct a d1 eq_refl) as [Ha Hna].
  eapply moves_trans; [exact M1|]. unfold mbind at 1, store_bind at 1, query. destruct M1 as [Hd1 _].
  apply (tx_recompute_moves _ _ d1 Hd1). intros x d'. unfold mbind, tx_bind.
  destruct (insert_entitlement _ _ _ _ _ d1) as [[u d2]|e] eqn:Ei; [|done].
  destruct (insert_entitlement_moves (fun b => FromNpub (normNpub npub) = Ok b) _ _ _ _ _ _ _ _ Hd1 Ei) as [M Hacc].
  intros H. eapply moves_trans; [exact M|]. rewrite <- Hna.
  eapply activateOwner_moves; [apply M|by rewrite Hacc|exact H].
Qed.

Lemma add_guest_moves h g lb d : wl_ok d ->
  moves (fun b => FromNpub (normNpub g) = Ok b /\ attribution d b = None) d (AddWhitelist h g lb d).2.
Proof.
  intros Hd. unfold AddWhitelist, derive. unfold mbind at 1, store_bind at 1.
  destruct (account_run h d) as [(a & Ea & Ha & Hna & _)|Ea]; rewrite Ea; [|by apply moves_refl].
  unfold mbind at 1, store_bind at 1.
  destruct (FromNpub (normNpub g)) as [addr|e] eqn:En; [|by apply moves_refl]. unfold mret, store_ret at 1.
  set (P := fun b => _). assert (Ht : moves P d (inTx (upsert_guest (ac_id a) (normNpub g) addr lb) d).2).
  { apply inTx_moves; [done|]. intros x d'. unfold upsert_guest. tx_unfold.
    destruct (existsb _ _) eqn:Ex; intros H.
    - apply update_moves in H; [|done..]. eapply moves_weaken; [|exact H]. intros b. subst P. cbn. by rewrite En.
    - apply (insert_moves _ _ _ _ _ _ _ _ _ _ a) in H as [H _]; try done. eapply moves_weaken; [|exact H].
      intros b (-> & ? & _). by split. }
  unfold mbind at 1, store_bind at 1. destruct (inTx (upsert_guest _ _ _ _) d) as [[u|e] d1]; cbn [snd] in Ht.
  - eapply moves_trans; [exact Ht|]. rewrite recompute_snd. apply recompute_moves, Ht.
  - by destruct e.
Qed.

Lemma toggle_key en l w : row_key (toggle en l w) = row_key w.
Proof. done. Qed.

(** Switching a guest on never takes an address from a row that holds it. *)
Lemma toggle_on l w : active_row w = true -> active_row (toggle true l w) = true.
Proof.
  unfold active_row, toggle. intros H. bool_hyps. cbn [w_enabled w_pending set_flags].
  rewrite H, andb_false_r. cbn. by rewrite H0.
Qed.

Lemma reactivate_moves a d x d' : wl_ok d -> reactivateOwnerIfOrphanTx a d = Ok (x, d') ->
  moves (fun b => b = a /\ attribution d b = None) d d'.
Proof.
  intros Hd. unfold reactivateOwnerIfOrphanTx. tx_unfold. destruct (existsb _ _) eqn:E; intros H.
  { inv H. by apply moves_refl. }
  apply update_wl_ok in H as [Hd' ->]; [|done..]. split; [done|]. intros b. destruct (decide (b = a)) as [->|Hne].
  - right. split; [done|]. destruct (attribution d a) as [y|] eqn:Ea; [|done].
    apply attribution_holds in Ea as (w & Hw & Ha & Eb & _); [|apply Hd]. exfalso.
    apply not_true_iff_false in E. apply E, existsb_exists. exists w. split; [by apply list_elem_of_In|].
    unfold at_addr. by rewrite Ha, bool_decide_eq_true_2.
  - left. apply attribution_eq; [done..|]. intros y. apply holds_update_same; [done|]. intros w _ Hp Hb.
    unfold at_addr in Hp. bool_hyps. congruence.
Qed.

(** Switching a guest off moves its address only if this host held it. *)
Lemma toggle_off_moves acct npub d x d' : wl_ok d ->
  exec_wl (update_rows (row_of acct npub) (toggle false (db_whitelist d))) d = Ok (x, d') ->
  moves (fun b => FromNpub npub = Ok b /\ attribution d b = Some acct) d d'.
Proof.
  intros Hd H. apply update_wl_ok in H as [Hd' ->]; [|done..]. split; [done|]. intros b.
  assert (Hh : forall w, w ∈ db_whitelist d -> row_of acct npub w = true -> w_addr w = b -> FromNpub npub = Ok b).
  { intros w Hw Hr <-. apply row_of_spec in Hr as [_ <-]. by apply (derived d). }
  destruct (derives_dec npub b) as [En|En].
  - destruct (decide (attribution d b = Some acct)) as [|Hne]; [by right|left].
    apply attribution_eq; [done..|]. intros y. apply holds_update_same; [done|]. intros w Hw Hr Hb.
    apply row_of_spec in Hr as [Hacc _]. destruct (active_row w) eqn:Ha; [|done]. exfalso. apply Hne.
    apply attribution_holds; [apply Hd|]. by exists w.
  - left. apply attribution_eq; [done..|]. intros y. apply holds_update_same; [done|]. intros w Hw Hr Hb.
    exfalso. by eapply En, Hh.
Qed.

Lemma enable_moves h g en d : wl_ok d -> moves (entitled_to (op_enable h g en) d) d (SetWhitelistEnabled h g en d).2.
Proof.
  intros Hd. unfold SetWhitelistEnabled. unfold mbind at 1, store_bind at 1.
  destruct (account_run h d) as [(a & Ea & Ha & Hna & Eh)|Ea]; rewrite Ea; [|by apply moves_refl].
  apply (tx_recompute_moves _ _ d Hd). intros x d'. unfold enable_tx. tx_unfold.
  destruct (negb en && _).
  { intros H. eapply delete_moves; [done| |exact H]. intros w Hw. unfold withdrawn in Hw. by bool_hyps. }
  destruct (find_row _ _) as [w|] eqn:Ef; [|intros H; inv H; by apply moves_refl].
  apply find_row_Some in Ef as [Hw Hr]. apply row_of_spec in Hr as [_ Hwn].
  destruct (exec_wl _ d) as [[u d1]|e] eqn:E1; [|done]. destruct en; cbn [entitled_to].
  - intros H. inv H. eapply update_moves; [done| | |exact E1]; [done|]. intros v _ _. apply toggle_on.
  - intros H. apply toggle_off_moves in E1 as M1; [|done]. destruct M1 as [Hd1 M1].
    apply reactivate_moves in H as [Hd' M2]; [|done]. split; [done|]. intros b.
    cbn [entitled_to]. rewrite Eh. destruct (M1 b) as [E|[? ?]]; [|right; auto].
    destruct (M2 b) as [E'|[-> ?]]; [left; congruence|right]. split; [|left; congruence].
    rewrite <- Hwn. by apply (derived d).
Qed.

Lemma invite_moves P m h g lb d : wl_ok d -> moves P d (InviteGuest m h g lb d).2.
Proof.
  intros Hd. unfold InviteGuest, derive. unfold mbind at 1, store_bind at 1.
  destruct (account_run h d) as [(a & Ea & Ha & Hna & Eh)|Ea]; rewrite Ea; [|by apply moves_refl].
  unfold mbind at 1, store_bind at 1.
  destruct (FromNpub (normNpub g)) as [addr|e] eqn:En; [|by apply moves_refl]. unfold mret, store_ret at 1.
  case_bool_decide; [by apply moves_refl|].
  assert (Ht : moves P d (inTx (invite_tx m (ac_id a) (normNpub g) addr lb) d).2).
  { apply inTx_moves; [done|]. intros x d'. unfold invite_tx. tx_unfold. destruct (negb _); [done|].
    destruct (existsb (row_of _ _) _) eqn:Ex.
    - destruct (exec_wl _ d) as [[u d1]|e] eqn:E1; [|done]. intros H'. inv H'.
      apply update_wl_ok in E1 as [Hd' ->]; [|done..]. split; [done|]. intros b. left.
      apply attribution_eq; [done..|]. intros y. apply holds_update_same; [done|]. intros w _ _ _.
      unfold reinvite, active_row, set_flags, set_label. cbn. by rewrite negb_involutive.
    - destruct (_ <=? _); [done|]. destruct (insert_wl _ _ _ _ _ _ _ d) as [[u d1]|e] eqn:E1; [|done].
      intros H'. inv H'. apply (insert_moves _ _ _ _ _ _ _ _ _ _ a) in E1 as [M _]; try done.
      eapply moves_weaken; [|exact M]. by intros b (_ & _ & ?). }
  unfold mbind at 1, store_bind at 1. destruct (inTx _ d) as [[u|e] d1]; [|done]. cbn [snd] in Ht.
  eapply moves_trans; [exact Ht|]. unfold mbind, store_bind. pose proof (recompute_snd d1) as Es.
  destruct (recompute d1) as [[?|?] d2]; cbn [snd] in *; subst d2; apply recompute_moves, Ht.
Qed.

Lemma withdraw_moves P h g d : wl_ok d -> moves P d (WithdrawInvite h g d).2.
Proof.
  intros Hd. unfold WithdrawInvite. unfold mbind at 1, store_bind at 1.
  destruct (account_run h d) as [(a & Ea & Ha & Hna & Eh)|Ea]; rewrite Ea; [|by apply moves_refl].
  apply inTx_moves; [done|]. intros x d'. tx_unfold. destruct (existsb _ _); [|done].
  apply delete_moves; [done|]. intros w Hw. unfold withdrawn in Hw. by bool_hyps.
Qed.

Lemma decline_moves P g h d : wl_ok d -> moves P d (DeclineInvite g h d).2.
Proof.
  intros Hd. apply inTx_moves; [done|]. intros x d'. tx_unfold. destruct (existsb _ _); [|done].
  apply delete_moves; [done|]. intros w Hw. by bool_hyps.
Qed.

Lemma accept_moves g h d : wl_ok d -> moves (fun b => FromNpub (normNpub g) = Ok b) d (AcceptInvite g h d).2.
Proof.
  intros Hd. apply (tx_recompute_moves _ _ d Hd). intros x d'. unfold accept_tx. tx_unfold.
  destruct (find_row _ _) as [w|] eqn:Ef; [|done]. apply find_row_Some in Ef as [Hw Hp].
  destruct (negb _); [done|]. intros H. apply activateRow_moves in H as [M _]; [|done..].
  eapply moves_weaken; [|exact M]. unfold open_invite in Hp. bool_hyps. intros b ->. cbn in *.
  match goal with E : w_npub w = _ |- _ => rewrite <- E end. by apply (derived d).
Qed.

(** Every step. *)
Lemma run_op_moves o d : wl_ok d -> moves (entitled_to o d) d (run_op o d).
Proof.
  intros Hd. destruct o; cbn [run_op entitled_to].
  - by apply create_moves.
  - by apply activate_moves.
  - by apply add_guest_moves.
  - by apply enable_moves.
  - by apply credit_moves.
  - by apply credit_moves.
  - by apply invite_moves.
  - by apply withdraw_moves.
  - by apply accept_moves.
  - by apply decline_moves.
  - by apply recompute_moves.
Qed.

(** ** Histories *)

Definition empty_db (t : Z) : db :=
  {| db_now := t; db_next := 1; db_revseq := 0; db_services := []; db_nodes := []; db_tokens := []; db_accounts := [];
     db_whitelist := []; db_packages := []; db_purchases := []; db_entitlements := []; db_reports := [];
     db_samples := []; db_daily := ∅; db_current := ∅; db_revisions := []; db_wgpeers := []; db_wgseq := 0;
     db_notify := [] |}.

(** Databases reached from an empty one by account and whitelist steps and by
    whatever else leaves those two tables alone (time passing, sales, usage). *)
Inductive reachable : db -> Prop :=
| reach_init t : reachable (empty_db t)
| reach_op o d : reachable d -> reachable (run_op o d)
| reach_other d d' : reachable d -> db_whitelist d' = db_whitelist d -> db_accounts d' = db_accounts d ->
    db_next d <= db_next d' -> reachable d'.

Lemma reachable_ok d : reachable d -> wl_ok d.
Proof.
  induction 1 as [t|o d _ IH|d d' _ IH E1 E2 E3].
  - split; cbn; try constructor.
  - apply (run_op_moves o d IH).
  - apply (moves_steady (fun _ => True) d d'); done.
Qed.

(** In every reachable database at most one account holds an address: the
    active rows have distinct addresses; every row's address is the one its
    npub derives; and an owner row belongs to the account of the same identity,
    so no account can present someone else's address as its own. *)
Theorem whitelist_invariant d :
  reachable d ->
  NoDup (w_addr <$> filter (fun w => active_row w = true) (db_whitelist d)) /\
  (forall w, w ∈ db_whitelist d -> FromNpub (w_npub w) = Ok (w_addr w)) /\
  (forall w, w ∈ db_whitelist d -> w_role w = owner ->
     exists a, a ∈ db_accounts d /\ ac_id a = w_account w /\ ac_npub a = w_npub w /\ ac_addr a = w_addr w).
Proof.
  intros H%reachable_ok. split; [apply H|]. split; [by intros w; apply derived|]. intros w. by apply owner_account.
Qed.

(** The steps an identity takes itself. *)
Definition own_step (o : wl_op) (b : Addr) : Prop :=
  match o with
  | op_create n | op_activate n | op_credit_volume n _ _ | op_credit_time n _ | op_accept n _ =>
      FromNpub (normNpub n) = Ok b
  | _ => False
  end.

(** [C10] Consent: an address that an account holds stops being held by it only
    through a step of the identity that derives the address (accepting another
    invitation, activating or paying for its own account), or because that very
    account switched it off.  No other operation of any party, invitations and
    operator grants included, takes an address away from its account. *)
Theorem attribution_needs_consent o d b x :
  reachable d -> attribution d b = Some x -> attribution (run_op o d) b <> Some x ->
  own_step o b \/
  exists h g, o = op_enable h g false /\ account_of d h = Some x /\ FromNpub (normNpub g) = Ok b.
Proof.
  intros Hd%reachable_ok Hb Hn. destruct (run_op_moves o d Hd) as [_ M]. destruct (M b) as [E|E]; [congruence|].
  destruct o as [| | |h g [|]| | | | | | |]; cbn in E |- *; try tauto; [destruct E; congruence..|].
  right. destruct E as [En [E|E]]; [congruence|]. exists h, g. split; [done|]. split; [congruence|done].
Qed.

(** Accepting an invitation, on every branch: it succeeds exactly when an
    open invitation from that host exists whose account is paid for, and then the
    invited address is held by the host's account and every other address is
    where it was; otherwise it fails with the matching error and changes nothing. *)
Theorem AcceptInvite_spec g h d :
  reachable d ->
  match find_row (open_invite d (normNpub g) (normNpub h)) (db_whitelist d) with
  | None => AcceptInvite g h d = (Err ErrInviteNotFound, d)
  | Some w =>
      if has_entitlement d (w_account w) then
        exists d', AcceptInvite g h d = (Ok tt, d') /\ attribution d' (w_addr w) = Some (w_account w) /\
          (forall b, b <> w_addr w -> attribution d' b = attribution d b)
      else AcceptInvite g h d = (Err ErrNoActiveEntitlement, d)
  end.
Proof.
  intros Hd%reachable_ok. unfold AcceptInvite. rewrite tx_recompute_eq. unfold accept_tx. tx_unfold. unfold id.
  destruct (find_row _ _) as [w|] eqn:Ef; [|done]. apply find_row_Some in Ef as [Hw _].
  destruct (has_entitlement d (w_account w)); [|done]. cbn [negb].
  destruct (activateRow_run w d Hd Hw) as (d1 & E1 & Hd1 & _). rewrite E1.
  destruct (activateRow_moves w d _ _ Hd Hw E1) as [[_ M] Hat].
  destruct (recompute_moves (fun _ => False) d1 Hd1) as [[_ R] _].
  assert (Hwl : forall b, attribution (RecomputeAuthz d1).2 b = attribution d1 b) by (intros b; by destruct (R b)).
  eexists. split; [done|]. rewrite !Hwl. split; [done|]. intros b Hb. rewrite Hwl. by destruct (M b).
Qed.

(** ** Switching a guest off *)

Lemma owner_unique d v v' : wl_ok d -> v ∈ db_whitelist d -> v' ∈ db_whitelist d -> w_role v = owner -> w_role v' = owner ->
  w_addr v = w_addr v' -> v = v'.
Proof.
  intros Hd Hv Hv' Hr Hr' E.
  destruct (owner_account d v Hd Hv Hr) as (a & Ha & E1 & E2 & E3), (owner_account d v' Hd Hv' Hr') as (a' & Ha' & E1' & E2' & E3').
  assert (a = a') as <- by (apply (NoDup_key_inj ac_addr (db_accounts d)); [apply Hd|done|done|congruence]).
  apply (NoDup_key_inj (fun w => (w_account w, w_npub w)) (db_whitelist d)); [apply Hd|done|done|]. cbn. congruence.
Qed.

Lemma toggle_off l w : active_row (toggle false l w) = false.
Proof. done. Qed.

(** After the switch nobody holds the address. *)
Lemma toggle_off_run w d : wl_ok d -> w ∈ db_whitelist d -> active_row w = true ->
  exists d1, exec_wl (update_rows (row_of (w_account w) (w_npub w)) (toggle false (db_whitelist d))) d = Ok (tt, d1) /\
    wl_ok d1 /\ (forall v, v ∈ db_whitelist d1 -> at_addr (w_addr w) v && active_row v = false) /\
    (forall v, v ∈ db_whitelist d -> row_of (w_account w) (w_npub w) v = false -> v ∈ db_whitelist d1).
Proof.
  intros Hd Hw Ha. set (f := update_rows _ _). assert (Hu : active_unique (f (db_whitelist d)) = true).
  { apply active_unique_intro; [unfold f; rewrite ids_update by done; apply Hd|].
    intros v v' Hv Hv' Av Av' E. apply elem_of_update_rows in Hv as (u & Hu & ->), Hv' as (u' & Hu' & ->).
    destruct (row_of _ _ u); [by rewrite toggle_off in Av|]. destruct (row_of _ _ u'); [by rewrite toggle_off in Av'|].
    apply (active_row_inj (db_whitelist d)); try done. apply Hd. }
  exists (set_whitelist (f (db_whitelist d)) d). unfold exec_wl. rewrite Hu. split; [done|].
  split; [apply wl_ok_keys; [done|by apply keys_update|done]|]. cbn [db_whitelist set_whitelist]. split.
  - intros v Hv. apply elem_of_update_rows in Hv as (u & Hu' & ->). destruct (row_of _ _ u) eqn:Er; [apply andb_false_r|].
    apply not_true_iff_false. intros H. unfold at_addr in H. bool_hyps.
    assert (u = w) as -> by (apply (active_row_inj (db_whitelist d)); try done; apply Hd).
    apply not_true_iff_false in Er. apply Er. by apply row_of_spec.
  - intros v Hv Er. apply elem_of_update_rows. exists v. by rewrite Er.
Qed.

(** The owner row takes the unheld address back. *)
Lemma reactivate_run o d : wl_ok d -> o ∈ db_whitelist d -> w_role o = owner ->
  (forall v, v ∈ db_whitelist d -> at_addr (w_addr o) v && active_row v = false) ->
  exists d1, reactivateOwnerIfOrphanTx (w_addr o) d = Ok (tt, d1) /\ wl_ok d1 /\
    attribution d1 (w_addr o) = Some (w_account o).
Proof.
  intros Hd Ho Hr Hno. unfold reactivateOwnerIfOrphanTx. tx_unfold. destruct (existsb _ _) eqn:Ex.
  { exfalso. apply existsb_exists in Ex as (v & Hv & Hp). apply list_elem_of_In in Hv. by rewrite Hno in Hp. }
  set (p := fun w => at_addr (w_addr o) w && is_role owner w).
  assert (Hu : active_unique (update_rows p (set_flags true false) (db_whitelist d)) = true).
  { apply active_unique_intro; [rewrite ids_update by done; apply Hd|].
    intros v v' Hv Hv' Av Av' E. apply elem_of_update_rows in Hv as (u & Hu & ->), Hv' as (u' & Hu' & ->).
    assert (Ea : forall x, w_addr (if p x then set_flags true false x else x) = w_addr x) by (intros x; by destruct (p x)).
    rewrite !Ea in E. f_equal. assert (u = u') as ->; [|done].
    assert (G : forall x, x ∈ db_whitelist d -> active_row (if p x then set_flags true false x else x) = true ->
      w_addr x = w_addr o -> w_role x = owner).
    { intros x Hx Ax Exx. destruct (p x) eqn:Ep; [subst p; cbn in Ep; unfold is_role in Ep; by bool_hyps|].
      specialize (Hno x Hx). unfold at_addr in Hno. by rewrite Ax, bool_decide_eq_true_2 in Hno. }
    destruct (decide (w_addr u = w_addr o)) as [Eo|Eo].
    - apply (owner_unique d); [done..|apply G|apply G|]; congruence.
    - assert (N : forall x, w_addr x <> w_addr o -> p x = false)
        by (intros x Hx; subst p; cbn; unfold at_addr; by rewrite bool_decide_eq_false_2).
      rewrite N in Av by done. rewrite N in Av' by congruence. apply (active_row_inj (db_whitelist d)); try done. apply Hd. }
  exists (set_whitelist (update_rows p (set_flags true false) (db_whitelist d)) d).
  unfold exec_wl. fold p. rewrite Hu. split; [done|].
  assert (Hd' : wl_ok (set_whitelist (update_rows p (set_flags true false) (db_whitelist d)) d))
    by (apply wl_ok_keys; [done|by apply keys_update|done]).
  split; [done|]. apply attribution_holds; [apply Hd'|]. cbn [db_whitelist set_whitelist].
  apply holds_update; [done|]. exists o. split; [done|]. split; [|done].
  subst p. cbn. unfold at_addr, is_role. by rewrite !bool_decide_eq_true_2.
Qed.

(** Parking is undone: when a host switches an accepted guest off, the
    operation succeeds and the guest's address goes back to the guest's own
    account, if it has one; it is not left unattributed. *)
Theorem disable_returns_guest h g d w o :
  reachable d -> w ∈ db_whitelist d -> active_row w = true -> account_of d h = Some (w_account w) ->
  w_npub w = normNpub g -> o ∈ db_whitelist d -> w_role o = owner -> w_addr o = w_addr w -> w_account o <> w_account w ->
  exists d', SetWhitelistEnabled h g false d = (Ok tt, d') /\ attribution d' (w_addr w) = Some (w_account o).
Proof.
  intros Hd%reachable_ok Hw Ha Eh En Ho Hr Eo Hne. unfold SetWhitelistEnabled. unfold mbind at 1, store_bind at 1.
  destruct (account_run h d) as [(a & Ea & _ & _ & Eh')|Ea]; rewrite Ea; [|unfold account_of in Eh; unfold GetAccountByNpub in Ea; by destruct (find_row _ _)].
  assert (ac_id a = w_account w) as -> by congruence. rewrite tx_recompute_eq. unfold enable_tx. tx_unfold. rewrite <- En.
  assert (Hrow : forall v, v ∈ db_whitelist d -> row_of (w_account w) (w_npub w) v = true -> v = w).
  { intros v Hv [E1 E2]%row_of_spec. apply (NoDup_key_inj (fun w => (w_account w, w_npub w)) (db_whitelist d));
      [apply Hd|done|done|cbn; congruence]. }
  destruct (existsb (withdrawn _ _) _) eqn:Ex.
  { exfalso. apply existsb_exists in Ex as (v & Hv & Hp). apply list_elem_of_In in Hv. unfold withdrawn in Hp. bool_hyps.
    rewrite (Hrow v) in * by done. unfold active_row in Ha. bool_hyps. congruence. }
  cbn [andb negb]. destruct (find_row _ _) as [v|] eqn:Ef.
  2: { exfalso. pose proof (find_row_None _ _ Ef w Hw) as Hn. cbn in Hn. apply not_true_iff_false in Hn. by apply Hn, row_of_spec. }
  apply find_row_Some in Ef as [Hv Hrv]. rewrite (Hrow v Hv Hrv).
  destruct (toggle_off_run w d Hd Hw Ha) as (d1 & E1 & Hd1 & Hno & Hkeep). rewrite E1.
  rewrite <- Eo in Hno |- *. destruct (reactivate_run o d1) as (d2 & E2 & Hd2 & Hat); [done| |done|done|].
  { apply Hkeep; [done|]. apply not_true_iff_false. intros [? ?]%row_of_spec. done. }
  rewrite E2. eexists. split; [done|]. destruct (recompute_moves (fun _ => False) d2 Hd2) as [[_ R] _].
  destruct (R (w_addr o)) as [->|[]]. done.
Qed.

End Consent.
End Consent.
