(* ===== verification/BackendPayments.v ===== *)
(** * backend/store and backend/payments: purchases

    Models backend/store/packages.go and backend/store/payments.go (the catalog
    and the purchase life cycle), the signature checks of
    backend/payments/btcpay.go and phoenixd.go, the webhook handlers of
    backend/payments_handler.go and the poller of backend/reconciler.go.  A
    request body is its bytes; what encoding/json reads from them is an argument,
    as are the answers of the payment provider. *)

From S2P Require Import Prelude GoStrings Netip Fipsaddr Sha256 BackendDB BackendAuthz BackendWhitelist.
Import DB Authz Derive Whitelist.

Module Payments.

Definition day_ns : Z := 24 * 60 * time_Minute.

(** ** The catalog (packages.go) *)

Record Package := {
  pg_ID : Z; pg_Kind : gostr; pg_Name : gostr; pg_VolumeBytes : Z; pg_ValidityDays : Z; pg_PriceMsat : Z
}.

(** [active AND (available_until IS NULL OR available_until > now())] *)
Definition on_sale (t : Z) (p : package) : bool :=
  pk_active p && match pk_until p with None => true | Some u => t <? u end.

Definition package_view (p : package) : Package :=
  {| pg_ID := pk_id p; pg_Kind := pk_kind p; pg_Name := pk_name p; pg_VolumeBytes := default 0 (pk_volume p);
     pg_ValidityDays := pk_days p; pg_PriceMsat := pk_price p |}.

Definition price_le (x y : package) : Prop := pk_price x <= pk_price y.
#[export] Instance price_le_dec : RelDecision price_le.
Proof. intros x y. unfold price_le. apply _. Defined.

Definition ListPackages : Store (list Package) :=
  query (fun d => map package_view (merge_sort price_le (filter (fun p => on_sale (db_now d) p = true) (db_packages d)))).

Definition GetPackage (id : Z) : Store Package :=
  fun d => match find_row (fun p => (pk_id p =? id) && on_sale (db_now d) p) (db_packages d) with
           | Some p => (Ok (package_view p), d)
           | None => (Err ErrPackageNotFound, d)
           end.

(** validity_days is an integer column of four bytes. *)
Definition int4 (z : Z) : bool := (- 2 ^ 31 <=? z) && (z <? 2 ^ 31).

Definition CreatePackage (kind name : gostr) (volumeBytes validityDays priceMsat : Z) (availableUntil : option Z) : Store Z :=
  inTx (
    if negb (int4 validityDays) then tx_fail ErrRange else
    id ← fresh_id;
    tx_modify (fun d => set_packages (db_packages d ++
      [{| pk_id := id; pk_kind := kind; pk_name := name;
          pk_volume := if bool_decide (kind = bs "volume") then Some volumeBytes else None;
          pk_days := validityDays; pk_price := priceMsat; pk_active := true; pk_until := availableUntil |}]) d) ;;
    mret id).

Definition deactivate (p : package) : package :=
  {| pk_id := pk_id p; pk_kind := pk_kind p; pk_name := pk_name p; pk_volume := pk_volume p; pk_days := pk_days p;
     pk_price := pk_price p; pk_active := false; pk_until := pk_until p |}.

Definition DeactivatePackage (id : Z) : Store unit :=
  inTx (
    l ← tx_get db_packages;
    if existsb (fun p => pk_id p =? id) l
    then tx_modify (fun d => set_packages (update_rows (fun p => pk_id p =? id) deactivate (db_packages d)) d)
    else tx_fail ErrPackageNotFound).

Definition default_packages : list (gostr * gostr * Z * Z * Z) :=
  [(bs "time", bs "Unlimited — 1 day pass", 0, 1, 2000000);
   (bs "volume", bs "50 GB / 30 days", 50000000000, 30, 5000000);
   (bs "volume", bs "500 GB / 90 days", 500000000000, 90, 15000000);
   (bs "time", bs "Unlimited — 30 day pass", 0, 30, 10000000)].

Fixpoint seed (l : list (gostr * gostr * Z * Z * Z)) : Store unit :=
  match l with
  | [] => mret tt
  | (kind, name, volume, days, price) :: r => CreatePackage kind name volume days price None ;; seed r
  end.

Definition SeedPackages : Store unit :=
  l ← query db_packages;
  if bool_decide (l = []) then seed default_packages else mret tt.

(** ** Purchases *)

Definition set_status (st : pstatus) (p : purchase) : purchase :=
  {| pu_id := pu_id p; pu_account := pu_account p; pu_package := pu_package p; pu_invoice := pu_invoice p;
     pu_status := st; pu_created := pu_created p; pu_settled := pu_settled p; pu_checkout := pu_checkout p;
     pu_payreq := pu_payreq p |}.

Definition set_invoice (invoice checkout : gostr) (payreq : option gostr) (p : purchase) : purchase :=
  {| pu_id := pu_id p; pu_account := pu_account p; pu_package := pu_package p; pu_invoice := Some invoice;
     pu_status := pu_status p; pu_created := pu_created p; pu_settled := pu_settled p; pu_checkout := Some checkout;
     pu_payreq := payreq |}.

Definition by_id (id : Z) (p : purchase) : bool := pu_id p =? id.
Definition by_invoice (invoiceID : gostr) (p : purchase) : bool := bool_decide (pu_invoice p = Some invoiceID).
Definition is_status (st : pstatus) (p : purchase) : bool := bool_decide (pu_status p = st).

Definition CreatePurchase (npub : gostr) (packageID : Z) : Store Z :=
  acct ← GetAccountByNpub npub;
  inTx (
    packages ← tx_get db_packages;
    if negb (existsb (fun p => pk_id p =? packageID) packages) then tx_fail ForeignKeyViolation else
    id ← fresh_id;
    tx_modify (fun d => set_purchases (db_purchases d ++
      [{| pu_id := id; pu_account := ac_id acct; pu_package := packageID; pu_invoice := None; pu_status := pending;
          pu_created := db_now d; pu_settled := None; pu_checkout := None; pu_payreq := None |}]) d) ;;
    mret id).

(** [NULLIF($4, '')]; btcpay_invoice_id is UNIQUE. *)
Definition AttachInvoice (purchaseID : Z) (invoiceID checkoutURL payRequest : gostr) : Store unit :=
  inTx (
    l ← tx_get db_purchases;
    if negb (existsb (by_id purchaseID) l) then tx_fail ErrPurchaseNotFound else
    if existsb (fun p => by_invoice invoiceID p && negb (by_id purchaseID p)) l
    then tx_fail (UniqueViolation (bs "purchases_btcpay_invoice_id_key")) else
    tx_modify (fun d => set_purchases (update_rows (by_id purchaseID)
      (set_invoice invoiceID checkoutURL (if bool_decide (payRequest = []) then None else Some payRequest))
      (db_purchases d)) d)).

(** *** Reads *)

Record PayView := { pv_Status : pstatus; pv_Bolt11 : gostr; pv_PackageName : gostr; pv_PriceMsat : Z }.

Definition has_npub (d : db) (npub : gostr) (acct : Z) : bool :=
  existsb (fun a => (ac_id a =? acct) && bool_decide (ac_npub a = npub)) (db_accounts d).

Definition PurchaseForPay (purchaseID : Z) (npub : gostr) : Store PayView :=
  fun d =>
    match find_row (fun p => by_id purchaseID p && has_npub d npub (pu_account p)) (db_purchases d) with
    | None => (Err ErrPurchaseNotFound, d)
    | Some p =>
        match find_row (fun k => pk_id k =? pu_package p) (db_packages d) with
        | None => (Err ErrPurchaseNotFound, d)
        | Some k => (Ok {| pv_Status := pu_status p; pv_Bolt11 := default [] (pu_payreq p); pv_PackageName := pk_name k;
                           pv_PriceMsat := pk_price k |}, d)
        end
    end.

Definition PurchaseInvoice (purchaseID : Z) : Store (gostr * pstatus) :=
  fun d => match find_row (by_id purchaseID) (db_purchases d) with
           | None => (Err ErrPurchaseNotFound, d)
           | Some p => (Ok (default [] (pu_payreq p), pu_status p), d)
           end.

Record OpenInvoice := { oi_PurchaseID : Z; oi_InvoiceID : gostr; oi_CreatedAt : Z }.

Definition is_open (p : purchase) : bool := is_status pending p || is_status processing p.

Definition ListOpenLightning : Store (list OpenInvoice) :=
  query (fun d => omap (fun p =>
    match pu_payreq p, pu_invoice p with
    | Some _, Some inv =>
        if is_open p then Some {| oi_PurchaseID := pu_id p; oi_InvoiceID := inv; oi_CreatedAt := pu_created p |} else None
    | _, _ => None
    end) (db_purchases d)).

Record PurchaseView := {
  vw_ID : Z; vw_PackageName : gostr; vw_PriceMsat : Z; vw_Status : pstatus; vw_CheckoutURL : gostr; vw_CreatedAt : Z
}.

Definition newer (x y : purchase) : Prop := pu_created y <= pu_created x.
#[export] Instance newer_dec : RelDecision newer.
Proof. intros x y. unfold newer. apply _. Defined.

Definition OpenPurchases (npub : gostr) : Store (list PurchaseView) :=
  query (fun d => omap (fun p =>
    (fun k => {| vw_ID := pu_id p; vw_PackageName := pk_name k; vw_PriceMsat := pk_price k; vw_Status := pu_status p;
                 vw_CheckoutURL := default [] (pu_checkout p); vw_CreatedAt := pu_created p |})
    <$> find_row (fun k => pk_id k =? pu_package p) (db_packages d))
    (merge_sort newer (filter (fun p => has_npub d npub (pu_account p) && is_open p = true) (db_purchases d)))).

(** *** The life cycle *)

Section Payments.
Context `{MI : MapIter}.

Definition MarkProcessing (invoiceID : gostr) : Store unit :=
  inTx (
    l ← tx_get db_purchases;
    if existsb (fun p => by_invoice invoiceID p && is_status pending p) l
    then tx_modify (fun d => set_purchases
           (update_rows (fun p => by_invoice invoiceID p && is_status pending p) (set_status processing) (db_purchases d)) d)
    else if existsb (by_invoice invoiceID) l then mret tt else tx_fail ErrPurchaseNotFound).

Definition granted (id : Z) (e : entitlement) : bool := bool_decide (en_purchase e = Some id).

(** [settled_at = CASE WHEN $2 = 'settled' AND settled_at IS NULL THEN now() ELSE settled_at END] *)
Definition stamp (t : Z) (st : pstatus) (p : purchase) : purchase :=
  {| pu_id := pu_id p; pu_account := pu_account p; pu_package := pu_package p; pu_invoice := pu_invoice p;
     pu_status := st; pu_created := pu_created p;
     pu_settled := match st, pu_settled p with settled, None => Some t | _, s => s end;
     pu_checkout := pu_checkout p; pu_payreq := pu_payreq p |}.

(** The entitlement row a purchase of package [k] buys; [make_interval(days =>
    n)] is n times 24 hours. *)
Definition grantEntitlementTx (purchaseID : Z) (st : pstatus) : Tx unit :=
  d ← tx_get id;
  match find_row (by_id purchaseID) (db_purchases d) with
  | None => tx_fail ErrPurchaseNotFound
  | Some p =>
      match find_row (fun k => pk_id k =? pu_package p) (db_packages d) with
      | None => tx_fail ErrPurchaseNotFound
      | Some k =>
          (if existsb (granted purchaseID) (db_entitlements d) then mret tt else
             insert_entitlement (pu_account p) (Some purchaseID) (pk_kind k)
               (if bool_decide (pk_kind k = bs "volume") then pk_volume k else None)
               (db_now d + pk_days k * day_ns) ;;
             activateOwnerTx (pu_account p)) ;;
          tx_modify (fun d => set_purchases (update_rows (by_id purchaseID) (stamp (db_now d) st) (db_purchases d)) d)
      end
  end.

Definition settle_tx (sel : purchase -> bool) (missing : store_err) : Tx unit :=
  l ← tx_get db_purchases;
  match find_row sel l with
  | None => tx_fail missing
  | Some p => if is_status settled p then mret tt else grantEntitlementTx (pu_id p) settled
  end.

Definition SettlePurchase (purchaseID : Z) : Store unit :=
  inTx (settle_tx (by_id purchaseID) ErrPackageNotFound) ;;
  recompute.

Definition GrantByInvoice (invoiceID : gostr) : Store unit :=
  inTx (settle_tx (by_invoice invoiceID) ErrPurchaseNotFound) ;;
  recompute.

Definition void_tx (invoiceID : gostr) (st : pstatus) : Tx unit :=
  l ← tx_get db_purchases;
  match find_row (by_invoice invoiceID) l with
  | None => tx_fail ErrPurchaseNotFound
  | Some p =>
      if is_status settled p then mret tt else
      tx_modify (fun d => set_entitlements (delete_rows (granted (pu_id p)) (db_entitlements d)) d) ;;
      tx_modify (fun d => set_purchases (update_rows (by_id (pu_id p)) (set_status st) (db_purchases d)) d)
  end.

Definition VoidByInvoice (invoiceID : gostr) (st : pstatus) : Store unit :=
  inTx (void_tx invoiceID st) ;;
  recompute.

(** ** Signatures *)

Definition sig_prefix : gostr := bs "sha256=".

Definition VerifyWebhook (secret body : list Z) (sigHeader : gostr) : bool :=
  if bool_decide (secret = []) then false else
  if negb (HasPrefix sigHeader sig_prefix) then false else
  match HexDecode (TrimPrefix sigHeader sig_prefix) with
  | None => false
  | Some want => bool_decide (hmac_sha256 secret body = want)
  end.

Definition SignWebhook (secret body : list Z) : gostr := sig_prefix ++ HexEncode (hmac_sha256 secret body).

Definition VerifyPhoenixSig (secret body : list Z) (sigHeader : gostr) : bool :=
  if bool_decide (secret = []) then false else
  match HexDecode (TrimPrefix (TrimSpace sigHeader) sig_prefix) with
  | None => false
  | Some want => bool_decide (hmac_sha256 secret body = want)
  end.

Definition SignPhoenixSig (secret body : list Z) : gostr := HexEncode (hmac_sha256 secret body).

(** ** Webhooks (payments_handler.go) *)

Definition EventInvoiceProcessing : gostr := bs "InvoiceProcessing".
Definition EventInvoiceSettled : gostr := bs "InvoiceSettled".
Definition EventInvoiceInvalid : gostr := bs "InvoiceInvalid".
Definition EventInvoiceExpired : gostr := bs "InvoiceExpired".
Definition EventPaymentReceived : gostr := bs "payment_received".

Record WebhookEvent := { we_Type : gostr; we_InvoiceID : gostr }.
Record PhoenixEvent := { pe_Type : gostr; pe_PaymentHash : gostr }.

(** An answer: the HTTP status, and the (type, result) labels counted. *)
Definition answer : Type := Z * list (gostr * gostr).

(** [json.Unmarshal] of a body, and what the provider answers about an invoice
    ([None]: the request failed); [checker] is [None] when no provider is set. *)
Context (decode_btcpay : list Z -> option WebhookEvent) (decode_phoenix : list Z -> option PhoenixEvent).
Context (checker : option (gostr -> option gostr)).

(** The last switch of the handlers: the store's error becomes the answer. *)
Definition conclude (typ : gostr) (r : result store_err unit) : answer :=
  match r with
  | Ok _ => (200, [(typ, bs "ok")])
  | Err ErrPurchaseNotFound => (200, [(typ, bs "unknown_invoice")])
  | Err _ => (500, [(typ, bs "error")])
  end.

Definition btcpay_dispatch (ev : WebhookEvent) (d : db) : answer * db :=
  let run (op : Store unit) := let '(r, d') := op d in (conclude (we_Type ev) r, d') in
  if bool_decide (we_Type ev = EventInvoiceProcessing) then run (MarkProcessing (we_InvoiceID ev)) else
  if bool_decide (we_Type ev = EventInvoiceSettled) then
    match checker with
    | None => run (GrantByInvoice (we_InvoiceID ev))
    | Some check =>
        match check (we_InvoiceID ev) with
        | None => ((502, [(we_Type ev, bs "recheck_error")]), d)
        | Some st => if bool_decide (st = bs "Settled") then run (GrantByInvoice (we_InvoiceID ev))
                     else ((200, [(we_Type ev, bs "not_settled")]), d)
        end
    end
  else if bool_decide (we_Type ev = EventInvoiceInvalid) then run (VoidByInvoice (we_InvoiceID ev) invalid)
  else if bool_decide (we_Type ev = EventInvoiceExpired) then run (VoidByInvoice (we_InvoiceID ev) expired)
  else ((200, [(we_Type ev, bs "ignored")]), d).

(** [body] is what [io.ReadAll] returned, [None] if it failed. *)
Definition btcpay_webhook (secret : list Z) (body : option (list Z)) (sig : gostr) (d : db) : answer * db :=
  match body with
  | None => ((400, []), d)
  | Some b =>
      if negb (VerifyWebhook secret b sig) then ((401, [(bs "_", bs "bad_signature")]), d) else
      match decode_btcpay b with
      | None => ((200, [(bs "_", bs "bad_request")]), d)
      | Some ev => if bool_decide (we_InvoiceID ev = []) then ((200, [(bs "_", bs "bad_request")]), d)
                   else btcpay_dispatch ev d
      end
  end.

Definition phoenixd_webhook (secret : list Z) (body : option (list Z)) (sig : gostr) (d : db) : answer * db :=
  match body with
  | None => ((400, []), d)
  | Some b =>
      if negb (VerifyPhoenixSig secret b sig) then ((401, [(EventPaymentReceived, bs "bad_signature")]), d) else
      match decode_phoenix b with
      | None => ((200, []), d)
      | Some ev =>
          if bool_decide (pe_PaymentHash ev = []) then ((200, []), d) else
          if negb (bool_decide (pe_Type ev = EventPaymentReceived)) then ((200, [(pe_Type ev, bs "ignored")]), d) else
          let '(r, d') := GrantByInvoice (pe_PaymentHash ev) d in (conclude (pe_Type ev) r, d')
      end
  end.

(** ** The poller (reconciler.go) *)

(** [lookup]: what phoenixd says about an invoice ([None]: the request failed). *)
Definition reconcile_one (lookup : gostr -> option bool) (ttl : Z) (o : OpenInvoice) (d : db) : list gostr * db :=
  match lookup (oi_InvoiceID o) with
  | None => ([bs "error"], d)
  | Some true =>
      let '(r, d') := GrantByInvoice (oi_InvoiceID o) d in
      ([match r with Ok _ => bs "settled" | Err _ => bs "error" end], d')
  | Some false =>
      if ttl <? time_Sub (db_now d) (oi_CreatedAt o) then
        let '(r, d') := VoidByInvoice (oi_InvoiceID o) expired d in
        ([match r with Ok _ => bs "expired" | Err _ => bs "error" end], d')
      else ([], d)
  end.

Fixpoint reconcile_loop (lookup : gostr -> option bool) (ttl : Z) (l : list OpenInvoice) (d : db) : list gostr * db :=
  match l with
  | [] => ([], d)
  | o :: r =>
      let '(x, d1) := reconcile_one lookup ttl o d in
      let '(y, d2) := reconcile_loop lookup ttl r d1 in
      (x ++ y, d2)
  end.

Definition sweep (lookup : gostr -> option bool) (ttl : Z) (d : db) : list gostr * db :=
  match ListOpenLightning d with
  | (Err _, d') => ([], d')
  | (Ok open, d') => reconcile_loop lookup ttl open d'
  end.

End Payments.
End Payments.
