(* ===== verification/BackendPaymentsFacts.v ===== *)
(** * backend/store: theorems about purchases

    Access is sold exactly once per settled purchase, on the terms of its
    package; settlement is terminal and unlocks the buyer; a webhook grants
    nothing unless it is signed, says settled and the provider agrees. *)

From S2P Require Import Prelude GoStrings Netip Fipsaddr Sha256 BackendDB BackendAuthz BackendAuthzFacts.
From S2P Require Import BackendUsage BackendUsageFacts BackendWhitelist BackendWhitelistFacts BackendConsent BackendPayments.
Import DB Authz AuthzFacts Derive Usage UsageFacts Whitelist WhitelistFacts Consent Payments.

Module PaymentsFacts.

Create HintDb frame discriminated.

(** ** The sales ledger *)

(** What an entitlement grants, but for the volume already used. *)
Definition terms : Type := Z * gostr * option Z * Z.
Definition terms_of (e : entitlement) : terms := (en_account e, en_kind e, en_volume e, en_expires e - en_starts e).

(** The entitlements that were sold, by purchase. *)
Definition sales_of (l : list entitlement) : list (Z * terms) :=
  omap (fun e => (fun i => (i, terms_of e)) <$> en_purchase e) l.
Definition sales (d : db) : list (Z * terms) := sales_of (db_entitlements d).

(** What a purchase of package [k] by account [a] is worth. *)
Definition bought (a : Z) (k : package) : terms :=
  (a, pk_kind k, if bool_decide (pk_kind k = bs "volume") then pk_volume k else None, pk_days k * day_ns).

(** *** The invariant *)

Record pay_ok (d : db) : Prop := {
  po_ids : NoDup (pu_id <$> db_purchases d);
  po_next : Forall (fun p => pu_id p < db_next d) (db_purchases d);
  po_invoices : forall p q i, p ∈ db_purchases d -> q ∈ db_purchases d -> pu_invoice p = Some i -> pu_invoice q = Some i -> p = q;
  po_pk_ids : NoDup (pk_id <$> db_packages d);
  po_pk_next : Forall (fun k => pk_id k < db_next d) (db_packages d);
  po_pk : Forall (fun p => Exists (fun k => pk_id k = pu_package p) (db_packages d)) (db_purchases d);
  po_once : NoDup (sales d).*1;
  po_paid : forall p, p ∈ db_purchases d -> pu_status p = settled <-> pu_id p ∈ (sales d).*1;
  po_refs : forall i, i ∈ (sales d).*1 -> i ∈ pu_id <$> db_purchases d;
  po_terms : forall p k t, p ∈ db_purchases d -> k ∈ db_packages d -> pk_id k = pu_package p ->
    (pu_id p, t) ∈ sales d -> t = bought (pu_account p) k
}.

(** Steps that leave sales alone. *)
Definition no_sale (d d' : db) : Prop :=
  db_purchases d' = db_purchases d /\ db_packages d' = db_packages d /\ sales d' = sales d /\ db_next d <= db_next d'.

Lemma no_sale_refl d : no_sale d d.
Proof. by repeat split. Qed.

Lemma no_sale_trans d1 d2 d3 : no_sale d1 d2 -> no_sale d2 d3 -> no_sale d1 d3.
Proof. unfold no_sale. intuition (congruence || lia). Qed.

Lemma no_sale_ok d d' : no_sale d d' -> pay_ok d -> pay_ok d'.
Proof.
  intros (E1 & E2 & E3 & E4) [H1 H2 H3 H4 H5 H6 H7 H8 H9 H10]. split; rewrite ?E1, ?E2, ?E3; try done.
  - eapply Forall_weaken; [exact H2|]. cbn. lia.
  - eapply Forall_weaken; [exact H5|]. cbn. lia.
Qed.

(** *** Rows *)

Lemma find_row_unique {A} (p : A -> bool) (l : list A) x :
  x ∈ l -> p x = true -> (forall y, y ∈ l -> p y = true -> y = x) -> find_row p l = Some x.
Proof.
  intros Hx Hp Hu. destruct (find_row p l) as [y|] eqn:E.
  - apply find_row_Some in E as [Hy Hpy]. by rewrite (Hu y).
  - pose proof (find_row_None _ _ E x Hx). congruence.
Qed.

Lemma find_purchase d p : pay_ok d -> p ∈ db_purchases d -> find_row (by_id (pu_id p)) (db_purchases d) = Some p.
Proof.
  intros H Hp. apply find_row_unique; [done|apply Z.eqb_refl|]. intros q Hq E. apply Z.eqb_eq in E.
  apply (NoDup_key_inj pu_id (db_purchases d)); [apply H|done..].
Qed.

Lemma find_package d p : pay_ok d -> p ∈ db_purchases d ->
  exists k, find_row (fun k => pk_id k =? pu_package p) (db_packages d) = Some k /\ k ∈ db_packages d /\ pk_id k = pu_package p.
Proof.
  intros H Hp. pose proof (proj1 (Forall_forall _ _) (po_pk d H) p Hp) as He. apply Exists_exists in He as (k & Hk & E).
  exists k. split; [|done]. apply find_row_unique; [done|by apply Z.eqb_eq|]. intros q Hq Eq. apply Z.eqb_eq in Eq.
  apply (NoDup_key_inj pk_id (db_packages d)); [apply H|done..|congruence].
Qed.

Lemma granted_sales i l : existsb (granted i) l = true <-> i ∈ (sales_of l).*1.
Proof.
  rewrite existsb_exists. split.
  - intros (e & He & Hg). apply list_elem_of_In in He. unfold granted in Hg. bool_hyps. apply list_elem_of_fmap.
    exists (i, terms_of e). split; [done|]. apply list_elem_of_omap. exists e. split; [done|]. by rewrite Hg.
  - intros H. apply list_elem_of_fmap in H as ([j t] & -> & H). apply list_elem_of_omap in H as (e & He & E).
    exists e. split; [by apply list_elem_of_In|]. unfold granted. apply bool_decide_eq_true.
    destruct (en_purchase e); [|done]. cbn in E. by inv E.
Qed.

Lemma sales_app l l' : sales_of (l ++ l') = sales_of l ++ sales_of l'.
Proof. apply omap_app. Qed.

Lemma sales_delete i l : sales_of (delete_rows (granted i) l) = filter (fun s => s.1 <> i) (sales_of l).
Proof.
  unfold delete_rows. induction l as [|e l IH]; [done|].
  assert (Hc : forall k : list entitlement, sales_of (e :: k) =
    match en_purchase e with Some j => (j, terms_of e) :: sales_of k | None => sales_of k end)
    by (intros k; cbn; by destruct (en_purchase e)).
  rewrite Hc. destruct (granted i e) eqn:Eg.
  - rewrite filter_cons_False by congruence. unfold granted in Eg. bool_hyps. rewrite Eg.
    rewrite filter_cons_False by (cbn; tauto). done.
  - rewrite filter_cons_True by done. rewrite Hc. unfold granted in Eg. bool_hyps.
    destruct (en_purchase e) as [j|]; [|done]. rewrite filter_cons_True by (cbn; congruence). by rewrite IH.
Qed.

(** ** Frames

    Statements and operations that sell nothing, by their structure. *)

Definition keeps {A} (t : Tx A) : Prop := forall d x d', t d = Ok (x, d') -> no_sale d d'.
Definition store_keeps {A} (m : Store A) : Prop := forall d, no_sale d (m d).2.

Lemma keeps_ret {A} (a : A) : keeps (mret a).
Proof. intros d x d' H. inv H. apply no_sale_refl. Qed.
Lemma keeps_fail {A} e : keeps (tx_fail (A := A) e).
Proof. by intros d x d' H. Qed.
Lemma keeps_get {A} (f : db -> A) : keeps (tx_get f).
Proof. intros d x d' H. inv H. apply no_sale_refl. Qed.
Lemma keeps_bind {A B} (t : Tx A) (f : A -> Tx B) : keeps t -> (forall a, keeps (f a)) -> keeps (t ≫= f).
Proof.
  intros Ht Hf d x d'. unfold mbind, tx_bind. destruct (t d) as [[a d1]|e] eqn:E; [|done]. intros H.
  eapply no_sale_trans; [by eapply Ht|by eapply Hf].
Qed.
Lemma keeps_modify (f : db -> db) : (forall d, no_sale d (f d)) -> keeps (tx_modify f).
Proof. intros Hf d x d' H. inv H. apply Hf. Qed.
Lemma keeps_fresh : keeps fresh_id.
Proof. intros d x d' H. inv H. repeat split. cbn. lia. Qed.
Lemma keeps_exec_wl f : keeps (exec_wl f).
Proof. intros d x d' H. apply exec_wl_inv in H as [-> _]. by repeat split. Qed.
Lemma keeps_credit acct kind vol ex : keeps (insert_entitlement acct None kind vol ex).
Proof.
  intros d x d' H. unfold insert_entitlement, mbind, tx_bind, fresh_id, tx_modify in H. inv H.
  repeat split; [|cbn; lia]. unfold sales. cbn. by rewrite sales_app, app_nil_r.
Qed.
Lemma keeps_for {A} (body : A -> Tx unit) l : (forall x, keeps (body x)) -> keeps (tx_for body l).
Proof. intros H. induction l as [|x l IH]; [apply keeps_ret|]. by apply keeps_bind. Qed.

Lemma store_keeps_ret {A} (a : A) : store_keeps (mret a).
Proof. intros d. apply no_sale_refl. Qed.
Lemma store_keeps_fail {A} e : store_keeps (fail (A := A) e).
Proof. intros d. apply no_sale_refl. Qed.
Lemma store_keeps_query {A} (f : db -> A) : store_keeps (query f).
Proof. intros d. apply no_sale_refl. Qed.
Lemma store_keeps_bind {A B} (m : Store A) (f : A -> Store B) :
  store_keeps m -> (forall a, store_keeps (f a)) -> store_keeps (m ≫= f).
Proof.
  intros Hm Hf d. unfold mbind, store_bind. specialize (Hm d). destruct (m d) as [[a|e] d1]; [|done].
  eapply no_sale_trans; [exact Hm|apply Hf].
Qed.
Lemma store_keeps_inTx {A} (t : Tx A) : keeps t -> store_keeps (inTx t).
Proof. intros Ht d. unfold inTx. destruct (t d) as [[a d1]|e] eqn:E; [by eapply Ht|apply no_sale_refl]. Qed.

#[export] Hint Resolve keeps_ret keeps_fail keeps_get keeps_fresh keeps_exec_wl keeps_credit : frame.
#[export] Hint Resolve store_keeps_ret store_keeps_fail store_keeps_query : frame.

(** Walk through an operation, splitting its cases. *)
Ltac frame_step :=
  match goal with
  | |- keeps (_ ≫= _) => apply keeps_bind; [|intros ?]
  | |- store_keeps (_ ≫= _) => apply store_keeps_bind; [|intros ?]
  | |- store_keeps (inTx _) => apply store_keeps_inTx
  | |- keeps (tx_for _ _) => apply keeps_for; intros ?
  | |- keeps (match ?x with _ => _ end) => destruct x
  | |- store_keeps (match ?x with _ => _ end) => destruct x
  | |- keeps (let _ := _ in _) => cbv zeta
  | |- _ => solve [eauto with frame]
  end.
Ltac frame := repeat frame_step.

Section PaymentsFacts.
Context `{MI : MapIter}.

Lemma recompute_no_sale d : no_sale d (RecomputeAuthz d).2.
Proof.
  destruct (recompute_run d) as (rm & rev & d' & E & [T _ _] & _). rewrite E. unfold other_tables in T.
  unfold no_sale, sales. cbn [snd]. intuition congruence || lia.
Qed.

Lemma recompute_keeps : store_keeps RecomputeAuthz.
Proof. intros d. apply recompute_no_sale. Qed.

Lemma account_keeps npub : store_keeps (GetAccountByNpub npub).
Proof. intros d. unfold GetAccountByNpub. destruct (find_row _ _); apply no_sale_refl. Qed.

Hint Resolve recompute_keeps account_keeps : frame.

Lemma recompute_unit_keeps : store_keeps recompute.
Proof. unfold recompute. frame. Qed.
Hint Resolve recompute_unit_keeps : frame.

Lemma activateRow_keeps id a : keeps (activateRowTx id a).
Proof. unfold activateRowTx. frame. Qed.
Hint Resolve activateRow_keeps : frame.
Lemma activateOwner_keeps acct : keeps (activateOwnerTx acct).
Proof. unfold activateOwnerTx. frame. Qed.
Hint Resolve activateOwner_keeps : frame.
Lemma reactivate_keeps a : keeps (reactivateOwnerIfOrphanTx a).
Proof. unfold reactivateOwnerIfOrphanTx. frame. Qed.
Hint Resolve reactivate_keeps : frame.
Lemma insert_wl_keeps acct npub a r en pd lb : keeps (insert_wl acct npub a r en pd lb).
Proof. unfold insert_wl. frame. Qed.
Hint Resolve insert_wl_keeps : frame.
Lemma insert_account_keeps npub a : keeps (insert_account npub a).
Proof. unfold insert_account. frame. apply keeps_modify. by repeat split. Qed.
Hint Resolve insert_account_keeps : frame.

Lemma create_keeps npub : store_keeps (CreateAccount npub).
Proof. unfold CreateAccount, derive, insert_owner. cbv zeta. frame. Qed.
Hint Resolve create_keeps : frame.

(** Account and whitelist steps sell nothing. *)
Lemma run_op_no_sale o d : no_sale d (run_op o d).
Proof.
  destruct o; cbn [run_op].
  - apply create_keeps.
  - unfold ActivateOwner. revert d. change (store_keeps (acct ← GetAccountByNpub npub; inTx (activateOwnerTx (ac_id acct)) ;; recompute)). frame.
  - revert d. change (store_keeps (AddWhitelist ownerNpub guestNpub label)). unfold AddWhitelist, derive. cbv zeta. frame.
    intros d. assert (H : store_keeps (inTx (upsert_guest (ac_id a) (normNpub guestNpub) a0 label))) by (unfold upsert_guest; frame).
    specialize (H d). by destruct (inTx _ d) as [[?|[]] ?].
  - revert d. change (store_keeps (SetWhitelistEnabled ownerNpub guestNpub enabled)). unfold SetWhitelistEnabled, enable_tx. frame.
  - revert d. change (store_keeps (CreditVolume npub bytes days)). unfold CreditVolume. frame.
  - revert d. change (store_keeps (CreditTime npub days)). unfold CreditTime. frame.
  - revert d. change (store_keeps (InviteGuest MaxGuests ownerNpub guestNpub label)). unfold InviteGuest, derive, invite_tx. cbv zeta. frame.
  - revert d. change (store_keeps (WithdrawInvite ownerNpub guestNpub)). unfold WithdrawInvite. cbv zeta. frame.
  - revert d. change (store_keeps (AcceptInvite guestNpub hostNpub)). unfold AcceptInvite, accept_tx. frame.
  - revert d. change (store_keeps (DeclineInvite guestNpub hostNpub)). unfold DeclineInvite. cbv zeta. frame.
  - apply recompute_no_sale.
Qed.

(** Neither does metering. *)
Lemma use_volume_sales p n l : sales_of (update_rows p (use_volume n) l) = sales_of l.
Proof.
  unfold sales_of, update_rows. induction l as [|e l IH]; [done|]. cbn. rewrite IH.
  by destruct (p e).
Qed.

Lemma consume_sales fuel t acct w l l' : consume_loop fuel t acct w l = Some l' -> sales_of l' = sales_of l.
Proof.
  revert w l. induction fuel as [|fuel IH]; intros w l; cbn; (destruct (w <=? 0); [intros H; by inv H|]); [done|].
  destruct (earliest _) as [e|]; [|intros H; by inv H]. intros H. apply IH in H. by rewrite H, use_volume_sales.
Qed.

Lemma ingest_keeps node r : store_keeps (IngestUsage node r).
Proof.
  assert (Hc : forall acct w, keeps (consumeVolume acct w)).
  { intros acct w. apply keeps_modify. intros d. destruct (consume_loop _ _ _ _ _) as [l|] eqn:E; [|apply no_sale_refl].
    split; [done|]. split; [done|]. split; [|done]. unfold sales. cbn. by eapply consume_sales. }
  unfold IngestUsage, ingest_tx, ingest_sample. frame; apply keeps_modify; by repeat split.
Qed.

(** ** Sales *)

(** What no life-cycle step changes of a purchase. *)
Definition pkey (p : purchase) : Z * Z * Z := (pu_id p, pu_account p, pu_package p).

Lemma pkey_update sel f l : (forall p, pkey (f p) = pkey p) -> pkey <$> update_rows sel f l = pkey <$> l.
Proof.
  intros Hf. induction l as [|p l IH]; [done|]. unfold update_rows in *. cbn [map]. rewrite !fmap_cons. f_equal; [|done].
  by destruct (sel p).
Qed.

Lemma pkey_elem (l l' : list purchase) p : pkey <$> l' = pkey <$> l -> p ∈ l' -> exists q, q ∈ l /\ pkey q = pkey p.
Proof.
  intros E Hp. assert (H : pkey p ∈ pkey <$> l') by (apply list_elem_of_fmap; by exists p).
  rewrite E in H. apply list_elem_of_fmap in H as (q & Eq & Hq). by exists q.
Qed.

Lemma pkey_ids (l l' : list purchase) : pkey <$> l' = pkey <$> l -> pu_id <$> l' = pu_id <$> l.
Proof.
  intros E. assert (H : forall k : list purchase, pu_id <$> k = (fun x => x.1.1) <$> (pkey <$> k)).
  { intros k. induction k as [|p k IH]; [done|]. rewrite !fmap_cons. by rewrite IH. }
  by rewrite !H, E.
Qed.

(** An invoice id names at most one purchase. *)
Definition one_invoice (l : list purchase) : Prop :=
  forall p q i, p ∈ l -> q ∈ l -> pu_invoice p = Some i -> pu_invoice q = Some i -> p = q.

Lemma one_invoice_update sel f l : NoDup (pu_id <$> l) ->
  (forall p, pu_id (f p) = pu_id p /\ pu_invoice (f p) = pu_invoice p) -> one_invoice l -> one_invoice (update_rows sel f l).
Proof.
  intros ND Hf Hl p q i Hp Hq Ep Eq. apply elem_of_update_rows in Hp as (p0 & Hp0 & ->), Hq as (q0 & Hq0 & ->).
  assert (forall x, pu_invoice (if sel x then f x else x) = pu_invoice x) as Hi by (intros x; destruct (sel x); [apply Hf|done]).
  rewrite !Hi in *. by rewrite (Hl p0 q0 i).
Qed.

(** The invariant after a step that keeps the identity of every purchase and
    matches statuses with sales. *)
Lemma pay_ok_core d d' :
  pay_ok d -> pkey <$> db_purchases d' = pkey <$> db_purchases d -> db_packages d' = db_packages d -> db_next d <= db_next d' ->
  one_invoice (db_purchases d') -> NoDup (sales d').*1 ->
  (forall p, p ∈ db_purchases d' -> pu_status p = settled <-> pu_id p ∈ (sales d').*1) ->
  (forall i t, (i, t) ∈ sales d' -> (i, t) ∈ sales d \/
     exists p k, p ∈ db_purchases d /\ pu_id p = i /\ k ∈ db_packages d /\ pk_id k = pu_package p /\ t = bought (pu_account p) k) ->
  pay_ok d'.
Proof.
  intros [H1 H2 H3 H4 H5 H6 H7 H8 H9 H10] Ek Ep En Hi Hn Hs Ht.
  assert (Hkey : forall p, p ∈ db_purchases d' -> exists q, q ∈ db_purchases d /\ pkey q = pkey p) by (intros p; by apply pkey_elem).
  assert (Hids : NoDup (pu_id <$> db_purchases d')) by (by rewrite (pkey_ids _ _ Ek)).
  split; rewrite ?Ep; try done.
  - apply Forall_forall. intros p Hp. destruct (Hkey p Hp) as (q & Hq & E). inv E.
    pose proof (proj1 (Forall_forall _ _) H2 q Hq). cbn in *. lia.
  - eapply Forall_weaken; [exact H5|]. cbn. lia.
  - apply Forall_forall. intros p Hp. destruct (Hkey p Hp) as (q & Hq & E). inv E.
    pose proof (proj1 (Forall_forall _ _) H6 q Hq) as Hx. cbn in Hx. congruence.
  - intros i Hx. rewrite (pkey_ids _ _ Ek). apply list_elem_of_fmap in Hx as ([j t] & -> & Hx).
    destruct (Ht j t Hx) as [Ho|(p & k & Hp & <- & _)]; [apply H9; apply list_elem_of_fmap; by exists (j, t)|].
    apply list_elem_of_fmap. by exists p.
  - intros p k t Hp Hk Ekp Hst. destruct (Hkey p Hp) as (q & Hq & E). unfold pkey in E. injection E as E1 E2 E3.
    destruct (Ht _ _ Hst) as [Ho|(p' & k' & Hp' & Ei & Hk' & Ek' & ->)].
    + rewrite <- E2. apply (H10 q k); congruence.
    + assert (p' = q) as -> by (apply (NoDup_key_inj pu_id (db_purchases d)); [done..|congruence]).
      assert (k' = k) as -> by (apply (NoDup_key_inj pk_id (db_packages d)); [done..|congruence]).
      congruence.
Qed.

Lemma activateOwner_run acct d : wl_ok d ->
  exists d', activateOwnerTx acct d = Ok (tt, d') /\ wl_ok d' /\ only_whitelist d d'.
Proof.
  intros Hd. unfold activateOwnerTx. tx_unfold. destruct (find_row _ _) as [w|] eqn:E.
  - apply find_row_Some in E as [Hw _]. destruct (activateRow_run w d Hd Hw) as (d' & E & H1 & H2 & _). by exists d'.
  - exists d. split; [done|]. split; [done|apply only_whitelist_refl].
Qed.

(** A grant for an unsettled purchase: one sale on the package's terms, the
    purchase settled and stamped, nothing else of the ledger touched. *)
Lemma grant_run p d : wl_ok d -> pay_ok d -> p ∈ db_purchases d -> pu_status p <> settled ->
  exists k d', grantEntitlementTx (pu_id p) settled d = Ok (tt, d') /\ k ∈ db_packages d /\ pk_id k = pu_package p /\
    wl_ok d' /\ db_packages d' = db_packages d /\ db_next d <= db_next d' /\ db_now d' = db_now d /\
    db_accounts d' = db_accounts d /\
    db_purchases d' = update_rows (by_id (pu_id p)) (stamp (db_now d) settled) (db_purchases d) /\
    sales d' = sales d ++ [(pu_id p, bought (pu_account p) k)] /\
    exists e d1, db_entitlements d' = db_entitlements d ++ [e] /\ en_purchase e = Some (pu_id p) /\
      terms_of e = bought (pu_account p) k /\ en_starts e = db_now d /\ en_used e = 0 /\
      activateOwnerTx (pu_account p) d1 = Ok (tt, set_purchases (db_purchases d) d') /\
      wl_ok d1 /\ db_whitelist d1 = db_whitelist d /\ db_accounts d1 = db_accounts d.
Proof.
  intros Hw Hd Hp Hns. destruct (find_package d p Hd Hp) as (k & Ek & Hk & Ekp).
  unfold grantEntitlementTx. tx_unfold. unfold id. rewrite (find_purchase d p Hd Hp), Ek.
  assert (Hg : existsb (granted (pu_id p)) (db_entitlements d) = false).
  { apply not_true_iff_false. intros H. apply granted_sales in H. by apply Hns, (po_paid d Hd p Hp). }
  rewrite Hg. unfold insert_entitlement, mbind, tx_bind, fresh_id, tx_modify.
  set (e := {| en_id := _ |}). set (d1 := set_entitlements _ _).
  assert (Hw1 : wl_ok d1) by (apply (moves_steady (fun _ => True) d); cbn; done || lia).
  destruct (activateOwner_run (pu_account p) d1 Hw1) as (d2 & E2 & Hw2 & Ho).
  rewrite E2. destruct Ho as (O1 & O2 & O3 & _ & _ & _ & O7 & O8 & O9). cbn in O1, O2, O3, O7, O8, O9.
  eexists k, _. split; [reflexivity|]. split; [done|]. split; [done|].
  split. { apply (moves_steady (fun _ => True) d2); cbn; done || lia. }
  cbn [db_packages db_next db_now db_accounts db_purchases set_purchases]. rewrite O2, O7.
  split; [done|]. split; [lia|]. split; [done|]. split; [done|]. split; [done|].
  assert (Et : terms_of e = bought (pu_account p) k) by (unfold terms_of, bought; cbn; f_equal; lia).
  split. { unfold sales. cbn [db_entitlements set_purchases]. rewrite O3, sales_app. by rewrite <- Et. }
  exists e, d1. cbn [db_entitlements set_purchases]. split; [done|]. split; [done|]. split; [done|]. split; [done|].
  split; [done|]. split; [|done]. rewrite E2. f_equal. f_equal. destruct d2. cbn in *. by subst.
Qed.

(** ** Progress *)

Definition settled_in (d : db) (i : Z) : Prop := exists p, p ∈ db_purchases d /\ pu_id p = i /\ pu_status p = settled.

(** Settled purchases stay settled, with what they bought. *)
Definition advances (d d' : db) : Prop :=
  forall i, settled_in d i -> settled_in d' i /\ forall t, (i, t) ∈ sales d -> (i, t) ∈ sales d'.

Lemma advances_refl d : advances d d.
Proof. by intros i H. Qed.
Lemma advances_trans d1 d2 d3 : advances d1 d2 -> advances d2 d3 -> advances d1 d3.
Proof. intros H1 H2 i Hi. destruct (H1 i Hi) as [Ha Hb]. destruct (H2 i Ha) as [Hc Hd]. split; [done|]. auto. Qed.
Lemma no_sale_advances d d' : no_sale d d' -> advances d d'.
Proof. intros (E1 & E2 & E3 & _) i Hi. unfold settled_in in *. by rewrite E1, E3. Qed.

Lemma update_advances d d' sel f :
  db_purchases d' = update_rows sel f (db_purchases d) -> (forall p, pu_id (f p) = pu_id p) ->
  (forall p, p ∈ db_purchases d -> sel p = true -> pu_status p = settled -> pu_status (f p) = settled) ->
  (forall s, s ∈ sales d -> s ∈ sales d') -> advances d d'.
Proof.
  intros E Hf Hs Hsl i (p & Hp & Hi & Hst). split; [|by auto]. exists (if sel p then f p else p).
  split; [rewrite E; apply elem_of_update_rows; by exists p|]. destruct (sel p) eqn:Ep; [rewrite Hf; auto|done].
Qed.

(** Which purchase an invoice is for. *)
Definition ikey (p : purchase) : Z * option gostr := (pu_id p, pu_invoice p).

Lemma ikey_update sel f l : (forall p, ikey (f p) = ikey p) -> ikey <$> update_rows sel f l = ikey <$> l.
Proof.
  intros Hf. induction l as [|p l IH]; [done|]. unfold update_rows in *. cbn [map]. rewrite !fmap_cons. f_equal; [|done].
  by destruct (sel p).
Qed.

Definition books_ok (d : db) : Prop := wl_ok d /\ pay_ok d.

(** *** Settlement *)

Lemma grant_ok p d d' k :
  pay_ok d -> p ∈ db_purchases d -> pu_status p <> settled -> k ∈ db_packages d -> pk_id k = pu_package p ->
  db_packages d' = db_packages d -> db_next d <= db_next d' ->
  db_purchases d' = update_rows (by_id (pu_id p)) (stamp (db_now d) settled) (db_purchases d) ->
  sales d' = sales d ++ [(pu_id p, bought (pu_account p) k)] -> pay_ok d' /\ advances d d'.
Proof.
  intros Hd Hp Hns Hk Ekp E1 E2 E3 E4.
  assert (Hni : pu_id p ∉ (sales d).*1) by (intros H; by apply Hns, (po_paid d Hd p Hp)).
  split; [apply (pay_ok_core d)|]; try done.
  - rewrite E3. by apply pkey_update.
  - rewrite E3. apply one_invoice_update; [apply Hd|done|exact (po_invoices d Hd)].
  - rewrite E4, fmap_app. apply NoDup_app. split; [apply Hd|]. split; [|apply NoDup_singleton].
    intros i Hi Hi'. apply list_elem_of_singleton in Hi'. by subst.
  - intros q Hq. rewrite E3 in Hq. apply elem_of_update_rows in Hq as (q0 & Hq0 & ->).
    rewrite E4, fmap_app, elem_of_app. unfold by_id. destruct (pu_id q0 =? pu_id p) eqn:E; bool_hyps.
    + cbn. split; [|done]. intros _. right. rewrite E. apply list_elem_of_singleton. done.
    + rewrite (po_paid d Hd q0 Hq0). split; [by left|]. intros [?|Hx]; [done|]. by apply list_elem_of_singleton in Hx.
  - intros i t Hi. rewrite E4 in Hi. apply elem_of_app in Hi as [Hi|Hi]; [by left|right].
    apply list_elem_of_singleton in Hi. inv Hi. by exists p, k.
  - eapply update_advances; [exact E3|done|done|]. intros x Hx. rewrite E4. apply elem_of_app. by left.
Qed.

Lemma settle_run sel missing p d : books_ok d -> find_row sel (db_purchases d) = Some p ->
  exists d', settle_tx sel missing d = Ok (tt, d') /\ books_ok d' /\ advances d d' /\ settled_in d' (pu_id p) /\
    ikey <$> db_purchases d' = ikey <$> db_purchases d /\
    (forall i, i ∈ (sales d').*1 -> i ∈ (sales d).*1 \/ i = pu_id p).
Proof.
  intros [Hw Hd] Ef. pose proof (find_row_Some _ _ _ Ef) as [Hp _]. unfold settle_tx. tx_unfold. rewrite Ef. unfold is_status.
  case_bool_decide as Es.
  { exists d. split; [done|]. split; [done|]. split; [apply advances_refl|]. split; [by exists p|].
    split; [done|]. intros i Hi. by left. }
  destruct (grant_run p d Hw Hd Hp Es) as (k & d' & E & Hk & Ekp & Hw' & E1 & E2 & _ & _ & E3 & E4 & _).
  rewrite E. exists d'. destruct (grant_ok p d d' k Hd Hp Es Hk Ekp E1 E2 E3 E4) as [Hok Hadv].
  split; [done|]. split; [done|]. split; [done|]. split; [|split].
  - exists (stamp (db_now d) settled p). split; [|done]. rewrite E3. apply elem_of_update_rows. exists p.
    split; [done|]. unfold by_id. by rewrite Z.eqb_refl.
  - rewrite E3. by apply ikey_update.
  - intros i Hi. rewrite E4, fmap_app in Hi. apply elem_of_app in Hi as [Hi|Hi]; [by left|right].
    by apply list_elem_of_singleton in Hi.
Qed.

(** *** Voiding and marking *)

Lemma void_run inv st p d : books_ok d -> st <> settled -> find_row (by_invoice inv) (db_purchases d) = Some p ->
  exists d', void_tx inv st d = Ok (tt, d') /\ books_ok d' /\ advances d d' /\ sales d' = sales d /\
    (pu_status p = settled -> d' = d) /\ ikey <$> db_purchases d' = ikey <$> db_purchases d.
Proof.
  intros [Hw Hd] Hst Ef. pose proof (find_row_Some _ _ _ Ef) as [Hp _]. unfold void_tx. tx_unfold. rewrite Ef.
  unfold is_status. case_bool_decide as Es.
  { exists d. split; [done|]. split; [done|]. split; [apply advances_refl|]. done. }
  assert (Hni : pu_id p ∉ (sales d).*1) by (intros H; by apply Es, (po_paid d Hd p Hp)).
  unfold tx_modify. cbn [db_purchases set_entitlements]. set (d' := set_purchases _ _). exists d'.
  assert (E3 : db_purchases d' = update_rows (by_id (pu_id p)) (set_status st) (db_purchases d)) by done.
  assert (E4 : sales d' = sales d).
  { unfold sales. cbn. rewrite sales_delete. apply filter_all, Forall_forall. intros s Hs E. apply Hni. rewrite <- E.
    apply list_elem_of_fmap. by exists s. }
  assert (Hm : forall q, q ∈ db_purchases d -> by_id (pu_id p) q = true -> q = p).
  { intros q Hq E. unfold by_id in E. bool_hyps. apply (NoDup_key_inj pu_id (db_purchases d)); [apply Hd|done..]. }
  split; [done|]. split; [split|].
  - apply (moves_steady (fun _ => True) d); cbn; done || lia.
  - apply (pay_ok_core d); try done; rewrite ?E3, ?E4.
    + by apply pkey_update.
    + apply one_invoice_update; [apply Hd|done|exact (po_invoices d Hd)].
    + apply Hd.
    + intros q Hq. apply elem_of_update_rows in Hq as (q0 & Hq0 & ->). destruct (by_id _ q0) eqn:E.
      * rewrite (Hm q0 Hq0 E). cbn. done.
      * by apply Hd.
    + by left.
  - split; [|split; [done|split; [done|]]].
    + eapply update_advances; [exact E3|done| |by rewrite E4]. intros q Hq E Hs. rewrite (Hm q Hq E) in Hs. done.
    + rewrite E3. by apply ikey_update.
Qed.

Lemma mark_run inv d : books_ok d ->
  books_ok (MarkProcessing inv d).2 /\ advances d (MarkProcessing inv d).2 /\
  db_entitlements (MarkProcessing inv d).2 = db_entitlements d.
Proof.
  intros [Hw Hd]. unfold MarkProcessing, inTx. tx_unfold. destruct (existsb _ _).
  2: { destruct (existsb _ _); (split; [done|]; split; [apply advances_refl|done]). }
  unfold tx_modify. set (d' := set_purchases _ _). set (sel := fun p => by_invoice inv p && is_status pending p).
  assert (E3 : db_purchases d' = update_rows sel (set_status processing) (db_purchases d)) by done.
  assert (E4 : sales d' = sales d) by done.
  assert (Hsel : forall q, sel q = true -> pu_status q = pending) by (intros q H; subst sel; cbn in H; unfold is_status in H; by bool_hyps).
  cbn [snd]. split; [split|split; [|done]].
  - apply (moves_steady (fun _ => True) d); cbn; done || lia.
  - apply (pay_ok_core d); try done; rewrite ?E3, ?E4.
    + by apply pkey_update.
    + apply one_invoice_update; [apply Hd|done|exact (po_invoices d Hd)].
    + apply Hd.
    + intros q Hq. apply elem_of_update_rows in Hq as (q0 & Hq0 & ->). destruct (sel q0) eqn:E; [|by apply Hd].
      cbn. rewrite <- (po_paid d Hd q0 Hq0), (Hsel q0 E). done.
    + by left.
  - eapply update_advances; [exact E3|done| |by rewrite E4]. intros q Hq E Hs. rewrite (Hsel q E) in Hs. done.
Qed.

(** *** Creating *)

Lemma store_bind_eq {A B} (m : Store A) (f : A -> Store B) d :
  (m ≫= f) d = match m d with (Ok a, d') => f a d' | (Err e, d') => (Err e, d') end.
Proof. done. Qed.

Lemma attach_run id inv url req d : books_ok d ->
  books_ok (AttachInvoice id inv url req d).2 /\ advances d (AttachInvoice id inv url req d).2.
Proof.
  intros [Hw Hd]. unfold AttachInvoice, inTx. tx_unfold.
  destruct (negb _); [by split; [|apply advances_refl]|].
  destruct (existsb _ _) eqn:Ex; [by split; [|apply advances_refl]|]. unfold tx_modify. cbn [snd].
  set (f := set_invoice inv url _). set (d' := set_purchases _ _).
  assert (E3 : db_purchases d' = update_rows (by_id id) f (db_purchases d)) by done.
  assert (E4 : sales d' = sales d) by done. split; [split|].
  - apply (moves_steady (fun _ => True) d); cbn; done || lia.
  - apply (pay_ok_core d); try done; rewrite ?E3, ?E4.
    + by apply pkey_update.
    + assert (Hid : forall x, x ∈ db_purchases d -> by_id id x = false -> pu_invoice x <> Some inv).
      { intros x Hx Hb Ei. apply not_true_iff_false in Ex. apply Ex, existsb_exists. exists x. split; [by apply list_elem_of_In|].
        unfold by_invoice. rewrite Hb, bool_decide_eq_true_2; done. }
      intros p q i Hp Hq Ep Eq. apply elem_of_update_rows in Hp as (p0 & Hp0 & ->), Hq as (q0 & Hq0 & ->).
      destruct (by_id id p0) eqn:E1, (by_id id q0) eqn:E2; cbn in Ep, Eq.
      * f_equal. unfold by_id in E1, E2. bool_hyps. apply (NoDup_key_inj pu_id (db_purchases d)); [apply Hd|done..|congruence].
      * exfalso. apply (Hid q0 Hq0 E2). congruence.
      * exfalso. apply (Hid p0 Hp0 E1). congruence.
      * by apply (po_invoices d Hd p0 q0 i).
    + apply Hd.
    + intros q Hq. apply elem_of_update_rows in Hq as (q0 & Hq0 & ->). pose proof (po_paid d Hd q0 Hq0). by destruct (by_id id q0).
    + by left.
  - eapply update_advances; [exact E3|done|done|by rewrite E4].
Qed.

Lemma purchase_run npub pkg d : books_ok d ->
  books_ok (CreatePurchase npub pkg d).2 /\ advances d (CreatePurchase npub pkg d).2.
Proof.
  intros [Hw Hd]. unfold CreatePurchase. rewrite !store_bind_eq.
  destruct (account_run npub d) as [(a & Ea & _)|Ea]; rewrite Ea; [|by split; [|apply advances_refl]].
  unfold inTx. tx_unfold. destruct (negb _) eqn:Ex; [by split; [|apply advances_refl]|]. unfold fresh_id, tx_modify. cbn [snd].
  bool_hyps. apply existsb_exists in Ex as (k & Hk & Ek). apply list_elem_of_In in Hk. bool_hyps.
  set (p := {| pu_id := _ |}). set (d' := set_purchases _ _). assert (E3 : db_purchases d' = db_purchases d ++ [p]) by done.
  assert (Hf : Forall (fun q => pu_id q <> pu_id p) (db_purchases d))
    by (eapply Forall_weaken; [apply Hd|]; cbn; lia).
  assert (Hns : pu_id p ∉ (sales d).*1).
  { intros H. apply (po_refs d Hd) in H. apply list_elem_of_fmap in H as (q & E & Hq). by apply (proj1 (Forall_forall _ _) Hf q Hq). }
  split; [split|].
  - apply (moves_steady (fun _ => True) d); cbn; done || lia.
  - pose proof Hd as [H1 H2 H3 H4 H5 H6 H7 H8 H9 H10].
    assert (Hn : db_next d' = db_next d + 1) by done. split; try done; rewrite ?E3, ?Hn.
    + rewrite fmap_app. apply NoDup_app. split; [done|]. split; [|apply NoDup_singleton]. intros i Hi Hi'.
      apply list_elem_of_singleton in Hi'. apply list_elem_of_fmap in Hi as (q & -> & Hq).
      by apply (proj1 (Forall_forall _ _) Hf q Hq).
    + apply Forall_app. split; [eapply Forall_weaken; [exact H2|]; cbn; lia|]. apply Forall_singleton. cbn. lia.
    + intros q r i Hq Hr Eq Er. apply elem_of_app in Hq as [Hq|Hq], Hr as [Hr|Hr];
        try (apply list_elem_of_singleton in Hq as ->; done); try (apply list_elem_of_singleton in Hr as ->; done).
      by apply (H3 q r i).
    + eapply Forall_weaken; [exact H5|]. cbn. lia.
    + apply Forall_app. split; [done|]. apply Forall_singleton, Exists_exists. by exists k.
    + intros q Hq. apply elem_of_app in Hq as [Hq|Hq]; [by apply H8|]. apply list_elem_of_singleton in Hq as ->.
      split; [done|]. intros H. exfalso. by apply Hns.
    + intros i Hi. rewrite fmap_app, elem_of_app. left. by apply H9.
    + intros q k' t Hq Hk' Ekq Ht. apply elem_of_app in Hq as [Hq|Hq]; [by apply (H10 q k' t)|].
      apply list_elem_of_singleton in Hq as ->. exfalso. apply Hns, list_elem_of_fmap. by exists (pu_id p, t).
  - intros i (q & Hq & Ei & Es). split; [|done]. exists q. split; [|done]. rewrite E3. apply elem_of_app. by left.
Qed.

Lemma package_run kind name v dy pr u d : books_ok d ->
  books_ok (CreatePackage kind name v dy pr u d).2 /\ advances d (CreatePackage kind name v dy pr u d).2.
Proof.
  intros [Hw Hd]. unfold CreatePackage, inTx. destruct (negb _); [by split; [|apply advances_refl]|].
  tx_unfold. unfold fresh_id, tx_modify. cbn [snd]. set (k := {| pk_id := _ |}). set (d' := set_packages _ _). assert (E3 : db_packages d' = db_packages d ++ [k]) by done.
  assert (Hn : db_next d' = db_next d + 1) by done.
  assert (Hf : Forall (fun q => pk_id q <> pk_id k) (db_packages d)) by (eapply Forall_weaken; [apply (po_pk_next d Hd)|]; cbn; lia).
  split; [split|by intros i Hi].
  - apply (moves_steady (fun _ => True) d); cbn; done || lia.
  - pose proof Hd as [H1 H2 H3 H4 H5 H6 H7 H8 H9 H10]. split; try done; rewrite ?E3, ?Hn.
    + eapply Forall_weaken; [exact H2|]. cbn. lia.
    + rewrite fmap_app. apply NoDup_app. split; [done|]. split; [|apply NoDup_singleton]. intros i Hi Hi'.
      apply list_elem_of_singleton in Hi'. apply list_elem_of_fmap in Hi as (q & -> & Hq).
      by apply (proj1 (Forall_forall _ _) Hf q Hq).
    + apply Forall_app. split; [eapply Forall_weaken; [exact H5|]; cbn; lia|]. apply Forall_singleton. cbn. lia.
    + eapply Forall_weaken; [exact H6|]. intros p Hp. apply Exists_app. by left.
    + intros p k' t Hp Hk' E Ht. apply elem_of_app in Hk' as [Hk'|Hk']; [by apply (H10 p k' t)|].
      apply list_elem_of_singleton in Hk' as ->. exfalso. pose proof (proj1 (Forall_forall _ _) H6 p Hp) as He.
      apply Exists_exists in He as (k0 & Hk0 & E0). apply (proj1 (Forall_forall _ _) Hf k0 Hk0). congruence.
Qed.

Lemma deactivate_run id d : books_ok d -> books_ok (DeactivatePackage id d).2 /\ advances d (DeactivatePackage id d).2.
Proof.
  intros [Hw Hd]. unfold DeactivatePackage, inTx. tx_unfold. destruct (existsb _ _); [|by split; [|apply advances_refl]].
  unfold tx_modify. cbn [snd]. set (sel := fun p => pk_id p =? id). set (d' := set_packages _ _).
  assert (E3 : db_packages d' = update_rows sel deactivate (db_packages d)) by done.
  split; [split|by intros i Hi].
  - apply (moves_steady (fun _ => True) d); cbn; done || lia.
  - assert (Hids : pk_id <$> db_packages d' = pk_id <$> db_packages d).
    { rewrite E3. clear. induction (db_packages d) as [|k l IH]; [done|]. unfold update_rows in *. cbn [map]. rewrite !fmap_cons.
      f_equal; [|done]. by destruct (sel k). }
    assert (Hold : forall k, k ∈ db_packages d' -> exists k0, k0 ∈ db_packages d /\ pk_id k = pk_id k0 /\
      forall a, bought a k = bought a k0).
    { intros k Hk. rewrite E3 in Hk. apply elem_of_update_rows in Hk as (k0 & Hk0 & ->). exists k0. by destruct (sel k0). }
    pose proof Hd as [H1 H2 H3 H4 H5 H6 H7 H8 H9 H10]. split; try done.
    + by rewrite Hids.
    + apply Forall_forall. intros k Hk. destruct (Hold k Hk) as (k0 & Hk0 & -> & _). by apply (proj1 (Forall_forall _ _) H5 k0 Hk0).
    + eapply Forall_weaken; [exact H6|]. intros p Hp. apply Exists_exists in Hp as (k & Hk & E). apply Exists_exists.
      exists (if sel k then deactivate k else k). rewrite E3. split; [apply elem_of_update_rows; by exists k|]. by destruct (sel k).
    + intros p k t Hp Hk E Ht. destruct (Hold k Hk) as (k0 & Hk0 & E0 & Eb). rewrite Eb. apply (H10 p k0 t Hp Hk0); [congruence|exact Ht].
Qed.

Lemma seed_run l d : books_ok d -> books_ok (seed l d).2 /\ advances d (seed l d).2.
Proof.
  revert d. induction l as [|[[[[kd nm] v] dy] pr] l IH]; intros d Hd; cbn [seed]; [by split; [|apply advances_refl]|].
  destruct (package_run kd nm v dy pr None d Hd) as [H1 H2]. unfold mbind, store_bind.
  destruct (CreatePackage kd nm v dy pr None d) as [[i|e] d1]; cbn [snd] in *; [|done].
  destruct (IH d1 H1) as [H3 H4]. split; [done|]. by eapply advances_trans.
Qed.

Lemma settle_op_run sel missing d : books_ok d ->
  books_ok ((inTx (settle_tx sel missing) ;; recompute) d).2 /\ advances d ((inTx (settle_tx sel missing) ;; recompute) d).2.
Proof.
  intros Hd. rewrite tx_recompute_eq. destruct (find_row sel (db_purchases d)) as [p|] eqn:Ef.
  - destruct (settle_run sel missing p d Hd Ef) as (d1 & E & [Hw1 Hd1] & Ha & _). rewrite E. cbn [snd].
    pose proof (recompute_no_sale d1) as Hn. split; [split|].
    + by apply (recompute_moves (fun _ => True) d1 Hw1).
    + by eapply no_sale_ok.
    + eapply advances_trans; [exact Ha|by apply no_sale_advances].
  - unfold settle_tx. tx_unfold. rewrite Ef. split; [done|apply advances_refl].
Qed.

Lemma void_op_run inv st d : books_ok d -> st <> settled ->
  books_ok (VoidByInvoice inv st d).2 /\ advances d (VoidByInvoice inv st d).2.
Proof.
  intros Hd Hst. unfold VoidByInvoice. rewrite tx_recompute_eq. destruct (find_row (by_invoice inv) (db_purchases d)) as [p|] eqn:Ef.
  - destruct (void_run inv st p d Hd Hst Ef) as (d1 & E & [Hw1 Hd1] & Ha & _). rewrite E. cbn [snd].
    pose proof (recompute_no_sale d1) as Hn. split; [split|].
    + by apply (recompute_moves (fun _ => True) d1 Hw1).
    + by eapply no_sale_ok.
    + eapply advances_trans; [exact Ha|by apply no_sale_advances].
  - unfold void_tx. tx_unfold. rewrite Ef. split; [done|apply advances_refl].
Qed.
End PaymentsFacts.
End PaymentsFacts.
