(* ===== verification/BackendSales.v ===== *)
(** * backend/store: what customers pay for

    The purchase life cycle as a state machine over the whole store: a purchase
    is settled exactly when its entitlement exists, settlement is final, a
    payment unlocks its buyer, and neither webhooks nor the poller can grant
    anything else. *)

From S2P Require Import Prelude GoStrings Netip Fipsaddr Sha256 BackendDB BackendAuthz BackendAuthzFacts.
From S2P Require Import BackendUsage BackendUsageFacts BackendWhitelist BackendWhitelistFacts BackendConsent.
From S2P Require Import BackendPayments BackendPaymentsFacts.
Import DB Authz AuthzFacts Derive Usage UsageFacts Whitelist WhitelistFacts Consent Payments PaymentsFacts.

Module Sales.

Section Sales.
Context `{MI : MapIter}.

(** ** Steps *)

Inductive pay_op :=
| pop_account (o : wl_op)
| pop_package (kind name : gostr) (volumeBytes validityDays priceMsat : Z) (availableUntil : option Z)
| pop_deactivate (id : Z)
| pop_seed
| pop_purchase (npub : gostr) (packageID : Z)
| pop_attach (purchaseID : Z) (invoiceID checkoutURL payRequest : gostr)
| pop_mark (invoiceID : gostr)
| pop_grant (invoiceID : gostr)
| pop_settle (purchaseID : Z)
| pop_invalid (invoiceID : gostr)
| pop_expire (invoiceID : gostr)
| pop_ingest (nodeID : Z) (r : ReportInput).

Definition run_pay (o : pay_op) (d : db) : db :=
  match o with
  | pop_account o => run_op o d
  | pop_package k n v dy pr u => (CreatePackage k n v dy pr u d).2
  | pop_deactivate i => (DeactivatePackage i d).2
  | pop_seed => (SeedPackages d).2
  | pop_purchase n p => (CreatePurchase n p d).2
  | pop_attach i inv url req => (AttachInvoice i inv url req d).2
  | pop_mark inv => (MarkProcessing inv d).2
  | pop_grant inv => (GrantByInvoice inv d).2
  | pop_settle i => (SettlePurchase i d).2
  | pop_invalid inv => (VoidByInvoice inv invalid d).2
  | pop_expire inv => (VoidByInvoice inv expired d).2
  | pop_ingest n r => (IngestUsage n r d).2
  end.

(** One step, or anything that leaves accounts, whitelist and sales alone (time
    passing, retention, the services and nodes tables). *)
Inductive pay_step (d : db) : db -> Prop :=
| pay_run o : pay_step d (run_pay o d)
| pay_other d' : no_sale d d' -> db_whitelist d' = db_whitelist d -> db_accounts d' = db_accounts d -> pay_step d d'.

Definition pay_reachable (d : db) : Prop := exists t, rtc pay_step (empty_db t) d.

Lemma consume_accounts acct w d u d' : consumeVolume acct w d = Ok (u, d') ->
  db_whitelist d' = db_whitelist d /\ db_accounts d' = db_accounts d.
Proof. unfold consumeVolume, tx_modify. intros [= _ <-]. by case_match. Qed.

Lemma ingest_accounts n r d : db_whitelist (IngestUsage n r d).2 = db_whitelist d /\ db_accounts (IngestUsage n r d).2 = db_accounts d.
Proof.
  unfold IngestUsage. rewrite store_bind_eq. unfold query. rewrite store_bind_eq. unfold inTx.
  destruct (ingest_tx _ _ _ d) as [[fr d1]|e] eqn:E; [|done].
  assert (Hb : db_whitelist d1 = db_whitelist d /\ db_accounts d1 = db_accounts d).
  { revert E. unfold ingest_tx. tx_unfold. destruct (existsb _ _); [intros H; by inv H|].
    destruct (negb _); [done|]. unfold tx_modify at 1. set (d0 := set_reports _ d).
    change (db_whitelist d) with (db_whitelist d0). change (db_accounts d) with (db_accounts d0). clearbody d0.
    assert (G : forall l x d2, tx_for (ingest_sample (serviceMetaByKey d) (ri_ReportID r)) l x = Ok (tt, d2) ->
      db_whitelist d2 = db_whitelist x /\ db_accounts d2 = db_accounts x).
    { intros l. induction l as [|s l IH]; intros x d2; [intros H; by inv H|]. rewrite tx_for_cons.
      destruct (ingest_sample _ _ s x) as [[[] x1]|e] eqn:Es; [|done]. intros H. destruct (IH _ _ H) as [-> ->].
      revert Es. unfold ingest_sample. tx_unfold. unfold fresh_id, tx_modify.
      destruct (attribute _ _); [destruct (serviceMetaByKey d !! _) as [[? rate]|]; [destruct (0 <? rate)|]|];
        intros H'; try (by inv H'). by apply consume_accounts in H'. }
    destruct (tx_for _ _ d0) as [[[] d2]|e] eqn:Et; [|done]. intros H. inv H. by eapply G. }
  destruct fr; [|exact Hb]. unfold mbind, store_bind, mret, store_ret.
  destruct (recompute_run d1) as (rm & rev & d2 & E2 & [T _ _] & _). rewrite E2. cbn [snd].
  unfold other_tables in T. destruct T as (_ & _ & _ & _ & _ & -> & -> & _). done.
Qed.

Lemma pay_step_ok d d' : pay_step d d' -> books_ok d -> books_ok d' /\ advances d d'.
Proof.
  intros H Hd. assert (Hns : forall x, wl_ok x -> no_sale d x -> books_ok x /\ advances d x).
  { intros x Hw Hn. split; [split; [done|]; eapply no_sale_ok; [exact Hn|apply Hd]|by apply no_sale_advances]. }
  destruct H as [o|d' Hn E1 E2].
  - destruct o; cbn [run_pay].
    + apply Hns; [apply (run_op_moves o d), Hd|apply run_op_no_sale].
    + by apply package_run.
    + by apply deactivate_run.
    + unfold SeedPackages. rewrite store_bind_eq. unfold query. case_bool_decide; [by apply seed_run|].
      split; [done|apply advances_refl].
    + by apply purchase_run.
    + by apply attach_run.
    + destruct (mark_run invoiceID d Hd) as (H1 & H2 & _). done.
    + by apply settle_op_run.
    + by apply settle_op_run.
    + by apply void_op_run.
    + by apply void_op_run.
    + destruct (ingest_accounts nodeID r d) as [Ew Ea]. pose proof (ingest_keeps nodeID r d) as Hn.
      apply Hns; [|done]. destruct Hd as [Hw _]. apply (moves_steady (fun _ => True) d); try done. apply Hn.
  - apply Hns; [|done]. destruct Hd as [Hw _]. apply (moves_steady (fun _ => True) d); try done. apply Hn.
Qed.

Lemma pay_steps_ok d d' : rtc pay_step d d' -> books_ok d -> books_ok d' /\ advances d d'.
Proof.
  induction 1 as [d|d d1 d' H _ IH]; intros Hd; [by split; [|apply advances_refl]|].
  destruct (pay_step_ok _ _ H Hd) as [H1 H2]. destruct (IH H1) as [H3 H4]. split; [done|by eapply advances_trans].
Qed.

Lemma pay_reachable_ok d : pay_reachable d -> books_ok d.
Proof.
  intros [t H]. apply (pay_steps_ok _ _ H). split; [apply reachable_ok, reach_init|].
  assert (N : forall A (x : A), x ∈ [] -> False) by (intros A x Hx; by apply elem_of_nil in Hx).
  split; try apply NoDup_nil_2; try apply Forall_nil_2; cbn.
  - intros p q i Hp. by apply N in Hp.
  - intros p Hp. by apply N in Hp.
  - intros i Hi. by apply N in Hi.
  - intros p k x Hp. by apply N in Hp.
Qed.

(** ** The ledger *)

(** Access is sold exactly once per settled purchase: in every reachable
    store a purchase is settled if and only if an entitlement for it exists, no
    purchase has two, and that entitlement is for the buying account, of the
    package's kind and volume, and lasts the package's days. *)
Theorem settled_iff_sold d p :
  pay_reachable d -> p ∈ db_purchases d ->
  (pu_status p = settled <-> exists e, e ∈ db_entitlements d /\ en_purchase e = Some (pu_id p)) /\
  count_rows (granted (pu_id p)) (db_entitlements d) <= 1 /\
  (forall e, e ∈ db_entitlements d -> en_purchase e = Some (pu_id p) ->
     exists k, k ∈ db_packages d /\ pk_id k = pu_package p /\ terms_of e = bought (pu_account p) k).
Proof.
  intros [_ Hd]%pay_reachable_ok Hp.
  assert (Hs : forall e, e ∈ db_entitlements d -> en_purchase e = Some (pu_id p) -> (pu_id p, terms_of e) ∈ sales d).
  { intros e He Ee. apply list_elem_of_omap. exists e. split; [done|]. by rewrite Ee. }
  split; [|split].
  - rewrite (po_paid d Hd p Hp). unfold sales. rewrite <- granted_sales, existsb_exists. unfold granted. split.
    + intros (e & He & Hg). apply list_elem_of_In in He. bool_hyps. by exists e.
    + intros (e & He & Ee). exists e. split; [by apply list_elem_of_In|]. by apply bool_decide_eq_true.
  - pose proof (po_once d Hd) as Hn. unfold sales in Hn. clear -Hn. revert Hn. unfold count_rows.
    induction (db_entitlements d) as [|e l IH]; [cbn; lia|]. rewrite filter_cons. intros Hn.
    assert (Hl : NoDup (sales_of l).*1). { revert Hn. cbn. destruct (en_purchase e); [|done]. cbn. by intros [_ ?]%NoDup_cons. }
    specialize (IH Hl). destruct (decide _) as [Hg|_]; [|done].
    assert (He : en_purchase e = Some (pu_id p)) by (unfold granted in Hg; by bool_hyps).
    revert Hn. cbn. rewrite He. cbn. intros [Hni _]%NoDup_cons.
    assert (Hz : filter (fun x => granted (pu_id p) x = true) l = []).
    { apply filter_none, Forall_forall. intros x Hx Hgx. apply Hni, granted_sales, existsb_exists. exists x.
      split; [by apply list_elem_of_In|done]. }
    rewrite Hz. cbn. lia.
  - intros e He Ee. destruct (find_package d p Hd Hp) as (k & _ & Hk & Ekp). exists k. split; [done|]. split; [done|].
    apply (po_terms d Hd p k); auto.
Qed.

(** [C27] Settlement is final: whatever happens afterwards (late or replayed
    webhooks of any kind, expiry by the poller, voiding, withdrawals, catalog
    changes), a settled purchase stays settled and keeps an entitlement on the
    same terms. *)
Theorem settlement_is_final d d' i t :
  pay_reachable d -> rtc pay_step d d' -> settled_in d i -> (i, t) ∈ sales d ->
  settled_in d' i /\ (i, t) ∈ sales d'.
Proof.
  intros Hd%pay_reachable_ok Hs Hi Ht. destruct (pay_steps_ok _ _ Hs Hd) as [_ Ha]. destruct (Ha i Hi) as [H1 H2]. auto.
Qed.

(** ** A payment unlocks its buyer *)

Lemma find_invoice d p inv : pay_ok d -> p ∈ db_purchases d -> pu_invoice p = Some inv ->
  find_row (by_invoice inv) (db_purchases d) = Some p.
Proof.
  intros Hd Hp Ei. apply find_row_unique; [done|by apply bool_decide_eq_true|]. intros q Hq Eq. unfold by_invoice in Eq.
  bool_hyps. by apply (po_invoices d Hd q p inv).
Qed.

(** A package that gives access. *)
Definition worth (k : package) : Prop :=
  0 <= pk_days k /\ (pk_kind k = bs "time" \/ (pk_kind k = bs "volume" /\ exists v, pk_volume k = Some v /\ 0 < v)).

Lemma sold_active e a k t : terms_of e = bought a k -> worth k -> en_starts e = t -> en_used e = 0 ->
  en_account e = a /\ entitlement_active t e = true.
Proof.
  intros Et [Hd Hk] Es Eu. unfold terms_of, bought in Et. injection Et as E1 E2 E3 E4. split; [done|].
  assert (Hx : t <= en_expires e). { unfold day_ns, time_Minute, time_Second in E4. nia. }
  unfold entitlement_active. rewrite Es, Eu, E2, E3.
  rewrite (proj2 (Z.leb_le t t)), (proj2 (Z.leb_le _ _) Hx) by lia. cbn [andb].
  destruct Hk as [->|(-> & v & Ev & Hv)]; [by rewrite bool_decide_eq_true_2|].
  rewrite (bool_decide_eq_true_2 (bs "volume" = bs "volume")), Ev by done. apply orb_true_iff. right. by apply Z.ltb_lt.
Qed.

Lemma owner_row_found d a w : wl_ok d -> a ∈ db_accounts d -> w ∈ db_whitelist d -> w_account w = ac_id a -> w_role w = owner ->
  find_row (fun w => (w_account w =? ac_id a) && is_role owner w) (db_whitelist d) = Some w.
Proof.
  intros Hd Ha Hw Ea Hr. apply find_row_unique; [done| |].
  - unfold is_role. by rewrite Ea, Z.eqb_refl, bool_decide_eq_true_2.
  - intros v Hv Hp. unfold is_role in Hp. bool_hyps. apply (owner_unique d); try done.
    pose proof (owner_row d a w Hd Ha Hw Ea Hr) as E1. pose proof (owner_row d a v Hd Ha Hv ltac:(done) ltac:(done)) as E2.
    rewrite E1 in E2. by inv E2.
Qed.

(** Paying unlocks the buyer: the settlement of an unsettled purchase of a
    package that is worth something, by an active account with its owner row,
    succeeds; afterwards the purchase is settled, the buyer's address is
    attributed to the buyer's own account (even if it was attached to a host) and
    is in the authorized set; and repeating the settlement changes nothing. *)
Theorem payment_unlocks_buyer inv d p k a w :
  pay_reachable d -> p ∈ db_purchases d -> pu_invoice p = Some inv -> pu_status p <> settled ->
  k ∈ db_packages d -> pk_id k = pu_package p -> worth k ->
  a ∈ db_accounts d -> ac_id a = pu_account p -> ac_active a = true ->
  w ∈ db_whitelist d -> w_account w = pu_account p -> w_role w = owner ->
  exists d', GrantByInvoice inv d = (Ok tt, d') /\ settled_in d' (pu_id p) /\
    attribution d' (w_addr w) = Some (pu_account p) /\ is_Some (db_current d' !! w_addr w) /\
    GrantByInvoice inv d' = (Ok tt, d').
Proof.
  intros [Hwl Hd]%pay_reachable_ok Hp Ei Hns Hk Ekp Hworth Ha Eai Hact Hw Ew Hr.
  pose proof (find_invoice d p inv Hd Hp Ei) as Ef.
  destruct (grant_run p d Hwl Hd Hp Hns) as (k' & d1 & Eg & Hk' & Ekp' & Hw1 & Epk & Enx & Enow & Eacc & Epu & Esl & e & d0 & Een & Ep & Et & Est & Eus & Eact & Hw0 & Ewl & _).
  assert (k' = k) as -> by (apply (NoDup_key_inj pk_id (db_packages d)); [apply Hd|done..|congruence]).
  destruct (grant_ok p d d1 k Hd Hp Hns Hk Ekp Epk Enx Epu Esl) as [Hd1 _].
  assert (Hs1 : settle_tx (by_invoice inv) ErrPurchaseNotFound d = Ok (tt, d1)).
  { unfold settle_tx. tx_unfold. rewrite Ef. unfold is_status. by rewrite bool_decide_eq_false_2. }
  assert (Hat : attribution d1 (w_addr w) = Some (pu_account p)).
  { revert Eact. unfold activateOwnerTx. tx_unfold. rewrite Ewl, <- Eai.
    rewrite (owner_row_found d a w Hwl Ha Hw ltac:(congruence) Hr). intros Eact.
    rewrite <- Ewl in Hw. destruct (activateRow_moves w d0 _ _ Hw0 Hw Eact) as [_ H]. rewrite <- Ew in *. rewrite Eai.
    unfold attribution in *. cbn in H. rewrite H. congruence. }
  assert (Hent : entitled d1 (w_addr w)).
  { apply attribution_holds in Hat as (v & Hv & Hva & Eva & Evy); [|apply Hw1].
    destruct (sold_active e (pu_account p) k (db_now d) Et Hworth Est Eus) as [Eea Hea].
    exists v. repeat split; try done; rewrite Evy.
    - unfold account_active. rewrite Eacc. apply existsb_exists. exists a. split; [by apply list_elem_of_In|].
      by rewrite Eai, Z.eqb_refl.
    - unfold has_entitlement. rewrite Een, Enow. apply existsb_exists. exists e.
      split; [apply in_or_app; right; by left|]. by rewrite Eea, Z.eqb_refl. }
  destruct (recompute_run d1) as (rm & rev & d2 & E2 & C & _ & Hcur & _).
  pose proof (ch_tables _ _ C) as T. assert (Hg : forall x, (GrantByInvoice inv x) =
    match settle_tx (by_invoice inv) ErrPurchaseNotFound x with Ok (_, y) => (Ok tt, (RecomputeAuthz y).2) | Err e => (Err e, x) end)
    by (intros x; apply tx_recompute_eq).
  exists d2. rewrite (Hg d), Hs1, E2. split; [done|].
  assert (Tpu : db_purchases d2 = db_purchases d1) by apply T. assert (Twl : db_whitelist d2 = db_whitelist d1) by apply T.
  assert (Hp1 : stamp (db_now d) settled p ∈ db_purchases d2).
  { rewrite Tpu, Epu. apply elem_of_update_rows. exists p. split; [done|]. unfold by_id. by rewrite Z.eqb_refl. }
  split; [by exists (stamp (db_now d) settled p)|].
  split; [unfold attribution in *; by rewrite Twl|]. split; [rewrite Hcur; by apply desired_entitled|].
  rewrite (Hg d2). assert (Hs2 : settle_tx (by_invoice inv) ErrPurchaseNotFound d2 = Ok (tt, d2)).
  { assert (Hd2 : pay_ok d2) by (eapply no_sale_ok; [|exact Hd1]; pose proof (recompute_no_sale d1) as Hn; by rewrite E2 in Hn).
    unfold settle_tx. tx_unfold. rewrite (find_invoice d2 (stamp (db_now d) settled p) inv Hd2 Hp1 Ei). done. }
  rewrite Hs2, (recompute_stable d2); [done|]. by rewrite Hcur, (desired_other d1 d2 T).
Qed.

(** ** Webhooks *)

Lemma grant_new inv d i : books_ok d -> i ∈ (sales (GrantByInvoice inv d).2).*1 ->
  i ∈ (sales d).*1 \/ exists p, p ∈ db_purchases d /\ pu_id p = i /\ pu_invoice p = Some inv.
Proof.
  intros Hd. unfold GrantByInvoice. rewrite tx_recompute_eq. destruct (find_row (by_invoice inv) (db_purchases d)) as [p|] eqn:Ef.
  - destruct (settle_run _ ErrPurchaseNotFound p d Hd Ef) as (d1 & E & _ & _ & _ & _ & Hn). rewrite E. cbn [snd].
    destruct (recompute_no_sale d1) as (_ & _ & -> & _). intros H. destruct (Hn i H) as [? | ->]; [by left|right].
    apply find_row_Some in Ef as [Hp Hb]. exists p. split; [done|]. split; [done|]. unfold by_invoice in Hb. by bool_hyps.
  - unfold settle_tx. tx_unfold. rewrite Ef. by left.
Qed.

Lemma void_sales inv st d : books_ok d -> st <> settled -> sales (VoidByInvoice inv st d).2 = sales d.
Proof.
  intros Hd Hst. unfold VoidByInvoice. rewrite tx_recompute_eq. destruct (find_row (by_invoice inv) (db_purchases d)) as [p|] eqn:Ef.
  - destruct (void_run inv st p d Hd Hst Ef) as (d1 & E & _ & _ & Es & _). rewrite E. cbn [snd].
    destruct (recompute_no_sale d1) as (_ & _ & -> & _). done.
  - unfold void_tx. tx_unfold. by rewrite Ef.
Qed.

(** A BTCPay request grants access only when it carries a valid signature
    under a non-empty secret, says InvoiceSettled, and the provider, if one is
    configured, confirms the invoice as Settled; and then only to the purchase of
    that very invoice.  No other request (Processing included) sells anything. *)
Theorem btcpay_grants_only_settled decode check secret body sig d i :
  pay_reachable d ->
  i ∈ (sales (btcpay_webhook decode check secret body sig d).2).*1 -> i ∉ (sales d).*1 ->
  exists b ev, body = Some b /\ secret <> [] /\ VerifyWebhook secret b sig = true /\ decode b = Some ev /\
    we_Type ev = EventInvoiceSettled /\ (forall c, check = Some c -> c (we_InvoiceID ev) = Some (bs "Settled")) /\
    exists p, p ∈ db_purchases d /\ pu_id p = i /\ pu_invoice p = Some (we_InvoiceID ev).
Proof.
  intros Hd%pay_reachable_ok Hi Hni. unfold btcpay_webhook in Hi. destruct body as [b|]; [|done].
  destruct (VerifyWebhook secret b sig) eqn:Ev; [|done]. cbn [negb] in Hi.
  destruct (decode b) as [ev|] eqn:Ed; [|done]. case_bool_decide; [done|]. exists b, ev.
  assert (Hsec : secret <> []) by (intros ->; by unfold VerifyWebhook in Ev).
  assert (Hgrant : forall x, x = (let '(r, d') := GrantByInvoice (we_InvoiceID ev) d in (conclude (we_Type ev) r, d')) ->
    i ∈ (sales x.2).*1 -> exists p, p ∈ db_purchases d /\ pu_id p = i /\ pu_invoice p = Some (we_InvoiceID ev)).
  { intros x -> Hx. pose proof (grant_new (we_InvoiceID ev) d i Hd) as G.
    destruct (GrantByInvoice (we_InvoiceID ev) d) as [r d']. destruct (G Hx); [done|done]. }
  unfold btcpay_dispatch in Hi. case_bool_decide.
  { exfalso. destruct (mark_run (we_InvoiceID ev) d Hd) as (_ & _ & E). destruct (MarkProcessing _ d) as [r d'].
    cbn in *. unfold sales in *. congruence. }
  case_bool_decide as Es.
  { repeat (split; [done|]). destruct check as [c|].
    - destruct (c (we_InvoiceID ev)) as [st|] eqn:Ec; [|done]. case_bool_decide as Est; [|done].
      split; [intros c' E'; injection E' as <-; congruence|]. by eapply Hgrant.
    - split; [done|]. by eapply Hgrant. }
  exfalso. case_bool_decide; [|case_bool_decide; [|done]].
  - pose proof (void_sales (we_InvoiceID ev) invalid d Hd ltac:(done)) as E.
    destruct (VoidByInvoice _ _ d) as [r d']. cbn in *. congruence.
  - pose proof (void_sales (we_InvoiceID ev) expired d Hd ltac:(done)) as E.
    destruct (VoidByInvoice _ _ d) as [r d']. cbn in *. congruence.
Qed.

(** *** Signatures *)

Lemma hex_val_digit c v : digit_val c = Some v -> 0 <= v < 16 /\ hex_digit v = lower_byte c.
Proof.
  unfold digit_val, lower_byte, is_upper, hex_digit. intros H.
  destruct ((48 <=? c) && (c <=? 57)) eqn:E1; [|destruct ((97 <=? c) && (c <=? 102)) eqn:E2;
    [|destruct ((65 <=? c) && (c <=? 70)) eqn:E3; [|done]]]; injection H as <-; bool_hyps; (split; [lia|]).
  - rewrite (proj2 (Z.ltb_lt _ _)), (proj2 (Z.leb_gt 65 c)) by lia. cbn. lia.
  - rewrite (proj2 (Z.ltb_ge _ _)), (proj2 (Z.leb_gt c 90)), andb_false_r by lia. lia.
  - rewrite (proj2 (Z.ltb_ge _ _)), (proj2 (Z.leb_le 65 c)), (proj2 (Z.leb_le c 90)) by lia. cbn. lia.
Qed.

Lemma HexDecode_inv s b : HexDecode s = Some b -> HexEncode b = ToLower s.
Proof.
  revert s. induction b as [|x b IH]; intros s H.
  - destruct s as [|h [|l r]]; [done|done|]. cbn in H. destruct (digit_val h), (digit_val l), (HexDecode r); done.
  - destruct s as [|h [|l r]]; [done|done|]. cbn in H.
    destruct (digit_val h) as [u|] eqn:Eh; [|done]. destruct (digit_val l) as [v|] eqn:El; [|done].
    destruct (HexDecode r) as [rest|] eqn:Er; [|done]. cbn in H. injection H as <- <-.
    apply hex_val_digit in Eh as [Hu Eu], El as [Hv Ev]. unfold HexEncode in *. rewrite bind_cons, (IH r Er). cbn.
    rewrite <- Eu, <- Ev. rewrite Z.div_add_l, Z.div_small, Z.add_0_r by lia.
    rewrite Z.add_comm, Z.mod_add, Z.mod_small by lia. done.
Qed.

Lemma HexDecode_lower s : HexDecode (ToLower s) = HexDecode s.
Proof.
  assert (D : forall c, digit_val (lower_byte c) = digit_val c).
  { intros c. unfold digit_val, lower_byte, is_upper. destruct ((65 <=? c) && (c <=? 90)) eqn:E; [|done]. bool_hyps.
    rewrite (proj2 (Z.leb_gt (c + 32) 57)), (proj2 (Z.leb_gt c 57)), !andb_false_r by lia.
    rewrite (proj2 (Z.leb_le 97 (c + 32))), (proj2 (Z.leb_gt 97 c)) by lia. cbn [andb].
    rewrite (proj2 (Z.leb_le 65 c)) by lia. cbn [andb].
    destruct (c <=? 70) eqn:E7; bool_hyps; [rewrite (proj2 (Z.leb_le _ _)) by lia; f_equal; lia|].
    rewrite (proj2 (Z.leb_gt (c + 32) 102)), (proj2 (Z.leb_gt (c + 32) 70)), andb_false_r by lia. done. }
  remember (length s) as n eqn:En. assert (Hn : (length s <= n)%nat) by lia. clear En. revert s Hn.
  induction n as [|n IH]; intros [|h [|l r]] Hn; try done; cbn in Hn; try lia.
  cbn [ToLower map HexDecode]. rewrite !D. destruct (digit_val h), (digit_val l); try done. cbn.
  change (map lower_byte r) with (ToLower r). by rewrite IH by lia.
Qed.

(** The webhook signature check accepts exactly the HMAC of the body under
    a configured secret: the header must be the one [SignWebhook] produces, up to
    the letter case of the hex digits, and an empty secret accepts nothing. *)
Theorem VerifyWebhook_iff secret body sig :
  VerifyWebhook secret body sig = true <->
  secret <> [] /\ exists h, sig = sig_prefix ++ h /\ sig_prefix ++ ToLower h = SignWebhook secret body.
Proof.
  unfold VerifyWebhook, SignWebhook, HasPrefix, TrimPrefix. case_bool_decide as Es; [by split; [|intros [? _]]|].
  destruct (bool_decide (take (length sig_prefix) sig = sig_prefix)) eqn:Ep.
  - bool_hyps. assert (Esig : sig = sig_prefix ++ drop (length sig_prefix) sig).
    { pose proof (take_drop (length sig_prefix) sig) as Ht. by rewrite Ep in Ht. }
    cbn [negb]. unfold HasPrefix. rewrite bool_decide_eq_true_2 by done. split.
    + destruct (HexDecode _) as [want|] eqn:Eh; [|done]. intros H. bool_hyps. subst want. split; [done|].
      eexists. split; [exact Esig|]. f_equal. by rewrite (HexDecode_inv _ _ Eh).
    + intros [_ (h & E1 & E2)]. apply app_inv_head in E2.
      assert (drop (length sig_prefix) sig = h) as -> by (rewrite E1; by rewrite drop_app_length).
      rewrite <- HexDecode_lower, E2, HexDecode_Encode by apply hmac_bytes. by apply bool_decide_eq_true.
  - bool_hyps. cbn [negb]. split; [done|]. intros [_ (h & E1 & _)]. exfalso. apply Ep. rewrite E1. by rewrite take_app_length.
Qed.

(** ** The poller *)

Lemma grant_settles inv p d : books_ok d -> find_row (by_invoice inv) (db_purchases d) = Some p ->
  settled_in (GrantByInvoice inv d).2 (pu_id p).
Proof.
  intros Hd Ef. unfold GrantByInvoice. rewrite tx_recompute_eq.
  destruct (settle_run _ ErrPurchaseNotFound p d Hd Ef) as (d1 & E & _ & _ & Hs & _). rewrite E. cbn [snd].
  destruct (no_sale_advances _ _ (recompute_no_sale d1) _ Hs). done.
Qed.

Lemma reconcile_one_ok lookup ttl o d : books_ok d ->
  books_ok (reconcile_one lookup ttl o d).2 /\ advances d (reconcile_one lookup ttl o d).2 /\
  ikey <$> db_purchases (reconcile_one lookup ttl o d).2 = ikey <$> db_purchases d.
Proof.
  intros Hd. unfold reconcile_one.
  assert (Hsame : books_ok d /\ advances d d /\ ikey <$> db_purchases d = ikey <$> db_purchases d)
    by (split; [done|]; split; [apply advances_refl|done]).
  assert (Hk : forall d1, ikey <$> db_purchases d1 = ikey <$> db_purchases d ->
    ikey <$> db_purchases (RecomputeAuthz d1).2 = ikey <$> db_purchases d).
  { intros d1 E. destruct (recompute_no_sale d1) as (-> & _). done. }
  destruct (lookup _) as [[|]|]; [| |done].
  - destruct (settle_op_run (by_invoice (oi_InvoiceID o)) ErrPurchaseNotFound d Hd) as [H1 H2].
    assert (E : ikey <$> db_purchases (GrantByInvoice (oi_InvoiceID o) d).2 = ikey <$> db_purchases d).
    { unfold GrantByInvoice. rewrite tx_recompute_eq. destruct (find_row (by_invoice (oi_InvoiceID o)) (db_purchases d)) as [p|] eqn:Ef.
      - destruct (settle_run _ ErrPurchaseNotFound p d Hd Ef) as (d1 & E & _ & _ & _ & Ek & _). rewrite E. by apply Hk.
      - unfold settle_tx. tx_unfold. by rewrite Ef. }
    change ((inTx (settle_tx (by_invoice (oi_InvoiceID o)) ErrPurchaseNotFound) ;; recompute) d) with (GrantByInvoice (oi_InvoiceID o) d) in *.
    destruct (GrantByInvoice _ d) as [r d']. done.
  - destruct (_ <? _); [|done]. destruct (void_op_run (oi_InvoiceID o) expired d Hd ltac:(done)) as [H1 H2].
    assert (E : ikey <$> db_purchases (VoidByInvoice (oi_InvoiceID o) expired d).2 = ikey <$> db_purchases d).
    { unfold VoidByInvoice. rewrite tx_recompute_eq. destruct (find_row (by_invoice (oi_InvoiceID o)) (db_purchases d)) as [p|] eqn:Ef.
      - destruct (void_run _ expired p d Hd ltac:(done) Ef) as (d1 & E & _ & _ & _ & _ & Ek). rewrite E. by apply Hk.
      - unfold void_tx. tx_unfold. by rewrite Ef. }
    destruct (VoidByInvoice _ _ d) as [r d']. done.
Qed.

Lemma reconcile_loop_ok lookup ttl l d : books_ok d ->
  books_ok (reconcile_loop lookup ttl l d).2 /\ advances d (reconcile_loop lookup ttl l d).2.
Proof.
  revert d. induction l as [|o l IH]; intros d Hd; cbn [reconcile_loop]; [by split; [|apply advances_refl]|].
  destruct (reconcile_one_ok lookup ttl o d Hd) as (H1 & H2 & _). destruct (reconcile_one _ _ o d) as [x d1]. cbn [snd] in *.
  destruct (IH d1 H1) as [H3 H4]. destruct (reconcile_loop _ _ l d1) as [y d2]. cbn [snd] in *. split; [done|by eapply advances_trans].
Qed.

(** The loop settles every listed invoice the node reports as paid. *)
Lemma reconcile_loop_settles lookup ttl l d i inv : books_ok d -> (i, Some inv) ∈ ikey <$> db_purchases d ->
  inv ∈ oi_InvoiceID <$> l -> lookup inv = Some true -> settled_in (reconcile_loop lookup ttl l d).2 i.
Proof.
  revert d. induction l as [|o l IH]; intros d Hd Hk Hin Hl; [by apply elem_of_nil in Hin|]. cbn [reconcile_loop].
  destruct (reconcile_one_ok lookup ttl o d Hd) as (H1 & H2 & H3). rewrite fmap_cons in Hin. apply elem_of_cons in Hin as [E|Hin].
  - assert (Hs : settled_in (reconcile_one lookup ttl o d).2 i).
    { apply list_elem_of_fmap in Hk as (p & Ep & Hp). unfold ikey in Ep. injection Ep as -> Ei.
      pose proof (grant_settles inv p d Hd (find_invoice d p inv (proj2 Hd) Hp (eq_sym Ei))) as Hg.
      unfold reconcile_one. rewrite <- E, Hl. by destruct (GrantByInvoice inv d) as [r d']. }
    destruct (reconcile_one _ _ o d) as [x d1]. cbn [snd] in *.
    destruct (reconcile_loop_ok lookup ttl l d1 H1) as [_ Ha]. destruct (reconcile_loop _ _ l d1) as [y d2]. cbn [snd] in *.
    by destruct (Ha i Hs).
  - destruct (reconcile_one _ _ o d) as [x d1]. cbn [snd] in *. specialize (IH d1 H1). rewrite H3 in IH.
    specialize (IH Hk Hin Hl). by destruct (reconcile_loop _ _ l d1) as [y d2].
Qed.

(** A missed webhook is made up for: after one sweep of the poller, every
    open Lightning purchase whose invoice the node reports as paid is settled,
    whatever the lookups of the other invoices returned and however old it is;
    and purchases that were settled before stay settled on their terms. *)
Theorem sweep_settles_paid lookup ttl d p inv :
  pay_reachable d -> p ∈ db_purchases d -> pu_invoice p = Some inv -> is_Some (pu_payreq p) -> is_open p = true ->
  lookup inv = Some true ->
  settled_in (sweep lookup ttl d).2 (pu_id p) /\ advances d (sweep lookup ttl d).2.
Proof.
  intros Hd%pay_reachable_ok Hp Ei [x Hx] Ho Hl. unfold sweep, ListOpenLightning, query.
  split; [|by apply reconcile_loop_ok]. apply (reconcile_loop_settles _ _ _ _ _ inv); [done| | |done].
  - apply list_elem_of_fmap. exists p. split; [|done]. unfold ikey. by rewrite Ei.
  - apply list_elem_of_fmap. eexists. split; [|apply list_elem_of_omap; exists p; split; [done|]; rewrite Hx, Ei, Ho; reflexivity]. done.
Qed.

End Sales.
End Sales.
