(* ===== verification/BackendCashu.v ===== *)
(** * backend/payments: Cashu redemption

    Models backend/payments/cashu.go and backend/qr.go.  The mints are strangers:
    what one answers is any function of the requests sent so far ([Mints]).  Tokens,
    proofs, CBOR and QR images are those of gonuts, fxamacker/cbor and go-qrcode
    ([CashuLib]). *)

From S2P Require Import Prelude GoStrings GoJson GoNet.
Import Json.

Module Cashu.

(** ** The libraries *)

(** gonuts' [cashu.Proof]; [D] is its DLEQ proof. *)
Record Proof (D : Type) := {
  pf_Amount : Z; pf_Id : gostr; pf_Secret : gostr; pf_C : gostr; pf_Witness : gostr; pf_DLEQ : option D
}.
Arguments pf_Amount {D} _.
Arguments pf_Id {D} _.
Arguments pf_Secret {D} _.
Arguments pf_C {D} _.
Arguments pf_Witness {D} _.
Arguments pf_DLEQ {D} _.

Record prTransport := { tr_Type : gostr; tr_Target : gostr }.

Record nut18Request := {
  nr_Amount : Z; nr_Unit : gostr; nr_SingleUse : bool; nr_Mints : list gostr; nr_Transports : list prTransport
}.

Class CashuLib := {
  DLEQProof : Type;
  dleq_json : jvalue -> option DLEQProof;                    (* json.Unmarshal of a DLEQ proof *)
  DecodeToken : gostr -> option (gostr * list (Proof DLEQProof));   (* its Mint() and Proofs() *)
  proofs_Amount : list (Proof DLEQProof) -> Z;               (* Proofs.Amount() *)
  cbor_Marshal : nut18Request -> option (list Z);
  qrcode_Encode : gostr -> option (list Z)                   (* Medium, 320 pixels *)
}.

(** ** Requests to mints *)

Inductive mint_body `{CashuLib} :=
| quote_body (request unit_ : gostr)
| melt_body (quote : gostr) (inputs : list (Proof DLEQProof)).

Record mint_post `{CashuLib} := { mp_url : gostr; mp_body : mint_body }.

(** A status with the body, decoded if it is JSON; [None] is a request that could
    not be made or was not answered. *)
Class Mints `{CashuLib} := mint_answer : list mint_post -> mint_post -> option (Z * option jvalue).

Section Redeemer.
Context `{MI : MapIter} `{CL : CashuLib} `{MN : !Mints}.

(** [CashuRedeemer.post], decoding the answer of a 200. *)
Definition post {T} (url : gostr) (body : mint_body) (decode : jvalue -> option T) : State (list mint_post) (option T) := fun sent =>
  let p := {| mp_url := url; mp_body := body |} in
  (match mint_answer sent p with
   | Some (status, b) => if status =? 200 then v ← b; decode v else None
   | None => None
   end, sent ++ [p]).

(** ** The redeemer *)

Record CashuRedeemer := { cr_accepted : gset gostr }.

(** [strings.TrimRight(s, "/")] *)
Fixpoint trim_slashes (s : gostr) : gostr :=
  match s with
  | [] => []
  | c :: r => if c =? 47 then trim_slashes r else s
  end.
Definition TrimRightSlash (s : gostr) : gostr := reverse (trim_slashes (reverse s)).

Definition normalizeMint (u : gostr) : gostr := TrimRightSlash (TrimSpace u).

Definition NewCashuRedeemer (acceptedMints : list gostr) : CashuRedeemer :=
  {| cr_accepted := foldl (fun m u => let u := normalizeMint u in if bool_decide (u = []) then m else m ∪ {[ u ]}) ∅ acceptedMints |}.

Inductive cashu_err := ErrDecodeToken | ErrMintNotAccepted | ErrQuote | ErrTokenUnderfunded | ErrMelt | ErrNotPaid.

Record meltQuoteResp := { mq_Quote : gostr; mq_Amount : Z; mq_FeeReserve : Z; mq_State : gostr; mq_Paid : bool }.
Record meltResp := { mr_State : gostr; mr_Paid : bool }.

Definition quote_of (v : jvalue) : option meltQuoteResp :=
  l ← as_struct v;
  quote ← get as_string (bs "quote") l;
  amount ← get (as_uint 64) (bs "amount") l;
  fee ← get (as_uint 64) (bs "fee_reserve") l;
  state ← get as_string (bs "state") l;
  paid ← get as_bool (bs "paid") l;
  Some {| mq_Quote := quote; mq_Amount := amount; mq_FeeReserve := fee; mq_State := state; mq_Paid := paid |}.

Definition melt_of (v : jvalue) : option meltResp :=
  l ← as_struct v;
  state ← get as_string (bs "state") l;
  paid ← get as_bool (bs "paid") l;
  Some {| mr_State := state; mr_Paid := paid |}.

(** [!m.Paid && strings.EqualFold(m.State, "UNPAID")] *)
Definition unpaid (m : meltResp) : bool := negb (mr_Paid m) && bool_decide (ToLower (mr_State m) = bs "unpaid").

Definition MeltProofs (c : CashuRedeemer) (mint : gostr) (proofs : list (Proof DLEQProof)) (bolt11 : gostr)
    : State (list mint_post) (result cashu_err Z) :=
  let mint := normalizeMint mint in
  if negb (bool_decide (cr_accepted c = ∅)) && negb (bool_decide (mint ∈ cr_accepted c)) then mret (Err ErrMintNotAccepted) else
  q ← post (mint ++ bs "/v1/melt/quote/bolt11") (quote_body bolt11 (bs "sat")) quote_of;
  match q with
  | None => mret (Err ErrQuote)
  | Some q =>
      let need := u64 (mq_Amount q + mq_FeeReserve q) in
      if proofs_Amount proofs <? need then mret (Err ErrTokenUnderfunded) else
      m ← post (mint ++ bs "/v1/melt/bolt11") (melt_body (mq_Quote q) proofs) melt_of;
      match m with
      | None => mret (Err ErrMelt)
      | Some m => if unpaid m then mret (Err ErrNotPaid) else mret (Ok (mq_Amount q))
      end
  end.

Definition Melt (c : CashuRedeemer) (token bolt11 : gostr) : State (list mint_post) (result cashu_err Z) :=
  match DecodeToken (TrimSpace token) with
  | None => mret (Err ErrDecodeToken)
  | Some (mint, proofs) => MeltProofs c mint proofs bolt11
  end.

Definition FeeHeadroomPercent : Z := 1.

(** On uint64. *)
Definition MeltAmount (invoiceSat : Z) : Z :=
  let headroom := u64 (u64 (invoiceSat * FeeHeadroomPercent) + 99) / 100 in
  u64 (invoiceSat + headroom).

(** ** Payment requests *)

Definition PaymentRequest (c : CashuRedeemer) (amountSat : Z) (postTarget : gostr) : option gostr :=
  let req := {| nr_Amount := amountSat; nr_Unit := bs "sat"; nr_SingleUse := true; nr_Mints := set_range (cr_accepted c);
                nr_Transports := [{| tr_Type := bs "post"; tr_Target := postTarget |}] |} in
  b ← cbor_Marshal req;
  Some (bs "creqA" ++ B64Encode b).

(** [flexUint64.UnmarshalJSON]; null is not a number. *)
Definition flexUint64 (v : jvalue) : option Z :=
  match v with
  | jnum n => if (0 <=? n) && (n <? 2 ^ 64) then Some n else None
  | jstr s => ParseUint s
  | _ => None
  end.

(** A missing amount is left at zero without a call of the decoder. *)
Definition amount_of (v : option jvalue) : option Z := match v with Some v => flexUint64 v | None => Some 0 end.

(** [lenientProof], as the [cashu.Proof] that [Cashu] makes of it. *)
Definition lenientProof (v : jvalue) : option (Proof DLEQProof) :=
  l ← as_struct v;
  amount ← amount_of (field (bs "amount") l);
  id ← get as_string (bs "id") l;
  secret ← get as_string (bs "secret") l;
  C ← get as_string (bs "c") l;
  witness ← get as_string (bs "witness") l;
  dleq ← get (as_ptr dleq_json) (bs "dleq") l;
  Some {| pf_Amount := amount; pf_Id := id; pf_Secret := secret; pf_C := C; pf_Witness := witness; pf_DLEQ := dleq |}.

Record PaymentRequestPayload := { pp_ID : gostr; pp_Memo : gostr; pp_Mint : gostr; pp_Unit : gostr; pp_Proofs : list (Proof DLEQProof) }.

Definition payload_of (v : jvalue) : option PaymentRequestPayload :=
  l ← as_struct v;
  id ← get as_string (bs "id") l;
  memo ← get as_string (bs "memo") l;
  mint ← get as_string (bs "mint") l;
  unit_ ← get as_string (bs "unit") l;
  proofs ← get (as_list lenientProof) (bs "proofs") l;
  Some {| pp_ID := id; pp_Memo := memo; pp_Mint := mint; pp_Unit := unit_; pp_Proofs := proofs |}.

(** ** QR codes (backend/qr.go) *)

Definition qrDataURI (text : gostr) : gostr :=
  match qrcode_Encode text with
  | Some png => bs "data:image/png;base64," ++ StdEncode png
  | None => []
  end.

End Redeemer.
End Cashu.

(** * Theorems about Cashu redemption

    Whatever the mints answer: ecash leaves in at most one request, to the mint it
    came from, for a quote on the invoice to be paid that it covers; and the amount
    asked of a payer covers the invoice and a reserve of one percent. *)

Import Json Cashu.

Module CashuFacts.

Section Redeemer.
Context `{MI : MapIter} `{CL : CashuLib} `{MN : !Mints}.

(** What an answer decodes to. *)
Definition answered {T} (sent : list mint_post) (p : mint_post) (decode : jvalue -> option T) : option T :=
  match mint_answer sent p with
  | Some (status, b) => if status =? 200 then v ← b; decode v else None
  | None => None
  end.

Lemma post_run {T} url body (decode : jvalue -> option T) sent :
  post url body decode sent = (answered sent {| mp_url := url; mp_body := body |} decode, sent ++ [{| mp_url := url; mp_body := body |}]).
Proof. done. Qed.

Definition accepts (c : CashuRedeemer) (mint : gostr) : Prop := cr_accepted c = ∅ \/ normalizeMint mint ∈ cr_accepted c.

Definition quote_post (mint bolt11 : gostr) : mint_post :=
  {| mp_url := normalizeMint mint ++ bs "/v1/melt/quote/bolt11"; mp_body := quote_body bolt11 (bs "sat") |}.
Definition melt_post (mint quote : gostr) (proofs : list (Proof DLEQProof)) : mint_post :=
  {| mp_url := normalizeMint mint ++ bs "/v1/melt/bolt11"; mp_body := melt_body quote proofs |}.

(** The proofs cover the quote [q], as the mint put it. *)
Definition covers (q : meltQuoteResp) (proofs : list (Proof DLEQProof)) : Prop :=
  u64 (mq_Amount q + mq_FeeReserve q) <= proofs_Amount proofs.

(** What is asked of a mint to redeem [proofs] for [bolt11], after [sent]. *)
Inductive asked (c : CashuRedeemer) (mint : gostr) (proofs : list (Proof DLEQProof)) (bolt11 : gostr) (sent : list mint_post)
    : list mint_post -> result cashu_err Z -> Prop :=
| asked_refused : ~ accepts c mint -> asked c mint proofs bolt11 sent [] (Err ErrMintNotAccepted)
| asked_no_quote : accepts c mint -> answered sent (quote_post mint bolt11) quote_of = None ->
    asked c mint proofs bolt11 sent [quote_post mint bolt11] (Err ErrQuote)
| asked_underfunded q : accepts c mint -> answered sent (quote_post mint bolt11) quote_of = Some q -> ~ covers q proofs ->
    asked c mint proofs bolt11 sent [quote_post mint bolt11] (Err ErrTokenUnderfunded)
| asked_melt q r : accepts c mint -> answered sent (quote_post mint bolt11) quote_of = Some q -> covers q proofs ->
    r = match answered (sent ++ [quote_post mint bolt11]) (melt_post mint (mq_Quote q) proofs) melt_of with
        | None => Err ErrMelt
        | Some m => if unpaid m then Err ErrNotPaid else Ok (mq_Amount q)
        end ->
    asked c mint proofs bolt11 sent [quote_post mint bolt11; melt_post mint (mq_Quote q) proofs] r.

Lemma accepts_iff c mint :
  negb (bool_decide (cr_accepted c = ∅)) && negb (bool_decide (normalizeMint mint ∈ cr_accepted c)) = false <-> accepts c mint.
Proof. unfold accepts. do 2 case_bool_decide; cbn; split; try done; tauto. Qed.

Lemma MeltProofs_run c mint proofs bolt11 sent :
  exists new r, MeltProofs c mint proofs bolt11 sent = (r, sent ++ new) /\ asked c mint proofs bolt11 sent new r.
Proof.
  unfold MeltProofs. destruct (negb _ && negb _) eqn:Ea.
  - exists [], (Err ErrMintNotAccepted). rewrite app_nil_r. split; [done|]. constructor. rewrite <- accepts_iff, Ea. done.
  - apply accepts_iff in Ea. unfold mbind, state_bind. rewrite post_run. fold (quote_post mint bolt11).
    destruct (answered sent _ quote_of) as [q|] eqn:Eq; [|eexists _, _; split; [done|by constructor]]. cbn zeta.
    destruct (_ <? _) eqn:El; bool_hyps; [eexists _, _; split; [done|apply (asked_underfunded _ _ _ _ _ q); auto; unfold covers; lia]|].
    rewrite post_run. fold (melt_post mint (mq_Quote q) proofs). rewrite <- app_assoc.
    eexists _, _. split; [|apply (asked_melt _ _ _ _ _ q); auto]. destruct (answered _ _ melt_of) as [m|]; [|done]. by destruct (unpaid m).
Qed.

Lemma Melt_run c token bolt11 sent :
  match DecodeToken (TrimSpace token) with
  | None => Melt c token bolt11 sent = (Err ErrDecodeToken, sent)
  | Some (mint, proofs) =>
      exists new r, Melt c token bolt11 sent = (r, sent ++ new) /\ asked c mint proofs bolt11 sent new r
  end.
Proof. unfold Melt. destruct (DecodeToken _) as [[mint proofs]|]; [apply MeltProofs_run|done]. Qed.

(** Ecash is in at most one request, the second and last. *)
Lemma asked_spends c mint proofs bolt11 sent new r p quote inputs :
  asked c mint proofs bolt11 sent new r -> p ∈ new -> mp_body p = melt_body quote inputs ->
  inputs = proofs /\ exists q, new = [quote_post mint bolt11; p] /\ mq_Quote q = quote /\
    answered sent (quote_post mint bolt11) quote_of = Some q /\ covers q proofs.
Proof.
  intros [] Hp Hb; repeat (apply elem_of_cons in Hp as [->|Hp]; [|try (apply elem_of_nil in Hp; done)]); try done; [by apply elem_of_nil in Hp|].
  injection Hb as <- <-. split; [done|]. by exists q.
Qed.

(** ** Amounts *)

(** The headroom is one percent of the invoice, rounded up. *)
Lemma MeltAmount_exact n : 0 <= n < 2 ^ 63 -> MeltAmount n = n + (n + 99) / 100.
Proof.
  intros Hn. unfold MeltAmount, FeeHeadroomPercent, u64. rewrite Z.mul_1_r. rewrite (Z.mod_small n) by lia.
  rewrite (Z.mod_small (n + 99)) by lia. apply Z.mod_small. pose proof (Z.div_le_upper_bound (n + 99) 100 (n + 99) ltac:(lia) ltac:(lia)).
  pose proof (Z.div_pos (n + 99) 100 ltac:(lia) ltac:(lia)).
  assert ((n + 99) / 100 <= 2 ^ 62) by (apply Z.div_le_upper_bound; lia). lia.
Qed.

(** The amount asked of the payer of a price of [msat] is the least that covers the
    invoice with every reserve of up to one percent (rounded up), in whole satoshis
    and without wrapping round. *)
Theorem MeltAmount_least msat :
  0 <= msat <= int64_max ->
  let n := u64 (Z.quot msat 1000) in
  n = msat / 1000 /\
  (forall proofs q, mq_Amount q = n -> 0 <= 100 * mq_FeeReserve q < n + 100 -> proofs_Amount proofs = MeltAmount n -> covers q proofs) /\
  forall a, 0 <= a < MeltAmount n -> 0 < n ->
    exists fee, 0 <= 100 * fee < n + 100 /\ forall proofs q, mq_Amount q = n -> mq_FeeReserve q = fee -> proofs_Amount proofs = a -> ~ covers q proofs.
Proof.
  unfold int64_max. intros Hm. rewrite Z.quot_div_nonneg by lia. cbn zeta.
  assert (Hn : 0 <= msat / 1000 < 2 ^ 54) by (split; [apply Z.div_pos; lia|apply Z.div_lt_upper_bound; lia]).
  assert (En : u64 (msat / 1000) = msat / 1000) by (apply Z.mod_small; lia). rewrite En. set (n := msat / 1000) in *.
  rewrite MeltAmount_exact by lia. unfold covers, u64. split; [done|]. split.
  - intros proofs q -> Hf ->. rewrite Z.mod_small by lia. assert (mq_FeeReserve q <= (n + 99) / 100) by (apply Z.div_le_lower_bound; lia). lia.
  - intros a Ha H0. exists ((n + 99) / 100). pose proof (Z.mul_div_le (n + 99) 100 ltac:(lia)). pose proof (Z.div_pos (n + 99) 100 ltac:(lia) ltac:(lia)).
    split; [lia|]. intros proofs q -> -> ->. rewrite Z.mod_small by lia. lia.
Qed.

(** ** Payloads *)

(** A wallet may write the amount of a proof as a number or as a string. *)
Inductive writes_amount (n : Z) : jvalue -> Prop :=
| as_number : writes_amount n (jnum n)
| as_text : writes_amount n (jstr (FormatUint 10 n)).

Definition proof_json (p : Proof DLEQProof) (amount : jvalue) : jvalue :=
  jobj [(bs "amount", amount); (bs "id", jstr (pf_Id p)); (bs "secret", jstr (pf_Secret p)); (bs "C", jstr (pf_C p))].

Lemma lenientProof_read p amount : in_u64 (pf_Amount p) -> pf_Witness p = [] -> pf_DLEQ p = None -> writes_amount (pf_Amount p) amount ->
  lenientProof (proof_json p amount) = Some p.
Proof.
  intros Ha Hw Hd Hs. destruct p as [a id s C w d]. cbn in *. subst w d.
  assert (E : flexUint64 amount = Some a).
  { destruct Hs; cbn [flexUint64]; [|by apply ParseUint_FormatUint]. unfold in_u64 in Ha. destruct (_ && _) eqn:E; [done|]. bool_hyps. lia. }
  unfold lenientProof, proof_json. cbn [as_struct mbind option_bind pf_Id pf_Secret pf_C].
  change (amount_of _) with (flexUint64 amount). rewrite E. done.
Qed.

(** Either way the payload gives back the proofs. *)
Lemma payload_read mint ps vs :
  Forall2 (fun p v => in_u64 (pf_Amount p) /\ pf_Witness p = [] /\ pf_DLEQ p = None /\ exists a, writes_amount (pf_Amount p) a /\ v = proof_json p a) ps vs ->
  payload_of (jobj [(bs "mint", jstr mint); (bs "unit", jstr (bs "sat")); (bs "proofs", jarr vs)]) =
  Some {| pp_ID := []; pp_Memo := []; pp_Mint := mint; pp_Unit := bs "sat"; pp_Proofs := ps |}.
Proof.
  intros H. unfold payload_of. cbn [as_struct mbind option_bind]. change (get (as_list lenientProof) (bs "proofs") _) with (mapM lenientProof vs).
  assert (E : mapM lenientProof vs = Some ps).
  { apply mapM_Some, Forall2_flip. eapply Forall2_impl; [exact H|]. intros p v (H1 & H2 & H3 & a & H4 & ->). by apply lenientProof_read. }
  rewrite E. done.
Qed.

End Redeemer.
End CashuFacts.
