(* ===== verification/BackendWg.v ===== *)
(** * backend/store and backend: WireGuard peers

    Models backend/store/wg.go (the inner address plan, issuing and removing
    peers, the table agents pull, node announcements) and the client
    configurations of backend/wg.go.  The pools are an IPv4 and an IPv6 prefix, as
    loadWgSettings of backend/main.go leaves them (an IPv6 WG_POOL4 panics there,
    in Gateway4).  The order of text columns is the database's collation: any
    total order. *)

From S2P Require Import Prelude GoStrings Netip GoNet Fipsaddr Sha256 Authzhash BackendDB BackendAuthz BackendWhitelist.
Import DB Authz Derive Whitelist.

Module Wg.

(** ** The address plan *)

(** A network address and its number of bits. *)
Record Prefix := { px_Addr : Z; px_Bits : Z }.
Record WgPools := { Pool4 : Prefix; Pool6 : Prefix }.

(** 10.64.0.0/16 and fc10:f1b5:ea17::/64 *)
Definition DefaultWgPools : WgPools :=
  {| Pool4 := {| px_Addr := 0x0a400000; px_Bits := 16 |};
     Pool6 := {| px_Addr := 0xfc10f1b5ea170000 * 2 ^ 64; px_Bits := 64 |} |}.

(** [Masked().Addr()] of a prefix over addresses of [width] bits. *)
Definition Masked (width : Z) (p : Prefix) : Z :=
  px_Addr p / 2 ^ (width - px_Bits p) * 2 ^ (width - px_Bits p).

(** [v += uint32(n)] *)
Definition offset4 (p : Prefix) (n : Z) : Addr := Addr4 (u32 (Masked 32 p + u32 n)).

(** The sum is taken in the last four bytes only. *)
Definition offset6 (p : Prefix) (n : Z) : Addr :=
  let a := Masked 128 p in Addr6 (a / 2 ^ 32 * 2 ^ 32 + u32 (a mod 2 ^ 32 + u32 n)) [].

Definition Gateway4 (p : WgPools) : Addr := offset4 (Pool4 p) 1.
Definition Gateway6 (p : WgPools) : Addr := offset6 (Pool6 p) 1.

Definition slots (p : WgPools) : Z :=
  let bits := 32 - px_Bits (Pool4 p) in
  let bits := if 24 <? bits then 24 else bits in
  Z.shiftl 1 bits - 3.

(** The configured pools; a zero [netip.Prefix] is not valid. *)
Definition wgPools (pool4 pool6 : option Prefix) : WgPools :=
  match pool4, pool6 with
  | Some p, Some q => {| Pool4 := p; Pool6 := q |}
  | _, _ => DefaultWgPools
  end.

Definition DefaultMaxWgPeersPerAddr : Z := 5.
Definition maxWgPeers (MaxWgPeersPerAddr : Z) : Z :=
  if 0 <? MaxWgPeersPerAddr then MaxWgPeersPerAddr else DefaultMaxWgPeersPerAddr.

(** ** Keys and endpoints *)

Definition ContainsAny (s chars : gostr) : bool := existsb (fun c => bool_decide (c ∈ chars)) s.

Definition ValidWgKey (k : gostr) : bool :=
  if negb (Z.of_nat (length k) =? 44) || ContainsAny k [32; 9; 13; 10] then false else
  match StdDecodeStrict k with
  | Some b => Z.of_nat (length b) =? 32
  | None => false
  end.

Definition validWgEndpoint (e : gostr) : bool :=
  if bool_decide (e = []) || (253 <? Z.of_nat (length e)) || ContainsAny e [32; 9; 13; 10; 0] then false else
  match SplitHostPort e with
  | None => false
  | Some (host, port) =>
      if bool_decide (host = []) then false else
      match ParseInt port with
      | Some n => (0 <? n) && (n <? 65536)
      | None => false
      end
  end.

(** ** Peers *)

Record WgPeer := {
  wp_ID : Z; wp_AccountID : Z; wp_Npub : gostr; wp_FipsAddr : Addr; wp_Pubkey : gostr; wp_Idx : Z; wp_Label : gostr;
  wp_IP4 : Addr; wp_IP6 : Addr
}.
Record WgNode := { wn_ID : Z; wn_Name : gostr; wn_Pubkey : gostr; wn_Endpoint : gostr }.

Definition attempts : nat := 64.

(** The loop over [nextval]: a taken slot is skipped ([ON CONFLICT (idx) DO
    NOTHING]), a known public key violates wg_peers_pubkey_key.  Returns the slot
    and the sequence, which no rollback takes back. *)
Fixpoint alloc (n : nat) (slots_ : Z) (pubkey : gostr) (peers : list wg_peer) (seq : Z) : result store_err Z * Z :=
  match n with
  | O => (Err ErrWgPoolFull, seq)
  | S n =>
      let seq := seq + 1 in
      let idx := 2 + Z.rem seq slots_ in
      if existsb (fun q => wq_idx q =? idx) peers then alloc n slots_ pubkey peers seq
      else if existsb (fun q => bool_decide (wq_pubkey q = pubkey)) peers then (Err ErrWgBadKey, seq)
      else (Ok idx, seq)
  end.

(** The checks before it: the permission, the account the address is active on,
    the cap. *)
Definition peer_account (cap : Z) (sessionNpub forNpub : gostr) (addr : Addr) (d : db) : result store_err Z :=
  if negb (bool_decide (forNpub = sessionNpub)) &&
     negb (existsb (fun w => existsb (fun a => (ac_id a =? w_account w) && bool_decide (ac_npub a = sessionNpub)) (db_accounts d)
             && bool_decide (w_npub w = forNpub) && active_row w) (db_whitelist d))
  then Err ErrWgForbidden else
  match find_row (fun w => at_addr addr w && active_row w) (db_whitelist d) with
  | None => Err ErrWgNotActive
  | Some w =>
      if cap <=? count_rows (fun q => bool_decide (wq_addr q = addr)) (db_wgpeers d) then Err ErrWgPeerLimit
      else Ok (w_account w)
  end.

(** [fillPeerIPs] of a row *)
Definition peer_view (pools : WgPools) (q : wg_peer) : WgPeer :=
  {| wp_ID := wq_id q; wp_AccountID := wq_account q; wp_Npub := wq_npub q; wp_FipsAddr := wq_addr q;
     wp_Pubkey := wq_pubkey q; wp_Idx := wq_idx q; wp_Label := default [] (wq_label q);
     wp_IP4 := offset4 (Pool4 pools) (wq_idx q); wp_IP6 := offset6 (Pool6 pools) (wq_idx q) |}.

(** The row's account is that of a whitelist row, so the foreign key holds. *)
Definition CreateWgPeer (pools : WgPools) (cap : Z) (sessionNpub forNpub label pubkey : gostr) : Store WgPeer := fun d =>
  let pubkey := TrimSpace pubkey in
  if negb (ValidWgKey pubkey) then (Err ErrWgBadKey, d) else
  match FromNpub forNpub with
  | Err _ => (Err ErrDeriveAddress, d)
  | Ok addr =>
      match peer_account cap sessionNpub forNpub addr d with
      | Err e => (Err e, d)
      | Ok accountID =>
          match alloc attempts (slots pools) pubkey (db_wgpeers d) (db_wgseq d) with
          | (Err e, seq) => (Err e, set_wgseq seq d)
          | (Ok idx, seq) =>
              let q := {| wq_id := db_next d; wq_account := accountID; wq_npub := forNpub; wq_addr := addr;
                          wq_pubkey := pubkey; wq_idx := idx; wq_label := Some label; wq_created_by := sessionNpub;
                          wq_created := db_now d |} in
              (Ok (peer_view pools q),
               set_wgseq seq (set_next (db_next d + 1) (set_wgpeers (db_wgpeers d ++ [q]) d)))
          end
      end
  end.

Definition older (x y : wg_peer) : Prop := wq_created x <= wq_created y.
#[export] Instance older_dec : RelDecision older.
Proof. intros x y. unfold older. apply _. Defined.

Definition ListWgPeers (pools : WgPools) (accountID : Z) : Store (list WgPeer) :=
  query (fun d => map (peer_view pools) (merge_sort older (filter (fun q => (wq_account q =? accountID) = true) (db_wgpeers d)))).

Definition controls (d : db) (sessionNpub : gostr) (id : Z) (q : wg_peer) : bool :=
  (wq_id q =? id) &&
  existsb (fun a => (ac_id a =? wq_account q) &&
                    (bool_decide (ac_npub a = sessionNpub) || bool_decide (wq_npub q = sessionNpub))) (db_accounts d).

Definition DeleteWgPeer (sessionNpub : gostr) (id : Z) : Store unit :=
  inTx (
    d ← tx_get (fun d => d);
    if existsb (controls d sessionNpub id) (db_wgpeers d)
    then tx_modify (fun d' => set_wgpeers (delete_rows (controls d sessionNpub id) (db_wgpeers d')) d')
    else tx_fail ErrWgPeerNotFound).

(** ** The table *)

Section Table.
Context (text_le : relation gostr) `{!RelDecision text_le}.

Definition by_pubkey (x y : wg_peer) : Prop := text_le (wq_pubkey x) (wq_pubkey y).
#[local] Instance by_pubkey_dec : RelDecision by_pubkey.
Proof. intros x y. unfold by_pubkey. apply _. Defined.

(** ["%s|%s|%s\n"] *)
Definition etag_line (p : WgPeer) : gostr :=
  wp_Pubkey p ++ [124] ++ addr_String (wp_IP4 p) ++ [124] ++ addr_String (wp_IP6 p) ++ [10].

Definition etag_input (peers : list WgPeer) : list Z := peers ≫= etag_line.
Definition etag (peers : list WgPeer) : gostr := HexEncode (take 16 (sum256 (etag_input peers))).

Definition WgPeerTable (pools : WgPools) : Store (list WgPeer * gostr) :=
  query (fun d => let peers := map (peer_view pools) (merge_sort by_pubkey (db_wgpeers d)) in (peers, etag peers)).

(** ** Node announcements *)

Definition set_wg (pubkey endpoint : option gostr) (seen : option Z) (n : node) : node :=
  {| nd_id := nd_id n; nd_name := nd_name n; nd_pubkey := nd_pubkey n; nd_token_hash := nd_token_hash n;
     nd_last_seen := nd_last_seen n; nd_version := nd_version n; nd_wg_pubkey := pubkey; nd_wg_endpoint := endpoint;
     nd_wg_seen := seen |}.

Definition SetNodeWg (nodeID : Z) (pubkey endpoint : gostr) : Store unit := fun d =>
  let pubkey := TrimSpace pubkey in
  let endpoint := TrimSpace endpoint in
  if negb (ValidWgKey pubkey) then (Err ErrWgBadKey, d) else
  if negb (validWgEndpoint endpoint) then (Err ErrWgBadEndpoint, d) else
  (Ok tt, set_nodes (update_rows (fun n => nd_id n =? nodeID)
            (set_wg (Some pubkey) (Some endpoint) (Some (db_now d))) (db_nodes d)) d).

Definition ClearNodeWg (nodeID : Z) : Store unit := fun d =>
  (Ok tt, set_nodes (update_rows (fun n => (nd_id n =? nodeID) && bool_decide (is_Some (nd_wg_pubkey n)))
            (set_wg None None None) (db_nodes d)) d).

Definition wgNodeFreshness : Z := 15 * time_Minute.

Definition node_view (t : Z) (n : node) : option WgNode :=
  match nd_wg_pubkey n, nd_wg_endpoint n, nd_wg_seen n with
  | Some k, Some e, Some seen =>
      if negb (bool_decide (e = [])) && (t - wgNodeFreshness <? seen)
      then Some {| wn_ID := nd_id n; wn_Name := nd_name n; wn_Pubkey := k; wn_Endpoint := e |} else None
  | _, _, _ => None
  end.

Definition by_name (x y : node) : Prop := text_le (nd_name x) (nd_name y).
#[local] Instance by_name_dec : RelDecision by_name.
Proof. intros x y. unfold by_name. apply _. Defined.

Definition WgNodes : Store (list WgNode) :=
  query (fun d => omap (node_view (db_now d)) (merge_sort by_name (db_nodes d))).

End Table.

(** ** Client configurations (backend/wg.go) *)

Record wgSettings := { ws_port : Z; ws_pools : WgPools; ws_dns4 : Addr; ws_dns6 : Addr; ws_mtu : Z }.

(** [loadWgSettings], from the two prefixes and the port and MTU read from the
    environment; [None] is the fatal exit. *)
Definition loadWgSettings (pool4 pool6 : option Prefix) (port mtu : Z) : option wgSettings :=
  let masked w p := {| px_Addr := Masked w p; px_Bits := px_Bits p |} in
  let pools := {| Pool4 := match pool4 with Some p => masked 32 p | None => Pool4 DefaultWgPools end;
                  Pool6 := match pool6 with Some p => masked 128 p | None => Pool6 DefaultWgPools end |} in
  if (24 <? px_Bits (Pool4 pools)) || (64 <? px_Bits (Pool6 pools)) then None else
  Some {| ws_port := port; ws_pools := pools; ws_dns4 := Gateway4 pools; ws_dns6 := Gateway6 pools; ws_mtu := mtu |}.

Definition wgAllowedIPs : gostr :=
  bs "0.0.0.0/0, ::/1, 8000::/2, c000::/3, e000::/4, f000::/5, f800::/6, fc00::/8, fe00::/7".

(** On UTF-8 text the runes dropped are the single bytes below. *)
Definition iniSafe (v : gostr) : gostr := filter (fun r => negb ((r <? 0x20) || (r =? 0x7f)) = true) v.

Definition ln (s : gostr) : gostr := s ++ [10].

Definition renderWgConfig (priv : gostr) (peer : WgPeer) (nd : WgNode) (s : wgSettings) (portalURL : gostr) : gostr :=
  ln (bs "[Interface]") ++
  ln (bs "# fips-exit WireGuard, issued to " ++ iniSafe (wp_Npub peer) ++ bs " (" ++ addr_String (wp_FipsAddr peer) ++
      bs "). One config per device.") ++
  ln (bs "# Portal: " ++ iniSafe portalURL ++
      bs "/dashboard  (reachable over fips while the tunnel is up: fd00::/8 is excluded below)") ++
  ln (bs "PrivateKey = " ++ priv) ++
  ln (bs "Address = " ++ addr_String (wp_IP4 peer) ++ bs "/32, " ++ addr_String (wp_IP6 peer) ++ bs "/128") ++
  ln (bs "DNS = " ++ addr_String (ws_dns4 s) ++ bs ", " ++ addr_String (ws_dns6 s)) ++
  ln (ln (bs "MTU = " ++ FormatInt (ws_mtu s))) ++
  ln (ln (bs "[Peer]") ++ bs "# " ++ iniSafe (wn_Name nd)) ++
  ln (bs "PublicKey = " ++ wn_Pubkey nd) ++
  ln (bs "Endpoint = " ++ iniSafe (wn_Endpoint nd)) ++
  ln (bs "AllowedIPs = " ++ wgAllowedIPs) ++
  ln (bs "PersistentKeepalive = 25").

End Wg.
