(* ===== verification/BackendWgFacts.v ===== *)
(** * Theorems about WireGuard peers

    Inner addresses are distinct, inside the pools and never the exit's own; a
    peer is issued only with permission, below the cap and to the account its
    traffic is billed to; the table's etag changes exactly with the table; keys
    and endpoints that pass validation cannot break a client configuration. *)

From S2P Require Import Prelude GoStrings Netip GoNet Fipsaddr FipsaddrFacts Sha256 Authzhash BackendDB BackendAuthz BackendAuthzFacts.
From S2P Require Import BackendWhitelist BackendWhitelistFacts BackendConsent BackendWg.
Import DB Authz AuthzFacts Derive Whitelist WhitelistFacts Consent Wg.

Module WgFacts.

(** ** The address plan *)

Definition prefix_ok (width : Z) (maxbits : Z) (p : Prefix) : Prop :=
  0 <= px_Addr p < 2 ^ width /\ 0 <= px_Bits p <= maxbits.
Definition pools_ok (p : WgPools) : Prop := prefix_ok 32 24 (Pool4 p) /\ prefix_ok 128 64 (Pool6 p).

(** The host part of a prefix. *)
Definition hosts (width : Z) (p : Prefix) : Z := 2 ^ (width - px_Bits p).

Lemma masked_bounds w b p : prefix_ok w b p -> b <= w -> 0 <= Masked w p /\ Masked w p + hosts w p <= 2 ^ w /\ 0 < hosts w p.
Proof.
  unfold prefix_ok, Masked, hosts. intros [Ha Hb] Hw. set (m := 2 ^ (w - px_Bits p)).
  assert (Hm : 0 < m) by (apply Z.pow_pos_nonneg; lia).
  assert (Hp : 2 ^ w = 2 ^ px_Bits p * m) by (unfold m; rewrite <- Z.pow_add_r by lia; f_equal; lia).
  pose proof (Z.div_pos (px_Addr p) m ltac:(lia) Hm). split; [nia|]. split; [|done].
  assert (px_Addr p / m < 2 ^ px_Bits p) by (apply Z.div_lt_upper_bound; lia). nia.
Qed.

Lemma slots_bounds p : pools_ok p -> 253 <= slots p /\ slots p + 3 <= hosts 32 (Pool4 p) /\ slots p + 3 <= 2 ^ 24.
Proof.
  unfold pools_ok, prefix_ok, slots, hosts. intros [[_ Hb] _].
  assert (E : forall b, 0 <= b -> Z.shiftl 1 b = 2 ^ b) by (intros b Hn; rewrite Z.shiftl_mul_pow2; lia).
  destruct (24 <? 32 - px_Bits (Pool4 p)) eqn:Eb; bool_hyps; rewrite E by lia.
  - assert (2 ^ 24 <= 2 ^ (32 - px_Bits (Pool4 p))) by (apply Z.pow_le_mono_r; lia). change (2 ^ 24) with 16777216 in *. lia.
  - assert (2 ^ 8 <= 2 ^ (32 - px_Bits (Pool4 p))) by (apply Z.pow_le_mono_r; lia).
    assert (2 ^ (32 - px_Bits (Pool4 p)) <= 2 ^ 24) by (apply Z.pow_le_mono_r; lia). change (2 ^ 8) with 256 in *. lia.
Qed.

Lemma offset4_eq p n : prefix_ok 32 24 p -> 0 <= n < hosts 32 p -> offset4 p n = Addr4 (Masked 32 p + n).
Proof.
  intros Hp Hn. destruct (masked_bounds 32 24 p Hp ltac:(lia)) as (H1 & H2 & H3). unfold offset4.
  rewrite (u32_small n), u32_small by (unfold in_u32; lia). done.
Qed.

Lemma masked6_low p : prefix_ok 128 64 p -> Masked 128 p mod 2 ^ 32 = 0.
Proof.
  unfold prefix_ok, Masked. intros [_ Hb].
  replace (2 ^ (128 - px_Bits p)) with (2 ^ (96 - px_Bits p) * 2 ^ 32) by (rewrite <- Z.pow_add_r by lia; f_equal; lia).
  rewrite Z.mul_assoc. apply Z.mod_mul. lia.
Qed.

Lemma offset6_eq p n : prefix_ok 128 64 p -> 0 <= n < 2 ^ 32 -> offset6 p n = Addr6 (Masked 128 p + n) [].
Proof.
  intros Hp Hn. pose proof (masked6_low p Hp) as Hl. unfold offset6. rewrite Hl, Z.add_0_l.
  rewrite !(u32_small n) by exact Hn. f_equal. pose proof (Z.div_mod (Masked 128 p) (2 ^ 32) ltac:(lia)) as Hd.
  rewrite Hl in Hd. lia.
Qed.

Lemma hosts6 p : prefix_ok 128 64 p -> 2 ^ 64 <= hosts 128 p.
Proof. intros [_ Hb]. unfold hosts. apply Z.pow_le_mono_r; lia. Qed.

(** ** Keys and endpoints *)

Lemma ContainsAny_false s cs : ContainsAny s cs = false <-> forall c, c ∈ s -> c ∉ cs.
Proof.
  unfold ContainsAny. rewrite <- not_true_iff_false, existsb_exists. split.
  - intros H c Hc Hin. apply H. exists c. split; [by apply list_elem_of_In|by apply bool_decide_eq_true].
  - intros H (c & Hc%list_elem_of_In & Hin). bool_hyps. by apply (H c).
Qed.

Lemma StdDecodeStrict_plain k : 10 ∉ k -> 13 ∉ k -> StdDecodeStrict k = std_decode k.
Proof.
  intros H1 H2. unfold StdDecodeStrict. rewrite filter_all; [done|]. apply Forall_forall. intros c Hc. split; intros ->; done.
Qed.

Lemma ValidWgKey_decodes k : ValidWgKey k = true <-> exists b, Forall in_u8 b /\ length b = 32%nat /\ k = StdEncode b.
Proof.
  unfold ValidWgKey. split.
  - destruct (_ || _) eqn:E; [done|]. bool_hyps. rewrite ContainsAny_false in *.
    assert (H1 : 10 ∉ k) by (intros Hc; match goal with H : forall c, c ∈ k -> _ |- _ => apply (H _ Hc) end; set_solver).
    assert (H2 : 13 ∉ k) by (intros Hc; match goal with H : forall c, c ∈ k -> _ |- _ => apply (H _ Hc) end; set_solver).
    rewrite StdDecodeStrict_plain by done. destruct (std_decode k) as [b|] eqn:Ed; [|done]. intros Hl. bool_hyps.
    apply std_decode_inv in Ed as [HF Ek]. exists b. repeat split; [done|lia|done].
  - intros (b & HF & Hl & ->). pose proof (StdEncode_chars b HF) as Hc. rewrite Forall_forall in Hc.
    pose proof (length_StdEncode b) as Hlen. rewrite Hl in Hlen. change (4 * ((Z.of_nat 32 + 2) / 3)) with 44 in Hlen.
    rewrite Hlen, Z.eqb_refl. cbn [negb orb].
    assert (Hsp : ContainsAny (StdEncode b) [32; 9; 13; 10] = false).
    { apply ContainsAny_false. intros c Hin Hx. destruct (Hc c Hin) as (_ & _ & _ & Hs). 
      rewrite !elem_of_cons in Hx. destruct Hx as [ -> |[ -> |[ -> |[ -> |Hx]]]]; try (by vm_compute in Hs). by apply elem_of_nil in Hx. }
    rewrite Hsp, StdDecodeStrict_plain, std_decode_encode, Hl by (try done; intros Hin; by apply Hc in Hin as (? & ? & _)). done.
Qed.

Lemma valid_key_chars k : ValidWgKey k = true -> Forall std_plain k.
Proof. intros (b & HF & _ & ->)%ValidWgKey_decodes. by apply StdEncode_chars. Qed.

(** ** Issuing a peer *)

(** The k-th slot tried after sequence value [seq], and whether it is taken. *)
Definition slot (pools : WgPools) (seq k : Z) : Z := 2 + Z.rem (seq + k) (slots pools).
Definition taken (i : Z) (l : list wg_peer) : Prop := i ∈ wq_idx <$> l.
Definition issued (k : gostr) (l : list wg_peer) : Prop := k ∈ wq_pubkey <$> l.

Lemma taken_true i l : existsb (fun q => wq_idx q =? i) l = true <-> taken i l.
Proof.
  unfold taken. rewrite existsb_exists, list_elem_of_fmap. split; intros (q & H1 & H2); exists q; rewrite list_elem_of_In in *; bool_hyps; [done|].
  subst. by rewrite Z.eqb_refl.
Qed.

Lemma issued_true k l : existsb (fun q => bool_decide (wq_pubkey q = k)) l = true <-> issued k l.
Proof.
  unfold issued. rewrite existsb_exists, list_elem_of_fmap. split; intros (q & H1 & H2); exists q; rewrite list_elem_of_In in *; bool_hyps; [done|].
  by rewrite bool_decide_eq_true.
Qed.

Lemma alloc_spec pools n pubkey l seq :
  match alloc n (slots pools) pubkey l seq with
  | (Ok i, s) => exists k, 1 <= k <= Z.of_nat n /\ s = seq + k /\ i = slot pools seq k /\ ~ taken i l /\ ~ issued pubkey l /\
                   forall j, 1 <= j < k -> taken (slot pools seq j) l
  | (Err e, s) => seq <= s /\
      ((e = ErrWgPoolFull /\ forall j, 1 <= j <= Z.of_nat n -> taken (slot pools seq j) l) \/ (e = ErrWgBadKey /\ issued pubkey l))
  end.
Proof.
  revert seq. induction n as [|n IH]; intros seq; cbn [alloc].
  - split; [lia|]. left. split; [done|]. intros j Hj. lia.
  - assert (Hs : forall j, slot pools (seq + 1) j = slot pools seq (j + 1)) by (intros j; unfold slot; do 2 f_equal; lia).
    change (2 + Z.rem (seq + 1) (slots pools)) with (slot pools seq 1).
    destruct (existsb (fun q => wq_idx q =? slot pools seq 1) l) eqn:Et; [apply taken_true in Et|].
    + specialize (IH (seq + 1)). destruct (alloc n _ _ _ _) as [[i|e] s].
      * destruct IH as (k & Hk & -> & -> & H1 & H2 & H3). exists (k + 1). rewrite Hs in *. repeat split; try done; try lia.
        intros j Hj. destruct (decide (j = 1)) as [->|]; [done|]. replace j with (j - 1 + 1) by lia. rewrite <- Hs. apply H3. lia.
      * destruct IH as (Hl & [[-> H]|H]); (split; [lia|]); [left|by right]. split; [done|]. intros j Hj.
        destruct (decide (j = 1)) as [->|]; [done|]. replace j with (j - 1 + 1) by lia. rewrite <- Hs. apply H. lia.
    + apply not_true_iff_false in Et. rewrite taken_true in Et.
      destruct (existsb (fun q => bool_decide (wq_pubkey q = pubkey)) l) eqn:Ek; [apply issued_true in Ek; split; [lia|by right]|].
      apply not_true_iff_false in Ek. rewrite issued_true in Ek. exists 1. repeat split; try done; try lia.
Qed.

Lemma slot_bounds pools seq k : pools_ok pools -> 0 <= seq + k -> 2 <= slot pools seq k <= slots pools + 1.
Proof.
  intros Hp Hk. destruct (slots_bounds pools Hp) as [H _]. unfold slot. rewrite Z.rem_mod_nonneg by lia.
  pose proof (Z.mod_pos_bound (seq + k) (slots pools) ltac:(lia)). lia.
Qed.

(** Slots tried in one call differ. *)
Lemma slot_inj pools seq j k : pools_ok pools -> 0 <= seq -> 1 <= j <= 64 -> 1 <= k <= 64 -> slot pools seq j = slot pools seq k -> j = k.
Proof.
  intros Hp Hs Hj Hk. destruct (slots_bounds pools Hp) as [H _]. unfold slot. rewrite !Z.rem_mod_nonneg by lia. intros E.
  assert (E' : (seq + j) mod slots pools = (seq + k) mod slots pools) by lia.
  pose proof (Z.div_mod (seq + j) (slots pools) ltac:(lia)). pose proof (Z.div_mod (seq + k) (slots pools) ltac:(lia)).
  assert ((seq + j) / slots pools = (seq + k) / slots pools) by nia. nia.
Qed.

(** With fewer than 64 peers one of the next 64 slots is free. *)
Lemma free_slot pools seq l : pools_ok pools -> 0 <= seq -> (length l < 64)%nat ->
  ~ (forall j, 1 <= j <= 64 -> taken (slot pools seq j) l).
Proof.
  intros Hp Hs Hl Hall. assert (Hn : NoDup (slot pools seq <$> seqZ 1 64)).
  { apply NoDup_fmap_2_strong; [|apply NoDup_seqZ]. intros j k Hj Hk E. apply elem_of_seqZ in Hj, Hk.
    apply (slot_inj pools seq); try done; lia. }
  assert (Hsub : (slot pools seq <$> seqZ 1 64) ⊆+ (wq_idx <$> l)).
  { apply NoDup_submseteq; [done|]. intros i Hi. apply list_elem_of_fmap in Hi as (j & -> & Hj). apply elem_of_seqZ in Hj. apply Hall. lia. }
  apply submseteq_length in Hsub. rewrite !length_fmap, length_seqZ in Hsub. lia.
Qed.

(** The session may act for an identity: itself, or an accepted entry of its
    own account. *)
Definition permitted (sessionNpub forNpub : gostr) (d : db) : Prop :=
  forNpub = sessionNpub \/
  exists w a, w ∈ db_whitelist d /\ a ∈ db_accounts d /\ ac_id a = w_account w /\ ac_npub a = sessionNpub /\
    w_npub w = forNpub /\ active_row w = true.

Definition peers_of (a : Addr) (d : db) : Z := count_rows (fun q => bool_decide (wq_addr q = a)) (db_wgpeers d).

Lemma peer_account_spec cap sess npub a d :
  match peer_account cap sess npub a d with
  | Ok acct => permitted sess npub d /\ attribution d a = Some acct /\ peers_of a d < cap
  | Err e => (e = ErrWgForbidden /\ ~ permitted sess npub d) \/ (e = ErrWgNotActive /\ attribution d a = None) \/
             (e = ErrWgPeerLimit /\ cap <= peers_of a d)
  end.
Proof.
  unfold peer_account, attribution, peers_of. set (b := existsb _ (db_whitelist d)).
  assert (Hb : b = true <-> exists w a, w ∈ db_whitelist d /\ a ∈ db_accounts d /\ ac_id a = w_account w /\ ac_npub a = sess /\
    w_npub w = npub /\ active_row w = true).
  { unfold b. rewrite existsb_exists. split.
    - intros (w & Hw%list_elem_of_In & Hx). bool_hyps.
      match goal with H : existsb _ _ = true |- _ => apply existsb_exists in H as (x & Hx%list_elem_of_In & He) end. bool_hyps. by exists w, x.
    - intros (w & x & Hw & Hx & E1 & E2 & E3 & E4). exists w. split; [by apply list_elem_of_In|].
      rewrite E4, (bool_decide_eq_true_2 _ E3), !andb_true_r. apply existsb_exists. exists x. split; [by apply list_elem_of_In|].
      by rewrite E1, Z.eqb_refl, bool_decide_eq_true_2. }
  destruct (negb (bool_decide (npub = sess)) && negb b) eqn:E.
  { left. split; [done|]. bool_hyps. intros [?|H1]; [done|]. apply Hb in H1. congruence. }
  assert (Hp : permitted sess npub d).
  { apply andb_false_iff in E as [E|E]; bool_hyps; [by left|right; by apply Hb]. }
  destruct (find_row _ _) as [w|]; [|right; by left]. destruct (cap <=? _) eqn:Ec; bool_hyps; [do 2 right; done|done].
Qed.

(** Why a peer is refused. *)
Definition refused (pools : WgPools) (cap : Z) (sess npub key : gostr) (d : db) (e : store_err) : Prop :=
  match e with
  | ErrWgBadKey => ValidWgKey key = false \/ issued key (db_wgpeers d)
  | ErrDeriveAddress => forall a, FromNpub npub <> Ok a
  | ErrWgForbidden => ~ permitted sess npub d
  | ErrWgNotActive => exists a, FromNpub npub = Ok a /\ attribution d a = None
  | ErrWgPeerLimit => exists a, FromNpub npub = Ok a /\ cap <= peers_of a d
  | ErrWgPoolFull => forall j, 1 <= j <= 64 -> taken (slot pools (db_wgseq d) j) (db_wgpeers d)
  | _ => False
  end.

(** What issuing a peer does: the new row, or the error and why. *)
Definition issue_outcome (pools : WgPools) (cap : Z) (sess npub key : gostr) (d : db) (r : result store_err WgPeer * db) : Prop :=
  match r with
  | (Ok p, d') => exists a acct q k,
      FromNpub npub = Ok a /\ permitted sess npub d /\ attribution d a = Some acct /\ peers_of a d < cap /\
      ValidWgKey key = true /\ ~ issued key (db_wgpeers d) /\
      1 <= k <= 64 /\ ~ taken (slot pools (db_wgseq d) k) (db_wgpeers d) /\
      (forall j, 1 <= j < k -> taken (slot pools (db_wgseq d) j) (db_wgpeers d)) /\
      p = peer_view pools q /\ db_wgpeers d' = db_wgpeers d ++ [q] /\ db_wgseq d' = db_wgseq d + k /\
      wq_account q = acct /\ wq_npub q = npub /\ wq_addr q = a /\ wq_pubkey q = key /\ wq_idx q = slot pools (db_wgseq d) k /\
      wq_id q = db_next d /\ db_next d' = db_next d + 1 /\ db_nodes d' = db_nodes d
  | (Err e, d') =>
      refused pools cap sess npub key d e /\ db_wgpeers d' = db_wgpeers d /\ db_wgseq d <= db_wgseq d' /\ db_next d' = db_next d /\
      db_nodes d' = db_nodes d
  end.

Lemma CreateWgPeer_run pools cap sess npub label key d :
  issue_outcome pools cap sess npub (TrimSpace key) d (CreateWgPeer pools cap sess npub label key d).
Proof.
  unfold CreateWgPeer. set (key' := TrimSpace key). unfold issue_outcome. destruct (ValidWgKey key') eqn:Ev; cbn [negb]; [|repeat split; [by left|lia]].
  destruct (FromNpub npub) as [a|e] eqn:Ea; [|repeat split; [|lia]; intros a; congruence].
  pose proof (peer_account_spec cap sess npub a d) as Hp. destruct (peer_account cap sess npub a d) as [acct|e].
  - destruct Hp as (H1 & H2 & H3). pose proof (alloc_spec pools attempts key' (db_wgpeers d) (db_wgseq d)) as Hal.
    destruct (alloc _ _ _ _ _) as [[i|e] s].
    + destruct Hal as (k & Hk & -> & -> & F1 & F2 & F3). eexists a, acct, _, k. repeat (split; [done|]). done.
    + destruct Hal as (Hs & [[-> H]|[-> H]]); (split; [|done]); [exact H|by right].
  - split; [|repeat split; lia]. destruct Hp as [[-> H]|[[-> H]|[-> H]]]; [done|by exists a..].
Qed.

(** ** The table over time *)

Definition wg_columns (n : node) : option gostr * option gostr := (nd_wg_pubkey n, nd_wg_endpoint n).

(** What a node may have announced. *)
Definition announce_ok (c : option gostr * option gostr) : Prop :=
  match c with
  | (Some k, Some e) => ValidWgKey k = true /\ validWgEndpoint e = true
  | (None, None) => True
  | _ => False
  end.

(** A step: a peer issued or removed, a node announcing itself or falling silent,
    or anything that leaves these columns alone (accounts, sales, usage, time,
    nodes enrolling and reporting). *)
Inductive wg_step (pools : WgPools) (cap : Z) (d : db) : db -> Prop :=
| wg_create sess npub label key : wg_step pools cap d (CreateWgPeer pools cap sess npub label key d).2
| wg_delete sess id : wg_step pools cap d (DeleteWgPeer sess id d).2
| wg_announce nodeID pubkey endpoint : wg_step pools cap d (SetNodeWg nodeID pubkey endpoint d).2
| wg_silent nodeID : wg_step pools cap d (ClearNodeWg nodeID d).2
| wg_other d' : db_wgpeers d' = db_wgpeers d -> db_wgseq d' = db_wgseq d -> db_next d <= db_next d' ->
    (forall n', n' ∈ db_nodes d' -> wg_columns n' = (None, None) \/ exists n, n ∈ db_nodes d /\ wg_columns n' = wg_columns n) ->
    wg_step pools cap d d'.

Definition wg_reachable (pools : WgPools) (cap : Z) (d : db) : Prop := exists t, rtc (wg_step pools cap) (empty_db t) d.

Definition peer_ok (pools : WgPools) (d : db) (q : wg_peer) : Prop :=
  2 <= wq_idx q <= slots pools + 1 /\ ValidWgKey (wq_pubkey q) = true /\ FromNpub (wq_npub q) = Ok (wq_addr q) /\
  wq_id q < db_next d.

Record wg_ok (pools : WgPools) (cap : Z) (d : db) : Prop := {
  go_idx : NoDup (wq_idx <$> db_wgpeers d);
  go_keys : NoDup (wq_pubkey <$> db_wgpeers d);
  go_ids : NoDup (wq_id <$> db_wgpeers d);
  go_rows : Forall (peer_ok pools d) (db_wgpeers d);
  go_cap : forall a, peers_of a d <= cap;
  go_seq : 0 <= db_wgseq d;
  go_nodes : forall n, n ∈ db_nodes d -> announce_ok (wg_columns n)
}.

Lemma NoDup_snoc {A} (l : list A) x : NoDup l -> x ∉ l -> NoDup (l ++ [x]).
Proof. intros H1 H2. apply NoDup_app. repeat split; [done| |apply NoDup_singleton]. intros y Hy ->%list_elem_of_singleton. done. Qed.

Lemma peer_ok_weaken pools d d' q : db_next d <= db_next d' -> peer_ok pools d q -> peer_ok pools d' q.
Proof. intros Hn (H1 & H2 & H3 & H4). repeat split; try done; lia. Qed.

Lemma count_rows_app {A} (p : A -> bool) l l' : count_rows p (l ++ l') = count_rows p l + count_rows p l'.
Proof. unfold count_rows. rewrite filter_app, length_app. lia. Qed.

Lemma create_ok pools cap sess npub label key d : pools_ok pools -> wg_ok pools cap d ->
  wg_ok pools cap (CreateWgPeer pools cap sess npub label key d).2.
Proof.
  intros Hp [I1 I2 I3 I4 I5 I6 I7]. pose proof (CreateWgPeer_run pools cap sess npub label key d) as H. cbn zeta in H.
  destruct (CreateWgPeer _ _ _ _ _ _ d) as [[p|e] d']; cbn [snd].
  - destruct H as (a & acct & q & k & Ea & _ & _ & Hc & Hv & Hk & Hkb & Ht & _ & _ & Eq & Es & _ & En & Eqa & Eqk & Eqi & Eid & Enx & Enn).
    split; rewrite ?Eq, ?fmap_app; cbn [fmap list_fmap].
    + rewrite Eqi. by apply NoDup_snoc.
    + rewrite Eqk. by apply NoDup_snoc.
    + rewrite Eid. apply NoDup_snoc; [done|]. intros (x & Ex & Hx)%list_elem_of_fmap. rewrite Forall_forall in I4.
      destruct (I4 x Hx) as (_ & _ & _ & ?). lia.
    + apply Forall_app. split; [eapply Forall_weaken; [exact I4|]; intros x; apply peer_ok_weaken; lia|].
      apply Forall_singleton. unfold peer_ok. rewrite Eqi, Eqk, En, Eqa, Eid, Enx. repeat split; try done; try lia; apply slot_bounds; lia || done.
    + intros b. unfold peers_of. rewrite Eq, count_rows_app. specialize (I5 b). fold (peers_of b d).
      unfold count_rows. rewrite filter_cons, filter_nil. destruct (decide _) as [Hb|_]; cbn; [|lia].
      bool_hyps. subst b. rewrite Eqa. lia.
    + lia.
    + by rewrite Enn.
  - destruct H as (_ & E1 & E2 & E3 & E4). split; unfold peers_of; rewrite ?E1, ?E4; try done; [|lia].
    eapply Forall_weaken; [exact I4|]. intros x. apply peer_ok_weaken. lia.
Qed.

Lemma count_rows_delete {A} (p c : A -> bool) l : count_rows p (delete_rows c l) <= count_rows p l.
Proof.
  unfold count_rows, delete_rows. induction l as [|x l IH]; [done|]. rewrite !filter_cons.
  repeat (destruct (decide _); rewrite ?filter_cons); cbn [length]; try done; lia.
Qed.

Lemma delete_ok pools cap sess id d : wg_ok pools cap d -> wg_ok pools cap (DeleteWgPeer sess id d).2.
Proof.
  intros [I1 I2 I3 I4 I5 I6 I7]. unfold DeleteWgPeer, inTx, mbind, tx_bind, tx_get. destruct (existsb _ _); [|done].
  unfold tx_modify. cbn [snd]. set (c := controls d sess id).
  assert (Hs : sublist (delete_rows c (db_wgpeers d)) (db_wgpeers d)) by apply sublist_filter.
  split; cbn [db_wgpeers set_wgpeers db_next db_wgseq].
  - by eapply sublist_NoDup; [|apply fmap_sublist].
  - by eapply sublist_NoDup; [|apply fmap_sublist].
  - by eapply sublist_NoDup; [|apply fmap_sublist].
  - by apply Forall_filter_weaken.
  - intros a. etrans; [|apply (I5 a)]. unfold peers_of. cbn [db_wgpeers set_wgpeers].
    apply count_rows_delete.
  - done.
  - done.
Qed.

Lemma nodes_update_ok pools cap d p f : wg_ok pools cap d -> (forall n, announce_ok (wg_columns (f n))) ->
  wg_ok pools cap (set_nodes (update_rows p f (db_nodes d)) d).
Proof.
  intros [I1 I2 I3 I4 I5 I6 I7] Hf. split; try done. cbn [db_nodes set_nodes].
  intros n (m & Hm & ->)%elem_of_update_rows. destruct (p m); auto.
Qed.

Lemma wg_reachable_ok pools cap d : pools_ok pools -> 0 < cap -> wg_reachable pools cap d -> wg_ok pools cap d.
Proof.
  intros Hp Hc [t H]. assert (H0 : wg_ok pools cap (empty_db t)).
  { split; try apply NoDup_nil_2; try apply Forall_nil_2; cbn; try lia.
    - intros a. unfold peers_of, count_rows. cbn. lia.
    - intros n Hn. by apply elem_of_nil in Hn. }
  induction H as [d|d d1 d' Hstep _ IH]; [done|]. apply IH. destruct Hstep as [sess npub label key|sess id|i k e|i|d1 E1 E2 E3 E4].
  - by apply create_ok.
  - by apply delete_ok.
  - unfold SetNodeWg. destruct (ValidWgKey _) eqn:Ek; [|done]. destruct (validWgEndpoint _) eqn:Ee; [|done].
    by apply nodes_update_ok.
  - by apply nodes_update_ok.
  - destruct H0 as [I1 I2 I3 I4 I5 I6 I7]. split; unfold peers_of in *; rewrite ?E1, ?E2; try done.
    + eapply Forall_weaken; [exact I4|]. intros x. by apply peer_ok_weaken.
    + intros n Hn. destruct (E4 n Hn) as [->|(m & Hm & ->)]; [done|auto].
Qed.

(** ** Theorems *)

(** Issuing a peer, on every path.  It succeeds only for a valid, unused key
    and an identity the session may act for that is active on some account and
    below the cap; the new row carries the account the identity's address is
    attributed to, so its traffic is billed there, and the first free one of the
    next 64 slots.  Otherwise the table is unchanged and the error names the
    condition that failed; "pool full" is impossible below 64 peers. *)
Theorem CreateWgPeer_spec pools cap sess npub label key d :
  pools_ok pools -> 0 < cap -> wg_reachable pools cap d ->
  issue_outcome pools cap sess npub (TrimSpace key) d (CreateWgPeer pools cap sess npub label key d) /\
  ((length (db_wgpeers d) < 64)%nat -> (CreateWgPeer pools cap sess npub label key d).1 <> Err ErrWgPoolFull).
Proof.
  intros Hp Hc Hd. pose proof (CreateWgPeer_run pools cap sess npub label key d) as H. split; [exact H|]. intros Hl E.
  destruct (CreateWgPeer _ _ _ _ _ _ d) as [r d']. cbn [fst] in E. subst r. destruct H as [H _].
  apply (free_slot pools (db_wgseq d) (db_wgpeers d) Hp); [|done|exact H]. apply (go_seq pools cap), wg_reachable_ok; done.
Qed.

(** A usable inner address pair: inside the pools, and neither the network, the
    broadcast nor the exit's own address. *)
Definition usable (pools : WgPools) (p : WgPeer) : Prop :=
  (exists n, wp_IP4 p = Addr4 (Masked 32 (Pool4 pools) + n) /\ 1 < n < hosts 32 (Pool4 pools) - 1) /\
  (exists n, wp_IP6 p = Addr6 (Masked 128 (Pool6 pools) + n) [] /\ 1 < n < hosts 128 (Pool6 pools)) /\
  wp_IP4 p <> Gateway4 pools /\ wp_IP6 p <> Gateway6 pools.

Lemma peer_view_addrs pools q : pools_ok pools -> 2 <= wq_idx q <= slots pools + 1 ->
  wp_IP4 (peer_view pools q) = Addr4 (Masked 32 (Pool4 pools) + wq_idx q) /\
  wp_IP6 (peer_view pools q) = Addr6 (Masked 128 (Pool6 pools) + wq_idx q) [].
Proof.
  intros Hp Hi. destruct (slots_bounds pools Hp) as (H1 & H2 & H3). destruct Hp as [H4 H6]. cbn [wp_IP4 wp_IP6 peer_view].
  split; [apply offset4_eq|apply offset6_eq]; done || lia.
Qed.

Lemma peer_usable pools q : pools_ok pools -> 2 <= wq_idx q <= slots pools + 1 -> usable pools (peer_view pools q).
Proof.
  intros Hp Hi. destruct (slots_bounds pools Hp) as (H1 & H2 & H3). pose proof (hosts6 _ (proj2 Hp)) as H6.
  destruct (peer_view_addrs pools q Hp Hi) as [E4 E6]. change (2 ^ 24) with 16777216 in H3. change (2 ^ 64) with 18446744073709551616 in H6.
  unfold usable, Gateway4, Gateway6. rewrite E4, E6. rewrite (offset4_eq (Pool4 pools) 1), (offset6_eq (Pool6 pools) 1) by (try apply Hp; lia).
  split; [exists (wq_idx q); split; [done|lia]|]. split; [exists (wq_idx q); split; [done|lia]|].
  split; intros E; injection E as E; lia.
Qed.

(** [C28] The peer table of every reachable store: inner addresses (v4 and v6) and
    public keys are pairwise distinct, every inner address is inside its pool and
    is never the network, broadcast or gateway address, every key is one that wg
    accepts, and no identity has more peers than the cap. *)
Theorem wg_table_invariant pools cap d :
  pools_ok pools -> 0 < cap -> wg_reachable pools cap d ->
  let l := peer_view pools <$> db_wgpeers d in
  NoDup (wp_IP4 <$> l) /\ NoDup (wp_IP6 <$> l) /\ NoDup (wp_Pubkey <$> l) /\
  Forall (fun p => usable pools p /\ ValidWgKey (wp_Pubkey p) = true /\ FromNpub (wp_Npub p) = Ok (wp_FipsAddr p)) l /\
  forall a, peers_of a d <= cap.
Proof.
  intros Hp Hc Hd l. destruct (wg_reachable_ok pools cap d Hp Hc Hd) as [I1 I2 I3 I4 I5 I6 I7]. rewrite Forall_forall in I4.
  assert (Ha : forall q, q ∈ db_wgpeers d -> 2 <= wq_idx q <= slots pools + 1) by (intros q Hq; by destruct (I4 q Hq)).
  assert (HN : forall f : WgPeer -> Addr, (forall x y, x ∈ db_wgpeers d -> y ∈ db_wgpeers d ->
    f (peer_view pools x) = f (peer_view pools y) -> wq_idx x = wq_idx y) -> NoDup (f <$> l)).
  { intros f Hf. unfold l. rewrite <- list_fmap_compose. apply NoDup_fmap_2_strong; [|by eapply NoDup_fmap_1].
    intros x y Hx Hy E. apply (NoDup_key_inj wq_idx (db_wgpeers d)); auto. }
  split; [|split; [|split; [|split]]].
  - apply HN. intros x y Hx Hy. rewrite (proj1 (peer_view_addrs pools x Hp (Ha x Hx))), (proj1 (peer_view_addrs pools y Hp (Ha y Hy))). intros E. injection E. lia.
  - apply HN. intros x y Hx Hy. rewrite (proj2 (peer_view_addrs pools x Hp (Ha x Hx))), (proj2 (peer_view_addrs pools y Hp (Ha y Hy))). intros E. injection E. lia.
  - unfold l. rewrite <- list_fmap_compose. exact I2.
  - apply Forall_fmap, Forall_forall. intros q Hq. destruct (I4 q Hq) as (_ & H2 & H3 & _). split; [|done]. apply peer_usable; auto.
  - done.
Qed.

(** ** The etag *)

Definition entry (p : WgPeer) : gostr * Addr * Addr := (wp_Pubkey p, wp_IP4 p, wp_IP6 p).
Definition entry_body (x : gostr * Addr * Addr) : gostr := x.1.1 ++ 124 :: addr_String x.1.2 ++ 124 :: addr_String x.2.
Definition entry_ok (x : gostr * Addr * Addr) : Prop :=
  Forall std_plain x.1.1 /\ (addr_wf x.1.2 /\ zoneless x.1.2) /\ (addr_wf x.2 /\ zoneless x.2).

Lemma addr_String_plain a c : addr_wf a -> zoneless a -> c ∈ addr_String a -> c <> 10 /\ c <> 124.
Proof.
  intros H1 H2 Hc. pose proof (addr_String_chars a H1 H2) as HF. rewrite Forall_forall in HF. specialize (HF c Hc).
  unfold addr_char, hex_char, colon, dot in HF. lia.
Qed.

Lemma entry_body_split x : entry_ok x ->
  (10 ∉ entry_body x) /\ Split 124 (entry_body x) = [x.1.1; addr_String x.1.2; addr_String x.2].
Proof.
  destruct x as [[k a] b]. intros (Hk & [Wa Za] & [Wb Zb]). cbn [fst snd] in *. unfold entry_body. cbn [fst snd].
  assert (Hs : forall c, c = 10 \/ c = 124 -> (c ∉ k) /\ (c ∉ addr_String a) /\ (c ∉ addr_String b)).
  { intros c Hc. repeat split; intros Hin.
    - rewrite Forall_forall in Hk. destruct (Hk c Hin) as (? & ? & ? & _). lia.
    - destruct (addr_String_plain a c Wa Za Hin). lia.
    - destruct (addr_String_plain b c Wb Zb Hin). lia. }
  destruct (Hs 10 (or_introl eq_refl)) as (N1 & N2 & N3), (Hs 124 (or_intror eq_refl)) as (M1 & M2 & M3). split.
  - rewrite !elem_of_app, !elem_of_cons, elem_of_app, elem_of_cons. intuition discriminate.
  - rewrite !Split_app, Split_notin by done. done.
Qed.

Lemma etag_input_body l : etag_input l = (entry_body <$> (entry <$> l)) ≫= (fun s => s ++ [10]).
Proof.
  unfold etag_input. induction l as [|p l IH]; [done|]. rewrite bind_cons, IH. cbn [fmap list_fmap]. rewrite bind_cons. f_equal.
  unfold etag_line, entry_body, entry. cbn [fst snd]. repeat (rewrite <- !app_assoc || cbn [app]). done.
Qed.

Lemma etag_input_inj l l' : Forall entry_ok (entry <$> l) -> Forall entry_ok (entry <$> l') ->
  etag_input l = etag_input l' -> (entry <$> l) = (entry <$> l').
Proof.
  intros H H'. rewrite !etag_input_body. intros E. apply (f_equal (Split 10)) in E.
  rewrite !Split_lines in E by (apply Forall_fmap; eapply Forall_weaken; [eassumption|]; intros x Hx; by apply entry_body_split).
  apply app_inj_tail in E as [E _]. revert H H' E. generalize (entry <$> l) (entry <$> l'). clear.
  induction l as [|x l IH]; intros [|y r] H H' E; try done. apply Forall_cons in H as [Hx H], H' as [Hy H'].
  cbn [fmap list_fmap] in E. injection E as E Er. f_equal; [|by apply IH].
  apply (f_equal (Split 124)) in E. rewrite (proj2 (entry_body_split x Hx)), (proj2 (entry_body_split y Hy)) in E.
  destruct x as [[k a] b], y as [[k' a'] b'], Hx as (_ & [Wa _] & [Wb _]), Hy as (_ & [Wa' _] & [Wb' _]). cbn [fst snd] in *.
  injection E as -> Ea Eb. apply addr_String_inj in Ea; [|done..]. apply addr_String_inj in Eb; [|done..]. by subst.
Qed.

(** What the table says: keys and slots. *)
Definition pair_of (q : wg_peer) : gostr * Z := (wq_pubkey q, wq_idx q).
Definition wg_table (d : db) : list (gostr * Z) := pair_of <$> db_wgpeers d.
Definition pair_entry (pools : WgPools) (x : gostr * Z) : gostr * Addr * Addr :=
  (x.1, offset4 (Pool4 pools) x.2, offset6 (Pool6 pools) x.2).

Lemma entry_pair pools (l : list wg_peer) : entry <$> (peer_view pools <$> l) = pair_entry pools <$> (pair_of <$> l).
Proof. rewrite <- !list_fmap_compose. done. Qed.

Lemma slot_entry_ok pools k i : pools_ok pools -> 2 <= i <= slots pools + 1 -> ValidWgKey k = true ->
  entry_ok (pair_entry pools (k, i)).
Proof.
  intros Hp Hi Hk. destruct (slots_bounds pools Hp) as (_ & H2 & H3). pose proof (hosts6 _ (proj2 Hp)) as H6.
  pose proof (masked_bounds 32 24 _ (proj1 Hp) ltac:(lia)). pose proof (masked_bounds 128 64 _ (proj2 Hp) ltac:(lia)).
  change (2 ^ 24) with 16777216 in H3. change (2 ^ 64) with 18446744073709551616 in H6.
  unfold entry_ok, pair_entry. cbn [fst snd]. rewrite offset4_eq, offset6_eq by (try apply Hp; lia). unfold addr_wf, zoneless.
  split; [by apply valid_key_chars|]. repeat split; lia.
Qed.

Lemma pair_entry_ok pools d q : pools_ok pools -> peer_ok pools d q -> entry_ok (pair_entry pools (pair_of q)).
Proof. intros Hp (Hi & Hk & _). by apply slot_entry_ok. Qed.

Lemma pair_entry_inj pools d d' q q' : pools_ok pools -> peer_ok pools d q -> peer_ok pools d' q' ->
  pair_entry pools (pair_of q) = pair_entry pools (pair_of q') -> pair_of q = pair_of q'.
Proof.
  intros Hp (Hi & _) (Hi' & _) E. unfold pair_entry, pair_of in *. cbn [fst snd] in *.
  pose proof (proj1 (peer_view_addrs pools q Hp Hi)) as E1. pose proof (proj1 (peer_view_addrs pools q' Hp Hi')) as E2.
  cbn [wp_IP4 peer_view] in E1, E2. rewrite E1, E2 in E. injection E as -> E _. f_equal. lia.
Qed.

Lemma pairs_entry_inj pools d d' r r' : pools_ok pools -> Forall (peer_ok pools d) r -> Forall (peer_ok pools d') r' ->
  (pair_entry pools <$> (pair_of <$> r)) = (pair_entry pools <$> (pair_of <$> r')) -> (pair_of <$> r) = (pair_of <$> r').
Proof.
  intros Hp. revert r'. induction r as [|q r IH]; intros [|q' r'] H H' E; try done.
  apply Forall_cons in H as [Hq H], H' as [Hq' H']. cbn [fmap list_fmap] in E |- *.
  pose proof (f_equal tail E) as Et. apply (f_equal head) in E. cbn [head tail] in E, Et. f_equal; [|by apply IH].
  apply (pair_entry_inj pools d d'); try done. congruence.
Qed.

Section Etag.
Context (text_le : relation gostr) `{!RelDecision text_le, !TotalOrder text_le}.
#[local] Existing Instance by_pubkey_dec.

Definition sorted_pairs (d : db) : list (gostr * Z) := pair_of <$> merge_sort (by_pubkey text_le) (db_wgpeers d).

Lemma sorted_pairs_perm d : sorted_pairs d ≡ₚ wg_table d.
Proof. unfold sorted_pairs, wg_table. by rewrite merge_sort_Permutation. Qed.

Lemma sorted_pairs_sorted d : StronglySorted (fun x y => text_le x.1 y.1) (sorted_pairs d).
Proof.
  unfold sorted_pairs. apply (StronglySorted_fmap _ (by_pubkey text_le)); [intros x y H; exact H|].
  apply StronglySorted_merge_sort.
  - intros x y z. unfold by_pubkey. apply transitivity.
  - intros x y. unfold by_pubkey. apply total, _.
Qed.

(** Tables with the same members are listed alike. *)
Lemma sorted_pairs_eq pools cap d d' : wg_ok pools cap d -> wg_ok pools cap d' ->
  sorted_pairs d = sorted_pairs d' <-> forall x, x ∈ wg_table d <-> x ∈ wg_table d'.
Proof.
  intros H H'. split; [intros E x; by rewrite <- !sorted_pairs_perm, E|]. intros Hm.
  assert (K : forall d, wg_ok pools cap d -> NoDup (wg_table d).*1) by (intros e He; unfold wg_table; rewrite <- list_fmap_compose; apply He).
  assert (N : forall d, wg_ok pools cap d -> NoDup (wg_table d)) by (intros e He; eapply NoDup_fmap_1, K, He).
  apply (StronglySorted_unique_strong (fun x y => text_le x.1 y.1)); [|apply sorted_pairs_sorted..|].
  - intros x y Hx Hy L1 L2. rewrite sorted_pairs_perm in Hx, Hy. apply Hm in Hx.
    apply (NoDup_key_inj fst (wg_table d')); try done; [by apply K|]. by apply (anti_symm text_le).
  - rewrite !sorted_pairs_perm. apply NoDup_Permutation; auto.
Qed.

Lemma etag_table_iff pools cap d d' l t l' t' :
  pools_ok pools -> wg_ok pools cap d -> wg_ok pools cap d' ->
  (WgPeerTable text_le pools d).1 = Ok (l, t) -> (WgPeerTable text_le pools d').1 = Ok (l', t') ->
  Authzhash.digest_separates (etag_input l) (etag_input l') ->
  t = t' <-> forall x, x ∈ wg_table d <-> x ∈ wg_table d'.
Proof.
  intros Hp Hd Hd'. unfold WgPeerTable, query. cbn [fst].
  intros H H' Hsep. injection H as <- <-. injection H' as <- <-. rewrite <- (sorted_pairs_eq pools cap) by done.
  change (map (peer_view pools)) with (fmap (M := list) (peer_view pools)) in *.
  set (r := merge_sort _ (db_wgpeers d)) in *. set (r' := merge_sort _ (db_wgpeers d')) in *.
  assert (O : forall d, wg_ok pools cap d -> Forall (peer_ok pools d) (merge_sort (by_pubkey text_le) (db_wgpeers d)))
    by (intros e He; rewrite merge_sort_Permutation; apply He).
  pose proof (O d Hd) as Or. pose proof (O d' Hd') as Or'. fold r in Or. fold r' in Or'.
  assert (W : forall d r, Forall (peer_ok pools d) r -> Forall entry_ok (entry <$> (peer_view pools <$> r))).
  { intros e k Hk. rewrite entry_pair, !Forall_fmap. eapply Forall_weaken; [exact Hk|]. intros q. by apply pair_entry_ok. }
  unfold etag, sorted_pairs. fold r r'. split.
  - intros E. apply HexEncode_inj in E; [|apply Forall_take, sum256_bytes..]. apply Hsep, etag_input_inj in E; [|eauto..].
    rewrite !entry_pair in E. by eapply pairs_entry_inj.
  - intros E. do 3 f_equal. rewrite !etag_input_body. do 2 f_equal. by rewrite !entry_pair, E.
Qed.

(** [C29] The etag of the peer table changes exactly when the table does: two
    stores served with the same pools have equal etags if and only if they hold
    the same keys in the same slots, whatever the collation, unless the truncated
    hash collides on these two inputs. *)
Theorem etag_tracks_table pools cap d d' l t l' t' :
  pools_ok pools -> 0 < cap -> wg_reachable pools cap d -> wg_reachable pools cap d' ->
  (WgPeerTable text_le pools d).1 = Ok (l, t) -> (WgPeerTable text_le pools d').1 = Ok (l', t') ->
  Authzhash.digest_separates (etag_input l) (etag_input l') ->
  t = t' <-> forall x, x ∈ wg_table d <-> x ∈ wg_table d'.
Proof. intros Hp Hc Hd%wg_reachable_ok Hd'%wg_reachable_ok; [|done..]. by apply etag_table_iff with cap. Qed.

End Etag.

(** ** Keys, announcements and client configurations *)

(** [C30] [ValidWgKey] accepts exactly the padded base64 texts of 32-byte keys,
    and a key has only one such text, so the unique column pubkey really holds
    each key at most once. *)
Theorem ValidWgKey_canonical k :
  (ValidWgKey k = true <-> exists b, Forall in_u8 b /\ length b = 32%nat /\ k = StdEncode b) /\
  forall k', ValidWgKey k = true -> ValidWgKey k' = true -> StdDecodeStrict k = StdDecodeStrict k' -> k = k'.
Proof.
  split; [apply ValidWgKey_decodes|]. intros k' H H'.
  assert (D : forall k, ValidWgKey k = true -> StdDecodeStrict k = std_decode k).
  { intros c Hc%valid_key_chars. rewrite Forall_forall in Hc. apply StdDecodeStrict_plain; intros Hin; by apply Hc in Hin as (? & ? & _). }
  rewrite !D by done. apply ValidWgKey_decodes in H as (b & Hb & _ & ->), H' as (b' & Hb' & _ & ->).
  rewrite !std_decode_encode by done. congruence.
Qed.

(** Every node on offer has announced a valid key and endpoint within the last
    fifteen minutes. *)
Lemma WgNodes_sound text_le `{!RelDecision text_le} pools cap d n l : wg_ok pools cap d ->
  (WgNodes text_le d).1 = Ok l -> n ∈ l ->
  ValidWgKey (wn_Pubkey n) = true /\ validWgEndpoint (wn_Endpoint n) = true /\
  exists x s, x ∈ db_nodes d /\ nd_id x = wn_ID n /\ nd_wg_seen x = Some s /\ db_now d - s < wgNodeFreshness.
Proof.
  intros Hd. unfold WgNodes, query. cbn [fst]. intros H. injection H as <-. intros (x & Hx & Hv)%list_elem_of_omap.
  rewrite merge_sort_Permutation in Hx. pose proof (go_nodes pools cap d Hd x Hx) as Ha. unfold node_view in Hv.
  unfold announce_ok, wg_columns in Ha. destruct (nd_wg_pubkey x) as [k|]; [|done]. destruct (nd_wg_endpoint x) as [e|]; [|done].
  destruct (nd_wg_seen x) as [s|] eqn:Es; [|done]. destruct (_ && _) eqn:E in Hv; [|done]. injection Hv as <-. bool_hyps.
  repeat split; try apply Ha. exists x, s. repeat split; try done. lia.
Qed.

Lemma Split_ln s r : 10 ∉ s -> Split 10 (ln s ++ r) = s :: Split 10 r.
Proof. intros H. unfold ln. rewrite <- app_assoc. cbn [app]. by apply Split_app. Qed.

Lemma iniSafe_plain v : 10 ∉ iniSafe v.
Proof. unfold iniSafe. intros [H _]%list_elem_of_filter. by vm_compute in H. Qed.

Lemma FormatInt_plain n : 10 ∉ FormatInt n.
Proof.
  assert (H : forall m, 0 <= m -> 10 ∉ FormatUint 10 m).
  { intros m Hm Hin. pose proof (FormatUint10_chars m Hm) as HF. rewrite Forall_forall in HF. specialize (HF 10 Hin).
    unfold dec_char in HF. lia. }
  unfold FormatInt. destruct (n <? 0) eqn:E; bool_hyps; [|apply H; lia]. rewrite elem_of_cons. intros [?|Hin]; [lia|]. apply (H (- n)); [lia|done].
Qed.

Lemma addr_no_newline a : addr_wf a /\ zoneless a -> 10 ∉ addr_String a.
Proof. intros [H1 H2] Hc. by destruct (addr_String_plain a 10 H1 H2 Hc). Qed.

Lemma not_in_app {A} (x : A) l l' : x ∉ l -> x ∉ l' -> x ∉ l ++ l'.
Proof. rewrite elem_of_app. tauto. Qed.

Lemma FromNpub_plain n a : FromNpub n = Ok a -> plain6 a.
Proof. unfold FromNpub. destruct (Npub.DecodeNpub n) as [k|e]; [|discriminate]. intros H. injection H as <-. apply DeriveFacts.FromPubkey_plain6. Qed.

Lemma gateways_wf pools : pools_ok pools -> (addr_wf (Gateway4 pools) /\ zoneless (Gateway4 pools)) /\ (addr_wf (Gateway6 pools) /\ zoneless (Gateway6 pools)).
Proof.
  intros Hp. destruct (slots_bounds pools Hp) as (H1 & H2 & _). pose proof (hosts6 _ (proj2 Hp)) as H6.
  pose proof (masked_bounds 32 24 _ (proj1 Hp) ltac:(lia)). pose proof (masked_bounds 128 64 _ (proj2 Hp) ltac:(lia)).
  change (2 ^ 64) with 18446744073709551616 in H6. unfold Gateway4, Gateway6.
  rewrite offset4_eq, offset6_eq by (try apply Hp; lia). unfold addr_wf, zoneless. repeat split; lia.
Qed.

Create HintDb newline.
#[local] Hint Resolve not_in_app iniSafe_plain FormatInt_plain addr_no_newline : newline.
#[local] Hint Extern 5 (10 ∉ ?l) => is_ground l; (apply (bool_decide_unpack _); vm_compute; exact I) : newline.

(** A client configuration cannot be tampered with: for any peer of a
    reachable store, any node on offer and any portal URL or node name, the text
    has exactly these lines, so no name, label or announced value can add a
    directive of its own. *)
Theorem client_config_lines text_le `{!RelDecision text_le} pools cap d q n l s port mtu pool4 pool6 priv url :
  pools_ok pools -> 0 < cap -> wg_reachable pools cap d -> q ∈ db_wgpeers d ->
  (WgNodes text_le d).1 = Ok l -> n ∈ l ->
  loadWgSettings pool4 pool6 port mtu = Some s -> ws_pools s = pools ->
  (priv = [] \/ ValidWgKey priv = true) ->
  Split 10 (renderWgConfig priv (peer_view pools q) n s url) =
  [bs "[Interface]";
   bs "# fips-exit WireGuard, issued to " ++ iniSafe (wq_npub q) ++ bs " (" ++ addr_String (wq_addr q) ++ bs "). One config per device.";
   bs "# Portal: " ++ iniSafe url ++ bs "/dashboard  (reachable over fips while the tunnel is up: fd00::/8 is excluded below)";
   bs "PrivateKey = " ++ priv;
   bs "Address = " ++ addr_String (Addr4 (Masked 32 (Pool4 pools) + wq_idx q)) ++ bs "/32, " ++
     addr_String (Addr6 (Masked 128 (Pool6 pools) + wq_idx q) []) ++ bs "/128";
   bs "DNS = " ++ addr_String (Gateway4 pools) ++ bs ", " ++ addr_String (Gateway6 pools);
   bs "MTU = " ++ FormatInt mtu;
   [];
   bs "[Peer]";
   bs "# " ++ iniSafe (wn_Name n);
   bs "PublicKey = " ++ wn_Pubkey n;
   bs "Endpoint = " ++ iniSafe (wn_Endpoint n);
   bs "AllowedIPs = " ++ wgAllowedIPs;
   bs "PersistentKeepalive = 25";
   []].
Proof.
  intros Hp Hc Hd%wg_reachable_ok Hq Hl Hn Hs Epools Hpriv; [|done..].
  destruct (WgNodes_sound text_le pools cap d n l Hd Hl Hn) as (Hk & _ & _).
  pose proof (go_rows pools cap d Hd) as Hrows. rewrite Forall_forall in Hrows. destruct (Hrows q Hq) as (Hi & _ & Ha & _).
  assert (Es : ws_dns4 s = Gateway4 pools /\ ws_dns6 s = Gateway6 pools /\ ws_mtu s = mtu).
  { unfold loadWgSettings in Hs. destruct (_ || _) in Hs; [done|]. by injection Hs as <-; cbn in Epools |- *; subst pools. }
  destruct Es as (E4 & E6 & Em). destruct (peer_view_addrs pools q Hp Hi) as [V4 V6].
  destruct (gateways_wf pools Hp) as [W4 W6].
  assert (Wq : entry_ok (pair_entry pools (pair_of q))) by exact (pair_entry_ok pools d q Hp (Hrows q Hq)).
  destruct Wq as (_ & Q4 & Q6). cbn [fst snd pair_entry pair_of] in Q4, Q6.
  change (offset4 (Pool4 pools) (wq_idx q)) with (wp_IP4 (peer_view pools q)) in Q4.
  change (offset6 (Pool6 pools) (wq_idx q)) with (wp_IP6 (peer_view pools q)) in Q6. rewrite V4 in Q4. rewrite V6 in Q6.
  assert (Wa : addr_wf (wq_addr q) /\ zoneless (wq_addr q)) by (apply plain6_wf, (FromNpub_plain (wq_npub q)); exact Ha).
  assert (Nk : forall k, ValidWgKey k = true -> 10 ∉ k).
  { intros k H%valid_key_chars Hin. rewrite Forall_forall in H. by destruct (H 10 Hin). }
  assert (Np : 10 ∉ priv) by (destruct Hpriv as [->|H]; [apply not_elem_of_nil|auto]).
  assert (Nn : 10 ∉ wn_Pubkey n) by auto.
  match goal with |- _ = ?L => change L with (take 14 L ++ [[]]) end. cbn [take].
  rewrite <- (Split_lines 10) by (repeat (apply Forall_cons_2; [auto 12 with newline|]); apply Forall_nil_2).
  f_equal. unfold renderWgConfig, ln. rewrite V4, V6, E4, E6, Em. cbn [wp_Npub wp_FipsAddr peer_view].
  rewrite !bind_cons. cbn [mbind list_bind]. rewrite app_nil_r, <- !app_assoc. done.
Qed.

End WgFacts.
