(* ===== verification/BackendSummary.v ===== *)
(** * backend/store: what the dashboard reads

    Models backend/store/portal.go.  A sum over a bigint column is a numeric in
    PostgreSQL: [numeric] keeps its digits and scale, and the division by 1e6 its
    documented result scale.  How the driver reads a numeric into an int64 is an
    argument, with what the code relies on as a class.  Text is ordered by the
    database's collation. *)

From S2P Require Import Prelude GoStrings Netip BackendDB BackendAuthz BackendUsage BackendWhitelist BackendPayments.
Import DB Authz Usage Whitelist Payments.

Module Summary.

(** ** numeric *)

(** [nm_digits / 10 ^ nm_scale] *)
Record numeric := { nm_digits : Z; nm_scale : Z }.

Definition num_int (z : Z) : numeric := {| nm_digits := z; nm_scale := 0 |}.

Definition num_add (x y : numeric) : numeric :=
  let s := Z.max (nm_scale x) (nm_scale y) in
  {| nm_digits := nm_digits x * 10 ^ (s - nm_scale x) + nm_digits y * 10 ^ (s - nm_scale y); nm_scale := s |}.

(** The weight and the first digit of a non-negative integer in base 10000. *)
Definition nbase_weight (n : Z) : Z := (Z.of_nat (length (FormatUint 10 n)) - 1) / 4.
Definition nbase_first (n : Z) : Z := n / 10000 ^ nbase_weight n.

(** The scale of [n / 1000000]: at least 16 significant digits. *)
Definition div_scale (n : Z) : Z :=
  let qweight := nbase_weight n - nbase_weight 1000000 in
  let qweight := if nbase_first n <=? nbase_first 1000000 then qweight - 1 else qweight in
  Z.min 1000 (Z.max 0 (16 - 4 * qweight)).

(** [n / 1000000] for an integral [n >= 0], rounded half up at that scale. *)
Definition num_div_million (n : Z) : numeric :=
  {| nm_digits := (2 * n * 10 ^ div_scale n + 1000000) / 2000000; nm_scale := div_scale n |}.

(** The driver: [Scan] of a numeric into an int64 gives the integer, and an error
    when there is a fraction to lose. *)
Class Driver := {
  scan_int64 : numeric -> option Z;
  scan_integral : forall z, in_i64 z -> scan_int64 (num_int z) = Some z;
  scan_whole : forall z s, 0 <= s -> in_i64 z -> scan_int64 {| nm_digits := z * 10 ^ s; nm_scale := s |} = Some z;
  scan_fraction : forall m s, 0 <= s -> m mod 10 ^ s <> 0 -> scan_int64 {| nm_digits := m; nm_scale := s |} = None
}.

Definition scanned {A} (o : option A) : Store A := match o with Some a => mret a | None => fail ErrScan end.

Fixpoint scan_rows {A B} (scan : A -> option B) (l : list A) : option (list B) :=
  match l with
  | [] => Some []
  | x :: r => v ← scan x; vs ← scan_rows scan r; Some (v :: vs)
  end.

(** ** portal.go *)

Record EntitlementView := {
  ew_Kind : gostr; ew_Name : gostr; ew_VolumeBytes : Z; ew_VolumeUsed : Z; ew_StartsAt : Z; ew_ExpiresAt : Z; ew_Active : bool
}.

Definition Remaining (e : EntitlementView) : Z :=
  if negb (bool_decide (ew_Kind e = bs "volume")) then 0
  else if ew_VolumeBytes e <? ew_VolumeUsed e then 0
  else i64 (ew_VolumeBytes e - ew_VolumeUsed e).

Record WhitelistView := {
  ww_Npub : gostr; ww_Label : gostr; ww_Role : role; ww_Enabled : bool; ww_Pending : bool; ww_Addr : Addr
}.

Record ServiceUsage := { su_Key : gostr; su_Name : gostr; su_RatePPM : Z; su_Metered : Z; su_Billed : Z }.

Record AccountSummary := {
  as_Account : account;
  as_Entitlements : list EntitlementView;
  as_Whitelist : list WhitelistView;
  as_Open : list PurchaseView;
  as_Services : list ServiceUsage;
  as_UsageBytes : Z;
  as_Invites : list Invite;
  as_AttachedTo : option gostr
}.

(** *** Usage *)

Definition sample_bytes (d : db) (acct : Z) : list (option Z * Z) :=
  omap (fun s => if bool_decide (sm_account s = Some acct) then Some (sm_service s, sm_bytes s) else None) (db_samples d).

Definition daily_bytes (d : db) (acct : Z) : list (option Z * Z) :=
  omap (fun kv => let '(a, _, sv) := kv.1 in if a =? acct then Some (Some sv, kv.2) else None) (map_to_list (db_daily d)).

(** The bytes one service has in a list of rows: the row of [GROUP BY service_id]
    for it, if there is one. *)
Definition group_sum (sv : Z) (l : list (option Z * Z)) : option Z :=
  match filter (fun r => r.1 = Some sv) l with [] => None | rows => Some (zsum snd rows) end.

(** The rows of [raw] joined with one service. *)
Definition raw_rows (d : db) (acct sv : Z) : list Z :=
  omap (group_sum sv) [sample_bytes d acct; daily_bytes d acct].

Definition num_sum (l : list numeric) : numeric := foldr num_add (num_int 0) l.

Section Summary.
Context `{Driver} (text_le : relation gostr) `{!RelDecision text_le}.

Definition by_service_key (x y : service) : Prop := text_le (sv_key x) (sv_key y).
#[local] Instance by_service_key_dec : RelDecision by_service_key.
Proof. intros x y. unfold by_service_key. apply _. Defined.

Definition service_usage (d : db) (acct : Z) (sv : service) : option ServiceUsage :=
  let raw := raw_rows d acct (sv_id sv) in
  metered ← scan_int64 (num_sum (map num_int raw));
  billed ← scan_int64 (num_sum (map (fun b => num_div_million (b * sv_rate sv)) raw));
  Some {| su_Key := sv_key sv; su_Name := sv_name sv; su_RatePPM := sv_rate sv; su_Metered := metered; su_Billed := billed |}.

Definition UsageByService (acct : Z) : Store (list ServiceUsage) := fun d =>
  scanned (scan_rows (service_usage d acct)
    (merge_sort by_service_key (filter (fun s => sv_enabled s = true) (db_services d)))) d.

(** *** NpubByAddr *)

Definition owner_first (x y : wl) : Prop := is_role owner x = true \/ is_role owner y = false.
#[local] Instance owner_first_dec : RelDecision owner_first.
Proof. intros x y. unfold owner_first. apply _. Defined.

Definition NpubByAddr (a : Addr) : Store gostr := fun d =>
  match merge_sort owner_first (filter (fun w => at_addr a w && active_row w = true) (db_whitelist d)) with
  | w :: _ => (Ok (w_npub w), d)
  | [] => (Err ErrAccountNotFound, d)
  end.

(** *** Summary *)

Definition by_expiry (x y : entitlement) : Prop := en_expires x <= en_expires y.
#[local] Instance by_expiry_dec : RelDecision by_expiry.
Proof. intros x y. unfold by_expiry. apply _. Defined.

(** The [active] column: NULL for a current row that is not a time pass and has
    no volume. *)
Definition active_column (t : Z) (e : entitlement) : option bool :=
  if (en_starts e <=? t) && (t <=? en_expires e) then
    if bool_decide (en_kind e = bs "time") then Some true
    else match en_volume e with Some v => Some (en_used e <? v) | None => None end
  else Some false.

Definition package_name (d : db) (e : entitlement) : gostr :=
  default [] (
    i ← en_purchase e;
    p ← find_row (by_id i) (db_purchases d);
    k ← find_row (fun k => pk_id k =? pu_package p) (db_packages d);
    Some (pk_name k)).

Definition entitlement_view (d : db) (e : entitlement) : option EntitlementView :=
  active ← active_column (db_now d) e;
  Some {| ew_Kind := en_kind e; ew_Name := package_name d e; ew_VolumeBytes := default 0 (en_volume e); ew_VolumeUsed := en_used e;
          ew_StartsAt := en_starts e; ew_ExpiresAt := en_expires e; ew_Active := active |}.

Definition by_role_age (x y : wl) : Prop :=
  if is_role owner x then if is_role owner y then w_created x <= w_created y else True
  else if is_role owner y then False else w_created x <= w_created y.
#[local] Instance by_role_age_dec : RelDecision by_role_age.
Proof. intros x y. unfold by_role_age. destruct (is_role owner x), (is_role owner y); apply _. Defined.

Definition whitelist_view (w : wl) : WhitelistView :=
  {| ww_Npub := w_npub w; ww_Label := default [] (w_label w); ww_Role := w_role w; ww_Enabled := w_enabled w;
     ww_Pending := w_pending w; ww_Addr := w_addr w |}.

(** The sum over samples and over days, 0 where there are no rows. *)
Definition usage_bytes (d : db) (acct : Z) : numeric :=
  num_add (num_int (zsum snd (sample_bytes d acct))) (num_int (zsum snd (daily_bytes d acct))).

Definition load_entitlements (acct : Z) : Store (list EntitlementView) := fun d =>
  scanned (scan_rows (entitlement_view d)
    (merge_sort by_expiry (filter (fun e => (en_account e =? acct) = true) (db_entitlements d)))) d.

Definition load_whitelist (acct : Z) : Store (list WhitelistView) :=
  query (fun d => map whitelist_view (merge_sort by_role_age (filter (fun w => (w_account w =? acct) = true) (db_whitelist d)))).

Definition Summary (npub : gostr) : Store AccountSummary :=
  acct ← GetAccountByNpub npub;
  ents ← load_entitlements (ac_id acct);
  wls ← load_whitelist (ac_id acct);
  bytes ← (fun d => scanned (scan_int64 (usage_bytes d (ac_id acct))) d);
  open ← OpenPurchases npub;
  svc ← UsageByService (ac_id acct);
  invites ← PendingInvites npub;
  attached ← AttachedTo (ac_id acct) (ac_addr acct);
  mret {| as_Account := acct; as_Entitlements := ents; as_Whitelist := wls; as_Open := open; as_Services := svc;
          as_UsageBytes := bytes; as_Invites := invites; as_AttachedTo := attached |}.

End Summary.
End Summary.
