(* ===== verification/BackendSummaryFacts.v ===== *)
(** * Theorems about the dashboard's data

    The summary calls an account active exactly when the exit would serve it; and
    a balance drawn at a fractional rate makes the whole summary fail. *)

From S2P Require Import Prelude GoStrings Netip BackendDB BackendAuthz BackendUsage BackendWhitelist BackendWhitelistFacts.
From S2P Require Import BackendConsent BackendPayments BackendPaymentsFacts BackendSummary.
Import DB Authz Usage Whitelist WhitelistFacts Consent Payments PaymentsFacts Summary.

Module SummaryFacts.

Lemma scan_rows_Forall2 {A B} (scan : A -> option B) l l' : scan_rows scan l = Some l' -> Forall2 (fun x y => scan x = Some y) l l'.
Proof.
  revert l'. induction l as [|x l IH]; intros l'; cbn; [intros [= <-]; constructor|].
  destruct (scan x) as [v|] eqn:E; [|done]. cbn. destruct (scan_rows scan l) as [vs|]; [|done]. cbn. intros [= <-].
  constructor; [done|by apply IH].
Qed.

Lemma scan_rows_None {A B} (scan : A -> option B) l x : x ∈ l -> scan x = None -> scan_rows scan l = None.
Proof.
  intros Hx E. induction l as [|y l IH]; [by apply elem_of_nil in Hx|]. cbn. apply elem_of_cons in Hx as [->|Hx]; [by rewrite E|].
  destruct (scan y); [|done]. cbn. by rewrite IH.
Qed.

Section Facts.
Context `{DR : Driver} (text_le : relation gostr) `{!RelDecision text_le}.

(** ** Activity *)

Lemma active_column_eq t e b : active_column t e = Some b -> b = entitlement_active t e.
Proof.
  unfold active_column, entitlement_active. destruct (_ && _); cbn [andb]; [|congruence].
  case_bool_decide; cbn [orb]; [congruence|]. destruct (en_volume e); congruence.
Qed.

Lemma existsb_perm {A} (f : A -> bool) l l' : l ≡ₚ l' -> existsb f l = existsb f l'.
Proof.
  intros H. apply eq_true_iff_eq. rewrite !existsb_exists. setoid_rewrite <- list_elem_of_In. by setoid_rewrite H.
Qed.

Lemma existsb_filter {A} (f g : A -> bool) l : existsb f (filter (fun x => g x = true) l) = existsb (fun x => g x && f x) l.
Proof.
  induction l as [|x l IH]; [done|]. cbn. rewrite <- IH. by destruct (g x).
Qed.

Lemma load_active acct d ents : (load_entitlements acct d).1 = Ok ents -> existsb ew_Active ents = has_entitlement d acct.
Proof.
  unfold load_entitlements, has_entitlement. set (l := merge_sort _ _).
  assert (Hl : existsb (entitlement_active (db_now d)) l = existsb (fun e => (en_account e =? acct) && entitlement_active (db_now d) e) (db_entitlements d)).
  { unfold l. rewrite (existsb_perm _ _ _ (merge_sort_Permutation _ _)). apply existsb_filter. }
  rewrite <- Hl. clearbody l. destruct (scan_rows _ l) as [vs|] eqn:E; [|done]. cbn. intros [= <-].
  apply scan_rows_Forall2 in E. clear Hl. induction E as [|e v l vs Ev _ IH]; [done|]. cbn. rewrite IH. f_equal.
  unfold entitlement_view in Ev. destruct (active_column _ e) as [b|] eqn:Ea; [|done]. cbn in Ev. injection Ev as <-.
  by apply active_column_eq in Ea.
Qed.

(** A bind whose first call is a read. *)
Lemma store_bind_Ok {A B} (m : Store A) (f : A -> Store B) d b : ((m ≫= f) d).1 = Ok b ->
  exists a, (m d).1 = Ok a /\ (f a (m d).2).1 = Ok b.
Proof. unfold mbind, store_bind. destruct (m d) as [[a|e] d1]; [|done]. cbn. eauto. Qed.

Lemma Summary_active npub d s : (Summary text_le npub d).1 = Ok s ->
  account_of d npub = Some (ac_id (as_Account s)) /\ existsb ew_Active (as_Entitlements s) = has_entitlement d (ac_id (as_Account s)).
Proof.
  unfold Summary. intros H. apply store_bind_Ok in H as (a & Ea & H).
  destruct (account_run npub d) as [(a' & E & _ & _ & Eo)|E]; rewrite E in Ea, H; [|done]. injection Ea as ->. cbn [snd] in H.
  apply store_bind_Ok in H as (ents & Ee & H).
  assert (Er : (load_entitlements (ac_id a) d).2 = d) by (unfold load_entitlements; by destruct (scan_rows _ _)). rewrite Er in H. clear Er.
  repeat match goal with H : ((_ ≫= _) _).1 = Ok _ |- _ => apply store_bind_Ok in H as (? & _ & H) end.
  cbn in H. injection H as <-. cbn. split; [done|]. by apply load_active.
Qed.

(** ** Fractions *)

Lemma FormatUint_len n : 0 <= n < 10 ^ 16 -> (length (FormatUint 10 n) <= 16)%nat.
Proof.
  assert (H : forall k f m, 0 <= m < 10 ^ (Z.of_nat k + 1) -> (length (format_digits f 10 m) <= S k)%nat).
  { induction k as [|k IH]; intros f m Hm; (destruct f as [|f]; [cbn; lia|]); cbn [format_digits]; destruct (m <? 10) eqn:E; bool_hyps; try (cbn; lia).
    rewrite length_app. cbn [length]. enough (length (format_digits f 10 (m / 10)) <= S k)%nat by lia. apply IH. split; [apply Z.div_pos; lia|].
    apply Z.div_lt_upper_bound; [lia|]. replace (10 * 10 ^ (Z.of_nat k + 1)) with (10 ^ (Z.of_nat (S k) + 1)); [lia|].
    rewrite Nat2Z.inj_succ, <- Z.add_1_r, (Z.pow_add_r 10 (Z.of_nat k + 1) 1) by lia. lia. }
  intros Hn. apply (H 15%nat). exact Hn.
Qed.

(** Below 10^16 the quotient has at least six decimals, so it is exact. *)
Lemma div_exact n : 0 <= n < 10 ^ 16 -> 6 <= div_scale n /\ nm_digits (num_div_million n) = n * 10 ^ (div_scale n - 6).
Proof.
  intros Hn. assert (Hs : 6 <= div_scale n).
  { unfold div_scale. pose proof (FormatUint_len n Hn) as Hl. assert (Hw : nbase_weight n <= 3).
    { unfold nbase_weight. apply Z.lt_succ_r. change (Z.succ 3) with 4. apply Z.div_lt_upper_bound; lia. }
    change (nbase_weight 1000000) with 1. cbn zeta. destruct (_ <=? _); lia. }
  split; [done|]. unfold num_div_million. cbn [nm_digits].
  replace (10 ^ div_scale n) with (10 ^ (div_scale n - 6) * 1000000) by (change 1000000 with (10 ^ 6); rewrite <- Z.pow_add_r by lia; f_equal; lia).
  set (k := 10 ^ (div_scale n - 6)). replace (2 * n * (k * 1000000) + 1000000) with (1000000 + n * k * 2000000) by lia.
  rewrite Z.div_add by lia. change (1000000 / 2000000) with 0. lia.
Qed.

Lemma fraction_not_scanned n : 0 <= n < 10 ^ 16 -> n mod 1000000 <> 0 -> scan_int64 (num_sum [num_div_million n]) = None.
Proof.
  intros Hn Hm. destruct (div_exact n Hn) as [Hs Hd]. unfold num_sum, foldr, num_add.
  change (nm_scale (num_div_million n)) with (div_scale n). cbn [nm_scale nm_digits num_int]. rewrite Hd, Z.max_l, Z.sub_diag by lia.
  apply scan_fraction; [lia|]. replace (n * 10 ^ (div_scale n - 6) * 10 ^ 0 + 0 * 10 ^ (div_scale n - 0)) with (n * 10 ^ (div_scale n - 6)) by lia.
  assert (Ep : 10 ^ div_scale n = 1000000 * 10 ^ (div_scale n - 6)) by (change 1000000 with (10 ^ 6); rewrite <- Z.pow_add_r by lia; f_equal; lia).
  rewrite Ep, Z.mul_mod_distr_r by (pose proof (Z.pow_pos_nonneg 10 (div_scale n - 6)); lia).
  pose proof (Z.pow_pos_nonneg 10 (div_scale n - 6) ltac:(lia) ltac:(lia)). nia.
Qed.

(** An account with usage whose weighted amount is not a whole number of bytes
    (an odd byte count on a service at rate 1.5, say) cannot be summarized: the
    dashboard, the status check and the captive page lose the account's data. *)
Theorem Summary_fraction_fails npub d acct sv b :
  account_of d npub = Some acct -> sv ∈ db_services d -> sv_enabled sv = true -> raw_rows d acct (sv_id sv) = [b] ->
  0 <= b * sv_rate sv < 10 ^ 16 -> (b * sv_rate sv) mod 1000000 <> 0 -> exists e, (Summary text_le npub d).1 = Err e.
Proof.
  intros Ha Hsv Hen Hraw Hb Hm. destruct (Summary text_le npub d).1 as [s|e] eqn:E; [exfalso|by exists e].
  unfold Summary in E. apply store_bind_Ok in E as (a & Ea & E).
  destruct (account_run npub d) as [(a' & Eg & _ & _ & Eo)|Eg]; rewrite Eg in Ea, E; [|done]. injection Ea as ->. cbn [snd] in E.
  assert (ac_id a = acct) as Eid by congruence.
  apply store_bind_Ok in E as (ents & Ee & E).
  assert (Er : (load_entitlements (ac_id a) d).2 = d) by (unfold load_entitlements; by destruct (scan_rows _ _)). rewrite Er in E. clear Er.
  apply store_bind_Ok in E as (wls & _ & E). cbn [load_whitelist query snd] in E. apply store_bind_Ok in E as (by_ & _ & E).
  assert (Er : (scanned (scan_int64 (usage_bytes d (ac_id a))) d).2 = d) by (by destruct (scan_int64 _)). rewrite Er in E. clear Er.
  apply store_bind_Ok in E as (op & _ & E). cbn [OpenPurchases query snd] in E. apply store_bind_Ok in E as (svc & Es & _).
  unfold UsageByService in Es. rewrite (scan_rows_None _ _ sv) in Es; [done| |].
  - rewrite merge_sort_Permutation. by apply list_elem_of_filter.
  - unfold service_usage. rewrite Eid, Hraw. destruct (scan_int64 (num_sum (map num_int [b]))); [|done]. cbn [mbind option_bind map].
    by rewrite fraction_not_scanned.
Qed.

End Facts.
End SummaryFacts.
