(* ===== verification/BackendApi.v ===== *)
(** * backend: the agent-facing API

    Models backend/store/nodes.go (enrollment, node credentials, the service
    catalog), the handlers of backend/api.go, [requireNode] of backend/main.go, and
    what [backendClient.do] of agent/client.go makes of a response.  A message is
    its typed content (its bytes are in [SystemWire]); a handler answers with a body, with 204, or with an error
    status.  [uuid_text] is the text of an id. *)

From S2P Require Import Prelude GoStrings Netip Sha256 AgentTypes BackendDB BackendAuthz BackendUsage BackendWg.
Import DB Authz Usage Wg.

Module Api.

(** ** Nodes (store/nodes.go) *)

Definition sha256Hex (s : gostr) : gostr := HexEncode (sum256 s).

(** [randToken] of the bytes rand.Read returned. *)
Definition randToken (rnd : list Z) : gostr := B64Encode rnd.

Definition has_token (token : gostr) (t : enroll_token) : bool := bool_decide (et_hash t = sha256Hex token).

(** token_hash is the primary key. *)
Definition CreateEnrollToken (rnd : list Z) (note : gostr) : Store gostr :=
  let token := randToken rnd in
  inTx (
    l ← tx_get db_tokens;
    if existsb (has_token token) l then tx_fail (UniqueViolation (bs "enroll_tokens_pkey")) else
    tx_modify (fun d => set_tokens (db_tokens d ++
      [{| et_hash := sha256Hex token; et_note := note; et_used := None; et_node := None |}]) d) ;;
    mret token).

Definition use_token (t : Z) (nodeID : Z) (e : enroll_token) : enroll_token :=
  {| et_hash := et_hash e; et_note := et_note e; et_used := Some t; et_node := Some nodeID |}.

Definition EnrollNode (enrollToken nodePubkey name : gostr) (rnd : list Z) : Store (Z * gostr) :=
  inTx (
    l ← tx_get db_tokens;
    match find_row (has_token enrollToken) l with
    | None => tx_fail ErrInvalidEnrollToken
    | Some e =>
        match et_used e with
        | Some _ => tx_fail ErrInvalidEnrollToken
        | None =>
            let authToken := randToken rnd in
            nodeID ← fresh_id;
            tx_modify (fun d => set_nodes (db_nodes d ++
              [{| nd_id := nodeID; nd_name := name; nd_pubkey := nodePubkey; nd_token_hash := sha256Hex authToken;
                  nd_last_seen := None; nd_version := None; nd_wg_pubkey := None; nd_wg_endpoint := None;
                  nd_wg_seen := None |}]) d) ;;
            tx_modify (fun d => set_tokens (update_rows (has_token enrollToken) (use_token (db_now d) nodeID) (db_tokens d)) d) ;;
            mret (nodeID, authToken)
        end
    end).

Definition AuthNode (nodeID : Z) (token : gostr) : Store unit := fun d =>
  match find_row (fun n => nd_id n =? nodeID) (db_nodes d) with
  | None => (Err ErrUnauthorized, d)
  | Some n => if bool_decide (nd_token_hash n = sha256Hex token) then (Ok tt, d) else (Err ErrUnauthorized, d)
  end.

(** *** The service catalog *)

Record Service := { svc_Key : gostr; svc_Port : Z; svc_Rate : Z }.
Record ServiceInfo := { sf_Key : gostr; sf_Name : gostr; sf_Port : Z; sf_RatePPM : Z }.

Definition by_port (x y : service) : Prop := sv_port x <= sv_port y.
#[export] Instance by_port_dec : RelDecision by_port.
Proof. intros x y. unfold by_port. apply _. Defined.

Definition enabled_services (d : db) : list service :=
  merge_sort by_port (filter (fun s => sv_enabled s = true) (db_services d)).

Definition EnabledServices : Store (list ServiceInfo) :=
  query (fun d => map (fun s => {| sf_Key := sv_key s; sf_Name := sv_name s; sf_Port := sv_port s; sf_RatePPM := sv_rate s |})
                    (enabled_services d)).

Definition Services : Store (list Service) :=
  query (fun d => map (fun s => {| svc_Key := sv_key s; svc_Port := sv_port s; svc_Rate := sv_rate s |}) (enabled_services d)).

Definition seen_node (t : Z) (version : gostr) (n : node) : node :=
  {| nd_id := nd_id n; nd_name := nd_name n; nd_pubkey := nd_pubkey n; nd_token_hash := nd_token_hash n;
     nd_last_seen := Some t; nd_version := Some version; nd_wg_pubkey := nd_wg_pubkey n;
     nd_wg_endpoint := nd_wg_endpoint n; nd_wg_seen := nd_wg_seen n |}.

Definition Heartbeat (nodeID : Z) (version : gostr) : Store (list Service) :=
  inTx (tx_modify (fun d => set_nodes (update_rows (fun n => nd_id n =? nodeID) (seen_node (db_now d) version) (db_nodes d)) d)) ;;
  Services.

Definition has_key (key : gostr) (s : service) : bool := bool_decide (sv_key s = key).

(** services.port is UNIQUE. *)
Definition port_free (key : gostr) (port : Z) (l : list service) : bool :=
  negb (existsb (fun s => (sv_port s =? port) && negb (has_key key s)) l).

Definition SeedDefaults : Store unit :=
  inTx (
    l ← tx_get db_services;
    if existsb (has_key (bs "clearnet")) l then mret tt else
    if negb (port_free (bs "clearnet") 1080 l) then tx_fail (UniqueViolation (bs "services_port_key")) else
    id ← fresh_id;
    tx_modify (fun d => set_services (db_services d ++
      [{| sv_id := id; sv_key := bs "clearnet"; sv_name := bs "Connectivity"; sv_port := 1080; sv_rate := 1000000;
          sv_enabled := true |}]) d)).

Definition update_service (name : gostr) (port rate : Z) (enabled : bool) (s : service) : service :=
  {| sv_id := sv_id s; sv_key := sv_key s; sv_name := name; sv_port := port; sv_rate := rate; sv_enabled := enabled |}.

Definition CreateService (key name : gostr) (port ratePPM : Z) (enabled : bool) : Store unit :=
  let ratePPM := if ratePPM <=? 0 then 1000000 else ratePPM in
  inTx (
    l ← tx_get db_services;
    if negb (port_free key port l) then tx_fail (UniqueViolation (bs "services_port_key")) else
    if existsb (has_key key) l
    then tx_modify (fun d => set_services (update_rows (has_key key) (update_service name port ratePPM enabled) (db_services d)) d)
    else id ← fresh_id;
         tx_modify (fun d => set_services (db_services d ++
           [{| sv_id := id; sv_key := key; sv_name := name; sv_port := port; sv_rate := ratePPM; sv_enabled := enabled |}]) d)).

(** ** Requests and replies *)

Inductive reply (A : Type) := NoContent | Body (a : A) | Failed (status : Z).
Arguments NoContent {A}.
Arguments Body {A} a.
Arguments Failed {A} status.

(** [strings.CutPrefix(h, "Bearer ")] *)
Definition bearer (h : gostr) : option gostr :=
  if HasPrefix h (bs "Bearer ") then
    let after := TrimPrefix h (bs "Bearer ") in
    if bool_decide (after = []) then None else Some after
  else None.

(** A handler behind [requireNode]: the answer and the database afterwards. *)
Definition requireNode {A} (auth : gostr) (nodeID : Z) (next : db -> reply A * db) (d : db) : reply A * db :=
  match bearer auth with
  | None => (Failed 401, d)
  | Some token =>
      match AuthNode nodeID token d with
      | (Err _, d) => (Failed 401, d)
      | (Ok _, d) => next d
      end
  end.

(** [requireAdmin] *)
Definition requireAdmin {A} (adminToken auth : gostr) (next : db -> reply A * db) (d : db) : reply A * db :=
  match bearer auth with
  | Some token => if bool_decide (token = adminToken) then next d else (Failed 401, d)
  | None => (Failed 401, d)
  end.

Section Handlers.
Context `{MI : MapIter} (uuid_text : Z -> gostr) (text_le : relation gostr) `{!RelDecision text_le}.

(** *** enroll *)

Definition enroll (req : option enrollRequest) (rnd : list Z) (d : db) : reply enrollResponse * db :=
  match req with
  | None => (Failed 400, d)
  | Some req =>
      match EnrollNode (er_EnrollToken req) (er_NodePubkey req) (er_Name req) rnd d with
      | (Err ErrInvalidEnrollToken, d') => (Failed 401, d')
      | (Err _, d') => (Failed 500, d')
      | (Ok (nodeID, token), d') => (Body {| en_NodeID := uuid_text nodeID; en_AuthToken := token |}, d')
      end
  end.

(** *** authz *)

Definition toMembers (l : list AuthzMember) : list authzMember :=
  map (fun m => {| am_Addr := mb_Addr m; am_Account := uuid_text (mb_Account m) |}) l.

Definition full_response (allowMassRevoke : bool) (d : db) : reply authzResponse :=
  match (FullSet d).1 with
  | Err _ => Failed 500
  | Ok (members, rev) =>
      Body {| az_Rev := rev; az_Full := true; az_Addresses := toMembers members; az_Add := []; az_Del := [];
              az_Force := allowMassRevoke |}
  end.

Definition writeAuthz (allowMassRevoke : bool) (clientRev : Z) (full : bool) (d : db) : reply authzResponse :=
  if full || (clientRev =? 0) then full_response allowMassRevoke d else
  match (DeltaSince clientRev d).1 with
  | Err ErrCompacted => full_response allowMassRevoke d
  | Err _ => Failed 500
  | Ok (add, del, rev) =>
      Body {| az_Rev := rev; az_Full := false; az_Addresses := [];
              az_Add := map (fun m => {| am_Addr := m.1; am_Account := default [] (uuid_text <$> m.2) |}) add;
              az_Del := del; az_Force := false |}
  end.

(** The [wait] parameter, in seconds. *)
Definition authz_wait (wait : Z) : Z := if (wait <=? 0) || (55 <? wait) then 25 else wait.

(** The long poll.  An iteration sees the database when it reads the revision, the
    database when it answers, and the time; the list is the iterations the
    deadline, the notifications and the fallback interval lead to ([None]: the
    client went away first). *)
Fixpoint authz (allowMassRevoke : bool) (clientRev deadline : Z) (full : bool) (seen : list (db * db * Z)) : option (reply authzResponse) :=
  match seen with
  | [] => None
  | (d, d', now) :: rest =>
      if full || negb (clientRev =? max_rev d) then Some (writeAuthz allowMassRevoke clientRev full d')
      else if deadline - now <=? 0 then Some NoContent
      else authz allowMassRevoke clientRev deadline full rest
  end.

(** *** usage *)

(** [time.Parse] of the RFC 3339 text. *)
Definition report_input (r : usageReport) : ReportInput :=
  {| ri_ReportID := ur_ReportID r; ri_CounterEpoch := ur_CounterEpoch r;
     ri_WindowEnd := (ur_WindowEnd r + unix_epoch) * time_Second;
     ri_Samples := map (fun s => {| sp_Service := us_Service s; sp_Addr := us_Addr s; sp_Bytes := us_Bytes s |}) (ur_Samples r) |}.

Definition usage (nodeID : Z) (req : option usageReport) (d : db) : reply usageAck * db :=
  match req with
  | None => (Failed 400, d)
  | Some r =>
      match IngestUsage nodeID (report_input r) d with
      | (Err _, d') => (Failed 500, d')
      | (Ok revoke, d') => (Body {| ua_Ack := ur_ReportID r; ua_Revoke := revoke |}, d')
      end
  end.

(** *** heartbeat *)

Record handlerConfig := { hc_usageIntervalS : Z; hc_graceMinutes : Z; hc_wg : wgSettings }.

Definition prefix_String (a : Addr) (p : Prefix) : gostr := addr_String a ++ bs "/" ++ FormatInt (px_Bits p).

Definition drifted (req : heartbeatRequest) (st : Z * gostr * Z) : bool :=
  let '(count, hash, rev) := st in
  if negb (hr_AuthzRev req =? rev) then false else
  if negb (bool_decide (hr_SetHash req = [])) then negb (bool_decide (hr_SetHash req = hash)) else
  if 0 <=? hr_SetSize req then negb (hr_SetSize req =? count) else false.

Definition heartbeat (cfg : handlerConfig) (nodeID : Z) (req : heartbeatRequest) (cache : authzStatus) (d : db)
    : reply heartbeatResponse * authzStatus * db :=
  match Heartbeat nodeID (hr_Version req) d with
  | (Err _, d1) => (Failed 500, cache, d1)
  | (Ok services, d1) =>
      let d2 := if negb (bool_decide (hr_WgPubkey req = [])) then (SetNodeWg nodeID (hr_WgPubkey req) (hr_WgEndpoint req) d1).2
                else (ClearNodeWg nodeID d1).2 in
      let '(st, cache') := AuthzStatus cache d2 in
      (Body {| hb_Config :=
          {| ac_UsageIntervalS := hc_usageIntervalS cfg; ac_GraceMinutes := hc_graceMinutes cfg;
             ac_Services := map (fun s => {| si_Key := svc_Key s; si_Port := svc_Port s |}) services;
             ac_Wg := {| wc_Port := ws_port (hc_wg cfg);
                         wc_Pool4 := prefix_String (Addr4 (px_Addr (Pool4 (ws_pools (hc_wg cfg))))) (Pool4 (ws_pools (hc_wg cfg)));
                         wc_Pool6 := prefix_String (Addr6 (px_Addr (Pool6 (ws_pools (hc_wg cfg)))) []) (Pool6 (ws_pools (hc_wg cfg))) |} |};
               hb_Resync := drifted req st |}, cache', d2)
  end.

(** *** wgPeers *)

Definition wgPeers (pools : WgPools) (etag_query : gostr) (d : db) : reply wgPeersResponse :=
  match (WgPeerTable text_le pools d).1 with
  | Err _ => Failed 500
  | Ok (peers, etag) =>
      if bool_decide (etag = etag_query) then NoContent else
      Body {| AgentTypes.wp_Etag := etag;
              AgentTypes.wp_Peers := map (fun p => {| wi_Pubkey := wp_Pubkey p; wi_Addr := addr_String (wp_FipsAddr p);
                                           wi_IP4 := addr_String (wp_IP4 p) ++ bs "/32"; wi_IP6 := addr_String (wp_IP6 p) ++ bs "/128" |}) peers |}
  end.

End Handlers.

End Api.
