(* ===== verification/BackendApiFacts.v ===== *)
(** * Theorems about enrollment and node credentials *)

From S2P Require Import Prelude GoStrings Netip Sha256 AgentTypes BackendDB BackendAuthz BackendAuthzFacts BackendUsage.
From S2P Require Import BackendWhitelist BackendWhitelistFacts BackendConsent BackendPayments BackendPaymentsFacts BackendWg BackendApi.
Import DB Authz Usage Whitelist WhitelistFacts Consent PaymentsFacts Wg Api.

Module ApiFacts.

(** A node's id and the hash of its credential. *)
Definition cred (n : node) : Z * gostr := (nd_id n, nd_token_hash n).
Definition creds (d : db) : list (Z * gostr) := cred <$> db_nodes d.

(** A step on nodes and enrollment tokens, or anything that leaves them alone. *)
Inductive node_step (d : db) : db -> Prop :=
| ns_token rnd note : node_step d (CreateEnrollToken rnd note d).2
| ns_enroll token pubkey name rnd : node_step d (EnrollNode token pubkey name rnd d).2
| ns_heartbeat id version : node_step d (Heartbeat id version d).2
| ns_announce id pubkey endpoint : node_step d (SetNodeWg id pubkey endpoint d).2
| ns_silent id : node_step d (ClearNodeWg id d).2
| ns_other d' : db_tokens d' = db_tokens d -> db_nodes d' = db_nodes d -> db_next d <= db_next d' -> node_step d d'.

Record nodes_ok (d : db) : Prop := {
  no_ids : NoDup (creds d).*1;
  no_fresh : Forall (fun c => c.1 < db_next d) (creds d);
  no_hash : NoDup (et_hash <$> db_tokens d)
}.

Definition token_used (token : gostr) (d : db) : Prop :=
  exists e, e ∈ db_tokens d /\ et_hash e = sha256Hex token /\ is_Some (et_used e).

(** What a step may do: credentials are only added, used tokens stay used. *)
Definition grows (d d' : db) : Prop :=
  (exists new, creds d' = creds d ++ new) /\ forall token, token_used token d -> token_used token d'.

Lemma grows_refl d : grows d d.
Proof. split; [exists []; by rewrite app_nil_r|done]. Qed.

Lemma grows_trans d d1 d' : grows d d1 -> grows d1 d' -> grows d d'.
Proof.
  intros [[n1 E1] H1] [[n2 E2] H2]. split; [|by auto]. exists (n1 ++ n2). by rewrite E2, E1, app_assoc.
Qed.

Lemma same_creds d d' : creds d' = creds d -> db_tokens d' = db_tokens d -> db_next d <= db_next d' -> nodes_ok d -> nodes_ok d' /\ grows d d'.
Proof.
  intros E1 E2 E3 [H1 H2 H3]. split.
  - split; rewrite ?E1, ?E2; try done. eapply Forall_weaken; [exact H2|]. cbn. lia.
  - split; [exists []; by rewrite app_nil_r|]. intros token. unfold token_used. by rewrite E2.
Qed.

Lemma update_creds p f l : (forall n, cred (f n) = cred n) -> cred <$> update_rows p f l = cred <$> l.
Proof. intros H. unfold update_rows. induction l as [|n l IH]; [done|]. cbn. rewrite IH. f_equal. destruct (p n); auto. Qed.

Lemma token_run rnd note d : nodes_ok d -> nodes_ok (CreateEnrollToken rnd note d).2 /\ grows d (CreateEnrollToken rnd note d).2.
Proof.
  intros [H1 H2 H3]. unfold CreateEnrollToken, inTx. tx_unfold. destruct (existsb _ _) eqn:E; [by split; [|apply grows_refl]|].
  unfold tx_modify. cbn [snd]. split.
  - split; try done. cbn [db_tokens set_tokens]. rewrite fmap_app. apply NoDup_app. repeat split; [done| |apply NoDup_singleton].
    intros h Hh ->%list_elem_of_singleton. apply not_true_iff_false in E. apply E, existsb_exists.
    apply list_elem_of_fmap in Hh as (e & Eh & He). exists e. split; [by apply list_elem_of_In|]. by apply bool_decide_eq_true.
  - split; [exists []; by rewrite app_nil_r|]. intros token (e & He & H). exists e. split; [|done]. cbn. apply elem_of_app. by left.
Qed.

Lemma enroll_run token pubkey name rnd d : nodes_ok d ->
  match EnrollNode token pubkey name rnd d with
  | (Ok (id, auth), d') => nodes_ok d' /\ grows d d' /\ id = db_next d /\ auth = randToken rnd /\
      creds d' = creds d ++ [(id, sha256Hex auth)] /\ token_used token d'
  | (Err e, d') => e = ErrInvalidEnrollToken /\ d' = d
  end.
Proof.
  intros [H1 H2 H3]. unfold EnrollNode, inTx. tx_unfold. destruct (find_row (has_token token) (db_tokens d)) as [e|] eqn:Ef; [|done].
  destruct (et_used e) eqn:Eu; [done|]. unfold fresh_id, tx_modify.
  set (d' := set_tokens _ _). cbn beta iota zeta. apply find_row_Some in Ef as [He Ht].
  assert (Ec : creds d' = creds d ++ [(db_next d, sha256Hex (randToken rnd))]) by (unfold creds; cbn; by rewrite fmap_app).
  assert (Et : db_tokens d' = update_rows (has_token token) (use_token (db_now d) (db_next d)) (db_tokens d)) by done.
  split; [|split; [|split; [|split; [|split]]]]; try done.
  - split; rewrite ?Ec.
    + rewrite fmap_app. apply NoDup_app. repeat split; [done| |apply NoDup_singleton]. intros i Hi ->%list_elem_of_singleton.
      apply list_elem_of_fmap in Hi as (c & Ei & Hc). rewrite Forall_forall in H2. specialize (H2 c Hc). cbn in H2, Ei. lia.
    + apply Forall_app. split; [|apply Forall_singleton; cbn; lia]. eapply Forall_weaken; [exact H2|]. cbn. lia.
    + rewrite Et. replace (et_hash <$> _) with (et_hash <$> db_tokens d); [done|].
      unfold update_rows. clear. induction (db_tokens d) as [|x l IH]; [done|]. cbn. rewrite IH. by destruct (has_token token x).
  - split; [by eexists|]. intros tk (x & Hx & E1 & E2). unfold token_used. rewrite Et.
    exists (if has_token token x then use_token (db_now d) (db_next d) x else x).
    split; [apply elem_of_update_rows; by exists x|]. destruct (has_token token x); done.
  - exists (use_token (db_now d) (db_next d) e). rewrite Et. split; [|split; [|done]].
    + apply elem_of_update_rows. exists e. by rewrite Ht.
    + unfold has_token in Ht. by bool_hyps.
Qed.

Lemma node_step_ok d d' : node_step d d' -> nodes_ok d -> nodes_ok d' /\ grows d d'.
Proof.
  intros H Hd. destruct H as [rnd note|token pk nm rnd|i v|i k e|i|d' E1 E2 E3].
  - by apply token_run.
  - pose proof (enroll_run token pk nm rnd d Hd) as H. destruct (EnrollNode _ _ _ _ d) as [[[i a]|e] d']; cbn [snd]; [tauto|].
    destruct H as [_ ->]. by split; [|apply grows_refl].
  - apply same_creds; try done. unfold Heartbeat, creds. cbn. by apply update_creds.
  - unfold SetNodeWg. destruct (ValidWgKey _); [|by split; [|apply grows_refl]]. destruct (validWgEndpoint _); [|by split; [|apply grows_refl]].
    apply same_creds; try done. unfold creds. cbn. by apply update_creds.
  - apply same_creds; try done. unfold creds. cbn. by apply update_creds.
  - apply same_creds; try done. unfold creds. by rewrite E2.
Qed.

Lemma node_steps_ok d d' : rtc node_step d d' -> nodes_ok d -> nodes_ok d' /\ grows d d'.
Proof.
  induction 1 as [d|d d1 d' H _ IH]; intros Hd; [by split; [|apply grows_refl]|].
  destruct (node_step_ok _ _ H Hd) as [H1 H2]. destruct (IH H1) as [H3 H4]. split; [done|by eapply grows_trans].
Qed.

Lemma empty_nodes_ok t : nodes_ok (empty_db t).
Proof. split; try apply NoDup_nil_2. apply Forall_nil_2. Qed.

Lemma AuthNode_iff id token d : nodes_ok d ->
  AuthNode id token d = (Ok tt, d) <-> (id, sha256Hex token) ∈ creds d.
Proof.
  intros [H1 _ _]. unfold AuthNode, creds. split.
  - destruct (find_row _ _) as [n|] eqn:E; [|done]. apply find_row_Some in E as [Hn Ei]. bool_hyps. case_bool_decide as Eh; [|done]. intros _.
    apply list_elem_of_fmap. exists n. unfold cred. by rewrite Ei, Eh.
  - intros (n & E & Hn)%list_elem_of_fmap. injection E as -> Eh. unfold creds in H1. rewrite <- list_fmap_compose in H1.
    rewrite (find_row_unique _ (db_nodes d) n); [by rewrite bool_decide_eq_true_2|done|apply Z.eqb_refl|].
    intros m Hm Em. bool_hyps. by apply (NoDup_key_inj (fst ∘ cred) (db_nodes d)).
Qed.

(** [C32] An enrollment token admits one node: once it has enrolled a node, then
    in every later state the node's own credential is accepted for its id, nothing
    with another hash is, the token enrolls nobody else, and the nodes that were
    enrolled before still get in. *)
Theorem enrollment_once d d1 d2 t token pubkey name rnd id auth :
  rtc node_step (empty_db t) d -> EnrollNode token pubkey name rnd d = (Ok (id, auth), d1) -> rtc node_step d1 d2 ->
  AuthNode id auth d2 = (Ok tt, d2) /\
  (forall x, AuthNode id x d2 = (Ok tt, d2) -> sha256Hex x = sha256Hex auth) /\
  (forall pk nm r, EnrollNode token pk nm r d2 = (Err ErrInvalidEnrollToken, d2)) /\
  (forall id' x, AuthNode id' x d = (Ok tt, d) -> id' <> id /\ AuthNode id' x d2 = (Ok tt, d2)).
Proof.
  intros Hd E Hs. destruct (node_steps_ok _ _ Hd (empty_nodes_ok t)) as [Hok _].
  pose proof (enroll_run token pubkey name rnd d Hok) as H. rewrite E in H. destruct H as (Hok1 & _ & Ei & _ & Ec & Hu).
  destruct (node_steps_ok _ _ Hs Hok1) as [Hok2 [[new En] Hu2]].
  assert (Hin : forall c, c ∈ creds d1 -> c ∈ creds d2) by (intros c Hc; rewrite En; apply elem_of_app; by left).
  assert (Hme : (id, sha256Hex auth) ∈ creds d2) by (apply Hin; rewrite Ec; apply elem_of_app; right; by apply list_elem_of_singleton).
  split; [by apply AuthNode_iff|]. split; [|split].
  - intros x Hx%AuthNode_iff; [|done]. assert (H := NoDup_key_inj fst (creds d2) _ _ (no_ids d2 Hok2) Hx Hme eq_refl). congruence.
  - intros pk nm r. pose proof (enroll_run token pk nm r d2 Hok2) as H. destruct (EnrollNode token pk nm r d2) as [[[i a]|e] d3] eqn:E3; [|by destruct H as [-> ->]].
    exfalso. destruct (Hu2 token Hu) as (e & He & Eh & [x Hx]). revert E3. unfold EnrollNode, inTx. tx_unfold.
    rewrite (find_row_unique _ (db_tokens d2) e); [by rewrite Hx|done|by apply bool_decide_eq_true|].
    intros e' He' Ht. unfold has_token in Ht. bool_hyps. apply (NoDup_key_inj et_hash (db_tokens d2)); [apply Hok2|done..|congruence].
  - intros id' x Hx%AuthNode_iff; [|done]. split.
    + subst id. pose proof (no_fresh d Hok) as Hf. rewrite Forall_forall in Hf. specialize (Hf _ Hx). cbn in Hf. lia.
    + apply AuthNode_iff; [done|]. apply Hin. rewrite Ec. apply elem_of_app. by left.
Qed.

(** A token is created and enrolls a node. *)
Definition token1 : gostr := randToken [1; 2; 3].
Definition auth1 : gostr := randToken [4; 5; 6].
Definition db_tokened : db := (CreateEnrollToken [1; 2; 3] (bs "gate") (empty_db 0)).2.
Definition db_node : db := (EnrollNode token1 (bs "pk") (bs "gate") [4; 5; 6] db_tokened).2.

Lemma enrollment_once_witness :
  AuthNode 1 auth1 db_node = (Ok tt, db_node) /\ EnrollNode token1 [] [] [] db_node = (Err ErrInvalidEnrollToken, db_node).
Proof.
  destruct (enrollment_once db_tokened db_node db_node 0 token1 (bs "pk") (bs "gate") [4; 5; 6] 1 auth1) as (H1 & _ & H2 & _).
  - apply rtc_once. exact (ns_token (empty_db 0) [1; 2; 3] (bs "gate")).
  - vm_compute. reflexivity.
  - apply rtc_refl.
  - split; [exact H1|exact (H2 [] [] [])].
Defined.

End ApiFacts.
