(* ===== verification/BackendNotify.v ===== *)
(** * backend: waking the long polls

    Models backend/notify.go ([revWaiter]), [ListenAuthz] and [listenOnce] of
    backend/store/authz.go, and the waiting of [authz] in backend/api.go, as
    interleaved steps: polls of any number of agents, the one listener with its
    database session, and the transactions that commit meanwhile.  A channel is the
    number of its generation: [broadcast] closes the current one and makes the next.
    PostgreSQL queues a notification for every session that is listening when the
    transaction commits, and drops the queue with the session. *)

From S2P Require Import Prelude GoStrings Netip BackendDB BackendAuthz BackendAuthzFacts BackendUsage BackendWg BackendApi.
Import DB Authz AuthzFacts.

Module Notify.

(** ** revWaiter *)

(** The generation of [w.ch]; the channels of smaller generations are closed. *)
Definition revWaiter := nat.
Definition wait (w : revWaiter) : nat := w.
Definition broadcast (w : revWaiter) : revWaiter := S w.
Definition closed (w : revWaiter) (ch : nat) : bool := (ch <? w)%nat.

(** ** The listener *)

(** Connecting, up to the answer to LISTEN; after LISTEN and before the first
    [onChange]; waiting for a notification; between a notification and its
    [onChange]; in the pause [ListenAuthz] makes after a session that ended or did not
    come about.  [backoff] is the pause that is due next, [next] the one after this
    pause.  [queued] are the notifications queued for the session, [None] for a
    session that is lost and not yet found to be. *)
Inductive listener :=
| l_connecting (backoff : Z)
| l_fresh (backoff : Z) (queued : option nat)
| l_waiting (backoff : Z) (queued : option nat)
| l_notified (backoff : Z) (queued : option nat)
| l_pausing (pause next : Z).

(** What becomes of the queue, by a commit or with the session. *)
Definition queue_step (f : option nat -> option nat) (l : listener) : listener :=
  match l with
  | l_fresh b q => l_fresh b (f q)
  | l_waiting b q => l_waiting b (f q)
  | l_notified b q => l_notified b (f q)
  | l => l
  end.
Definition enqueue (n : nat) : listener -> listener := queue_step (fmap (Nat.add n)).
Definition lose : listener -> listener := queue_step (fun _ => None).

(** The pause after a session that lasted [lasted], and the one after it. *)
Definition listen_pause (lasted backoff : Z) : Z * Z :=
  let backoff := if time_Minute <? lasted then time_Second else backoff in
  (backoff, if backoff <? 30 * time_Second then backoff * 2 else backoff).

(** The next thing the listener does on its own, and whether it is [onChange]. *)
Definition listen_step (l : listener) : option (listener * bool) :=
  match l with
  | l_fresh b q => Some (l_waiting b q, true)
  | l_waiting b (Some (S q)) => Some (l_notified b (Some q), false)
  | l_notified b q => Some (l_waiting b q, true)
  | _ => None
  end.

(** [listenOnce] gets its session; it returns an error, because it does not get one
    or finds it lost, [lasted] after it was called; the timer of the pause fires. *)
Definition listen_connected (l : listener) : option listener :=
  match l with l_connecting b => Some (l_fresh b (Some O)) | _ => None end.

Definition listen_failed (lasted : Z) (l : listener) : option listener :=
  match l with
  | l_connecting b | l_waiting b None => let '(pause, next) := listen_pause lasted b in Some (l_pausing pause next)
  | _ => None
  end.

Definition listen_again (l : listener) : option listener :=
  match l with l_pausing _ next => Some (l_connecting next) | _ => None end.

(** ** The polls *)

Inductive poll_pc := at_top | took (ch : nat) | blocked (ch : nat) | answered | gone.
Record poll := { pl_rev : Z; pl_full : bool; pl_pc : poll_pc }.
Definition set_pc (pc : poll_pc) (p : poll) : poll := {| pl_rev := pl_rev p; pl_full := pl_full p; pl_pc := pc |}.

(** One iteration of [authz] in steps: the channel is taken, the revision read, and
    the poll answers or blocks until its channel is closed. *)
Definition poll_step (w : revWaiter) (d : db) (p : poll) : option poll :=
  match pl_pc p with
  | at_top => Some (set_pc (took (wait w)) p)
  | took ch => Some (set_pc (if pl_full p || negb (pl_rev p =? max_rev d) then answered else blocked ch) p)
  | blocked ch => if closed w ch then Some (set_pc at_top p) else None
  | answered | gone => None
  end.

(** ** The process *)

Section Net.
Context `{MI : MapIter}.

Record net := { n_db : db; n_revs : revWaiter; n_listener : listener; n_polls : list poll }.

Definition committed (d' : db) (s : net) : net :=
  {| n_db := d'; n_revs := n_revs s; n_listener := enqueue (length (db_notify d') - length (db_notify (n_db s))) (n_listener s);
     n_polls := n_polls s |}.

Definition set_listener (l : listener) (s : net) : net :=
  {| n_db := n_db s; n_revs := n_revs s; n_listener := l; n_polls := n_polls s |}.
Definition set_poll (i : nat) (p : poll) (s : net) : net :=
  {| n_db := n_db s; n_revs := n_revs s; n_listener := n_listener s; n_polls := <[i := p]> (n_polls s) |}.

Inductive net_step (s : net) : net -> Prop :=
| n_recompute r d' : RecomputeAuthz (n_db s) = (r, d') -> net_step s (committed d' s)
| n_compact cutoff r d' : CompactAuthzRevisions cutoff (n_db s) = (r, d') -> net_step s (committed d' s)
| n_other d' : db_current d' = db_current (n_db s) -> db_revisions d' = db_revisions (n_db s) -> db_notify d' = db_notify (n_db s) ->
    db_revseq (n_db s) <= db_revseq d' -> db_now (n_db s) <= db_now d' -> net_step s (committed d' s)
| n_listen l call : listen_step (n_listener s) = Some (l, call) ->
    net_step s {| n_db := n_db s; n_revs := if call then broadcast (n_revs s) else n_revs s; n_listener := l; n_polls := n_polls s |}
| n_connected l : listen_connected (n_listener s) = Some l -> net_step s (set_listener l s)
| n_failed lasted l : listen_failed lasted (n_listener s) = Some l -> net_step s (set_listener l s)
| n_again l : listen_again (n_listener s) = Some l -> net_step s (set_listener l s)
| n_lost : net_step s (set_listener (lose (n_listener s)) s)
| n_request rev full : net_step s {| n_db := n_db s; n_revs := n_revs s; n_listener := n_listener s;
    n_polls := n_polls s ++ [{| pl_rev := rev; pl_full := full; pl_pc := at_top |}] |}
| n_poll i p p' : n_polls s !! i = Some p -> poll_step (n_revs s) (n_db s) p = Some p' -> net_step s (set_poll i p' s)
| n_fallback i p ch : n_polls s !! i = Some p -> pl_pc p = blocked ch -> net_step s (set_poll i (set_pc at_top p) s)
| n_leave i p : n_polls s !! i = Some p -> net_step s (set_poll i (set_pc gone p) s).   (* the deadline, or the client went away *)

(** ** Every change of the revision is notified *)

Lemma tx_for_notify {A} (f : A -> Tx unit) l :
  (forall x d u d', f x d = Ok (u, d') -> db_notify d' = db_notify d) ->
  forall d u d', tx_for f l d = Ok (u, d') -> db_notify d' = db_notify d.
Proof.
  intros Hf. induction l as [|x l IH]; intros d u d'; [by intros [= _ <-]|]. rewrite tx_for_cons.
  destruct (f x d) as [[v d1]|e] eqn:E; [|done]. intros H%IH. rewrite H. by eapply Hf.
Qed.

Lemma recompute_notifies d r d' : RecomputeAuthz d = (r, d') ->
  max_rev d' = max_rev d \/ length (db_notify d') = S (length (db_notify d)).
Proof.
  intros H. destruct (decide (db_current d = desired d)) as [E|E].
  { rewrite (recompute_stable d E) in H. injection H as _ <-. by left. }
  right. revert H. unfold RecomputeAuthz, inTx. unfold mbind, tx_bind, tx_get, mret, tx_ret.
  destruct (tx_for (recompute_add _) _ d) as [[u1 d1]|e] eqn:E1.
  2:{ destruct (add_loop (db_current d) (map_range (desired d)) d (NoDup_fst_map_range _)) as (d2 & E2 & _); [done|]. congruence. }
  destruct (tx_for (recompute_del _) _ d1) as [[u2 d2]|e] eqn:E2.
  2:{ destruct (del_loop (desired d) (map_range (db_current d)) d1 (NoDup_fst_map_range _)) as (d2 & E3 & _). congruence. }
  assert (N1 : db_notify d1 = db_notify d).
  { revert E1. apply tx_for_notify. intros [a acct] x u x'. rewrite recompute_add_eq. intros [= _ <-]. by case_bool_decide. }
  assert (N2 : db_notify d2 = db_notify d1).
  { revert E2. apply tx_for_notify. intros [a acct] x u x'. rewrite recompute_del_eq. intros [= _ <-]. by case_bool_decide. }
  destruct (existsb _ _ || _) eqn:Ec.
  - intros [= _ <-]. cbn. rewrite length_app, N2, N1. cbn. lia.
  - exfalso. apply E. apply orb_false_iff in Ec as [Ea Er]. apply negb_false_iff, bool_decide_eq_true in Er.
    apply map_eq. intros a. destruct (desired d !! a) as [acct|] eqn:Ed.
    + destruct (decide (db_current d !! a = Some acct)) as [|Hn]; [done|]. exfalso.
      assert (existsb (fun r => negb (bool_decide (db_current d !! r.1 = Some r.2))) (map_range (desired d)) = true); [|congruence].
      apply existsb_exists. exists (a, acct). split; [by apply list_elem_of_In, elem_of_map_range|]. by rewrite bool_decide_false.
    + apply eq_None_not_Some. intros [acct Hc]. apply fmap_nil_inv in Er.
      assert (Hin : (a, acct) ∈ filter (fun r => desired d !! r.1 = None) (map_range (db_current d)))
        by (apply list_elem_of_filter; split; [done|by apply elem_of_map_range]).
      rewrite Er in Hin. by apply elem_of_nil in Hin.
Qed.

(** ** No wake-up is lost *)

(** The listener calls [onChange] before it waits on an empty queue. *)
Definition signal_due (l : listener) : bool :=
  match l with l_waiting _ (Some O) => false | _ => true end.

(** It has a session, or is yet to call [onChange] for one. *)
Definition session_up (l : listener) : bool :=
  match l with l_connecting _ | l_waiting _ None | l_pausing _ _ => false | _ => true end.

(** The pauses of the ladder: 1, 2, 4, ... 32 seconds. *)
Definition rung (b : Z) : Prop := exists k, 0 <= k <= 5 /\ b = 2 ^ k * time_Second.
Definition on_ladder (l : listener) : Prop :=
  match l with
  | l_connecting b | l_fresh b _ | l_waiting b _ | l_notified b _ => rung b
  | l_pausing p n => rung p /\ rung n
  end.

Lemma listen_pause_rung lasted b : rung b -> rung (listen_pause lasted b).1 /\ rung (listen_pause lasted b).2.
Proof.
  assert (P : forall b, rung b -> rung (if b <? 30 * time_Second then b * 2 else b)).
  { intros b' (m & Hm & ->). destruct (_ <? _) eqn:E; [|by exists m]. bool_hyps. exists (m + 1).
    assert (m <> 5) by (intros ->; unfold time_Second in E; lia). split; [lia|]. rewrite Z.pow_add_r by lia. lia. }
  intros Hb. unfold listen_pause. destruct (time_Minute <? lasted); (split; [|apply P]); try done; by exists 0.
Qed.

Lemma rung_bound b : rung b -> time_Second <= b <= 32 * time_Second.
Proof.
  intros (k & Hk & ->). assert (2 ^ 0 <= 2 ^ k <= 2 ^ 5) by (split; apply Z.pow_le_mono_r; lia). unfold time_Second. lia.
Qed.

(** What the listener does by itself and with its surroundings leaves it on the
    ladder and owing a signal, unless it signals. *)
Lemma listen_failed_ok lasted l l' : listen_failed lasted l = Some l' -> on_ladder l -> on_ladder l' /\ signal_due l' = true.
Proof.
  unfold listen_failed. intros H Hl. destruct l as [b|b q|b [q|]|b q|p n]; try done;
    pose proof (listen_pause_rung lasted b Hl) as [H1 H2]; destruct (listen_pause lasted b); by injection H as <-.
Qed.

Lemma listen_connected_ok l l' : listen_connected l = Some l' -> on_ladder l -> on_ladder l' /\ signal_due l' = true.
Proof. by destruct l; intros [= <-]. Qed.

Lemma listen_again_ok l l' : listen_again l = Some l' -> on_ladder l -> on_ladder l' /\ signal_due l' = true.
Proof. destruct l; intros [= <-]. by intros [_ H]. Qed.

Lemma listen_step_ok l l' call : listen_step l = Some (l', call) -> on_ladder l -> on_ladder l' /\ (call = false -> signal_due l' = true).
Proof. by destruct l as [b|b q|b [[|q]|]|b q|p n]; intros [= <- <-]. Qed.

Lemma queue_step_ladder f l : on_ladder l -> on_ladder (queue_step f l).
Proof. by destruct l. Qed.

Definition poll_ok (s : net) (p : poll) : Prop :=
  match pl_pc p with
  | at_top | answered | gone => True
  | took ch => (ch <= n_revs s)%nat
  | blocked ch => (ch <= n_revs s)%nat /\ (closed (n_revs s) ch = true \/ pl_rev p = max_rev (n_db s) \/ signal_due (n_listener s) = true)
  end.

Definition net_ok (s : net) : Prop := log_ok (n_db s) /\ on_ladder (n_listener s) /\ Forall (poll_ok s) (n_polls s).

Lemma enqueue_due n l : signal_due l = true \/ (0 < n)%nat -> signal_due (enqueue n l) = true.
Proof.
  intros H. destruct l as [b|b q|b [q|]|b q|p m0]; try done. change (signal_due (l_waiting b (Some (n + q)%nat)) = true).
  destruct (n + q)%nat as [|m] eqn:E; [|done]. assert (n = 0%nat /\ q = 0%nat) as [-> ->] by lia. destruct H; [done|lia].
Qed.

Lemma lose_due l : signal_due l = true -> signal_due (lose l) = true.
Proof. by destruct l as [|?|? [[|?]|]|?|]. Qed.

(** What a commit does to a poll's case. *)
Lemma poll_ok_commit s d' p : (max_rev d' = max_rev (n_db s) \/ length (db_notify d') = S (length (db_notify (n_db s)))) ->
  poll_ok s p -> poll_ok (committed d' s) p.
Proof.
  intros Hd. unfold poll_ok, committed. cbn [n_revs n_db n_listener]. destruct (pl_pc p) as [|ch|ch| |]; [done..| |done|done].
  intros [Hch H]. split; [done|]. destruct H as [H|[H|H]]; [by left| |right; right; apply enqueue_due; by left].
  destruct Hd as [Hd|Hd]; [right; left; congruence|]. right. right. apply enqueue_due. right. lia.
Qed.

Lemma poll_ok_more s d w l polls p : d = n_db s -> (n_revs s <= w)%nat -> (w = n_revs s -> signal_due (n_listener s) = true -> signal_due l = true) ->
  poll_ok s p -> poll_ok {| n_db := d; n_revs := w; n_listener := l; n_polls := polls |} p.
Proof.
  intros -> Hw Hl. unfold poll_ok, closed. cbn [n_revs n_db n_listener]. destruct (pl_pc p) as [|ch|ch| |]; [done|lia| |done..].
  intros [Hch H]. split; [lia|]. destruct (decide (w = n_revs s)) as [->|Hne].
  - destruct H as [H|[H|H]]; [by left|by right; left|right; right; by apply Hl].
  - left. apply Nat.ltb_lt. lia.
Qed.

Lemma poll_step_ok s p p' : poll_ok s p -> poll_step (n_revs s) (n_db s) p = Some p' -> poll_ok s p'.
Proof.
  unfold poll_ok, poll_step. destruct (pl_pc p) as [|ch|ch| |]; try done; intros Hp; [intros [= <-]; cbn; unfold wait; lia| |by destruct (closed _ _); intros [= <-]].
  intros [= <-]. cbn [pl_pc set_pc pl_rev]. destruct (pl_full p || negb _) eqn:E; [done|]. bool_hyps. split; [done|]. right. by left.
Qed.

(** A step of the listener that does not signal. *)
Lemma poll_ok_listener s l p : signal_due (n_listener s) = false \/ signal_due l = true -> poll_ok s p -> poll_ok (set_listener l s) p.
Proof. intros Hl. apply poll_ok_more; [done..|]. intros _ H. by destruct Hl; [congruence|]. Qed.

Lemma net_step_ok s s' : net_step s s' -> net_ok s -> net_ok s'.
Proof.
  assert (C : forall s d', log_ok d' -> on_ladder (n_listener s) -> Forall (poll_ok s) (n_polls s) ->
    (max_rev d' = max_rev (n_db s) \/ length (db_notify d') = S (length (db_notify (n_db s)))) -> net_ok (committed d' s)).
  { intros s1 d' Hl Hb HF Hd. split; [done|]. split; [by apply queue_step_ladder|]. eapply Forall_impl; [exact HF|]. intros p. by apply poll_ok_commit. }
  assert (L : forall s l, net_ok s -> on_ladder l -> signal_due (n_listener s) = false \/ signal_due l = true -> net_ok (set_listener l s)).
  { intros s1 l (Hl & _ & HF) Hb Hd. split; [done|]. split; [done|]. eapply Forall_impl; [exact HF|]. intros p. by apply poll_ok_listener. }
  assert (U : forall s i p, net_ok s -> poll_ok s p -> net_ok (set_poll i p s)).
  { intros s1 i p (Hl & Hb & HF) Hp. split; [done|]. split; [done|]. by apply Forall_insert. }
  intros H Hok. pose proof Hok as (Hl & Hb & HF).
  destruct H as [r d' H|cutoff r d' H|d' H1 H2 H3 H4 H5|l call H|l H|lasted l H|l H| |rev full|i p p' Hi H|i p ch Hi H|i p Hi].
  - apply C; [exact (proj1 (log_step_spec _ _ (step_recompute _ _ _ H) Hl))|done..|]. by eapply recompute_notifies.
  - apply C; [exact (proj1 (log_step_spec _ _ (step_compact _ _ _ _ H) Hl))|done..|]. left.
    destruct r as [n|e]; [by eapply compact_max_rev|done].
  - apply C; [exact (proj1 (log_step_spec _ _ (step_other _ _ H1 H2 H4 H5) Hl))|done..|]. left. unfold max_rev. by rewrite H2.
  - destruct (listen_step_ok _ _ _ H Hb) as [Hb' Hd]. split; [done|]. split; [done|]. eapply Forall_impl; [exact HF|]. intros p.
    apply poll_ok_more; [done|destruct call; unfold broadcast; lia|]. destruct call; unfold broadcast; [lia|]. intros _ _. by apply Hd.
  - destruct (listen_connected_ok _ _ H Hb). apply L; auto.
  - destruct (listen_failed_ok _ _ _ H Hb). apply L; auto.
  - destruct (listen_again_ok _ _ H Hb). apply L; auto.
  - apply L; [done|by apply queue_step_ladder|]. destruct (signal_due (n_listener s)) eqn:E; [right; by apply lose_due|by left].
  - split; [exact Hl|]. split; [exact Hb|]. apply Forall_app. split; [exact HF|]. by apply Forall_singleton.
  - apply U; [done|]. eapply poll_step_ok; [|exact H]. rewrite Forall_lookup in HF. by eapply HF.
  - by apply U.
  - by apply U.
Qed.

Lemma net_steps_ok s s' : rtc net_step s s' -> net_ok s -> net_ok s'.
Proof. induction 1 as [|s s1 s' H _ IH]; [done|]. intros Hs. by apply IH, (net_step_ok s). Qed.

(** The steps the listener and poll [i] take on their own: no timer, no commit. *)
Inductive own_step (i : nat) (s : net) : net -> Prop :=
| own_listen l call : listen_step (n_listener s) = Some (l, call) ->
    own_step i s {| n_db := n_db s; n_revs := if call then broadcast (n_revs s) else n_revs s; n_listener := l; n_polls := n_polls s |}
| own_poll p p' : n_polls s !! i = Some p -> poll_step (n_revs s) (n_db s) p = Some p' -> own_step i s (set_poll i p' s).

(** With the listener finding its session lost, the end of its pause and a
    connection that succeeds. *)
Inductive recovery_step (i : nat) (s : net) : net -> Prop :=
| rec_own s' : own_step i s s' -> recovery_step i s s'
| rec_found b lasted l : n_listener s = l_waiting b None -> listen_failed lasted (n_listener s) = Some l -> recovery_step i s (set_listener l s)
| rec_timer pause next l : n_listener s = l_pausing pause next -> pause <= 32 * time_Second -> listen_again (n_listener s) = Some l ->
    recovery_step i s (set_listener l s)
| rec_connected l : listen_connected (n_listener s) = Some l -> recovery_step i s (set_listener l s).

(** With the fallback timer of the poll. *)
Inductive fallback_step (i : nat) (s : net) : net -> Prop :=
| fb_own s' : own_step i s s' -> fallback_step i s s'
| fb_timer p ch : n_polls s !! i = Some p -> pl_pc p = blocked ch -> fallback_step i s (set_poll i (set_pc at_top p) s).

Definition done_by (R : net -> net -> Prop) (i : nat) (s : net) (n : nat) : Prop :=
  exists k s' p', (k <= n)%nat /\ nsteps R k s s' /\ n_db s' = n_db s /\ n_polls s' !! i = Some p' /\ pl_pc p' = answered.

Lemma done_by_l (R : net -> net -> Prop) i s s1 n : R s s1 -> n_db s1 = n_db s -> done_by R i s1 n -> done_by R i s (S n).
Proof.
  intros H Hd (k & s' & p' & Hk & Hs & Hd' & Hp). exists (S k), s', p'. split; [lia|]. split; [by econstructor|]. split; [congruence|done].
Qed.

Lemma done_by_le R i s n m : (n <= m)%nat -> done_by R i s n -> done_by R i s m.
Proof. intros H (k & s' & p' & Hk & Hr). exists k, s', p'. split; [lia|done]. Qed.

Lemma done_by_mono (R R' : net -> net -> Prop) i s n : (forall x y, R x y -> R' x y) -> done_by R i s n -> done_by R' i s n.
Proof.
  intros HR (k & s' & p' & Hk & Hs & Hr). exists k, s', p'. split; [done|]. split; [|done]. clear -Hs HR.
  induction Hs; [constructor|]. econstructor; [by apply HR|done].
Qed.

(** A poll at the top takes the channel and reads the change. *)
Lemma at_top_answers i s p : n_polls s !! i = Some p -> pl_pc p = at_top -> pl_rev p <> max_rev (n_db s) -> done_by (own_step i) i s 2.
Proof.
  intros Hi Hpc Hr. pose proof (lookup_lt_Some _ _ _ Hi) as Hlt.
  eapply done_by_l; [eapply (own_poll i s p (set_pc (took (n_revs s)) p) Hi); unfold poll_step; by rewrite Hpc|done|].
  eapply done_by_l; [eapply (own_poll _ _ (set_pc (took (n_revs s)) p) (set_pc answered p))|done|].
  - cbn [n_polls set_poll]. by apply list_lookup_insert_eq.
  - unfold poll_step. cbn [pl_pc set_pc pl_full pl_rev n_db set_poll]. rewrite (proj2 (Z.eqb_neq _ _)) by done. by rewrite orb_true_r.
  - eexists 0%nat, _, (set_pc answered p). split; [lia|]. split; [constructor|]. split; [done|]. split; [|done].
    cbn [n_polls set_poll]. apply list_lookup_insert_eq. by rewrite length_insert.
Qed.

(** A sleeping poll at the top again. *)
Lemma wakes R i s p ch : (forall x y, own_step i x y -> R x y) -> n_polls s !! i = Some p -> pl_pc p = blocked ch -> pl_rev p <> max_rev (n_db s) ->
  R s (set_poll i (set_pc at_top p) s) -> done_by R i s 3.
Proof.
  intros HR Hi Hpc Hr H. eapply done_by_l; [exact H|done|]. eapply done_by_mono; [exact HR|].
  apply (at_top_answers i _ (set_pc at_top p)); [|done|done]. cbn [set_poll n_polls]. apply list_lookup_insert_eq. by eapply lookup_lt_Some.
Qed.

Lemma woken i s p ch : n_polls s !! i = Some p -> pl_pc p = blocked ch -> pl_rev p <> max_rev (n_db s) -> closed (n_revs s) ch = true ->
  done_by (own_step i) i s 3.
Proof.
  intros Hi Hpc Hr Hc. eapply wakes; [done..|]. apply (own_poll i s p _ Hi). unfold poll_step. by rewrite Hpc, Hc.
Qed.

(** With its session up, the listener gets to a broadcast. *)
Lemma signalled i s p ch : n_polls s !! i = Some p -> pl_pc p = blocked ch -> pl_rev p <> max_rev (n_db s) -> (ch <= n_revs s)%nat ->
  signal_due (n_listener s) = true -> session_up (n_listener s) = true -> done_by (own_step i) i s 5.
Proof.
  destruct s as [d w l polls]. cbn [n_polls n_db n_revs n_listener]. intros Hi Hpc Hr Hw Hd Hu.
  assert (B : forall l' b q, listen_step l' = Some (l_waiting b q, true) -> done_by (own_step i) i {| n_db := d; n_revs := w; n_listener := l'; n_polls := polls |} 4).
  { intros l' b q Hl. eapply done_by_l; [by eapply own_listen|done|]. eapply woken; [done..|]. apply Nat.ltb_lt. cbn. unfold broadcast. lia. }
  destruct l as [b|b q|b [[|q]|]|b q|pa nx]; try done; [apply (done_by_le _ _ _ 4); [lia|by eapply B]| |apply (done_by_le _ _ _ 4); [lia|by eapply B]].
  eapply done_by_l; [by eapply own_listen|done|]. cbn. by eapply B.
Qed.

(** Without one, it gets there by way of a new session. *)
Lemma recovered i s p ch : n_polls s !! i = Some p -> pl_pc p = blocked ch -> pl_rev p <> max_rev (n_db s) -> (ch <= n_revs s)%nat ->
  signal_due (n_listener s) = true -> on_ladder (n_listener s) -> done_by (recovery_step i) i s 7.
Proof.
  destruct s as [d w l polls]. cbn [n_polls n_db n_revs n_listener]. intros Hi Hpc Hr Hw Hd Hlad.
  set (at_ := fun l => {| n_db := d; n_revs := w; n_listener := l; n_polls := polls |}).
  assert (F : forall b, done_by (recovery_step i) i (at_ (l_fresh b (Some O))) 4).
  { intros b. eapply done_by_l; [by eapply rec_own, own_listen|done|]. eapply done_by_mono; [apply rec_own|].
    eapply woken; [done..|]. apply Nat.ltb_lt. cbn. unfold broadcast. lia. }
  assert (K : forall b, done_by (recovery_step i) i (at_ (l_connecting b)) 5).
  { intros b. eapply done_by_l; [by eapply (rec_connected i (at_ (l_connecting b)))|done|]. apply F. }
  assert (W : forall pa nx, rung pa -> done_by (recovery_step i) i (at_ (l_pausing pa nx)) 6).
  { intros pa nx Hp. pose proof (rung_bound _ Hp). eapply done_by_l; [eapply (rec_timer i (at_ (l_pausing pa nx))); [done|lia|done]|done|]. apply K. }
  destruct (session_up l) eqn:Hu.
  { apply (done_by_le _ _ _ 5); [lia|]. eapply done_by_mono; [apply rec_own|]. by eapply signalled. }
  destruct l as [b|b q|b [[|q]|]|b q|pa nx]; try done; [apply (done_by_le _ _ _ 5); [lia|apply K]| |apply (done_by_le _ _ _ 6); [lia|by apply W, Hlad]].
  pose proof (listen_pause_rung 0 b Hlad) as [H1 _].
  eapply done_by_l; [apply (rec_found i (at_ (l_waiting b None)) b 0 (l_pausing (listen_pause 0 b).1 (listen_pause 0 b).2)); [done|];
    unfold at_, listen_failed; cbn [n_listener]; by destruct (listen_pause 0 b)|done|].
  by apply W.
Qed.

(** [C4] No wake-up is lost.  From the start of the process, however the
    transactions, the listener (its session lost and found to be lost, its pauses,
    connections that fail and succeed), the requests and their timers interleave: a
    poll that sleeps while the revision is no longer its client's has its channel
    closed already, or the listener will close it before it next waits on an empty
    queue.  If the channel is closed or the listener has its session, then at most
    five more steps of the two, without any timer, bring the poll to its answer.
    Whatever the state of the session, at most seven do, counting that the listener
    finds it lost, one pause of at most 32 seconds and a connection that succeeds;
    and without the listener, the poll's own fallback timer and two more steps. *)
Theorem no_wakeup_lost s0 s i p ch :
  log_ok (n_db s0) -> n_polls s0 = [] -> n_listener s0 = l_connecting time_Second ->
  rtc net_step s0 s -> n_polls s !! i = Some p -> pl_pc p = blocked ch -> pl_rev p <> max_rev (n_db s) ->
  (closed (n_revs s) ch = true \/ signal_due (n_listener s) = true) /\
  (closed (n_revs s) ch = true \/ session_up (n_listener s) = true -> done_by (own_step i) i s 5) /\
  done_by (recovery_step i) i s 7 /\ done_by (fallback_step i) i s 3.
Proof.
  intros Hl H0 Hs0 Hs Hi Hpc Hr.
  assert (Hok : net_ok s).
  { apply (net_steps_ok s0); [done|]. split; [done|]. rewrite Hs0, H0. split; [by exists 0|done]. }
  destruct Hok as (_ & Hb & HF). rewrite Forall_lookup in HF. specialize (HF i p Hi). unfold poll_ok in HF. rewrite Hpc in HF. destruct HF as [Hw H].
  assert (Hd : closed (n_revs s) ch = true \/ signal_due (n_listener s) = true) by tauto.
  assert (Hcl : closed (n_revs s) ch = true -> done_by (own_step i) i s 3) by (intros Hc; by eapply woken).
  split; [done|]. split; [|split].
  - intros Hu. destruct Hd as [Hc|Hd]; [apply (done_by_le _ _ _ 3); [lia|by apply Hcl]|].
    destruct Hu as [Hc|Hu]; [apply (done_by_le _ _ _ 3); [lia|by apply Hcl]|by eapply signalled].
  - destruct Hd as [Hc|Hd]; [|by eapply recovered]. apply (done_by_le _ _ _ 3); [lia|]. eapply done_by_mono; [apply rec_own|by apply Hcl].
  - eapply wakes; [apply fb_own|done..|]. by eapply fb_timer.
Qed.

End Net.
End Notify.
