(* ===== verification/BackendAdmin.v ===== *)
(** * backend: the admin API

    Models backend/admin.go and [Inspect] of backend/store/whitelist.go.  A body is
    the JSON value in it ([None] if it holds none); a handler answers with a body or
    with an error status. *)

From S2P Require Import Prelude GoStrings GoJson Netip AgentTypes BackendDB BackendAuthz BackendWhitelist BackendPayments.
From S2P Require Import BackendSummary BackendApi.
Import DB Json Authz Whitelist Payments Summary Api.

Module Admin.

(** ** Inspection (store/whitelist.go) *)

Record InspectedConflict := { ic_AccountNpub : gostr; ic_Role : role; ic_Enabled : bool; ic_Pending : bool }.

Record InspectedEntry := {
  ie_Npub : gostr; ie_Addr : Addr; ie_Role : role; ie_Label : gostr; ie_Enabled : bool; ie_Pending : bool;
  ie_Authorized : bool; ie_AuthzOwner : gostr; ie_Conflicts : list InspectedConflict
}.

Record AccountInspection := {
  ai_Account : account; ai_Attached : option gostr; ai_Whitelist : list InspectedEntry;
  ai_Entitlements : list EntitlementView; ai_Invites : list Invite
}.

Definition account_npub (d : db) (id : Z) : option gostr := ac_npub <$> find_row (fun a => ac_id a =? id) (db_accounts d).

(** Whom the materialized set attributes an address to. *)
Definition authz_owner (d : db) (a : Addr) : option gostr := db_current d !! a ≫= account_npub d.

(** [ORDER BY w.created_at]: rows are in insertion order. *)
Definition conflicts (d : db) (acct : Z) (a : Addr) : list InspectedConflict :=
  omap (fun w =>
    if at_addr a w && negb (w_account w =? acct) then
      (fun n => {| ic_AccountNpub := n; ic_Role := w_role w; ic_Enabled := w_enabled w; ic_Pending := w_pending w |})
        <$> account_npub d (w_account w)
    else None) (db_whitelist d).

Definition inspect_entry (d : db) (acct : Z) (w : WhitelistView) : InspectedEntry :=
  let o := authz_owner d (ww_Addr w) in
  {| ie_Npub := ww_Npub w; ie_Addr := ww_Addr w; ie_Role := ww_Role w; ie_Label := ww_Label w; ie_Enabled := ww_Enabled w;
     ie_Pending := ww_Pending w; ie_Authorized := match o with Some _ => true | None => false end; ie_AuthzOwner := default [] o;
     ie_Conflicts := conflicts d acct (ww_Addr w) |}.

Section Admin.
Context `{MI : MapIter} `{DR : Driver}.
Context (uuid_text : Z -> gostr) (parse_uuid : gostr -> option Z) (text_le : relation gostr) `{!RelDecision text_le}.

Definition Inspect (npub : gostr) : Store AccountInspection :=
  sum ← Summary text_le npub;
  query (fun d => {| ai_Account := as_Account sum; ai_Attached := as_AttachedTo sum;
                     ai_Whitelist := map (inspect_entry d (ac_id (as_Account sum))) (as_Whitelist sum);
                     ai_Entitlements := as_Entitlements sum; ai_Invites := as_Invites sum |}).

(** ** Answers *)

Inductive admin_answer :=
| ans_token (token : gostr)
| ans_account (a : account)
| ans_status (s : gostr)
| ans_packages (l : list Package)
| ans_id (id : gostr)
| ans_services (l : list Service)
| ans_inspect (i : AccountInspection)
| ans_authz (rev : Z) (addresses : list authzMember).

Definition handler : Type := db -> reply admin_answer * db.

Definition decoded {T} (body : option jvalue) (decode : list (gostr * jvalue) -> option T) : option T :=
  v ← body; l ← as_struct v; decode l.

(** [decode], then the rest. *)
Definition with_body {T} (body : option jvalue) (decode : list (gostr * jvalue) -> option T) (k : T -> handler) : handler := fun d =>
  match decoded body decode with
  | Some req => k req d
  | None => (Failed 400, d)
  end.

(** A store call whose error the handler maps to a status. *)
Definition answer {A} (m : Store A) (ok : A -> admin_answer) (err : store_err -> Z) : handler := fun d =>
  match m d with
  | (Ok a, d') => (Body (ok a), d')
  | (Err e, d') => (Failed (err e), d')
  end.

Definition bad_request (_ : store_err) : Z := 400.
Definition internal (_ : store_err) : Z := 500.

(** ** The handlers *)

(** [decodeQuiet]: a body that does not decode leaves the note empty. *)
Definition adminEnrollToken (rnd : list Z) (body : option jvalue) : handler :=
  answer (CreateEnrollToken rnd (default [] (decoded body (get as_string (bs "note"))))) ans_token internal.

Definition adminCreateAccount (body : option jvalue) : handler :=
  with_body body (get as_string (bs "npub")) (fun npub => answer (CreateAccount npub) ans_account bad_request).

Definition whitelist_status (e : store_err) : Z :=
  match e with ErrAccountNotFound => 404 | ErrAddressInUse => 409 | _ => 400 end.

Definition adminWhitelist (body : option jvalue) : handler :=
  with_body body (fun l =>
    host ← get as_string (bs "owner_npub") l;
    invited ← get as_string (bs "guest_npub") l;
    label ← get as_string (bs "label") l;
    enabled ← get (as_ptr as_bool) (bs "enabled") l;
    Some (host, invited, label, enabled))
  (fun '(host, invited, label, enabled) =>
    answer (match enabled with
            | Some false => SetWhitelistEnabled host invited false
            | _ => AddWhitelist host invited label
            end) (fun _ => ans_status (bs "ok")) whitelist_status).

Definition adminCredit (body : option jvalue) : handler :=
  with_body body (fun l =>
    npub ← get as_string (bs "npub") l;
    kind ← get as_string (bs "kind") l;
    gb ← get (as_int 64) (bs "gb") l;
    days ← get (as_int 64) (bs "days") l;
    Some (npub, kind, gb, days))
  (fun '(npub, kind, gb, days) =>
    let days := if days <=? 0 then 30 else days in
    answer (if bool_decide (kind = bs "time") then CreditTime npub days
            else let gb := if gb <=? 0 then 50 else gb in CreditVolume npub (i64 (gb * 1000000000)) days)
      (fun _ => ans_status (bs "credited")) bad_request).

Definition adminListPackages : handler := answer ListPackages ans_packages internal.

(** [time.Now().Add(time.Duration(days) * 24 * time.Hour)] *)
Definition available_until (now days : Z) : option Z := if 0 <? days then Some (now + days_duration days) else None.

Definition adminCreatePackage (body : option jvalue) : handler :=
  with_body body (fun l =>
    kind ← get as_string (bs "kind") l;
    name ← get as_string (bs "name") l;
    gb ← get (as_int 64) (bs "gb") l;
    days ← get (as_int 64) (bs "days") l;
    price ← get (as_int 64) (bs "price_sats") l;
    available ← get (as_int 64) (bs "available_days") l;
    Some (kind, name, gb, days, price, available))
  (fun '(kind, name, gb, days, price, available) => fun d =>
    answer (CreatePackage kind name (i64 (gb * 1000000000)) days (i64 (price * 1000)) (available_until (db_now d) available))
      (fun id => ans_id (uuid_text id)) bad_request d).

Definition adminDeactivatePackage (pathID : gostr) : handler := fun d =>
  match parse_uuid pathID with
  | None => (Failed 400, d)
  | Some id => answer (DeactivatePackage id) (fun _ => ans_status (bs "deactivated"))
                 (fun e => match e with ErrPackageNotFound => 404 | _ => 400 end) d
  end.

Definition adminSettle (body : option jvalue) : handler :=
  with_body body (get as_string (bs "purchase_id")) (fun text d =>
    match parse_uuid text with
    | None => (Failed 400, d)
    | Some id => answer (SettlePurchase id) (fun _ => ans_status (bs "settled")) bad_request d
    end).

Definition adminListServices : handler := answer Services ans_services internal.

Definition adminCreateService (body : option jvalue) : handler :=
  with_body body (fun l =>
    key ← get as_string (bs "key") l;
    name ← get as_string (bs "name") l;
    port ← get (as_uint 16) (bs "port") l;
    rate ← get (as_int 64) (bs "rate_ppm") l;
    enabled ← get (as_ptr as_bool) (bs "enabled") l;
    Some (key, name, port, rate, enabled))
  (fun '(key, name, port, rate, enabled) => fun d =>
    if bool_decide (key = []) || (port =? 0) then (Failed 400, d) else
    answer (CreateService key (if bool_decide (name = []) then key else name) port rate (default true enabled))
      (fun _ => ans_status (bs "ok")) bad_request d).

Definition adminInspect (npub : gostr) : handler :=
  answer (Inspect npub) ans_inspect (fun e => match e with ErrAccountNotFound => 404 | _ => 500 end).

Definition adminAuthz : handler := answer FullSet (fun x => ans_authz x.2 (toMembers uuid_text x.1)) internal.

(** ** The routes (mountAdmin of main.go) *)

Inductive admin_route :=
| ad_enroll_token | ad_accounts | ad_whitelist | ad_credit | ad_authz | ad_account (npub : gostr)
| ad_packages | ad_new_package | ad_drop_package (id : gostr) | ad_settle | ad_services | ad_new_service.

Definition admin_handler (rt : admin_route) (rnd : list Z) (body : option jvalue) : handler :=
  match rt with
  | ad_enroll_token => adminEnrollToken rnd body
  | ad_accounts => adminCreateAccount body
  | ad_whitelist => adminWhitelist body
  | ad_credit => adminCredit body
  | ad_authz => adminAuthz
  | ad_account npub => adminInspect npub
  | ad_packages => adminListPackages
  | ad_new_package => adminCreatePackage body
  | ad_drop_package id => adminDeactivatePackage id
  | ad_settle => adminSettle body
  | ad_services => adminListServices
  | ad_new_service => adminCreateService body
  end.

Definition serve_admin (adminToken auth : gostr) (rt : admin_route) (rnd : list Z) (body : option jvalue) : handler :=
  requireAdmin adminToken auth (admin_handler rt rnd body).

End Admin.
End Admin.
