(* ===== verification/BackendFrame.v ===== *)
(** * backend/store: what each operation leaves alone

    Operations of accounts, sales and usage touch neither nodes, tokens nor
    WireGuard peers, and touch the authorized set by recomputing it only; operations
    of nodes, services and peers touch neither accounts nor sales nor the set.  So
    each operation of one component is a step that the others allow for. *)

From S2P Require Import Prelude GoStrings Netip Fipsaddr Sha256 BackendDB BackendAuthz BackendAuthzFacts BackendUsage.
From S2P Require Import BackendWhitelist BackendWhitelistFacts BackendConsent BackendPayments BackendPaymentsFacts BackendSales.
From S2P Require Import BackendWg BackendWgFacts BackendApi BackendApiFacts.
Import DB Authz AuthzFacts Usage Whitelist WhitelistFacts Consent Payments PaymentsFacts Sales Wg WgFacts Api ApiFacts.

Create HintDb within.

Module Frame.

(** ** Operations within a preorder *)

Section Within.
Context (R : relation db) `{HR : !PreOrder R}.

Definition tx_within {A} (t : Tx A) : Prop := forall d x d', t d = Ok (x, d') -> R d d'.
Definition within {A} (m : Store A) : Prop := forall d, R d (m d).2.

Lemma tw_ret {A} (a : A) : tx_within (mret a).
Proof. intros d x d' H. inv H. reflexivity. Qed.
Lemma tw_fail {A} e : tx_within (tx_fail (A := A) e).
Proof. by intros d x d' H. Qed.
Lemma tw_get {A} (f : db -> A) : tx_within (tx_get f).
Proof. intros d x d' H. inv H. reflexivity. Qed.
Lemma tw_bind {A B} (t : Tx A) (f : A -> Tx B) : tx_within t -> (forall a, tx_within (f a)) -> tx_within (t ≫= f).
Proof.
  intros Ht Hf d x d'. unfold mbind, tx_bind. destruct (t d) as [[a d1]|e] eqn:E; [|done]. intros H. etrans; [by eapply Ht|by eapply Hf].
Qed.
Lemma tw_modify (f : db -> db) : (forall d, R d (f d)) -> tx_within (tx_modify f).
Proof. intros Hf d x d' H. inv H. apply Hf. Qed.
Lemma tw_for {A} (body : A -> Tx unit) l : (forall x, tx_within (body x)) -> tx_within (tx_for body l).
Proof. intros H. induction l as [|x l IH]; [apply tw_ret|]. by apply tw_bind. Qed.

Lemma sw_ret {A} (a : A) : within (mret a).
Proof. intros d. reflexivity. Qed.
Lemma sw_fail {A} e : within (fail (A := A) e).
Proof. intros d. reflexivity. Qed.
Lemma sw_query {A} (f : db -> A) : within (query f).
Proof. intros d. reflexivity. Qed.
Lemma sw_bind {A B} (m : Store A) (f : A -> Store B) : within m -> (forall a, within (f a)) -> within (m ≫= f).
Proof.
  intros Hm Hf d. unfold mbind, store_bind. specialize (Hm d). destruct (m d) as [[a|e] d1]; [|done]. etrans; [exact Hm|apply Hf].
Qed.
Lemma sw_inTx {A} (t : Tx A) : tx_within t -> within (inTx t).
Proof. intros Ht d. unfold inTx. destruct (t d) as [[a d1]|e] eqn:E; [by eapply Ht|reflexivity]. Qed.
End Within.

#[global] Hint Resolve tw_ret tw_fail tw_get sw_ret sw_fail sw_query : within.

(** ** Accounts, sales and usage *)

(** Nodes, tokens, peers, the set and the clock stay as they are. *)
Definition aside (d d' : db) : Prop :=
  db_current d' = db_current d /\ db_revisions d' = db_revisions d /\ db_revseq d' = db_revseq d /\ db_now d' = db_now d /\
  db_nodes d' = db_nodes d /\ db_tokens d' = db_tokens d /\ db_wgpeers d' = db_wgpeers d /\ db_wgseq d' = db_wgseq d /\
  db_next d <= db_next d'.

#[export] Instance aside_preorder : PreOrder aside.
Proof. split; [intros d; unfold aside; repeat split; lia|]. intros x y z. unfold aside. intuition (congruence || lia). Qed.

Lemma aside_fresh : tx_within aside fresh_id.
Proof. intros d x d' H. inv H. unfold aside. repeat split. cbn. lia. Qed.

Lemma aside_exec_wl f : tx_within aside (exec_wl f).
Proof. intros d x d' H. apply exec_wl_inv in H as [-> _]. unfold aside. repeat split. cbn. lia. Qed.

#[export] Hint Resolve aside_fresh aside_exec_wl : within.
#[export] Hint Extern 1 (tx_within aside (tx_modify _)) =>
  (apply tw_modify; intros ?; unfold aside; repeat case_match; repeat split; cbn; lia) : within.

(** Walk through an operation, splitting its cases. *)
Ltac within_step :=
  match goal with
  | |- tx_within _ (_ ≫= _) => apply tw_bind; [apply _| |intros ?]
  | |- within _ (_ ≫= _) => apply sw_bind; [apply _| |intros ?]
  | |- within _ (inTx _) => apply sw_inTx; [apply _|]
  | |- tx_within _ (tx_for _ _) => apply tw_for; [apply _|intros ?]
  | |- tx_within _ (match ?x with _ => _ end) => destruct x
  | |- within _ (match ?x with _ => _ end) => destruct x
  | |- tx_within _ (let _ := _ in _) => cbv zeta
  | |- _ => solve [eauto with within typeclass_instances]
  end.
Ltac within := repeat within_step.

Section Steps.
Context `{MI : MapIter}.

(** Steps aside, and recomputes. *)
Definition calm_step (d d' : db) : Prop := aside d d' \/ exists r, RecomputeAuthz d = (r, d').
Definition calm : relation db := rtc calm_step.

#[export] Instance calm_preorder : PreOrder calm.
Proof. split; [intros d; apply rtc_refl|intros x y z H1 H2; by eapply rtc_trans]. Qed.

Lemma aside_calm d d' : aside d d' -> calm d d'.
Proof. intros H. apply rtc_once. by left. Qed.

Lemma calm_recompute : within calm RecomputeAuthz.
Proof. intros d. apply rtc_once. right. exists (RecomputeAuthz d).1. by destruct (RecomputeAuthz d). Qed.
Hint Resolve calm_recompute : within.

Lemma calm_recompute_unit : within calm recompute.
Proof. unfold recompute. within. Qed.
Hint Resolve calm_recompute_unit : within.

Lemma calm_account npub : within calm (GetAccountByNpub npub).
Proof. intros d. unfold GetAccountByNpub. by destruct (find_row _ _). Qed.
Hint Resolve calm_account : within.

(** A transaction that steps aside. *)
Lemma calm_tx {A} (t : Tx A) : tx_within aside t -> within calm (inTx t).
Proof. intros Ht d. unfold inTx. destruct (t d) as [[a d1]|e] eqn:E; [by eapply aside_calm, Ht|apply rtc_refl]. Qed.

Ltac calm := repeat first [solve [eauto with within typeclass_instances] | apply calm_tx | within_step].

Lemma aside_activate id a : tx_within aside (activateRowTx id a).
Proof. unfold activateRowTx. within. Qed.
Hint Resolve aside_activate : within.
Lemma aside_activateOwner acct : tx_within aside (activateOwnerTx acct).
Proof. unfold activateOwnerTx. within. Qed.
Lemma aside_insert_wl acct npub a r e p l : tx_within aside (insert_wl acct npub a r e p l).
Proof. unfold insert_wl. within. Qed.
Lemma aside_entitlement acct pu k v x : tx_within aside (insert_entitlement acct pu k v x).
Proof. unfold insert_entitlement. within. Qed.
Lemma aside_reactivate a : tx_within aside (reactivateOwnerIfOrphanTx a).
Proof. unfold reactivateOwnerIfOrphanTx. within. Qed.
Hint Resolve aside_activateOwner aside_insert_wl aside_entitlement aside_reactivate : within.

Lemma calm_derive npub : within calm (derive npub).
Proof. unfold derive. calm. Qed.
Hint Resolve calm_derive : within.

Lemma calm_create npub : within calm (CreateAccount npub).
Proof. unfold CreateAccount, insert_account, insert_owner. cbv zeta. calm. Qed.
Hint Resolve calm_create : within.

(** [AddWhitelist] renames the error of its transaction. *)
Lemma calm_renamed (t : Tx unit) : tx_within aside t ->
  within calm (fun d => match inTx t d with (Err (UniqueViolation _), d') => (Err ErrAddressInUse, d') | r => r end).
Proof. intros Ht d. pose proof (calm_tx t Ht d) as H. destruct (inTx t d) as [[x|e] d']; [done|]. by destruct e. Qed.

Lemma calm_op o d : calm d (run_op o d).
Proof.
  destruct o; cbn [run_op].
  - apply calm_create.
  - revert d. change (within calm (ActivateOwner npub)). unfold ActivateOwner. calm.
  - revert d. change (within calm (AddWhitelist ownerNpub guestNpub label)). unfold AddWhitelist. cbv zeta. calm.
    apply calm_renamed. unfold upsert_guest. within.
  - revert d. change (within calm (SetWhitelistEnabled ownerNpub guestNpub enabled)). unfold SetWhitelistEnabled, enable_tx. calm.
  - revert d. change (within calm (CreditVolume npub bytes days)). unfold CreditVolume. calm.
  - revert d. change (within calm (CreditTime npub days)). unfold CreditTime. calm.
  - revert d. change (within calm (InviteGuest MaxGuests ownerNpub guestNpub label)). unfold InviteGuest, invite_tx. cbv zeta. calm.
  - revert d. change (within calm (WithdrawInvite ownerNpub guestNpub)). unfold WithdrawInvite. calm.
  - revert d. change (within calm (AcceptInvite guestNpub hostNpub)). unfold AcceptInvite, accept_tx. calm.
  - revert d. change (within calm (DeclineInvite guestNpub hostNpub)). unfold DeclineInvite. calm.
  - apply calm_recompute.
Qed.

Lemma aside_settle sel e : tx_within aside (settle_tx sel e).
Proof. unfold settle_tx, grantEntitlementTx. within. Qed.
Lemma aside_void inv st : tx_within aside (void_tx inv st).
Proof. unfold void_tx. within. Qed.
Lemma aside_consume acct w : tx_within aside (consumeVolume acct w).
Proof. unfold consumeVolume. within. Qed.
Hint Resolve aside_settle aside_void aside_consume : within.

Lemma calm_package k n v dy pr u : within calm (CreatePackage k n v dy pr u).
Proof. unfold CreatePackage. calm. Qed.
Hint Resolve calm_package : within.

Lemma calm_seed l : within calm (seed l).
Proof. induction l as [|[[[[k n] v] dy] pr] l IH]; cbn [seed]; calm. Qed.
Hint Resolve calm_seed : within.

Lemma calm_pay o d : calm d (run_pay o d).
Proof.
  destruct o; cbn [run_pay].
  - apply calm_op.
  - apply calm_package.
  - revert d. change (within calm (DeactivatePackage id)). unfold DeactivatePackage. calm.
  - revert d. change (within calm SeedPackages). unfold SeedPackages. calm.
  - revert d. change (within calm (CreatePurchase npub packageID)). unfold CreatePurchase. calm.
  - revert d. change (within calm (AttachInvoice purchaseID invoiceID checkoutURL payRequest)). unfold AttachInvoice. calm.
  - revert d. change (within calm (MarkProcessing invoiceID)). unfold MarkProcessing. calm.
  - revert d. change (within calm (GrantByInvoice invoiceID)). unfold GrantByInvoice. calm.
  - revert d. change (within calm (SettlePurchase purchaseID)). unfold SettlePurchase. calm.
  - revert d. change (within calm (VoidByInvoice invoiceID invalid)). unfold VoidByInvoice. calm.
  - revert d. change (within calm (VoidByInvoice invoiceID expired)). unfold VoidByInvoice. calm.
  - revert d. change (within calm (IngestUsage nodeID r)). unfold IngestUsage, ingest_tx, ingest_sample. calm.
Qed.

(** A revocation returned by an ingest is of an address that was authorized. *)
Lemma ingest_removed nodeID r d removed d' : IngestUsage nodeID r d = (Ok removed, d') -> Forall (fun a => is_Some (db_current d !! a)) removed.
Proof.
  unfold IngestUsage. unfold mbind, store_bind, query, inTx. destruct (ingest_tx _ _ _ d) as [[fr d1]|e] eqn:E; [|done].
  assert (Ha : aside d d1).
  { assert (W : tx_within aside (ingest_tx (serviceMetaByKey d) nodeID r)) by (unfold ingest_tx, ingest_sample; within). by eapply W. }
  destruct fr; [|intros [= <- _]; constructor]. unfold mret, store_ret.
  destruct (recompute_run d1) as (rm & rev & d2 & E2 & _ & _ & _ & _ & _ & Hrm). rewrite E2. intros [= <- _]. cbn [fst].
  apply Forall_forall. intros a [Hin _]%Hrm. destruct Ha as (Hc & _). by rewrite Hc in Hin.
Qed.

(** *** As steps of the other components *)

Lemma recompute_tables d r d' : RecomputeAuthz d = (r, d') -> other_tables d d'.
Proof. destruct (recompute_run d) as (rm & rev & d2 & E & C & _). rewrite E. intros [= _ <-]. apply C. Qed.

Lemma calm_steps (S : relation db) : (forall d d', aside d d' -> S d d') -> (forall d r d', RecomputeAuthz d = (r, d') -> S d d') ->
  forall d d', calm d d' -> rtc S d d'.
Proof. intros H1 H2 d d' H. eapply rtc_subrel; [|exact H]. intros x y [Hx|[r Hx]]; eauto. Qed.

Lemma calm_log d d' : calm d d' -> rtc log_step d d'.
Proof.
  apply calm_steps; clear.
  - intros d d' (E1 & E2 & E3 & E4 & _). apply step_other; try done; lia.
  - intros d r d' H. by eapply step_recompute.
Qed.

Lemma same_nodes_columns d d' : db_nodes d' = db_nodes d ->
  forall n', n' ∈ db_nodes d' -> wg_columns n' = (None, None) \/ exists n, n ∈ db_nodes d /\ wg_columns n' = wg_columns n.
Proof. intros E n' Hn. right. exists n'. by rewrite <- E. Qed.

Lemma calm_wg pools cap d d' : calm d d' -> rtc (wg_step pools cap) d d'.
Proof.
  apply calm_steps; clear.
  - intros d d' (_ & _ & _ & _ & E1 & _ & E2 & E3 & E4). apply wg_other; try done. by apply same_nodes_columns.
  - intros d r d' H%recompute_tables. unfold other_tables in H. apply wg_other; try apply same_nodes_columns; intuition (congruence || lia).
Qed.

Lemma calm_node d d' : calm d d' -> rtc node_step d d'.
Proof.
  apply calm_steps; clear.
  - intros d d' (_ & _ & _ & _ & E1 & E2 & _ & _ & E4). by apply ns_other.
  - intros d r d' H%recompute_tables. unfold other_tables in H. apply ns_other; intuition (congruence || lia).
Qed.

(** ** Nodes, services, peers, retention and the clock *)

Inductive sys_op :=
| so_token (rnd : list Z) (note : gostr)
| so_enroll (token pubkey name : gostr) (rnd : list Z)
| so_heartbeat (nodeID : Z) (version : gostr)
| so_announce (nodeID : Z) (pubkey endpoint : gostr)
| so_silent (nodeID : Z)
| so_peer (sessionNpub forNpub label pubkey : gostr)
| so_unpeer (sessionNpub : gostr) (id : Z)
| so_seed
| so_service (key name : gostr) (port rate : Z) (enabled : bool)
| so_aggregate (cutoff : Z)
| so_compact (cutoff : Z)
| so_clock (t : Z).

Context (pools : WgPools) (cap : Z).

(** The clock does not go back. *)
Definition run_sys (o : sys_op) (d : db) : db :=
  match o with
  | so_token rnd note => (CreateEnrollToken rnd note d).2
  | so_enroll token pubkey name rnd => (EnrollNode token pubkey name rnd d).2
  | so_heartbeat nodeID version => (Heartbeat nodeID version d).2
  | so_announce nodeID pubkey endpoint => (SetNodeWg nodeID pubkey endpoint d).2
  | so_silent nodeID => (ClearNodeWg nodeID d).2
  | so_peer sess forNpub label key => (CreateWgPeer pools cap sess forNpub label key d).2
  | so_unpeer sess id => (DeleteWgPeer sess id d).2
  | so_seed => (SeedDefaults d).2
  | so_service key name port rate enabled => (CreateService key name port rate enabled d).2
  | so_aggregate cutoff => (AggregateUsage cutoff d).2
  | so_compact cutoff => (CompactAuthzRevisions cutoff d).2
  | so_clock t => set_now (Z.max t (db_now d)) d
  end.

(** Accounts, sales and the set stay as they are; [compact] and the clock aside. *)
Definition apart (d d' : db) : Prop :=
  db_whitelist d' = db_whitelist d /\ db_accounts d' = db_accounts d /\ db_packages d' = db_packages d /\
  db_purchases d' = db_purchases d /\ db_entitlements d' = db_entitlements d /\ db_current d' = db_current d /\
  db_revisions d' = db_revisions d /\ db_revseq d' = db_revseq d /\ db_now d' = db_now d /\ db_next d <= db_next d'.

#[local] Instance apart_preorder : PreOrder apart.
Proof. split; [intros d; unfold apart; repeat split; lia|]. intros x y z. unfold apart. intuition (congruence || lia). Qed.

Lemma apart_fresh : tx_within apart fresh_id.
Proof. intros d x d' H. inv H. unfold apart. repeat split. cbn. lia. Qed.
Hint Resolve apart_fresh : within.
Hint Extern 1 (tx_within apart (tx_modify _)) =>
  (apply tw_modify; intros ?; unfold apart; repeat split; cbn; lia) : within.

Lemma apart_enroll token pubkey name rnd : within apart (EnrollNode token pubkey name rnd).
Proof. unfold EnrollNode. within. Qed.
Lemma apart_service key name port rate enabled : within apart (CreateService key name port rate enabled).
Proof. unfold CreateService. cbv zeta. within. Qed.
Lemma apart_seed : within apart SeedDefaults.
Proof. unfold SeedDefaults. within. Qed.
Lemma apart_heartbeat nodeID version : within apart (Heartbeat nodeID version).
Proof. unfold Heartbeat, Services. within. Qed.
Lemma apart_token rnd note : within apart (CreateEnrollToken rnd note).
Proof. unfold CreateEnrollToken. cbv zeta. within. Qed.
Lemma apart_unpeer sess id : within apart (DeleteWgPeer sess id).
Proof. unfold DeleteWgPeer. within. Qed.

Definition timely (o : sys_op) : bool := match o with so_compact _ | so_clock _ => false | _ => true end.

Lemma apart_sys o d : timely o = true -> apart d (run_sys o d).
Proof.
  destruct o; intros H; try discriminate H; cbn [run_sys].
  - apply apart_token.
  - apply apart_enroll.
  - apply apart_heartbeat.
  - unfold SetNodeWg. repeat case_match; cbn; unfold apart; repeat split; cbn; lia.
  - unfold apart. repeat split. cbn. lia.
  - unfold CreateWgPeer. repeat case_match; cbn; unfold apart; repeat split; cbn; lia.
  - apply apart_unpeer.
  - apply apart_seed.
  - apply apart_service.
  - unfold apart. repeat split. cbn. lia.
Qed.

Lemma sys_pay o d : pay_step d (run_sys o d).
Proof.
  destruct (timely o) eqn:E.
  - destruct (apart_sys o d E) as (E1 & E2 & E3 & E4 & E5 & _ & _ & _ & _ & E6). apply pay_other; try done.
    unfold no_sale, sales. rewrite E3, E4, E5. by repeat split.
  - destruct o; try discriminate E; cbn [run_sys]; by apply pay_other; repeat split.
Qed.

Lemma sys_log o d : log_step d (run_sys o d).
Proof.
  destruct (timely o) eqn:E.
  - destruct (apart_sys o d E) as (_ & _ & _ & _ & _ & E1 & E2 & E3 & E4 & _). apply step_other; try done; lia.
  - destruct o; try discriminate E; cbn [run_sys]; [by eapply step_compact|]. apply step_other; cbn; done || lia.
Qed.

(** Nodes, tokens and peers stay as they are. *)
Definition elsewhere (d d' : db) : Prop :=
  db_nodes d' = db_nodes d /\ db_tokens d' = db_tokens d /\ db_wgpeers d' = db_wgpeers d /\ db_wgseq d' = db_wgseq d /\
  db_next d <= db_next d'.

#[local] Instance elsewhere_preorder : PreOrder elsewhere.
Proof. split; [intros d; unfold elsewhere; repeat split; lia|]. intros x y z. unfold elsewhere. intuition (congruence || lia). Qed.

Lemma elsewhere_fresh : tx_within elsewhere fresh_id.
Proof. intros d x d' H. inv H. unfold elsewhere. repeat split. cbn. lia. Qed.
Hint Resolve elsewhere_fresh : within.
Hint Extern 1 (tx_within elsewhere (tx_modify _)) =>
  (apply tw_modify; intros ?; unfold elsewhere; repeat split; cbn; lia) : within.

Lemma elsewhere_service key name port rate enabled : within elsewhere (CreateService key name port rate enabled).
Proof. unfold CreateService. cbv zeta. within. Qed.
Lemma elsewhere_seed : within elsewhere SeedDefaults.
Proof. unfold SeedDefaults. within. Qed.

Lemma elsewhere_wg d d' : elsewhere d d' -> wg_step pools cap d d'.
Proof. intros (E1 & _ & E2 & E3 & E4). apply wg_other; try done. by apply same_nodes_columns. Qed.

Lemma elsewhere_node d d' : elsewhere d d' -> node_step d d'.
Proof. intros (E1 & E2 & _ & _ & E4). by apply ns_other. Qed.

Lemma enroll_shape token pubkey name rnd d : let d' := (EnrollNode token pubkey name rnd d).2 in
  db_wgpeers d' = db_wgpeers d /\ db_wgseq d' = db_wgseq d /\ db_next d <= db_next d' /\
  (db_nodes d' = db_nodes d \/ exists n, db_nodes d' = db_nodes d ++ [n] /\ wg_columns n = (None, None)).
Proof.
  unfold EnrollNode, inTx. tx_unfold. destruct (find_row _ _) as [e|]; [|cbn; repeat split; [lia|by left]].
  destruct (et_used e); [cbn; repeat split; [lia|by left]|]. unfold fresh_id, tx_modify. cbn. repeat split; [lia|]. right. by eexists.
Qed.

Lemma token_shape rnd note d : let d' := (CreateEnrollToken rnd note d).2 in
  db_wgpeers d' = db_wgpeers d /\ db_wgseq d' = db_wgseq d /\ db_next d' = db_next d /\ db_nodes d' = db_nodes d.
Proof. unfold CreateEnrollToken, inTx. tx_unfold. by destruct (existsb _ _). Qed.

Lemma sys_wg o d : wg_step pools cap d (run_sys o d).
Proof.
  destruct o; cbn [run_sys]; try (by constructor).
  - destruct (token_shape rnd note d) as (E1 & E2 & E3 & E4). apply wg_other; try done; [lia|]. by apply same_nodes_columns.
  - destruct (enroll_shape token pubkey name rnd d) as (E1 & E2 & E3 & E4). apply wg_other; try done.
    destruct E4 as [E4|(n & E4 & En)]; [by apply same_nodes_columns|]. rewrite E4. intros n' [Hn| ->%list_elem_of_singleton]%elem_of_app; [right; by exists n'|by left].
  - apply wg_other; try done. cbn. intros n' (n & Hn & ->)%elem_of_update_rows. right. exists n. split; [done|]. by destruct (_ =? _).
  - apply elsewhere_wg, elsewhere_seed.
  - apply elsewhere_wg, elsewhere_service.
  - apply elsewhere_wg. unfold elsewhere. repeat split. cbn. lia.
  - apply elsewhere_wg. unfold elsewhere. repeat split. cbn. lia.
  - apply elsewhere_wg. unfold elsewhere. repeat split. cbn. lia.
Qed.

Lemma sys_node o d : node_step d (run_sys o d).
Proof.
  destruct o; cbn [run_sys]; try (by constructor).
  - unfold CreateWgPeer. repeat case_match; cbn; apply ns_other; cbn; done || lia.
  - unfold DeleteWgPeer, inTx. tx_unfold. destruct (existsb _ _); by apply ns_other.
  - apply elsewhere_node, elsewhere_seed.
  - apply elsewhere_node, elsewhere_service.
Qed.

(** ** All together *)

(** A step of the store: an operation of any component. *)
Inductive store_op := so_pay (o : pay_op) | so_sys (o : sys_op).

Definition run_store (o : store_op) (d : db) : db :=
  match o with
  | so_pay o => run_pay o d
  | so_sys o => run_sys o d
  end.

Definition store_step (d d' : db) : Prop := exists o, d' = run_store o d.

Lemma store_step_all d d' : store_step d d' ->
  rtc pay_step d d' /\ rtc (wg_step pools cap) d d' /\ rtc node_step d d' /\ rtc log_step d d'.
Proof.
  intros [[o|o] ->]; cbn [run_store].
  - pose proof (calm_pay o d) as H. split; [apply rtc_once, pay_run|]. split; [by apply calm_wg|]. split; [by apply calm_node|by apply calm_log].
  - split; [apply rtc_once, sys_pay|]. split; [apply rtc_once, sys_wg|]. split; [apply rtc_once, sys_node|apply rtc_once, sys_log].
Qed.

Lemma store_steps_all d d' : rtc store_step d d' ->
  rtc pay_step d d' /\ rtc (wg_step pools cap) d d' /\ rtc node_step d d' /\ rtc log_step d d'.
Proof.
  induction 1 as [d|d d1 d' H _ (I1 & I2 & I3 & I4)]; [repeat split; apply rtc_refl|].
  destruct (store_step_all _ _ H) as (H1 & H2 & H3 & H4). repeat split; by eapply rtc_trans.
Qed.

End Steps.
End Frame.
