(* ===== verification/PortalFormat.v ===== *)
(** * backend/portal.go: the numbers on the pages

    The functions [sats], [rate] and [humanBytes] the templates call, with
    [strconv.FormatFloat(f, 'f', -1, 64)] and the [%.1f] of fmt. *)

From S2P Require Import Prelude GoStrings Netip GoFloat RateLimit.
From Stdlib Require Import SpecFloat.
Import GoFloat RateLimit.

Module PortalFormat.

Definition sats (msat : Z) : gostr := FormatInt (Z.quot msat 1000) ++ bs " sats".

(** The shortest decimals, never in exponent form. *)
Definition FormatFloat_f (f : float64) : gostr :=
  match f with
  | S754_finite s m e =>
      let '(d, p) := shortest shortest_fuel (Zpos m) e (first_unit (Zpos m) e) in
      let ds := FormatUint 10 d in
      (if s then [45] else []) ++ fmtF ds (Z.of_nat (length ds) + p)
  | f => FormatFloat f
  end.

(** The sign × in UTF-8. *)
Definition times_sign : gostr := [195; 151].
Definition rate (ppm : Z) : gostr := FormatFloat_f (fdiv (of_int ppm) (of_int 1000000)) ++ times_sign.

(** ** humanBytes *)

(** [for x := n / u; x >= u; x /= u { div *= u; exp++ }] *)
Fixpoint unit_loop (fuel : nat) (x div exp : Z) : Z * Z :=
  match fuel with
  | O => (div, exp)
  | S f => if 1000 <=? x then unit_loop f (x / 1000) (i64 (div * 1000)) (exp + 1) else (div, exp)
  end.

(** An int64 has fewer than seven groups of three digits. *)
Definition unit_fuel : nat := 6.

(** [m * 2 ^ e] in tenths, rounded to the nearest and to even between two. *)
Definition tenths (m e : Z) : Z :=
  if 0 <=? e then 10 * m * 2 ^ e else
  let den := 2 ^ (- e) in
  let q := 10 * m / den in
  match 2 * (10 * m mod den) ?= den with
  | Lt => q
  | Gt => q + 1
  | Eq => if Z.even q then q else q + 1
  end.

(** [%.1f] of a float that is finite and not negative. *)
Definition fmt_f1 (f : float64) : gostr :=
  let t := match f with S754_finite _ m e => tenths (Zpos m) e | _ => 0 end in
  FormatUint 10 (t / 10) ++ [46; 48 + t mod 10].

(** [None] is an index out of range. *)
Definition humanBytes (n : Z) : option gostr :=
  if n <? 1000 then Some (FormatInt n ++ bs " B") else
  let '(div, exp) := unit_loop unit_fuel (n / 1000) 1000 0 in
  c ← bs "kMGTPE" !! Z.to_nat exp;
  Some (fmt_f1 (fdiv (of_int n) (of_int div)) ++ [32; c; 66]).

(** *** The unit *)

Lemma unit_loop_spec n : n <= int64_max -> forall fuel exp, 0 <= exp -> 1000 ^ (exp + 1) <= n < 1000 ^ (exp + 2 + Z.of_nat fuel) ->
  exists exp', exp <= exp' /\ unit_loop fuel (n / 1000 ^ (exp + 1)) (1000 ^ (exp + 1)) exp = (1000 ^ (exp' + 1), exp') /\
    1000 ^ (exp' + 1) <= n < 1000 ^ (exp' + 2).
Proof.
  intros Hn fuel. induction fuel as [|f IH]; intros exp He Hr; cbn [unit_loop].
  - exists exp. rewrite Z.add_0_r in Hr. split; [lia|]. split; [done|exact Hr].
  - assert (Hp : 0 < 1000 ^ (exp + 1)) by (apply Z.pow_pos_nonneg; lia).
    assert (E2 : 1000 ^ (exp + 1) * 1000 = 1000 ^ (exp + 2)) by (replace (exp + 2) with (exp + 1 + 1) by lia; rewrite (Z.pow_add_r 1000 (exp + 1) 1) by lia; lia).
    destruct (1000 <=? _) eqn:E; bool_hyps.
    + assert (Hge : 1000 ^ (exp + 2) <= n) by (rewrite <- E2; pose proof (Z.mul_div_le n (1000 ^ (exp + 1)) Hp); nia).
      rewrite E2, i64_small by (unfold in_i64, int64_min, int64_max in *; lia). rewrite Z.div_div by lia. rewrite E2.
      destruct (IH (exp + 1)) as (e' & H1 & H2 & H3); [lia| |].
      * replace (exp + 1 + 1) with (exp + 2) by lia. replace (exp + 1 + 2 + Z.of_nat f) with (exp + 2 + Z.of_nat (S f)) by lia. lia.
      * replace (exp + 1 + 1) with (exp + 2) in H2 by lia. exists e'. split; [lia|]. by split.
    + exists exp. split; [lia|]. split; [done|]. split; [lia|]. rewrite <- E2. pose proof (Z.mul_succ_div_gt n (1000 ^ (exp + 1)) Hp). nia.
Qed.

(** Every int64 is printed; from 1000 on in the unit that leaves one to three digits
    before the point, and the computation of the unit does not overflow. *)
Theorem humanBytes_unit n : in_i64 n ->
  is_Some (humanBytes n) /\
  (1000 <= n -> exists exp c, 0 <= exp /\ bs "kMGTPE" !! Z.to_nat exp = Some c /\ 1000 ^ (exp + 1) <= n < 1000 ^ (exp + 2) /\
     humanBytes n = Some (fmt_f1 (fdiv (of_int n) (of_int (1000 ^ (exp + 1)))) ++ [32; c; 66])).
Proof.
  intros Hn. unfold in_i64 in Hn.
  assert (H : 1000 <= n -> exists exp c, 0 <= exp /\ bs "kMGTPE" !! Z.to_nat exp = Some c /\ 1000 ^ (exp + 1) <= n < 1000 ^ (exp + 2) /\
     humanBytes n = Some (fmt_f1 (fdiv (of_int n) (of_int (1000 ^ (exp + 1)))) ++ [32; c; 66])).
  { intros H. destruct (unit_loop_spec n (proj2 Hn) unit_fuel 0) as (exp & H1 & H2 & H3 & H4); [lia| |].
    { change (1000 ^ (0 + 1)) with 1000. change (1000 ^ (0 + 2 + Z.of_nat unit_fuel)) with 1000000000000000000000000. unfold int64_max in Hn. lia. }
    assert (Hb : exp <= 5).
    { destruct (Z.le_gt_cases exp 5) as [|Hg]; [done|]. assert (1000 ^ 7 <= 1000 ^ (exp + 1)) by (apply Z.pow_le_mono_r; lia).
      unfold int64_max in *. lia. }
    assert (exists c, bs "kMGTPE" !! Z.to_nat exp = Some c) as [c Hc] by (apply lookup_lt_is_Some; cbn; lia).
    exists exp, c. split; [lia|]. split; [done|]. split; [done|]. unfold humanBytes. destruct (n <? 1000) eqn:E; bool_hyps; [lia|].
    change (1000 ^ (0 + 1)) with 1000 in H2. rewrite H2, Hc. done. }
  split; [|done]. destruct (Z.le_gt_cases 1000 n) as [Hg|Hl]; [destruct (H Hg) as (? & ? & _ & _ & _ & ->); by eexists|].
  unfold humanBytes. rewrite (proj2 (Z.ltb_lt n 1000)) by lia. by eexists.
Qed.

(** A package, a full disk and the largest number; just below a unit it rounds up to
    a fourth digit. *)
Example bytes_printed : map humanBytes [999; 1500; 10000000000; 9223372036854775807; 999950] =
  map (fun s => Some (bs s)) ["999 B"; "1.5 kB"; "10.0 GB"; "9.2 EB"; "1000.0 kB"]%string.
Proof. vm_compute. reflexivity. Qed.
Example numbers_printed : map rate [1000000; 1500000; 10; 123456789012] = map (fun s => bs s ++ times_sign) ["1"; "1.5"; "0.00001"; "123456.789012"]%string /\
  map sats [21000; 1999; -1] = map bs ["21 sats"; "1 sats"; "0 sats"]%string.
Proof. split; vm_compute; reflexivity. Qed.

End PortalFormat.
