(* ===== verification/Portal.v ===== *)
(** * backend: the portal

    Models backend/portal.go (its handlers as one definition each, in the state
    monad over the store and the portal's in-memory state), the cookie of
    backend/session.go and the catalog helpers.  A request is what the handlers
    read of it; a page is the template's name with the data it is given.  One
    instant stands for [time.Now()] throughout a request.  [url.Parse], the JSON
    decoder, the Schnorr routines, the payment provider and the text of a uuid are
    arguments; the mints and the Cashu libraries are those of [BackendCashu]. *)

From S2P Require Import Prelude GoStrings GoJson Netip GoNet Fipsaddr Sha256 Nostr RateLimit Tokens BackendDB BackendAuthz.
From S2P Require Import BackendWhitelist BackendPayments BackendCashu BackendWg BackendSummary BackendApi.
Import DB Authz Npub Derive Whitelist Payments Wg Summary Api Tokens.

Module Portal.

(** ** Requests and responses *)

Record request := {
  rq_now : Z;                        (* time.Now() *)
  rq_cookie : option gostr;          (* the session cookie *)
  rq_RemoteAddr : gostr;
  rq_Host : gostr;
  rq_https : bool;                   (* TLS, or X-Forwarded-Proto: https *)
  rq_FormValue : gostr -> gostr;
  rq_Query : gostr -> gostr;
  rq_json : bool;                    (* Content-Type: application/json *)
  rq_event : option Nostr.Event;     (* what the decoder reads from the body or the form *)
  rq_nonce : list Z;                 (* rand.Read *)
  rq_keypair : option (gostr * gostr); (* genWgKeypair *)
  rq_body : option gostr;            (* io.ReadAll of at most 1 MiB *)
  rq_body_json : option Json.jvalue  (* the body, if it is JSON *)
}.

Record Cookie := { ck_Value : gostr; ck_HttpOnly : bool; ck_Secure : bool; ck_SameSiteLax : bool; ck_MaxAge : Z; ck_Expires : option Z }.

Inductive json := JStr (s : gostr) | JBool (b : bool) | JTime (t : Z).

Inductive page :=
| login_page (verifyURL : gostr) (hint : option gostr) (fipsSource : bool) (error : gostr)
| dashboard_page (s : AccountSummary) (active : bool) (err msg : gostr) (thisDevice : option Addr) (ownerParked : bool)
    (pac : gostr * gostr) (nodes : list WgNode) (peers : list WgPeer)
| wg_new_page (peer : WgPeer) (configs : list (gostr * gostr)) (ownKey : bool)
| packages_page (pkgs : list Package) (services : list ServiceInfo) (npub : gostr) (pending : bool) (err : gostr)
| captive_page (title message : gostr) (addr : option Addr) (npub : option gostr)
| help_page (services : list ServiceInfo) (pac : gostr * gostr)
| pay_page (id bolt11 name : gostr) (priceMsat : Z) (status : gostr) (qr : gostr) (cashu : bool) (cashuAmount : option Z)
    (cashuReq : option (gostr * gostr)).

Inductive response :=
| Redirect (url : gostr)
| HttpError (msg : gostr) (status : Z)
| Json (status : Z) (body : list (gostr * json))
| Page (p : page)
| Pac (target : gostr)
| Empty (status : Z).

(** ** The portal *)

Record InvoiceRequest := { ir_PriceMsat : Z; ir_OrderID : gostr; ir_Description : gostr; ir_RedirectURL : gostr }.
Record Invoice := { in_ID : gostr; in_CheckoutLink : gostr; in_Bolt11 : gostr }.

Record config := {
  cf_sessionSecret : list Z; cf_challengeSecret : list Z; cf_captiveSecret : list Z;
  cf_trustFipsSource : bool; cf_secureCookies : bool; cf_autoSettle : bool;
  cf_pay : option (InvoiceRequest -> option Invoice);
  cf_cashu : option Cashu.CashuRedeemer;
  cf_publicURL : gostr; cf_pacHost : gostr; cf_wg : wgSettings;
  cf_maxOpenPurchases : Z; cf_MaxGuests : Z; cf_MaxWgPeers : Z
}.

Section State.
Context `{CL : Cashu.CashuLib}.

(** [po_sent] is the requests sent to mints. *)
Record portal := {
  po_store : db;
  po_used : gmap gostr Z;
  po_inviteLimit : RateLimit.rateLimiter;
  po_buyLimit : RateLimit.rateLimiter;
  po_sent : list Cashu.mint_post
}.

Definition set_store (d : db) (p : portal) : portal :=
  {| po_store := d; po_used := po_used p; po_inviteLimit := po_inviteLimit p; po_buyLimit := po_buyLimit p; po_sent := po_sent p |}.
Definition set_used (u : gmap gostr Z) (p : portal) : portal :=
  {| po_store := po_store p; po_used := u; po_inviteLimit := po_inviteLimit p; po_buyLimit := po_buyLimit p; po_sent := po_sent p |}.
Definition set_inviteLimit (l : RateLimit.rateLimiter) (p : portal) : portal :=
  {| po_store := po_store p; po_used := po_used p; po_inviteLimit := l; po_buyLimit := po_buyLimit p; po_sent := po_sent p |}.
Definition set_buyLimit (l : RateLimit.rateLimiter) (p : portal) : portal :=
  {| po_store := po_store p; po_used := po_used p; po_inviteLimit := po_inviteLimit p; po_buyLimit := l; po_sent := po_sent p |}.
Definition set_sent (l : list Cashu.mint_post) (p : portal) : portal :=
  {| po_store := po_store p; po_used := po_used p; po_inviteLimit := po_inviteLimit p; po_buyLimit := po_buyLimit p; po_sent := l |}.

(** A call of the store. *)
Definition st {A} (m : Store A) : State portal (result store_err A) := embed po_store set_store m.

(** A call of the redeemer. *)
Definition at_mint {A} (m : State (list Cashu.mint_post) A) : State portal A := embed po_sent set_sent m.

Definition newPortal (d : db) : portal :=
  {| po_store := d; po_used := NewUsedChallenges; po_inviteLimit := RateLimit.newRateLimiter 10 (10 * time_Minute);
     po_buyLimit := RateLimit.newRateLimiter 5 time_Minute; po_sent := [] |}.

Definition handler : Type := request -> State portal (response * option Cookie).

Definition respond (x : response) : State portal (response * option Cookie) := mret (x, None).

End State.

(** ** Helpers *)

(** [strings.EqualFold] on ASCII hosts; other characters compare as they are. *)
Definition EqualFold (a b : gostr) : bool := bool_decide (ToLower a = ToLower b).

Definition splitHostPort (hostport : gostr) : option (gostr * gostr) :=
  let i := LastIndexByte hostport 58 in
  if i <? 0 then None
  else if HasPrefix hostport (bs "[") then
    let e := IndexByte hostport 93 in
    if e <? 0 then None
    else Some (take (Z.to_nat (e - 1)) (drop 1 hostport), drop (Z.to_nat (e + 2)) hostport)
  else Some (take (Z.to_nat i) hostport, drop (Z.to_nat (i + 1)) hostport).

(** net/http sets RemoteAddr to host:port, with an IPv6 host in brackets. *)
Definition sourceAddr (r : request) : option Addr :=
  let host := match splitHostPort (rq_RemoteAddr r) with Some (h, _) => h | None => rq_RemoteAddr r end in
  ParseAddr host.

Definition verifyURL (r : request) : gostr :=
  (if rq_https r then bs "https" else bs "http") ++ bs "://" ++ rq_Host r ++ bs "/auth/verify".

Definition urlq (s : gostr) : gostr := QueryEscape s ≫= fun c => if c =? 43 then bs "%20" else [c].

Definition friendlyErr (e : store_err) : gostr :=
  match e with
  | ErrAddressInUse => bs "That identity is already active on another account."
  | ErrGuestLimit => bs "You have reached the maximum number of shared identities for this account."
  | ErrNoActiveEntitlement =>
      bs "That account has no active package right now — only accounts with an active package can share one."
  | ErrSelfWhitelist => bs "That is this account's own identity."
  | ErrInviteNotFound => bs "That invitation no longer exists."
  | _ => bs "Could not add that identity (check the npub)."
  end.

Definition friendlyWgErr (e : store_err) : gostr :=
  match e with
  | ErrWgPeerLimit => bs "That identity already has the maximum number of WireGuard devices."
  | ErrWgForbidden => bs "That identity is not on your account."
  | ErrWgBadKey => bs "That is not a valid WireGuard public key (or it is already in use)."
  | ErrWgNotActive => bs "That identity is not active on any account yet."
  | ErrWgPoolFull => bs "No free tunnel address right now; contact the operator."
  | ErrWgPeerNotFound => bs "That WireGuard device was not found."
  | _ => bs "Could not create the WireGuard device."
  end.

Definition anyActive (s : AccountSummary) : bool := existsb ew_Active (as_Entitlements s).

(** [strings.Replace(s, old, new, 1)] for a non-empty [old]. *)
Fixpoint ReplaceFirst (s old new : gostr) : gostr :=
  if HasPrefix s old then new ++ drop (length old) s
  else match s with [] => [] | c :: r => c :: ReplaceFirst r old new end.

(** ** Sessions *)

Definition redirect_err `{CL : Cashu.CashuLib} (msg : gostr) : State portal (response * option Cookie) := respond (Redirect (bs "/dashboard?err=" ++ urlq msg)).
Definition redirect_msg `{CL : Cashu.CashuLib} (msg : gostr) : State portal (response * option Cookie) := respond (Redirect (bs "/dashboard?msg=" ++ urlq msg)).

Section Handlers.
Context `{MI : MapIter} `{DR : Driver} `{CL : Cashu.CashuLib} `{MN : !Cashu.Mints}.
Context (uuid_text : Z -> gostr) (parse_uuid : gostr -> option Z) (text_le : relation gostr) `{!RelDecision text_le}.
Context (url_Host url_Hostname : gostr -> option gostr).   (* of url.Parse; None is its error *)
Context (ParsePubKey ParseSignature : list Z -> bool) (schnorr_Verify : list Z -> list Z -> list Z -> bool).
Context (cfg : config).

Definition session_of (r : request) : option gostr := session (cf_sessionSecret cfg) (rq_cookie r) (rq_now r).

Definition session_cookie_of (r : request) (npub : gostr) : Cookie :=
  {| ck_Value := setSession (cf_sessionSecret cfg) npub (rq_now r); ck_HttpOnly := true; ck_Secure := cf_secureCookies cfg;
     ck_SameSiteLax := true; ck_MaxAge := 0; ck_Expires := Some (session_expiry (rq_now r)) |}.

Definition clearSession : Cookie :=
  {| ck_Value := []; ck_HttpOnly := true; ck_Secure := cf_secureCookies cfg; ck_SameSiteLax := true; ck_MaxAge := -1; ck_Expires := None |}.

(** The handlers that need a session. *)
Definition with_session (r : request) (k : gostr -> State portal (response * option Cookie)) : State portal (response * option Cookie) :=
  match session_of r with Some npub => k npub | None => respond (Redirect (bs "/login")) end.

(** ** Identification *)

Definition fipsSource (r : request) : bool :=
  cf_trustFipsSource cfg && match sourceAddr r with Some src => Valid src | None => false end.

Definition transparentNpub (r : request) : State portal (option gostr) :=
  if negb (cf_trustFipsSource cfg) then mret None else
  match sourceAddr r with
  | None => mret None
  | Some src =>
      if negb (Valid src) then mret None else
      let claim := rq_FormValue r (bs "npub") in
      if negb (bool_decide (claim = [])) then
        mret (if is_ok (CheckDerivation claim src) then Some claim else None)
      else
        x ← st (NpubByAddr src);
        mret (match x with Ok npub => Some npub | Err _ => None end)
  end.

(** Session first, then the source address. *)
Definition identify (r : request) : State portal (option gostr) :=
  match session_of r with Some npub => mret (Some npub) | None => transparentNpub r end.

Definition audienceOK (u : gostr) (r : request) : bool :=
  match url_Host u with
  | None => false
  | Some h =>
      if bool_decide (h = []) then false
      else if EqualFold h (rq_Host r) then true
      else match url_Host (cf_publicURL cfg) with
           | Some ph => negb (bool_decide (ph = [])) && EqualFold h ph
           | None => false
           end
  end.

Definition root : handler := fun r =>
  match session_of r with Some _ => respond (Redirect (bs "/dashboard")) | None => respond (Redirect (bs "/login")) end.

Definition loginPage : handler := fun r =>
  match session_of r with
  | Some _ => respond (Redirect (bs "/dashboard"))
  | None =>
      hint ← transparentNpub r;
      match hint with
      | Some npub => respond (Page (login_page (verifyURL r) (Some npub) false []))
      | None => respond (Page (login_page (verifyURL r) None (fipsSource r) []))
      end
  end.

Definition authChallenge : handler := fun r =>
  respond (Json 200 [(bs "challenge", JStr (IssueChallenge (cf_challengeSecret cfg) (rq_nonce r) (time_Unix (rq_now r))))]).

Definition authFail (r : request) (msg : gostr) : State portal (response * option Cookie) :=
  respond (if rq_json r then Json 401 [(bs "error", JStr msg)] else HttpError msg 401).

Definition consume (challenge : gostr) (now : Z) : State portal bool := embed po_used set_used (Consume challenge now).

Definition tags_of (e : Nostr.Event) : list (list gostr) := map (default []) (Nostr.ev_Tags e).

Definition authVerify : handler := fun r =>
  match rq_event r with
  | None => authFail r (if rq_json r then bs "bad request" else bs "invalid event JSON")
  | Some ev =>
      match Nostr.Verify ParsePubKey ParseSignature schnorr_Verify ev with
      | Err _ => authFail r (bs "signature did not verify")
      | Ok npub =>
          if negb (Nostr.ev_Kind ev =? Nostr.AuthEventKind) then authFail r (bs "wrong event kind") else
          let now := time_Unix (rq_now r) in
          let challenge := ExtractChallenge (tags_of ev) in
          if negb (is_ok (VerifyChallenge (cf_challengeSecret cfg) challenge now)) then authFail r (bs "invalid or expired challenge") else
          if (Nostr.ev_CreatedAt ev <? i64 (now - ChallengeTTLSeconds)) || (i64 (now + 60) <? Nostr.ev_CreatedAt ev)
          then authFail r (bs "stale event") else
          if negb (audienceOK (ExtractTag (tags_of ev) (bs "u")) r)
          then authFail r (bs "event must carry a " ++ [34] ++ bs "u" ++ [34] ++ bs " tag naming this portal (" ++ verifyURL r ++ bs ")") else
          fresh ← consume challenge now;
          if negb fresh then authFail r (bs "challenge already used") else
          x ← st (CreateAccount npub);
          match x with
          | Err _ => authFail r (bs "could not create account")
          | Ok _ =>
              mret (if rq_json r then Json 200 [(bs "redirect", JStr (bs "/dashboard"))] else Redirect (bs "/dashboard"),
                    Some (session_cookie_of r npub))
          end
      end
  end.

Definition authFips : handler := fun r =>
  who ← transparentNpub r;
  match who with
  | None =>
      if negb (bool_decide (TrimSpace (rq_FormValue r (bs "npub")) = [])) && fipsSource r
      then respond (Page (login_page (verifyURL r) None true
        (bs "That npub doesn't match your fips source address. Enter your fips npub — your fips node identity (from `fipsctl show identity-cache`), not a nostr login npub.")))
      else respond (Redirect (bs "/login"))
  | Some npub =>
      x ← st (CreateAccount npub);
      match x with
      | Err _ => respond (HttpError (bs "could not create account") 500)
      | Ok _ => mret (Redirect (bs "/dashboard"), Some (session_cookie_of r npub))
      end
  end.

Definition logout : handler := fun r => mret (Redirect (bs "/login"), Some clearSession).

(** ** Catalog helpers *)

Definition exitHost : gostr :=
  let h := if bool_decide (cf_pacHost cfg = []) then default [] (url_Hostname (cf_publicURL cfg))
           else match SplitHostPort (cf_pacHost cfg) with Some (host, _) => host | None => cf_pacHost cfg end in
  if HasSuffix h (bs ".fips") then h else [].

Definition pacTarget (key : gostr) : State portal gostr :=
  if bool_decide (exitHost = []) then mret [] else
  x ← st EnabledServices;
  mret (match x with
        | Ok services => match find_row (fun s => bool_decide (sf_Key s = key)) services with
                         | Some s => exitHost ++ bs ":" ++ FormatInt (sf_Port s)
                         | None => []
                         end
        | Err _ => []
        end).

Definition has_service (key : gostr) (l : list ServiceInfo) : bool := existsb (fun s => bool_decide (sf_Key s = key)) l.

Definition pacLinks : State portal (gostr * gostr) :=
  if bool_decide (exitHost = []) then mret ([], []) else
  x ← st EnabledServices;
  mret (match x with
        | Ok services =>
            (if has_service (bs "clearnet") services then cf_publicURL cfg ++ bs "/proxy-clear.pac" else [],
             if has_service (bs "tor") services then cf_publicURL cfg ++ bs "/proxy-priv.pac" else [])
        | Err _ => ([], [])
        end).

Definition pacFor (key : gostr) : handler := fun r =>
  target ← pacTarget key;
  respond (if bool_decide (target = []) then HttpError (bs "PAC not available for this profile on this exit") 404 else Pac target).

Definition wgNodes : State portal (list WgNode) :=
  x ← st EnabledServices;
  match x with
  | Err _ => mret []
  | Ok services =>
      if negb (has_service (bs "wg") services) then mret [] else
      y ← st (WgNodes text_le);
      mret (match y with Ok nodes => nodes | Err _ => [] end)
  end.

(** A page advertises the PAC links only when the first is there. *)
Definition shown (links : gostr * gostr) : gostr * gostr := if bool_decide (links.1 = []) then ([], []) else links.

(** ** Pages *)

Definition device_hint (r : request) (s : AccountSummary) : option Addr :=
  match sourceAddr r with
  | Some src =>
      if cf_trustFipsSource cfg && Valid src then
        if existsb (fun e => bool_decide (ww_Addr e = src)) (as_Whitelist s) then None else Some src
      else None
  | None => None
  end.

Definition owner_parked (s : AccountSummary) : bool :=
  existsb (fun e => bool_decide (ww_Role e = owner) && negb (ww_Enabled e)) (as_Whitelist s).

(** The account's data, creating the account on the first visit. *)
Definition load_summary (npub : gostr) : State portal (result store_err AccountSummary) :=
  x ← st (Summary text_le npub);
  match x with
  | Err ErrAccountNotFound =>
      y ← st (CreateAccount npub);
      match y with Ok _ => st (Summary text_le npub) | Err e => mret (Err e) end
  | _ => mret x
  end.

Definition dashboard : handler := fun r =>
  with_session r (fun npub =>
    x ← load_summary npub;
    match x with
    | Err _ => respond (HttpError (bs "error loading account") 500)
    | Ok s =>
        links ← pacLinks;
        nodes ← wgNodes;
        peers ← match nodes with
                | [] => mret []
                | _ => y ← st (ListWgPeers (ws_pools (cf_wg cfg)) (ac_id (as_Account s)));
                       mret (match y with Ok l => l | Err _ => [] end)
                end;
        respond (Page (dashboard_page s (anyActive s) (rq_Query r (bs "err")) (rq_Query r (bs "msg")) (device_hint r s)
          (owner_parked s) (shown links) nodes peers))
    end).

Definition help : handler := fun r =>
  x ← st EnabledServices;
  links ← pacLinks;
  respond (Page (help_page (match x with Ok l => l | Err _ => [] end) (shown links))).

(** The page for [npub], with the cookie set on the way. *)
Definition show_packages (r : request) (npub : gostr) (c : option Cookie) : State portal (response * option Cookie) :=
  x ← st ListPackages;
  match x with
  | Err _ => mret (HttpError (bs "error loading packages") 500, c)
  | Ok pkgs =>
      y ← st EnabledServices;
      mret (Page (packages_page pkgs (match y with Ok l => l | Err _ => [] end) npub
              (negb (bool_decide (rq_Query r (bs "pending") = []))) (rq_Query r (bs "err"))), c)
  end.

Definition packagesPage : handler := fun r =>
  match session_of r with
  | Some npub => show_packages r npub None
  | None =>
      who ← transparentNpub r;
      match who with
      | None => respond (Redirect (bs "/login"))
      | Some npub => show_packages r npub (Some (session_cookie_of r npub))
      end
  end.

(** The latest expiry of an active grant. *)
Definition access_until (s : AccountSummary) : Z :=
  foldl (fun t e => if ew_Active e && (t <? ew_ExpiresAt e) then ew_ExpiresAt e else t) 0 (as_Entitlements s).

Definition status : handler := fun r =>
  who ← identify r;
  match who with
  | None => respond (Json 401 [(bs "active", JBool false);
      (bs "error", JStr (bs "cannot identify account: sign in, or request over fips with ?npub=<npub>"))])
  | Some npub =>
      let reply (active : bool) (expiresAt : Z) :=
        if active then
          Json 200 ([(bs "active", JBool true); (bs "npub", JStr npub)] ++
                    if time_IsZero expiresAt then [] else [(bs "expires_at", JTime expiresAt)])
        else Json 402 [(bs "active", JBool false); (bs "npub", JStr npub);
                       (bs "buy_url", JStr (cf_publicURL cfg ++ bs "/packages?npub=" ++ QueryEscape npub))] in
      x ← st (Summary text_le npub);
      match x with
      | Err ErrAccountNotFound => respond (reply false 0)
      | Err _ => respond (HttpError (bs "error loading account") 500)
      | Ok s => respond (reply (anyActive s) (access_until s))
      end
  end.

Definition captive : handler := fun r =>
  match Tokens.Verify (cf_captiveSecret cfg) (rq_Query r (bs "t")) (time_Unix (rq_now r)) with
  | Err _ => respond (Page (captive_page (bs "Sign in to get online")
      (bs "You're not signed in yet. Sign in with your nostr identity to buy access and start browsing.") None None))
  | Ok addr =>
      x ← st (NpubByAddr addr);
      match x with
      | Err _ => respond (Page (captive_page (bs "Welcome to fips-exit")
          (bs "We don't recognize this fips identity yet. Sign in with your nostr key to get started — it only takes a moment.") (Some addr) None))
      | Ok npub =>
          y ← st (Summary text_le npub);
          let out := match y with Ok s => negb (anyActive s) | Err _ => false end in
          respond (Page (if out then captive_page (bs "Out of data")
              (bs "Your data package has run out or expired. Top up in a few taps and you'll be back online right away — Lightning payments unlock instantly.") (Some addr) (Some npub)
            else captive_page (bs "Sign in to get online")
              (bs "You're not signed in yet. Sign in with your nostr identity to buy access and start browsing.") (Some addr) (Some npub)))
      end
  end.

(** ** Guests *)

(** The device the request comes from is the guest's. *)
Definition same_device (r : request) (guest_ : gostr) : bool :=
  match sourceAddr r with
  | Some src =>
      cf_trustFipsSource cfg && Valid src &&
      match FromNpub guest_ with Ok gaddr => bool_decide (gaddr = src) | Err _ => false end
  | None => false
  end.

Definition allow_invite (npub : gostr) (now : Z) : State portal bool :=
  embed po_inviteLimit set_inviteLimit (RateLimit.allow npub now).
Definition allow_buy (npub : gostr) (now : Z) : State portal bool :=
  embed po_buyLimit set_buyLimit (RateLimit.allow npub now).

Definition invitation_sent : State portal (response * option Cookie) :=
  redirect_msg (bs "Invitation sent. It takes effect once that identity accepts it from its own dashboard.").

Definition whitelistAdd : handler := fun r =>
  with_session r (fun npub =>
    ok ← allow_invite npub (rq_now r);
    if negb ok then redirect_err (bs "Too many invitations in a short time; try again later.") else
    let guest_ := TrimSpace (rq_FormValue r (bs "guest_npub")) in
    x ← st (InviteGuest (cf_MaxGuests cfg) npub guest_ (TrimSpace (rq_FormValue r (bs "label"))));
    match x with
    | Err e => redirect_err (friendlyErr e)
    | Ok false => redirect_msg (bs "That identity is already active on your account (label updated).")
    | Ok true =>
        if same_device r guest_ then
          y ← st (AcceptInvite guest_ npub);
          match y with
          | Ok _ => redirect_msg (bs "This device is now on your account.")
          | Err _ => invitation_sent
          end
        else invitation_sent
    end).

Definition whitelistAccept : handler := fun r =>
  with_session r (fun npub =>
    x ← st (AcceptInvite npub (TrimSpace (rq_FormValue r (bs "host_npub"))));
    match x with
    | Err e => redirect_err (friendlyErr e)
    | Ok _ => redirect_msg (bs "You now share that account's package.")
    end).

Definition whitelistDecline : handler := fun r =>
  with_session r (fun npub =>
    x ← st (DeclineInvite npub (TrimSpace (rq_FormValue r (bs "host_npub"))));
    match x with
    | Err e => redirect_err (friendlyErr e)
    | Ok _ => respond (Redirect (bs "/dashboard"))
    end).

Definition whitelistUseOwn : handler := fun r =>
  with_session r (fun npub =>
    x ← st (ActivateOwner npub);
    match x with
    | Err e => redirect_err (friendlyErr e)
    | Ok _ => redirect_msg (bs "Your traffic now draws on your own packages.")
    end).

Definition whitelistToggle : handler := fun r =>
  with_session r (fun npub =>
    x ← st (SetWhitelistEnabled npub (TrimSpace (rq_FormValue r (bs "guest_npub"))) (bool_decide (rq_FormValue r (bs "enabled") = bs "true")));
    match x with
    | Err e => redirect_err (friendlyErr e)
    | Ok _ => respond (Redirect (bs "/dashboard"))
    end).

(** ** WireGuard devices *)

Definition device_config (priv : gostr) (peer : WgPeer) (n : WgNode) : gostr :=
  let c := renderWgConfig priv peer n (cf_wg cfg) (cf_publicURL cfg) in
  if bool_decide (priv = []) then ReplaceFirst c (bs "PrivateKey = " ++ [10]) (bs "PrivateKey = <your private key>" ++ [10]) else c.

Definition wgNew : handler := fun r =>
  with_session r (fun npub =>
    nodes ← wgNodes;
    if bool_decide (length nodes = 0%nat) then respond (HttpError (bs "WireGuard is not offered on this exit") 404) else
    let device := TrimSpace (rq_FormValue r (bs "device_npub")) in
    let forNpub := if bool_decide (device = []) then npub else device in
    let label := TrimSpace (rq_FormValue r (bs "label")) in
    let given := TrimSpace (rq_FormValue r (bs "pubkey")) in
    let keys := if bool_decide (given = []) then rq_keypair r else Some ([], given) in
    match keys with
    | None => respond (HttpError (bs "key generation failed") 500)
    | Some (priv, pub) =>
        x ← st (CreateWgPeer (ws_pools (cf_wg cfg)) (cf_MaxWgPeers cfg) npub forNpub label pub);
        match x with
        | Err e => redirect_err (friendlyWgErr e)
        | Ok peer => respond (Page (wg_new_page peer (map (fun n => (wn_Name n, device_config priv peer n)) nodes) (bool_decide (priv = []))))
        end
    end).

Definition wgDelete : handler := fun r =>
  with_session r (fun npub =>
    let could_not := redirect_err (bs "Could not remove that WireGuard device.") in
    match parse_uuid (TrimSpace (rq_FormValue r (bs "id"))) with
    | None => could_not
    | Some id =>
        x ← st (DeleteWgPeer npub id);
        match x with
        | Ok _ => redirect_msg (bs "WireGuard device removed. The exit stops accepting its key within a minute.")
        | Err ErrWgPeerNotFound => redirect_err (friendlyWgErr ErrWgPeerNotFound)
        | Err _ => could_not
        end
    end).

(** ** Purchases *)

Definition buy_failed : State portal (response * option Cookie) := respond (Redirect (bs "/packages?err=1")).

(** The invoice of a purchase just created, at the payment provider. *)
Definition invoice_purchase (CreateInvoice : InvoiceRequest -> option Invoice) (packageID id : Z) : State portal (response * option Cookie) :=
  x ← st (GetPackage packageID);
  match x with
  | Err _ => buy_failed
  | Ok pkg =>
      match CreateInvoice {| ir_PriceMsat := pg_PriceMsat pkg; ir_OrderID := uuid_text id; ir_Description := pg_Name pkg;
                             ir_RedirectURL := cf_publicURL cfg ++ bs "/dashboard" |} with
      | None => buy_failed
      | Some inv =>
          if negb (bool_decide (in_Bolt11 inv = [])) then
            y ← st (AttachInvoice id (in_ID inv) (cf_publicURL cfg ++ bs "/pay/" ++ uuid_text id) (in_Bolt11 inv));
            match y with Err _ => buy_failed | Ok _ => respond (Redirect (bs "/pay/" ++ uuid_text id)) end
          else
            y ← st (AttachInvoice id (in_ID inv) (in_CheckoutLink inv) []);
            match y with Err _ => buy_failed | Ok _ => respond (Redirect (in_CheckoutLink inv)) end
      end
  end.

(** From the point where the buyer is known. *)
Definition buy_as (r : request) (npub : gostr) : State portal (response * option Cookie) :=
  ok ← allow_buy npub (rq_now r);
  if negb ok then respond (Redirect (bs "/packages?err=limit")) else
  x ← st (CreateAccount npub);
  match x with
  | Err _ => respond (HttpError (bs "could not create account") 500)
  | Ok _ =>
      o ← st (OpenPurchases npub);
      if match o with Ok l => cf_maxOpenPurchases cfg <=? Z.of_nat (length l) | Err _ => false end
      then respond (Redirect (bs "/packages?err=limit")) else
      match parse_uuid (TrimSpace (rq_FormValue r (bs "package_id"))) with
      | None => buy_failed
      | Some packageID =>
          y ← st (CreatePurchase npub packageID);
          match y with
          | Err _ => buy_failed
          | Ok id =>
              match cf_pay cfg with
              | Some CreateInvoice => invoice_purchase CreateInvoice packageID id
              | None =>
                  if cf_autoSettle cfg then
                    z ← st (SettlePurchase id);
                    match z with
                    | Err _ => respond (HttpError (bs "settle failed") 500)
                    | Ok _ => respond (Redirect (bs "/dashboard"))
                    end
                  else respond (Redirect (bs "/packages?pending=1"))
              end
          end
      end
  end.

Definition buy : handler := fun r =>
  who ← identify r;
  match who with
  | None => respond (Redirect (bs "/login"))
  | Some npub => buy_as r npub
  end.

Definition status_text (s : pstatus) : gostr :=
  match s with pending => bs "pending" | processing => bs "processing" | settled => bs "settled" | expired => bs "expired" | invalid => bs "invalid" end.

Definition payStatus (pathID : gostr) : handler := fun r =>
  match session_of r with
  | None => respond (Json 401 [(bs "error", JStr (bs "unauthorized"))])
  | Some npub =>
      match parse_uuid pathID with
      | None => respond (Json 404 [(bs "error", JStr (bs "not found"))])
      | Some id =>
          x ← st (PurchaseForPay id npub);
          respond (match x with
                   | Ok v => Json 200 [(bs "status", JStr (status_text (pv_Status v)))]
                   | Err _ => Json 404 [(bs "error", JStr (bs "not found"))]
                   end)
      end
  end.

(** *** The pay page *)

(** The amount and the request shown to Cashu wallets. *)
Definition cashu_offer (c : Cashu.CashuRedeemer) (pathID : gostr) (priceMsat : Z) : Z * option (gostr * gostr) :=
  let meltSat := Cashu.MeltAmount (u64 (Z.quot priceMsat 1000)) in
  let target := cf_publicURL cfg ++ bs "/pay/" ++ pathID ++ bs "/cashu-receive" in
  (meltSat, (fun req => (req, Cashu.qrDataURI req)) <$> Cashu.PaymentRequest c meltSat target).

Definition pay_data (pathID : gostr) (v : PayView) : page :=
  let lightning := negb (bool_decide (pv_Bolt11 v = [])) in
  let offer := match cf_cashu cfg with Some c => if lightning then Some (cashu_offer c pathID (pv_PriceMsat v)) else None | None => None end in
  pay_page pathID (pv_Bolt11 v) (pv_PackageName v) (pv_PriceMsat v) (status_text (pv_Status v))
    (if lightning then Cashu.qrDataURI (ToUpper (pv_Bolt11 v)) else [])
    (match cf_cashu cfg with Some _ => true | None => false end) (fst <$> offer) (offer ≫= snd).

Definition payPage (pathID : gostr) : handler := fun r =>
  with_session r (fun npub =>
    match parse_uuid pathID with
    | None => respond (HttpError (bs "purchase not found") 404)
    | Some id =>
        x ← st (PurchaseForPay id npub);
        match x with
        | Err _ => respond (HttpError (bs "purchase not found") 404)
        | Ok v => respond (if bool_decide (pv_Status v = settled) then Redirect (bs "/dashboard") else Page (pay_data pathID v))
        end
    end).

(** *** Cashu *)

(** The text of an error, without the detail wrapped in it. *)
Definition melt_error (e : Cashu.cashu_err) : gostr :=
  match e with
  | Cashu.ErrDecodeToken => bs "payments: decode cashu token"
  | Cashu.ErrMintNotAccepted => bs "payments: cashu mint not accepted"
  | Cashu.ErrQuote => bs "payments: cashu melt quote"
  | Cashu.ErrTokenUnderfunded => bs "payments: cashu token does not cover invoice + fees"
  | Cashu.ErrMelt => bs "payments: cashu melt"
  | Cashu.ErrNotPaid => bs "payments: cashu melt not paid"
  end.

(** A NUT-18 payload with proofs, or else a bare token. *)
Definition receive_melt (c : Cashu.CashuRedeemer) (body : gostr) (json : option Json.jvalue) (bolt11 : gostr)
    : State (list Cashu.mint_post) (result Cashu.cashu_err Z) :=
  match json ≫= Cashu.payload_of with
  | Some payload =>
      match Cashu.pp_Proofs payload with
      | [] => Cashu.Melt c body bolt11
      | proofs => Cashu.MeltProofs c (Cashu.pp_Mint payload) proofs bolt11
      end
  | None => Cashu.Melt c body bolt11
  end.

Definition cashuReceive (pathID : gostr) : handler := fun r =>
  let err status msg := respond (Json status [(bs "error", JStr msg)]) in
  match cf_cashu cfg with
  | None => err 404 (bs "cashu payments not enabled")
  | Some c =>
      match parse_uuid pathID with
      | None => err 404 (bs "purchase not found")
      | Some id =>
          x ← st (PurchaseInvoice id);
          match x with
          | Err _ => err 404 (bs "purchase not found")
          | Ok (bolt11, status) =>
              if bool_decide (status = settled) then respond (Json 200 []) else
              if bool_decide (bolt11 = []) then err 400 (bs "no lightning invoice for this purchase") else
              match rq_body r with
              | None => err 400 (bs "could not read body")
              | Some body =>
                  m ← at_mint (receive_melt c body (rq_body_json r) bolt11);
                  match m with
                  | Err e => err 400 (bs "melt failed: " ++ melt_error e)
                  | Ok _ => respond (Json 200 [])
                  end
              end
          end
      end
  end.

Definition payCashu (pathID : gostr) : handler := fun r =>
  match session_of r with
  | None => respond (HttpError (bs "unauthorized") 401)
  | Some npub =>
      match cf_cashu cfg with
      | None => respond (HttpError (bs "cashu payments not enabled") 404)
      | Some c =>
          match parse_uuid pathID with
          | None => respond (HttpError (bs "purchase not found") 404)
          | Some id =>
              x ← st (PurchaseForPay id npub);
              match x with
              | Err _ => respond (HttpError (bs "purchase not found") 404)
              | Ok v =>
                  if bool_decide (pv_Status v = settled) then respond (Empty 200) else
                  if bool_decide (pv_Bolt11 v = []) then respond (HttpError (bs "no lightning invoice for this purchase") 400) else
                  let token := TrimSpace (rq_FormValue r (bs "token")) in
                  if bool_decide (token = []) then respond (HttpError (bs "no token") 400) else
                  m ← at_mint (Cashu.Melt c token (pv_Bolt11 v));
                  match m with
                  | Err e => respond (HttpError (bs "token rejected: " ++ melt_error e) 400)
                  | Ok _ => respond (Empty 202)
                  end
              end
          end
      end
  end.

(** ** Routes *)

Inductive route :=
| rt_root | rt_login | rt_challenge | rt_verify | rt_fips | rt_logout | rt_dashboard
| rt_add | rt_toggle | rt_accept | rt_decline | rt_use_own | rt_wg_new | rt_wg_delete
| rt_captive | rt_help | rt_pac (key : gostr) | rt_packages | rt_status | rt_buy
| rt_pay (id : gostr) | rt_pay_status (id : gostr) | rt_cashu (id : gostr) | rt_cashu_receive (id : gostr).

Definition serve (rt : route) : handler :=
  match rt with
  | rt_root => root | rt_login => loginPage | rt_challenge => authChallenge | rt_verify => authVerify
  | rt_fips => authFips | rt_logout => logout | rt_dashboard => dashboard
  | rt_add => whitelistAdd | rt_toggle => whitelistToggle | rt_accept => whitelistAccept
  | rt_decline => whitelistDecline | rt_use_own => whitelistUseOwn | rt_wg_new => wgNew | rt_wg_delete => wgDelete
  | rt_captive => captive | rt_help => help | rt_pac key => pacFor key | rt_packages => packagesPage
  | rt_status => status | rt_buy => buy | rt_pay id => payPage id | rt_pay_status id => payStatus id
  | rt_cashu id => payCashu id | rt_cashu_receive id => cashuReceive id
  end.

End Handlers.
End Portal.
