(* ===== verification/PortalFacts.v ===== *)
(** * Theorems about the portal

    Whatever a request does to the store is done in the name of an identity the
    request authenticated (by its cookie, by its source address on the mesh, or by
    a signature), and sessions are opened for such identities only.  With the
    consent rules of the store: no request moves an address to another account
    unless it speaks for that address or for the account holding it. *)

From S2P Require Import Prelude GoStrings Netip GoNet Fipsaddr FipsaddrFacts Sha256 Nostr RateLimit Tokens BackendDB BackendAuthz.
From S2P Require Import BackendAuthzFacts BackendUsage BackendWhitelist BackendWhitelistFacts BackendConsent BackendPayments.
From S2P Require Import BackendPaymentsFacts BackendSales BackendCashu BackendWg BackendWgFacts BackendSummary BackendSummaryFacts BackendApi Portal.
Import DB Authz AuthzFacts Npub Derive Bech32 NpubFacts DeriveFacts Whitelist WhitelistFacts Consent Payments PaymentsFacts Sales Wg WgFacts Summary SummaryFacts Api Tokens Portal.

Module PortalFacts.

(** ** Spellings of an npub *)

Lemma TrimSpace_plain s : Forall (fun c => is_space c = false) s -> TrimSpace s = s.
Proof.
  intros Hs. assert (H : forall t, Forall (fun c => is_space c = false) t -> trim_left t = t).
  { intros t Ht. apply trim_left_fix. by destruct Ht. }
  unfold TrimSpace. rewrite (H s Hs), (H (reverse s)); [apply reverse_involutive|].
  rewrite Forall_forall in *. intros c Hc. apply Hs. by apply elem_of_reverse.
Qed.

Lemma charset_plain i : five i -> is_space (charset_at i) = false.
Proof.
  unfold five. intros Hi. assert (H : forallb (fun i => negb (is_space (charset_at i))) (map Z.of_nat (seq 0 32)) = true) by (vm_compute; reflexivity).
  rewrite forallb_forall in H. specialize (H i). apply negb_true_iff, H, in_map_iff. exists (Z.to_nat i). split; [lia|]. apply in_seq. lia.
Qed.

(** An npub that decodes has its normal spelling in lower case. *)
Lemma normNpub_decodes s a : FromNpub s = Ok a -> normNpub s = ToLower s /\ FromNpub (normNpub s) = Ok a.
Proof.
  intros (k & H & ->)%FromNpub_inv.
  assert (Hn : normNpub s = ToLower s).
  { destruct (DecodeNpub_text s k H) as (w & E & Hw & _). unfold normNpub. rewrite <- TrimSpace_ToLower, E. apply TrimSpace_plain, Forall_app_2.
    - apply (bool_decide_unpack _). vm_compute. exact I.
    - apply Forall_fmap. eapply Forall_weaken; [exact Hw|]. exact charset_plain. }
  split; [done|]. rewrite Hn. unfold FromNpub. by rewrite (DecodeNpub_lower _ _ H).
Qed.

(** ** Actions on the store, and in whose name they are taken *)

Section Authority.
Context `{MI : MapIter} `{DR : Driver} `{CL : Cashu.CashuLib} `{MN : !Cashu.Mints}.
Context (uuid_text : Z -> gostr) (parse_uuid : gostr -> option Z) (text_le : relation gostr) `{!RelDecision text_le}.
Context (url_Host url_Hostname : gostr -> option gostr).
Context (ParsePubKey ParseSignature : list Z -> bool) (schnorr_Verify : list Z -> list Z -> list Z -> bool).
Context (cfg : config).

Inductive act :=
| act_wl (o : wl_op)
| act_buy (npub : gostr) (packageID : Z)
| act_invoice (id : Z) (invoiceID url request : gostr)
| act_settle (id : Z)
| act_wg (sessionNpub forNpub label pubkey : gostr)
| act_unwg (sessionNpub : gostr) (id : Z).

Definition run_act (a : act) (d : db) : db :=
  match a with
  | act_wl o => run_op o d
  | act_buy n k => (CreatePurchase n k d).2
  | act_invoice i inv url req => (AttachInvoice i inv url req d).2
  | act_settle i => (SettlePurchase i d).2
  | act_wg s f l k => (CreateWgPeer (ws_pools (cf_wg cfg)) (cf_MaxWgPeers cfg) s f l k d).2
  | act_unwg s i => (DeleteWgPeer s i d).2
  end.

(** A purchase of the identity's own account. *)
Definition own_purchase (d : db) (npub : gostr) (id : Z) : Prop :=
  exists p, find_row (by_id id) (db_purchases d) = Some p /\ account_of d npub = Some (pu_account p).

(** [a] is an action of [npub]: its own account, its own consent, its own guests,
    its own purchases.  Operator actions are nobody's. *)
Definition act_of (npub : gostr) (a : act) (d : db) : Prop :=
  match a with
  | act_wl (op_create n) | act_wl (op_activate n) | act_wl (op_accept n _) | act_wl (op_decline n _) => n = npub
  | act_wl (op_enable h _ _) | act_wl (op_invite _ h _ _) => h = npub
  | act_wl _ => False
  | act_buy n _ => n = npub
  | act_invoice i _ _ _ | act_settle i => own_purchase d npub i
  | act_wg s _ _ _ => s = npub
  | act_unwg s _ => s = npub
  end.

(** ** Authentication *)

(** The request comes from the mesh address that [npub] derives. *)
Definition from_source (r : request) (npub : gostr) : Prop :=
  cf_trustFipsSource cfg = true /\
  exists src, sourceAddr r = Some src /\ Valid src = true /\ FromNpub (normNpub npub) = Ok src.

(** The request carries a login event of [npub]: signed by its key, of the login
    kind, recent, with a live challenge of this portal, naming this portal. *)
Definition by_signature (r : request) (npub : gostr) : Prop :=
  exists ev, rq_event r = Some ev /\ Nostr.Verify ParsePubKey ParseSignature schnorr_Verify ev = Ok npub /\
    Nostr.ev_Kind ev = Nostr.AuthEventKind /\
    VerifyChallenge (cf_challengeSecret cfg) (ExtractChallenge (tags_of ev)) (time_Unix (rq_now r)) = Ok tt /\
    audienceOK url_Host cfg (ExtractTag (tags_of ev) (bs "u")) r = true.

Definition authenticated (r : request) (npub : gostr) : Prop :=
  session_of cfg r = Some npub \/ from_source r npub \/ by_signature r npub.

(** One action of an authenticated identity. *)
Definition acts (r : request) (d d' : db) : Prop :=
  exists npub a, authenticated r npub /\ act_of npub a d /\ d' = run_act a d.

(** A cookie that opens a session is for an authenticated identity. *)
Definition cookie_ok (r : request) (c : option Cookie) : Prop :=
  match c with
  | None => True
  | Some ck => ck = clearSession cfg \/ exists npub, authenticated r npub /\ ck = session_cookie_of cfg r npub
  end.

(** ** A program logic for handlers

    From a store satisfying [P], the run changes the store by actions of
    authenticated identities only, and ends in [Q]. *)
Definition triple {A} (r : request) (P : db -> Prop) (m : State portal A) (Q : A -> db -> Prop) : Prop :=
  forall p, P (po_store p) -> rtc (acts r) (po_store p) (po_store (m p).2) /\ Q (m p).1 (po_store (m p).2).

Definition safe (r : request) (P : db -> Prop) (m : State portal (response * option Cookie)) : Prop :=
  triple r P m (fun x _ => cookie_ok r x.2).

Lemma t_ret {A} r (P : db -> Prop) (a : A) (Q : A -> db -> Prop) : (forall d, P d -> Q a d) -> triple r P (mret a) Q.
Proof. intros H p Hp. split; [apply rtc_refl|]. by apply H. Qed.

Lemma t_bind {A B} r P (m : State portal A) (k : A -> State portal B) R Q :
  triple r P m R -> (forall a, triple r (R a) (k a) Q) -> triple r P (m ≫= k) Q.
Proof.
  intros Hm Hk p Hp. unfold mbind, state_bind. destruct (Hm p Hp) as [S1 R1]. destruct (m p) as [a p1] eqn:E. cbn [fst snd] in *.
  destruct (Hk a p1 R1) as [S2 Q2]. split; [etransitivity; [exact S1|exact S2]|done].
Qed.

Lemma t_conseq {A} r (P P' : db -> Prop) (m : State portal A) (Q Q' : A -> db -> Prop) :
  (forall d, P d -> P' d) -> (forall a d, Q' a d -> Q a d) -> triple r P' m Q' -> triple r P m Q.
Proof. intros H1 H2 H p Hp. destruct (H p (H1 _ Hp)) as [S HQ]. split; [done|auto]. Qed.

(** A read of the store. *)
Lemma t_read {A} r P (m : Store A) : (forall d, (m d).2 = d) -> triple r P (st m) (fun x d => P d /\ x = (m d).1).
Proof.
  intros Hm p Hp. unfold st, embed. specialize (Hm (po_store p)). destruct (m (po_store p)) as [a d] eqn:E. cbn in *. subst d.
  split; [apply rtc_refl|]. split; [done|]. by rewrite E.
Qed.

(** A write, as an action of [npub]. *)
Lemma t_act {A} r (P : db -> Prop) (m : Store A) npub a :
  authenticated r npub -> (forall d, P d -> act_of npub a d) -> (forall d, (m d).2 = run_act a d) ->
  triple r P (st m) (fun x d' => exists d, P d /\ m d = (x, d')).
Proof.
  intros Ha Hof Hr p Hp. unfold st, embed. specialize (Hr (po_store p)). destruct (m (po_store p)) as [x d] eqn:E. cbn in *. subst d.
  split; [|by exists (po_store p)]. apply rtc_once. exists npub, a. split; [done|]. split; [by apply Hof|done].
Qed.

(** The memory of the portal. *)
Lemma t_memory {A T} r P (proj : portal -> T) inj (m : State T A) :
  (forall t p, po_store (inj t p) = po_store p) -> triple r P (embed proj inj m) (fun _ d => P d).
Proof.
  intros Hi p Hp. unfold embed. destruct (m (proj p)) as [a t]. cbn. rewrite Hi. split; [apply rtc_refl|done].
Qed.

Lemma safe_respond r P x : safe r P (respond x).
Proof. apply t_ret. done. Qed.
Hint Resolve safe_respond : fips.

Lemma safe_session r P k : (forall npub, session_of cfg r = Some npub -> safe r P (k npub)) -> safe r P (with_session cfg r k).
Proof. intros H. unfold with_session. destruct (session_of cfg r) eqn:E; [by apply H|apply safe_respond]. Qed.

(** ** Reads *)

Definition reads {A} (m : Store A) : Prop := forall d, (m d).2 = d.

Lemma reads_bind {A B} (m : Store A) (f : A -> Store B) : reads m -> (forall a, reads (f a)) -> reads (m ≫= f).
Proof.
  intros Hm Hf d. unfold mbind, store_bind. specialize (Hm d). destruct (m d) as [[a|e] d1]; cbn in Hm; subst; [apply Hf|done].
Qed.

Lemma reads_query {A} (f : db -> A) : reads (query f).
Proof. done. Qed.

Lemma reads_scanned {A} (f : db -> option A) : reads (fun d => scanned (f d) d).
Proof. intros d. by destruct (f d). Qed.

Lemma reads_account npub : reads (GetAccountByNpub npub).
Proof. intros d. unfold GetAccountByNpub. by destruct (find_row _ _). Qed.

Lemma reads_Summary npub : reads (Summary text_le npub).
Proof.
  unfold Summary. repeat (apply reads_bind; [first [apply reads_account|apply reads_query|apply reads_scanned]|intros ?]). by intros d.
Qed.

Lemma reads_NpubByAddr a : reads (NpubByAddr a).
Proof. intros d. unfold NpubByAddr. by destruct (merge_sort _ _). Qed.

Lemma reads_GetPackage i : reads (GetPackage i).
Proof. intros d. unfold GetPackage. by destruct (find_row _ _). Qed.

Lemma reads_PurchaseForPay i n : reads (PurchaseForPay i n).
Proof. intros d. unfold PurchaseForPay. destruct (find_row _ _); [|done]. by destruct (find_row _ _). Qed.

Lemma reads_PurchaseInvoice i : reads (PurchaseInvoice i).
Proof. intros d. unfold PurchaseInvoice. by destruct (find_row _ _). Qed.

Hint Resolve reads_query reads_Summary reads_NpubByAddr reads_GetPackage reads_PurchaseForPay reads_PurchaseInvoice : fips.

(** A read whose answer is not used for authority. *)
Lemma t_look {A B} r P (m : Store A) (k : result store_err A -> State portal B) Q :
  reads m -> (forall x, triple r P (k x) Q) -> triple r P (st m ≫= k) Q.
Proof.
  intros Hm Hk. eapply t_bind; [by apply t_read|]. intros x. eapply t_conseq; [|done|apply (Hk x)]. by intros d [? _].
Qed.

Lemma t_then {A B} r P (m : State portal A) (k : A -> State portal B) Q :
  triple r P m (fun _ d => P d) -> (forall x, triple r P (k x) Q) -> triple r P (m ≫= k) Q.
Proof. intros Hm Hk. eapply t_bind; [exact Hm|done]. Qed.

Lemma t_pull {A} r (P : db -> Prop) (F : Prop) (m : State portal A) Q :
  (forall d, P d -> F) -> (F -> triple r P m Q) -> triple r P m Q.
Proof. intros H1 H2 p Hp. exact (H2 (H1 _ Hp) p Hp). Qed.

(** ** Identification *)

Lemma source_claim npub src : FromNpub npub = Ok src -> FromNpub (normNpub npub) = Ok src.
Proof. intros H. by apply normNpub_decodes in H as [_ H]. Qed.

Lemma NpubByAddr_derives a d npub : wl_ok d -> (NpubByAddr a d).1 = Ok npub -> FromNpub (normNpub npub) = Ok a.
Proof.
  intros Hd. unfold NpubByAddr. destruct (merge_sort _ _) as [|w l] eqn:E; [done|]. intros [= <-].
  assert (Hw : w ∈ w :: l) by (by left). rewrite <- E, merge_sort_Permutation in Hw. apply list_elem_of_filter in Hw as [Hp Hw]. unfold at_addr in Hp. bool_hyps.
  apply source_claim. match goal with H : w_addr w = a |- _ => rewrite <- H end. by apply (derived d).
Qed.

Definition identified (r : request) (o : option gostr) : Prop := forall npub, o = Some npub -> authenticated r npub.

Lemma t_transparent r : triple r books_ok (transparentNpub cfg r) (fun o d => books_ok d /\ identified r o).
Proof.
  unfold transparentNpub. destruct (cf_trustFipsSource cfg) eqn:Et; [|by apply t_ret]. cbn [negb].
  destruct (sourceAddr r) as [src|] eqn:Es; [|by apply t_ret]. destruct (Valid src) eqn:Ev; [|by apply t_ret]. cbn [negb].
  assert (Hid : forall npub, FromNpub (normNpub npub) = Ok src -> authenticated r npub).
  { intros npub H. right. left. split; [done|]. by exists src. }
  case_bool_decide as Ec; cbn [negb].
  - eapply t_bind; [apply t_read, reads_NpubByAddr|]. intros x. apply t_ret. intros d [Hd ->]. split; [done|].
    intros npub E. apply Hid, (NpubByAddr_derives src d); [apply Hd|]. by destruct (NpubByAddr src d).1; inv E.
  - apply t_ret. intros d Hd. split; [done|]. intros npub E. destruct (is_ok _) eqn:Ek; [|done]. injection E as <-.
    apply Hid, source_claim, CheckDerivation_iff. by destruct (CheckDerivation _ _) as [[]|].
Qed.

Lemma t_identify r : triple r books_ok (identify cfg r) (fun o d => books_ok d /\ identified r o).
Proof.
  unfold identify. destruct (session_of cfg r) as [npub|] eqn:E; [|apply t_transparent].
  apply t_ret. intros d Hd. split; [done|]. intros n [= <-]. by left.
Qed.

Lemma safe_weaken r (P P' : db -> Prop) m : (forall d, P d -> P' d) -> safe r P' m -> safe r P m.
Proof. intros H Hm. exact (t_conseq r P P' m _ _ H (fun _ _ HQ => HQ) Hm). Qed.

(** Continue with whoever was identified. *)
Lemma safe_identified r m k :
  triple r books_ok m (fun o d => books_ok d /\ identified r o) -> safe r books_ok (k None) ->
  (forall npub, authenticated r npub -> safe r books_ok (k (Some npub))) -> safe r books_ok (m ≫= k).
Proof.
  intros Hm Hn Hs. eapply t_bind; [exact Hm|]. intros [npub|].
  - apply (t_pull _ _ (authenticated r npub)); [intros d [_ H]; by apply H|]. intros Ha.
    apply (safe_weaken r _ books_ok); [|by apply Hs]. by intros d [? _].
  - apply (safe_weaken r _ books_ok); [|done]. by intros d [? _].
Qed.

(** An action followed by answers that are safe in any store. *)
Lemma safe_act {A} r P (m : Store A) k npub a :
  authenticated r npub -> (forall d, P d -> act_of npub a d) -> (forall d, (m d).2 = run_act a d) ->
  (forall x, safe r (fun _ => True) (k x)) -> safe r P (st m ≫= k).
Proof.
  intros H1 H2 H3 Hk. eapply t_bind; [by apply (t_act r P m npub a)|]. intros x. by apply (safe_weaken r _ (fun _ => True)).
Qed.

(** ** The handlers *)

Lemma safe_err r P msg : safe r P (redirect_err msg).
Proof. apply safe_respond. Qed.
Lemma safe_msg r P msg : safe r P (redirect_msg msg).
Proof. apply safe_respond. Qed.
Hint Resolve safe_err safe_msg : fips.

(** Case analysis down to the answers. *)
Ltac answer := repeat case_match; auto with fips; apply safe_respond.

Lemma safe_toggle r P : safe r P (whitelistToggle cfg r).
Proof.
  apply safe_session. intros npub Hs.
  apply (safe_act r P _ _ npub (act_wl (op_enable npub (TrimSpace (rq_FormValue r (bs "guest_npub"))) (bool_decide (rq_FormValue r (bs "enabled") = bs "true")))));
    [by left|done|done|]. intros x. answer.
Qed.

Lemma safe_accept r P : safe r P (whitelistAccept cfg r).
Proof.
  apply safe_session. intros npub Hs.
  apply (safe_act r P _ _ npub (act_wl (op_accept npub (TrimSpace (rq_FormValue r (bs "host_npub")))))); [by left|done|done|]. intros x. answer.
Qed.

Lemma safe_decline r P : safe r P (whitelistDecline cfg r).
Proof.
  apply safe_session. intros npub Hs.
  apply (safe_act r P _ _ npub (act_wl (op_decline npub (TrimSpace (rq_FormValue r (bs "host_npub")))))); [by left|done|done|]. intros x. answer.
Qed.

Lemma safe_use_own r P : safe r P (whitelistUseOwn cfg r).
Proof.
  apply safe_session. intros npub Hs. apply (safe_act r P _ _ npub (act_wl (op_activate npub))); [by left|done|done|]. intros x. answer.
Qed.

(** The guest whose device sends the request is authenticated by it. *)
Lemma same_device_source r g : same_device cfg r g = true -> authenticated r g.
Proof.
  unfold same_device. destruct (sourceAddr r) as [src|] eqn:Es; [|done]. destruct (FromNpub g) as [a|] eqn:Eg; intros H; bool_hyps; [|done].
  subst a. right. left. split; [done|]. exists src. split; [done|]. split; [done|]. by apply source_claim.
Qed.

Lemma safe_add r P : safe r P (whitelistAdd cfg r).
Proof.
  apply safe_session. intros npub Hs. apply t_then; [by apply t_memory|]. intros ok. destruct ok; cbn [negb]; [|apply safe_err].
  apply (safe_act r P _ _ npub (act_wl (op_invite (cf_MaxGuests cfg) npub (TrimSpace (rq_FormValue r (bs "guest_npub"))) (TrimSpace (rq_FormValue r (bs "label"))))));
    [by left|done|done|].
  intros [[|]|e]; [|apply safe_msg|apply safe_err]. destruct (same_device cfg r _) eqn:E; [|apply safe_msg].
  apply (safe_act r _ _ _ (TrimSpace (rq_FormValue r (bs "guest_npub"))) (act_wl (op_accept (TrimSpace (rq_FormValue r (bs "guest_npub"))) npub)));
    [by apply same_device_source|done|done|]. intros x. unfold invitation_sent. answer.
Qed.

Lemma t_wgNodes r P : triple r P (wgNodes text_le) (fun _ d => P d).
Proof.
  unfold wgNodes. apply t_look; [apply reads_query|]. intros [l|e]; [|by apply t_ret]. destruct (negb _); [by apply t_ret|].
  apply t_look; [apply reads_query|]. intros x. by apply t_ret.
Qed.

Lemma t_pacLinks r P : triple r P (pacLinks url_Hostname cfg) (fun _ d => P d).
Proof.
  unfold pacLinks. case_bool_decide; [by apply t_ret|]. apply t_look; [apply reads_query|]. intros x. by apply t_ret.
Qed.

Lemma safe_wg_new r P : safe r P (wgNew text_le cfg r).
Proof.
  apply safe_session. intros npub Hs. apply t_then; [apply t_wgNodes|]. intros nodes. case_bool_decide; [apply safe_respond|].
  cbn zeta. destruct (if bool_decide _ then rq_keypair r else _) as [[priv pub]|]; [|apply safe_respond].
  eapply (safe_act r P _ _ npub (act_wg _ _ _ _)); [by left|done|done|]. intros x. answer.
Qed.

Lemma safe_wg_delete r P : safe r P (wgDelete parse_uuid cfg r).
Proof.
  apply safe_session. intros npub Hs. destruct (parse_uuid _) as [id|]; [|apply safe_err].
  apply (safe_act r P _ _ npub (act_unwg npub id)); [by left|done|done|]. intros x. answer.
Qed.

Lemma safe_verify r : safe r books_ok (authVerify url_Host ParsePubKey ParseSignature schnorr_Verify cfg r).
Proof.
  unfold authVerify. assert (Hf : forall P msg, safe r P (authFail r msg)) by (intros P msg; apply safe_respond).
  destruct (rq_event r) as [ev|] eqn:Ee; [|apply Hf]. destruct (Nostr.Verify _ _ _ ev) as [npub|] eqn:Ev; [|apply Hf].
  destruct (_ =? _) eqn:Ek; cbn [negb]; [|apply Hf]. bool_hyps. cbn zeta.
  destruct (VerifyChallenge _ _ _) as [[]|] eqn:Ec; cbn [is_ok negb]; [|apply Hf]. destruct (_ || _); [apply Hf|].
  destruct (audienceOK _ _ _ _) eqn:Ea; cbn [negb]; [|apply Hf].
  assert (Hau : authenticated r npub) by (right; right; by exists ev).
  apply t_then; [by apply t_memory|]. intros fresh. destruct fresh; cbn [negb]; [|apply Hf].
  apply (safe_act r _ _ _ npub (act_wl (op_create npub))); [done|done|done|]. intros [a|e]; [|apply Hf].
  apply t_ret. intros _ _. right. by exists npub.
Qed.

Lemma safe_fips r : safe r books_ok (authFips cfg r).
Proof.
  apply safe_identified; [apply t_transparent| |].
  - destruct (_ && _); apply safe_respond.
  - intros npub Ha. apply (safe_act r _ _ _ npub (act_wl (op_create npub))); [done|done|done|]. intros [a|e]; [|apply safe_respond].
    apply t_ret. intros _ _. right. by exists npub.
Qed.

Lemma safe_dashboard r P : safe r P (dashboard text_le url_Hostname cfg r).
Proof.
  apply safe_session. intros npub Hs.
  assert (Hl : triple r P (load_summary text_le npub) (fun _ _ => True)).
  { unfold load_summary. apply t_look; [apply reads_Summary|]. intros [s|[]]; try (by apply t_ret).
    eapply t_bind; [apply (t_act r P _ npub (act_wl (op_create npub))); [by left|done|done]|]. intros [a|e]; [|by apply t_ret].
    exact (t_conseq r _ (fun _ => True) _ _ _ (fun _ _ => I) (fun _ _ _ => I) (t_read r (fun _ => True) _ (reads_Summary npub))). }
  eapply t_bind; [exact Hl|]. intros [s|e]; [|apply safe_respond].
  apply t_then; [apply t_pacLinks|]. intros links. apply t_then; [apply t_wgNodes|]. intros nodes.
  apply t_then; [|intros peers; apply safe_respond]. destruct nodes; [by apply t_ret|].
  apply t_look; [apply reads_query|]. intros x. by apply t_ret.
Qed.

(** *** Purchases *)

Lemma create_books npub d : books_ok d -> books_ok (CreateAccount npub d).2.
Proof. intros Hd. apply (pay_step_ok d _ (pay_run d (pop_account (op_create npub))) Hd). Qed.

(** A purchase just created is the buyer's, and no other row has its id. *)
Lemma CreatePurchase_own npub k d id d' : books_ok d -> CreatePurchase npub k d = (Ok id, d') -> own_purchase d' npub id.
Proof.
  intros [_ Hd]. unfold CreatePurchase. rewrite store_bind_eq. destruct (account_run npub d) as [(a & Ea & _ & _ & Eo)|Ea]; rewrite Ea; [|done].
  unfold inTx. tx_unfold. destruct (negb _); [done|]. unfold fresh_id, tx_modify. intros [= <- <-].
  set (q := {| pu_id := _ |}). exists q. split; [|exact Eo]. cbn [db_purchases set_purchases]. unfold find_row. rewrite filter_app, filter_none.
  - cbn. unfold by_id, q. cbn. by rewrite Z.eqb_refl.
  - eapply Forall_weaken; [apply Hd|]. cbn. intros p Hp E. unfold by_id in E. bool_hyps. lia.
Qed.

Lemma safe_invoice r f k npub id : authenticated r npub ->
  safe r (fun d => own_purchase d npub id) (invoice_purchase uuid_text cfg f k id).
Proof.
  intros Ha. unfold invoice_purchase, buy_failed. apply t_look; [apply reads_GetPackage|]. intros [pkg|e]; [|apply safe_respond].
  destruct (f _) as [inv|]; [|apply safe_respond]. destruct (negb _).
  - eapply (safe_act r _ _ _ npub (act_invoice _ _ _ _)); [done|intros d Hd; exact Hd|done|]. intros x. answer.
  - eapply (safe_act r _ _ _ npub (act_invoice _ _ _ _)); [done|intros d Hd; exact Hd|done|]. intros x. answer.
Qed.

Lemma safe_buy r : safe r books_ok (buy uuid_text parse_uuid cfg r).
Proof.
  apply safe_identified; [apply t_identify|apply safe_respond|]. intros npub Ha. apply t_then; [by apply t_memory|].
  intros ok. destruct ok; cbn [negb]; [|apply safe_respond].
  eapply t_bind; [by apply (t_act r _ _ npub (act_wl (op_create npub)))|]. intros [acct|e]; [|apply safe_respond].
  apply (safe_weaken r _ books_ok). { intros d' (d & Hd & E). pose proof (create_books npub d Hd) as H. by rewrite E in H. }
  apply t_look; [apply reads_query|]. intros o. destruct (match o with Ok _ => _ | Err _ => _ end); [apply safe_respond|].
  destruct (parse_uuid _) as [k|]; [|apply safe_respond].
  eapply t_bind; [by apply (t_act r _ _ npub (act_buy npub k))|]. intros [id|e]; [|apply safe_respond].
  apply (safe_weaken r _ (fun d => own_purchase d npub id)). { intros d' (d & Hd & E). by eapply CreatePurchase_own. }
  destruct (cf_pay cfg); [by apply safe_invoice|]. destruct (cf_autoSettle cfg); [|apply safe_respond].
  apply (safe_act r _ _ _ npub (act_settle id)); [done|intros d Hd; exact Hd|done|]. intros x. answer.
Qed.

(** *** Pages *)

Lemma safe_packages r : safe r books_ok (packagesPage cfg r).
Proof.
  unfold packagesPage. assert (Hr : forall npub c, cookie_ok r c -> safe r books_ok (show_packages r npub c)).
  { intros npub c Hc. apply t_look; [apply reads_query|]. intros [pkgs|e]; [|by apply t_ret].
    apply t_look; [apply reads_query|]. intros y. by apply t_ret. }
  destruct (session_of cfg r); [by apply Hr|]. apply safe_identified; [apply t_transparent|apply safe_respond|].
  intros npub Ha. apply Hr. right. by exists npub.
Qed.

Lemma safe_status r : safe r books_ok (status text_le cfg r).
Proof.
  apply safe_identified; [apply t_identify|apply safe_respond|]. intros npub Ha. apply t_look; [apply reads_Summary|]. intros x. answer.
Qed.

Lemma safe_captive r P : safe r P (captive text_le cfg r).
Proof.
  unfold captive. destruct (Tokens.Verify _ _ _) as [a|]; [|apply safe_respond]. apply t_look; [apply reads_NpubByAddr|].
  intros [npub|e]; [|apply safe_respond]. apply t_look; [apply reads_Summary|]. intros y. apply safe_respond.
Qed.

Lemma safe_login r : safe r books_ok (loginPage cfg r).
Proof.
  unfold loginPage. destruct (session_of cfg r); [apply safe_respond|].
  apply safe_identified; [apply t_transparent|apply safe_respond|]. intros npub _. apply safe_respond.
Qed.

(** The pay page and the Cashu rail change nothing in the store. *)
Lemma safe_pay r P pathID : safe r P (payPage parse_uuid cfg pathID r).
Proof.
  apply safe_session. intros npub _. destruct (parse_uuid pathID); [|apply safe_respond].
  apply t_look; [apply reads_PurchaseForPay|]. intros x. answer.
Qed.

Lemma safe_cashu r P pathID : safe r P (payCashu parse_uuid cfg pathID r).
Proof.
  unfold payCashu. destruct (session_of cfg r), (cf_cashu cfg), (parse_uuid pathID); try apply safe_respond.
  apply t_look; [apply reads_PurchaseForPay|]. intros [v|e]; [|apply safe_respond]. do 3 (case_bool_decide; [apply safe_respond|]).
  apply t_then; [by apply t_memory|]. intros m. answer.
Qed.

Lemma safe_cashu_receive r P pathID : safe r P (cashuReceive parse_uuid cfg pathID r).
Proof.
  unfold cashuReceive. destruct (cf_cashu cfg), (parse_uuid pathID); try apply safe_respond.
  apply t_look; [apply reads_PurchaseInvoice|]. intros [[bolt11 status]|e]; [|apply safe_respond]. do 2 (case_bool_decide; [apply safe_respond|]).
  destruct (rq_body r); [|apply safe_respond]. apply t_then; [by apply t_memory|]. intros m. answer.
Qed.

Lemma safe_serve rt r :
  safe r books_ok (serve uuid_text parse_uuid text_le url_Host url_Hostname ParsePubKey ParseSignature schnorr_Verify cfg rt r).
Proof.
  destruct rt; cbn [serve]; auto using safe_login, safe_verify, safe_fips, safe_dashboard, safe_add, safe_toggle, safe_accept,
    safe_decline, safe_use_own, safe_wg_new, safe_wg_delete, safe_captive, safe_packages, safe_status, safe_buy,
    safe_pay, safe_cashu, safe_cashu_receive; try apply safe_respond.
  - unfold root. destruct (session_of cfg r); apply safe_respond.
  - apply t_ret. intros _ _. by left.
  - unfold help. apply t_look; [apply reads_query|]. intros x. apply t_then; [apply t_pacLinks|]. intros links. apply safe_respond.
  - unfold pacFor, pacTarget. apply t_then; [|intros t; apply safe_respond]. case_bool_decide; [by apply t_ret|].
    apply t_look; [apply reads_query|]. intros x. by apply t_ret.
  - unfold payStatus. destruct (session_of cfg r); [|apply safe_respond]. destruct (parse_uuid id); [|apply safe_respond].
    apply t_look; [apply reads_PurchaseForPay|]. intros x. apply safe_respond.
Qed.

(** [C12] The portal acts for whoever the request authenticates: over every route,
    the store changes by a sequence of actions each taken in the name of an
    identity the request authenticated (the npub of its session cookie, the npub
    its mesh source address derives from, or the signer of its login event), on
    that identity's own account, guests and purchases; and a session is opened
    only for such an identity. *)
Theorem portal_authority rt r p :
  pay_reachable (po_store p) ->
  let '(x, c, p') := serve uuid_text parse_uuid text_le url_Host url_Hostname ParsePubKey ParseSignature schnorr_Verify cfg rt r p in
  rtc (acts r) (po_store p) (po_store p') /\ cookie_ok r c.
Proof.
  intros Hp%pay_reachable_ok. pose proof (safe_serve rt r p Hp) as H.
  destruct (serve _ _ _ _ _ _ _ _ cfg rt r p) as [[x c] p']. exact H.
Qed.

(** ** Attribution *)

Lemma steady_inTx {A} (t : Tx A) d :
  (forall x d', t d = Ok (x, d') -> db_whitelist d' = db_whitelist d /\ db_accounts d' = db_accounts d) ->
  db_whitelist (inTx t d).2 = db_whitelist d /\ db_accounts (inTx t d).2 = db_accounts d.
Proof. intros H. unfold inTx. destruct (t d) as [[x d']|] eqn:E; [by apply (H x)|done]. Qed.

(** Selling, invoicing and WireGuard leave accounts and whitelist alone. *)
Lemma sale_steady a d : match a with act_wl _ | act_settle _ => False | _ => True end ->
  db_whitelist (run_act a d) = db_whitelist d /\ db_accounts (run_act a d) = db_accounts d.
Proof.
  destruct a as [o|n k|i inv url q|i|s f l k|s i]; cbn [run_act]; intros H; try done.
  - unfold CreatePurchase. rewrite store_bind_eq. destruct (account_run n d) as [(a & Ea & _)|Ea]; rewrite Ea; [|done].
    apply steady_inTx. intros x d'. tx_unfold. destruct (negb _); [done|]. unfold fresh_id, tx_modify. intros E. by inv E.
  - apply steady_inTx. intros x d'. tx_unfold. destruct (negb _); [done|]. destruct (existsb _ _); [done|]. unfold tx_modify. intros E. by inv E.
  - unfold CreateWgPeer. repeat (case_match; try done).
  - apply steady_inTx. intros x d'. tx_unfold. destruct (existsb _ _); [|done]. unfold tx_modify. intros E. by inv E.
Qed.

(** Settling a purchase attributes its buyer's own address. *)
Lemma settle_moves npub i d : books_ok d -> own_purchase d npub i ->
  moves (fun b => FromNpub (normNpub npub) = Ok b) d (SettlePurchase i d).2.
Proof.
  intros [Hw Hd] (p & Ef & Eo). unfold SettlePurchase. apply tx_recompute_moves; [done|]. intros x d'. unfold settle_tx. tx_unfold.
  rewrite Ef. unfold is_status. case_bool_decide as Es; [intros E; inv E; by apply moves_refl|].
  pose proof (find_row_Some _ _ _ Ef) as [Hp _].
  destruct (grant_run p d Hw Hd Hp Es) as (k & d2 & E & _ & _ & Hw2 & _ & Hn & _ & Ea2 & _ & _ & e & d1 & _ & _ & _ & _ & _ & Eact & Hw1 & Ewl & Eac).
  rewrite E. intros E'. inv E'.
  destruct (account_run npub d) as [(a & _ & Ha & En & Ea)|Er].
  - rewrite Eo in Ea. injection Ea as Ea. rewrite Ea in Eact.
    pose proof (activateOwner_moves a d1 _ _ Hw1 ltac:(by rewrite Eac) Eact) as [_ M]. split; [done|]. intros b.
    destruct (M b) as [Eb|Eb]; [left|right; by rewrite <- En]. unfold attribution in *. cbn in Eb. by rewrite Eb, Ewl.
  - unfold account_of in Eo. unfold GetAccountByNpub in Er. by destruct (find_row _ (db_accounts d)).
Qed.

(** What an action of [npub] may re-attribute. *)
Definition may_move (npub : gostr) (d : db) (b : Addr) : Prop :=
  FromNpub (normNpub npub) = Ok b \/ attribution d b = None \/ attribution d b = account_of d npub.

Lemma act_moves npub a d : books_ok d -> act_of npub a d -> moves (may_move npub d) d (run_act a d).
Proof.
  intros Hd Ha. destruct (match a with act_wl _ | act_settle _ => false | _ => true end) eqn:Ek.
  - destruct (sale_steady a d) as [Ew Ec]; [by destruct a|]. apply moves_steady; [apply Hd|done|done|].
    destruct a as [o|n k|i inv url q|i|s f l k|s i]; try done; cbn [run_act].
    + unfold CreatePurchase. rewrite store_bind_eq. destruct (account_run n d) as [(a & Ea & _)|Ea]; rewrite Ea; [|done].
      unfold inTx. tx_unfold. destruct (negb _); [done|]. cbn. lia.
    + unfold AttachInvoice, inTx. tx_unfold. destruct (negb _); [done|]. by destruct (existsb _ _).
    + unfold CreateWgPeer. repeat (case_match; try done); cbn; lia.
    + unfold DeleteWgPeer, inTx. tx_unfold. by destruct (existsb _ _).
  - destruct a as [o| | |i| |]; try done; cbn [run_act].
    + eapply moves_weaken; [|apply (run_op_moves o d), Hd]. unfold may_move.
      destruct o as [| | |h g [|]| | | | | | |]; cbn in Ha |- *; try done; subst; tauto.
    + eapply moves_weaken; [|by apply settle_moves]. intros b Hb. by left.
Qed.

Lemma act_books npub a d : books_ok d -> act_of npub a d -> books_ok (run_act a d).
Proof.
  intros Hd Ha. assert (H : forall o, books_ok (run_pay o d)) by (intros o; by apply (pay_step_ok d _ (pay_run d o))).
  destruct a as [o|n k|i inv url q|i|s f l k|s i]; cbn [run_act].
  - exact (H (pop_account o)).
  - exact (H (pop_purchase n k)).
  - exact (H (pop_attach i inv url q)).
  - exact (H (pop_settle i)).
  - apply (pay_step_ok d); [|done]. destruct (sale_steady (act_wg s f l k) d I). apply pay_other; try done. cbn [run_act].
    unfold CreateWgPeer. repeat (case_match; try apply no_sale_refl); repeat split; cbn; lia.
  - apply (pay_step_ok d); [|done]. destruct (sale_steady (act_unwg s i) d I). apply pay_other; try done. cbn [run_act].
    unfold DeleteWgPeer, inTx. tx_unfold. destruct (existsb _ _); [|apply no_sale_refl]. repeat split; cbn; lia.
Qed.

(** [C11] Consent over HTTP: if an account holds an address and some request to the
    portal makes it stop holding it, then that request was authenticated as the
    identity the address derives from, or as the owner of that very account.  In
    particular nobody can move a stranger's traffic onto (or off) an account by
    inviting, toggling, buying or logging in. *)
Theorem portal_consent rt r p b x :
  pay_reachable (po_store p) -> attribution (po_store p) b = Some x ->
  attribution (po_store (serve uuid_text parse_uuid text_le url_Host url_Hostname ParsePubKey ParseSignature schnorr_Verify cfg rt r p).2) b <> Some x ->
  exists npub, authenticated r npub /\
    (FromNpub (normNpub npub) = Ok b \/ exists d, rtc (acts r) (po_store p) d /\ account_of d npub = Some x).
Proof.
  intros Hp%pay_reachable_ok Hb Hn. destruct (safe_serve rt r p Hp) as [Hs _].
  match type of Hn with attribution ?D b <> _ => remember D as d' eqn:Ed; clear Ed end. revert Hp Hb Hn.
  induction Hs as [d|d d1 d' H1 Hs IH]; intros Hd Hb Hn; [done|].
  pose proof H1 as (npub & a & Ha & Hof & E1). destruct (act_moves npub a d Hd Hof) as [_ M]. rewrite <- E1 in M.
  destruct (decide (attribution d1 b = Some x)) as [Eb|Eb].
  - destruct IH as (n & Hn1 & H2); [rewrite E1; by eapply act_books|done|done|]. exists n. split; [done|].
    destruct H2 as [?|(d2 & H2 & H3)]; [by left|right]. exists d2. split; [|done]. by eapply rtc_l.
  - exists npub. split; [done|]. destruct (M b) as [E|[E|[E|E]]]; [congruence|by left|congruence|].
    right. exists d. split; [apply rtc_refl|congruence].
Qed.

(** ** How many unpaid purchases an account can pile up *)

Definition open_of (d : db) (acct : Z) : Z := count_rows (fun p => (pu_account p =? acct) && is_open p) (db_purchases d).

Lemma has_npub_account d npub acct x : wl_ok d -> normNpub npub = npub -> account_of d npub = Some acct -> has_npub d npub x = (x =? acct).
Proof.
  intros Hd Hn Ha. unfold account_of in Ha. destruct (find_row _ _) as [a|] eqn:E; [|done]. injection Ha as <-.
  apply find_row_Some in E as [Hin Hp]. bool_hyps. rewrite Hn in Hp. unfold has_npub. apply eq_true_iff_eq. rewrite existsb_exists, Z.eqb_eq. split.
  - intros (y & Hy & Hb). bool_hyps. apply list_elem_of_In in Hy.
    assert (y = a) as -> by (apply (NoDup_key_inj ac_npub (db_accounts d)); [apply Hd|done|done|congruence]). done.
  - intros ->. exists a. split; [by apply list_elem_of_In|]. by rewrite Z.eqb_refl, bool_decide_eq_true_2.
Qed.

Lemma length_omap_all {A B} (f : A -> option B) l : Forall (fun x => is_Some (f x)) l -> length (omap f l) = length l.
Proof. induction 1 as [|x l [y E] _ IH]; [done|]. cbn. rewrite E. cbn. by rewrite IH. Qed.

Lemma OpenPurchases_count npub acct d l : books_ok d -> normNpub npub = npub -> account_of d npub = Some acct ->
  (OpenPurchases npub d).1 = Ok l -> Z.of_nat (length l) = open_of d acct.
Proof.
  intros [Hw Hd] Hn Ha [= <-]. unfold open_of, count_rows. f_equal. rewrite length_omap_all.
  - rewrite merge_sort_Permutation. f_equal. apply list_filter_iff. intros p. by rewrite (has_npub_account d npub acct).
  - apply Forall_forall. intros p Hp. rewrite merge_sort_Permutation in Hp. apply list_elem_of_filter in Hp as [_ Hp].
    destruct (find_package d p Hd Hp) as (k & -> & _). by eexists.
Qed.

Lemma count_rows_cons {A} (c : A -> bool) x l : count_rows c (x :: l) = (if c x then 1 else 0) + count_rows c l.
Proof.
  unfold count_rows. rewrite filter_cons. destruct (decide (c x = true)) as [E|E].
  - rewrite E. cbn [length]. lia.
  - apply not_true_is_false in E. rewrite E. lia.
Qed.

Lemma CreatePurchase_count npub k d y d' : CreatePurchase npub k d = (y, d') ->
  db_accounts d' = db_accounts d /\ forall acct, open_of d' acct <= open_of d acct + 1.
Proof.
  unfold CreatePurchase. rewrite store_bind_eq. destruct (account_run npub d) as [(a & Ea & _)|Ea]; rewrite Ea; [|intros [= _ <-]; split; [done|intros; lia]].
  unfold inTx. tx_unfold. destruct (negb _); [intros [= _ <-]; split; [done|intros; lia]|]. unfold fresh_id, tx_modify. intros [= _ <-].
  split; [done|]. intros acct. unfold open_of. cbn [db_purchases set_purchases]. rewrite count_rows_app.
  rewrite count_rows_cons. unfold count_rows at 2. cbn [length filter list_filter]. destruct (_ && _); lia.
Qed.

Lemma count_rows_update {A} (p c : A -> bool) f l : (forall x, p x = true -> c (f x) = true -> c x = true) ->
  count_rows c (update_rows p f l) <= count_rows c l.
Proof.
  intros H. induction l as [|x l IH]; [done|]. cbn [update_rows map]. fold (update_rows p f l). rewrite !count_rows_cons.
  destruct (p x) eqn:Ep; [|destruct (c x); lia]. destruct (c (f x)) eqn:E1; [rewrite (H x Ep E1); lia|]. destruct (c x); lia.
Qed.

Lemma attach_count i inv url q d acct : open_of (AttachInvoice i inv url q d).2 acct <= open_of d acct.
Proof.
  unfold AttachInvoice, inTx. tx_unfold. destruct (negb _); [done|]. destruct (existsb _ _); [done|]. cbn [snd tx_modify].
  unfold open_of. by apply count_rows_update.
Qed.

Lemma settle_count i d acct : books_ok d -> open_of (SettlePurchase i d).2 acct <= open_of d acct.
Proof.
  intros [Hw Hd]. unfold SettlePurchase. rewrite tx_recompute_eq. unfold settle_tx. tx_unfold.
  destruct (find_row _ _) as [p|] eqn:Ef; [|done]. unfold is_status.
  assert (Hr : forall x, open_of (RecomputeAuthz x).2 acct = open_of x acct).
  { intros x. destruct (recompute_no_sale x) as (E & _). unfold open_of. by rewrite E. }
  case_bool_decide as Es; [cbn [snd]; by rewrite Hr|]. pose proof (find_row_Some _ _ _ Ef) as [Hp _].
  destruct (grant_run p d Hw Hd Hp Es) as (k & d2 & E & _ & _ & _ & _ & _ & _ & _ & Epu & _). rewrite E. cbn [snd]. rewrite Hr.
  unfold open_of. rewrite Epu. apply count_rows_update. intros x _. unfold is_open, is_status. cbn. by rewrite andb_false_r.
Qed.

(** The store a run ends in. *)
Definition ends {A} (P : db -> Prop) (m : State portal A) (Q : A -> db -> Prop) : Prop :=
  forall p, P (po_store p) -> Q (m p).1 (po_store (m p).2).

Lemma e_ret {A} (P : db -> Prop) (a : A) (Q : A -> db -> Prop) : (forall d, P d -> Q a d) -> ends P (mret a) Q.
Proof. intros H p Hp. by apply H. Qed.

Lemma e_bind {A B} P (m : State portal A) (k : A -> State portal B) R Q :
  ends P m R -> (forall a, ends (R a) (k a) Q) -> ends P (m ≫= k) Q.
Proof. intros Hm Hk p Hp. specialize (Hm p Hp). unfold mbind, state_bind. destruct (m p) as [a p1]. by apply (Hk a). Qed.

Lemma e_st {A} (P : db -> Prop) (m : Store A) : ends P (st m) (fun x d' => exists d, P d /\ m d = (x, d')).
Proof. intros p Hp. unfold st, embed. destruct (m (po_store p)) as [x d] eqn:E. by exists (po_store p). Qed.

Lemma e_memory {A T} P (proj : portal -> T) inj (m : State T A) :
  (forall t p, po_store (inj t p) = po_store p) -> ends P (embed proj inj m) (fun _ d => P d).
Proof. intros Hi p Hp. unfold embed. destruct (m (proj p)) as [a t]. cbn. by rewrite Hi. Qed.

Lemma e_pre {A} (P P' : db -> Prop) (m : State portal A) Q : (forall d, P d -> P' d) -> ends P' m Q -> ends P m Q.
Proof. intros H Hm p Hp. apply Hm. by apply H. Qed.

(** The account of [npub] has at most [M] open purchases, or as many as in [d0]. *)
Definition bounded (npub : gostr) (M : Z) (d0 d : db) : Prop :=
  forall acct, account_of d npub = Some acct -> open_of d acct <= Z.max (open_of d0 acct) M.

Lemma account_of_eq d d' npub : db_accounts d' = db_accounts d -> account_of d' npub = account_of d npub.
Proof. unfold account_of. by intros ->. Qed.

Lemma bounded_less npub M d0 d d' : db_accounts d' = db_accounts d -> (forall acct, open_of d' acct <= open_of d acct) ->
  bounded npub M d0 d -> bounded npub M d0 d'.
Proof. intros Ea Ho H acct Hacct. rewrite (account_of_eq d d' npub Ea) in Hacct. specialize (H acct Hacct). specialize (Ho acct). lia. Qed.

Lemma settle_accounts i d : books_ok d -> db_accounts (SettlePurchase i d).2 = db_accounts d.
Proof.
  intros [Hw Hd]. unfold SettlePurchase. rewrite tx_recompute_eq. unfold settle_tx. tx_unfold.
  destruct (find_row _ _) as [p|] eqn:Ef; [|done]. unfold is_status. case_bool_decide as Es; [by apply (recompute_moves (fun _ => True) d)|].
  pose proof (find_row_Some _ _ _ Ef) as [Hp _].
  destruct (grant_run p d Hw Hd Hp Es) as (k & d2 & E & _ & _ & Hw2 & _ & _ & _ & Ea & _). rewrite E. cbn [snd]. rewrite <- Ea.
  by apply (recompute_moves (fun _ => True) d2).
Qed.

Lemma ends_invoice npub M d0 f k id :
  ends (bounded npub M d0) (invoice_purchase uuid_text cfg f k id) (fun _ d => bounded npub M d0 d).
Proof.
  unfold invoice_purchase, buy_failed, respond. eapply e_bind; [apply e_st|]. intros x.
  assert (H0 : forall d, (exists d1, bounded npub M d0 d1 /\ GetPackage k d1 = (x, d)) -> bounded npub M d0 d).
  { intros d (d1 & Hb & E). pose proof (reads_GetPackage k d1) as Hr. rewrite E in Hr. cbn in Hr. by subst. }
  destruct x as [pkg|e]; [|by apply e_ret]. destruct (f _) as [inv|]; [|by apply e_ret].
  assert (H1 : forall url q Z (g : result store_err unit -> State portal Z), (forall y, exists z, g y = mret z) ->
    ends (fun d => exists d1, bounded npub M d0 d1 /\ GetPackage k d1 = (Ok pkg, d)) (st (AttachInvoice id (in_ID inv) url q) ≫= g)
      (fun _ d => bounded npub M d0 d)).
  { intros url q Z g Hg. eapply e_bind; [apply e_st|]. intros y. destruct (Hg y) as [z ->]. apply e_ret. intros d' (d & Hd & E).
    apply H0 in Hd. apply (bounded_less npub M d0 d); [|intros acct; pose proof (attach_count id (in_ID inv) url q d acct) as Hc; by rewrite E in Hc|done].
    destruct (sale_steady (act_invoice id (in_ID inv) url q) d I) as [_ Ha]. cbn [run_act] in Ha. by rewrite E in Ha. }
  destruct (negb _); apply H1; intros [|]; by eexists.
Qed.

(** The buyer's account exists and nothing was sold since [d0]. *)
Definition ready (npub : gostr) (d0 d : db) : Prop :=
  books_ok d /\ (forall acct, open_of d acct = open_of d0 acct) /\ is_Some (account_of d npub).

Lemma create_open npub d acct : open_of (CreateAccount npub d).2 acct = open_of d acct.
Proof. destruct (create_keeps npub d) as (E & _). unfold open_of. by rewrite E. Qed.

Lemma create_ready npub d0 a d : books_ok d0 -> CreateAccount npub d0 = (Ok a, d) -> ready npub d0 d.
Proof.
  intros Hd E. split; [pose proof (create_books npub d0 Hd) as H; by rewrite E in H|].
  split; [intros acct; pose proof (create_open npub d0 acct) as H; by rewrite E in H|].
  destruct (create_moves npub d0 (proj1 Hd)) as [_ Hc]. destruct (Hc a d E) as [Hin Ea]. unfold account_of.
  destruct (find_row _ _) as [a'|] eqn:Ef; [by eexists|]. pose proof (find_row_None _ _ Ef a Hin) as Hf. cbn in Hf. bool_hyps. done.
Qed.

Lemma purchase_bounded npub M d0 d k y d' l : ready npub d0 d -> normNpub npub = npub -> (OpenPurchases npub d).1 = Ok l ->
  Z.of_nat (length l) < M -> CreatePurchase npub k d = (y, d') -> books_ok d' /\ bounded npub M d0 d'.
Proof.
  intros (Hb & Ho & acct & Ha) Hn El Hl E. split; [pose proof (purchase_run npub k d Hb) as [H _]; by rewrite E in H|].
  destruct (CreatePurchase_count npub k d y d' E) as [Eac Hc]. intros acct' Ha'. rewrite (account_of_eq d d' npub Eac), Ha in Ha'. injection Ha' as <-.
  rewrite (OpenPurchases_count npub acct d l Hb Hn Ha El) in Hl. specialize (Hc acct). lia.
Qed.

(** [C34] Unpaid purchases are bounded: whatever is posted to /buy by an identity
    in its normal spelling, its account ends with at most [maxOpenPurchases]
    pending or processing purchases, or with as many as it had. *)
Theorem buy_bounded r npub p :
  pay_reachable (po_store p) -> normNpub npub = npub ->
  bounded npub (cf_maxOpenPurchases cfg) (po_store p) (po_store (buy_as uuid_text parse_uuid cfg r npub p).2).
Proof.
  intros Hp%pay_reachable_ok Hn. set (d0 := po_store p). set (M := cf_maxOpenPurchases cfg).
  assert (Hb0 : forall d, (forall acct, open_of d acct = open_of d0 acct) -> bounded npub M d0 d) by (intros d H acct _; rewrite H; lia).
  enough (H : ends (fun d => d = d0) (buy_as uuid_text parse_uuid cfg r npub) (fun _ d => bounded npub M d0 d)) by (by apply H).
  unfold buy_as, buy_failed, respond. fold M. eapply e_bind; [by apply e_memory|]. intros ok.
  destruct ok; cbn [negb]; [|by apply e_ret; intros d ->; apply Hb0].
  eapply e_bind; [apply e_st|]. intros [a|e].
  2: { apply e_ret. intros d (d1 & -> & E). apply Hb0. intros acct. pose proof (create_open npub d0 acct) as H. by rewrite E in H. }
  eapply e_bind; [apply e_st|]. intros o. destruct o as [l|e].
  2: { by intros q (d1 & _ & E). }
  apply (e_pre _ (fun d => ready npub d0 d /\ (OpenPurchases npub d).1 = Ok l)).
  { intros d (d1 & (d2 & -> & Ec) & E). unfold OpenPurchases, query in E. injection E as El <-.
    split; [by apply (create_ready npub d0 a)|]. by rewrite <- El. }
  destruct (M <=? Z.of_nat (length l)) eqn:EM; bool_hyps; [apply e_ret; intros d [Hd _]; apply Hb0, Hd|].
  destruct (parse_uuid _) as [k|]; [|apply e_ret; intros d [Hd _]; apply Hb0, Hd].
  eapply e_bind; [apply e_st|]. intros y. apply (e_pre _ (fun d => books_ok d /\ bounded npub M d0 d)).
  { intros d' (d & [H1 H2] & E). by apply (purchase_bounded npub M d0 d k y d' l). }
  destruct y as [id|e]; [|by apply e_ret; intros d [_ Hd]]. destruct (cf_pay cfg).
  - apply (e_pre _ (bounded npub M d0)); [by intros d [_ Hd]|apply ends_invoice].
  - destruct (cf_autoSettle cfg); [|by apply e_ret; intros d [_ Hd]].
    eapply e_bind; [apply e_st|]. intros z. apply (e_pre _ (bounded npub M d0)); [|by destruct z; apply e_ret].
    intros d' (d & [H1 H2] & E). pose proof (settle_accounts id d H1) as H3. rewrite E in H3.
    apply (bounded_less npub M d0 d); [done| |done]. intros acct. pose proof (settle_count id d acct H1) as H4. by rewrite E in H4.
Qed.

(** ** The status check *)

Lemma store_bind_Err {A B} (m : Store A) (f : A -> Store B) d e : ((m ≫= f) d).1 = Err e ->
  (m d).1 = Err e \/ exists a, (f a (m d).2).1 = Err e.
Proof. unfold mbind, store_bind. destruct (m d) as [[a|e'] d1]; cbn; intros H; [right; by exists a|left; congruence]. Qed.

Lemma scanned_Err {A} (o : option A) d e : (scanned o d).1 = Err e -> e = ErrScan.
Proof. destruct o; cbn; congruence. Qed.

(** An account that exists can only fail to be summarized by a value that does not scan. *)
Lemma Summary_Err npub acct d e : account_of d npub = Some acct -> (Summary text_le npub d).1 = Err e -> e = ErrScan.
Proof.
  intros Ha H. destruct (account_run npub d) as [(a & E & _)|E].
  2: { unfold account_of in Ha. unfold GetAccountByNpub in E. by destruct (find_row _ (db_accounts d)). }
  unfold Summary in H. rewrite store_bind_eq, E in H.
  repeat match goal with
         | H : ((_ ≫= _) _).1 = Err _ |- _ => apply store_bind_Err in H as [H|(? & H)]
         | H : (load_entitlements _ _).1 = Err _ |- _ => exact (scanned_Err _ _ _ H)
         | H : (UsageByService _ _ _).1 = Err _ |- _ => exact (scanned_Err _ _ _ H)
         | H : (scanned _ _).1 = Err _ |- _ => exact (scanned_Err _ _ _ H)
         end; done.
Qed.

(** What a caller learns: a body that says whether it is active, with 200 or 402. *)
Definition tells (active : bool) (x : response) : Prop :=
  exists rest, x = Json (if active then 200 else 402) ((bs "active", JBool active) :: rest).

(** The payment check tells the truth: for an identified caller the status
    page answers 200 with active true exactly when the caller's account has an
    entitlement that authorizes traffic now, 402 when it has none or there is no
    account yet, and an error page only when the account's data cannot be read;
    it never changes the store. *)
Theorem status_truthful r p npub :
  (identify cfg r p).1 = Some npub ->
  let '(x, _, p') := status text_le cfg r p in
  po_store p' = po_store p /\
  match account_of (po_store p) npub with
  | None => tells false x
  | Some acct =>
      tells (has_entitlement (po_store p) acct) x \/
      ((Summary text_le npub (po_store p)).1 = Err ErrScan /\ x = HttpError (bs "error loading account") 500)
  end.
Proof.
  intros Hid. unfold status. unfold mbind at 1, state_bind at 1.
  assert (Hs : po_store (identify cfg r p).2 = po_store p).
  { unfold identify, transparentNpub. repeat (case_match; try done). unfold mbind, state_bind, st, embed.
    pose proof (reads_NpubByAddr a (po_store p)) as Hr. destruct (NpubByAddr a (po_store p)). cbn in *. done. }
  destruct (identify cfg r p) as [who p1]. cbn in Hid, Hs. subst who. rewrite <- Hs. clear Hs p. rename p1 into p.
  unfold mbind at 1, state_bind at 1, st, embed. pose proof (reads_Summary npub (po_store p)) as Hr.
  destruct (Summary text_le npub (po_store p)) as [y d] eqn:E. cbn in Hr. subst d. cbn [fst].
  destruct y as [s|e].
  - destruct (Summary_active text_le npub (po_store p) s ltac:(by rewrite E)) as [Ha Hb]. rewrite Ha.
    unfold respond, anyActive. rewrite Hb. destruct (has_entitlement _ _); (split; [done|]); left; by eexists.
  - destruct (account_of (po_store p) npub) as [acct|] eqn:Ha.
    + assert (e = ErrScan) as -> by (apply (Summary_Err npub acct (po_store p)); [done|by rewrite E]). split; [done|]. by right.
    + unfold Summary in E. rewrite store_bind_eq in E. destruct (account_run npub (po_store p)) as [(a & _ & _ & _ & Ea)|Ea]; [congruence|].
      rewrite Ea in E. injection E as <-. split; [done|]. by eexists.
Qed.

End Authority.
End PortalFacts.
