(* ===== verification/PortalCashu.v ===== *)
(** * The portal and the mints

    Over every route of the portal: only the two Cashu routes contact a mint, and
    then the ecash presented with the request is spent on the Lightning invoice of
    the purchase named in the path and on nothing else. *)

From S2P Require Import Prelude GoStrings GoJson Netip GoNet Fipsaddr Sha256 Nostr RateLimit Tokens BackendDB BackendAuthz.
From S2P Require Import BackendWhitelist BackendPayments BackendCashu BackendWg BackendSummary BackendApi Portal PortalFacts.
Import DB Payments Summary Portal PortalFacts CashuFacts.

Module PortalCashu.

Section Spending.
Context `{MI : MapIter} `{DR : Driver} `{CL : Cashu.CashuLib} `{MN : !Cashu.Mints}.
Context (uuid_text : Z -> gostr) (parse_uuid : gostr -> option Z) (text_le : relation gostr) `{!RelDecision text_le}.
Context (url_Host url_Hostname : gostr -> option gostr).
Context (ParsePubKey ParseSignature : list Z -> bool) (schnorr_Verify : list Z -> list Z -> list Z -> bool).
Context (cfg : config).

(** ** Handlers that contact no mint *)

Definition quiet {A} (m : State portal A) : Prop := forall p, po_sent (m p).2 = po_sent p.

Lemma quiet_ret {A} (a : A) : quiet (mret a).
Proof. done. Qed.

Lemma quiet_respond x : quiet (respond x).
Proof. done. Qed.

Lemma quiet_bind {A B} (m : State portal A) (k : A -> State portal B) : quiet m -> (forall a, quiet (k a)) -> quiet (m ≫= k).
Proof. intros Hm Hk p. unfold mbind, state_bind. specialize (Hm p). destruct (m p) as [a p1]. cbn in Hm. by rewrite Hk. Qed.

Lemma quiet_st {A} (m : Store A) : quiet (st m).
Proof. intros p. unfold st, embed. by destruct (m (po_store p)). Qed.

Lemma quiet_memory {A T} (proj : portal -> T) inj (m : State T A) :
  (forall t p, po_sent (inj t p) = po_sent p) -> quiet (embed proj inj m).
Proof. intros Hi p. unfold embed. destruct (m (proj p)). apply Hi. Qed.

Lemma quiet_msg msg : quiet (redirect_msg msg).
Proof. done. Qed.
Lemma quiet_failed : quiet buy_failed.
Proof. done. Qed.

#[local] Hint Resolve quiet_ret quiet_respond quiet_st quiet_msg quiet_failed : core.

Ltac quiet_step :=
  match goal with
  | |- quiet (_ ≫= _) => apply quiet_bind; [|intros ?]
  | |- quiet (embed _ _ _) => by apply quiet_memory
  | |- quiet (let _ := _ in _) => cbn zeta
  | |- quiet (match ?x with _ => _ end) => destruct x
  | |- quiet _ => progress unfold consume, allow_invite, allow_buy
  end.
Ltac quiet := repeat (first [solve [auto] | quiet_step]).

Lemma quiet_transparent r : quiet (transparentNpub cfg r).
Proof. unfold transparentNpub. quiet. Qed.
Lemma quiet_identify r : quiet (identify cfg r).
Proof. unfold identify. destruct (session_of cfg r); [done|apply quiet_transparent]. Qed.
Lemma quiet_pacTarget key : quiet (pacTarget url_Hostname cfg key).
Proof. unfold pacTarget. quiet. Qed.
Lemma quiet_pacLinks : quiet (pacLinks url_Hostname cfg).
Proof. unfold pacLinks. quiet. Qed.
Lemma quiet_wgNodes : quiet (wgNodes text_le).
Proof. unfold wgNodes. quiet. Qed.
Lemma quiet_summary npub : quiet (load_summary text_le npub).
Proof. unfold load_summary. quiet. Qed.
#[local] Hint Resolve quiet_transparent quiet_identify quiet_pacTarget quiet_pacLinks quiet_wgNodes quiet_summary : core.

Definition cashu_route (rt : route) : bool := match rt with rt_cashu _ | rt_cashu_receive _ => true | _ => false end.

Lemma quiet_serve rt r : cashu_route rt = false ->
  quiet (serve uuid_text parse_uuid text_le url_Host url_Hostname ParsePubKey ParseSignature schnorr_Verify cfg rt r).
Proof.
  destruct rt; intros H; try done; cbn [serve];
    unfold root, loginPage, authChallenge, authVerify, authFips, logout, dashboard, whitelistAdd, whitelistToggle, whitelistAccept,
      whitelistDecline, whitelistUseOwn, wgNew, wgDelete, captive, help, pacFor, packagesPage, status, buy, payPage, payStatus,
      with_session, authFail, redirect_err, redirect_msg, invitation_sent, show_packages, buy_as, buy_failed, invoice_purchase; quiet.
Qed.

(** ** The Cashu routes *)

(** The ecash that a request presents: the proofs of a payload with their mint, or
    those of a token in the body or in the form. *)
Inductive presents (r : request) : route -> gostr -> list (Cashu.Proof Cashu.DLEQProof) -> Prop :=
| presents_payload id v pl : rq_body_json r = Some v -> Cashu.payload_of v = Some pl -> Cashu.pp_Proofs pl <> [] ->
    presents r (rt_cashu_receive id) (Cashu.pp_Mint pl) (Cashu.pp_Proofs pl)
| presents_body id body mint proofs : rq_body r = Some body -> Cashu.DecodeToken (TrimSpace body) = Some (mint, proofs) ->
    presents r (rt_cashu_receive id) mint proofs
| presents_form id mint proofs : Cashu.DecodeToken (TrimSpace (TrimSpace (rq_FormValue r (bs "token")))) = Some (mint, proofs) ->
    presents r (rt_cashu id) mint proofs.

(** The purchase a route names, for whom it may be paid: anyone with the link may
    post a payload, the form is for the buyer. *)
Inductive pays (r : request) (d : db) : route -> purchase -> Prop :=
| pays_receive path id pu : parse_uuid path = Some id -> find_row (by_id id) (db_purchases d) = Some pu ->
    pays r d (rt_cashu_receive path) pu
| pays_form path id npub pu : parse_uuid path = Some id -> session_of cfg r = Some npub -> by_id id pu = true -> pu ∈ db_purchases d ->
    has_npub d npub (pu_account pu) = true -> pays r d (rt_cashu path) pu.

Lemma receive_run c r body bolt11 sent id : rq_body r = Some body ->
  exists new res, receive_melt c body (rq_body_json r) bolt11 sent = (res, sent ++ new) /\
    (new = [] \/ exists mint proofs, presents r (rt_cashu_receive id) mint proofs /\ asked c mint proofs bolt11 sent new res).
Proof.
  intros Hb. assert (Ht : exists new res, Cashu.Melt c body bolt11 sent = (res, sent ++ new) /\
    (new = [] \/ exists mint proofs, presents r (rt_cashu_receive id) mint proofs /\ asked c mint proofs bolt11 sent new res)).
  { pose proof (Melt_run c body bolt11 sent) as H. destruct (Cashu.DecodeToken _) as [[mint proofs]|] eqn:Ed.
    - destruct H as (new & res & E & Ha). exists new, res. split; [done|]. right. exists mint, proofs. split; [by eapply presents_body|done].
    - exists [], (Err Cashu.ErrDecodeToken). rewrite app_nil_r. by split; [|left]. }
  unfold receive_melt. destruct (rq_body_json r) as [v|] eqn:Ev; [|exact Ht]. cbn [mbind option_bind].
  destruct (Cashu.payload_of v) as [pl|] eqn:Ep; [|exact Ht]. destruct (Cashu.pp_Proofs pl) as [|x ps] eqn:Ex; [exact Ht|]. rewrite <- Ex.
  destruct (MeltProofs_run c (Cashu.pp_Mint pl) (Cashu.pp_Proofs pl) bolt11 sent) as (new & res & E & Ha). exists new, res. split; [done|]. right.
  eexists _, _. split; [eapply presents_payload; [done..|congruence]|done].
Qed.

(** What a request to a mint is for. *)
Definition redeems (rt : route) (r : request) (p : portal) (new : list Cashu.mint_post) : Prop :=
  exists c pu bolt11 mint proofs res,
    cf_cashu cfg = Some c /\ pays r (po_store p) rt pu /\ pu_payreq pu = Some bolt11 /\ pu_status pu <> settled /\
    presents r rt mint proofs /\ asked c mint proofs bolt11 (po_sent p) new res.

Definition outcome (rt : route) (r : request) (p : portal) (m : State portal (response * option Cookie)) : Prop :=
  exists new, po_sent (m p).2 = po_sent p ++ new /\ po_store (m p).2 = po_store p /\ (new = [] \/ redeems rt r p new).

Lemma outcome_respond rt r p x : outcome rt r p (respond x).
Proof. exists []. rewrite app_nil_r. by split; [|split; [|left]]. Qed.

(** A read before the rest. *)
Lemma outcome_read {A} rt r p (m : Store A) k : reads m -> outcome rt r p (k (m (po_store p)).1) -> outcome rt r p (st m ≫= k).
Proof.
  intros Hm. unfold outcome, mbind, state_bind, st, embed. specialize (Hm (po_store p)). destruct (m (po_store p)) as [x d]. cbn in *. subst d.
  assert (E : set_store (po_store p) p = p) by (by destruct p). by rewrite E.
Qed.

(** The redemption itself, then an answer. *)
Lemma outcome_melt {A} rt r p (m : State (list Cashu.mint_post) A) (k : A -> State portal (response * option Cookie)) new x :
  m (po_sent p) = (x, po_sent p ++ new) -> (exists y, k x = respond y) -> (new = [] \/ redeems rt r p new) -> outcome rt r p (at_mint m ≫= k).
Proof.
  intros E [y Ek] H. exists new. unfold mbind, state_bind, at_mint, embed. rewrite E, Ek. done.
Qed.

Lemma outcome_receive r p path : outcome (rt_cashu_receive path) r p (cashuReceive parse_uuid cfg path r).
Proof.
  unfold cashuReceive. destruct (cf_cashu cfg) as [c|] eqn:Ec; [|apply outcome_respond].
  destruct (parse_uuid path) as [id|] eqn:Eu; [|apply outcome_respond]. apply outcome_read; [apply reads_PurchaseInvoice|].
  unfold PurchaseInvoice. destruct (find_row _ _) as [pu|] eqn:Ef; cbn [fst]; [|apply outcome_respond].
  do 2 (case_bool_decide; [apply outcome_respond|]). destruct (rq_body r) as [body|] eqn:Eb; [|apply outcome_respond].
  destruct (pu_payreq pu) as [bolt11|] eqn:Ep; [|done]. cbn [default] in *.
  destruct (receive_run c r body bolt11 (po_sent p) path Eb) as (new & res & E & Hn).
  eapply outcome_melt; [exact E|destruct res; by eexists|]. destruct Hn as [->|(mint & proofs & Hp & Ha)]; [by left|right].
  exists c, pu, bolt11, mint, proofs, res. split; [done|]. split; [by eapply pays_receive|]. done.
Qed.

Lemma outcome_cashu r p path : outcome (rt_cashu path) r p (payCashu parse_uuid cfg path r).
Proof.
  unfold payCashu. destruct (session_of cfg r) as [npub|] eqn:Es; [|apply outcome_respond].
  destruct (cf_cashu cfg) as [c|] eqn:Ec; [|apply outcome_respond]. destruct (parse_uuid path) as [id|] eqn:Eu; [|apply outcome_respond].
  apply outcome_read; [apply reads_PurchaseForPay|]. unfold PurchaseForPay.
  destruct (find_row _ (db_purchases _)) as [pu|] eqn:Ef; [|apply outcome_respond]. apply find_row_Some in Ef as [Hin Hpu]. bool_hyps.
  destruct (find_row _ (db_packages _)) as [k|] eqn:Ek; cbn [fst]; [|apply outcome_respond]. cbn [pv_Status pv_Bolt11].
  do 2 (case_bool_decide; [apply outcome_respond|]). cbn zeta. case_bool_decide; [apply outcome_respond|].
  destruct (pu_payreq pu) as [bolt11|] eqn:Ep; [|done]. cbn [default] in *.
  set (token := TrimSpace (rq_FormValue r (bs "token"))) in *. pose proof (Melt_run c token bolt11 (po_sent p)) as Hm.
  destruct (Cashu.DecodeToken _) as [[mint proofs]|] eqn:Ed.
  - destruct Hm as (new & res & E & Ha). eapply outcome_melt; [exact E|destruct res; by eexists|]. right.
    exists c, pu, bolt11, mint, proofs, res. split; [done|]. split; [by eapply pays_form|]. do 2 (split; [done|]). split; [by constructor|done].
  - apply (outcome_melt _ _ _ _ _ [] (Err Cashu.ErrDecodeToken)); [by rewrite app_nil_r|by eexists|by left].
Qed.

Lemma receive_store r p path : po_store (cashuReceive parse_uuid cfg path r p).2 = po_store p.
Proof. destruct (outcome_receive r p path) as (new & _ & E & _). exact E. Qed.

(** [C13] Ecash is spent for its purpose only.  Serving a request contacts a mint only
    on the two Cashu routes, for an unsettled purchase named in the path that has a
    Lightning invoice (of the session's own account, on the form route); the store
    is not touched.  All requests go to the mint of the ecash presented with the
    request, which is on the allowlist if there is one.  Ecash leaves in at most one
    of them, whole, after that mint quoted this very invoice and within what the
    ecash covers, where amount and fee reserve of the quote are added as the code adds
    them, modulo 2^64. *)
Theorem ecash_spent_on_invoice rt r p :
  let p' := (serve uuid_text parse_uuid text_le url_Host url_Hostname ParsePubKey ParseSignature schnorr_Verify cfg rt r p).2 in
  exists new, po_sent p' = po_sent p ++ new /\
    (new = [] \/ po_store p' = po_store p /\
     exists c pu bolt11 mint proofs,
       cf_cashu cfg = Some c /\ pays r (po_store p) rt pu /\ pu_payreq pu = Some bolt11 /\ pu_status pu <> settled /\
       presents r rt mint proofs /\ accepts c mint /\
       (new = [quote_post mint bolt11] \/
        exists q, answered (po_sent p) (quote_post mint bolt11) Cashu.quote_of = Some q /\ covers q proofs /\
                  new = [quote_post mint bolt11; melt_post mint (Cashu.mq_Quote q) proofs])).
Proof.
  cbn zeta. destruct (cashu_route rt) eqn:Er.
  2: { exists []. rewrite app_nil_r. split; [by apply quiet_serve|by left]. }
  assert (H : outcome rt r p (serve uuid_text parse_uuid text_le url_Host url_Hostname ParsePubKey ParseSignature schnorr_Verify cfg rt r))
    by (destruct rt; try done; cbn [serve]; [apply outcome_cashu|apply outcome_receive]).
  destruct H as (new & Es & Ed & H). exists new. split; [done|]. destruct H as [->|H]; [by left|].
  destruct H as (c & pu & bolt11 & mint & proofs & res & H1 & H2 & H3 & H4 & H5 & Ha).
  destruct Ha as [|? |q|q res]; [by left|right..]; (split; [done|]); exists c, pu, bolt11, mint, proofs; do 6 (split; [done|]); [by left..|].
  right. by exists q.
Qed.

End Spending.
End PortalCashu.
