(* ===== verification/Backend.v ===== *)
(** * backend: the process

    Models backend/main.go: the routes of both listeners with their middleware
    ([csrfProtect], [requireNode], [requireAdmin]), the readiness cache, the tickers
    of backend/sweep.go and backend/retention.go, and start-up on an existing
    database.  An event is one request served, one tick, or a restart; a request is
    what its handler reads of it.  One instant stands for [time.Now()] during an
    event.  /metrics is in [BackendMetrics]. *)

From S2P Require Import Prelude GoStrings GoJson Netip Sha256 RateLimit Tokens AgentTypes BackendDB BackendAuthz BackendUsage.
From S2P Require Import BackendWhitelist BackendPayments BackendCashu BackendWg BackendSummary BackendApi BackendAdmin Portal.
Import DB Authz Usage Whitelist Payments Wg Summary Api Admin Portal.

Module Backend.

(** ** Cross-origin protection *)

(** The headers of net/http's [CrossOriginProtection]; [hm_origin_host] is the host
    of the Origin header, if it parses. *)
Record headers := {
  hm_auth : gostr; hm_Host : gostr; hm_SecFetchSite : gostr; hm_Origin : gostr; hm_origin_host : option gostr
}.

(** [CrossOriginProtection.Check]: [safe] is GET, HEAD or OPTIONS, [exempt] a bypass
    pattern. *)
Definition cross_origin_ok (h : headers) (safe exempt : bool) : bool :=
  if safe then true
  else if bool_decide (hm_SecFetchSite h = []) then
    bool_decide (hm_Origin h = []) || bool_decide (hm_origin_host h = Some (hm_Host h)) || exempt
  else if bool_decide (hm_SecFetchSite h = bs "same-origin") || bool_decide (hm_SecFetchSite h = bs "none") then true
  else exempt.

(** ** Readiness *)

(** [rc_at] is the zero time before the first check. *)
Record readyCache := { rc_at : Z; rc_ok : bool }.

Definition readyTTL : Z := 5 * time_Second.

(** [check] is what the database answers now. *)
Definition ready_get (check : bool) (now : Z) (c : readyCache) : bool * readyCache :=
  if negb (time_IsZero (rc_at c)) && (time_Sub now (rc_at c) <? readyTTL) then (rc_ok c, c)
  else (check, {| rc_at := now; rc_ok := check |}).

(** ** Requests *)

Inductive endpoint :=
| ep_healthz
| ep_readyz (now : Z) (check : bool)
| ep_enroll (req : option enrollRequest) (rnd : list Z)
| ep_authz (id : gostr) (clientRev deadline : Z) (full : bool) (seen : list (db * db * Z))
| ep_usage (id : gostr) (req : option usageReport)
| ep_heartbeat (id : gostr) (req : heartbeatRequest)
| ep_wg (id etag : gostr)
| ep_btcpay (body : option (list Z)) (sig : gostr)
| ep_phoenixd (body : option (list Z)) (sig : gostr)
| ep_portal (rt : route) (r : request)
| ep_admin (rt : admin_route) (rnd : list Z) (body : option Json.jvalue).

(** The method is one of the safe ones. *)
Definition get_route (rt : route) : bool :=
  match rt with
  | rt_root | rt_login | rt_challenge | rt_dashboard | rt_captive | rt_help | rt_pac _ | rt_packages | rt_status
  | rt_pay _ | rt_pay_status _ => true
  | _ => false
  end.

Definition safe_method (e : endpoint) : bool :=
  match e with
  | ep_healthz | ep_readyz _ _ | ep_authz _ _ _ _ _ | ep_wg _ _ => true
  | ep_portal rt _ => get_route rt
  | ep_admin rt _ _ => match rt with ad_authz | ad_account _ | ad_packages | ad_services => true | _ => false end
  | _ => false
  end.

Definition bypass (e : endpoint) : bool := match e with ep_portal (rt_cashu_receive _) _ => true | _ => false end.

Definition is_admin (e : endpoint) : bool := match e with ep_admin _ _ _ => true | _ => false end.

Inductive answer_of :=
| an_plain (status : Z)
| an_enroll (x : reply enrollResponse)
| an_authz (x : reply authzResponse)
| an_usage (x : reply usageAck)
| an_heartbeat (x : reply heartbeatResponse)
| an_wg (x : reply wgPeersResponse)
| an_hook (x : Payments.answer)
| an_portal (x : response) (c : option Cookie)
| an_admin (x : reply admin_answer).

(** ** The process *)

(** A webhook is mounted when its rail is configured, with its secret; [checker] asks
    BTCPay about an invoice.  [bc_single] is the single-listener mode. *)
Record settings := {
  bc_portal : config;
  bc_adminToken : gostr;
  bc_usageIntervalS : Z; bc_graceMinutes : Z; bc_allowMassRevoke : bool;
  bc_btcpay : option (list Z * option (gostr -> option gostr));
  bc_phoenixd : option (list Z);
  bc_usageKeep : Z; bc_revKeep : Z; bc_invoiceTTL : Z;
  bc_single : bool
}.

Section Process.
Context `{MI : MapIter} `{DR : Driver} `{CL : Cashu.CashuLib} `{MN : !Cashu.Mints}.
Context (uuid_text : Z -> gostr) (parse_uuid : gostr -> option Z) (text_le : relation gostr) `{!RelDecision text_le}.
Context (url_Host url_Hostname : gostr -> option gostr).
Context (ParsePubKey ParseSignature : list Z -> bool) (schnorr_Verify : list Z -> list Z -> list Z -> bool).
Context (decode_btcpay : list Z -> option WebhookEvent) (decode_phoenix : list Z -> option PhoenixEvent).
Context (cfg : settings).

Record backend := { bk_portal : portal; bk_cache : authzStatus; bk_ready : readyCache }.

Definition store_of (b : backend) : db := po_store (bk_portal b).

Definition set_portal (p : portal) (b : backend) : backend := {| bk_portal := p; bk_cache := bk_cache b; bk_ready := bk_ready b |}.
Definition set_cache (c : authzStatus) (b : backend) : backend := {| bk_portal := bk_portal b; bk_cache := c; bk_ready := bk_ready b |}.
Definition set_ready (c : readyCache) (b : backend) : backend := {| bk_portal := bk_portal b; bk_cache := bk_cache b; bk_ready := c |}.

(** A handler on the store. *)
Definition on_store {A} (m : db -> A * db) : State backend A := fun b =>
  let '(x, d) := m (store_of b) in (x, set_portal (set_store d (bk_portal b)) b).

Definition handler_config : handlerConfig :=
  {| hc_usageIntervalS := bc_usageIntervalS cfg; hc_graceMinutes := bc_graceMinutes cfg; hc_wg := cf_wg (bc_portal cfg) |}.

Definition pools_of : WgPools := ws_pools (cf_wg (bc_portal cfg)).

(** [requireNode] on the {id} of the path; an id that is no uuid names no node. *)
Definition node_gate {A} (auth id : gostr) (next : Z -> db -> reply A * db) : State backend (reply A) :=
  on_store (fun d => match parse_uuid id with Some nodeID => requireNode auth nodeID (next nodeID) d | None => (Failed 401, d) end).

Definition map_reply {A B} (f : A -> B) (x : reply A) : reply B :=
  match x with NoContent => NoContent | Body a => Body (f a) | Failed s => Failed s end.

Definition serve_heartbeat (auth id : gostr) (req : heartbeatRequest) : State backend (reply heartbeatResponse) := fun b =>
  let '(x, b') := node_gate auth id (fun nodeID d =>
    let '(y, c, d') := heartbeat handler_config nodeID req (bk_cache b) d in (map_reply (fun a => (a, c)) y, d')) b in
  (map_reply fst x, match x with Body (_, c) => set_cache c b' | _ => b' end).

Definition answering {A} (f : A -> answer_of) (m : State backend A) : State backend answer_of := x ← m; mret (f x).

(** [mountPublic] and [mountAdmin] *)
Definition mounted (h : headers) (e : endpoint) : State backend answer_of :=
  match e with
  | ep_healthz => mret (an_plain 200)
  | ep_readyz now check => fun b =>
      let '(ok, c) := ready_get check now (bk_ready b) in (an_plain (if (ok : bool) then 200 else 503), set_ready c b)
  | ep_enroll req rnd => answering an_enroll (on_store (enroll uuid_text req rnd))
  | ep_authz id clientRev deadline full seen =>
      answering an_authz (node_gate (hm_auth h) id (fun _ d =>
        (default NoContent (authz uuid_text (bc_allowMassRevoke cfg) clientRev deadline full seen), d)))
  | ep_usage id req => answering an_usage (node_gate (hm_auth h) id (fun nodeID => usage nodeID req))
  | ep_heartbeat id req => answering an_heartbeat (serve_heartbeat (hm_auth h) id req)
  | ep_wg id etag => answering an_wg (node_gate (hm_auth h) id (fun _ d => (wgPeers text_le pools_of etag d, d)))
  | ep_btcpay body sig =>
      match bc_btcpay cfg with
      | Some (secret, checker) => answering an_hook (on_store (btcpay_webhook decode_btcpay checker secret body sig))
      | None => mret (an_plain 404)
      end
  | ep_phoenixd body sig =>
      match bc_phoenixd cfg with
      | Some secret => answering an_hook (on_store (phoenixd_webhook decode_phoenix secret body sig))
      | None => mret (an_plain 404)
      end
  | ep_portal rt r => fun b =>
      let '(x, c, p) := Portal.serve uuid_text parse_uuid text_le url_Host url_Hostname ParsePubKey ParseSignature schnorr_Verify
                          (bc_portal cfg) rt r (bk_portal b) in
      (an_portal x c, set_portal p b)
  | ep_admin rt rnd body => answering an_admin (on_store (serve_admin uuid_text parse_uuid text_le (bc_adminToken cfg) (hm_auth h) rt rnd body))
  end.

(** The admin listener has no cross-origin check, unless everything is on one mux. *)
Definition serve_http (h : headers) (e : endpoint) : State backend answer_of :=
  if (is_admin e && negb (bc_single cfg)) || cross_origin_ok h (safe_method e) (bypass e) then mounted h e else mret (an_plain 403).

(** ** Tickers *)

(** [runExpirySweep] and [runRetention], one tick each. *)
Definition expiry_tick (d : db) : db := (RecomputeAuthz d).2.

Definition retention_tick (d : db) : db :=
  let d1 := if 0 <? bc_usageKeep cfg then (AggregateUsage (db_now d - bc_usageKeep cfg) d).2 else d in
  if 0 <? bc_revKeep cfg then (CompactAuthzRevisions (db_now d - bc_revKeep cfg) d1).2 else d1.

(** ** Start-up *)

Definition boot (d : db) : backend :=
  {| bk_portal := newPortal (SeedPackages (SeedDefaults d).2).2; bk_cache := no_status; bk_ready := {| rc_at := 0; rc_ok := false |} |}.

(** ** Events *)

Inductive event :=
| ev_request (h : headers) (e : endpoint)
| ev_expiry_sweep
| ev_reconcile (lookup : gostr -> option bool)
| ev_retention
| ev_clock (t : Z)
| ev_restart.

Definition happen (ev : event) (b : backend) : backend :=
  match ev with
  | ev_request h e => (serve_http h e b).2
  | ev_expiry_sweep => set_portal (set_store (expiry_tick (store_of b)) (bk_portal b)) b
  | ev_reconcile lookup => (on_store (sweep lookup (bc_invoiceTTL cfg)) b).2
  | ev_retention => set_portal (set_store (retention_tick (store_of b)) (bk_portal b)) b
  | ev_clock t => set_portal (set_store (set_now (Z.max t (db_now (store_of b))) (store_of b)) (bk_portal b)) b
  | ev_restart => boot (store_of b)
  end.

Definition history (evs : list event) (b : backend) : backend := foldl (fun b ev => happen ev b) b evs.

End Process.
End Backend.
