(* ===== verification/BackendFacts.v ===== *)
(** * Theorems about the backend process

    Every event moves the store by operations of its components, so what is proved of
    each component's histories holds of every history of the process; and no request
    changes the store without the authority its route demands. *)

From S2P Require Import Prelude GoStrings GoJson Netip Sha256 RateLimit Tokens AgentTypes BackendDB BackendAuthz BackendAuthzFacts BackendUsage.
From S2P Require Import BackendWhitelist BackendWhitelistFacts BackendConsent BackendPayments BackendPaymentsFacts BackendSales BackendCashu BackendWg.
From S2P Require Import BackendWgFacts BackendSummary BackendApi BackendApiFacts BackendAdmin BackendFrame Portal PortalFacts PortalCashu Backend.
Import DB Authz AuthzFacts Usage Whitelist WhitelistFacts Consent Payments PaymentsFacts Sales Wg WgFacts Summary Api ApiFacts Admin Frame.
Import Portal PortalFacts PortalCashu Backend.

Module BackendFacts.

Section Process.
Context `{MI : MapIter} `{DR : Driver} `{CL : Cashu.CashuLib} `{MN : !Cashu.Mints}.
Context (uuid_text : Z -> gostr) (parse_uuid : gostr -> option Z) (text_le : relation gostr) `{!RelDecision text_le}.
Context (url_Host url_Hostname : gostr -> option gostr).
Context (ParsePubKey ParseSignature : list Z -> bool) (schnorr_Verify : list Z -> list Z -> list Z -> bool).
Context (decode_btcpay : list Z -> option WebhookEvent) (decode_phoenix : list Z -> option PhoenixEvent).
Context (cfg : settings).

#[local] Abbreviation pools := (pools_of cfg).
#[local] Abbreviation cap := (cf_MaxWgPeers (bc_portal cfg)).
#[local] Abbreviation steps := (rtc (store_step pools cap)).
#[local] Abbreviation happens := (happen uuid_text parse_uuid text_le url_Host url_Hostname ParsePubKey ParseSignature schnorr_Verify decode_btcpay decode_phoenix cfg).
#[local] Abbreviation mounts := (mounted uuid_text parse_uuid text_le url_Host url_Hostname ParsePubKey ParseSignature schnorr_Verify decode_btcpay decode_phoenix cfg).
#[local] Abbreviation serves := (serve_http uuid_text parse_uuid text_le url_Host url_Hostname ParsePubKey ParseSignature schnorr_Verify decode_btcpay decode_phoenix cfg).

(** ** Handlers as steps of the store *)

Lemma step_pay o d : steps d (run_pay o d).
Proof. apply rtc_once. by exists (so_pay o). Qed.
Lemma step_sys o d : steps d (run_sys pools cap o d).
Proof. apply rtc_once. by exists (so_sys o). Qed.

Lemma on_store_store {A} (m : db -> A * db) b : store_of (on_store m b).2 = (m (store_of b)).2.
Proof. unfold on_store, store_of. by destruct (m (po_store (bk_portal b))). Qed.

Lemma answering_store {A} (f : A -> answer_of) (m : State backend A) b : store_of (answering f m b).2 = store_of (m b).2.
Proof. unfold answering, mbind, state_bind. by destruct (m b). Qed.

(** The node a credential admits, if any, runs the handler. *)
Lemma node_gate_store {A} auth id (next : Z -> db -> reply A * db) b :
  let d := store_of b in let d' := store_of (node_gate parse_uuid auth id next b).2 in
  d' = d \/ exists nodeID token, parse_uuid id = Some nodeID /\ bearer auth = Some token /\ AuthNode nodeID token d = (Ok tt, d) /\
    d' = (next nodeID d).2.
Proof.
  cbn zeta. unfold node_gate. rewrite on_store_store. destruct (parse_uuid id) as [n|]; [|by left].
  unfold requireNode. destruct (bearer auth) as [token|] eqn:Eb; [|by left].
  assert (Hd : (AuthNode n token (store_of b)).2 = store_of b) by (unfold AuthNode; repeat case_match; done).
  destruct (AuthNode n token (store_of b)) as [[[]|e] d] eqn:Ea; cbn in Hd; subst d; [|by left]. right. exists n, token. by rewrite Ea.
Qed.

Lemma usage_steps nodeID req d : steps d (usage nodeID req d).2.
Proof.
  unfold usage. destruct req as [r|]; [|apply rtc_refl]. pose proof (step_pay (pop_ingest nodeID (report_input r)) d) as H. cbn [run_pay] in H.
  by destruct (IngestUsage _ _ d) as [[?|?] ?].
Qed.

Lemma enroll_steps req rnd d : steps d (enroll uuid_text req rnd d).2.
Proof.
  unfold enroll. destruct req as [r|]; [|apply rtc_refl].
  pose proof (step_sys (so_enroll (er_EnrollToken r) (er_NodePubkey r) (er_Name r) rnd) d) as H. cbn [run_sys] in H.
  destruct (EnrollNode _ _ _ _ d) as [[[i a]|e] d']; [done|]. by destruct e.
Qed.

Lemma heartbeat_steps nodeID req cache d : steps d (heartbeat (handler_config cfg) nodeID req cache d).2.
Proof.
  unfold heartbeat. pose proof (step_sys (so_heartbeat nodeID (hr_Version req)) d) as H. cbn [run_sys] in H.
  destruct (Heartbeat nodeID (hr_Version req) d) as [[svc|e] d1]; [|done]. cbn [snd] in H.
  set (d2 := if negb _ then _ else _). destruct (AuthzStatus cache d2) as [st c']. cbn [snd]. etrans; [exact H|]. subst d2.
  destruct (negb _).
  - exact (step_sys (so_announce nodeID (hr_WgPubkey req) (hr_WgEndpoint req)) d1).
  - exact (step_sys (so_silent nodeID) d1).
Qed.

Lemma btcpay_steps checker secret body sig d : steps d (btcpay_webhook decode_btcpay checker secret body sig d).2.
Proof.
  unfold btcpay_webhook. destruct body as [b|]; [|apply rtc_refl]. destruct (negb _); [apply rtc_refl|].
  destruct (decode_btcpay b) as [ev|]; [|apply rtc_refl]. case_bool_decide; [apply rtc_refl|]. unfold btcpay_dispatch.
  pose proof (step_pay (pop_mark (we_InvoiceID ev)) d) as H1. pose proof (step_pay (pop_grant (we_InvoiceID ev)) d) as H2.
  pose proof (step_pay (pop_invalid (we_InvoiceID ev)) d) as H3. pose proof (step_pay (pop_expire (we_InvoiceID ev)) d) as H4. cbn [run_pay] in *.
  case_bool_decide; [by destruct (MarkProcessing _ d)|]. case_bool_decide.
  { destruct checker as [check|]; [|by destruct (GrantByInvoice _ d)]. destruct (check _) as [st|]; [|apply rtc_refl].
    case_bool_decide; [by destruct (GrantByInvoice _ d)|apply rtc_refl]. }
  case_bool_decide; [by destruct (VoidByInvoice _ invalid d)|]. case_bool_decide; [by destruct (VoidByInvoice _ expired d)|apply rtc_refl].
Qed.

Lemma phoenixd_steps secret body sig d : steps d (phoenixd_webhook decode_phoenix secret body sig d).2.
Proof.
  unfold phoenixd_webhook. destruct body as [b|]; [|apply rtc_refl]. destruct (negb _); [apply rtc_refl|].
  destruct (decode_phoenix b) as [ev|]; [|apply rtc_refl]. case_bool_decide; [apply rtc_refl|]. destruct (negb _); [apply rtc_refl|].
  pose proof (step_pay (pop_grant (pe_PaymentHash ev)) d) as Hg. cbn [run_pay] in Hg. by destruct (GrantByInvoice _ d).
Qed.

Lemma act_step a d : steps d (run_act (bc_portal cfg) a d).
Proof.
  destruct a as [o|n k|i inv url q|i|s f l k|s i]; cbn [run_act].
  - exact (step_pay (pop_account o) d).
  - exact (step_pay (pop_purchase n k) d).
  - exact (step_pay (pop_attach i inv url q) d).
  - exact (step_pay (pop_settle i) d).
  - exact (step_sys (so_peer s f l k) d).
  - exact (step_sys (so_unpeer s i) d).
Qed.

Lemma reconcile_steps lookup ttl d : steps d (sweep lookup ttl d).2.
Proof.
  unfold sweep, ListOpenLightning, query. cbn iota beta. set (l := omap _ _). clearbody l. revert d.
  induction l as [|o l IH]; intros d; [apply rtc_refl|]. cbn [reconcile_loop].
  assert (H : steps d (reconcile_one lookup ttl o d).2).
  { unfold reconcile_one. destruct (lookup _) as [[|]|]; [| |apply rtc_refl].
    - pose proof (step_pay (pop_grant (oi_InvoiceID o)) d) as H. cbn [run_pay] in H. by destruct (GrantByInvoice _ d).
    - destruct (_ <? _); [|apply rtc_refl]. pose proof (step_pay (pop_expire (oi_InvoiceID o)) d) as H. cbn [run_pay] in H. by destruct (VoidByInvoice _ _ d). }
  destruct (reconcile_one lookup ttl o d) as [x d1]. specialize (IH d1). destruct (reconcile_loop lookup ttl l d1) as [y d2]. by etrans.
Qed.

Lemma retention_steps d : steps d (retention_tick cfg d).
Proof.
  unfold retention_tick. etrans; [|destruct (0 <? bc_revKeep cfg); [exact (step_sys (so_compact (db_now d - bc_revKeep cfg)) _)|apply rtc_refl]].
  destruct (0 <? bc_usageKeep cfg); [exact (step_sys (so_aggregate (db_now d - bc_usageKeep cfg)) d)|apply rtc_refl].
Qed.

Lemma answer_steps {A} (m : Store A) ok err d d' : (m d).2 = d' -> steps d d' -> steps d (Admin.answer m ok err d).2.
Proof. intros E H. unfold Admin.answer. destruct (m d) as [[a|e] d1]; cbn in *; by subst. Qed.

Lemma body_steps {T} body (decode : list (gostr * Json.jvalue) -> option T) k d :
  (forall x, steps d (k x d).2) -> steps d (with_body body decode k d).2.
Proof. intros H. unfold with_body. destruct (decoded body decode); [apply H|apply rtc_refl]. Qed.

Lemma reads_Inspect npub : reads (Inspect text_le npub).
Proof. unfold Inspect. apply reads_bind; [apply reads_Summary|]. intros s. apply reads_query. Qed.

Lemma admin_steps rt rnd body d : steps d (admin_handler uuid_text parse_uuid text_le rt rnd body d).2.
Proof.
  assert (Hr : forall A (m : Store A) ok err, reads m -> steps d (Admin.answer m ok err d).2)
    by (intros A m ok err H; eapply answer_steps; [apply H|apply rtc_refl]).
  destruct rt; cbn [admin_handler].
  - eapply answer_steps; [done|]. exact (step_sys (so_token rnd _) d).
  - apply body_steps. intros npub. eapply answer_steps; [done|]. exact (step_pay (pop_account (op_create npub)) d).
  - apply body_steps. intros [[[host invited] label] enabled]. eapply answer_steps; [done|]. destruct enabled as [[|]|].
    + exact (step_pay (pop_account (op_add_guest host invited label)) d).
    + exact (step_pay (pop_account (op_enable host invited false)) d).
    + exact (step_pay (pop_account (op_add_guest host invited label)) d).
  - apply body_steps. intros [[[npub kind] gb] days]. cbn zeta. eapply answer_steps; [done|]. case_bool_decide.
    + exact (step_pay (pop_account (op_credit_time npub _)) d).
    + exact (step_pay (pop_account (op_credit_volume npub _ _)) d).
  - by apply Hr.
  - apply Hr, reads_Inspect.
  - by apply Hr.
  - apply body_steps. intros [[[[[kind name] gb] days] price] available]. eapply answer_steps; [done|].
    exact (step_pay (pop_package kind name _ days _ _) d).
  - unfold adminDeactivatePackage. destruct (parse_uuid id) as [i|]; [|apply rtc_refl]. eapply answer_steps; [done|].
    exact (step_pay (pop_deactivate i) d).
  - apply body_steps. intros text. destruct (parse_uuid text) as [i|]; [|apply rtc_refl]. eapply answer_steps; [done|].
    exact (step_pay (pop_settle i) d).
  - by apply Hr.
  - apply body_steps. intros [[[[key name] port] rate] enabled]. destruct (_ || _); [apply rtc_refl|]. eapply answer_steps; [done|].
    exact (step_sys (so_service key _ port rate _) d).
Qed.

(** ** Events as steps of the store *)

Lemma acts_steps r d d' : rtc (acts url_Host ParsePubKey ParseSignature schnorr_Verify (bc_portal cfg) r) d d' -> steps d d'.
Proof.
  induction 1 as [d|d d1 d' (npub & a & _ & _ & ->) _ IH]; [apply rtc_refl|]. etrans; [apply act_step|exact IH].
Qed.

Lemma portal_store rt r b : store_of (mounts {| hm_auth := []; hm_Host := []; hm_SecFetchSite := []; hm_Origin := []; hm_origin_host := None |} (ep_portal rt r) b).2 =
  po_store (Portal.serve uuid_text parse_uuid text_le url_Host url_Hostname ParsePubKey ParseSignature schnorr_Verify (bc_portal cfg) rt r (bk_portal b)).2.
Proof. cbn [mounted]. by destruct (Portal.serve _ _ _ _ _ _ _ _ _ _ _ _) as [[x c] p']. Qed.

Lemma heartbeat_gate auth id req b : exists A (next : Z -> db -> reply A * db),
  (forall n d, (next n d).2 = (heartbeat (handler_config cfg) n req (bk_cache b) d).2) /\
  store_of (serve_heartbeat parse_uuid cfg auth id req b).2 = store_of (node_gate parse_uuid auth id next b).2.
Proof.
  exists (heartbeatResponse * authzStatus)%type, (fun n d =>
    let '(y, c, d') := heartbeat (handler_config cfg) n req (bk_cache b) d in (map_reply (fun a => (a, c)) y, d')).
  split; [intros n d; by destruct (heartbeat _ n req _ d) as [[y c] d']|].
  unfold serve_heartbeat. destruct (node_gate _ _ _ _ b) as [x b']. by destruct x as [|[a c]|].
Qed.

Lemma gate_read {A} auth id (next : Z -> db -> reply A * db) b : (forall n d, (next n d).2 = d) ->
  store_of (node_gate parse_uuid auth id next b).2 = store_of b.
Proof. intros H. destruct (node_gate_store auth id next b) as [E|(n & token & _ & _ & _ & E)]; [done|by rewrite E, H]. Qed.

Lemma gate_steps {A} auth id (next : Z -> db -> reply A * db) b : (forall n d, steps d (next n d).2) ->
  steps (store_of b) (store_of (node_gate parse_uuid auth id next b).2).
Proof.
  intros H. destruct (node_gate_store auth id next b) as [E|(n & token & _ & _ & _ & E)]; rewrite E; [apply rtc_refl|apply H].
Qed.

Lemma mounted_steps h e b : books_ok (store_of b) -> steps (store_of b) (store_of (mounts h e b).2).
Proof.
  intros Hb. destruct e; cbn [mounted]; rewrite ?answering_store.
  - apply rtc_refl.
  - unfold store_of. destruct (ready_get _ _ _). apply rtc_refl.
  - rewrite on_store_store. apply enroll_steps.
  - apply gate_steps. intros n d. apply rtc_refl.
  - apply gate_steps. intros n d. apply usage_steps.
  - destruct (heartbeat_gate (hm_auth h) id req b) as (A & next & Hn & E). rewrite E. apply gate_steps. intros n d. rewrite Hn. apply heartbeat_steps.
  - apply gate_steps. intros n d. apply rtc_refl.
  - destruct (bc_btcpay cfg) as [[secret checker]|]; [|apply rtc_refl]. rewrite answering_store, on_store_store. apply btcpay_steps.
  - destruct (bc_phoenixd cfg) as [secret|]; [|apply rtc_refl]. rewrite answering_store, on_store_store. apply phoenixd_steps.
  - pose proof (portal_store rt r b) as E. cbn [mounted] in E. rewrite E. apply (acts_steps r).
    by apply (safe_serve uuid_text parse_uuid text_le url_Host url_Hostname ParsePubKey ParseSignature schnorr_Verify (bc_portal cfg) rt r (bk_portal b)).
  - rewrite on_store_store. unfold serve_admin, requireAdmin. destruct (bearer _) as [token|]; [|apply rtc_refl].
    case_bool_decide; [apply admin_steps|apply rtc_refl].
Qed.

Lemma serves_store h e b : store_of (serves h e b).2 = store_of b \/ store_of (serves h e b).2 = store_of (mounts h e b).2.
Proof. unfold serve_http. destruct (_ || _); [by right|by left]. Qed.

Lemma boot_steps d : steps d (store_of (boot d)).
Proof. unfold boot, store_of. cbn. etrans; [exact (step_sys so_seed d)|]. exact (step_pay pop_seed _). Qed.

Lemma happen_steps ev b : books_ok (store_of b) -> steps (store_of b) (store_of (happens ev b)).
Proof.
  intros Hb. destruct ev; cbn [happen].
  - destruct (serves_store h e b) as [->| ->]; [apply rtc_refl|by apply mounted_steps].
  - exact (step_pay (pop_account op_recompute) _).
  - rewrite on_store_store. apply reconcile_steps.
  - apply retention_steps.
  - exact (step_sys (so_clock t) _).
  - apply boot_steps.
Qed.

Lemma steps_books d d' : steps d d' -> books_ok d -> books_ok d'.
Proof. intros H Hd. destruct (store_steps_all pools cap _ _ H) as [H1 _]. exact (proj1 (pay_steps_ok d d' H1 Hd)). Qed.

Lemma history_steps evs b : books_ok (store_of b) ->
  steps (store_of b) (store_of (history uuid_text parse_uuid text_le url_Host url_Hostname ParsePubKey ParseSignature schnorr_Verify
                                  decode_btcpay decode_phoenix cfg evs b)).
Proof.
  unfold history. revert b. induction evs as [|ev evs IH]; intros b Hb; [apply rtc_refl|]. cbn [foldl].
  pose proof (happen_steps ev b Hb) as H. etrans; [exact H|]. apply IH. by eapply steps_books.
Qed.

(** ** Invariants of every history *)

Lemma empty_books t : books_ok (empty_db t).
Proof. apply pay_reachable_ok. exists t. apply rtc_refl. Qed.

Lemma empty_log_ok t : log_ok (empty_db t).
Proof. split; cbn; try apply Forall_nil_2; try done; try (by constructor). Qed.

(** [C7] Whatever requests, ticks and restarts make up the history of a backend
    started on an empty database, its store is reached by steps of every component:
    what is proved of the reachable stores of accounts and sales, of WireGuard peers,
    of nodes and of the revision log holds of it.  In particular: active whitelist
    rows have distinct addresses, a purchase is settled exactly when its entitlement
    exists, inner addresses and keys of peers are distinct, node ids are, and the log
    accounts for the set. *)
Theorem every_history t evs :
  pools_ok pools -> 0 < cap ->
  let d := store_of (history uuid_text parse_uuid text_le url_Host url_Hostname ParsePubKey ParseSignature schnorr_Verify
                       decode_btcpay decode_phoenix cfg evs (boot (empty_db t))) in
  (pay_reachable d /\ wg_reachable pools cap d /\ rtc node_step (empty_db t) d /\ rtc log_step (empty_db t) d) /\
  NoDup (w_addr <$> filter (fun w => active_row w = true) (db_whitelist d)) /\
  (forall p, p ∈ db_purchases d -> pu_status p = settled <-> pu_id p ∈ (sales d).*1) /\
  NoDup (wq_idx <$> db_wgpeers d) /\ NoDup (wq_pubkey <$> db_wgpeers d) /\
  NoDup (nd_id <$> db_nodes d) /\ log_ok d.
Proof.
  intros Hp Hc d. assert (H : steps (empty_db t) d).
  { subst d. etrans; [apply boot_steps|]. apply history_steps. eapply steps_books; [apply boot_steps|apply empty_books]. }
  destruct (store_steps_all pools cap _ _ H) as (H1 & H2 & H3 & H4).
  assert (R1 : pay_reachable d) by (by exists t). assert (R2 : wg_reachable pools cap d) by (by exists t). split; [done|].
  destruct (pay_reachable_ok d R1) as [Hw Hd]. destruct (wg_reachable_ok pools cap d Hp Hc R2) as [G1 G2 _ _ _ _ _].
  destruct (node_steps_ok _ _ H3 (empty_nodes_ok t)) as [[N1 _ _] _].
  split; [apply Hw|]. split; [intros p Hin; apply (po_paid d Hd p Hin)|]. split; [done|]. split; [done|]. split.
  - unfold creds in N1. rewrite <- list_fmap_compose in N1. exact N1.
  - apply (log_steps_spec _ _ H4), empty_log_ok.
Qed.

(** ** Authority *)

(** What a request must carry for its endpoint to change the store. *)
Definition authority (h : headers) (e : endpoint) (d : db) : Prop :=
  match e with
  | ep_enroll (Some req) _ => exists t, t ∈ db_tokens d /\ et_hash t = sha256Hex (er_EnrollToken req) /\ et_used t = None
  | ep_usage id _ | ep_heartbeat id _ =>
      exists nodeID token, parse_uuid id = Some nodeID /\ bearer (hm_auth h) = Some token /\ AuthNode nodeID token d = (Ok tt, d)
  | ep_btcpay (Some body) sig => exists secret checker, bc_btcpay cfg = Some (secret, checker) /\ VerifyWebhook secret body sig = true
  | ep_phoenixd (Some body) sig => exists secret, bc_phoenixd cfg = Some secret /\ VerifyPhoenixSig secret body sig = true
  | ep_portal rt r => exists npub, authenticated url_Host ParsePubKey ParseSignature schnorr_Verify (bc_portal cfg) r npub
  | ep_admin _ _ _ => bearer (hm_auth h) = Some (bc_adminToken cfg)
  | _ => False
  end.

(** A browser's request from another site: marked so by the browser, or by the host
    of its Origin. *)
Definition cross_site (h : headers) : Prop :=
  (hm_SecFetchSite h <> [] /\ hm_SecFetchSite h <> bs "same-origin" /\ hm_SecFetchSite h <> bs "none") \/
  (hm_SecFetchSite h = [] /\ hm_Origin h <> [] /\ hm_origin_host h <> Some (hm_Host h)).

Lemma cross_site_refused h : cross_site h -> cross_origin_ok h false false = false.
Proof.
  unfold cross_origin_ok. intros [(H1 & H2 & H3)|(H1 & H2 & H3)].
  - by rewrite !bool_decide_eq_false_2.
  - rewrite bool_decide_eq_true_2 by done. by rewrite !bool_decide_eq_false_2.
Qed.

Lemma enroll_authority req rnd d : (enroll uuid_text (Some req) rnd d).2 <> d ->
  exists t, t ∈ db_tokens d /\ et_hash t = sha256Hex (er_EnrollToken req) /\ et_used t = None.
Proof.
  unfold enroll, EnrollNode, inTx. tx_unfold. destruct (find_row _ (db_tokens d)) as [e|] eqn:Ef; [|done].
  destruct (et_used e) eqn:Eu; [done|]. intros _. apply find_row_Some in Ef as [He Ht]. unfold has_token in Ht. bool_hyps. by exists e.
Qed.

(** [C8] No request changes the store without authority: a change needs an unused
    enrollment token in the body, the credential of the node named in the path, the
    rail's signature on the webhook, the admin token, or (on the portal) an identity
    that the request authenticates; and no POST that a browser sends from another site
    changes the store through the public listener. *)
Theorem changes_need_authority h e b :
  books_ok (store_of b) -> store_of (serves h e b).2 <> store_of b ->
  authority h e (store_of b) /\ (is_admin e = false -> safe_method e = false -> ~ cross_site h).
Proof.
  intros Hb Hn. split.
  - destruct (serves_store h e b) as [E|E]; [by rewrite E in Hn|]. rewrite E in Hn. clear E.
    destruct e; cbn [mounted] in Hn; rewrite ?answering_store in Hn; cbn [authority].
    + done.
    + exfalso. apply Hn. unfold store_of. by destruct (ready_get _ _ _).
    + rewrite on_store_store in Hn. destruct req as [req|]; [by apply (enroll_authority req rnd)|done].
    + apply Hn. by apply gate_read.
    + destruct (node_gate_store (hm_auth h) id (fun nodeID => usage nodeID req) b) as [E|(n & token & H1 & H2 & H3 & _)]; [done|by exists n, token].
    + destruct (heartbeat_gate (hm_auth h) id req b) as (A & next & _ & E). rewrite E in Hn.
      destruct (node_gate_store (hm_auth h) id next b) as [E1|(n & token & H1 & H2 & H3 & _)]; [done|by exists n, token].
    + apply Hn. by apply gate_read.
    + destruct (bc_btcpay cfg) as [[secret checker]|]; [|done]. rewrite answering_store, on_store_store in Hn. unfold btcpay_webhook in Hn.
      destruct body as [body|]; [|done]. destruct (VerifyWebhook secret body sig) eqn:Ev; [by exists secret, checker|done].
    + destruct (bc_phoenixd cfg) as [secret|]; [|done]. rewrite answering_store, on_store_store in Hn. unfold phoenixd_webhook in Hn.
      destruct body as [body|]; [|done]. destruct (VerifyPhoenixSig secret body sig) eqn:Ev; [by exists secret|done].
    + pose proof (portal_store rt r b) as E. cbn [mounted] in E. rewrite E in Hn.
      destruct (safe_serve uuid_text parse_uuid text_le url_Host url_Hostname ParsePubKey ParseSignature schnorr_Verify (bc_portal cfg) rt r (bk_portal b) Hb) as [Hs _].
      apply rtc_inv in Hs as [E1|(d1 & (npub & a & Ha & _) & _)]; [by rewrite <- E1 in Hn|by exists npub].
    + rewrite on_store_store in Hn. unfold serve_admin, requireAdmin in Hn. destruct (bearer _) as [token|]; [|done].
      case_bool_decide; [by subst|done].
  - intros Ha Hm Hx. apply Hn. unfold serve_http. rewrite Ha, Hm. cbn [andb orb]. destruct (bypass e) eqn:Ep.
    + destruct e as [| | | | | | | | |rt r|]; try done. destruct rt; try done.
      destruct (cross_origin_ok h false true); [|done]. pose proof (portal_store (rt_cashu_receive id) r b) as E. cbn [mounted] in E |- *. rewrite E. clear E.
      apply (receive_store parse_uuid (bc_portal cfg) r (bk_portal b) id).
    + by rewrite cross_site_refused.
Qed.

End Process.
End BackendFacts.
