(* ===== verification/BackendRails.v ===== *)
(** * backend/payments: the payment rails

    Models the clients of backend/payments/btcpay.go and backend/payments/phoenixd.go:
    the requests they send and what they make of the answers.  The providers answer
    as they like. *)

From S2P Require Import Prelude GoStrings GoJson Netip GoNet BackendCashu Portal.
Import Json Portal.

Module Rails.

(** ** Requests *)

Inductive rail_auth := auth_token (apiKey : gostr) | auth_basic (user password : gostr).
Inductive rail_body := no_body | json_body (v : jvalue) | form_body (text : gostr).
Record rail_request := { rr_method : gostr; rr_url : gostr; rr_auth : rail_auth; rr_body : rail_body }.

(** [fmt.Sprintf("%08d", n)] *)
Definition pad0 (n : nat) (s : gostr) : gostr := replicate (n - length s) 48 ++ s.
Definition format_08d (n : Z) : gostr := if n <? 0 then [45] ++ pad0 7 (FormatUint 10 (- n)) else pad0 8 (FormatUint 10 n).

Definition msatPerBTC : Z := 100000000000.

(** Division truncates. *)
Definition btcAmount (msat : Z) : gostr :=
  let whole := Z.quot msat msatPerBTC in
  let frac := Z.rem msat msatPerBTC in
  let sats := Z.quot frac 1000 in
  FormatInt whole ++ [46] ++ format_08d sats.

(** The status with the body, if it is JSON; [None] is a request that could not be
    made or was not answered. *)
Section Rails.
Context (http : rail_request -> option (Z * option jvalue)).

(** A 2xx answer, decoded. *)
Definition success {T} (a : option (Z * option jvalue)) (decode : jvalue -> option T) : option T :=
  match a with
  | Some (status, body) => if (status <? 200) || (300 <=? status) then None else v ← body; decode v
  | None => None
  end.

(** ** BTCPay *)

Record Client := { cl_baseURL : gostr; cl_apiKey : gostr; cl_storeID : gostr }.

Definition NewClient (baseURL apiKey storeID : gostr) : Client :=
  {| cl_baseURL := Cashu.TrimRightSlash baseURL; cl_apiKey := apiKey; cl_storeID := storeID |}.

Definition invoice_of (v : jvalue) : option (Invoice * gostr) :=
  l ← as_struct v;
  id ← get as_string (bs "id") l;
  link ← get as_string (bs "checkoutlink") l;
  status ← get as_string (bs "status") l;
  Some ({| in_ID := id; in_CheckoutLink := link; in_Bolt11 := [] |}, status).

(** [json.Marshal] writes a map with its keys in order. *)
Definition invoice_body (req : InvoiceRequest) : jvalue :=
  jobj [(bs "amount", jstr (btcAmount (ir_PriceMsat req)));
        (bs "checkout", jobj [(bs "redirectAutomatically", jbool true); (bs "redirectURL", jstr (ir_RedirectURL req))]);
        (bs "currency", jstr (bs "BTC"));
        (bs "metadata", jobj [(bs "buyerFips", jstr (ir_OrderID req)); (bs "itemDesc", jstr (ir_Description req));
                              (bs "orderId", jstr (ir_OrderID req)); (bs "purchase_id", jstr (ir_OrderID req))])].

Definition btcpay_request (c : Client) (req : InvoiceRequest) : rail_request :=
  {| rr_method := bs "POST"; rr_url := cl_baseURL c ++ bs "/api/v1/stores/" ++ cl_storeID c ++ bs "/invoices";
     rr_auth := auth_token (cl_apiKey c); rr_body := json_body (invoice_body req) |}.

Definition btcpay_CreateInvoice (c : Client) (req : InvoiceRequest) : option Invoice :=
  inv ← success (http (btcpay_request c req)) invoice_of;
  if bool_decide (in_ID inv.1 = []) then None else Some inv.1.

Definition InvoiceStatus (c : Client) (invoiceID : gostr) : option gostr :=
  inv ← success (http {| rr_method := bs "GET";
                         rr_url := cl_baseURL c ++ bs "/api/v1/stores/" ++ cl_storeID c ++ bs "/invoices/" ++ invoiceID;
                         rr_auth := auth_token (cl_apiKey c); rr_body := no_body |}) invoice_of;
  Some inv.2.

(** ** phoenixd *)

Record Phoenixd := { px_baseURL : gostr; px_password : gostr }.

Definition NewPhoenixd (baseURL password : gostr) : Phoenixd :=
  {| px_baseURL := Cashu.TrimRightSlash baseURL; px_password := password |}.

Definition lightning_of (v : jvalue) : option (Z * gostr * gostr) :=
  l ← as_struct v;
  amount ← get (as_int 64) (bs "amountsat") l;
  hash ← get as_string (bs "paymenthash") l;
  serialized ← get as_string (bs "serialized") l;
  Some (amount, hash, serialized).

Definition phoenixd_request (p : Phoenixd) (req : InvoiceRequest) : rail_request :=
  {| rr_method := bs "POST"; rr_url := px_baseURL p ++ bs "/createinvoice"; rr_auth := auth_basic [] (px_password p);
     rr_body := form_body (form_encode
       [(bs "amountSat", FormatInt (Z.quot (ir_PriceMsat req) 1000)); (bs "description", ir_Description req);
        (bs "externalId", ir_OrderID req)]) |}.

Definition phoenixd_CreateInvoice (p : Phoenixd) (req : InvoiceRequest) : option Invoice :=
  out ← success (http (phoenixd_request p req)) lightning_of;
  let '(_, hash, serialized) := out in
  if bool_decide (hash = []) || bool_decide (serialized = []) then None
  else Some {| in_ID := hash; in_CheckoutLink := []; in_Bolt11 := serialized |}.

Definition incoming_of (v : jvalue) : option bool :=
  l ← as_struct v;
  paid ← get as_bool (bs "ispaid") l;
  received ← get (as_int 64) (bs "receivedsat") l;
  completed ← get (as_int 64) (bs "completedat") l;
  Some (paid || (0 <? completed) || (0 <? received)).

(** [None] is an error; a payment not seen yet is not paid. *)
Definition LookupIncoming (p : Phoenixd) (paymentHash : gostr) : option bool :=
  let a := http {| rr_method := bs "GET"; rr_url := px_baseURL p ++ bs "/payments/incoming/" ++ PathEscape paymentHash;
                   rr_auth := auth_basic [] (px_password p); rr_body := no_body |} in
  match a with
  | Some (404, _) => Some false
  | _ => success a incoming_of
  end.

End Rails.

(** ** Both rails charge the price *)

(** The number of satoshis a BTC amount of eight decimals denotes. *)
Definition sats_of (s : gostr) : option Z :=
  match Split 46 s with
  | [w; f] =>
      if bool_decide (length f = 8%nat) then
        whole ← parse_digits 10 w; frac ← parse_digits 10 f; Some (whole * 10 ^ 8 + frac)
      else None
  | _ => None
  end.

(** What a provider reads of a request for an invoice: the satoshis to collect and
    the purchase they pay for. *)
Definition charged (r : rail_request) : option (Z * gostr) :=
  match rr_body r with
  | json_body v =>
      l ← as_struct v; amount ← get as_string (bs "amount") l; sats ← sats_of amount;
      m ← as_struct (or_null (field (bs "metadata") l)); order ← get as_string (bs "orderid") m; Some (sats, order)
  | form_body q => sats ← ParseInt (QueryGet q (bs "amountSat")); Some (sats, QueryGet q (bs "externalId"))
  | no_body => None
  end.

Lemma parse_pad0 n s : s <> [] -> parse_digits 10 (pad0 n s) = parse_digits 10 s.
Proof.
  intros Hs. unfold pad0. induction (n - length s)%nat as [|k IH]; [done|]. cbn [replicate app].
  rewrite <- IH. destruct (replicate k 48 ++ s) as [|c r] eqn:E; [by apply app_nil in E as [_ ->]|]. done.
Qed.

Lemma length_format_08d n : 0 <= n < 10 ^ 8 -> length (format_08d n) = 8%nat.
Proof.
  intros Hn. unfold format_08d, pad0. destruct (n <? 0) eqn:E; bool_hyps; [lia|]. rewrite length_app, length_replicate.
  assert (length (FormatUint 10 n) <= 8)%nat by (apply (format_digits_length _ 10 n 7); lia). lia.
Qed.

Lemma parse_format_08d n : 0 <= n -> parse_digits 10 (format_08d n) = Some n.
Proof.
  intros Hn. unfold format_08d. destruct (n <? 0) eqn:E; bool_hyps; [lia|]. rewrite parse_pad0; [by apply parse_digits_FormatUint; lia|].
  destruct (format_digits_cons (Z.to_nat (Z.log2 n)) 10 n) as (c & r & Er). unfold FormatUint. by rewrite Er.
Qed.

Lemma format_08d_no_dot n : 0 <= n -> 46 ∉ format_08d n.
Proof.
  intros Hn. unfold format_08d, pad0. destruct (n <? 0) eqn:E; bool_hyps; [lia|]. intros [Hin|Hin]%elem_of_app.
  - by apply elem_of_replicate in Hin as [? _].
  - pose proof (FormatUint_chars 10 n ltac:(lia) Hn) as HF. rewrite Forall_forall in HF. apply HF in Hin. lia.
Qed.

Lemma sats_btcAmount msat : 0 <= msat -> sats_of (btcAmount msat) = Some (msat / 1000).
Proof.
  intros Hm. unfold btcAmount, msatPerBTC. rewrite Z.quot_div_nonneg, Z.rem_mod_nonneg by lia.
  pose proof (Z.mod_pos_bound msat 100000000000 ltac:(lia)) as Hr. rewrite Z.quot_div_nonneg by lia.
  set (w := msat / 100000000000). set (f := msat mod 100000000000 / 1000).
  assert (Hw : 0 <= w) by (apply Z.div_pos; lia).
  assert (Hf : 0 <= f < 10 ^ 8) by (split; [apply Z.div_pos; lia|apply Z.div_lt_upper_bound; lia]).
  assert (Ew : FormatInt w = FormatUint 10 w) by (unfold FormatInt; destruct (w <? 0) eqn:E; bool_hyps; [lia|done]).
  unfold sats_of. cbn [app]. rewrite Split_app, Split_notin.
  - rewrite bool_decide_eq_true_2 by (by apply length_format_08d). rewrite Ew, parse_digits_FormatUint by lia. cbn [mbind option_bind].
    rewrite parse_format_08d by lia. cbn [mbind option_bind]. f_equal. subst w f.
    pose proof (Z.div_mod msat 100000000000 ltac:(lia)). rewrite <- Z.div_add_l by lia. f_equal. lia.
  - apply format_08d_no_dot. lia.
  - intros Hin. apply FormatInt_chars in Hin. lia.
Qed.

(** Whichever rail is configured, the provider is asked to collect the price, rounded
    down to whole satoshis, for this purchase. *)
Theorem rails_charge_price c p req :
  0 <= ir_PriceMsat req <= int64_max -> Forall in_u8 (ir_Description req) -> Forall in_u8 (ir_OrderID req) ->
  charged (btcpay_request c req) = Some (ir_PriceMsat req / 1000, ir_OrderID req) /\
  charged (phoenixd_request p req) = Some (ir_PriceMsat req / 1000, ir_OrderID req).
Proof.
  intros Hp Hd Ho. unfold int64_max in Hp. split.
  - unfold charged, btcpay_request, invoice_body. cbn [rr_body as_struct mbind option_bind].
    change (get as_string (bs "amount") _) with (Some (btcAmount (ir_PriceMsat req))). cbn [mbind option_bind].
    rewrite sats_btcAmount by lia. reflexivity.
  - unfold charged, phoenixd_request. cbn [rr_body]. rewrite Z.quot_div_nonneg by lia. set (n := ir_PriceMsat req / 1000).
    assert (Hn : in_i64 n).
    { unfold in_i64, int64_min, int64_max. subst n. split; [pose proof (Z.div_pos (ir_PriceMsat req) 1000); lia|].
      etrans; [apply Z.div_le_upper_bound with (q := ir_PriceMsat req); lia|lia]. }
    assert (Hb : Forall in_u8 (FormatInt n)).
    { apply Forall_forall. intros x Hx%FormatInt_chars. unfold in_u8. lia. }
    set (kv := [_; _; _]).
    assert (Hkv : forall k, QueryGet (form_encode kv) k = default [] (snd <$> head (filter (fun p => p.1 = k) kv))).
    { intros k. apply form_get. repeat (apply Forall_cons_2; [split; [done|split; [by apply bytes_check|done]]|]). constructor. }
    rewrite (eq_trans (Hkv (bs "amountSat")) (eq_refl : _ = FormatInt n)).
    rewrite (eq_trans (Hkv (bs "externalId")) (eq_refl : _ = ir_OrderID req)). by rewrite ParseInt_FormatInt.
Qed.

End Rails.
