(* ===== verification/BackendConfig.v ===== *)
(** * backend: start-up

    Models how main of backend/main.go and newPaymentsProvider of
    backend/payments_config.go turn the environment into the settings of the process,
    and the refusals to start.  A variable that is not set reads as empty.  The
    WireGuard prefixes are given as parsed; opening the database is [Backend.boot]'s
    argument. *)

From S2P Require Import Prelude GoStrings GoJson GoNet Netip Tokens BackendDB BackendWhitelist BackendPayments BackendCashu BackendWg BackendWgFacts BackendApi Portal.
From S2P Require Import Backend BackendRails.
Import DB Whitelist Payments Wg WgFacts Api Portal Backend Rails.

Module Config.

(** How a provider is reached: directly, or through a SOCKS5 proxy. *)
Definition transport := rail_request -> option (Z * option Json.jvalue).

Inductive provider := rail_btcpay (t : transport) (c : Client) | rail_phoenixd (t : transport) (p : Phoenixd).

Section Start.
Context (Getenv : gostr -> gostr).
(** golang.org/x/net/proxy: [None] is an address it refuses. *)
Context (torHTTPClient : gostr -> option transport).

Definition getenv (k def : gostr) : gostr := if bool_decide (Getenv k = []) then def else Getenv k.

Definition getenvInt (k : gostr) (def : Z) : Z := if bool_decide (Getenv k = []) then def else default def (ParseInt (Getenv k)).

(** [rnd] is what crypto/rand returns. *)
Definition secretEnv (name : gostr) (rnd : list Z) : list Z := if bool_decide (Getenv name = []) then rnd else Getenv name.

(** [None] is log.Fatal; [Some None] runs without payments. *)
Definition newPaymentsProvider : option (option provider) :=
  let rail := Getenv (bs "PAYMENT_RAIL") in
  let rail := if bool_decide (rail = []) && negb (bool_decide (Getenv (bs "BTCPAY_URL") = [])) then bs "btcpay" else rail in
  if bool_decide (rail = bs "btcpay") then
    let base := Getenv (bs "BTCPAY_URL") in
    let apiKey := Getenv (bs "BTCPAY_API_KEY") in
    let storeID := Getenv (bs "BTCPAY_STORE_ID") in
    if bool_decide (base = []) || bool_decide (apiKey = []) || bool_decide (storeID = []) then Some None else
    t ← torHTTPClient (Getenv (bs "BTCPAY_SOCKS5")); Some (Some (rail_btcpay t (NewClient base apiKey storeID)))
  else if bool_decide (rail = bs "phoenixd") then
    let base := Getenv (bs "PHOENIXD_URL") in
    let pw := Getenv (bs "PHOENIXD_PASSWORD") in
    if bool_decide (base = []) || bool_decide (pw = []) then Some None else
    t ← torHTTPClient (Getenv (bs "PHOENIXD_SOCKS5")); Some (Some (rail_phoenixd t (NewPhoenixd base pw)))
  else if bool_decide (rail = []) || bool_decide (rail = bs "none") then Some None
  else None.

(** What main takes from the rail: how the portal makes invoices, the secret of each
    webhook that is mounted (with BTCPay's invoice check), and the Cashu option. *)
Record rail_setup := {
  rs_pay : option (InvoiceRequest -> option Invoice);
  rs_btcpay : option (list Z * option (gostr -> option gostr));
  rs_phoenixd : option (list Z);
  rs_cashu : option Cashu.CashuRedeemer
}.

Definition no_rail : rail_setup := {| rs_pay := None; rs_btcpay := None; rs_phoenixd := None; rs_cashu := None |}.

Definition cashu_setup : option (option Cashu.CashuRedeemer) :=
  if bool_decide (Getenv (bs "CASHU_ACCEPT") = bs "1") then
    let s := Getenv (bs "CASHU_ACCEPTED_MINTS") in
    let mints := if bool_decide (s = []) then [] else Split 44 s in
    let redeemer := Cashu.NewCashuRedeemer mints in
    let socks := Getenv (bs "CASHU_SOCKS5") in
    if bool_decide (socks = []) then Some (Some redeemer) else _ ← torHTTPClient socks; Some (Some redeemer)
  else Some None.

Definition setup_rail : option rail_setup :=
  p ← newPaymentsProvider;
  match p with
  | None => Some no_rail
  | Some (rail_btcpay t c) =>
      let whSecret := Getenv (bs "BTCPAY_WEBHOOK_SECRET") in
      if bool_decide (whSecret = []) then None else
      Some {| rs_pay := Some (btcpay_CreateInvoice t c); rs_btcpay := Some (whSecret, Some (InvoiceStatus t c));
              rs_phoenixd := None; rs_cashu := None |}
  | Some (rail_phoenixd t p) =>
      let whSecret := Getenv (bs "PHOENIXD_WEBHOOK_SECRET") in
      if bool_decide (whSecret = []) then None else
      cashu ← cashu_setup;
      Some {| rs_pay := Some (phoenixd_CreateInvoice t p); rs_btcpay := None; rs_phoenixd := Some whSecret; rs_cashu := cashu |}
  end.

(** [main] up to the listeners; [rnd1] and [rnd2] are the ephemeral secrets. *)
Definition load (pool4 pool6 : option Prefix) (rnd1 rnd2 : list Z) : option settings :=
  if bool_decide (Getenv (bs "DATABASE_URL") = []) then None else
  let listen := getenv (bs "LISTEN") (bs ":8080") in
  let listenAdmin := getenv (bs "LISTEN_ADMIN") (bs "127.0.0.1:8081") in
  let adminToken := Getenv (bs "ADMIN_TOKEN") in
  if bool_decide (adminToken = []) then None else
  let captive := Getenv (bs "CAPTIVE_TOKEN_SECRET") in
  if bool_decide (captive = []) then None else
  wg ← loadWgSettings pool4 pool6 (getenvInt (bs "WG_PORT") 51820) (getenvInt (bs "WG_MTU") 1280);
  rail ← setup_rail;
  Some {|
    bc_portal := {|
      cf_sessionSecret := secretEnv (bs "SESSION_SECRET") rnd1; cf_challengeSecret := secretEnv (bs "CHALLENGE_SECRET") rnd2;
      cf_captiveSecret := captive;
      cf_trustFipsSource := negb (bool_decide (Getenv (bs "PORTAL_TRUST_FIPS_SOURCE") = bs "0"));
      cf_secureCookies := bool_decide (Getenv (bs "PORTAL_SECURE_COOKIES") = bs "1");
      cf_autoSettle := bool_decide (Getenv (bs "PORTAL_DEV_AUTOSETTLE") = bs "1");
      cf_pay := rs_pay rail; cf_cashu := rs_cashu rail;
      cf_publicURL := Cashu.TrimRightSlash (getenv (bs "PORTAL_PUBLIC_URL") (bs "http://localhost:8080"));
      cf_pacHost := Getenv (bs "PORTAL_PAC_HOST"); cf_wg := wg; cf_maxOpenPurchases := 3;
      cf_MaxGuests := getenvInt (bs "MAX_GUESTS_PER_ACCOUNT") DefaultMaxGuests;
      cf_MaxWgPeers := maxWgPeers (getenvInt (bs "WG_MAX_PEERS_PER_ADDR") DefaultMaxWgPeersPerAddr)
    |};
    bc_adminToken := adminToken;
    bc_usageIntervalS := getenvInt (bs "USAGE_INTERVAL_S") 30; bc_graceMinutes := getenvInt (bs "GRACE_MINUTES") 240;
    bc_allowMassRevoke := bool_decide (Getenv (bs "AUTHZ_ALLOW_MASS_REVOKE") = bs "1");
    bc_btcpay := rs_btcpay rail; bc_phoenixd := rs_phoenixd rail;
    bc_usageKeep := days_duration (getenvInt (bs "RETENTION_DAYS") 90);
    bc_revKeep := days_duration (getenvInt (bs "REVISION_RETENTION_DAYS") 30);
    bc_invoiceTTL := i64 (getenvInt (bs "PHOENIXD_INVOICE_TTL_S") 3600 * time_Second);
    bc_single := bool_decide (listenAdmin = []) || bool_decide (listenAdmin = listen)
  |}.

(** ** A backend that starts is fit to run *)

Lemma setup_rail_guarded rail : setup_rail = Some rail ->
  (forall secret checker, rs_btcpay rail = Some (secret, checker) -> secret <> [] /\ is_Some checker) /\
  (forall secret, rs_phoenixd rail = Some secret -> secret <> [] /\ rs_btcpay rail = None) /\
  (is_Some (rs_pay rail) <-> is_Some (rs_btcpay rail) \/ is_Some (rs_phoenixd rail)) /\
  (is_Some (rs_cashu rail) -> is_Some (rs_phoenixd rail)).
Proof.
  unfold setup_rail. destruct newPaymentsProvider as [[[t c|t p]|]|]; cbn [mbind option_bind]; [| | |done].
  - case_bool_decide; [done|]. intros [= <-]. cbn. split; [intros ? ? [= <- <-]; eauto|]. split; [done|]. split; [|by intros []].
    split; [intros _; left|intros _]; by eexists.
  - case_bool_decide; [done|]. destruct cashu_setup as [cashu|]; cbn [mbind option_bind]; [|done]. intros [= <-]. cbn.
    split; [done|]. split; [by intros ? [= <-]|]. split; [|by eexists]. split; [intros _; right|intros _]; by eexists.
  - intros [= <-]. cbn. split; [done|]. split; [done|]. split; [|by intros []]. split; [by intros []|by intros [[]|[]]].
Qed.

Lemma loadWgSettings_pools pool4 pool6 port mtu s :
  (forall p, pool4 = Some p -> prefix_ok 32 32 p) -> (forall p, pool6 = Some p -> prefix_ok 128 128 p) ->
  loadWgSettings pool4 pool6 port mtu = Some s -> pools_ok (ws_pools s).
Proof.
  intros H4 H6. unfold loadWgSettings. destruct (_ || _) eqn:E; [done|]. intros [= <-]. cbn in E |- *.
  apply orb_false_iff in E as [E4%Z.ltb_ge E6%Z.ltb_ge].
  assert (Hm : forall w p, prefix_ok w w p -> 0 <= Masked w p < 2 ^ w).
  { intros w p Hp. destruct (masked_bounds w w p Hp) as (A & B & C); [done|]. lia. }
  unfold pools_ok. cbn [Pool4 Pool6]. split.
  - destruct pool4 as [p|]; cbn in E4 |- *; [|by vm_compute]. pose proof (H4 p eq_refl) as Hp. split; [by apply Hm|]. destruct Hp. cbn in *. lia.
  - destruct pool6 as [p|]; cbn in E6 |- *; [|by vm_compute]. pose proof (H6 p eq_refl) as Hp. split; [by apply Hm|]. destruct Hp. cbn in *. lia.
Qed.

(** [C37] A backend that starts has an admin token, a captive secret and session secrets
    that are not empty; it mounts at most one webhook, never without its secret, and
    BTCPay's with the invoice check; it sells exactly when it mounts one; it takes
    Cashu tokens only where phoenixd collects the payment; and its WireGuard plan and
    peer limit are the ones the other theorems ask for. *)
Theorem started_guarded pool4 pool6 rnd1 rnd2 cfg :
  (forall p, pool4 = Some p -> prefix_ok 32 32 p) -> (forall p, pool6 = Some p -> prefix_ok 128 128 p) ->
  length rnd1 = 32%nat -> length rnd2 = 32%nat ->
  load pool4 pool6 rnd1 rnd2 = Some cfg ->
  (bc_adminToken cfg <> [] /\ cf_captiveSecret (bc_portal cfg) <> [] /\
   cf_sessionSecret (bc_portal cfg) <> [] /\ cf_challengeSecret (bc_portal cfg) <> []) /\
  (forall secret checker, bc_btcpay cfg = Some (secret, checker) -> secret <> [] /\ is_Some checker) /\
  (forall secret, bc_phoenixd cfg = Some secret -> secret <> [] /\ bc_btcpay cfg = None) /\
  (is_Some (cf_pay (bc_portal cfg)) <-> is_Some (bc_btcpay cfg) \/ is_Some (bc_phoenixd cfg)) /\
  (is_Some (cf_cashu (bc_portal cfg)) -> is_Some (bc_phoenixd cfg)) /\
  pools_ok (pools_of cfg) /\ 0 < cf_MaxWgPeers (bc_portal cfg).
Proof.
  intros H4 H6 L1 L2. unfold load. case_bool_decide; [done|]. case_bool_decide as Ea; [done|]. case_bool_decide as Ec; [done|].
  destruct (loadWgSettings _ _ _ _) as [wg|] eqn:Ew; cbn [mbind option_bind]; [|done].
  destruct setup_rail as [rail|] eqn:Er; cbn [mbind option_bind]; [|done]. intros [= <-]. apply setup_rail_guarded in Er as (R1 & R2 & R3 & R4).
  assert (Hs : forall name rnd, length rnd = 32%nat -> secretEnv name rnd <> []).
  { intros name rnd L. unfold secretEnv. case_bool_decide; [by intros ->|done]. }
  cbn. split; [by auto|]. do 4 (split; [done|]). split; [by eapply loadWgSettings_pools|].
  unfold maxWgPeers, DefaultMaxWgPeersPerAddr. destruct (0 <? _) eqn:E; bool_hyps; lia.
Qed.

End Start.
End Config.
