(* ===== verification/BackendExamples.v ===== *)
(** * A small deployment

    A database with two accounts, one paid for and hosting the other identity,
    used to instantiate the theorems about the backend. *)

From S2P Require Import Prelude GoStrings Netip Fipsaddr FipsaddrVectors Authzhash BackendDB BackendAuthz.
From S2P Require Import BackendAuthzFacts BackendUsage BackendUsageFacts BackendWhitelist BackendWhitelistFacts BackendConsent.
Import DB Authz AuthzFacts Usage UsageFacts Derive Whitelist WhitelistFacts Consent.

Module Deployment.

(** An instant of the year 2026. *)
Definition t0 : Z := 63900000000 * time_Second.

(** npub1 buys thirty days; npub2 gets an account; npub1 invites npub2, which
    accepts. *)
Definition host_step : wl_op := op_credit_time npub1 30.
Definition guest_step : wl_op := op_create npub2.
Definition invite_step : wl_op := op_invite 0 npub1 npub2 (bs "phone").
Definition accept_step : wl_op := op_accept npub2 npub1.

Definition db_hosted : db := Eval vm_compute in run_op host_step (empty_db t0).
Definition db_joined : db := Eval vm_compute in run_op guest_step db_hosted.
Definition db_invited : db := Eval vm_compute in run_op invite_step db_joined.
Definition db_attached : db := Eval vm_compute in run_op accept_step db_invited.

Lemma derive1 : derive (normNpub npub1) = mret addr1.
Proof.
  unfold derive. assert (normNpub npub1 = npub1) as -> by (vm_compute; reflexivity). by rewrite vector1_addr.
Qed.
Lemma derive2 : derive (normNpub npub2) = mret addr2.
Proof.
  unfold derive. assert (normNpub npub2 = npub2) as -> by (vm_compute; reflexivity). by rewrite vector2_addr.
Qed.

Lemma hosted_run : run_op host_step (empty_db t0) = db_hosted.
Proof. unfold run_op, host_step, CreditTime, CreateAccount. rewrite derive1. vm_compute. reflexivity. Qed.
Lemma joined_run : run_op guest_step db_hosted = db_joined.
Proof. unfold run_op, guest_step, CreateAccount. rewrite derive2. vm_compute. reflexivity. Qed.
Lemma invited_run : run_op invite_step db_joined = db_invited.
Proof. unfold run_op, invite_step, InviteGuest. rewrite derive2. vm_compute. reflexivity. Qed.
Lemma attached_run : run_op accept_step db_invited = db_attached.
Proof. vm_compute. reflexivity. Qed.

Lemma invited_reachable : reachable db_invited.
Proof.
  rewrite <- invited_run, <- joined_run, <- hosted_run.
  exact (reach_op invite_step _ (reach_op guest_step _ (reach_op host_step _ (reach_init t0)))).
Qed.
Lemma attached_reachable : reachable db_attached.
Proof. rewrite <- attached_run. exact (reach_op accept_step _ invited_reachable). Qed.

(** ** Consent *)

Lemma whitelist_invariant_witness :
  NoDup (w_addr <$> filter (fun w => active_row w = true) (db_whitelist db_attached)) /\
  (length (db_whitelist db_attached) = 3)%nat.
Proof. split; [exact (proj1 (whitelist_invariant db_attached attached_reachable))|reflexivity]. Defined.

Lemma attribution_needs_consent_witness :
  own_step accept_step addr2 \/
  exists h g, accept_step = op_enable h g false /\ account_of db_invited h = Some 4 /\ FromNpub (normNpub g) = Ok addr2.
Proof.
  apply (attribution_needs_consent accept_step db_invited addr2 4).
  - exact invited_reachable.
  - vm_compute. reflexivity.
  - rewrite attached_run. vm_compute. discriminate.
Defined.

Definition invite_row : wl := Eval vm_compute in default (Build_wl 0 0 [] AddrZero owner false false None 0) (db_whitelist db_invited !! 2%nat).

Lemma AcceptInvite_spec_witness :
  exists d', AcceptInvite npub2 npub1 db_invited = (Ok tt, d') /\
    attribution d' (w_addr invite_row) = Some (w_account invite_row) /\
    (forall b, b <> w_addr invite_row -> attribution d' b = attribution db_invited b).
Proof.
  pose proof (AcceptInvite_spec npub2 npub1 db_invited invited_reachable) as H.
  assert (E : find_row (open_invite db_invited (normNpub npub2) (normNpub npub1)) (db_whitelist db_invited) = Some invite_row)
    by (vm_compute; reflexivity).
  assert (Eh : has_entitlement db_invited (w_account invite_row) = true) by (vm_compute; reflexivity).
  rewrite E, Eh in H. exact H.
Defined.

Definition guest_row : wl := Eval vm_compute in default (Build_wl 0 0 [] AddrZero owner false false None 0) (db_whitelist db_attached !! 2%nat).
Definition owner_row2 : wl := Eval vm_compute in default (Build_wl 0 0 [] AddrZero owner false false None 0) (db_whitelist db_attached !! 1%nat).

Lemma disable_returns_guest_witness :
  exists d', SetWhitelistEnabled npub1 npub2 false db_attached = (Ok tt, d') /\
    attribution d' (w_addr guest_row) = Some (w_account owner_row2).
Proof.
  apply (disable_returns_guest npub1 npub2 db_attached guest_row owner_row2).
  - exact attached_reachable.
  - apply (list_elem_of_lookup_2 _ 2). reflexivity.
  - reflexivity.
  - vm_compute. reflexivity.
  - vm_compute. reflexivity.
  - apply (list_elem_of_lookup_2 _ 1). reflexivity.
  - reflexivity.
  - reflexivity.
  - vm_compute. discriminate.
Defined.

(** ** The authorized set *)

(** The same accounts before anything was materialized. *)
Definition db_fresh : db := set_current ∅ (set_revisions [] (set_revseq 0 db_attached)).

Lemma db_fresh_log : log_ok db_fresh.
Proof. split; [constructor|constructor|cbn; lia|]. intros a op acct H. unfold db_fresh in H. cbn in H. done. Qed.

Lemma RecomputeAuthz_spec_witness :
  exists removed rev d', RecomputeAuthz db_fresh = (Ok (removed, rev), d') /\
    (forall a, is_Some (db_current d' !! a) <-> entitled db_fresh a) /\ RecomputeAuthz d' = (Ok ([], rev), d').
Proof.
  destruct (RecomputeAuthz_spec db_fresh db_fresh_log) as (rm & rev & d' & H1 & H2 & _ & _ & _ & _ & _ & H3).
  exists rm, rev, d'. exact (conj H1 (conj H2 H3)).
Defined.

Definition db_published : db := (RecomputeAuthz db_fresh).2.

Lemma published_history : rtc log_step db_fresh db_published.
Proof. apply rtc_once. exact (step_recompute _ (RecomputeAuthz db_fresh).1 _ (surjective_pairing _)). Qed.

(** An agent that has nothing yet asks for the changes since revision 0. *)
Lemma DeltaSince_exact_witness :
  match (DeltaSince 0 db_published).1 with
  | Ok (add, del, rev) =>
      (∅ ∪ delta_add add) ∖ delta_del del = dom (db_current db_published) /\ delta_add add ## delta_del del /\
      NoDup del /\ rev = max_rev db_published /\ coherent (dom (db_current db_published)) rev db_published
  | Err e => e = ErrCompacted
  end.
Proof.
  apply (DeltaSince_exact db_fresh db_published ∅ 0 db_fresh_log); [|cbn; lia|exact published_history].
  right. intros a _. split; intros H; [by apply elem_of_empty in H|by destruct H].
Defined.

Lemma AuthzStatus_fresh_witness :
  (AuthzStatus (AuthzStatus no_status db_fresh).2 db_published).1 =
  (Z.of_nat (size (db_current db_published)), Authzhash.OfSet (dom (db_current db_published)), max_rev db_published).
Proof. exact (AuthzStatus_fresh db_fresh db_published db_fresh_log published_history). Defined.

(** ** Usage *)

Definition volume_row (id used volume expires : Z) : entitlement :=
  {| en_id := id; en_account := 1; en_purchase := None; en_kind := bs "volume"; en_volume := Some volume;
     en_used := used; en_starts := 0; en_expires := t0 + expires |}.

(** Account 1 has two volume entitlements, 100 and 1000 bytes; addr1 is
    authorized; node 7 meters the service "exit" at the base rate. *)
Definition two_rows : list entitlement := [volume_row 20 0 1000 2; volume_row 21 0 100 1].
Definition db_metered : db :=
  set_current {[addr1 := 1]} (set_entitlements two_rows (set_services
    [{| sv_id := 5; sv_key := bs "exit"; sv_name := bs "Exit"; sv_port := 1080; sv_rate := 1000000; sv_enabled := true |}]
    (set_nodes [{| nd_id := 7; nd_name := bs "gate"; nd_pubkey := []; nd_token_hash := []; nd_last_seen := None;
                   nd_version := None; nd_wg_pubkey := None; nd_wg_endpoint := None; nd_wg_seen := None |}] db_hosted))).

Lemma two_rows_ok : ents_ok two_rows.
Proof.
  split; [apply (bool_decide_unpack _); vm_compute; exact I|].
  repeat constructor; cbn; intros; simplify_eq; lia.
Qed.

Definition example_report : ReportInput :=
  {| ri_ReportID := bs "r1"; ri_CounterEpoch := bs "e1"; ri_WindowEnd := t0;
     ri_Samples := [{| sp_Service := bs "exit"; sp_Addr := addr1; sp_Bytes := 150 |}] |}.

Lemma IngestUsage_exactly_once_witness :
  exists removed d', IngestUsage 7 example_report db_metered = (Ok removed, d') /\
    used_by 1 (db_entitlements d') = 150 /\ IngestUsage 7 example_report d' = (Ok [], d').
Proof.
  destruct (IngestUsage_exactly_once 7 example_report db_metered ltac:(vm_compute; reflexivity) ltac:(vm_compute; reflexivity)
    two_rows_ok) as (rm & d' & H1 & H2 & _ & _ & H3).
  exists rm, d'. split; [exact H1|]. split; [|exact H3]. rewrite (H2 1). vm_compute. reflexivity.
Defined.

Lemma consume_earliest_first_witness :
  exists l', consume_loop 3 t0 1 150 two_rows = Some l' /\
    exists e1', l' !! 1%nat = Some e1' /\ Some (en_used e1') = en_volume e1'.
Proof.
  eexists. split; [vm_compute; reflexivity|]. eexists. split; [reflexivity|].
  eapply (consume_earliest_first t0 1 150 two_rows _ 1 0 (volume_row 21 0 100 1) (volume_row 20 0 1000 2));
    [exact two_rows_ok|vm_compute; reflexivity|reflexivity|reflexivity|reflexivity|reflexivity|vm_compute; reflexivity|
     vm_compute; reflexivity|vm_compute; discriminate].
Defined.

(** A day later the report is folded into the daily totals. *)
Definition db_reported : db := (IngestUsage 7 example_report db_metered).2.

Lemma AggregateUsage_conserves_witness :
  exists n d', AggregateUsage (t0 + 1) db_reported = (Ok n, d') /\
    default 0 (db_daily d' !! (1, t0 / day_ns, 5)) + raw_bytes d' (1, t0 / day_ns, 5) (db_samples d') =
    default 0 (db_daily db_reported !! (1, t0 / day_ns, 5)) +
      raw_bytes db_reported (1, t0 / day_ns, 5) (db_samples db_reported) /\
    raw_bytes db_reported (1, t0 / day_ns, 5) (db_samples db_reported) = 150.
Proof.
  eexists _, _. split; [reflexivity|]. split; [|vm_compute; reflexivity].
  exact (proj1 (AggregateUsage_conserves (t0 + 1) db_reported _ _ (1, t0 / day_ns, 5) eq_refl)).
Defined.

(** ** The guest cap

    The cap counts enabled guest rows, and only when the row is new: a guest that
    was switched off no longer counts, and re-inviting it is not checked, so an
    account at its cap gets one guest more. *)

Definition enabled_guests (acct : Z) (d : db) : Z :=
  count_rows (fun w => (w_account w =? acct) && is_role guest w && w_enabled w) (db_whitelist d).

Definition guest_entry (id : Z) (npub : gostr) (a : Addr) (enabled : bool) : wl :=
  {| w_id := id; w_account := 1; w_npub := npub; w_addr := a; w_role := guest; w_enabled := enabled;
     w_pending := enabled; w_label := None; w_created := t0 |}.

(** A cap of one: the first guest was switched off, the second took its place. *)
Definition db_capped : db :=
  set_whitelist [guest_entry 10 npub1 addr1 false; guest_entry 11 npub2 addr2 true] db_hosted.

Lemma guest_cap_bypass :
  enabled_guests 1 db_capped = maxGuests 1 /\
  exists d', invite_tx 1 1 npub1 addr1 (bs "again") db_capped = Ok (true, d') /\ maxGuests 1 < enabled_guests 1 d'.
Proof. split; [reflexivity|]. eexists. split; vm_compute; reflexivity. Qed.

End Deployment.

(** * A small shop

    One customer buying one package over Lightning, used to instantiate the
    theorems about purchases. *)

From S2P Require Import Sha256.
From S2P Require Import BackendPayments BackendPaymentsFacts BackendSales.
Import DB Authz AuthzFacts Derive Usage UsageFacts Whitelist WhitelistFacts Consent Payments PaymentsFacts Sales Deployment.

Module Shop.

Definition hash1 : gostr := bs "c0ffee".

(** npub1 gets an account, the operator offers a thirty-day pass, npub1 orders it
    and the Lightning invoice [hash1] is attached to the order. *)
Definition join_step : pay_op := pop_account (op_create npub1).
Definition offer_step : pay_op := pop_package (bs "time") (bs "30 days") 0 30 10000000 None.

Definition db_customer : db := Eval vm_compute in run_pay join_step (empty_db t0).
Definition db_shop : db := Eval vm_compute in run_pay offer_step db_customer.
Definition package1 : Z := Eval vm_compute in default 0 (pk_id <$> head (db_packages db_shop)).
Definition order_step : pay_op := pop_purchase npub1 package1.
Definition db_ordered : db := Eval vm_compute in run_pay order_step db_shop.
Definition order1 : Z := Eval vm_compute in default 0 (pu_id <$> head (db_purchases db_ordered)).
Definition invoice_step : pay_op := pop_attach order1 hash1 (bs "/pay/1") (bs "lnbc1").
Definition db_open : db := Eval vm_compute in run_pay invoice_step db_ordered.
Definition db_paid : db := Eval vm_compute in run_pay (pop_grant hash1) db_open.

Lemma customer_run : run_pay join_step (empty_db t0) = db_customer.
Proof. unfold run_pay, join_step, run_op, CreateAccount. rewrite derive1. vm_compute. reflexivity. Qed.
Lemma shop_run : run_pay offer_step db_customer = db_shop.
Proof. vm_compute. reflexivity. Qed.
Lemma ordered_run : run_pay order_step db_shop = db_ordered.
Proof. vm_compute. reflexivity. Qed.
Lemma open_run : run_pay invoice_step db_ordered = db_open.
Proof. vm_compute. reflexivity. Qed.
Lemma paid_run : run_pay (pop_grant hash1) db_open = db_paid.
Proof. vm_compute. reflexivity. Qed.

Lemma open_reachable : pay_reachable db_open.
Proof.
  exists t0. rewrite <- open_run, <- ordered_run, <- shop_run, <- customer_run.
  eapply rtc_l; [exact (pay_run _ join_step)|]. eapply rtc_l; [exact (pay_run _ offer_step)|].
  eapply rtc_l; [exact (pay_run _ order_step)|]. eapply rtc_l; [exact (pay_run _ invoice_step)|]. apply rtc_refl.
Qed.

Lemma grant_once : rtc pay_step db_open db_paid.
Proof. rewrite <- paid_run. apply rtc_once. exact (pay_run _ (pop_grant hash1)). Qed.

Lemma paid_reachable : pay_reachable db_paid.
Proof. destruct open_reachable as [t H]. exists t. etrans; [exact H|exact grant_once]. Qed.

Definition purchase0 : purchase :=
  {| pu_id := 0; pu_account := 0; pu_package := 0; pu_invoice := None; pu_status := pending; pu_created := 0;
     pu_settled := None; pu_checkout := None; pu_payreq := None |}.
Definition open_purchase : purchase := Eval vm_compute in default purchase0 (head (db_purchases db_open)).
Definition paid_purchase : purchase := Eval vm_compute in default purchase0 (head (db_purchases db_paid)).

Lemma open_in : open_purchase ∈ db_purchases db_open.
Proof. apply (list_elem_of_lookup_2 _ 0). reflexivity. Qed.
Lemma paid_in : paid_purchase ∈ db_purchases db_paid.
Proof. apply (list_elem_of_lookup_2 _ 0). reflexivity. Qed.

Lemma settled_iff_sold_witness :
  exists e, e ∈ db_entitlements db_paid /\ en_purchase e = Some (pu_id paid_purchase).
Proof. apply (proj1 (proj1 (settled_iff_sold db_paid paid_purchase paid_reachable paid_in))). reflexivity. Defined.

(** A late "expired" webhook for the paid invoice. *)
Definition db_late : db := Eval vm_compute in run_pay (pop_expire hash1) db_paid.

Lemma late_once : rtc pay_step db_paid db_late.
Proof.
  assert (E : run_pay (pop_expire hash1) db_paid = db_late) by (vm_compute; reflexivity).
  rewrite <- E. apply rtc_once. exact (pay_run _ (pop_expire hash1)).
Qed.

Lemma paid_settled : settled_in db_paid (pu_id paid_purchase).
Proof. exists paid_purchase. exact (conj paid_in (conj eq_refl eq_refl)). Qed.

Definition sale1 : Z * terms := Eval vm_compute in default (0, (0, [], None, 0)) (head (sales db_paid)).

Lemma settlement_is_final_witness : settled_in db_late order1 /\ sale1 ∈ sales db_late.
Proof.
  apply (settlement_is_final db_paid db_late order1 sale1.2 paid_reachable late_once paid_settled).
  apply (list_elem_of_lookup_2 _ 0). reflexivity.
Defined.

(** Paying. *)
Definition offer1 : package := Eval vm_compute in default (Build_package 0 [] [] None 0 0 false None) (head (db_packages db_open)).
Definition customer1 : account := Eval vm_compute in default (Build_account 0 [] AddrZero false) (head (db_accounts db_open)).
Definition customer_row : wl :=
  Eval vm_compute in default (Build_wl 0 0 [] AddrZero owner false false None 0) (head (db_whitelist db_open)).

Lemma payment_unlocks_buyer_witness :
  exists d', GrantByInvoice hash1 db_open = (Ok tt, d') /\ settled_in d' (pu_id open_purchase) /\
    attribution d' (w_addr customer_row) = Some (pu_account open_purchase) /\ is_Some (db_current d' !! w_addr customer_row) /\
    GrantByInvoice hash1 d' = (Ok tt, d').
Proof.
  apply (payment_unlocks_buyer hash1 db_open open_purchase offer1 customer1 customer_row);
    [exact open_reachable|exact open_in|reflexivity|discriminate|apply (list_elem_of_lookup_2 _ 0); reflexivity|reflexivity|
     |apply (list_elem_of_lookup_2 _ 0); reflexivity|reflexivity|reflexivity|apply (list_elem_of_lookup_2 _ 0); reflexivity|
     reflexivity|reflexivity].
  split; [vm_compute; discriminate|left; reflexivity].
Defined.

(** The signed notification of the payment server. *)
Definition secret1 : list Z := bs "k".
Definition body1 : list Z := bs "{}".
Definition settled_event : WebhookEvent := {| we_Type := EventInvoiceSettled; we_InvoiceID := hash1 |}.

Lemma btcpay_grants_only_settled_witness :
  exists p, p ∈ db_purchases db_open /\ pu_id p = order1 /\ pu_invoice p = Some hash1.
Proof.
  destruct (btcpay_grants_only_settled (fun _ => Some settled_event) (Some (fun _ => Some (bs "Settled"))) secret1 (Some body1)
    (SignWebhook secret1 body1) db_open order1 open_reachable) as (b & ev & _ & _ & _ & He & _ & _ & H).
  - assert (E : (btcpay_webhook (fun _ => Some settled_event) (Some (fun _ => Some (bs "Settled"))) secret1 (Some body1)
      (SignWebhook secret1 body1) db_open).2 = db_paid) by (vm_compute; reflexivity).
    rewrite E. apply (list_elem_of_lookup_2 _ 0). reflexivity.
  - apply (bool_decide_unpack _). vm_compute. exact I.
  - injection He as <-. exact H.
Defined.

(** The same purchase settled by the poller. *)
Lemma sweep_settles_paid_witness :
  settled_in (sweep (fun _ => Some true) 0 db_open).2 (pu_id open_purchase) /\
  advances db_open (sweep (fun _ => Some true) 0 db_open).2.
Proof.
  apply (sweep_settles_paid (fun _ => Some true) 0 db_open open_purchase hash1 open_reachable open_in);
    [reflexivity|eexists; reflexivity|reflexivity|reflexivity].
Defined.

End Shop.

(** * WireGuard on a small deployment

    One peer issued to a customer and one node on offer, used to instantiate the
    theorems about WireGuard. *)

From S2P Require Import GoNet.
From S2P Require Import BackendWg BackendWgFacts.
Import DB Authz AuthzFacts Derive Whitelist WhitelistFacts Consent Wg WgFacts Deployment Authzhash.

Module Tunnel.

(** The C collation. *)
#[export] Instance bytes_le_order : TotalOrder bytes_le.
Proof.
  split; [apply _|]. intros x y. destruct (decide (x = y)) as [->|Hn]; [right; by left|].
  assert (A : forall u v, bytes_le u v -> u <> v -> strict bytes_le u v).
  { intros u v H1 H2. split; [done|]. intros H3. by apply H2, (anti_symm bytes_le). }
  destruct (total bytes_le x y); [left|do 2 right]; by apply A.
Qed.

Definition pools := DefaultWgPools.
Lemma default_pools_ok : pools_ok pools.
Proof. repeat split; vm_compute; done || discriminate. Qed.

(** The key of 32 zero bytes, and another one. *)
Definition key0 : gostr := bs "AAAAAAAAAAAAAAAAAAAAAAAAAAAAAAAAAAAAAAAAAAA=".
Definition key1 : gostr := bs "AQAAAAAAAAAAAAAAAAAAAAAAAAAAAAAAAAAAAAAAAAA=".

(** A node has enrolled and announces itself; npub1 gets a peer. *)
Definition node1 : node :=
  {| nd_id := 7; nd_name := bs "gate"; nd_pubkey := []; nd_token_hash := []; nd_last_seen := None; nd_version := None;
     nd_wg_pubkey := None; nd_wg_endpoint := None; nd_wg_seen := None |}.
Definition db_enrolled : db := set_nodes [node1] db_attached.
Definition db_offered : db := (SetNodeWg 7 key1 (bs "gate.fips:51820") db_enrolled).2.
Definition db_issued : db := (CreateWgPeer pools 5 npub1 npub1 (bs "phone") key0 db_offered).2.

Lemma offered_reachable : wg_reachable pools 5 db_offered.
Proof.
  exists t0. eapply rtc_l; [|apply rtc_once; exact (wg_announce pools 5 db_enrolled 7 key1 (bs "gate.fips:51820"))].
  apply wg_other; [reflexivity|reflexivity|vm_compute; discriminate|]. intros n ->%list_elem_of_singleton. left. reflexivity.
Qed.

Lemma issued_reachable : wg_reachable pools 5 db_issued.
Proof.
  destruct offered_reachable as [t H]. exists t. eapply rtc_r; [exact H|].
  exact (wg_create pools 5 db_offered npub1 npub1 (bs "phone") key0).
Qed.

Definition peer1 : wg_peer :=
  {| wq_id := db_next db_offered; wq_account := 1; wq_npub := npub1; wq_addr := addr1; wq_pubkey := key0; wq_idx := 3;
     wq_label := Some (bs "phone"); wq_created_by := npub1; wq_created := t0 |}.

Lemma issued_eq : CreateWgPeer pools 5 npub1 npub1 (bs "phone") key0 db_offered =
  (Ok (peer_view pools peer1), set_wgseq 1 (set_next (db_next db_offered + 1) (set_wgpeers [peer1] db_offered))).
Proof. unfold CreateWgPeer. rewrite vector1_addr. vm_compute. reflexivity. Qed.

Lemma CreateWgPeer_spec_witness :
  issue_outcome pools 5 npub1 npub1 key1 db_issued (CreateWgPeer pools 5 npub1 npub1 (bs "tablet") key1 db_issued) /\
  (CreateWgPeer pools 5 npub1 npub1 (bs "tablet") key1 db_issued).1 <> Err ErrWgPoolFull.
Proof.
  destruct (CreateWgPeer_spec pools 5 npub1 npub1 (bs "tablet") key1 db_issued default_pools_ok ltac:(lia) issued_reachable) as [H1 H2].
  split; [exact H1|]. apply H2. unfold db_issued. rewrite issued_eq. cbn. lia.
Defined.

Lemma wg_table_invariant_witness : NoDup (wp_IP4 <$> (peer_view pools <$> db_wgpeers db_issued)) /\ db_wgpeers db_issued = [peer1].
Proof.
  split; [exact (proj1 (wg_table_invariant pools 5 db_issued default_pools_ok ltac:(lia) issued_reachable))|].
  unfold db_issued. by rewrite issued_eq.
Defined.

Lemma etag_tracks_table_witness :
  etag [] = etag [peer_view pools peer1] <-> forall x, x ∈ wg_table db_offered <-> x ∈ wg_table db_issued.
Proof.
  apply (etag_tracks_table bytes_le pools 5 db_offered db_issued [] _ [peer_view pools peer1] _ default_pools_ok ltac:(lia)
    offered_reachable issued_reachable).
  - reflexivity.
  - unfold WgPeerTable, query, db_issued. rewrite issued_eq. reflexivity.
  - intros E. exfalso. revert E. apply (bool_decide_unpack _). vm_compute. exact I.
Defined.

Definition settings1 : wgSettings :=
  {| ws_port := 51820; ws_pools := pools; ws_dns4 := Gateway4 pools; ws_dns6 := Gateway6 pools; ws_mtu := 1280 |}.
Definition offer_gate : WgNode := {| wn_ID := 7; wn_Name := bs "gate"; wn_Pubkey := key1; wn_Endpoint := bs "gate.fips:51820" |}.

Lemma client_config_lines_witness : exists lines,
  Split 10 (renderWgConfig key0 (peer_view pools peer1) offer_gate settings1 (bs "http://portal")) = lines /\ length lines = 15%nat.
Proof.
  eexists. split.
  - apply (client_config_lines bytes_le pools 5 db_issued peer1 offer_gate [offer_gate] settings1 51820 1280 None None key0
      (bs "http://portal") default_pools_ok ltac:(lia) issued_reachable).
    + unfold db_issued. rewrite issued_eq. apply list_elem_of_singleton. reflexivity.
    + unfold db_issued. rewrite issued_eq. vm_compute. reflexivity.
    + apply list_elem_of_singleton. reflexivity.
    + reflexivity.
    + reflexivity.
    + right. vm_compute. reflexivity.
  - reflexivity.
Defined.

End Tunnel.
