(* ===== verification/PortalExamples.v ===== *)
(** * Visitors of the portal

    Requests on the deployments of [BackendExamples]:
    the theorems about the portal instantiated, and three runs that show where the
    handlers fall short of what they mean to do. *)

From S2P Require Import Prelude GoStrings Netip Fipsaddr FipsaddrVectors Sha256 Authzhash Nostr RateLimit Tokens BackendDB BackendAuthz.
From S2P Require Import BackendAuthzFacts BackendUsage BackendWhitelist BackendWhitelistFacts BackendConsent BackendPayments.
From S2P Require Import BackendPaymentsFacts BackendSales BackendWg BackendWgFacts BackendSummary BackendSummaryFacts BackendApi.
From S2P Require Import GoJson BackendCashu Portal PortalFacts PortalCashu BackendExamples.
Import DB Authz AuthzFacts Npub Derive Whitelist WhitelistFacts Consent Payments PaymentsFacts Sales Wg WgFacts Summary SummaryFacts.
Import Api Tokens Portal PortalFacts Authzhash Deployment Shop.

Module Visitors.

(** ** A driver *)

Definition scan (n : numeric) : option Z :=
  let v := nm_digits n / 10 ^ nm_scale n in
  if (nm_digits n mod 10 ^ nm_scale n =? 0) && (int64_min <=? v) && (v <=? int64_max) then Some v else None.

#[export] Instance pgx : Driver.
Proof.
  assert (R : forall v, in_i64 v -> (int64_min <=? v) && (v <=? int64_max) = true).
  { unfold in_i64. intros v Hv. by rewrite (proj2 (Z.leb_le _ _) (proj1 Hv)), (proj2 (Z.leb_le _ _) (proj2 Hv)). }
  assert (W : forall z s, 0 <= s -> in_i64 z -> scan {| nm_digits := z * 10 ^ s; nm_scale := s |} = Some z).
  { intros z s Hs Hz. unfold scan. cbn [nm_digits nm_scale]. rewrite Z.mod_mul, Z.div_mul by (apply Z.pow_nonzero; lia).
    by rewrite Z.eqb_refl, <- andb_assoc, R. }
  refine {| scan_int64 := scan; scan_whole := W |}.
  - intros z Hz. rewrite <- (W z 0); [|lia|done]. f_equal. unfold num_int. by rewrite Z.mul_1_r.
  - intros m s Hs Hm. unfold scan. cbn [nm_digits nm_scale]. by rewrite (proj2 (Z.eqb_neq _ _) Hm).
Defined.

(** ** Ecash and mints

    A token is the mint's name, a space and the amount; a proof is its amount. *)

#[export] Instance ecash : Cashu.CashuLib := {|
  Cashu.DLEQProof := unit;
  Cashu.dleq_json := fun _ => Some tt;
  Cashu.DecodeToken := fun s =>
    match Split 32 s with
    | [m; n] => a ← ParseUint n;
        Some (m, [{| Cashu.pf_Amount := a; Cashu.pf_Id := []; Cashu.pf_Secret := []; Cashu.pf_C := []; Cashu.pf_Witness := []; Cashu.pf_DLEQ := None |}])
    | _ => None
    end;
  Cashu.proofs_Amount := fun l => u64 (foldr (fun p n => Cashu.pf_Amount p + n) 0 l);
  Cashu.cbor_Marshal := fun r => Some (FormatInt (Cashu.nr_Amount r));
  Cashu.qrcode_Encode := fun s => Some s
|}.

(** A mint that quotes every invoice at 1000 with a reserve of 10, and pays. *)
#[export] Instance mint : Cashu.Mints := fun _ p =>
  match Cashu.mp_body p with
  | Cashu.quote_body _ _ => Some (200, Some (Json.jobj [(bs "quote", Json.jstr (bs "q1")); (bs "amount", Json.jnum 1000); (bs "fee_reserve", Json.jnum 10)]))
  | Cashu.melt_body _ _ => Some (200, Some (Json.jobj [(bs "state", Json.jstr (bs "PAID"))]))
  end.

(** ** The portal and its visitors *)

Definition settings : wgSettings :=
  {| ws_port := 51820; ws_pools := DefaultWgPools; ws_dns4 := Gateway4 DefaultWgPools; ws_dns6 := Gateway6 DefaultWgPools; ws_mtu := 1280 |}.

(** No payment rail, or one that is down. *)
Definition cfg_with (pay : option (InvoiceRequest -> option Invoice)) : config :=
  {| cf_sessionSecret := bs "s"; cf_challengeSecret := bs "c"; cf_captiveSecret := bs "p"; cf_trustFipsSource := true;
     cf_secureCookies := false; cf_autoSettle := false; cf_pay := pay; cf_cashu := None; cf_publicURL := bs "http://p"; cf_pacHost := [];
     cf_wg := settings; cf_maxOpenPurchases := 3; cf_MaxGuests := 0; cf_MaxWgPeers := 5 |}.
Definition cfg0 : config := cfg_with None.
Definition cfg_down : config := cfg_with (Some (fun _ => None)).

Definition digits (n : Z) : gostr := FormatInt n.
Definition undigits_ (s : gostr) : option Z := ParseInt s.
Definition no_url (s : gostr) : option gostr := Some [].
Definition no_key (s : list Z) : bool := false.
Definition no_sig (s i k : list Z) : bool := false.

(** A request at [t] with the session of [npub] and the given form. *)
Definition visit (npub : gostr) (t : Z) (form : list (gostr * gostr)) : request :=
  {| rq_now := t; rq_cookie := Some (setSession (bs "s") npub t0); rq_RemoteAddr := bs "192.0.2.1:4000"; rq_Host := bs "p"; rq_https := false;
     rq_FormValue := fun k => default [] (snd <$> find_row (fun kv => bool_decide (kv.1 = k)) form);
     rq_Query := fun _ => []; rq_json := false; rq_event := None; rq_nonce := []; rq_keypair := None; rq_body := None; rq_body_json := None |}.

Definition serve0 (cfg : config) : route -> handler := serve digits undigits_ bytes_le no_url no_url no_key no_key no_sig cfg.

(** ** Accepting an invitation *)

Lemma invited_sales : pay_reachable db_invited.
Proof.
  exists t0. rewrite <- invited_run, <- joined_run, <- hosted_run.
  eapply rtc_l; [exact (pay_run _ (pop_account host_step))|]. eapply rtc_l; [exact (pay_run _ (pop_account guest_step))|].
  apply rtc_once. exact (pay_run _ (pop_account invite_step)).
Qed.

Definition guest_accepts : request := visit npub2 (t0 + time_Minute) [(bs "host_npub", npub1)].

Lemma guest_session : session_of cfg0 guest_accepts = Some npub2.
Proof. vm_compute. reflexivity. Qed.

Lemma guest_accepted : po_store (serve0 cfg0 rt_accept guest_accepts (newPortal db_invited)).2 = db_attached.
Proof. vm_compute. reflexivity. Qed.

Lemma portal_authority_witness :
  rtc (acts no_url no_key no_key no_sig cfg0 guest_accepts) db_invited db_attached /\ db_attached <> db_invited.
Proof.
  pose proof (portal_authority digits undigits_ bytes_le no_url no_url no_key no_key no_sig cfg0 rt_accept guest_accepts
    (newPortal db_invited) invited_sales) as H.
  pose proof guest_accepted as E. unfold serve0 in E.
  destruct (serve digits undigits_ bytes_le no_url no_url no_key no_key no_sig cfg0 rt_accept guest_accepts (newPortal db_invited)) as [[x c] p'].
  cbn [snd] in E. rewrite E in H. split; [exact (proj1 H)|]. intros Ec. apply (f_equal db_whitelist) in Ec. vm_compute in Ec. discriminate Ec.
Defined.

Lemma portal_consent_witness :
  exists npub, authenticated no_url no_key no_key no_sig cfg0 guest_accepts npub /\
    (FromNpub (normNpub npub) = Ok addr2 \/
     exists d, rtc (acts no_url no_key no_key no_sig cfg0 guest_accepts) db_invited d /\ account_of d npub = Some 4).
Proof.
  apply (portal_consent digits undigits_ bytes_le no_url no_url no_key no_key no_sig cfg0 rt_accept guest_accepts (newPortal db_invited) addr2 4 invited_sales).
  - vm_compute. reflexivity.
  - fold (serve0 cfg0 rt_accept). rewrite guest_accepted. vm_compute. discriminate.
Defined.

(** ** The status check *)

Lemma paid_status : tells true (status bytes_le cfg0 (visit npub1 (t0 + time_Minute) []) (newPortal db_paid)).1.1.
Proof. eexists. vm_compute. reflexivity. Qed.

Lemma status_truthful_witness :
  tells true (status bytes_le cfg0 (visit npub1 (t0 + time_Minute) []) (newPortal db_paid)).1.1 /\
  has_entitlement db_paid (ac_id customer1) = true.
Proof.
  pose proof (status_truthful bytes_le cfg0 (visit npub1 (t0 + time_Minute) []) (newPortal db_paid) npub1 ltac:(vm_compute; reflexivity)) as H.
  pose proof paid_status as Hs. destruct (status bytes_le cfg0 (visit npub1 (t0 + time_Minute) []) (newPortal db_paid)) as [[x c] p'].
  split; [exact Hs|]. destruct H as [_ H].
  assert (Ea : account_of (po_store (newPortal db_paid)) npub1 = Some (ac_id customer1)) by (vm_compute; reflexivity).
  rewrite Ea in H. change (po_store (newPortal db_paid)) with db_paid in H. destruct Hs as [rest Hs]. destruct H as [[rest' H]|[_ H]].
  - cbn [fst] in Hs. rewrite Hs in H. destruct (has_entitlement db_paid (ac_id customer1)); [reflexivity|discriminate H].
  - cbn [fst] in Hs. rewrite Hs in H. discriminate H.
Defined.

(** ** Buying while the payment provider is down *)

Lemma shop_reachable : pay_reachable db_shop.
Proof.
  exists t0. rewrite <- shop_run, <- customer_run. eapply rtc_l; [exact (pay_run _ join_step)|]. apply rtc_once. exact (pay_run _ offer_step).
Qed.

Definition order_form : list (gostr * gostr) := [(bs "package_id", digits package1)].
Definition buys (npub : gostr) (t : Z) (p : portal) : response * option Cookie * portal := buy_as digits undigits_ cfg_down (visit npub t order_form) npub p.

Lemma upper_derive : derive (normNpub (ToUpper npub1)) = mret addr1.
Proof. assert (normNpub (ToUpper npub1) = normNpub npub1) as -> by (vm_compute; reflexivity). exact derive1. Qed.

Lemma buy_bounded_witness :
  bounded npub1 3 db_shop (po_store (buys npub1 (t0 + time_Minute) (newPortal db_shop)).2) /\ normNpub npub1 = npub1.
Proof.
  split; [|vm_compute; reflexivity].
  exact (buy_bounded digits undigits_ cfg_down (visit npub1 (t0 + time_Minute) order_form) npub1 (newPortal db_shop) shop_reachable ltac:(vm_compute; reflexivity)).
Defined.

(** Three attempts whose invoice could not be created. *)
Definition portal_failed : portal := Eval vm_compute in
  (buys npub1 (t0 + 3 * time_Minute) (buys npub1 (t0 + 2 * time_Minute) (buys npub1 (t0 + time_Minute) (newPortal db_shop)).2).2).2.

(** A month later the buyer is still refused: the three orders have no invoice to
    expire or to pay, and every one counts as open. *)
Definition a_month_later : portal := set_store (set_now (t0 + 30 * day_ns) (po_store portal_failed)) portal_failed.

Lemma buyer_locked_out :
  (buys npub1 (t0 + 30 * day_ns) a_month_later).1.1 = Redirect (bs "/packages?err=limit") /\
  open_of (po_store a_month_later) (ac_id customer1) = 3 /\
  Forall (fun p => pu_invoice p = None) (db_purchases (po_store a_month_later)).
Proof.
  split; [|split; [vm_compute; reflexivity|apply (bool_decide_unpack _); vm_compute; exact I]].
  unfold buys, buy_as, CreateAccount. rewrite derive1. vm_compute. reflexivity.
Qed.

(** The same identity in upper case is not counted: its order goes through. *)
Lemma open_cap_bypass :
  open_of (po_store (buys (ToUpper npub1) (t0 + 30 * day_ns) a_month_later).2) (ac_id customer1) = 4.
Proof. unfold buys, buy_as, CreateAccount. rewrite upper_derive. vm_compute. reflexivity. Qed.

(** ** An odd number of bytes at rate 1.5 *)

Definition tor : service := {| sv_id := 900; sv_key := bs "tor"; sv_name := bs "Tor"; sv_port := 1081; sv_rate := 1500000; sv_enabled := true |}.
Definition db_metered : db :=
  set_services [tor] (set_samples [{| sm_id := 901; sm_report := bs "r"; sm_service := Some 900; sm_addr := addr1;
    sm_account := Some (ac_id customer1); sm_bytes := 1001 |}] db_paid).

Lemma Summary_fraction_fails_witness : exists e, (Summary bytes_le npub1 db_metered).1 = Err e.
Proof.
  apply (Summary_fraction_fails bytes_le npub1 db_metered (ac_id customer1) tor 1001).
  - vm_compute. reflexivity.
  - apply (list_elem_of_lookup_2 _ 0). reflexivity.
  - reflexivity.
  - vm_compute. reflexivity.
  - vm_compute. split; congruence.
  - vm_compute. discriminate.
Defined.

Lemma dashboard_lost :
  (dashboard bytes_le no_url cfg0 (visit npub1 (t0 + time_Minute) []) (newPortal db_metered)).1.1 =
    HttpError (bs "error loading account") 500 /\
  (status bytes_le cfg0 (visit npub1 (t0 + time_Minute) []) (newPortal db_metered)).1.1 = HttpError (bs "error loading account") 500.
Proof. split; vm_compute; reflexivity. Qed.

(** ** Paying with ecash *)

Definition cfg_cashu : config :=
  {| cf_sessionSecret := bs "s"; cf_challengeSecret := bs "c"; cf_captiveSecret := bs "p"; cf_trustFipsSource := true;
     cf_secureCookies := false; cf_autoSettle := false; cf_pay := None; cf_cashu := Some (Cashu.NewCashuRedeemer [bs "https://mint/ "; []]);
     cf_publicURL := bs "http://p"; cf_pacHost := []; cf_wg := settings; cf_maxOpenPurchases := 3; cf_MaxGuests := 0; cf_MaxWgPeers := 5 |}.

Definition open_bill : gostr := digits (default 0 (pu_id <$> head (db_purchases db_open))).

Definition pays_token (token : gostr) : response * option Cookie * portal :=
  serve0 cfg_cashu (rt_cashu open_bill) (visit npub1 (t0 + time_Minute) [(bs "token", token)]) (newPortal db_open).

(** A token of 1010 is melted at its mint, one of 1009 is not, nor one of a mint that
    is not on the list. *)
Example token_melted :
  ((pays_token (bs " https://mint// 1010 ")).1.1, map Cashu.mp_url (po_sent (pays_token (bs " https://mint// 1010 ")).2)) =
  (Empty 202, [bs "https://mint/v1/melt/quote/bolt11"; bs "https://mint/v1/melt/bolt11"]).
Proof. vm_compute. reflexivity. Qed.

Example token_short :
  ((pays_token (bs "https://mint 1009")).1.1, length (po_sent (pays_token (bs "https://mint 1009")).2)) =
  (HttpError (bs "token rejected: payments: cashu token does not cover invoice + fees") 400, 1%nat).
Proof. vm_compute. reflexivity. Qed.

Example token_foreign :
  ((pays_token (bs "https://evil 5000")).1.1, length (po_sent (pays_token (bs "https://evil 5000")).2)) =
  (HttpError (bs "token rejected: payments: cashu mint not accepted") 400, 0%nat).
Proof. vm_compute. reflexivity. Qed.

Lemma MeltAmount_least_witness : 0 <= 1000999 <= int64_max /\ Cashu.MeltAmount (u64 (Z.quot 1000999 1000)) = 1010 /\
  forall q proofs, Cashu.mq_Amount q = 1000 -> 0 <= 100 * Cashu.mq_FeeReserve q < 1100 -> Cashu.proofs_Amount proofs = 1010 -> CashuFacts.covers q proofs.
Proof.
  assert (H : 0 <= 1000999 <= int64_max) by (unfold int64_max; lia). split; [exact H|]. split; [reflexivity|].
  intros q proofs H1 H2 H3. exact (proj1 (proj2 (CashuFacts.MeltAmount_least 1000999 H)) proofs q H1 H2 H3).
Defined.

End Visitors.
