(* ===== verification/BackendProcessExamples.v ===== *)
(** * A backend at work

    The theorems about the process applied to concrete requests, and an operator's
    credit that wraps round. *)

From S2P Require Import Prelude GoStrings GoJson Netip Fipsaddr FipsaddrVectors Sha256 Authzhash RateLimit Tokens AgentTypes BackendDB BackendAuthz BackendAuthzFacts BackendUsage.
From S2P Require Import BackendWhitelist BackendWhitelistFacts BackendConsent BackendPayments BackendPaymentsFacts BackendSales BackendCashu BackendWg.
From S2P Require Import BackendWgFacts BackendSummary BackendApi BackendApiFacts BackendAdmin BackendFrame BackendNotify Portal PortalFacts Backend BackendFacts BackendRails BackendConfig.
From S2P Require Import BackendExamples PortalExamples.
Import DB Authz AuthzFacts Whitelist WhitelistFacts Consent Payments PaymentsFacts Sales Wg WgFacts Summary Api ApiFacts Admin Frame.
Import Authzhash Derive Portal PortalFacts Backend BackendFacts Deployment Shop Visitors.

Module Operations.

Definition site : Backend.settings :=
  {| bc_portal := cfg0; bc_adminToken := bs "admin"; bc_usageIntervalS := 30; bc_graceMinutes := 240; bc_allowMassRevoke := false;
     bc_btcpay := None; bc_phoenixd := Some (bs "hook"); bc_usageKeep := 90 * day_ns; bc_revKeep := 30 * day_ns;
     bc_invoiceTTL := 60 * time_Minute; bc_single := false |}.

Definition no_event {A} (_ : list Z) : option A := None.

Definition serve1 : headers -> endpoint -> State backend answer_of :=
  serve_http digits undigits_ bytes_le no_url no_url no_key no_key no_sig no_event no_event site.
Definition history1 : list event -> backend -> backend :=
  history digits undigits_ bytes_le no_url no_url no_key no_key no_sig no_event no_event site.

Definition plain (auth : gostr) : headers :=
  {| hm_auth := auth; hm_Host := bs "p"; hm_SecFetchSite := []; hm_Origin := []; hm_origin_host := None |}.
Definition operator : headers := plain (bs "Bearer admin").

Definition start : backend := boot (empty_db t0).

(** The operator issues a token and a node enrolls with it; then time passes. *)
Definition issue : endpoint := ep_admin ad_enroll_token [1; 2; 3] (Some (Json.jobj [(bs "note", Json.jstr (bs "gate"))])).
Definition enrolls : endpoint :=
  ep_enroll (Some {| er_EnrollToken := token1; er_NodePubkey := bs "pk"; er_Name := bs "gate" |}) [4; 5; 6].
Definition first_day : list event :=
  [ev_request operator issue; ev_request (plain []) enrolls; ev_clock (t0 + day_ns); ev_expiry_sweep; ev_retention; ev_restart].

Example first_day_nodes : map nd_name (db_nodes (store_of (history1 first_day start))) = [bs "gate"].
Proof. vm_compute. reflexivity. Qed.

Lemma every_history_witness :
  NoDup (nd_id <$> db_nodes (store_of (history1 first_day start))) /\ log_ok (store_of (history1 first_day start)).
Proof.
  destruct (every_history digits undigits_ bytes_le no_url no_url no_key no_key no_sig no_event no_event site t0 first_day)
    as (_ & _ & _ & _ & _ & H).
  - exact Tunnel.default_pools_ok.
  - reflexivity.
  - exact H.
Defined.

Lemma start_books : books_ok (store_of start).
Proof. apply pay_reachable_ok. exists t0. eapply rtc_l; [exact (sys_pay DefaultWgPools 5 so_seed _)|]. apply rtc_once. exact (pay_run _ pop_seed). Qed.

Lemma changes_need_authority_witness :
  db_tokens (store_of (serve1 operator issue start).2) <> [] /\ bearer (hm_auth operator) = Some (bs "admin").
Proof.
  assert (H : db_tokens (store_of (serve1 operator issue start).2) <> []) by (vm_compute; discriminate). split; [exact H|].
  refine (proj1 (changes_need_authority digits undigits_ bytes_le no_url no_url no_key no_key no_sig no_event no_event site operator issue start start_books _)).
  intros E. apply H. unfold serve1. rewrite E. vm_compute. reflexivity.
Defined.

(** The same request without the token, and a form posted from another site. *)
Example no_token : (serve1 (plain (bs "Bearer guess")) issue start).1 = an_admin (Failed 401).
Proof. vm_compute. reflexivity. Qed.

Definition foreign : headers :=
  {| hm_auth := []; hm_Host := bs "p"; hm_SecFetchSite := bs "cross-site"; hm_Origin := bs "https://evil"; hm_origin_host := Some (bs "evil") |}.
Example forged_form : (serve1 foreign (ep_portal rt_toggle (visit npub1 (t0 + time_Minute) [])) start).1 = an_plain 403.
Proof. vm_compute. reflexivity. Qed.

(** ** Credits on 64 bits *)

(** A credit of 9223372037 GB is answered with success, and is a negative volume. *)
Definition huge_credit : option Json.jvalue :=
  Some (Json.jobj [(bs "npub", Json.jstr npub1); (bs "kind", Json.jstr (bs "volume")); (bs "gb", Json.jnum 9223372037)]).

Lemma credit_wraps :
  (adminCredit huge_credit db_customer).1 = Body (ans_status (bs "credited")) /\
  exists e, e ∈ db_entitlements (adminCredit huge_credit db_customer).2 /\ en_volume e = Some (-9223372036709551616) /\
    has_entitlement (adminCredit huge_credit db_customer).2 (ac_id customer1) = false.
Proof.
  unfold adminCredit, with_body. change (decoded huge_credit _) with (Some (npub1, bs "volume", 9223372037, 0)). cbn iota beta zeta.
  unfold Admin.answer, CreditVolume, CreateAccount. rewrite derive1. split; [vm_compute; reflexivity|].
  eexists. split; [apply (list_elem_of_lookup_2 _ 0); vm_compute; reflexivity|]. split; vm_compute; reflexivity.
Qed.

End Operations.

Module Startup.
Import Rails Config.

Definition env_of (vars : list (gostr * gostr)) (k : gostr) : gostr := default [] (snd <$> head (filter (fun p => p.1 = k) vars)).

(** phoenixd answers every request for an invoice with the same hash. *)
Definition node_answers (_ : rail_request) : option (Z * option Json.jvalue) :=
  Some (200, Some (Json.jobj [(bs "paymentHash", Json.jstr (bs "h1")); (bs "serialized", Json.jstr (bs "lnbc1"))])).
Definition direct (socks : gostr) : option transport := if bool_decide (socks = []) then Some node_answers else None.

Definition base_vars : list (gostr * gostr) :=
  [(bs "DATABASE_URL", bs "postgres:"); (bs "ADMIN_TOKEN", bs "admin"); (bs "CAPTIVE_TOKEN_SECRET", bs "captive")].
Definition phoenix_vars : list (gostr * gostr) :=
  [(bs "PAYMENT_RAIL", bs "phoenixd"); (bs "PHOENIXD_URL", bs "http://ln/"); (bs "PHOENIXD_PASSWORD", bs "pw");
   (bs "CASHU_ACCEPT", bs "1"); (bs "CASHU_ACCEPTED_MINTS", bs "https://mint/,https://other")].
Definition secured : list (gostr * gostr) := base_vars ++ phoenix_vars ++ [(bs "PHOENIXD_WEBHOOK_SECRET", bs "hook")].

Definition rnd32 (b : Z) : list Z := replicate 32 b.
Definition load1 (vars : list (gostr * gostr)) : option Backend.settings := load (env_of vars) direct None None (rnd32 1) (rnd32 2).

Lemma started_guarded_witness : exists cfg,
  load1 secured = Some cfg /\ bc_phoenixd cfg = Some (bs "hook") /\ bc_btcpay cfg = None /\ 0 < cf_MaxWgPeers (bc_portal cfg).
Proof.
  destruct (load1 secured) as [cfg|] eqn:E; [|vm_compute in E; discriminate].
  exists cfg. split; [reflexivity|].
  assert (P : bc_phoenixd cfg = Some (bs "hook")) by (apply (f_equal (fmap bc_phoenixd)) in E; vm_compute in E; by injection E).
  destruct (started_guarded (env_of secured) direct None None (rnd32 1) (rnd32 2) cfg) as (_ & _ & H & _ & _ & _ & Hc); try done.
  destruct (H _ P) as [_ Hb]. done.
Defined.

(** Without the webhook's secret, and with a rail that does not exist, it refuses. *)
Example no_webhook_secret : load1 (base_vars ++ phoenix_vars) = None.
Proof. vm_compute. reflexivity. Qed.
Example unknown_rail : load1 (base_vars ++ [(bs "PAYMENT_RAIL", bs "lnd")]) = None.
Proof. vm_compute. reflexivity. Qed.
Example mints_accepted : (Cashu.cr_accepted <$> (load1 secured ≫= (fun c => cf_cashu (bc_portal c)))) = Some {[ bs "https://mint"; bs "https://other" ]}.
Proof. vm_compute. reflexivity. Qed.

(** An allowlist of blank entries is no allowlist. *)
Lemma blank_allowlist :
  (Cashu.cr_accepted <$> (load1 ((bs "CASHU_ACCEPTED_MINTS", bs ", ") :: secured) ≫= (fun c => cf_cashu (bc_portal c)))) = Some ∅ /\
  length (Split 44 (bs ", ")) = 2%nat.
Proof. vm_compute. done. Qed.

(** ** Both rails *)

Definition order1 : InvoiceRequest :=
  {| ir_PriceMsat := 123456789012345; ir_OrderID := bs "order-1"; ir_Description := bs "10 GB & more"; ir_RedirectURL := bs "http://p/dashboard" |}.

Lemma rails_charge_price_witness :
  btcAmount (ir_PriceMsat order1) = bs "1234.56789012" /\
  charged (phoenixd_request (NewPhoenixd (bs "http://ln/") (bs "pw")) order1) = Some (123456789012, bs "order-1").
Proof.
  split; [vm_compute; reflexivity|].
  destruct (rails_charge_price (NewClient (bs "http://b") (bs "k") (bs "s")) (NewPhoenixd (bs "http://ln/") (bs "pw")) order1) as [_ H].
  - vm_compute. split; discriminate.
  - by apply GoNet.bytes_check.
  - by apply GoNet.bytes_check.
  - exact H.
Defined.

End Startup.

Module Wakeups.
Import Notify.

(** A poll that has read the revision and sleeps; then access is granted while the
    listener's session is up, and while it is lost. *)
Definition idle (d : db) (l : listener) (polls : list poll) : net := {| n_db := d; n_revs := 1%nat; n_listener := l; n_polls := polls |}.
Definition asleep : poll := {| pl_rev := 0; pl_full := false; pl_pc := blocked 1%nat |}.
Definition start0 : net := {| n_db := db_fresh; n_revs := 0%nat; n_listener := l_connecting time_Second; n_polls := [] |}.
Definition granted : net := idle db_published (l_waiting time_Second (Some 1%nat)) [asleep].

Lemma one_notification : (length (db_notify db_published) - length (db_notify db_fresh))%nat = 1%nat.
Proof. vm_compute. reflexivity. Qed.

Definition fresh_poll : poll := {| pl_rev := 0; pl_full := false; pl_pc := at_top |}.
Definition ready : net := idle db_fresh (l_waiting time_Second (Some 0%nat)) [].

(** The listener connects at its second attempt. *)
Lemma ready_reachable : rtc net_step start0 (set_listener (l_waiting (2 * time_Second) (Some 0%nat)) ready).
Proof.
  apply (rtc_l _ _ (set_listener (l_pausing time_Second (2 * time_Second)) start0)); [by apply (n_failed start0 0)|].
  apply (rtc_l _ _ (set_listener (l_connecting (2 * time_Second)) start0)); [exact (n_again (set_listener (l_pausing time_Second (2 * time_Second)) start0) _ eq_refl)|].
  apply (rtc_l _ _ (set_listener (l_fresh (2 * time_Second) (Some 0%nat)) start0)); [exact (n_connected (set_listener (l_connecting (2 * time_Second)) start0) _ eq_refl)|].
  apply rtc_once. by apply (n_listen (set_listener (l_fresh (2 * time_Second) (Some 0%nat)) start0) _ true).
Qed.

(** Asleep, with the listener [l]. *)
Lemma asleep_reachable l : rtc net_step start0 (set_listener l ready) -> rtc net_step start0 (idle db_fresh l [asleep]).
Proof.
  intros H. eapply rtc_r; [eapply rtc_r; [eapply rtc_r; [exact H|apply (n_request (idle _ _ []) 0 false)]|]|].
  - by apply (n_poll (idle _ _ [fresh_poll]) 0%nat fresh_poll (set_pc (took 1%nat) fresh_poll)).
  - apply (n_poll (idle db_fresh l [set_pc (took 1%nat) fresh_poll]) 0%nat (set_pc (took 1%nat) fresh_poll) asleep); [done|].
    vm_compute. reflexivity.
Qed.

(** Access is granted while the session is up. *)
Lemma granted_reachable : rtc net_step start0 granted.
Proof.
  eapply rtc_r.
  { apply (asleep_reachable (l_waiting time_Second (Some 0%nat))).
    apply (rtc_l _ _ (set_listener (l_fresh time_Second (Some 0%nat)) start0)); [by apply (n_connected start0)|].
    apply rtc_once. by apply (n_listen (set_listener (l_fresh time_Second (Some 0%nat)) start0) _ true). }
  pose proof (n_recompute (idle db_fresh (l_waiting time_Second (Some 0%nat)) [asleep]) (RecomputeAuthz db_fresh).1 db_published (surjective_pairing _)) as H.
  unfold committed, idle in H. cbn [n_db n_revs n_listener n_polls] in H. rewrite one_notification in H. exact H.
Qed.

(** Access is granted while the session is lost: nothing is queued for it, and the
    listener gets by a pause and a new session to the broadcast. *)
Definition missed : net := idle db_published (l_waiting (2 * time_Second) None) [asleep].

Lemma missed_reachable : rtc net_step start0 missed.
Proof.
  eapply rtc_r; [eapply rtc_r; [exact (asleep_reachable _ ready_reachable)|apply n_lost]|].
  pose proof (n_recompute (idle db_fresh (l_waiting (2 * time_Second) None) [asleep]) (RecomputeAuthz db_fresh).1 db_published (surjective_pairing _)) as H.
  exact H.
Qed.

Lemma no_wakeup_lost_witness :
  done_by (own_step 0%nat) 0%nat granted 5%nat /\ done_by (recovery_step 0%nat) 0%nat missed 7%nat.
Proof.
  split.
  - refine (proj1 (proj2 (no_wakeup_lost start0 granted 0%nat asleep 1%nat db_fresh_log eq_refl eq_refl granted_reachable eq_refl eq_refl _)) (or_intror eq_refl)).
    vm_compute. discriminate.
  - refine (proj1 (proj2 (proj2 (no_wakeup_lost start0 missed 0%nat asleep 1%nat db_fresh_log eq_refl eq_refl missed_reachable eq_refl eq_refl _)))).
    vm_compute. discriminate.
Defined.

End Wakeups.
