(* ===== verification/System.v ===== *)
(** * The whole system: agents following the backend

    The agent's sync loop (agent/agent.go) run against the long poll of the API
    (backend/api.go) on a database that changes meanwhile, and its heartbeat
    against the drift check.  The kernel set of the exit follows the authorized
    set of the backend. *)

From S2P Require Import Prelude GoStrings Netip Sha256 Authzhash AgentTypes AgentStore AgentUsage Agent AgentFacts.
From S2P Require Import BackendDB BackendAuthz BackendAuthzFacts BackendUsage BackendWg BackendApi.
Import Authz AuthzFacts Api.

Module System.

Section System.
Context `{MI : MapIter} `{FW : Firewall} `{WG : WgIface} (uuid_text : Z -> gostr).
Implicit Types (a : Agent) (d : DB.db).

(** [backendClient.do] and [getAuthz] (agent/client.go): what the agent makes of
    an answer; [None] is a request that never got one. *)
Definition answer_of (r : option (reply authzResponse)) : result getAuthz_err authzResponse :=
  match r with
  | Some NoContent => Err errUnchanged
  | Some (Body b) => Ok b
  | Some (Failed _) | None => Err getAuthz_failed
  end.

(** One request of the agent over the observations the handler makes. *)
Definition ask (allowMassRevoke : bool) (deadline : Z) (seen : list (DB.db * DB.db * Z)) (q : authzQuery)
    : result getAuthz_err authzResponse :=
  answer_of (authz uuid_text allowMassRevoke (q_rev q) deadline (q_full q) seen).

(** The observations of a long poll that starts when the database is [d0] and is
    over when it is [d1]. *)
Inductive observes : DB.db -> list (DB.db * DB.db * Z) -> DB.db -> Prop :=
| obs_end d0 d1 : rtc log_step d0 d1 -> observes d0 [] d1
| obs_next d0 d d' now rest d1 : rtc log_step d0 d -> rtc log_step d d' -> observes d' rest d1 ->
    observes d0 ((d, d', now) :: rest) d1.

Lemma observes_steps d0 seen d1 : observes d0 seen d1 -> rtc log_step d0 d1.
Proof. induction 1; [done|]. etrans; [eassumption|]. etrans; eassumption. Qed.

(** The poll is over at the latest at the deadline. *)
Definition lasts_until (deadline : Z) (seen : list (DB.db * DB.db * Z)) : Prop :=
  exists x, last seen = Some x /\ deadline <= x.2.

Lemma authz_answers allow c deadline full seen : lasts_until deadline seen ->
  is_Some (authz uuid_text allow c deadline full seen).
Proof.
  intros (x & Hl & Hd). induction seen as [|[[d d'] now] seen IH]; [done|]. cbn [authz].
  destruct (full || _); [by eexists|]. destruct (deadline - now <=? 0) eqn:E; [by eexists|]. bool_hyps.
  destruct seen as [|y seen]; [|apply IH; exact Hl]. cbn in Hl. injection Hl as <-. cbn in Hd. lia.
Qed.

(** ** Revisions *)

Lemma max_rev_step d d' : log_step d d' -> log_ok d -> max_rev d <= max_rev d'.
Proof.
  intros [r d1 H|cutoff r d1 H|d1 E1 E2 E3 E4] Hl.
  - destruct (recompute_run d) as (rm & rv & d2 & E & C & _). rewrite E in H. injection H as _ <-.
    destruct C as [_ _ (new & Er & _)]. unfold max_rev. rewrite Er. clear. induction (DB.db_revisions d) as [|x l IH]; cbn; [|lia].
    induction new as [|y n IHn]; cbn; lia.
  - destruct r as [n|e]; [|done]. rewrite (compact_max_rev _ _ _ _ Hl H). done.
  - unfold max_rev. by rewrite E2.
Qed.

Lemma max_rev_steps d d' : rtc log_step d d' -> log_ok d -> max_rev d <= max_rev d'.
Proof.
  induction 1 as [d|d d1 d' H _ IH]; intros Hl; [done|]. destruct (log_step_spec _ _ H Hl) as (Hl1 & _).
  pose proof (max_rev_step _ _ H Hl). specialize (IH Hl1). lia.
Qed.

(** A client at the current revision holds the current set. *)
Lemma caught_up S d : log_ok d -> coherent S (max_rev d) d -> S = dom (DB.db_current d).
Proof.
  intros Hl [[Hn Hm]|H].
  - destruct (min_rev_attained d Hn) as (r & Hr & Er). pose proof (max_rev_ge d r Hr). lia.
  - apply set_eq. intros x. rewrite elem_of_dom. apply H. intros r Hr Hlt. pose proof (max_rev_ge d r Hr). lia.
Qed.

(** ** Answers *)

Lemma full_response_spec allow d : exists resp, full_response uuid_text allow d = Body resp /\
  az_Full resp = true /\ az_Rev resp = max_rev d /\ desired_of resp = dom (DB.db_current d) /\ az_Force resp = allow.
Proof.
  eexists. split; [reflexivity|]. repeat split; try done. unfold desired_of, toMembers. cbn [az_Addresses].
  rewrite !map_map. cbn [mb_Addr am_Addr]. apply set_eq. intros x. rewrite elem_of_list_to_set, elem_of_dom.
  rewrite list_elem_of_In, in_map_iff. split.
  - intros ([y v] & <- & Hy%list_elem_of_In). apply elem_of_map_range in Hy. cbn. by eexists.
  - intros [v Hv]. exists (x, v). split; [done|]. by apply list_elem_of_In, elem_of_map_range.
Qed.

(** What the handler answers to a client that holds [S] as of [c]. *)
Lemma writeAuthz_spec allow S c full d : log_ok d -> coherent S c d -> c <= max_rev d ->
  exists resp, writeAuthz uuid_text allow c full d = Body resp /\ az_Rev resp = max_rev d /\
    if az_Full resp then desired_of resp = dom (DB.db_current d) /\ az_Force resp = allow
    else full = false /\ c <> 0 /\ adds_of resp ## dels_of resp /\ NoDup (az_Del resp) /\
         (S ∪ adds_of resp) ∖ dels_of resp = dom (DB.db_current d).
Proof.
  intros Hl Hco Hc. destruct (full_response_spec allow d) as (fr & Ef & F1 & F2 & F3 & F4). unfold writeAuthz.
  assert (Hfull : exists resp, full_response uuid_text allow d = Body resp /\ az_Rev resp = max_rev d /\
    if az_Full resp then desired_of resp = dom (DB.db_current d) /\ az_Force resp = allow
    else full = false /\ c <> 0 /\ adds_of resp ## dels_of resp /\ NoDup (az_Del resp) /\
         (S ∪ adds_of resp) ∖ dels_of resp = dom (DB.db_current d)) by (exists fr; rewrite F1; auto).
  destruct (full || (c =? 0)) eqn:E; [exact Hfull|]. apply orb_false_iff in E as [-> E]. bool_hyps.
  destruct ((DeltaSince c d).1) as [[[add del] rev]|e] eqn:Ed.
  - destruct (delta_run S c d add del rev Hl Hco Ed) as (H1 & H2 & H3 & H4). eexists. split; [reflexivity|]. cbn [az_Rev az_Full].
    split; [done|]. split; [done|]. split; [done|]. unfold adds_of, dels_of. cbn [az_Add az_Del]. rewrite map_map. cbn [am_Addr].
    change (map (fun x : Addr * option Z => x.1) add) with add.*1. done.
  - unfold DeltaSince in Ed. rewrite (rows_have_accounts c d Hl) in Ed. destruct (_ && _); cbn in Ed; [|done]. injection Ed as <-. exact Hfull.
Qed.

(** The long poll answers as of a moment between its start and its end. *)
Lemma authz_spec allow S c deadline full seen d0 d1 r :
  log_ok d0 -> (full = false -> coherent S c d0 /\ c <= max_rev d0) -> observes d0 seen d1 ->
  authz uuid_text allow c deadline full seen = Some r ->
  exists d, rtc log_step d0 d /\ rtc log_step d d1 /\
    ((r = NoContent /\ full = false /\ c = max_rev d /\ S = dom (DB.db_current d)) \/ r = writeAuthz uuid_text allow c full d).
Proof.
  intros Hl Hco Hob. revert Hl Hco. induction Hob as [d0 d1 H|d0 d d' now rest d1 H1 H2 Hob IH]; intros Hl Hco; [done|]. cbn [authz].
  destruct (log_steps_spec _ _ H1 Hl) as (Hld & _ & Hk).
  assert (Hcd : full = false -> coherent S c d /\ c <= max_rev d).
  { intros Hf. destruct (Hco Hf) as [Hc Hm]. pose proof (max_rev_bound d0 Hl). split; [apply Hk; [lia|done]|].
    pose proof (max_rev_steps _ _ H1 Hl). lia. }
  destruct (full || negb (c =? max_rev d)) eqn:E.
  - intros Er. injection Er as <-. exists d'. split; [by etrans|]. split; [by eapply observes_steps|by right].
  - apply orb_false_iff in E as [-> E]. bool_hyps. destruct (Hcd eq_refl) as [Hc Hm]. destruct (deadline - now <=? 0).
    + intros Er. injection Er as <-. exists d. split; [done|]. split; [etrans; [done|by eapply observes_steps]|]. left.
      repeat split; try done. apply caught_up; [done|]. by rewrite <- E.
    + intros Er. destruct (log_steps_spec _ _ H2 Hld) as (Hld' & _ & Hk'). pose proof (max_rev_bound d Hld).
      destruct IH as (x & X1 & X2 & X3); try done.
      * intros _. split; [apply Hk'; [lia|done]|]. pose proof (max_rev_steps _ _ H2 Hld). lia.
      * exists x. split; [|done]. etrans; [done|]. by etrans.
Qed.

(** ** The exit follows the backend *)

(** The exit's set and cursor are the backend's; or they are a state from which
    the log leads there. *)
Definition synced a d : Prop := kernel a = dom (DB.db_current d) /\ cursor a = max_rev d.
Definition follows a d : Prop := coherent (kernel a) (cursor a) d /\ cursor a <= max_rev d.

Lemma synced_follows a d : log_ok d -> synced a d -> follows a d.
Proof. intros Hl [H1 H2]. unfold follows. rewrite H1, H2. split; [by apply coherent_current|done]. Qed.

Lemma follows_steps a d d' : log_ok d -> rtc log_step d d' -> follows a d -> follows a d'.
Proof.
  intros Hl Hs [H1 H2]. destruct (log_steps_spec _ _ Hs Hl) as (_ & _ & Hk). pose proof (max_rev_bound d Hl).
  pose proof (max_rev_steps _ _ Hs Hl). split; [apply Hk; [lia|done]|lia].
Qed.

(** The guard against mass revocation, for the set of [d]. *)
Definition mass_revoke a d : Prop :=
  p_allowMassRevoke (a_conf a) = false /\
  p_massRevokeMin (a_conf a) < Z.of_nat (size (kernel a ∖ dom (DB.db_current d))) /\
  Z.of_nat (size (kernel a)) < 2 * Z.of_nat (size (kernel a ∖ dom (DB.db_current d))).

(** The full set of [d] is refused: neither side lets a mass revocation through. *)
Definition refused allow a d : Prop := allow = false /\ mass_revoke a d.

(** An answer applied to an exit that could use it. *)
Lemma handle_answer allow l persisted resp a l' a' d :
  Z.of_nat (size (kernel a)) < 2 ^ 62 -> up a -> d_faults (s_disk (a_store a)) = [] ->
  az_Rev resp = max_rev d -> (az_Full resp = false -> cursor a <= max_rev d) ->
  (if az_Full resp then desired_of resp = dom (DB.db_current d) /\ az_Force resp = allow
   else adds_of resp ## dels_of resp /\ NoDup (az_Del resp) /\ (kernel a ∪ adds_of resp) ∖ dels_of resp = dom (DB.db_current d)) ->
  syncHandle l persisted (Ok resp) a = (l', a') ->
  (synced a' d /\ (az_Full resp = true -> ~ refused allow a d)) \/
  (refused allow a d /\ kernel a' = kernel a /\ cursor a' = cursor a).
Proof.
  intros Hsz Hup Hf Hrev Hcur Hresp H. destruct (applyAuthz resp a) as [r a1] eqn:E.
  assert (Hok : forall u, r = Ok u -> kernel a1 = dom (DB.db_current d) /\ cursor a1 = max_rev d -> synced a' d).
  { intros u -> Hs. unfold syncHandle, mbind at 1, state_bind at 1 in H. rewrite E in H.
    unfold synced. destruct (az_Full resp).
    - unfold mbind at 1, state_bind at 1 in H. rewrite on_metrics_eq in H. destruct (finish_spec _ _ _ _ H) as (G1 & G2 & _).
      unfold kernel, cursor in *. cbn in G1, G2. by rewrite G1, G2.
    - destruct (finish_spec _ _ _ _ H) as (G1 & G2 & _). unfold kernel, cursor in *. cbn in G1, G2. by rewrite G1, G2. }
  destruct (az_Full resp) eqn:Efull.
  - destruct Hresp as [Hd Ha]. pose proof (applyAuthz_full resp a r a1 Efull Hsz E) as [_ Hr]. rewrite Hd, Hrev, Ha in Hr.
    destruct r as [u|[|g n|g c|e]]; [left; split; [apply (Hok u); tauto|intros _ [??]; unfold mass_revoke in *; tauto]| | |done|].
    + destruct Hr as (_ & _ & Hn). done.
    + right. destruct Hr as ((H1 & H2 & H3 & H4) & _ & _ & Hk & Hs). destruct (mass_refusal _ _ _ _ _ _ _ _ _ E H) as (G1 & G2 & _).
      unfold refused, mass_revoke. repeat split; try done; unfold kernel, cursor in *; congruence.
    + destruct Hr as (_ & _ & _ & Hn). done.
  - destruct Hresp as (Hdisj & Hnd & Hset). pose proof (applyAuthz_delta resp a r a1 Efull Hdisj Hnd E) as [_ Hr].
    rewrite Hset, Hrev in Hr. specialize (Hcur eq_refl).
    destruct r as [u|[|g n|g c|e]]; [left; split; [apply (Hok u); tauto|done]| |done| |].
    + destruct Hr as (_ & _ & Hn). done.
    + destruct Hr as (Hn & _). lia.
    + destruct Hr as (_ & _ & _ & Hn). done.
Qed.

Lemma poll_run allow deadline seen d0 d1 l a l' a' :
  log_ok d0 -> (wants_full l a \/ follows a d0) -> observes d0 seen d1 -> lasts_until deadline seen ->
  up a -> d_faults (s_disk (a_store a)) = [] -> Z.of_nat (size (kernel a)) < 2 ^ 62 ->
  runSync_iter (ask allow deadline seen) l a = (l', a') ->
  exists d, rtc log_step d0 d /\ rtc log_step d d1 /\
    ((synced a' d /\ (wants_full l a -> ~ refused allow a d)) \/ (refused allow a d /\ kernel a' = kernel a /\ cursor a' = cursor a)).
Proof.
  intros Hl Hw Hob Hlast Hup Hf Hsz H. unfold runSync_iter, mbind at 1, state_bind at 1 in H.
  destruct (syncRequest l a) as [[[l1 persisted] q] a1] eqn:E1.
  destruct (syncRequest_spec _ _ _ _ _ _ E1) as (Hq & Hrev & _ & _ & _ & Ef & Es & Ec & _). cbn [fst snd] in H.
  assert (Ek : kernel a1 = kernel a) by (unfold kernel; congruence).
  assert (Ecu : cursor a1 = cursor a) by (unfold cursor; congruence).
  assert (Hup1 : up a1) by (unfold up; by rewrite Ef). assert (Hf1 : d_faults (s_disk (a_store a1)) = []) by (by rewrite Es).
  assert (Hsz1 : Z.of_nat (size (kernel a1)) < 2 ^ 62) by (by rewrite Ek).
  assert (Hmr : forall d, mass_revoke a1 d -> mass_revoke a d) by (intros d; unfold mass_revoke; by rewrite Ec, Ek).
  assert (Hfo : q_full q = false -> follows a d0).
  { intros Hqf. destruct Hw as [Hw|Hw]; [|done]. apply Hq in Hw. congruence. }
  destruct (authz_answers allow (q_rev q) deadline (q_full q) seen Hlast) as [r Er].
  destruct (authz_spec allow (kernel a) (q_rev q) deadline (q_full q) seen d0 d1 r Hl) as (d & D1 & D2 & Hr); [|done|done|].
  { intros Hqf. rewrite Hrev, Hqf. by apply Hfo. }
  exists d. split; [done|]. split; [done|]. unfold ask in H. rewrite Er in H.
  destruct (log_steps_spec _ _ D1 Hl) as (Hld & _).
  destruct Hr as [(-> & Hqf & Hc & Hk)|Hr].
  - left. split; [|intros Hwf; apply Hq in Hwf; congruence]. rewrite Hqf in Hrev. cbn [answer_of] in H.
    destruct (finish_spec _ _ _ _ H) as (G1 & G2 & _).
    unfold synced, kernel, cursor in *. rewrite G1, G2, Ef. split; [done|]. congruence.
  - assert (Hco : exists S, coherent S (q_rev q) d /\ q_rev q <= max_rev d /\ (q_full q = false -> S = kernel a1)).
    { destruct (q_full q) eqn:Eqf.
      - pose proof (max_rev_bound d Hld). exists (dom (DB.db_current d)). split; [|split; [lia|done]].
        right. intros x _. apply elem_of_dom.
      - destruct (follows_steps a d0 d Hl D1 (Hfo eq_refl)) as [F1 F2]. exists (kernel a). by rewrite Hrev, Ek. }
    destruct Hco as (S & Hco & Hle & HS). destruct (writeAuthz_spec allow S (q_rev q) (q_full q) d Hld Hco Hle) as (resp & Ew & R1 & R2).
    assert (Hrf : refused allow a1 d <-> refused allow a d) by (unfold refused, mass_revoke; by rewrite Ec, Ek).
    rewrite Hr, Ew in H. cbn [answer_of] in H.
    destruct (handle_answer allow l1 persisted resp a1 l' a' d Hsz1 Hup1 Hf1 R1) as [[Hs Hn]|(A1 & A2 & A3)]; [| |exact H| |].
    + intros Hnf. rewrite Hnf in R2. destruct R2 as (Hqf & _). rewrite Hqf in Hrev. rewrite Ecu, <- Hrev. done.
    + destruct (az_Full resp); [exact R2|]. destruct R2 as (Hqf & _ & R3 & R4 & R5). rewrite <- (HS Hqf). done.
    + left. split; [done|]. intros Hwf%Hq Hg%Hrf. destruct (az_Full resp); [by apply Hn|]. destruct R2 as (Hqf & _). congruence.
    + right. split; [by apply Hrf|]. split; congruence.
Qed.

(** [C1] The exit follows the backend.  One answered poll, against a database that
    goes on changing while the request is held: if the exit follows the log (or
    asks for the full set), then afterwards its kernel set is exactly the
    authorized set the backend had at some moment between the start and the end of
    the request, its cursor is the revision of that moment, and it still follows
    the log, so the next poll does the same; the only exception is a refusal of
    the mass-revoke guard, which changes nothing. *)
Theorem poll_follows_backend allow deadline seen d0 d1 l a l' a' :
  log_ok d0 -> (wants_full l a \/ follows a d0) -> observes d0 seen d1 -> lasts_until deadline seen ->
  up a -> d_faults (s_disk (a_store a)) = [] -> Z.of_nat (size (kernel a)) < 2 ^ 62 ->
  runSync_iter (ask allow deadline seen) l a = (l', a') ->
  exists d, rtc log_step d0 d /\ rtc log_step d d1 /\
    ((synced a' d /\ follows a' d1) \/
     (allow = false /\ mass_revoke a d /\ kernel a' = kernel a /\ cursor a' = cursor a)).
Proof.
  intros Hl Hw Hob Hlast Hup Hf Hsz H. destruct (poll_run _ _ _ _ _ _ _ _ _ Hl Hw Hob Hlast Hup Hf Hsz H) as (d & D1 & D2 & [[Hs _]|([? ?] & ? & ?)]);
    exists d; repeat split; try done; [|by right]. left. split; [done|]. destruct (log_steps_spec _ _ D1 Hl) as (Hld & _).
  apply (follows_steps a' d); try done. by apply synced_follows.
Qed.

(** ** Drift *)

Lemma heartbeatBuild_spec a req a1 : up a -> heartbeatBuild a = (req, a1) ->
  hr_AuthzRev req = cursor a /\ hr_SetHash req = Authzhash.OfSet (kernel a) /\
  kernel a1 = kernel a /\ up a1 /\ a_store a1 = a_store a /\ a_conf a1 = a_conf a /\ a_forceResync a1 = a_forceResync a.
Proof.
  intros Hup H. unfold heartbeatBuild, mbind, state_bind in H.
  change (on_store snapshotRuntime a) with (s_rt (a_store a), set_store (a_store a) a) in H.
  replace (set_store (a_store a) a) with a in H by (by destruct a). 
  destruct (on_fw ListAuthorized a) as [r a2] eqn:E. destruct (list_spec _ _ _ E) as (f & -> & Hs & _ & Hok & Hu).
  destruct (Hu Hup) as [Hr Hf]. destruct r as [s|]; [|done]. rewrite (Hok s eq_refl) in H.
  rewrite on_metrics_eq in H. cbn [mret state_ret get fst snd a_wg set_metrics set_fw a_conf] in H.
  destruct (a_wg a) as [w|] eqn:Ew.
  - unfold wgPublicKey, mbind, state_bind in H. cbn [get a_wgPubkey set_metrics set_fw] in H.
    destruct (negb _); [|destruct (PublicKey w) as [[pub|e] w']]; cbn in H; injection H as <- <-; cbn; repeat split; done.
  - cbn in H. injection H as <- <-. cbn. repeat split; done.
Qed.

Lemma OfSet_nonempty (s : gset Addr) : Authzhash.OfSet s <> [].
Proof.
  unfold Authzhash.OfSet, Authzhash.Of. intros E. apply (f_equal length) in E. rewrite length_HexEncode, length_take, length_sum256 in E. done.
Qed.

(** The answer of the heartbeat handler, as the client returns it. *)
Definition heartbeat_answer (cfg : handlerConfig) (nodeID : Z) (cache : authzStatus) d (req : heartbeatRequest) : option heartbeatResponse :=
  match (heartbeat cfg nodeID req cache d).1.1 with Body b => Some b | _ => None end.

Lemma heartbeat_resync cfg nodeID d00 d req : log_ok d00 -> rtc log_step d00 d ->
  exists resp, heartbeat_answer cfg nodeID (AuthzStatus no_status d00).2 d req = Some resp /\
    hb_Resync resp = drifted req (Z.of_nat (size (DB.db_current d)), Authzhash.OfSet (dom (DB.db_current d)), max_rev d).
Proof.
  intros Hl Hs. unfold heartbeat_answer, heartbeat. unfold Heartbeat, mbind, DB.store_bind, DB.inTx, DB.tx_modify, Services, DB.query.
  set (d1 := DB.set_nodes _ d). 
  set (d2 := if negb (bool_decide (hr_WgPubkey req = [])) then (Wg.SetNodeWg nodeID (hr_WgPubkey req) (hr_WgEndpoint req) d1).2
             else (Wg.ClearNodeWg nodeID d1).2).
  assert (F : DB.db_current d2 = DB.db_current d /\ DB.db_revisions d2 = DB.db_revisions d /\ DB.db_revseq d2 = DB.db_revseq d /\ DB.db_now d2 = DB.db_now d).
  { unfold d2. destruct (negb _); [unfold Wg.SetNodeWg; destruct (Wg.ValidWgKey _); [|done]; by destruct (Wg.validWgEndpoint _)|done]. }
  destruct F as (F1 & F2 & F3 & F4). pose proof (AuthzStatus_fresh d00 d2 Hl) as Hst.
  assert (Hd2 : rtc log_step d00 d2) by (eapply rtc_r; [exact Hs|]; apply step_other; done || lia). specialize (Hst Hd2).
  assert (Em : max_rev d2 = max_rev d) by (unfold max_rev; by rewrite F2).
  destruct (AuthzStatus (AuthzStatus no_status d00).2 d2) as [st c']. cbn [fst] in Hst. eexists. split; [reflexivity|].
  cbn [hb_Resync]. by rewrite Hst, F1, Em.
Qed.

(** [C18] Drift is detected, and repaired unless the repair itself is refused.  A
    heartbeat asks the agent for a resync if and only if the agent is at the
    backend's revision while its kernel set is not the authorized set, provided the
    two sets do not collide under the truncated hash.  After it has asked, the next
    answered poll, whatever the backend does meanwhile, has exactly one of two ends,
    decided by the authorized set of the moment it is answered from: the set is exact
    again; or, exactly when the mass-revoke guard refuses that set (neither side
    allows it, and it would remove more than the threshold and more than half of the
    live set), the drift stays: kernel set and cursor are as they were. *)
Theorem drift_detected_and_healed cfg nodeID d00 d a a1 :
  log_ok d00 -> rtc log_step d00 d -> up a ->
  set_Forall plain6 (kernel a) -> set_Forall plain6 (dom (DB.db_current d)) ->
  Authzhash.digest_separates (Authzhash.preimage (set_range (kernel a))) (Authzhash.preimage (set_range (dom (DB.db_current d)))) ->
  a_forceResync a = false ->
  runHeartbeat_iter (heartbeat_answer cfg nodeID (AuthzStatus no_status d00).2 d) a = (tt, a1) ->
  (a_forceResync a1 = true <-> cursor a = max_rev d /\ kernel a <> dom (DB.db_current d)) /\
  kernel a1 = kernel a /\ cursor a1 = cursor a /\
  (a_forceResync a1 = true -> forall allow deadline seen d0 d1 l l' a2,
     log_ok d0 -> observes d0 seen d1 -> lasts_until deadline seen -> d_faults (s_disk (a_store a)) = [] ->
     Z.of_nat (size (kernel a)) < 2 ^ 62 -> runSync_iter (ask allow deadline seen) l a1 = (l', a2) ->
     exists d', rtc log_step d0 d' /\ rtc log_step d' d1 /\
       (~ refused allow a d' -> synced a2 d') /\
       (refused allow a d' -> kernel a2 = kernel a /\ cursor a2 = cursor a)).
Proof.
  intros Hl Hs Hup Hp Hp' Hsep Hfr H. unfold runHeartbeat_iter, mbind at 1, state_bind at 1 in H.
  destruct (heartbeatBuild a) as [req a0] eqn:Eb. destruct (heartbeatBuild_spec _ _ _ Hup Eb) as (B1 & B2 & B3 & B4 & B5 & B6 & B7).
  destruct (heartbeat_resync cfg nodeID d00 d req Hl Hs) as (resp & Er & Ers). rewrite Er in H.
  assert (Hd : drifted req (Z.of_nat (size (DB.db_current d)), Authzhash.OfSet (dom (DB.db_current d)), max_rev d) = true <->
    cursor a = max_rev d /\ kernel a <> dom (DB.db_current d)).
  { unfold drifted. rewrite B1, B2. rewrite (bool_decide_eq_false_2 (Authzhash.OfSet (kernel a) = [])) by apply OfSet_nonempty. cbn [negb].
    destruct (cursor a =? max_rev d) eqn:Ec; bool_hyps; cbn [negb]; [|split; [done|tauto]].
    rewrite negb_true_iff, bool_decide_eq_false, (Authzhash.OfSet_detects_drift MI MI _ _ Hp Hp' Hsep). tauto. }
  assert (F : a_forceResync a1 = hb_Resync resp /\ a_fw a1 = a_fw a0 /\ a_store a1 = a_store a0 /\ a_conf a1 = a_conf a0).
  { revert H. unfold mbind, state_bind, applyConfig, checkWgConfig, modify, requestResync, mret, state_ret.
    set (x := match ac_Services (hb_Config resp) with [] => _ | _ => _ end).
    assert (X : a_fw x = a_fw a0 /\ a_store x = a_store a0 /\ a_conf x = a_conf a0 /\ a_forceResync x = a_forceResync a0)
      by (unfold x; destruct (ac_Services _); done). clearbody x. destruct X as (X1 & X2 & X3 & X4).
    set (y := match a_wg x with None => _ | Some _ => _ end).
    assert (Y : a_fw y = a_fw a0 /\ a_store y = a_store a0 /\ a_conf y = a_conf a0 /\ a_forceResync y = a_forceResync a0).
    { unfold y. destruct (a_wg x); [|done]. destruct (_ =? 0); [done|]. by destruct (bool_decide _). }
    clearbody y. destruct Y as (Y1 & Y2 & Y3 & Y4). destruct (hb_Resync resp); intros H; injection H as <-; cbn; repeat split; try done. congruence. }
  destruct F as (F1 & F2 & F3 & F4). rewrite <- Ers, <- F1 in Hd. split; [done|].
  assert (Ek : kernel a1 = kernel a) by (rewrite <- B3; unfold kernel; by rewrite F2).
  assert (Ecu : cursor a1 = cursor a) by (unfold cursor; by rewrite F3, B5).
  split; [done|]. split; [done|]. intros Hre allow deadline seen d0 d1 l l' a2 Hl0 Hob Hlast Hf Hsz Hrun.
  assert (Hup1 : up a1) by (unfold up in *; by rewrite F2). 
  destruct (poll_run allow deadline seen d0 d1 l a1 l' a2 Hl0) as (d' & D1 & D2 & D3); try done; [by left; left|by rewrite F3, B5|by rewrite Ek|].
  exists d'. split; [done|]. split; [done|].
  assert (Hrf : refused allow a1 d' <-> refused allow a d') by (unfold refused, mass_revoke; by rewrite F4, B6, Ek).
  rewrite Ek, Ecu, Hrf in D3. assert (Hwf : wants_full l a1) by by left. tauto.
Qed.

End System.
End System.
