(* ===== verification/SystemWg.v ===== *)
(** * The whole system: exits mirroring the WireGuard peers

    The agent's peer loop (agent/wg.go) run against the peer table of the API
    (backend/api.go, backend/store/wg.go): after an iteration that fetches the table
    the interface of the exit holds exactly the peers the backend has issued, and one
    at an unchanged etag leaves it alone. *)

From S2P Require Import Prelude GoStrings Netip GoNet Fipsaddr Sha256 Authzhash AgentTypes AgentStore AgentUsage Agent AgentFacts AgentWg AgentWgFacts.
From S2P Require Import BackendDB BackendAuthz BackendUsage BackendWhitelist BackendWg BackendWgFacts BackendApi.
Import Authz Wg WgFacts Api.

Module SystemWg.

(** ** The table as a promise *)

Definition text4 (a : Addr) : gostr := addr_String a ++ bs "/32".
Definition text6 (a : Addr) : gostr := addr_String a ++ bs "/128".

(** The interface entry of an issued peer: its key and its two inner addresses. *)
Definition issued_peer (pools : WgPools) (x : gostr * Z) : wgPeer :=
  {| wg_Pubkey := x.1;
     wg_AllowedIPs := sort_Strings [text4 (offset4 (Pool4 pools) x.2); text6 (offset6 (Pool6 pools) x.2)] |}.

Definition issued_row (pools : WgPools) (x : gostr * Z) : gostr * wgPeer := (x.1, issued_peer pools x).

(** The peers issued by a store, as an interface holds them. *)
Definition issued_peers (pools : WgPools) (d : DB.db) : gmap gostr wgPeer :=
  list_to_map (issued_row pools <$> wg_table d).

Lemma issued_keys pools (l : list (gostr * Z)) : (issued_row pools <$> l).*1 = l.*1.
Proof. rewrite <- list_fmap_compose. done. Qed.

Lemma table_keys pools cap d : wg_ok pools cap d -> NoDup (wg_table d).*1.
Proof. intros H. unfold wg_table. rewrite <- list_fmap_compose. apply H. Qed.

Lemma issued_peers_lookup pools cap d k p : wg_ok pools cap d ->
  issued_peers pools d !! k = Some p <-> exists i, (k, i) ∈ wg_table d /\ p = issued_peer pools (k, i).
Proof.
  intros Hd. unfold issued_peers. rewrite <- elem_of_list_to_map by (rewrite issued_keys; by eapply table_keys).
  rewrite list_elem_of_fmap. split.
  - intros ([k' i] & E & Hin). injection E as -> ->. by exists i.
  - intros (i & Hin & ->). by exists (k, i).
Qed.

(** The promise depends on the set of keys and slots only. *)
Lemma issued_peers_ext pools cap d d' : wg_ok pools cap d -> wg_ok pools cap d' ->
  (forall x, x ∈ wg_table d <-> x ∈ wg_table d') -> issued_peers pools d = issued_peers pools d'.
Proof.
  intros Hd Hd' E. apply map_eq. intros k. apply option_eq. intros p.
  rewrite (issued_peers_lookup pools cap), (issued_peers_lookup pools cap) by done. by setoid_rewrite E.
Qed.

(** ** The table as it is served *)

Section Served.
Context (text_le : relation gostr) `{!RelDecision text_le, !TotalOrder text_le}.
#[local] Existing Instance by_pubkey_dec.

Definition table_etag (pools : WgPools) (d : DB.db) : gostr :=
  etag (map (peer_view pools) (merge_sort (by_pubkey text_le) (DB.db_wgpeers d))).

(** [getWgPeers] (agent/client.go) answered by the handler on [d]. *)
Definition wg_ask (pools : WgPools) (d : DB.db) (q : gostr) : result getAuthz_err wgPeersResponse :=
  match wgPeers text_le pools q d with
  | NoContent => Err errUnchanged
  | Body b => Ok b
  | Failed _ => Err getAuthz_failed
  end.

Lemma served_rows (pools : WgPools) (l : list DB.wg_peer) (m : gmap gostr wgPeer) :
  foldl (fun out p => <[wi_Pubkey p := desiredPeer p]> out) m
    (map (fun p => {| wi_Pubkey := wp_Pubkey p; wi_Addr := addr_String (wp_FipsAddr p);
                      wi_IP4 := addr_String (wp_IP4 p) ++ bs "/32"; wi_IP6 := addr_String (wp_IP6 p) ++ bs "/128" |})
       (map (peer_view pools) l)) =
  foldl (fun m kv => <[kv.1 := kv.2]> m) m (issued_row pools <$> (pair_of <$> l)).
Proof.
  assert (N : forall a t, t <> [] -> addr_String a ++ t <> []) by (intros a t Ht [_ ?]%app_eq_nil; done).
  revert m. induction l as [|q l IH]; intros m; [done|]. cbn [map fmap list_fmap foldl]. rewrite <- IH. do 2 f_equal.
  unfold desiredPeer. cbn [wi_IP4 wi_IP6 wi_Pubkey]. rewrite !bool_decide_false by (apply N; done). done.
Qed.

Lemma wg_ask_answers pools d q :
  (table_etag pools d = q /\ wg_ask pools d q = Err errUnchanged) \/
  (table_etag pools d <> q /\ exists b, wg_ask pools d q = Ok b /\ AgentTypes.wp_Etag b = table_etag pools d /\
     forall cap, wg_ok pools cap d -> desiredPeers b = issued_peers pools d).
Proof.
  unfold wg_ask, wgPeers, WgPeerTable, DB.query. cbn [fst]. fold (table_etag pools d). case_bool_decide as E; [by left|].
  right. split; [done|]. eexists. split; [reflexivity|]. split; [done|]. intros cap Hd.
  unfold desiredPeers. cbn [AgentTypes.wp_Peers]. rewrite served_rows. fold (sorted_pairs text_le d).
  pose proof (sorted_pairs_perm text_le d) as HP.
  assert (ND : NoDup (issued_row pools <$> sorted_pairs text_le d).*1) by (rewrite issued_keys, HP; by eapply table_keys).
  rewrite foldl_insert_map by done. apply list_to_map_proper; [done|]. by rewrite HP.
Qed.

Lemma table_etag_nonempty pools d : table_etag pools d <> [].
Proof.
  unfold table_etag, etag. intros E. apply (f_equal length) in E. rewrite length_HexEncode, length_take, length_sum256 in E. done.
Qed.
End Served.

(** ** What the interface can hold *)

(** The texts end differently, and an address has only one text. *)
Lemma text4_text6 a b : text4 a <> text6 b.
Proof.
  intros E. apply (f_equal reverse) in E. unfold text4, text6 in E. rewrite !reverse_app in E. vm_compute (reverse (bs _)) in E.
  done.
Qed.

Lemma text_inj t a b : addr_wf a -> addr_wf b -> addr_String a ++ t = addr_String b ++ t -> a = b.
Proof. intros Ha Hb E. apply app_inv_tail in E. by apply addr_String_inj. Qed.

Lemma issued_ips pools x ip : ip ∈ wg_AllowedIPs (issued_peer pools x) <->
  ip = text4 (offset4 (Pool4 pools) x.2) \/ ip = text6 (offset6 (Pool6 pools) x.2).
Proof.
  cbn [wg_AllowedIPs issued_peer]. rewrite sort_Strings_perm, !elem_of_cons. split; [|tauto].
  intros [?|[?|?%not_elem_of_nil]]; tauto.
Qed.

(** The row of a peer in the table. *)
Lemma table_row pools cap d x : wg_ok pools cap d -> x ∈ wg_table d -> exists q, q ∈ DB.db_wgpeers d /\ x = pair_of q /\ peer_ok pools d q.
Proof.
  intros Hd (q & -> & Hq)%list_elem_of_fmap. exists q. split; [done|]. split; [done|]. pose proof (go_rows _ _ _ Hd) as H.
  rewrite Forall_forall in H. by apply H.
Qed.

Lemma issued_exclusive pools cap d : pools_ok pools -> wg_ok pools cap d -> exclusive (issued_peers pools d).
Proof.
  intros Hp Hd k k' p p' H H' Hne ip Hi Hi'. apply (issued_peers_lookup pools cap) in H as (i & Hin & ->), H' as (i' & Hin' & ->); [|done..].
  destruct (table_row pools cap d _ Hd Hin) as (q & Hq & Eq & Oq), (table_row pools cap d _ Hd Hin') as (q' & Hq' & Eq' & Oq').
  assert (E : i = i' -> False).
  { intros <-. apply Hne. pose proof (NoDup_key_inj DB.wq_idx _ q q' (go_idx _ _ _ Hd) Hq Hq') as K. unfold pair_of in *.
    injection Eq as -> ->. injection Eq' as -> Ei. by rewrite (K Ei). }
  pose proof (pair_entry_ok pools d q Hp Oq) as (_ & [W4 _] & [W6 _]). pose proof (pair_entry_ok pools d q' Hp Oq') as (_ & [W4' _] & [W6' _]).
  rewrite <- Eq in W4, W6. rewrite <- Eq' in W4', W6'. cbn [pair_entry fst snd] in *. apply issued_ips in Hi, Hi'. cbn [fst snd] in *.
  pose proof (peer_view_addrs pools q Hp (proj1 Oq)) as [A4 A6]. pose proof (peer_view_addrs pools q' Hp (proj1 Oq')) as [A4' A6'].
  cbn [peer_view wp_IP4 wp_IP6] in *. unfold pair_of in *. injection Eq as _ ->. injection Eq' as _ ->.
  destruct Hi as [-> | ->], Hi' as [Ei|Ei]; [|by apply text4_text6 in Ei|by symmetry in Ei; apply text4_text6 in Ei|];
    (apply text_inj in Ei; [|done..]); rewrite ?A4, ?A4', ?A6, ?A6' in Ei; injection Ei as Ei; apply E; lia.
Qed.

Section Mirror.
Context (text_le : relation gostr) `{!RelDecision text_le, !TotalOrder text_le}.
Context `{MI : MapIter} `{FW : Firewall} `{WG : WgIface}.
#[local] Existing Instance by_pubkey_dec.
Implicit Types (a : Agent) (d : DB.db) (w : wg).

(** What is asked of the tool for these pools: it takes every valid key with the
    two host prefixes of a slot, and prints those prefixes as they are given. *)
Definition tool_takes (pools : WgPools) (w : wg) : Prop :=
  forall k i, ValidWgKey k = true -> 2 <= i <= slots pools + 1 ->
    wg_rejects w (issued_peer pools (k, i)) = false /\
    wg_plain (text4 (offset4 (Pool4 pools) i)) /\ wg_plain (text6 (offset6 (Pool6 pools) i)).

Lemma issued_accepted pools cap d w : wg_ok pools cap d -> tool_takes pools w ->
  map_Forall (fun _ p => wg_rejects w p = false) (issued_peers pools d).
Proof.
  intros Hd Ht k p H. apply (issued_peers_lookup pools cap) in H as (i & Hin & ->); [|done].
  destruct (table_row pools cap d _ Hd Hin) as (q & _ & Eq & Oi & Ok & _). injection Eq as -> ->. by apply Ht.
Qed.

Lemma issued_servable pools cap d w b : pools_ok pools -> wg_ok pools cap d -> tool_takes pools w ->
  desiredPeers b = issued_peers pools d -> servable w b.
Proof.
  intros Hp Hd Ht E. unfold servable. rewrite E. split; [|by eapply issued_exclusive].
  intros k p H _. apply (issued_peers_lookup pools cap) in H as (i & Hin & ->); [|done].
  destruct (table_row pools cap d _ Hd Hin) as (q & _ & Eq & Oi & Ok & _). injection Eq as -> ->.
  destruct (Ht _ _ Ok Oi) as (_ & H4 & H6). cbn [fst snd]. split; [|split].
  - apply sort_Strings_sorted.
  - cbn [wg_AllowedIPs issued_peer fst snd]. rewrite sort_Strings_perm. apply NoDup_cons. split; [|apply NoDup_singleton].
    intros E0%list_elem_of_singleton. by apply text4_text6 in E0.
  - cbn [wg_AllowedIPs issued_peer fst snd]. rewrite sort_Strings_perm. by repeat constructor.
Qed.

(** The table of [d] as the handler hashes it. *)
Definition table_input (pools : WgPools) (d : DB.db) : list Z :=
  etag_input (map (peer_view pools) (merge_sort (by_pubkey text_le) (DB.db_wgpeers d))).

(** The periodic pass that asks for the table without an etag. *)
Definition full_pass_due (l : wgLoop) (a : Agent) : Prop :=
  0 < p_fullSyncEvery (a_conf a) <= time_Sub (clock a) (wl_lastFull l).

(** The table is fetched: no etag is held, the full pass is due, or the etag held
    is not the table's. *)
Definition table_fetched (pools : WgPools) (l : wgLoop) (a : Agent) (d : DB.db) : Prop :=
  a_wgEtag a = [] \/ full_pass_due l a \/ a_wgEtag a <> table_etag text_le pools d.

(** The interface holds the peers of a store whose etag is held, and that etag tells
    its table from the one of [d]. *)
Definition mirrored_before (pools : WgPools) (cap : Z) (a : Agent) (w : wg) (d : DB.db) : Prop :=
  exists d0, wg_reachable pools cap d0 /\ a_wgEtag a = table_etag text_le pools d0 /\ wg_peers w = issued_peers pools d0 /\
    Authzhash.digest_separates (table_input pools d0) (table_input pools d).

#[export] Instance full_pass_due_dec l a : Decision (full_pass_due l a).
Proof. unfold full_pass_due. apply _. Defined.
#[export] Instance table_fetched_dec pools l a d : Decision (table_fetched pools l a d).
Proof. unfold table_fetched. apply _. Defined.

(** The etag of the request: empty when the full pass is due. *)
Lemma wgRequest_spec l a etag a1 : wgRequest l a = (etag, a1) ->
  a_wg a1 = a_wg a /\ a_conf a1 = a_conf a /\ a_wgEtag a1 = a_wgEtag a /\
  (etag = [] \/ etag = a_wgEtag a) /\
  (full_pass_due l a -> etag = []) /\
  (a_wgEtag a <> [] -> ~ full_pass_due l a -> etag = a_wgEtag a).
Proof.
  unfold full_pass_due. unfold wgRequest, mbind, state_bind, mret, state_ret, get. destruct (0 <? _) eqn:E0.
  - destruct (now_eq a) as (e & -> & _). destruct (_ <=? _) eqn:E1; intros [= <- <-]; bool_hyps;
      (split; [done|]; split; [done|]; split; [done|]; split; [auto|]; split; [intros; done || lia|intros _ Hn; done || (exfalso; lia)]).
  - intros [= <- <-]. bool_hyps.
    split; [done|]; split; [done|]; split; [done|]; split; [auto|]; split; [lia|done].
Qed.

(** An unchanged etag means an unchanged table. *)
Lemma mirrored_unchanged pools cap a w d : pools_ok pools -> 0 < cap -> wg_ok pools cap d -> mirrored_before pools cap a w d ->
  a_wgEtag a = table_etag text_le pools d -> wg_peers w = issued_peers pools d.
Proof.
  intros Hp Hc Hd (d0 & H0 & He & -> & Hsep) E. apply wg_reachable_ok in H0; [|done..]. eapply issued_peers_ext; [done..|].
  apply (etag_table_iff text_le pools cap d0 d _ _ _ _ Hp H0 Hd eq_refl eq_refl Hsep). by rewrite He in E.
Qed.

(** A fetched table is put on the interface. *)
Lemma fetched_applied pools cap d l l' a a' w : pools_ok pools -> wg_ok pools cap d -> wg_up w -> a_wg a = Some w -> tool_takes pools w ->
  table_fetched pools l a d -> runWgSync_iter (wg_ask text_le pools d) w l a = (l', a') ->
  exists w', a_wg a' = Some w' /\ wg_up w' /\ wg_rejects w' = wg_rejects w /\
    wg_peers w' = issued_peers pools d /\ a_wgEtag a' = table_etag text_le pools d /\
    wl_backoff l' = 0 /\ wl_sleep l' = p_wgSyncEvery (a_conf a).
Proof.
  intros Hp Hd Hu Hw Ht Hs E. unfold runWgSync_iter, mbind, state_bind in E.
  destruct (wgRequest l a) as [q a1] eqn:Eq. apply wgRequest_spec in Eq as (W1 & C1 & T1 & Hq & Hdue & _).
  unfold wgHandle, mbind, state_bind, get, mret, state_ret in E.
  destruct (wg_ask_answers text_le pools d q) as [[Et Ea]|(Et & b & Ea & Eb & Ed)]; rewrite Ea in E.
  - exfalso. assert (Hne : q <> []) by (intros ->; by apply table_etag_nonempty in Et).
    destruct Hq as [?|Hq]; [done|]. destruct Hs as [He|[Hs|Hs]]; [congruence|by rewrite Hdue in Hne|congruence].
  - specialize (Ed cap Hd). pose proof (issued_servable pools cap d w b Hp Hd Ht Ed) as Hv.
    destruct (applyWgPeers_exact b w a1 Hu Hv) as (a2 & w' & E2 & W2 & U2 & R2 & P2 & C2 & T2);
      [rewrite Ed; by eapply issued_accepted|]. rewrite E2 in E. exists w'. rewrite Ed in P2. rewrite Eb in T2.
    destruct (bool_decide (q = [])); [|injection E as <- <-; rewrite C1; done].
    destruct (now_eq a2) as (e & E3 & _). rewrite E3 in E. injection E as <- <-. rewrite C1. done.
Qed.

(** Otherwise the answer is a 204 and the interface is not looked at. *)
Lemma not_fetched_untouched pools d l l' a a' w : a_wg a = Some w -> ~ table_fetched pools l a d ->
  runWgSync_iter (wg_ask text_le pools d) w l a = (l', a') ->
  a_wg a' = Some w /\ a_wgEtag a' = a_wgEtag a /\ wl_backoff l' = 0 /\ wl_sleep l' = p_wgSyncEvery (a_conf a).
Proof.
  unfold table_fetched. intros Hw Hn E. unfold runWgSync_iter, mbind, state_bind in E.
  destruct (wgRequest l a) as [q a1] eqn:Eq. apply wgRequest_spec in Eq as (W1 & C1 & T1 & _ & _ & Hq).
  rewrite Hq in E by tauto. unfold wgHandle, mbind, state_bind, get, mret, state_ret in E.
  destruct (wg_ask_answers text_le pools d (a_wgEtag a)) as [[Et Ea]|(Et & b & Ea & Eb & Ed)]; [|exfalso; apply Hn; auto].
  rewrite Ea in E. injection E as <- <-. by rewrite W1, T1, C1.
Qed.

(** [C15] One iteration of the peer loop against the backend, with a tool that takes
    every valid key with the prefixes of these pools.  When the table is fetched (no
    etag is held, the full pass is due, or the etag held is not the table's), then,
    whatever was on the interface before, it holds exactly the peers the backend has
    issued, each with its own key and its two inner addresses, and the agent holds
    the etag of that table.  When it is not fetched (the backend answers that the
    etag is unchanged), interface and etag stay as they are: what drifted out of band
    waits for the full pass; and if the interface held the table whose etag is held,
    then it holds the issued peers still, unless the two tables collide under the
    truncated hash.  Either way the loop waits its normal period with its backoff
    reset. *)
Theorem wg_sync_mirrors pools cap d l l' a a' w :
  pools_ok pools -> 0 < cap -> wg_reachable pools cap d -> wg_up w -> a_wg a = Some w -> tool_takes pools w ->
  runWgSync_iter (wg_ask text_le pools d) w l a = (l', a') ->
  wl_backoff l' = 0 /\ wl_sleep l' = p_wgSyncEvery (a_conf a) /\
  (table_fetched pools l a d ->
     exists w', a_wg a' = Some w' /\ wg_up w' /\ wg_rejects w' = wg_rejects w /\
       wg_peers w' = issued_peers pools d /\ a_wgEtag a' = table_etag text_le pools d) /\
  (~ table_fetched pools l a d ->
     a_wg a' = Some w /\ a_wgEtag a' = a_wgEtag a /\ a_wgEtag a = table_etag text_le pools d /\
     (mirrored_before pools cap a w d -> wg_peers w = issued_peers pools d)).
Proof.
  intros Hp Hc Hd%wg_reachable_ok Hu Hw Ht E; [|done..].
  destruct (decide (table_fetched pools l a d)) as [Hf|Hn].
  - destruct (fetched_applied pools cap d l l' a a' w Hp Hd Hu Hw Ht Hf E) as (w' & H1 & H2 & H3 & H4 & H5 & H6 & H7).
    repeat (split; [done|]). split; [intros _; by exists w'|done].
  - destruct (not_fetched_untouched pools d l l' a a' w Hw Hn E) as (H1 & H2 & H3 & H4).
    assert (Et : a_wgEtag a = table_etag text_le pools d).
    { destruct (decide (a_wgEtag a = table_etag text_le pools d)); [done|]. exfalso. apply Hn. by right; right. }
    split; [done|]. split; [done|]. split; [done|]. intros _. split; [done|]. split; [done|]. split; [done|].
    intros Hm. by eapply mirrored_unchanged.
Qed.
End Mirror.
End SystemWg.
