(* ===== verification/SystemWire.v ===== *)
(** * The whole system: the agent's requests on the wire

    The requests of agent/client.go, as method, URL, headers and the bytes of the
    body, routed and read by the backend (the patterns of [mountPublic] in
    backend/main.go, the queries of [authz] and [wgPeers] and the bodies [decode] and
    [decodeQuiet] read in backend/api.go, up to their limit), and the bytes of its
    answers read by the client. *)

From S2P Require Import Prelude GoStrings GoJson Nostr GoText Netip GoNet Sha256 RateLimit Tokens AgentTypes AgentStore AgentUsage Agent AgentFacts AgentClient.
From S2P Require Import BackendDB BackendAuthz BackendAuthzFacts BackendUsage BackendWhitelist BackendPayments BackendCashu BackendWg BackendWgFacts.
From S2P Require Import BackendSummary BackendApi BackendApiFacts BackendAdmin BackendFrame Portal Backend System SystemWg.
Import Api Backend.Backend Client Json JsonText Nostr.

Module Wire.

(** ** Queries *)

(** The digits of a number as [strconv.ParseUint] reads them: reading stops with
    the largest value at the digit that overflows. *)
Fixpoint parse_sat (acc : Z) (s : gostr) : option Z :=
  match s with
  | [] => Some acc
  | c :: r =>
      d ← digit_val c;
      if 10 <=? d then None else
      if 2 ^ 64 <=? acc * 10 + d then Some (2 ^ 64 - 1) else parse_sat (acc * 10 + d) r
  end.
Definition digits_value (s : gostr) : Z := match s with [] => 0 | _ => default 0 (parse_sat 0 s) end.

(** [v, _ := strconv.ParseInt(s, 10, 64)]: 0 for what is no number, the nearest
    bound for one out of range. *)
Definition ParseInt_value (s : gostr) : Z :=
  match s with
  | 45 :: r => Z.max (- 2 ^ 63) (- digits_value r)
  | 43 :: r => Z.min (2 ^ 63 - 1) (digits_value r)
  | _ => Z.min (2 ^ 63 - 1) (digits_value s)
  end.

(** The cursor, the hold in seconds and the [full] flag of an authz query. *)
Definition authz_params (q : gostr) : Z * Z * bool :=
  (ParseInt_value (QueryGet q (bs "rev")), authz_wait (ParseInt_value (QueryGet q (bs "wait"))),
   bool_decide (QueryGet q (bs "full") = bs "1") || bool_decide (QueryGet q (bs "full") = bs "true")).

(** ** Routes *)

Inductive node_call := nc_enroll | nc_authz | nc_usage | nc_heartbeat | nc_wg.

(** A path segment that the mux takes as it is written. *)
Definition plain_segment (s : gostr) : bool :=
  negb (bool_decide (s = [])) && negb (bool_decide (s = bs ".")) && negb (bool_decide (s = bs "..")) && forallb unreserved s.

Definition node_route (method path : gostr) : option (node_call * gostr) :=
  match Split 47 path with
  | [root; v; nodes; id; call] =>
      if bool_decide (root = [] /\ v = bs "v1" /\ nodes = bs "nodes") && plain_segment id then
        if bool_decide (method = bs "GET") then
          if bool_decide (call = bs "authz") then Some (nc_authz, id)
          else if bool_decide (call = bs "wg") then Some (nc_wg, id) else None
        else if bool_decide (method = bs "POST") then
          if bool_decide (call = bs "usage") then Some (nc_usage, id)
          else if bool_decide (call = bs "heartbeat") then Some (nc_heartbeat, id) else None
        else None
      else None
  | [root; v; nodes; call] =>
      if bool_decide (root = [] /\ v = bs "v1" /\ nodes = bs "nodes" /\ call = bs "enroll" /\ method = bs "POST")
      then Some (nc_enroll, []) else None
  | _ => None
  end.

Definition zero_heartbeatRequest : heartbeatRequest :=
  {| hr_Version := []; hr_AuthzRev := 0; hr_SetSize := 0; hr_SetHash := []; hr_WgPubkey := []; hr_WgEndpoint := [] |}.

(** ** Bodies *)

Definition maxBody : Z := Z.shiftl 1 20.

(** The first value of what [http.MaxBytesReader] and [io.LimitReader] let through. *)
Definition body_value (body : option gostr) : option jvalue := b ← body; Decode (Limit maxBody b).

Definition sample_of (v : jvalue) : option usageSample :=
  l ← as_struct v;
  service ← strict as_string (bs "service") l; a ← strict as_addr (bs "addr") l; n ← strict (as_uint 64) (bs "bytes") l;
  Some {| us_Service := service; us_Addr := a; us_Bytes := n |}.

(** A text that is no time is the zero time. *)
Definition window_end (s : gostr) : Z := default (- unix_epoch) (Rfc3339.Parse s).

Definition usage_of (v : jvalue) : option usageReport :=
  l ← as_struct v;
  id ← strict as_string (bs "report_id") l; epoch ← strict as_string (bs "counter_epoch") l;
  w ← strict as_string (bs "window_end") l; samples ← strict (as_list sample_of) (bs "samples") l;
  Some {| ur_ReportID := id; ur_CounterEpoch := epoch; ur_WindowEnd := window_end w; ur_Samples := samples |}.

Definition enroll_of (v : jvalue) : option enrollRequest :=
  l ← as_struct v;
  token ← strict as_string (bs "enroll_token") l; key ← strict as_string (bs "node_pubkey") l; name ← strict as_string (bs "name") l;
  Some {| er_EnrollToken := token; er_NodePubkey := key; er_Name := name |}.

(** [decodeQuiet] of a heartbeat: what does not decode stays at its zero value. *)
Definition heartbeat_of (v : option jvalue) : heartbeatRequest :=
  match v with
  | Some (jobj l) =>
      {| hr_Version := lenient [] as_string (bs "version") l; hr_AuthzRev := lenient 0 (as_int 64) (bs "authz_rev") l;
         hr_SetSize := lenient 0 (as_int 64) (bs "set_size") l; hr_SetHash := lenient [] as_string (bs "set_hash") l;
         hr_WgPubkey := lenient [] as_string (bs "wg_pubkey") l; hr_WgEndpoint := lenient [] as_string (bs "wg_endpoint") l |}
  | _ => zero_heartbeatRequest
  end.

(** The endpoint a request reaches, of [target] the path and query: with the time of
    its arrival, the observations of a long poll and the random bytes of an
    enrollment.  Where [decode] fails, the endpoint has no request. *)
Definition endpoint_of (now : Z) (seen : list (DB.db * DB.db * Z)) (rnd : list Z) (method target : gostr) (body : option gostr) : option endpoint :=
  let q := RawQuery target in
  match node_route method (match Cut target 63 with Some (p, _) => p | None => target end) with
  | Some (nc_enroll, _) => Some (ep_enroll (v ← body_value body; enroll_of v) rnd)
  | Some (nc_authz, id) => let '(rev, wait, full) := authz_params q in Some (ep_authz id rev (now + wait * time_Second) full seen)
  | Some (nc_usage, id) => Some (ep_usage id (v ← body_value body; usage_of v))
  | Some (nc_heartbeat, id) => Some (ep_heartbeat id (heartbeat_of (body_value body)))
  | Some (nc_wg, id) => Some (ep_wg id (QueryGet q (bs "etag")))
  | None => None
  end.

(** ** Responses *)

(** A slice that is nil when it is empty. *)
Definition jslice (l : list jvalue) : jvalue := match l with [] => jnull | _ => jarr l end.

Definition enrolled_json (r : enrollResponse) : jvalue := jobj [(bs "auth_token", jstr (en_AuthToken r)); (bs "node_id", jstr (en_NodeID r))].

Definition member_json (m : authzMember) : jvalue := jobj [(bs "addr", jstr (addr_text (am_Addr m))); (bs "account", jstr (am_Account m))].

(** The two answers of [writeAuthz]; the keys of a map are marshalled in order. *)
Definition authz_json (r : authzResponse) : jvalue :=
  if az_Full r
  then jobj [(bs "addresses", jarr (map member_json (az_Addresses r))); (bs "force", jbool (az_Force r)); (bs "full", jbool true); (bs "rev", jnum (az_Rev r))]
  else jobj [(bs "add", jarr (map member_json (az_Add r))); (bs "del", jslice (map (fun a => jstr (addr_text a)) (az_Del r))); (bs "rev", jnum (az_Rev r))].

Definition ack_json (r : usageAck) : jvalue :=
  jobj [(bs "ack", jstr (ua_Ack r)); (bs "revoke", jslice (map (fun a => jstr (addr_text a)) (ua_Revoke r)))].

Definition peer_json (p : wgPeerInfo) : jvalue :=
  jobj [(bs "addr", jstr (wi_Addr p)); (bs "ip4", jstr (wi_IP4 p)); (bs "ip6", jstr (wi_IP6 p)); (bs "pubkey", jstr (wi_Pubkey p))].
Definition peers_json (r : wgPeersResponse) : jvalue :=
  jobj [(bs "etag", jstr (AgentTypes.wp_Etag r)); (bs "peers", jarr (map peer_json (AgentTypes.wp_Peers r)))].

Definition service_json (s : serviceInfo) : jvalue := jobj [(bs "key", jstr (si_Key s)); (bs "port", jnum (si_Port s))].
Definition wg_json (w : wgConfig) : jvalue :=
  jobj [(bs "pool4", jstr (wc_Pool4 w)); (bs "pool6", jstr (wc_Pool6 w)); (bs "port", jnum (wc_Port w))].
Definition config_json (c : agentConfig) : jvalue :=
  jobj [(bs "grace_minutes", jnum (ac_GraceMinutes c)); (bs "services", jarr (map service_json (ac_Services c)));
        (bs "usage_interval_s", jnum (ac_UsageIntervalS c)); (bs "wg", wg_json (ac_Wg c))].
Definition resync_json (r : heartbeatResponse) : jvalue := jobj [(bs "config", config_json (hb_Config r)); (bs "resync", jbool (hb_Resync r))].

(** [writeJSON]; the text of an error is not represented, no agent reads it. *)
Definition respond {A} (to_json : A -> jvalue) (r : reply A) : Z * gostr :=
  match r with NoContent => (204, []) | Body a => (200, Marshal (to_json a) ++ [10]) | Failed s => (s, []) end.

(** The answers to agents; the pages, the hooks and the admin API answer other
    clients. *)
Definition answer_text (x : answer_of) : Z * gostr :=
  match x with
  | an_plain s => (s, [])
  | an_enroll r => respond enrolled_json r
  | an_authz r => respond authz_json r
  | an_usage r => respond ack_json r
  | an_heartbeat r => respond resync_json r
  | an_wg r => respond peers_json r
  | an_hook _ | an_portal _ _ | an_admin _ => (200, [])
  end.

(** *** Messages

    What the sender marshals is an object that the receiver reads back. *)

Lemma ascii_valid s : Forall (fun c => 0 <= c < 128) s -> ValidString s.
Proof.
  intros HF. split; [|eapply Forall_impl; [exact HF|]; intros c [H0 H1]; unfold in_u8; change (2 ^ 8) with 256; lia].
  induction HF as [|c s [H0 H1] _ IH]; [done|]. cbn [length valid_utf8 DecodeRune]. by rewrite (proj2 (Z.ltb_lt _ _)) by lia.
Qed.

Lemma literal_valid s : bool_decide (Forall (fun c => 0 <= c < 128) (bs s)) = true -> ValidString (bs s).
Proof. intros H. by apply ascii_valid, (bool_decide_eq_true_1 _). Qed.

(** An address with a text, or none. *)
Definition text_addr (a : Addr) : Prop := a = AddrZero \/ (addr_wf a /\ zoneless a).

Lemma addr_text_chars a : text_addr a -> Forall (fun c => 0 <= c < 128) (addr_text a).
Proof.
  intros [->|[Hw Hz]]; [constructor|]. destruct a as [|v|v z]; [done| |]; (eapply Forall_impl; [exact (addr_String_chars _ Hw Hz)|]);
    intros c; unfold addr_char, hex_char, colon, dot; lia.
Qed.

Lemma as_addr_text a : text_addr a -> as_addr (jstr (addr_text a)) = Some a.
Proof.
  intros [->|[Hw Hz]]; [done|]. assert (E : addr_text a = addr_String a) by (by destruct a). unfold as_addr. rewrite E.
  rewrite bool_decide_false; [by apply ParseAddr_String|]. intros E0. apply (f_equal ParseAddr) in E0. rewrite ParseAddr_String in E0 by done. done.
Qed.

(** Reading the fields off an object in which no name occurs twice. *)
Lemma strict_skip {A} (as_ : jvalue -> option A) key k v l : bool_decide (ToLower k = key) = false -> strict as_ key ((k, v) :: l) = strict as_ key l.
Proof. intros H%bool_decide_eq_false. unfold strict, given. by rewrite filter_cons_False. Qed.
Lemma strict_here {A} (as_ : jvalue -> option A) key k v l z :
  bool_decide (ToLower k = key) = true -> given key l = [] -> as_ jnull = Some z -> strict as_ key ((k, v) :: l) = as_ v.
Proof.
  intros H%bool_decide_eq_true Hl Hz. unfold strict, given in *. rewrite filter_cons_True by done. cbn [map]. rewrite Hl. cbn. rewrite Hz.
  by destruct v.
Qed.
Lemma lenient_skip {A} zero (as_ : jvalue -> option A) key k v l : bool_decide (ToLower k = key) = false ->
  lenient zero as_ key ((k, v) :: l) = lenient zero as_ key l.
Proof. intros H%bool_decide_eq_false. unfold lenient, given. by rewrite filter_cons_False. Qed.
Lemma lenient_here {A} (zero x : A) as_ key k v l : bool_decide (ToLower k = key) = true -> given key l = [] -> v <> jnull -> as_ v = Some x ->
  lenient zero as_ key ((k, v) :: l) = x.
Proof.
  intros H%bool_decide_eq_true Hl Hn Hx. unfold lenient, given in *. rewrite filter_cons_True by done. cbn [map]. rewrite Hl. cbn. rewrite Hx.
  by destruct v.
Qed.

Ltac read_fields := repeat first [rewrite strict_skip by reflexivity|erewrite strict_here; [|reflexivity|reflexivity|reflexivity]]; cbn [as_string as_bool mbind option_bind].

Lemma mapM_map {A B} (f : jvalue -> option A) (g : B -> jvalue) (h : B -> A) l : Forall (fun x => f (g x) = Some (h x)) l -> mapM f (map g l) = Some (map h l).
Proof. induction 1 as [|x l Hx _ IH]; [done|]. cbn [map mapM]. rewrite Hx. cbn. by rewrite IH. Qed.

Lemma as_list_map {A} (f : jvalue -> option A) (g : A -> jvalue) l : Forall (fun x => f (g x) = Some x) l -> as_list f (jarr (map g l)) = Some l.
Proof. intros H. cbn [as_list]. rewrite (mapM_map f g id) by exact H. by rewrite map_id. Qed.

Lemma as_list_slice {A} (f : jvalue -> option A) (g : A -> jvalue) l : Forall (fun x => f (g x) = Some x) l -> as_list f (jslice (map g l)) = Some l.
Proof. intros H. destruct l as [|x l]; [done|]. by apply as_list_map. Qed.

Lemma textual_map {A} (g : A -> jvalue) l : Forall (fun x => textual (g x)) l -> textual (jarr (map g l)).
Proof. intros H. apply textual_arr. by rewrite Forall_map. Qed.
Lemma textual_slice {A} (g : A -> jvalue) l : Forall (fun x => textual (g x)) l -> textual (jslice (map g l)).
Proof. intros H. destruct l as [|x l]; [done|]. by apply textual_map. Qed.

Lemma nesting_map {A} (g : A -> jvalue) n l : 0 <= n -> (forall x, nesting (g x) <= n) -> nesting (jarr (map g l)) <= n + 1.
Proof. intros Hn H. cbn [nesting]. induction l as [|x l IH]; cbn; [lia|]. specialize (H x). lia. Qed.
Lemma nesting_slice {A} (g : A -> jvalue) n l : 0 <= n -> (forall x, nesting (g x) <= n) -> nesting (jslice (map g l)) <= n + 1.
Proof. intros Hn H. destruct l as [|x l]; [cbn; lia|]. by apply nesting_map. Qed.

Class Message (A : Type) := {
  to_json : A -> jvalue;
  from_json : jvalue -> option A;
  readable : A -> Prop;
  to_object x : exists l, to_json x = jobj l;
  to_textual x : readable x -> textual (to_json x);
  to_shallow x : nesting (to_json x) <= 4;
  from_to x : readable x -> from_json (to_json x) = Some x
}.

(** A message within the limit is read; beyond it, nothing is. *)
Lemma message_limited `{Message A} x : readable x ->
  body_value (Some (Marshal (to_json x))) = if Z.of_nat (length (Marshal (to_json x))) <=? maxBody then Some (to_json x) else None.
Proof.
  intros Hx. unfold body_value. cbn [mbind option_bind]. pose proof (to_textual x Hx) as Ht. pose proof (to_shallow x) as Hs.
  destruct (to_object x) as [l E]. rewrite E in *. apply Decode_Limit; [done|]. unfold maxNestingDepth. lia.
Qed.

Lemma message_read `{Message A} x t : readable x -> stops t -> (v ← Decode (Marshal (to_json x) ++ t); from_json v) = Some x.
Proof.
  intros Hx Ht. pose proof (to_shallow x). rewrite Decode_Marshal; [by apply from_to|by apply to_textual|unfold maxNestingDepth; lia|done].
Qed.

(** The agent's requests. *)
Ltac fields := apply textual_obj; repeat (apply Forall_cons; split); [..|by apply Forall_nil]; (split; [by apply literal_valid|try done]).

Definition sample_readable (x : usageSample) : Prop := ValidString (us_Service x) /\ text_addr (us_Addr x) /\ in_u64 (us_Bytes x).

Lemma as_uint_jnum bits n : 0 <= n < 2 ^ bits -> as_uint bits (jnum n) = Some n.
Proof. intros [H1 H2]. cbn [as_uint]. by rewrite (proj2 (Z.leb_le _ _)), (proj2 (Z.ltb_lt _ _)). Qed.
Lemma as_int_jnum n : in_i64 n -> as_int 64 (jnum n) = Some n.
Proof.
  unfold in_i64, int64_min, int64_max. intros [H1 H2]. cbn [as_int]. change (64 - 1) with 63.
  rewrite (proj2 (Z.leb_le _ _)) by lia. by rewrite (proj2 (Z.ltb_lt _ _)) by lia.
Qed.

Lemma addr_valid a : text_addr a -> ValidString (addr_text a).
Proof. intros H. by apply ascii_valid, addr_text_chars. Qed.

Lemma sample_from_to x : sample_readable x -> sample_of (sample_json x) = Some x.
Proof.
  intros (H1 & H2 & H3). unfold sample_of, sample_json. cbn [as_struct mbind option_bind]. read_fields.
  rewrite as_addr_text by done. cbn [mbind option_bind]. rewrite as_uint_jnum by done. by destruct x.
Qed.

Lemma sample_textual x : sample_readable x -> textual (sample_json x).
Proof. intros (H1 & H2 & H3). pose proof (addr_valid _ H2). unfold sample_json. fields. Qed.

#[export] Program Instance usage_message : Message usageReport := {|
  to_json := usage_json; from_json := usage_of;
  readable r := ValidString (ur_ReportID r) /\ ValidString (ur_CounterEpoch r) /\ Rfc3339.four_digit_years (ur_WindowEnd r) /\ Forall sample_readable (ur_Samples r)
|}.
Next Obligation. intros x. by eexists. Qed.
Next Obligation.
  intros x (H1 & H2 & H3 & H4). assert (Hs : textual (jarr (map sample_json (ur_Samples x)))).
  { apply textual_map. eapply Forall_impl; [exact H4|]. apply sample_textual. }
  assert (Ht : ValidString (Rfc3339.Format (ur_WindowEnd x))) by (by apply ascii_valid, Rfc3339.Format_chars).
  unfold usage_json. fields.
Qed.
Next Obligation.
  intros x. pose proof (nesting_map sample_json 1 (ur_Samples x) ltac:(lia) ltac:(intros; cbn; lia)) as H. unfold usage_json.
  cbn [nesting foldr fst snd] in *. lia.
Qed.
Next Obligation.
  intros x (H1 & H2 & H3 & H4). unfold usage_of, usage_json. cbn [as_struct mbind option_bind]. read_fields.
  rewrite as_list_map by (eapply Forall_impl; [exact H4|]; apply sample_from_to). cbn [mbind option_bind]. unfold window_end.
  rewrite Rfc3339.Parse_Format by done. by destruct x.
Qed.

#[export] Program Instance enroll_message : Message enrollRequest := {|
  to_json := enroll_json; from_json := enroll_of;
  readable r := ValidString (er_EnrollToken r) /\ ValidString (er_NodePubkey r) /\ ValidString (er_Name r)
|}.
Next Obligation. intros x. by eexists. Qed.
Next Obligation. intros x (H1 & H2 & H3). unfold enroll_json. fields. Qed.
Next Obligation. intros x. cbn. lia. Qed.
Next Obligation.
  intros x (H1 & H2 & H3). unfold enroll_of, enroll_json. cbn [as_struct mbind option_bind]. read_fields. by destruct x.
Qed.

(** A heartbeat: a field left out is read as the empty string it is. *)
Definition heartbeat_readable (r : heartbeatRequest) : Prop :=
  ValidString (hr_Version r) /\ in_i64 (hr_AuthzRev r) /\ in_i64 (hr_SetSize r) /\
  ValidString (hr_SetHash r) /\ ValidString (hr_WgPubkey r) /\ ValidString (hr_WgEndpoint r).

Lemma omitempty_valid key s : ValidString key -> ValidString s -> Forall (fun kv => ValidString kv.1 /\ textual kv.2) (omitempty key s).
Proof. intros Hk Hs. unfold omitempty. case_bool_decide; [by apply Forall_nil|]. by apply Forall_singleton. Qed.

Lemma omitempty_given key key' s : given key (omitempty key' s) = if bool_decide (ToLower key' = key) && negb (bool_decide (s = [])) then [jstr s] else [].
Proof.
  unfold omitempty. destruct (bool_decide (s = [])); [by rewrite andb_false_r|]. rewrite andb_true_r. unfold given. case_bool_decide as E.
  - by rewrite filter_cons_True.
  - by rewrite filter_cons_False.
Qed.

Lemma given_app key l l' : given key (l ++ l') = given key l ++ given key l'.
Proof. unfold given. by rewrite filter_app, map_app. Qed.

Lemma heartbeat_from_to x : heartbeat_readable x -> heartbeat_of (Some (heartbeat_json x)) = x.
Proof.
  intros (H1 & H2 & H3 & H4 & H5 & H6). unfold heartbeat_of, heartbeat_json. unfold lenient. rewrite !given_app, !omitempty_given.
  assert (I : forall n, in_i64 n -> default 0 (as_int 64 (jnum n)) = n) by (intros n Hn; by rewrite as_int_jnum).
  cbn [given]. change (given (bs "version") [(bs "version", jstr (hr_Version x)); (bs "authz_rev", jnum (hr_AuthzRev x)); (bs "set_size", jnum (hr_SetSize x))])
    with [jstr (hr_Version x)].
  change (given (bs "authz_rev") [(bs "version", jstr (hr_Version x)); (bs "authz_rev", jnum (hr_AuthzRev x)); (bs "set_size", jnum (hr_SetSize x))])
    with [jnum (hr_AuthzRev x)].
  change (given (bs "set_size") [(bs "version", jstr (hr_Version x)); (bs "authz_rev", jnum (hr_AuthzRev x)); (bs "set_size", jnum (hr_SetSize x))])
    with [jnum (hr_SetSize x)].
  change (given (bs "set_hash") [(bs "version", jstr (hr_Version x)); (bs "authz_rev", jnum (hr_AuthzRev x)); (bs "set_size", jnum (hr_SetSize x))]) with (@nil jvalue).
  change (given (bs "wg_pubkey") [(bs "version", jstr (hr_Version x)); (bs "authz_rev", jnum (hr_AuthzRev x)); (bs "set_size", jnum (hr_SetSize x))]) with (@nil jvalue).
  change (given (bs "wg_endpoint") [(bs "version", jstr (hr_Version x)); (bs "authz_rev", jnum (hr_AuthzRev x)); (bs "set_size", jnum (hr_SetSize x))]) with (@nil jvalue).
  repeat match goal with |- context [bool_decide (ToLower ?a = ?b)] =>
    let v := eval vm_compute in (bool_decide (ToLower a = b)) in change (bool_decide (ToLower a = b)) with v end.
  cbn [andb app foldl]. rewrite !I by done. destruct x as [v r n h k e]. cbn [hr_Version hr_AuthzRev hr_SetSize hr_SetHash hr_WgPubkey hr_WgEndpoint].
  f_equal; case_bool_decide as E; rewrite ?E; done.
Qed.

#[export] Program Instance heartbeat_message : Message heartbeatRequest := {|
  to_json := heartbeat_json; from_json v := Some (heartbeat_of (Some v)); readable := heartbeat_readable
|}.
Next Obligation. intros x. by eexists. Qed.
Next Obligation.
  intros x (H1 & H2 & H3 & H4 & H5 & H6). apply textual_obj. rewrite !Forall_app. split.
  - repeat (apply Forall_cons; split); [..|by apply Forall_nil]; (split; [by apply literal_valid|done]).
  - split; [|split]; (apply omitempty_valid; [by apply literal_valid|done]).
Qed.
Next Obligation.
  intros x. unfold heartbeat_json, omitempty. repeat case_bool_decide; cbn; lia.
Qed.
Next Obligation. intros x Hx. exact (f_equal Some (heartbeat_from_to x Hx)). Qed.

(** The backend's answers. *)
#[export] Program Instance enrolled_message : Message enrollResponse := {|
  to_json := enrolled_json; from_json := enrollResponse_of; readable r := ValidString (en_NodeID r) /\ ValidString (en_AuthToken r)
|}.
Next Obligation. intros x. by eexists. Qed.
Next Obligation. intros x (H1 & H2). unfold enrolled_json. fields. Qed.
Next Obligation. intros x. cbn. lia. Qed.
Next Obligation.
  intros x (H1 & H2). unfold enrollResponse_of, enrolled_json. cbn [as_struct mbind option_bind]. read_fields. by destruct x.
Qed.

Definition member_readable (m : authzMember) : Prop := text_addr (am_Addr m) /\ ValidString (am_Account m).

Lemma member_from_to m : member_readable m -> member_of (member_json m) = Some m.
Proof.
  intros [H1 H2]. unfold member_of, member_json. cbn [as_struct mbind option_bind]. read_fields.
  rewrite as_addr_text by done. by destruct m.
Qed.

Lemma members_textual l : Forall member_readable l -> textual (jarr (map member_json l)).
Proof.
  intros H. apply textual_map. eapply Forall_impl; [exact H|]. intros m [H1 H2]. pose proof (addr_valid _ H1). unfold member_json. fields.
Qed.

Lemma addrs_textual l : Forall text_addr l -> textual (jslice (map (fun a => jstr (addr_text a)) l)).
Proof. intros H. apply textual_slice. eapply Forall_impl; [exact H|]. apply addr_valid. Qed.

Lemma addrs_from_to l : Forall text_addr l -> as_list as_addr (jslice (map (fun a => jstr (addr_text a)) l)) = Some l.
Proof. intros H. apply as_list_slice. eapply Forall_impl; [exact H|]. apply as_addr_text. Qed.

Lemma members_from_to l : Forall member_readable l -> as_list member_of (jarr (map member_json l)) = Some l.
Proof. intros H. apply as_list_map. eapply Forall_impl; [exact H|]. apply member_from_to. Qed.

(** A full set, or a delta. *)
Definition authz_readable (r : authzResponse) : Prop :=
  in_i64 (az_Rev r) /\ Forall member_readable (az_Addresses r) /\ Forall member_readable (az_Add r) /\ Forall text_addr (az_Del r) /\
  (if az_Full r then az_Add r = [] /\ az_Del r = [] else az_Addresses r = [] /\ az_Force r = false).

#[export] Program Instance authz_message : Message authzResponse := {|
  to_json := authz_json; from_json := authzResponse_of; readable := authz_readable
|}.
Next Obligation. intros x. unfold authz_json. by destruct (az_Full x); eexists. Qed.
Next Obligation.
  intros x (H1 & H2 & H3 & H4 & _). pose proof (members_textual _ H2). pose proof (members_textual _ H3). pose proof (addrs_textual _ H4).
  unfold authz_json. destruct (az_Full x); fields.
Qed.
Next Obligation.
  intros x. assert (M : forall l, nesting (jarr (map member_json l)) <= 2) by (intros l; apply (nesting_map _ 1); [lia|intros; cbn; lia]).
  assert (D : nesting (jslice (map (fun a => jstr (addr_text a)) (az_Del x))) <= 1) by (apply (nesting_slice _ 0); [lia|intros; cbn; lia]).
  pose proof (M (az_Addresses x)). pose proof (M (az_Add x)). unfold authz_json.
  destruct (az_Full x); cbn [nesting foldr snd fst] in *; lia.
Qed.
Next Obligation.
  intros x (H1 & H2 & H3 & H4 & H5). unfold authzResponse_of, authz_json. destruct x as [rev full addresses add del force].
  cbn [az_Rev az_Full az_Addresses az_Add az_Del az_Force] in *. destruct full; destruct H5 as [-> ->]; cbn [as_struct mbind option_bind].
  - read_fields. rewrite as_int_jnum by done. cbn [mbind option_bind]. by rewrite members_from_to.
  - read_fields. rewrite as_int_jnum by done. cbn [mbind option_bind]. change (strict as_bool (bs "full") []) with (Some false).
    cbn [mbind option_bind]. change (strict (as_list member_of) (bs "addresses") []) with (Some (@nil authzMember)). cbn [mbind option_bind].
    rewrite members_from_to by done. cbn [mbind option_bind]. by rewrite addrs_from_to.
Qed.

#[export] Program Instance ack_message : Message usageAck := {|
  to_json := ack_json; from_json := usageAck_of; readable r := ValidString (ua_Ack r) /\ Forall text_addr (ua_Revoke r)
|}.
Next Obligation. intros x. by eexists. Qed.
Next Obligation. intros x (H1 & H2). pose proof (addrs_textual _ H2). unfold ack_json. fields. Qed.
Next Obligation.
  intros x. assert (D : nesting (jslice (map (fun a => jstr (addr_text a)) (ua_Revoke x))) <= 1) by (apply (nesting_slice _ 0); [lia|intros; cbn; lia]).
  unfold ack_json. cbn [nesting foldr snd fst] in *. lia.
Qed.
Next Obligation.
  intros x (H1 & H2). unfold usageAck_of, ack_json. cbn [as_struct mbind option_bind]. read_fields.
  rewrite addrs_from_to by done. by destruct x.
Qed.

Definition peer_readable (p : wgPeerInfo) : Prop :=
  ValidString (wi_Pubkey p) /\ ValidString (wi_Addr p) /\ ValidString (wi_IP4 p) /\ ValidString (wi_IP6 p).

#[export] Program Instance peers_message : Message wgPeersResponse := {|
  to_json := peers_json; from_json := wgPeersResponse_of;
  readable r := ValidString (AgentTypes.wp_Etag r) /\ Forall peer_readable (AgentTypes.wp_Peers r)
|}.
Next Obligation. intros x. by eexists. Qed.
Next Obligation.
  intros x (H1 & H2). assert (Hp : textual (jarr (map peer_json (AgentTypes.wp_Peers x)))).
  { apply textual_map. eapply Forall_impl; [exact H2|]. intros p (P1 & P2 & P3 & P4). unfold peer_json. fields. }
  unfold peers_json. fields.
Qed.
Next Obligation.
  intros x. pose proof (nesting_map peer_json 1 (AgentTypes.wp_Peers x) ltac:(lia) ltac:(intros; cbn; lia)).
  unfold peers_json. cbn [nesting foldr snd fst] in *. lia.
Qed.
Next Obligation.
  intros x (H1 & H2). unfold wgPeersResponse_of, peers_json. cbn [as_struct mbind option_bind]. read_fields.
  rewrite as_list_map; [by destruct x|]. eapply Forall_impl; [exact H2|]. intros p _. unfold wgPeerInfo_of, peer_json.
  cbn [as_struct mbind option_bind]. read_fields. by destruct p.
Qed.

Definition config_readable (c : agentConfig) : Prop :=
  in_i64 (ac_UsageIntervalS c) /\ in_i64 (ac_GraceMinutes c) /\ in_i64 (wc_Port (ac_Wg c)) /\
  ValidString (wc_Pool4 (ac_Wg c)) /\ ValidString (wc_Pool6 (ac_Wg c)) /\
  Forall (fun s => ValidString (si_Key s) /\ 0 <= si_Port s < 2 ^ 16) (ac_Services c).

Lemma config_from_to c : config_readable c -> agentConfig_of (config_json c) = Some c.
Proof.
  intros (H1 & H2 & H3 & H4 & H5 & H6). unfold agentConfig_of, config_json. cbn [as_struct mbind option_bind].
  read_fields. rewrite as_int_jnum by done. cbn [mbind option_bind]. rewrite as_int_jnum by done. cbn [mbind option_bind].
  rewrite as_list_map.
  - cbn [mbind option_bind]. unfold wgConfig_of, wg_json. cbn [as_struct mbind option_bind]. read_fields. rewrite as_int_jnum by done.
    destruct c as [? ? ? []]. done.
  - eapply Forall_impl; [exact H6|]. intros s [S1 S2]. unfold serviceInfo_of, service_json. cbn [as_struct mbind option_bind].
    read_fields. rewrite as_uint_jnum by done. by destruct s.
Qed.

Lemma config_textual c : config_readable c -> textual (config_json c).
Proof.
  intros (H1 & H2 & H3 & H4 & H5 & H6). assert (Hs : textual (jarr (map service_json (ac_Services c)))).
  { apply textual_map. eapply Forall_impl; [exact H6|]. intros s [S1 S2]. unfold service_json. fields. }
  assert (Hw : textual (wg_json (ac_Wg c))) by (unfold wg_json; fields). unfold config_json. fields.
Qed.

#[export] Program Instance resync_message : Message heartbeatResponse := {|
  to_json := resync_json; from_json := heartbeatResponse_of; readable r := config_readable (hb_Config r)
|}.
Next Obligation. intros x. by eexists. Qed.
Next Obligation. intros x H. pose proof (config_textual _ H). unfold resync_json. fields. Qed.
Next Obligation.
  intros x. pose proof (nesting_map service_json 1 (ac_Services (hb_Config x)) ltac:(lia) ltac:(intros; cbn; lia)).
  unfold resync_json, config_json, wg_json. cbn [nesting foldr snd fst] in *. lia.
Qed.
Next Obligation.
  intros x H. unfold heartbeatResponse_of, resync_json. cbn [as_struct mbind option_bind]. read_fields.
  rewrite config_from_to by done. by destruct x.
Qed.

(** What the client makes of a reply: a failure has an error status. *)
Definition failing (s : Z) : Prop := (s <> 204) /\ (s < 200 \/ 300 <= s).

Lemma failing_500 : failing 500.
Proof. unfold failing. lia. Qed.

Lemma handle_respond `{Message A} of_json json (r : reply A) : of_json = from_json -> json = to_json -> (forall s, r = Failed s -> failing s) -> (forall a, r = Body a -> readable a) ->
  handle_response of_json (Some (respond json r)) = match r with NoContent => Some None | Body a => Some (Some a) | Failed _ => None end.
Proof.
  intros -> -> Hf Hb. destruct r as [|a|s]; [done| |].
  - unfold respond, handle_response. cbn [Z.eqb Pos.eqb Z.ltb Z.compare Pos.compare Pos.compare_cont orb Z.leb].
    pose proof (message_read a [10] (Hb a eq_refl) ltac:(by repeat split)) as E. apply bind_Some in E as (v & Ev & Ex). rewrite Ev. cbn [mbind option_bind].
    by rewrite Ex.
  - destruct (Hf s eq_refl) as [H1 H2]. unfold respond, handle_response. rewrite (proj2 (Z.eqb_neq s 204)) by done.
    by destruct (s <? 200) eqn:E1, (300 <=? s) eqn:E2; bool_hyps; try lia.
Qed.

(** *** Reading back what was written *)

Lemma parse_step_none s : foldl (parse_step 10) None s = None.
Proof. by induction s. Qed.

Lemma parse_sat_fold s : forall a n, 0 <= a -> foldl (parse_step 10) (Some a) s = Some n -> a <= n /\ (n < 2 ^ 64 -> parse_sat a s = Some n).
Proof.
  induction s as [|c s IH]; intros a n Ha H; cbn [foldl parse_sat] in *; [injection H as ->; by split|].
  assert (Hd : forall d, digit_val c = Some d -> 0 <= d) by (intros d; unfold digit_val; repeat case_match; intros [= <-]; bool_hyps; lia).
  revert H. unfold parse_step at 2. cbn [mbind option_bind]. destruct (digit_val c) as [d|]; [|by rewrite parse_step_none]. specialize (Hd d eq_refl). cbn [mbind option_bind].
  destruct (d <? 10) eqn:E; [|by rewrite parse_step_none]. intros H. bool_hyps. destruct (IH (a * 10 + d) n ltac:(lia) H) as [H1 H2].
  split; [lia|]. intros Hn. destruct (10 <=? d) eqn:E1; bool_hyps; [lia|]. destruct (_ <=? _) eqn:E2; bool_hyps; [lia|]. by apply H2.
Qed.

Lemma digits_value_parse s n : parse_digits 10 s = Some n -> n < 2 ^ 64 -> digits_value s = n.
Proof.
  unfold parse_digits, digits_value. destruct s as [|c s]; [done|]. intros H Hn. destruct (parse_sat_fold (c :: s) 0 n ltac:(lia) H) as [_ H2].
  by rewrite H2.
Qed.

Lemma ParseInt_value_ok s n : ParseInt s = Some n -> in_i64 n -> ParseInt_value s = n.
Proof.
  intros H Hn. unfold in_i64, int64_min, int64_max in Hn.
  assert (P : forall r, (n ← parse_digits 10 r; if n <? 2 ^ 63 then Some n else None) = Some n -> digits_value r = n).
  { intros r Hr. apply bind_Some in Hr as (m & Hm & Hif). destruct (m <? 2 ^ 63) eqn:E; [|done]. injection Hif as ->. bool_hyps.
    apply digits_value_parse; [done|lia]. }
  assert (N : forall r, (n ← parse_digits 10 r; if n <=? 2 ^ 63 then Some (- n) else None) = Some n -> digits_value r = - n).
  { intros r Hr. apply bind_Some in Hr as (m & Hm & Hif). destruct (m <=? 2 ^ 63) eqn:E; [|done]. injection Hif as <-. bool_hyps.
    rewrite Z.opp_involutive. apply digits_value_parse; [done|lia]. }
  unfold ParseInt, ParseInt_value in *. repeat case_match; first [apply N in H|apply P in H]; lia.
Qed.

Lemma ParseInt_value_FormatInt n : in_i64 n -> ParseInt_value (FormatInt n) = n.
Proof. intros Hn. apply ParseInt_value_ok; [by apply ParseInt_FormatInt|done]. Qed.

Lemma QueryEscape_unreserved s : Forall (fun c => unreserved c = true) s -> QueryEscape s = s.
Proof. unfold QueryEscape. induction 1 as [|c s Hc _ IH]; [done|]. rewrite bind_cons, Hc, IH. done. Qed.

Lemma FormatInt_unreserved n : Forall (fun c => unreserved c = true) (FormatInt n).
Proof.
  apply Forall_forall. intros c Hc. unfold unreserved. destruct (FormatInt_chars n c Hc) as [->|H]; [done|].
  destruct (48 <=? c) eqn:E1, (c <=? 57) eqn:E2; bool_hyps; lia.
Qed.

Lemma unreserved_notin c s : Forall (fun c => unreserved c = true) s -> unreserved c = false -> c ∉ s.
Proof. intros Hs Hc Hin. rewrite Forall_forall in Hs. specialize (Hs c Hin). congruence. Qed.

(** The form of an authz query. *)
Definition authz_form (q : authzQuery) : list (gostr * gostr) :=
  [(bs "rev", FormatInt (q_rev q)); (bs "wait", FormatInt (q_wait q))] ++ (if q_full q then [(bs "full", bs "1")] else []).

Definition authz_query (q : authzQuery) : gostr :=
  bs "rev=" ++ FormatInt (q_rev q) ++ bs "&wait=" ++ FormatInt (q_wait q) ++ (if q_full q then bs "&full=1" else []).

Lemma authz_query_form q : authz_query q = form_encode (authz_form q).
Proof.
  unfold authz_query, form_encode, authz_form.
  change (bs "rev=") with (bs "rev" ++ [61]). change (bs "&wait=") with ([38] ++ bs "wait" ++ [61]).
  change (bs "&full=1") with ([38] ++ QueryEscape (bs "full") ++ [61] ++ QueryEscape (bs "1")).
  destruct (q_full q); cbn [map app Join fst snd]; rewrite !(QueryEscape_unreserved (FormatInt _)) by apply FormatInt_unreserved;
    change (QueryEscape (bs "rev")) with (bs "rev"); change (QueryEscape (bs "wait")) with (bs "wait");
    rewrite <- !app_assoc; cbn [app]; by rewrite ?app_nil_r.
Qed.

Lemma authz_params_query q : in_i64 (q_rev q) -> 0 < q_wait q <= 55 -> authz_params (authz_query q) = (q_rev q, q_wait q, q_full q).
Proof.
  intros Hr Hw. rewrite authz_query_form. unfold authz_params.
  assert (F : Forall (fun p : gostr * gostr => p.1 <> [] /\ Forall in_u8 p.1 /\ Forall in_u8 p.2) (authz_form q)).
  { unfold authz_form. destruct (q_full q); repeat (apply Forall_cons; split); try apply Forall_nil_2; cbn [fst snd];
      (split; [done|split; first [apply Tokens.FormatInt_bytes|by apply bytes_check]]). }
  rewrite !form_get by done.
  assert (Ew : ParseInt_value (FormatInt (q_wait q)) = q_wait q)
    by (apply ParseInt_value_FormatInt; unfold in_i64, int64_min, int64_max; lia).
  assert (E : authz_wait (q_wait q) = q_wait q).
  { unfold authz_wait. destruct (q_wait q <=? 0) eqn:E1, (55 <? q_wait q) eqn:E2; bool_hyps; cbn [orb]; lia || done. }
  destruct q as [r w full]. cbn [q_rev q_wait q_full] in *.
  assert (G : forall k v, head (filter (fun p : gostr * gostr => p.1 = k) (authz_form {| q_rev := r; q_wait := w; q_full := full |})) = Some (k, v) ->
    default [] (snd <$> head (filter (fun p : gostr * gostr => p.1 = k) (authz_form {| q_rev := r; q_wait := w; q_full := full |}))) = v)
    by (by intros k v ->).
  rewrite (G (bs "rev") (FormatInt r)), (G (bs "wait") (FormatInt w)) by (by destruct full).
  rewrite ParseInt_value_FormatInt, Ew, E by done. by destruct full.
Qed.

(** *** Routing *)

(** A path under a node, with its query. *)
Definition node_path (id call : gostr) : gostr := bs "/v1/nodes/" ++ id ++ [47] ++ call.

Lemma Split_node_path id call : 47 ∉ id -> 47 ∉ call -> Split 47 (node_path id call) = [[]; bs "v1"; bs "nodes"; id; call].
Proof.
  intros Hi Hc. assert (node_path id call = [] ++ 47 :: bs "v1" ++ 47 :: bs "nodes" ++ 47 :: id ++ 47 :: call) as -> by reflexivity.
  rewrite !Split_app by first [done|apply not_elem_of_nil|by apply unreserved_notin; [apply (bool_decide_unpack _)|]]. by rewrite Split_notin.
Qed.

Lemma plain_segment_chars s : plain_segment s = true -> Forall (fun c => unreserved c = true) s.
Proof. unfold plain_segment. intros [_ H]%andb_true_iff. apply Forall_forall. intros c Hc%list_elem_of_In. by apply (proj1 (forallb_forall _ _) H). Qed.

(** The path and the query of a target. *)
Lemma target_parts p q : 63 ∉ p -> 35 ∉ p -> 35 ∉ q -> Cut (p ++ 63 :: q) 63 = Some (p, q) /\ RawQuery (p ++ 63 :: q) = q.
Proof.
  intros H1 H2 H3. split; [by apply Cut_app|]. unfold RawQuery. rewrite (Cut_notin _ 35); [cbv zeta; by rewrite Cut_app|].
  rewrite elem_of_app, elem_of_cons. assert (35 <> 63) by lia. tauto.
Qed.

Lemma node_path_notin id call c : plain_segment id = true -> Forall (fun c => unreserved c = true) call -> unreserved c = false -> c <> 47 ->
  c ∉ node_path id call.
Proof.
  intros Hi Hc Hu H47. unfold node_path. change (bs "/v1/nodes/") with ([47] ++ bs "v1" ++ [47] ++ bs "nodes" ++ [47]).
  assert (L : forall s, forallb unreserved s = true -> c ∉ s).
  { intros s Hs. apply unreserved_notin; [|done]. apply Forall_forall. intros x Hx%list_elem_of_In. by apply (proj1 (forallb_forall _ _) Hs). }
  rewrite !elem_of_app, !list_elem_of_singleton. pose proof (L (bs "v1") eq_refl). pose proof (L (bs "nodes") eq_refl).
  pose proof (unreserved_notin c id (plain_segment_chars id Hi) Hu). pose proof (unreserved_notin c call Hc Hu). tauto.
Qed.

Lemma node_route_path method id call : plain_segment id = true -> Forall (fun c => unreserved c = true) call ->
  node_route method (node_path id call) =
  (if bool_decide (method = bs "GET") then
     if bool_decide (call = bs "authz") then Some (nc_authz, id) else if bool_decide (call = bs "wg") then Some (nc_wg, id) else None
   else if bool_decide (method = bs "POST") then
     if bool_decide (call = bs "usage") then Some (nc_usage, id) else if bool_decide (call = bs "heartbeat") then Some (nc_heartbeat, id) else None
   else None).
Proof.
  intros Hi Hc. unfold node_route. rewrite Split_node_path by (apply unreserved_notin; [first [exact Hc|by apply plain_segment_chars]|done]).
  by rewrite bool_decide_eq_true_2, Hi.
Qed.

(** *** Failures *)

Lemma authz_fails `{MI : MapIter} uuid_text allow c deadline full seen s : authz uuid_text allow c deadline full seen = Some (Failed s) -> s = 500.
Proof.
  induction seen as [|[[d d'] now] seen IH]; [done|]. cbn [authz]. destruct (full || _); [|destruct (_ <=? 0); [done|exact IH]].
  intros [= H]. revert H. unfold writeAuthz, full_response. by repeat case_match; intros [= <-].
Qed.

Lemma wgPeers_fails `{MI : MapIter} text_le `{!RelDecision text_le} pools q d s : wgPeers text_le pools q d = Failed s -> s = 500.
Proof. unfold wgPeers. by repeat case_match; intros [= <-]. Qed.

Lemma usage_fails `{MI : MapIter} nodeID r d s : (usage nodeID (Some r) d).1 = Failed s -> s = 500.
Proof. unfold usage. by repeat case_match; intros [= <-]. Qed.

Lemma usage_content `{MI : MapIter} nodeID r d : (usage nodeID (Some r) d).1 <> NoContent.
Proof. unfold usage. by repeat case_match. Qed.

Lemma heartbeat_fails `{MI : MapIter} cfg nodeID r cache d s : (Api.heartbeat cfg nodeID r cache d).1.1 = Failed s -> s = 500.
Proof. unfold Api.heartbeat. by repeat case_match; intros [= <-]. Qed.

Lemma heartbeat_content `{MI : MapIter} cfg nodeID r cache d : (Api.heartbeat cfg nodeID r cache d).1.1 <> NoContent.
Proof. unfold Api.heartbeat. by repeat case_match. Qed.

(** ** Readable answers *)

(** What the columns of the database hold: addresses that PostgreSQL prints, texts in
    UTF-8, revisions and ports within their types, peers as they are issued. *)
Record db_readable (pools : Wg.WgPools) (d : DB.db) : Prop := {
  dr_current : forall a, is_Some (DB.db_current d !! a) -> text_addr a;
  dr_revisions : Forall (fun r => text_addr (DB.rv_addr r)) (DB.db_revisions d);
  dr_rev : in_i64 (Authz.max_rev d);
  dr_services : Forall (fun s => ValidString (DB.sv_key s) /\ 0 <= DB.sv_port s < 2 ^ 16) (DB.db_services d);
  dr_peers : Forall (fun q => 2 <= DB.wq_idx q <= Wg.slots pools + 1 /\ Wg.ValidWgKey (DB.wq_pubkey q) = true /\ text_addr (DB.wq_addr q)) (DB.db_wgpeers d)
}.

Lemma hex_valid b : Forall in_u8 b -> ValidString (HexEncode b).
Proof.
  intros H. apply ascii_valid. unfold HexEncode. induction H as [|x b Hx _ IH]; [constructor|]. cbn.
  assert (D : forall d, 0 <= d < 16 -> 0 <= hex_digit d < 128) by (intros d Hd; unfold hex_digit; destruct (d <? 10) eqn:E; bool_hyps; lia).
  unfold in_u8 in Hx. apply Forall_cons. split; [apply D; div_mod_bounds; lia|]. apply Forall_cons. split; [apply D; div_mod_bounds; lia|exact IH].
Qed.

Lemma addr_String_valid a : text_addr a -> ValidString (addr_String a).
Proof.
  intros H. destruct a as [|v|v z]; [by apply literal_valid| |]; by apply (addr_valid _) in H.
Qed.

Lemma append_valid s t : Forall (fun c => 0 <= c < 128) s -> bool_decide (Forall (fun c => 0 <= c < 128) (bs t)) = true -> ValidString (s ++ bs t).
Proof. intros H1 H2%bool_decide_eq_true. by apply ascii_valid, Forall_app. Qed.

Lemma addr_String_ascii a : addr_wf a -> zoneless a -> Forall (fun c => 0 <= c < 128) (addr_String a).
Proof. intros H1 H2. assert (addr_String a = addr_text a) as -> by (by destruct a). apply addr_text_chars. by right. Qed.

Section Readable.
Context `{MI : MapIter} (uuid_text : Z -> gostr) (Huuid : forall n, ValidString (uuid_text n)).

Lemma full_readable pools allow d r : db_readable pools d -> full_response uuid_text allow d = Body r -> authz_readable r.
Proof.
  intros [Hc _ Hr _ _]. unfold full_response, Authz.FullSet, DB.query. cbn [fst]. intros [= <-].
  unfold authz_readable. cbn [az_Rev az_Addresses az_Add az_Del az_Full]. split; [done|].
  split; [|by repeat split]. unfold toMembers. rewrite Forall_map. apply Forall_map, Forall_forall. intros [a acct] Hin%elem_of_map_range.
  split; [apply Hc; by exists acct|apply Huuid].
Qed.

Lemma writeAuthz_readable pools allow c full d r : db_readable pools d -> writeAuthz uuid_text allow c full d = Body r -> authz_readable r.
Proof.
  intros Hd. pose proof Hd as [_ Hv Hr _ _]. unfold writeAuthz. destruct (_ || _); [by apply (full_readable pools)|].
  unfold Authz.DeltaSince. destruct (_ && _); [by apply (full_readable pools)|]. destruct (existsb _ _); [done|]. cbn [fst]. intros [= <-].
  assert (L : forall a x, Authz.replay (Authz.rows_after c d) !! a = Some x -> text_addr a).
  { intros a x Hx. destruct (decide (Exists (fun v => DB.rv_addr v = a) (Authz.rows_after c d))) as [(v & Hin & <-)%Exists_exists|Hn].
    - unfold Authz.rows_after in Hin. rewrite merge_sort_Permutation in Hin. apply list_elem_of_filter in Hin as [_ Hin].
      rewrite Forall_forall in Hv. by apply Hv.
    - assert (E : Authz.replay (Authz.rows_after c d) !! a = None); [|congruence]. apply AuthzFacts.replay_None. intros v Hin Hva. apply Hn.
      apply Exists_exists. by exists v. }
  unfold authz_readable. cbn [az_Rev az_Addresses az_Add az_Del az_Full]. split; [done|]. split; [done|]. split; [|split; [|done]].
  - rewrite Forall_map. apply Forall_forall. intros [a acct] Hin. apply list_elem_of_omap in Hin as ([b [[|] acct']] & H & [= <- <-]).
    apply elem_of_map_range in H. split; [by eapply L|]. cbn. destruct acct' as [n|]; [apply Huuid|]. by apply (literal_valid String.EmptyString).
  - apply Forall_forall. intros a Hin. apply list_elem_of_omap in Hin as ([b [[|] acct']] & H & [= <-]). apply elem_of_map_range in H. by eapply L.
Qed.

Lemma authz_answer_readable pools allow c deadline full seen r : Forall (fun x => db_readable pools x.1.2) seen ->
  authz uuid_text allow c deadline full seen = Some (Body r) -> authz_readable r.
Proof.
  induction 1 as [|[[d d'] now] seen Hd _ IH]; [done|]. cbn [authz]. destruct (full || _); [|destruct (_ <=? 0); [done|exact IH]].
  intros [= H]. by eapply writeAuthz_readable.
Qed.

Lemma usage_readable pools nodeID r d a : db_readable pools d -> ValidString (ur_ReportID r) -> (usage nodeID (Some r) d).1 = Body a -> readable a.
Proof.
  intros Hd Hr. unfold usage. destruct (Usage.IngestUsage _ _ d) as [[revoke|e] d'] eqn:E; intros [= <-]. split; [done|]. cbn [ua_Revoke].
  eapply Forall_impl; [exact (Frame.ingest_removed _ _ _ _ _ E)|]. apply Hd.
Qed.
End Readable.

Lemma key_valid k : Wg.ValidWgKey k = true -> ValidString k.
Proof. intros (b & HF & _ & ->)%WgFacts.ValidWgKey_decodes. by apply ascii_valid, StdEncode_ascii. Qed.

Lemma offsets_text pools i : WgFacts.pools_ok pools -> 2 <= i <= Wg.slots pools + 1 ->
  Forall (fun c => 0 <= c < 128) (addr_String (Wg.offset4 (Wg.Pool4 pools) i)) /\ Forall (fun c => 0 <= c < 128) (addr_String (Wg.offset6 (Wg.Pool6 pools) i)).
Proof.
  intros Hp Hi. assert (Hk : Wg.ValidWgKey (StdEncode (replicate 32 0)) = true) by (vm_compute; reflexivity).
  destruct (WgFacts.slot_entry_ok pools _ i Hp Hi Hk) as (_ & [W4 Z4] & [W6 Z6]). split; by apply addr_String_ascii.
Qed.

Lemma peers_readable `{MI : MapIter} text_le `{!RelDecision text_le} pools q d r : WgFacts.pools_ok pools -> db_readable pools d ->
  wgPeers text_le pools q d = Body r -> readable r.
Proof.
  intros Hp Hd. unfold wgPeers, Wg.WgPeerTable, DB.query. cbn [fst]. case_bool_decide; [done|]. intros [= <-]. split; cbn [AgentTypes.wp_Etag AgentTypes.wp_Peers].
  - unfold Wg.etag. apply hex_valid, Forall_take, sum256_bytes.
  - rewrite Forall_map. rewrite Forall_map. apply Forall_forall. intros x Hx. rewrite merge_sort_Permutation in Hx.
    pose proof (dr_peers _ _ Hd) as HF. rewrite Forall_forall in HF. destruct (HF x Hx) as (Hi & Hk & Ha). destruct (offsets_text pools _ Hp Hi) as [T4 T6].
    unfold peer_readable. cbn [wi_Pubkey wi_Addr wi_IP4 wi_IP6 Wg.peer_view Wg.wp_Pubkey Wg.wp_FipsAddr Wg.wp_IP4 Wg.wp_IP6].
    split; [by apply key_valid|]. split; [by apply addr_String_valid|]. split; [by apply (append_valid _ "/32")|by apply (append_valid _ "/128")].
Qed.

(** The settings of the process that a heartbeat is answered with. *)
Definition settings_readable (cfg : handlerConfig) : Prop :=
  in_i64 (hc_usageIntervalS cfg) /\ in_i64 (hc_graceMinutes cfg) /\ in_i64 (Wg.ws_port (hc_wg cfg)) /\ WgFacts.pools_ok (Wg.ws_pools (hc_wg cfg)).

Lemma FormatInt_ascii n : Forall (fun c => 0 <= c < 128) (FormatInt n).
Proof. apply Forall_forall. intros c [->|H]%FormatInt_chars; lia. Qed.

Lemma prefix_valid a p : addr_wf a -> zoneless a -> ValidString (prefix_String a p).
Proof.
  intros H1 H2. apply ascii_valid. unfold prefix_String. rewrite !Forall_app. split; [by apply addr_String_ascii|].
  split; [|apply FormatInt_ascii]. apply Forall_singleton. by split.
Qed.

Lemma heartbeat_readable_answer `{MI : MapIter} pools cfg nodeID r cache d a : settings_readable cfg -> db_readable pools d ->
  (Api.heartbeat cfg nodeID r cache d).1.1 = Body a -> readable a.
Proof.
  intros (S1 & S2 & S3 & [[P4 _] [P6 _]]) Hd. unfold Api.heartbeat, Heartbeat, mbind, DB.store_bind, DB.inTx, DB.tx_modify, Services, DB.query.
  set (d1 := DB.set_nodes _ d). destruct (Authz.AuthzStatus cache _) as [st c']. cbn [fst]. intros [= <-].
  unfold readable. cbn [resync_message hb_Config]. unfold config_readable.
  cbn [ac_UsageIntervalS ac_GraceMinutes ac_Wg wc_Port wc_Pool4 wc_Pool6 ac_Services].
  split; [done|]. split; [done|]. split; [done|]. split; [by apply prefix_valid|]. split; [by apply prefix_valid|].
  rewrite !Forall_map. unfold enabled_services. apply Forall_forall. intros x Hx. rewrite merge_sort_Permutation in Hx.
  apply list_elem_of_filter in Hx as [_ Hx]. pose proof (dr_services _ _ Hd) as HF. rewrite Forall_forall in HF. by apply HF.
Qed.

(** ** Requests over a connection *)

Section Exchange.
Context `{MI : MapIter} `{DR : Summary.Driver} `{CL : Cashu.CashuLib} `{MN : !Cashu.Mints}.
Context (uuid_text : Z -> gostr) (parse_uuid : gostr -> option Z) (text_le : relation gostr) `{!RelDecision text_le}.
Context (url_Host url_Hostname : gostr -> option gostr).
Context (ParsePubKey ParseSignature : list Z -> bool) (schnorr_Verify : list Z -> list Z -> list Z -> bool).
Context (decode_btcpay : list Z -> option Payments.WebhookEvent) (decode_phoenix : list Z -> option Payments.PhoenixEvent).
Context (cfg : settings) (host : gostr).
Context (now : Z) (seen : list (DB.db * DB.db * Z)) (rnd : list Z).

(** A request to [base] that reaches the backend: a client that is no browser sends
    neither Origin nor Sec-Fetch-Site. *)
Definition exchange (base : gostr) (req : http_request) : State backend answer_of :=
  match endpoint_of now seen rnd (hq_method req) (TrimPrefix (hq_url req) base) (hq_body req) with
  | Some e => serve_http uuid_text parse_uuid text_le url_Host url_Hostname ParsePubKey ParseSignature schnorr_Verify decode_btcpay decode_phoenix cfg
                {| hm_auth := hq_auth req; hm_Host := host; hm_SecFetchSite := []; hm_Origin := []; hm_origin_host := None |} e
  | None => mret (an_plain 404)
  end.

(** The transport of a client of this backend. *)
Definition http_to (c : backendClient) (b : backend) (req : http_request) : option (Z * gostr) :=
  Some (answer_text (exchange (bc_baseURL c) req b).1).

(** The client of a node with its credential. *)
Definition enrolled (c : backendClient) (nodeID : Z) (b : backend) : Prop :=
  plain_segment (bc_nodeID c) = true /\ parse_uuid (bc_nodeID c) = Some nodeID /\ bc_authToken c <> [] /\
  AuthNode nodeID (bc_authToken c) (store_of b) = (Ok tt, store_of b).

Lemma TrimPrefix_app p s : TrimPrefix (p ++ s) p = s.
Proof. unfold TrimPrefix, HasPrefix. rewrite take_app_length, bool_decide_eq_true_2 by done. by rewrite drop_app_length. Qed.

Lemma bearer_token t : t <> [] -> bearer (bs "Bearer " ++ t) = Some t.
Proof.
  intros Ht. unfold bearer. rewrite TrimPrefix_app, bool_decide_false by done. unfold HasPrefix.
  by rewrite take_app_length, bool_decide_eq_true_2.
Qed.

(** Behind the gate, a request with the credential runs its handler. *)
Lemma node_gate_enrolled {A} c nodeID b (next : Z -> DB.db -> reply A * DB.db) : enrolled c nodeID b ->
  node_gate parse_uuid (if bool_decide (bc_authToken c = []) then [] else bs "Bearer " ++ bc_authToken c) (bc_nodeID c) next b =
  on_store (next nodeID) b.
Proof.
  intros (_ & Hp & Ht & Ha). unfold node_gate, on_store. rewrite Hp, bool_decide_false by done.
  unfold requireNode. rewrite bearer_token by done. by rewrite Ha.
Qed.

Lemma answered_enrolled {A} c nodeID b (f : reply A -> answer_of) h (next : Z -> DB.db -> reply A * DB.db) : enrolled c nodeID b ->
  hm_auth h = (if bool_decide (bc_authToken c = []) then [] else bs "Bearer " ++ bc_authToken c) ->
  answering f (node_gate parse_uuid (hm_auth h) (bc_nodeID c) next) b =
  (f (next nodeID (store_of b)).1, set_portal (Portal.set_store (next nodeID (store_of b)).2 (bk_portal b)) b).
Proof.
  intros He ->. unfold answering, mbind, state_bind. rewrite (node_gate_enrolled c nodeID) by done. unfold on_store.
  by destruct (next nodeID (store_of b)).
Qed.

Lemma heartbeat_enrolled c nodeID b h r : enrolled c nodeID b ->
  hm_auth h = (if bool_decide (bc_authToken c = []) then [] else bs "Bearer " ++ bc_authToken c) ->
  let x := answering an_heartbeat (serve_heartbeat parse_uuid cfg (hm_auth h) (bc_nodeID c) r) b in
  x = (an_heartbeat (Api.heartbeat (handler_config cfg) nodeID r (bk_cache b) (store_of b)).1.1, x.2) /\
  store_of x.2 = (Api.heartbeat (handler_config cfg) nodeID r (bk_cache b) (store_of b)).2.
Proof.
  intros He ->. cbv zeta. unfold answering, mbind, state_bind, serve_heartbeat. rewrite (node_gate_enrolled c nodeID) by done. unfold on_store.
  destruct (Api.heartbeat _ _ _ _ _) as [[y ca] d']. by destruct y.
Qed.

(** A request of a client at the endpoint it reaches. *)
Lemma exchange_request c m path v b e : endpoint_of now seen rnd m path (Marshal <$> v) = Some e -> bypass e = false -> is_admin e = false ->
  exchange (bc_baseURL c) (request_of c m path v) b =
  mounted uuid_text parse_uuid text_le url_Host url_Hostname ParsePubKey ParseSignature schnorr_Verify decode_btcpay decode_phoenix cfg
    {| hm_auth := if bool_decide (bc_authToken c = []) then [] else bs "Bearer " ++ bc_authToken c; hm_Host := host;
       hm_SecFetchSite := []; hm_Origin := []; hm_origin_host := None |} e b.
Proof.
  intros He Hb Ha. unfold exchange, request_of. cbn [hq_method hq_url hq_body hq_auth]. rewrite TrimPrefix_app, He.
  unfold serve_http. rewrite Ha, Hb. cbn [andb orb]. unfold cross_origin_ok. by destruct (safe_method e).
Qed.

(** *** The endpoints of the calls *)

Lemma endpoint_authz id q : plain_segment id = true -> in_i64 (q_rev q) -> 0 < q_wait q <= 55 ->
  endpoint_of now seen rnd (bs "GET") (authz_path id q) None =
  Some (ep_authz id (q_rev q) (now + q_wait q * time_Second) (q_full q) seen).
Proof.
  intros Hi Hr Hw. assert (authz_path id q = node_path id (bs "authz") ++ 63 :: authz_query q) as ->.
  { unfold authz_path, node_path, authz_query. rewrite <- !app_assoc. done. }
  assert (Hc : Forall (fun c => unreserved c = true) (bs "authz")) by by apply (bool_decide_unpack _).
  destruct (target_parts (node_path id (bs "authz")) (authz_query q)) as [E1 E2]; [by apply node_path_notin..| |].
  { unfold authz_query. rewrite !elem_of_app.
    assert (L : (35 ∉ bs "rev=") /\ (35 ∉ bs "&wait=") /\ (35 ∉ if q_full q then bs "&full=1" else []))
      by (split; [|split]; [..|destruct (q_full q)]; by apply (bool_decide_unpack _)).
    pose proof (unreserved_notin 35 _ (FormatInt_unreserved (q_rev q)) eq_refl).
    pose proof (unreserved_notin 35 _ (FormatInt_unreserved (q_wait q)) eq_refl). tauto. }
  unfold endpoint_of. rewrite E1, E2, node_route_path by done. by rewrite authz_params_query.
Qed.

Lemma endpoint_wg id etag : plain_segment id = true -> Forall in_u8 etag ->
  endpoint_of now seen rnd (bs "GET") (wg_path id etag) None = Some (ep_wg id etag).
Proof.
  intros Hi He. assert (wg_path id etag = node_path id (bs "wg") ++ 63 :: form_encode [(bs "etag", etag)]) as ->.
  { unfold wg_path, node_path. rewrite <- !app_assoc. done. }
  assert (Hc : Forall (fun c => unreserved c = true) (bs "wg")) by by apply (bool_decide_unpack _).
  destruct (target_parts (node_path id (bs "wg")) (form_encode [(bs "etag", etag)])) as [E1 E2]; [by apply node_path_notin..| |].
  { change (form_encode _) with (bs "etag=" ++ QueryEscape etag). rewrite elem_of_app.
    intros [H|H]; revert H; [by apply (bool_decide_unpack _)|apply escaped_notin; [done|by apply not_escaped]]. }
  unfold endpoint_of. rewrite E1, E2, node_route_path by done. rewrite form_get; [done|].
  apply Forall_singleton. split; [done|]. split; [by apply bytes_check|done].
Qed.

(** The calls with a body and no query: what the limit cuts is no request. *)
Definition fits (v : jvalue) : bool := Z.of_nat (length (Marshal v)) <=? maxBody.

Lemma endpoint_usage id r : plain_segment id = true -> readable r ->
  endpoint_of now seen rnd (bs "POST") (node_path id (bs "usage")) (Some (Marshal (usage_json r))) =
  Some (ep_usage id (if fits (usage_json r) then Some r else None)).
Proof.
  intros Hi Hr. assert (Hc : Forall (fun c => unreserved c = true) (bs "usage")) by by apply (bool_decide_unpack _).
  transitivity (Some (ep_usage id (v ← body_value (Some (Marshal (usage_json r))); usage_of v))).
  { unfold endpoint_of. rewrite Cut_notin by (by apply node_path_notin). by rewrite node_route_path. }
  f_equal. f_equal. pose proof (message_limited r Hr) as E. cbn [to_json usage_message] in E. rewrite E. unfold fits.
  destruct (_ <=? _); [|done]. exact (from_to r Hr).
Qed.

Lemma endpoint_heartbeat id r : plain_segment id = true -> readable r ->
  endpoint_of now seen rnd (bs "POST") (node_path id (bs "heartbeat")) (Some (Marshal (heartbeat_json r))) =
  Some (ep_heartbeat id (if fits (heartbeat_json r) then r else zero_heartbeatRequest)).
Proof.
  intros Hi Hr. assert (Hc : Forall (fun c => unreserved c = true) (bs "heartbeat")) by by apply (bool_decide_unpack _).
  transitivity (Some (ep_heartbeat id (heartbeat_of (body_value (Some (Marshal (heartbeat_json r))))))).
  { unfold endpoint_of. rewrite Cut_notin by (by apply node_path_notin). by rewrite node_route_path. }
  f_equal. f_equal. pose proof (message_limited r Hr) as E. cbn [to_json heartbeat_message] in E. rewrite E. unfold fits.
  destruct (_ <=? _); [|done]. by apply heartbeat_from_to.
Qed.

(** The report as the handler gets it, and the heartbeat. *)
Definition report_received (r : usageReport) : option usageReport := if fits (usage_json r) then Some r else None.
Definition heartbeat_received (r : heartbeatRequest) : heartbeatRequest := if fits (heartbeat_json r) then r else zero_heartbeatRequest.

Lemma usage_exchange c nodeID b r : enrolled c nodeID b -> readable r ->
  exchange (bc_baseURL c) (request_of c (bs "POST") (node_path (bc_nodeID c) (bs "usage")) (Some (usage_json r))) b =
  (an_usage (usage nodeID (report_received r) (store_of b)).1,
   set_portal (Portal.set_store (usage nodeID (report_received r) (store_of b)).2 (bk_portal b)) b).
Proof.
  intros He Hr. pose proof He as (Hi & _). rewrite (exchange_request _ _ _ (Some (usage_json r)) _ _ (endpoint_usage _ r Hi Hr)) by done. cbn [mounted].
  by rewrite (answered_enrolled c nodeID).
Qed.

Lemma heartbeat_exchange c nodeID b r : enrolled c nodeID b -> readable r ->
  let x := exchange (bc_baseURL c) (request_of c (bs "POST") (node_path (bc_nodeID c) (bs "heartbeat")) (Some (heartbeat_json r))) b in
  x = (an_heartbeat (Api.heartbeat (handler_config cfg) nodeID (heartbeat_received r) (bk_cache b) (store_of b)).1.1, x.2) /\
  store_of x.2 = (Api.heartbeat (handler_config cfg) nodeID (heartbeat_received r) (bk_cache b) (store_of b)).2.
Proof.
  intros He Hr. cbv zeta. pose proof He as (Hi & _). rewrite (exchange_request _ _ _ (Some (heartbeat_json r)) _ _ (endpoint_heartbeat _ r Hi Hr)) by done. cbn [mounted].
  by apply heartbeat_enrolled.
Qed.

(** [C3] The calls of an enrolled agent reach the handlers, as bytes both ways.  With
    the id and the token of its node, at a base URL that is the backend's, a store whose
    columns hold what their types allow, and messages whose texts are UTF-8 and whose
    addresses have no zone: the sync
    query arrives with its cursor, its hold and its flag and is answered by the long
    poll of exactly that query; the peer query arrives with its etag.  A usage report
    whose JSON is at most 1 MiB is ingested for this node with its values intact; a
    longer one is refused, and neither the store nor anything else of the backend
    changes.  A heartbeat is recorded for the node, with its values intact up to 1 MiB
    and as an empty one beyond.  In every case the client returns what the handler
    answered. *)
Theorem calls_are_served c nodeID b : enrolled c nodeID b ->
  (forall n, ValidString (uuid_text n)) -> settings_readable (handler_config cfg) ->
  db_readable (pools_of cfg) (store_of b) -> Forall (fun x => db_readable (pools_of cfg) x.1.2) seen ->
  (forall q, in_i64 (q_rev q) -> 0 < q_wait q <= 55 -> System.lasts_until (now + q_wait q * time_Second) seen ->
     getAuthz (http_to c b) c q = System.ask uuid_text (bc_allowMassRevoke cfg) (now + q_wait q * time_Second) seen q) /\
  (forall etag, Forall in_u8 etag -> getWgPeers (http_to c b) c etag = SystemWg.wg_ask text_le (pools_of cfg) (store_of b) etag) /\
  (forall r, readable r ->
     let served := (exchange (bc_baseURL c) (request_of c (bs "POST") (node_path (bc_nodeID c) (bs "usage")) (Some (usage_json r))) b).2 in
     if fits (usage_json r)
     then postUsage (http_to c b) c r = match (usage nodeID (Some r) (store_of b)).1 with Body a => Some a | _ => None end /\
          store_of served = (usage nodeID (Some r) (store_of b)).2
     else postUsage (http_to c b) c r = None /\ served = b) /\
  (forall r, readable r ->
     let served := (exchange (bc_baseURL c) (request_of c (bs "POST") (node_path (bc_nodeID c) (bs "heartbeat")) (Some (heartbeat_json r))) b).2 in
     let received := if fits (heartbeat_json r) then r else zero_heartbeatRequest in
     Client.heartbeat (http_to c b) c r = System.heartbeat_answer (handler_config cfg) nodeID (bk_cache b) (store_of b) received /\
     store_of served = (Api.heartbeat (handler_config cfg) nodeID received (bk_cache b) (store_of b)).2).
Proof.
  intros He Hu Hs Hb Hseen. pose proof He as (Hi & _). split; [|split; [|split]].
  - intros q Hr Hw Hl. unfold getAuthz, do, http_to.
    rewrite (exchange_request _ _ _ None _ _ (endpoint_authz _ q Hi Hr Hw)) by done. cbn [mounted].
    rewrite (answered_enrolled c nodeID) by done. cbn [fst answer_text]. unfold System.ask.
    destruct (System.authz_answers uuid_text (bc_allowMassRevoke cfg) (q_rev q) (now + q_wait q * time_Second) (q_full q) seen Hl) as [x Ex].
    rewrite Ex. cbn [default from_option id]. rewrite (handle_respond (H := authz_message) authzResponse_of authz_json _ eq_refl eq_refl); [by destruct x| |].
    + intros s ->. rewrite (authz_fails _ _ _ _ _ _ _ Ex). exact failing_500.
    + intros a ->. by eapply authz_answer_readable.
  - intros etag Hbytes. unfold getWgPeers, do, http_to.
    rewrite (exchange_request _ _ _ None _ _ (endpoint_wg _ etag Hi Hbytes)) by done. cbn [mounted].
    rewrite (answered_enrolled c nodeID) by done. cbn [fst answer_text]. unfold SystemWg.wg_ask.
    rewrite (handle_respond (H := peers_message) wgPeersResponse_of peers_json _ eq_refl eq_refl); [by destruct (wgPeers _ _ _ _)| |].
    + intros s Es. rewrite (wgPeers_fails _ _ _ _ _ Es). exact failing_500.
    + intros a Ea. eapply (peers_readable text_le); [apply Hs|exact Hb|exact Ea].
  - intros r Hr served. unfold served, postUsage, do, http_to.
    change (bs "/v1/nodes/" ++ bc_nodeID c ++ bs "/usage") with (node_path (bc_nodeID c) (bs "usage")).
    rewrite (usage_exchange c nodeID b r He Hr). cbn [fst snd answer_text]. unfold report_received. destruct (fits _); [|split; [done|by destruct b as [[]]]].
    split; [|done]. rewrite (handle_respond (H := ack_message) usageAck_of ack_json _ eq_refl eq_refl).
    + destruct (usage _ _ _).1 eqn:Eu; try done. by apply usage_content in Eu.
    + intros s Es. rewrite (usage_fails _ _ _ _ Es). exact failing_500.
    + intros a Ea. eapply usage_readable; [exact Hb|apply Hr|exact Ea].
  - intros r Hr served received. destruct (heartbeat_exchange c nodeID b r He Hr) as [Hx Hst]. fold received in Hx, Hst. split; [|exact Hst].
    unfold Client.heartbeat, do, http_to.
    change (bs "/v1/nodes/" ++ bc_nodeID c ++ bs "/heartbeat") with (node_path (bc_nodeID c) (bs "heartbeat")). rewrite Hx. cbn [fst answer_text].
    rewrite (handle_respond (H := resync_message) heartbeatResponse_of resync_json _ eq_refl eq_refl).
    + unfold System.heartbeat_answer. fold received. destruct (Api.heartbeat _ _ _ _ _).1.1 eqn:Eu; try done. by apply heartbeat_content in Eu.
    + intros s Es. rewrite (heartbeat_fails _ _ _ _ _ _ Es). exact failing_500.
    + intros a Ea. by eapply heartbeat_readable_answer.
Qed.

(** *** A report that is too long

    The samples of one window travel in one report, 34 bytes and more for each. *)

Lemma elements_length n l : Forall (fun v => (n <= length (Marshal v))%nat) l -> (n * length l <= length (elements_text l))%nat.
Proof.
  induction 1 as [|v l Hv _ IH]; [cbn; lia|]. destruct l as [|w l].
  - change (elements_text [v]) with (Marshal v). cbn [length]. lia.
  - change (elements_text (v :: w :: l)) with (Marshal v ++ [44] ++ elements_text (w :: l)). rewrite !length_app. cbn [length] in *. lia.
Qed.

Lemma sample_length x : (34 <= length (Marshal (sample_json x)))%nat.
Proof.
  assert (E : Marshal (sample_json x) = bs "{" ++ marshal_string (bs "service") ++ bs ":" ++ marshal_string (us_Service x) ++ bs "," ++
    marshal_string (bs "addr") ++ bs ":" ++ marshal_string (addr_text (us_Addr x)) ++ bs "," ++ marshal_string (bs "bytes") ++ bs ":" ++
    FormatInt (us_Bytes x) ++ bs "}") 
    by (unfold sample_json; cbn [Marshal map Join fst snd]; rewrite <- !app_assoc; reflexivity).
  rewrite E, !length_app. assert (forall s, 2 <= length (marshal_string s))%nat as M by (intros s; unfold marshal_string; rewrite !length_app; cbn; lia).
  pose proof (M (us_Service x)). pose proof (M (addr_text (us_Addr x))). destruct (FormatInt_head (us_Bytes x)) as (c & r & -> & _).
  change (length (marshal_string (bs "service"))) with 9%nat. change (length (marshal_string (bs "addr"))) with 6%nat.
  change (length (marshal_string (bs "bytes"))) with 7%nat. cbn [length bs] in *. lia.
Qed.

Lemma long_window_cut r : 30841 <= Z.of_nat (length (ur_Samples r)) -> fits (usage_json r) = false.
Proof.
  intros Hn. unfold fits. apply Z.leb_gt. pose proof (elements_length 34 (map sample_json (ur_Samples r))) as H.
  rewrite length_map in H. specialize (H ltac:(apply Forall_map, Forall_forall; intros x _; apply sample_length)).
  assert (length (elements_text (map sample_json (ur_Samples r))) <= length (Marshal (usage_json r)))%nat as L.
  { unfold usage_json. cbn [Marshal map Join fst snd]. rewrite !length_app. unfold elements_text. lia. }
  change maxBody with 1048576. lia.
Qed.

(** Such a report blocks the agent's buffer: it is never accepted, and nothing behind
    it is delivered, until the buffer overflows. *)
Theorem oversized_report_stays `{FW : !Firewall} `{WG : !WgIface} c nodeID b (a : Agent) report rest : enrolled c nodeID b ->
  buffered a = report :: rest -> readable report -> fits (usage_json report) = false ->
  flushBuffer (postUsage (http_to c b) c) a = ([], a).
Proof.
  intros He Hb Hr Hf. assert (Hp : postUsage (http_to c b) c report = None).
  { unfold postUsage, do, http_to. change (bs "/v1/nodes/" ++ bc_nodeID c ++ bs "/usage") with (node_path (bc_nodeID c) (bs "usage")).
    rewrite (usage_exchange c nodeID b report He Hr). unfold report_received. by rewrite Hf. }
  unfold flushBuffer. cbn [flushBuffer_loop]. unfold mbind, state_bind, mret, state_ret.
  change (Agent.on_store snapshotRuntime a) with (s_rt (a_store a), set_store (a_store a) a).
  replace (set_store (a_store a) a) with a by (by destruct a). fold (buffered a). by rewrite Hb, Hp.
Qed.

(** *** Enrollment *)

Lemma endpoint_enroll r : readable r ->
  endpoint_of now seen rnd (bs "POST") (bs "/v1/nodes/enroll") (Some (Marshal (enroll_json r))) =
  Some (ep_enroll (if fits (enroll_json r) then Some r else None) rnd).
Proof.
  intros Hr. transitivity (Some (ep_enroll (v ← body_value (Some (Marshal (enroll_json r))); enroll_of v) rnd)); [done|].
  f_equal. f_equal. pose proof (message_limited r Hr) as E. cbn [to_json enroll_message] in E. rewrite E. unfold fits.
  destruct (_ <=? _); [|done]. exact (from_to r Hr).
Qed.

Lemma enroll_exchange c r b : readable r ->
  let received := if fits (enroll_json r) then Some r else None in
  exchange (bc_baseURL c) (request_of c (bs "POST") (bs "/v1/nodes/enroll") (Some (enroll_json r))) b =
  (an_enroll (Api.enroll uuid_text received rnd (store_of b)).1,
   set_portal (Portal.set_store (Api.enroll uuid_text received rnd (store_of b)).2 (bk_portal b)) b).
Proof.
  intros Hr received. rewrite (exchange_request _ _ _ (Some (enroll_json r)) _ _ (endpoint_enroll r Hr)) by done. cbn [mounted].
  unfold answering, mbind, state_bind, on_store. fold received. by destruct (Api.enroll _ _ _ _).
Qed.

(** An agent that the backend enrolls is [enrolled] with the credential it got, for
    an id the backend reads back as it writes it. *)
Theorem enrollment_opens c r b resp : ApiFacts.nodes_ok (store_of b) -> rnd <> [] -> Forall in_u8 rnd -> readable r ->
  (forall n, ValidString (uuid_text n) /\ plain_segment (uuid_text n) = true /\ parse_uuid (uuid_text n) = Some n) ->
  Client.enroll (http_to c b) c r = Some resp ->
  enrolled (setAuth (en_NodeID resp) (en_AuthToken resp) c) (DB.db_next (store_of b))
    (exchange (bc_baseURL c) (request_of c (bs "POST") (bs "/v1/nodes/enroll") (Some (enroll_json r))) b).2.
Proof.
  intros Hok Hr Hbytes Hread Hu. unfold Client.enroll, do, http_to. rewrite enroll_exchange by done. cbn [fst snd answer_text]. unfold Api.enroll.
  destruct (fits _); [|done].
  pose proof (ApiFacts.enroll_run (er_EnrollToken r) (er_NodePubkey r) (er_Name r) rnd (store_of b) Hok) as H.
  destruct (EnrollNode _ _ _ _ _) as [[[id auth]|e] d]; [|by destruct H as [-> ->]].
  destruct H as (Hok' & _ & -> & -> & Hc & _). destruct (Hu (DB.db_next (store_of b))) as (Hv & Hp & Hi).
  rewrite (handle_respond (H := enrolled_message) enrollResponse_of enrolled_json _ eq_refl eq_refl).
  - intros [= <-]. unfold enrolled, setAuth. cbn [bc_nodeID bc_authToken en_NodeID en_AuthToken fst snd].
    split; [done|]. split; [done|]. split.
    + unfold randToken. intros E. apply Hr. by destruct rnd as [|? [|? [|? ?]]].
    + change (store_of (set_portal (Portal.set_store d (bk_portal b)) b)) with d. apply ApiFacts.AuthNode_iff; [done|]. rewrite Hc.
      apply elem_of_app. right. by apply list_elem_of_singleton.
  - done.
  - intros a [= <-]. split; [done|]. by apply ascii_valid, B64Encode_ascii.
Qed.

End Exchange.
End Wire.
