(* ===== verification/SystemRun.v ===== *)
(** * The whole system: a running exit and a changing backend

    The goroutines of the agent ([AgentRun]) interleaved with the transactions of the
    backend.  An answer is made from the database of some moment and may arrive any
    time later. *)

From S2P Require Import Prelude GoStrings Netip Sha256 Authzhash AgentTypes AgentStore AgentUsage Agent AgentFacts AgentWg AgentRun.
From S2P Require Import BackendDB BackendAuthz BackendAuthzFacts BackendUsage BackendWg BackendApi System.
Import Authz AuthzFacts Api Run RunFacts.

Module SystemRun.

Section SystemRun.
Context `{MI : MapIter} `{FW : Firewall} `{WG : WgIface} (uuid_text : Z -> gostr).
Implicit Types (a : Agent) (d : DB.db).

(** What the backend may answer, of the databases [past] there have been: nothing new,
    an error, or what [writeAuthz] makes of one of them.  Nothing is assumed of the
    other calls. *)
Definition answers_from (allow : bool) (past : list DB.db) (R : Type) (e : net R) : R -> Prop :=
  match e in net R return R -> Prop with
  | net_authz q => fun r => r = Err errUnchanged \/ r = Err getAuthz_failed \/
      exists d, d ∈ past /\ r = System.answer_of (Some (writeAuthz uuid_text allow (q_rev q) (q_full q) d))
  | _ => fun _ => True
  end.

(** The long poll answers like this. *)
Lemma ask_answers allow deadline seen past q : (forall x, x ∈ seen -> x.1.2 ∈ past) ->
  answers_from allow past _ (net_authz q) (System.ask uuid_text allow deadline seen q).
Proof.
  intros Hp. unfold System.ask. cbn. induction seen as [|[[d d'] t] seen IH]; cbn [authz]; [right; by left|].
  destruct (q_full q || _).
  - right. right. exists d'. split; [|done]. apply (Hp (d, d', t)). left.
  - destruct (_ <=? 0); [by left|]. apply IH. intros x Hx. apply Hp. by right.
Qed.

Record deployment := { dp_world : world; dp_past : list DB.db }.

(** A step of the exit, or a transaction of the backend on its latest state. *)
Inductive deployment_step (allow : bool) (s : deployment) : deployment -> Prop :=
| ds_exit w : world_step (answers_from allow (dp_past s)) (dp_world s) w -> deployment_step allow s {| dp_world := w; dp_past := dp_past s |}
| ds_backend d d' : last (dp_past s) = Some d -> log_step d d' -> deployment_step allow s {| dp_world := dp_world s; dp_past := dp_past s ++ [d'] |}.

(** *** An answer grants only what was authorized *)

Lemma delta_adds c d add del rev : log_ok d -> (DeltaSince c d).1 = Ok (add, del, rev) -> list_to_set add.*1 ⊆ dom (DB.db_current d).
Proof.
  intros Hlog. unfold DeltaSince. destruct ((0 <? min_rev d) && _); [done|]. destruct (existsb _ _); [done|]. cbn. intros [= <- _ _] x Hx.
  change (x ∈ delta_add (omap (fun '(a, (op, acct)) => match op with DB.op_add => Some (a, acct) | DB.op_del => None end)
    (map_range (replay (rows_after c d))))) in Hx.
  apply elem_of_delta_add in Hx as [acct Hx]. apply elem_of_dom.
  rewrite (log_last d Hlog _ _ _ (replay_after _ _ _ _ Hlog Hx)). by eapply replay_account; [exact Hlog|eapply replay_after].
Qed.

Lemma grants_authorized allow q d r : log_ok d -> r = System.answer_of (Some (writeAuthz uuid_text allow (q_rev q) (q_full q) d)) ->
  grants (net_authz q) r ⊆ dom (DB.db_current d).
Proof.
  intros Hl ->. destruct (System.full_response_spec uuid_text allow d) as (fr & Ef & F1 & _ & F3 & _).
  assert (Hfull : grants (net_authz q) (System.answer_of (Some (full_response uuid_text allow d))) ⊆ dom (DB.db_current d)).
  { rewrite Ef. cbn. rewrite F1. by rewrite <- F3. }
  unfold writeAuthz. destruct (q_full q || _); [exact Hfull|].
  destruct ((DeltaSince (q_rev q) d).1) as [[[add del] rev]|e] eqn:Ed.
  - cbn. rewrite map_map. cbn [am_Addr]. by eapply delta_adds.
  - destruct e; first [exact Hfull|apply empty_subseteq].
Qed.

(** *** The invariant *)

Definition ever (past : list DB.db) (x : Addr) : Prop := exists d, d ∈ past /\ x ∈ dom (DB.db_current d).

Definition deployment_ok (K0 : gset Addr) (d0 : DB.db) (s : deployment) : Prop :=
  world_ok K0 (dp_world s) /\ (forall x, x ∈ w_granted (dp_world s) -> ever (dp_past s) x) /\
  Forall (fun d => rtc log_step d0 d) (dp_past s).

Lemma step_grants allow past d0 a t g t' a' : log_ok d0 -> Forall (fun d => rtc log_step d0 d) past ->
  goroutine_step (answers_from allow past) a t g t' a' -> forall x, x ∈ g -> ever past x.
Proof.
  intros Hl HF H.
  assert (P : forall A (p p' : prog A) g a', prog_step (answers_from allow past) a p g p' a' -> forall x, x ∈ g -> ever past x).
  { intros A p p' g' a'' Hs x Hx. destruct Hs as [B m k|R e k r Hr]; [by apply not_elem_of_empty in Hx|]. destruct e as [q| | |]; cbn in Hx; try by apply not_elem_of_empty in Hx.
    destruct Hr as [->|[->|(d & Hd & Hr)]]; [by apply not_elem_of_empty in Hx..|]. exists d. split; [done|].
    rewrite Forall_forall in HF. destruct (log_steps_spec _ _ (HF d Hd) Hl) as (Hld & _). by apply (grants_authorized allow q d r Hld Hr). }
  destruct H; try (by eapply P); intros x Hx; by apply not_elem_of_empty in Hx.
Qed.

Lemma deployment_step_ok allow K0 d0 s s' : log_ok d0 -> deployment_step allow s s' -> deployment_ok K0 d0 s -> deployment_ok K0 d0 s'.
Proof.
  intros Hl H (Hw & Hg & HF). destruct H as [w H|d d' Hd H].
  - split; [by eapply world_step_ok|]. split; [|done]. destruct H as [i t g t' a' Hi H|f Hf]; [|done].
    cbn [dp_world dp_past w_granted]. intros x [Hx|Hx]%elem_of_union; [by apply Hg|by eapply step_grants].
  - split; [done|]. cbn [dp_world dp_past]. split.
    + intros x Hx. destruct (Hg x Hx) as (d1 & H1 & H2). exists d1. split; [|done]. apply elem_of_app. by left.
    + apply Forall_app. split; [done|]. apply Forall_singleton. rewrite Forall_forall in HF.
      eapply rtc_r; [|exact H]. apply HF. apply last_Some_elem_of in Hd. done.
Qed.

(** [C2] An exit admits nobody the backend has not authorized.  However the sync, usage,
    heartbeat and WireGuard loops of the agent interleave with each other and with
    the transactions of the backend, however late answers arrive, and whatever is
    removed from the kernel set by another hand: every address in the set was there
    when the agent started, or was in the authorized set of the backend at some
    moment since. *)
Theorem never_admits_unauthorized allow keypair enroll a0 gos a d0 s :
  log_ok d0 -> Run keypair enroll a0 = (Ok gos, a) ->
  rtc (deployment_step allow) {| dp_world := {| w_agent := a; w_gos := gos; w_granted := ∅ |}; dp_past := [d0] |} s ->
  forall x, x ∈ kernel (w_agent (dp_world s)) -> x ∈ kernel a0 \/ exists d, d ∈ dp_past s /\ rtc log_step d0 d /\ x ∈ dom (DB.db_current d).
Proof.
  intros Hl Hr Hs.
  assert (Hok : deployment_ok (kernel a0) d0 s).
  { remember {| dp_world := _; dp_past := [d0] |} as s0 eqn:E0.
    assert (H0 : deployment_ok (kernel a0) d0 s0).
    { subst s0. split; [by eapply Run_world|]. split; [intros x Hx; by apply not_elem_of_empty in Hx|]. by apply Forall_singleton. }
    clear E0. induction Hs as [|s1 s2 s3 H _ IH]; [done|]. by eapply IH, deployment_step_ok. }
  destruct Hok as ([Hk _] & Hg & HF). intros x Hx. specialize (Hk x Hx). apply elem_of_union in Hk as [Hk|Hk]; [by left|]. right.
  destruct (Hg x Hk) as (d & Hd & Hc). exists d. split; [done|]. split; [|done]. rewrite Forall_forall in HF. by apply HF.
Qed.

End SystemRun.
End SystemRun.
