(* ===== verification/SystemExamples.v ===== *)
(** * An exit and a backend

    The agent of [AgentExamples] polling and reporting to the backend of
    [BackendExamples]. *)

From S2P Require Import Prelude GoStrings Netip Sha256 Authzhash AgentTypes AgentStore AgentUsage Agent AgentFacts AgentExamples.
From S2P Require Import BackendDB BackendAuthz BackendAuthzFacts BackendUsage BackendWg BackendApi BackendExamples System.
From S2P Require Import AgentWg AgentWgFacts BackendWgFacts SystemWg.
Import MemFirewall MemWg AuthzFacts Api System Authzhash Tunnel.

Module Deployed.

Definition no_text : Z -> gostr := fun _ => [].
Definition backend : DB.db := Deployment.db_fresh.
Definition one_look : list (DB.db * DB.db * Z) := [(backend, backend, 0)].

Lemma one_look_observes : observes backend one_look backend.
Proof. apply obs_next; [apply rtc_refl|apply rtc_refl|]. apply obs_end, rtc_refl. Qed.

Lemma one_look_lasts : lasts_until 0 one_look.
Proof. exists (backend, backend, 0). split; [reflexivity|]. cbn. lia. Qed.

Lemma poll_follows_backend_witness :
  exists d, rtc log_step backend d /\
    ((synced (runSync_iter (ask no_text true 0 one_look) syncLoop_init ex_agent).2 d /\
      follows (runSync_iter (ask no_text true 0 one_look) syncLoop_init ex_agent).2 backend) \/ true = false).
Proof.
  destruct (poll_follows_backend no_text true 0 one_look backend backend syncLoop_init ex_agent _ _ Deployment.db_fresh_log
    (or_introl (or_intror (or_introl eq_refl))) one_look_observes one_look_lasts eq_refl eq_refl ltac:(vm_compute; reflexivity)
    (surjective_pairing _)) as (d & H1 & _ & [H2|[H2 _]]); exists d; (split; [exact H1|]).
  - left. exact H2.
  - right. exact H2.
Defined.

Definition node_config : handlerConfig :=
  {| hc_usageIntervalS := 30; hc_graceMinutes := 240;
     hc_wg := {| Wg.ws_port := 51820; Wg.ws_pools := Wg.DefaultWgPools; Wg.ws_dns4 := AddrZero; Wg.ws_dns6 := AddrZero; Wg.ws_mtu := 1280 |} |}.

Lemma drift_detected_and_healed_witness :
  let a1 := (runHeartbeat_iter (heartbeat_answer node_config 7 (Authz.AuthzStatus Authz.no_status backend).2 backend) ex_agent).2 in
  a_forceResync a1 = true <-> cursor ex_agent = Authz.max_rev backend /\ kernel ex_agent <> dom (DB.db_current backend).
Proof.
  refine (proj1 (drift_detected_and_healed no_text node_config 7 backend backend ex_agent _ Deployment.db_fresh_log (rtc_refl _ _)
    eq_refl _ _ _ eq_refl _)).
  - intros x Hx. change (x ∈ ({[addr_a]} : gset Addr)) in Hx. apply elem_of_singleton in Hx as ->. split; [reflexivity|]. split; vm_compute; congruence.
  - intros x Hx. apply elem_of_dom in Hx as [v Hv]. discriminate.
  - intros E. exfalso. vm_compute in E. discriminate E.
  - destruct (runHeartbeat_iter _ ex_agent) as [[] a1]. reflexivity.
Defined.

(** The interface of [AgentExamples] against the store of [BackendExamples]: a
    stray peer is removed and the issued one configured. *)
Definition wg_agent : Agent := set_wg (Some ex_wg) ex_agent.

Lemma prefix_text_plain a t : addr_wf a -> zoneless a -> t <> [] -> 44 ∉ t -> MemWg.plain (addr_String a ++ t).
Proof.
  intros Ha Hz Hn Ht. split; [intros [_ ?]%app_eq_nil; done|]. intros [Hin|Hin]%elem_of_app; [|done].
  pose proof (addr_String_chars a Ha Hz) as HF. rewrite Forall_forall in HF. specialize (HF 44 Hin).
  unfold addr_char, hex_char, colon, dot in HF. lia.
Qed.

Lemma ex_tool_takes : SystemWg.tool_takes Tunnel.pools ex_wg.
Proof.
  intros k i Hk Hi. destruct (WgFacts.slot_entry_ok Tunnel.pools k i Tunnel.default_pools_ok Hi Hk) as (_ & [W4 Z4] & [W6 Z6]).
  split; [|split].
  - cbn. apply bool_decide_eq_false. intros ->. vm_compute in Hk. discriminate.
  - apply prefix_text_plain; try done. apply (bool_decide_eq_true_1 _). reflexivity.
  - apply prefix_text_plain; try done. apply (bool_decide_eq_true_1 _). reflexivity.
Qed.

Lemma wg_sync_mirrors_witness :
  exists w', a_wg (runWgSync_iter (SystemWg.wg_ask Authzhash.bytes_le Tunnel.pools Tunnel.db_issued) ex_wg wgLoop_init wg_agent).2 = Some w' /\
    wg_peers w' = SystemWg.issued_peers Tunnel.pools Tunnel.db_issued.
Proof.
  destruct (SystemWg.wg_sync_mirrors Authzhash.bytes_le Tunnel.pools 5 Tunnel.db_issued wgLoop_init _ wg_agent _ ex_wg
    Tunnel.default_pools_ok eq_refl Tunnel.issued_reachable ex_wg_up eq_refl ex_tool_takes (surjective_pairing _)) as (_ & _ & H & _).
  destruct (H (or_introl eq_refl)) as (w' & H1 & _ & _ & H2 & _). exists w'. split; [exact H1|exact H2].
Defined.

Example issued_on_interface :
  map_to_list (SystemWg.issued_peers Tunnel.pools Tunnel.db_issued) =
  [(Tunnel.key0, peer_of Tunnel.key0 [bs "10.64.0.3/32"; bs "fc10:f1b5:ea17::3/128"])].
Proof. unfold Tunnel.db_issued. rewrite Tunnel.issued_eq. vm_compute. reflexivity. Qed.

End Deployed.

(** * A running exit, scheduled

    Schedules of the goroutines of [AgentRun] on the agent of [AgentExamples] and the
    backend of [BackendExamples]. *)

From S2P Require Import AgentRun.
From S2P Require Import BackendWhitelist BackendWhitelistFacts BackendConsent BackendFrame SystemRun.
Import MemFirewall MemWg Authz AuthzFacts Frame Api Run RunFacts SystemRun.

Module Scheduled.

(** ** A scheduler *)

Section Scheduler.
Context `{MI : MapIter} `{FW : Firewall} `{WG : WgIface}.
Implicit Types (h : forall R, net R -> R) (w : world).

(** The next call of a program, or its answer by [h]. *)
Definition next {A} h (a : Agent) (p : prog A) : option (gset Addr * prog A * Agent) :=
  match p with
  | p_ret _ => None
  | p_call m k => let '(b, a') := m a in Some (∅, k b, a')
  | p_net e k => Some (grants e (h _ e), k (h _ e), a)
  end.

(** The next step of a goroutine; a loop at its end begins again. *)
Definition go h (a : Agent) (g : goroutine) : gset Addr * goroutine * Agent :=
  match g with
  | g_sync p =>
      match next h a p with
      | Some (gr, p', a') => (gr, g_sync p', a')
      | None => (∅, match p with p_ret l => g_sync (runSync_p l) | _ => g_ended end, a)
      end
  | g_usage p =>
      match next h a p with
      | Some (gr, p', a') => (gr, g_usage p', a')
      | None => (∅, match p with p_ret _ => g_usage runUsage_p | _ => g_ended end, a)
      end
  | g_heartbeat p =>
      match next h a p with
      | Some (gr, p', a') => (gr, g_heartbeat p', a')
      | None => (∅, match p with p_ret _ => g_heartbeat runHeartbeat_p | _ => g_ended end, a)
      end
  | g_wg p =>
      match next h a p with
      | Some (gr, p', a') => (gr, g_wg p', a')
      | None => (∅, match p with p_ret l => g_wg (runWgSync_p l) | _ => g_ended end, a)
      end
  | g_ended => (∅, g_ended, a)
  end.

(** Goroutine [i] takes [n] steps. *)
Fixpoint turn h (i n : nat) (w : world) : world :=
  match n with
  | O => w
  | S n =>
      match w_gos w !! i with
      | None => w
      | Some t =>
          let '(gr, t', a') := go h (w_agent w) t in
          turn h i n {| w_agent := a'; w_gos := <[i := t']> (w_gos w); w_granted := w_granted w ∪ gr |}
      end
  end.

Lemma next_step {A} answers h a (p : prog A) g p' a' : (forall R e, answers R e (h R e)) ->
  next h a p = Some (g, p', a') -> prog_step answers a p g p' a'.
Proof.
  intros Hh. destruct p as [x|B m k|R e k]; cbn; [done| |].
  - destruct (m a) as [b a1] eqn:E. intros [= <- <- <-]. replace b with (m a).1 by (by rewrite E). replace a1 with (m a).2 by (by rewrite E). constructor.
  - intros [= <- <- <-]. by constructor.
Qed.

Lemma go_step answers h a t : (forall R e, answers R e (h R e)) ->
  goroutine_step answers a t (go h a t).1.1 (go h a t).1.2 (go h a t).2.
Proof.
  intros Hh. destruct t as [p|p|p|p|]; cbn [go]; [..|apply gs_end];
    (destruct (next h a p) as [[[g p'] a']|] eqn:E; [constructor; by apply (next_step answers h)|]);
    destruct p; first [apply gs_sync_next|apply gs_usage_next|apply gs_heartbeat_next|apply gs_wg_next|apply gs_end].
Qed.

Lemma turn_steps answers h i n w : (forall R e, answers R e (h R e)) -> rtc (world_step answers) w (turn h i n w).
Proof.
  intros Hh. revert w. induction n as [|n IH]; intros w; cbn [turn]; [done|]. destruct (w_gos w !! i) as [t|] eqn:Ht; [|done].
  pose proof (go_step answers h (w_agent w) t Hh) as Hs. destruct (go h (w_agent w) t) as [[g t'] a']. eapply rtc_l; [|apply IH]. by apply (ws_go answers w i t g t' a').
Qed.

(** The exit of a deployment takes its turn. *)
Lemma exit_turn uuid_text allow h i n w past : (forall R e, answers_from uuid_text allow past R e (h R e)) ->
  rtc (deployment_step uuid_text allow) {| dp_world := w; dp_past := past |} {| dp_world := turn h i n w; dp_past := past |}.
Proof.
  intros Hh. induction (turn_steps _ h i n w Hh) as [|w1 w2 w3 H _ IH]; [done|]. eapply rtc_l; [|exact IH].
  by apply (ds_exit uuid_text allow {| dp_world := w1; dp_past := past |}).
Qed.

End Scheduler.

(** ** A start and a full pull *)

Definition enroll_ok : enrollRequest -> option enrollResponse := fun _ => Some {| en_NodeID := bs "n"; en_AuthToken := bs "t" |}.
Definition started : world :=
  let r := Run (bs "pub", bs "seed") enroll_ok ex_agent in
  {| w_agent := r.2; w_gos := match r.1 with Ok gos => gos | Err _ => [] end; w_granted := ∅ |}.

(** The backend answers a poll from [d], acknowledges reports with [ack] and drops the
    rest. *)
Definition answering (d : DB.db) (ack : usageAck) (R : Type) (e : net R) : R :=
  match e in net R return R with
  | net_authz q => System.answer_of (Some (writeAuthz Deployed.no_text true (q_rev q) (q_full q) d))
  | net_usage _ => Some ack
  | net_heartbeat _ => None
  | net_wg _ => Err getAuthz_failed
  end.

Definition no_revocations : usageAck := {| ua_Ack := []; ua_Revoke := [] |}.

Lemma answering_from past d ack : d ∈ past -> forall R e, answers_from Deployed.no_text true past R e (answering d ack R e).
Proof. intros Hd R [q| | |]; cbn; try done. right. right. by exists d. Qed.

Definition published : list DB.db := [Deployment.db_fresh; Deployment.db_published].
Definition pulled : world := turn (answering Deployment.db_published no_revocations) 0 30 started.

Lemma started_run : Run (bs "pub", bs "seed") enroll_ok ex_agent = (Ok (w_gos started), w_agent started).
Proof.
  assert (E : is_ok (Run (bs "pub", bs "seed") enroll_ok ex_agent).1 = true) by (vm_compute; reflexivity).
  unfold started. by destruct (Run (bs "pub", bs "seed") enroll_ok ex_agent) as [[gos|e] a].
Qed.

Lemma published_step : deployment_step Deployed.no_text true {| dp_world := started; dp_past := [Deployment.db_fresh] |} {| dp_world := started; dp_past := published |}.
Proof.
  apply (ds_backend Deployed.no_text true {| dp_world := started; dp_past := [Deployment.db_fresh] |} Deployment.db_fresh); [done|].
  exact (step_recompute _ (RecomputeAuthz Deployment.db_fresh).1 _ (surjective_pairing _)).
Qed.

Definition at_pull : deployment := {| dp_world := pulled; dp_past := published |}.

Lemma at_pull_reached : rtc (deployment_step Deployed.no_text true) {| dp_world := started; dp_past := [Deployment.db_fresh] |} at_pull.
Proof.
  eapply rtc_l; [exact published_step|].
  apply exit_turn. apply answering_from. apply list_elem_of_further, list_elem_of_here.
Qed.

(** The agent starts, the backend publishes its set, the sync loop pulls it: what the
    kernel then holds, it did not hold before. *)
Lemma never_admits_unauthorized_witness :
  (exists x, x ∈ kernel (w_agent (dp_world at_pull)) /\ x ∉ kernel ex_agent) /\
  forall x, x ∈ kernel (w_agent (dp_world at_pull)) ->
    x ∈ kernel ex_agent \/ exists d, d ∈ dp_past at_pull /\ rtc log_step Deployment.db_fresh d /\ x ∈ dom (DB.db_current d).
Proof.
  split; [exists FipsaddrVectors.addr1; split; apply (bool_decide_eq_true_1 _); vm_compute; reflexivity|].
  apply (never_admits_unauthorized Deployed.no_text true (bs "pub", bs "seed") enroll_ok ex_agent (w_gos started) (w_agent started)
    Deployment.db_fresh at_pull Deployment.db_fresh_log started_run at_pull_reached).
Defined.

(** ** A revocation that arrives late *)

(** Forty days later the time of both identities has run out, and the next report makes
    the backend revoke them; the host then buys another thirty days. *)
Definition db_late : DB.db := Eval vm_compute in DB.set_now (Deployment.t0 + 40 * Usage.day_ns) Deployment.db_published.
Definition db_lapsed : DB.db := Eval vm_compute in (RecomputeAuthz db_late).2.
Definition db_renewed : DB.db := Eval vm_compute in Consent.run_op Deployment.host_step db_lapsed.
Definition revoking : usageAck :=
  {| ua_Ack := []; ua_Revoke := match (RecomputeAuthz db_late).1 with Ok (removed, _) => removed | Err _ => [] end |}.

(** The usage loop holds the acknowledgement that revokes; the sync loop pulls the
    removal, then the renewal; then the usage loop goes on. *)
Definition race_removed (w : world) : world :=
  turn (answering db_lapsed no_revocations) 0 14 (turn (answering db_lapsed revoking) 1 7 w).
Definition race (w : world) : world :=
  turn (answering db_renewed no_revocations) 1 18 (turn (answering db_renewed no_revocations) 0 14 (race_removed w)).
Definition revoked : world := race pulled.

Lemma renewed_run : Consent.run_op Deployment.host_step db_lapsed = db_renewed.
Proof. unfold Consent.run_op, Deployment.host_step, Whitelist.CreditTime, Whitelist.CreateAccount. rewrite Deployment.derive1. vm_compute. reflexivity. Qed.

Lemma lapsed_history : rtc log_step Deployment.db_published db_lapsed.
Proof.
  apply (rtc_l _ _ db_late); [apply step_other; first [reflexivity|vm_compute; discriminate]|]. apply rtc_once.
  assert (E : db_lapsed = (RecomputeAuthz db_late).2) by (vm_compute; reflexivity). rewrite E.
  exact (step_recompute _ (RecomputeAuthz db_late).1 _ (surjective_pairing _)).
Qed.

Lemma renewed_history : rtc log_step db_lapsed db_renewed.
Proof. rewrite <- renewed_run. apply calm_log, calm_op. Qed.

(** The backend moves on. *)
Lemma backend_runs past d d' : rtc log_step d d' -> last past = Some d -> exists more,
  (forall w, rtc (deployment_step Deployed.no_text true) {| dp_world := w; dp_past := past |} {| dp_world := w; dp_past := past ++ more |}) /\
  last (past ++ more) = Some d'.
Proof.
  intros H. revert past. induction H as [d|d d1 d' H _ IH]; intros past Hl.
  - exists []. rewrite app_nil_r. split; [intros w; apply rtc_refl|done].
  - destruct (IH (past ++ [d1])) as (more & H1 & H2); [by rewrite last_snoc|]. exists (d1 :: more). rewrite <- app_assoc in H1, H2. split; [|done].
    intros w. eapply rtc_l; [|apply H1]. by apply (ds_backend Deployed.no_text true {| dp_world := w; dp_past := past |} d).
Qed.

Lemma race_reached w past : last past = Some Deployment.db_published -> exists past',
  rtc (deployment_step Deployed.no_text true) {| dp_world := w; dp_past := past |} {| dp_world := race w; dp_past := past' |} /\
  last past' = Some db_renewed.
Proof.
  intros L. destruct (backend_runs past _ _ lapsed_history L) as (past1 & H1 & L1).
  destruct (backend_runs (past ++ past1) _ _ renewed_history L1) as (past2 & H2 & L2).
  pose proof (last_Some_elem_of _ _ L1) as M1. pose proof (last_Some_elem_of _ _ L2) as M2.
  exists ((past ++ past1) ++ past2). split; [|exact L2]. unfold race, race_removed. eapply rtc_trans; [apply H1|].
  eapply rtc_trans; [apply (exit_turn _ _ (answering db_lapsed revoking) 1 7), answering_from, M1|].
  eapply rtc_trans; [apply (exit_turn _ _ (answering db_lapsed no_revocations) 0 14), answering_from, M1|].
  eapply rtc_trans; [apply H2|].
  eapply rtc_trans; [apply (exit_turn _ _ (answering db_renewed no_revocations) 0 14), answering_from, M2|].
  apply (exit_turn _ _ (answering db_renewed no_revocations) 1 18), answering_from, M2.
Qed.

Lemma revoked_state : cursor (w_agent revoked) = max_rev db_renewed /\ DB.db_current db_renewed <> ∅ /\ kernel (w_agent revoked) = ∅.
Proof. split; [vm_compute; reflexivity|]. split; apply (bool_decide_eq_true_1 _); vm_compute; reflexivity. Qed.

(** The acknowledgement of a report is not ordered with the answers to polls: it can
    take an address back that the backend has authorized again since, and the exit has
    pulled.  The cursor says that the exit is up to date; only the fingerprint in the
    next heartbeat shows the difference. *)
Lemma late_revocation : exists s d,
  rtc (deployment_step Deployed.no_text true) {| dp_world := started; dp_past := [Deployment.db_fresh] |} s /\
  last (dp_past s) = Some d /\ cursor (w_agent (dp_world s)) = max_rev d /\
  DB.db_current d <> ∅ /\ kernel (w_agent (dp_world s)) = ∅.
Proof.
  destruct (race_reached pulled published eq_refl) as (past' & H & L).
  exists {| dp_world := revoked; dp_past := past' |}, db_renewed. split; [exact (rtc_trans _ _ _ at_pull_reached H)|].
  split; [exact L|exact revoked_state].
Qed.

End Scheduled.

(** * An exit enrolls and polls over the wire

    The client of agent/client.go against the backend of [BackendProcessExamples]:
    it enrolls with the operator's token, then its calls are served. *)

From S2P Require Import GoJson GoText Nostr AgentClient.
From S2P Require Import BackendApiFacts Portal Backend BackendSummary PortalExamples BackendProcessExamples SystemWire.
Import Authzhash Api ApiFacts Backend.Backend Client Operations Visitors Wire JsonText Nostr.

Module OnTheWire.

Definition base : gostr := bs "http://[fd00::1]:8080".
Definition issued : backend := history1 [ev_request operator issue] start.

Definition one_look : list (DB.db * DB.db * Z) := [(store_of issued, store_of issued, 60 * time_Second)].

Definition net : backendClient -> backend -> http_request -> option (Z * gostr) :=
  http_to digits undigits_ bytes_le no_url no_url no_key no_key no_sig no_event no_event site (bs "backend") 0 one_look [4; 5; 6].
Definition served : gostr -> http_request -> State backend answer_of :=
  exchange digits undigits_ bytes_le no_url no_url no_key no_key no_sig no_event no_event site (bs "backend") 0 one_look [4; 5; 6].

Definition fresh : backendClient := newBackendClient base.
Definition hello : enrollRequest := {| er_EnrollToken := token1; er_NodePubkey := bs "pk"; er_Name := bs "gate" |}.

(** The node it becomes. *)
Definition welcome : enrollResponse := default {| en_NodeID := []; en_AuthToken := [] |} (Client.enroll (net fresh issued) fresh hello).
Definition node : backendClient := setAuth (en_NodeID welcome) (en_AuthToken welcome) fresh.
Definition after : backend := (served base (request_of fresh (bs "POST") (bs "/v1/nodes/enroll") (Some (enroll_json hello))) issued).2.
Definition nodeID : Z := DB.db_next (store_of issued).

Lemma node_enrolled : enrolled undigits_ node nodeID after.
Proof.
  unfold enrolled. split; [vm_compute; reflexivity|]. split; [vm_compute; reflexivity|]. split; [vm_compute; discriminate|].
  vm_compute. reflexivity.
Qed.

(** A second node cannot use the token, and a request without one is refused. *)
Example second_refused : Client.enroll (net fresh after) fresh hello = None.
Proof. vm_compute. reflexivity. Qed.
Example stranger_refused : getAuthz (net fresh after) fresh {| q_rev := 0; q_wait := 25; q_full := true |} = Err getAuthz_failed.
Proof. vm_compute. reflexivity. Qed.

(** What is asked for on the wire, and how the backend reads it. *)
Example query_text : authz_path (bs "7") {| q_rev := -3; q_wait := 50; q_full := true |} = bs "/v1/nodes/7/authz?rev=-3&wait=50&full=1".
Proof. vm_compute. reflexivity. Qed.
Example params_read : map (fun q => authz_params (bs q)) ["rev=12&wait=50"; "wait=56&full=true"; "rev=99999999999999999999"; "rev=x&wait=-1&full=yes"]%string =
  [(12, 50, false); (0, 25, true); (9223372036854775807, 25, false); (0, 25, false)].
Proof. vm_compute. reflexivity. Qed.

Definition ask_all : authzQuery := {| q_rev := 0; q_wait := 50; q_full := true |}.

(** The bytes of a report, with [`] for the quote. *)
Definition quoted (s : gostr) : gostr := map (fun c => if c =? 96 then 34 else c) s.
Definition sample : usageSample := {| us_Service := bs "<mcr>"; us_Addr := Addr6 (2 ^ 120 * 253 + 5) []; us_Bytes := 12345 |}.
Definition report : usageReport :=
  {| ur_ReportID := bs "r1"; ur_CounterEpoch := bs "boot"; ur_WindowEnd := 1700000000; ur_Samples := [sample] |}.
Example report_text : Marshal (usage_json report) = quoted (bs "{`report_id`:`r1`,`counter_epoch`:`boot`," ++
  bs "`window_end`:`2023-11-14T22:13:20Z`,`samples`:[{`service`:`\u003cmcr\u003e`,`addr`:`fd00::5`,`bytes`:12345}]}").
Proof. vm_compute. reflexivity. Qed.
Example ack_text : answer_text (served base (request_of node (bs "POST") (bs "/v1/nodes/" ++ bc_nodeID node ++ bs "/usage") (Some (usage_json report))) after).1 =
  (200, quoted (bs "{`ack`:`r1`,`revoke`:null}") ++ [10]).
Proof. vm_compute. reflexivity. Qed.

Lemma report_readable : readable report.
Proof.
  split; [by apply literal_valid|]. split; [by apply literal_valid|]. split; [vm_compute; split; congruence|].
  apply Forall_singleton. split; [by apply literal_valid|]. split; [|vm_compute; split; congruence].
  right. split; [vm_compute; split; congruence|done].
Qed.

(** A window of 30841 samples is no report. *)
Definition long_window : usageReport :=
  {| ur_ReportID := bs "r2"; ur_CounterEpoch := bs "boot"; ur_WindowEnd := 1700000000; ur_Samples := replicate (Z.to_nat 30841) sample |}.
Example long_window_is_cut : fits (usage_json long_window) = false.
Proof. apply long_window_cut. unfold long_window. cbn [ur_Samples]. rewrite length_replicate. lia. Qed.

(** Databases without members and peers, and one service. *)
Lemma idle_readable pools d s : DB.db_current d = ∅ -> DB.db_revisions d = [] -> DB.db_wgpeers d = [] -> DB.db_services d = [s] ->
  bool_decide (Forall (fun c => 0 <= c < 128) (DB.sv_key s)) && (0 <=? DB.sv_port s) && (DB.sv_port s <? 2 ^ 16) = true -> db_readable pools d.
Proof.
  intros Hc Hr Hp Hs [[Hk%bool_decide_eq_true H1%Z.leb_le]%andb_true_iff H2%Z.ltb_lt]%andb_true_iff. split; rewrite ?Hr, ?Hp, ?Hs; try done.
  - rewrite Hc. intros a H. by apply lookup_empty_is_Some in H.
  - unfold Authz.max_rev. rewrite Hr. cbn. unfold in_i64, int64_min, int64_max. lia.
  - apply Forall_singleton. split; [by apply ascii_valid|done].
Qed.

Lemma issued_readable : db_readable (pools_of site) (store_of issued).
Proof. eapply idle_readable; vm_compute; reflexivity. Qed.
Lemma after_readable : db_readable (pools_of site) (store_of after).
Proof. eapply idle_readable; vm_compute; reflexivity. Qed.

Lemma digits_valid n : ValidString (digits n).
Proof. apply ascii_valid, FormatInt_ascii. Qed.

Lemma site_readable : settings_readable (handler_config site).
Proof. split; [vm_compute; split; congruence|]. split; [vm_compute; split; congruence|]. split; [vm_compute; split; congruence|]. exact Tunnel.default_pools_ok. Qed.

Lemma calls_are_served_witness :
  enrolled undigits_ node nodeID after /\
  getAuthz (net node after) node ask_all = System.ask digits false (0 + 50 * time_Second) one_look ask_all /\
  postUsage (net node after) node report = match (usage nodeID (Some report) (store_of after)).1 with Body a => Some a | _ => None end.
Proof.
  assert (Hseen : Forall (fun x => db_readable (pools_of site) x.1.2) one_look).
  { apply Forall_singleton. exact issued_readable. }
  destruct (calls_are_served digits undigits_ bytes_le no_url no_url no_key no_key no_sig no_event no_event site (bs "backend") 0 one_look [4; 5; 6]
    node nodeID after node_enrolled digits_valid site_readable after_readable Hseen) as (Hq & _ & Hu & _).
  split; [exact node_enrolled|]. split.
  - refine (Hq ask_all _ _ _).
    + vm_compute. split; discriminate.
    + vm_compute. split; [reflexivity|discriminate].
    + eexists. split; [reflexivity|]. vm_compute. discriminate.
  - assert (E : fits (usage_json report) = true) by (vm_compute; reflexivity).
    pose proof (Hu report report_readable) as H. cbv zeta in H. rewrite E in H. exact (proj1 H).
Defined.

End OnTheWire.
