(* ===== verification/FakePhoenixd.v ===== *)
(** * cmd/fake-phoenixd

    An in-memory Lightning node: invoices under one mutex, and a payment that fires the
    signed webhook at the backend, which is part of the state a handler acts on. *)

From S2P Require Import Prelude GoStrings GoJson GoNet Portal BackendDB BackendPayments BackendCashu BackendRails SystemWire.
Import Json DB Payments Portal Cashu Rails.

(** A 2xx status. *)
Definition is_2xx (status : Z) : bool := (200 <=? status) && (status <? 300).

(** [hex.EncodeToString] of the random bytes. *)
Definition randHex (rnd : list Z) : gostr := HexEncode rnd.

(** The path of a target, as the mux splits it; [None] if a segment needs cleaning or
    unescaping, which is not represented. *)
Definition segments (target : gostr) : option (list gostr) :=
  match Split 47 (match Cut target 63 with Some (p, _) => p | None => target end) with
  | [[]; []] => Some []
  | [] :: l => if forallb Wire.plain_segment l then Some l else None
  | _ => None
  end.

(** An answer: the status, and the body if it is JSON. *)
Definition reply : Type := Z * option jvalue.

(** [GET /] is there for every other path: a line of text.  Another method is none the
    mux knows for it. *)
Definition any_path (method : gostr) : reply := if bool_decide (method = bs "GET") then (200, None) else (405, None).

Module FakePhoenixd.

Record invoice := { iv_Hash : gostr; iv_ExternalID : gostr; iv_AmountSat : Z; iv_Paid : bool }.
Definition set_Paid (b : bool) (i : invoice) : invoice :=
  {| iv_Hash := iv_Hash i; iv_ExternalID := iv_ExternalID i; iv_AmountSat := iv_AmountSat i; iv_Paid := b |}.

(** [sv_webhookURL] and [sv_secret] come from the flags. *)
Record server := { sv_inv : gmap gostr invoice; sv_webhookURL : gostr; sv_secret : list Z }.
Definition set_inv (m : gmap gostr invoice) (s : server) : server :=
  {| sv_inv := m; sv_webhookURL := sv_webhookURL s; sv_secret := sv_secret s |}.
Definition newServer (webhookURL : gostr) (secret : list Z) : server :=
  {| sv_inv := ∅; sv_webhookURL := webhookURL; sv_secret := secret |}.

(** [r.ParseForm] and [r.FormValue]: the body before the query. *)
Definition FormValue (body query key : gostr) : gostr :=
  match filter (fun kv => kv.1 = key) (omap query_pair (Split 38 body) ++ omap query_pair (Split 38 query)) with
  | kv :: _ => kv.2
  | [] => []
  end.

(** [fmt.Sscanf(s, "%d", &n)] of an ASCII text: blanks, but no end of line, then a sign
    and digits; what follows is not read.  A failure leaves [n] as it was. *)
Fixpoint skip_blanks (s : gostr) : option gostr :=
  match s with
  | c :: r => if c =? 10 then None else
              if (c =? 13) && bool_decide (head r = Some 10) then None else
              if is_space c then skip_blanks r else Some s
  | [] => Some []
  end.
Fixpoint take_digits (s : gostr) : gostr :=
  match s with
  | c :: r => if (48 <=? c) && (c <=? 57) then c :: take_digits r else []
  | [] => []
  end.
Definition Sscanf_d (s : gostr) : option Z :=
  s ← skip_blanks s;
  match s with
  | c :: r => ParseInt (if (c =? 43) || (c =? 45) then c :: take_digits r else take_digits s)
  | [] => None
  end.
Definition parseInt (s : gostr) : Z := default 0 (Sscanf_d s).

Definition bolt11_prefix : gostr := bs "lnbcrt-fake-".

(** Sixteen random bytes name the invoice. *)
Definition createInvoice (rnd : list Z) (body query : gostr) (s : server) : reply * server :=
  let amount := parseInt (FormValue body query (bs "amountSat")) in
  let hash := randHex rnd in
  let inv := {| iv_Hash := hash; iv_ExternalID := FormValue body query (bs "externalId"); iv_AmountSat := amount; iv_Paid := false |} in
  ((200, Some (jobj [(bs "amountSat", jnum amount); (bs "paymentHash", jstr hash); (bs "serialized", jstr (bolt11_prefix ++ hash))])),
   set_inv (<[hash := inv]> (sv_inv s)) s).

Definition paidSat (inv : invoice) : Z := if iv_Paid inv then iv_AmountSat inv else 0.

Definition lookup (hash : gostr) (s : server) : reply :=
  match sv_inv s !! hash with
  | None => (404, None)
  | Some inv => (200, Some (jobj [(bs "amountSat", jnum (iv_AmountSat inv)); (bs "isPaid", jbool (iv_Paid inv)); (bs "receivedSat", jnum (paidSat inv))]))
  end.

(** The fields of the event; [json.Marshal] is [marshal]. *)
Definition event_json (inv : invoice) : jvalue :=
  jobj [(bs "type", jstr EventPaymentReceived); (bs "amountSat", jnum (iv_AmountSat inv)); (bs "paymentHash", jstr (iv_Hash inv));
        (bs "externalId", jstr (iv_ExternalID inv)); (bs "timestamp", jnum 0)].

(** A server behind a URL: a body with its signature, and the status ([None]: no
    answer). *)
Section Webhook.
Context {W : Type} (marshal : jvalue -> list Z) (deliver : gostr -> list Z -> gostr -> State W (option Z)).

(** [true] for an answer of 2xx. *)
Definition fireWebhook (s : server) (inv : invoice) : State W bool :=
  let body := marshal (event_json inv) in
  r ← deliver (sv_webhookURL s) body (SignPhoenixSig (sv_secret s) body);
  mret (match r with Some status => is_2xx status | None => false end).

Definition simPay (hash : gostr) : State (server * W) reply := fun '(s, w) =>
  match sv_inv s !! hash with
  | None => ((404, None), (s, w))
  | Some inv =>
      let inv := set_Paid true inv in
      let s := set_inv (<[hash := inv]> (sv_inv s)) s in
      let '(ok, w) := fireWebhook s inv w in
      ((if (ok : bool) then 200 else 502, None), (s, w))
  end.

(** [main]: the mux. *)
Definition serve (rnd : list Z) (method target body : gostr) : State (server * W) (option reply) := fun '(s, w) =>
  match segments target with
  | None => (None, (s, w))
  | Some [path] =>
      if bool_decide (method = bs "POST" /\ path = bs "createinvoice")
      then let '(r, s') := createInvoice rnd body (RawQuery target) s in (Some r, (s', w))
      else (Some (any_path method), (s, w))
  | Some [a; b; c] =>
      if bool_decide (method = bs "GET" /\ a = bs "payments" /\ b = bs "incoming") then (Some (lookup c s), (s, w)) else
      if bool_decide (method = bs "POST" /\ a = bs "sim" /\ c = bs "pay") then let '(r, x) := simPay b (s, w) in (Some r, x)
      else (Some (any_path method), (s, w))
  | _ => (Some (any_path method), (s, w))
  end.

End Webhook.
End FakePhoenixd.
