(* ===== verification/FakeBtcpay.v ===== *)
(** * cmd/fake-btcpay

    Invoices with a checkout page whose buttons fire signed webhooks at the backend; the
    backend may ask the server about the invoice before it answers. *)

From S2P Require Import Prelude GoStrings GoJson GoNet Portal BackendDB BackendPayments BackendCashu BackendRails SystemWire FakePhoenixd.
Import Json DB Payments Portal Cashu Rails.

Module FakeBtcpay.

Record invoice := { iv_ID : gostr; iv_OrderID : gostr; iv_Amount : gostr; iv_Status : gostr }.
Definition set_Status (st : gostr) (i : invoice) : invoice :=
  {| iv_ID := iv_ID i; iv_OrderID := iv_OrderID i; iv_Amount := iv_Amount i; iv_Status := st |}.

Record server := { sv_invoices : gmap gostr invoice; sv_base : gostr; sv_webhookURL : gostr; sv_secret : list Z }.
Definition set_invoices (m : gmap gostr invoice) (s : server) : server :=
  {| sv_invoices := m; sv_base := sv_base s; sv_webhookURL := sv_webhookURL s; sv_secret := sv_secret s |}.
Definition newServer (base webhookURL : gostr) (secret : list Z) : server :=
  {| sv_invoices := ∅; sv_base := base; sv_webhookURL := webhookURL; sv_secret := secret |}.

(** [req.Metadata["orderId"].(string)]: a map has its keys as written. *)
Definition order_of (metadata : list (gostr * jvalue)) : gostr :=
  match snd <$> head (filter (fun kv => kv.1 = bs "orderId") metadata) with
  | Some (jstr s) => s
  | _ => []
  end.

Definition createInvoice (rnd : list Z) (body : option jvalue) (s : server) : reply * server :=
  match (v ← body; l ← as_struct v; amount ← get as_string (bs "amount") l; _ ← get as_string (bs "currency") l;
         metadata ← get as_struct (bs "metadata") l; Some (amount, metadata)) with
  | None => ((400, None), s)
  | Some (amount, metadata) =>
      let id := bs "inv_" ++ randHex rnd in
      let inv := {| iv_ID := id; iv_OrderID := order_of metadata; iv_Amount := amount; iv_Status := bs "New" |} in
      ((200, Some (jobj [(bs "checkoutLink", jstr (sv_base s ++ bs "/i/" ++ id)); (bs "id", jstr id); (bs "status", jstr (bs "New"))])),
       set_invoices (<[id := inv]> (sv_invoices s)) s)
  end.

(** The page: the invoice and where its four buttons post to. *)
Definition buttons : list gostr := [EventInvoiceProcessing; EventInvoiceSettled; EventInvoiceExpired; EventInvoiceInvalid].
Definition checkoutPage (id : gostr) (s : server) : option (invoice * list gostr) :=
  inv ← sv_invoices s !! id; Some (inv, map (fun typ => bs "/sim/" ++ id ++ [47] ++ typ) buttons).

Definition event_json (rnd : list Z) (typ invoiceID : gostr) : jvalue :=
  jobj [(bs "deliveryId", jstr (randHex rnd)); (bs "webhookId", jstr (bs "wh_fake")); (bs "type", jstr typ); (bs "timestamp", jnum 0);
        (bs "storeId", jstr (bs "STORE1")); (bs "invoiceId", jstr invoiceID)].

(** The backend may ask this server about the invoice before it answers the webhook:
    the invoices are part of what [deliver] acts on. *)
Section Webhook.
Context {W : Type} (marshal : jvalue -> list Z) (deliver : gostr -> list Z -> gostr -> State (server * W) (option Z)).

Definition fireWebhook (rnd : list Z) (typ invoiceID : gostr) : State (server * W) bool := fun '(s, w) =>
  let body := marshal (event_json rnd typ invoiceID) in
  let '(r, x) := deliver (sv_webhookURL s) body (SignWebhook (sv_secret s) body) (s, w) in
  (match r with Some status => is_2xx status | None => false end, x).

(** [from_page]: the request comes from the checkout page. *)
Definition simulate (rnd : list Z) (from_page : bool) (id typ : gostr) : State (server * W) reply := fun '(s, w) =>
  match sv_invoices s !! id with
  | None => ((404, None), (s, w))
  | Some inv =>
      let s := set_invoices (<[id := set_Status typ inv]> (sv_invoices s)) s in
      let '(ok, x) := fireWebhook rnd typ id (s, w) in
      ((if (ok : bool) then if from_page then 303 else 200 else 502, None), x)
  end.

(** [main]: the mux. *)
Definition serve (rnd : list Z) (from_page : bool) (method target : gostr) (body : option jvalue) : State (server * W) (option reply) := fun '(s, w) =>
  match segments target with
  | None => (None, (s, w))
  | Some [a; b; c; store; e] =>
      if bool_decide (method = bs "POST" /\ a = bs "api" /\ b = bs "v1" /\ c = bs "stores" /\ e = bs "invoices")
      then let '(r, s') := createInvoice rnd body s in (Some r, (s', w))
      else (Some (any_path method), (s, w))
  | Some [a; id] =>
      if bool_decide (method = bs "GET" /\ a = bs "i") then (Some (match checkoutPage id s with Some _ => 200 | None => 404 end, None), (s, w))
      else (Some (any_path method), (s, w))
  | Some [a; id; typ] =>
      if bool_decide (method = bs "POST" /\ a = bs "sim") then let '(r, x) := simulate rnd from_page id typ (s, w) in (Some r, x)
      else (Some (any_path method), (s, w))
  | _ => (Some (any_path method), (s, w))
  end.

End Webhook.
End FakeBtcpay.
