(* ===== verification/FakePay.v ===== *)
(** * The payment doubles and the backend

    The processes of docs/testing-payments.md wired together: the clients and webhooks
    of backend/payments against fake-phoenixd, fake-cashu-mint and fake-btcpay. *)

From S2P Require Import Prelude GoStrings GoJson GoNet Portal BackendDB BackendPayments BackendCashu BackendRails SystemWire FakePhoenixd FakeBtcpay.
Import Json DB Payments Portal Cashu Rails.

(** ** cmd/fake-cashu-mint

    A mint without state of its own: a quote asks fake-phoenixd for the amount, and a
    melt drives its payment. *)

Module FakeMint.
Section FakeMint.
Context `{CL : CashuLib} {W : Type}.

(** fake-phoenixd behind its URL: a method and a URL. *)
Context (phoenixd : gostr -> gostr -> State W (option reply)) (phoenixdURL mintURL : gostr).
(** gonuts' [NewTokenV3] and [Serialize]. *)
Context (TokenV3 : list (Proof DLEQProof) -> gostr -> option gostr).

Definition hashFromBolt11 (b : gostr) : gostr := TrimPrefix b FakePhoenixd.bolt11_prefix.

(** Neither the status nor the error of the decoder is looked at. *)
Definition lookupAmount (hash : gostr) : State W Z :=
  r ← phoenixd (bs "GET") (phoenixdURL ++ bs "/payments/incoming/" ++ hash);
  mret match r with
       | Some (_, Some v) => default 0 (l ← as_struct v; get (as_int 64) (bs "amountsat") l)
       | _ => 0
       end.

(** A string field of a request body that may be no JSON. *)
Definition body_field (key : gostr) (body : option jvalue) : gostr :=
  default [] (v ← body; l ← as_struct v; get as_string key l).

Definition meltQuote (body : option jvalue) : State W reply :=
  let hash := hashFromBolt11 (body_field (bs "request") body) in
  amount ← lookupAmount hash;
  mret (200, Some (jobj [(bs "amount", jnum amount); (bs "fee_reserve", jnum 0); (bs "quote", jstr hash); (bs "state", jstr (bs "UNPAID"))])).

Definition melt (body : option jvalue) : State W reply :=
  r ← phoenixd (bs "POST") (phoenixdURL ++ bs "/sim/" ++ body_field (bs "quote") body ++ bs "/pay");
  mret match r with
       | None => (502, None)
       | Some (status, _) => if Z.quot status 100 =? 2 then (200, Some (jobj [(bs "state", jstr (bs "PAID"))])) else (502, None)
       end.

(** [fmt.Sscanf(s, "%d", &amount)] on a uint64: no sign. *)
Definition Sscanf_u (s : gostr) : option Z := s ← FakePhoenixd.skip_blanks s; ParseUint (FakePhoenixd.take_digits s).

(** The token, or an error. *)
Definition sim_proof (amount : Z) : Proof DLEQProof :=
  {| pf_Amount := amount; pf_Id := bs "00ffffffffffffff"; pf_Secret := bs "fake-secret"; pf_C := bs "02" ++ replicate 64 48; pf_Witness := []; pf_DLEQ := None |}.
Definition simToken (query : gostr) : option gostr :=
  TokenV3 [sim_proof (default 2000 (Sscanf_u (QueryGet query (bs "amount"))))] mintURL.

(** [main]: the mux; [GET /sim/token] answers with text. *)
Definition serve (method target : gostr) (body : option jvalue) : State W (option reply) :=
  match segments target with
  | None => mret None
  | Some [a; b; c; d] =>
      if bool_decide (method = bs "POST" /\ a = bs "v1" /\ b = bs "melt" /\ c = bs "quote" /\ d = bs "bolt11") then r ← meltQuote body; mret (Some r)
      else mret (Some (any_path method))
  | Some [a; b; c] =>
      if bool_decide (method = bs "POST" /\ a = bs "v1" /\ b = bs "melt" /\ c = bs "bolt11") then r ← melt body; mret (Some r)
      else mret (Some (any_path method))
  | Some [a; b] =>
      if bool_decide (method = bs "GET" /\ a = bs "sim" /\ b = bs "token")
      then mret (Some (match simToken (RawQuery target) with Some _ => 200 | None => 500 end, None))
      else mret (Some (any_path method))
  | _ => mret (Some (any_path method))
  end.

End FakeMint.
End FakeMint.

(** ** The processes *)

Module Smoke.
Section Smoke.
Context `{MI : MapIter} `{CL : CashuLib}.
(** encoding/json on bytes; the backend's webhook URL and secret. *)
Context (marshal : jvalue -> list Z) (decode_btcpay : list Z -> option WebhookEvent) (decode_phoenix : list Z -> option PhoenixEvent).
Context (hook : gostr) (secret : list Z).

Definition body_text (b : rail_body) : gostr := match b with form_body t => t | _ => [] end.
Definition body_json (b : rail_body) : option jvalue := match b with json_body v => Some v | _ => None end.

(** A URL below [base] reaches the server there, any other nothing. *)
Definition below {W} (base url : gostr) (serve : gostr -> State W (option reply)) : State W (option reply) :=
  if HasPrefix url base then serve (TrimPrefix url base) else mret None.

(** *** phoenixd, with the backend behind its webhook *)

Definition phoenixd_hook (url : gostr) (body : list Z) (sig : gostr) : State db (option Z) := fun d =>
  if bool_decide (url = hook) then let '((status, _), d') := phoenixd_webhook decode_phoenix secret (Some body) sig d in (Some status, d')
  else (None, d).

Definition phoenixd_http (base : gostr) (rnd : list Z) (r : rail_request) : State (FakePhoenixd.server * db) (option reply) :=
  below base (rr_url r) (fun target => FakePhoenixd.serve marshal phoenixd_hook rnd (rr_method r) target (body_text (rr_body r))).

(** *** The mint, with phoenixd behind it *)

(** [json.Marshal] of gonuts' proofs. *)
Context (proofs_json : list (Proof DLEQProof) -> jvalue) (TokenV3 : list (Proof DLEQProof) -> gostr -> option gostr).

Definition mint_json (b : mint_body) : jvalue :=
  match b with
  | quote_body request unit_ => jobj [(bs "request", jstr request); (bs "unit", jstr unit_)]
  | melt_body quote inputs => jobj [(bs "inputs", proofs_json inputs); (bs "quote", jstr quote)]
  end.

Definition mint_http (phoenixdURL mintURL : gostr) (p : mint_post) : State (FakePhoenixd.server * db) (option reply) :=
  below mintURL (mp_url p) (fun target =>
    FakeMint.serve (fun method url => phoenixd_http phoenixdURL []
                      {| rr_method := method; rr_url := url; rr_auth := auth_basic [] []; rr_body := no_body |})
      phoenixdURL mintURL TokenV3 (bs "POST") target (Some (mint_json (mp_body p)))).

(** The world after the posts of the redeemer, and what the next one is answered. *)
Definition after_posts (phoenixdURL mintURL : gostr) (w : FakePhoenixd.server * db) (sent : list mint_post) : FakePhoenixd.server * db :=
  foldl (fun w p => (mint_http phoenixdURL mintURL p w).2) w sent.
Definition fake_mints (phoenixdURL mintURL : gostr) (w : FakePhoenixd.server * db) : Mints :=
  fun sent p => (mint_http phoenixdURL mintURL p (after_posts phoenixdURL mintURL w sent)).1.

(** *** BTCPay, with the backend behind its webhook and the client of the backend in
    front of it *)

(** A question to the server fires nothing. *)
Definition btcpay_get (base : gostr) (s : FakeBtcpay.server) (r : rail_request) : option reply :=
  (below base (rr_url r) (fun target =>
     FakeBtcpay.serve marshal (fun _ _ _ => mret None) [] false (rr_method r) target (body_json (rr_body r))) (s, tt)).1.

(** The handler confirms a settlement with the client [c] (the server at [c]'s URL). *)
Definition btcpay_hook (c : Client) (url : gostr) (body : list Z) (sig : gostr) : State (FakeBtcpay.server * db) (option Z) := fun '(s, d) =>
  if bool_decide (url = hook) then
    let '((status, _), d') := btcpay_webhook decode_btcpay (Some (InvoiceStatus (btcpay_get (cl_baseURL c) s) c)) secret (Some body) sig d in
    (Some status, (s, d'))
  else (None, (s, d)).

End Smoke.
End Smoke.
