(* ===== verification/FakePayFacts.v ===== *)
(** * cmd/: the payment flows the doubles stand in for

    The clients and webhooks of the backend against the doubles of [FakePay]: what an
    invoice, a payment and a melt come to when the processes run together. *)

From S2P Require Import Prelude GoStrings GoJson Netip GoNet Sha256 Portal PortalFacts BackendDB BackendAuthz BackendAuthzFacts BackendUsage BackendUsageFacts.
From S2P Require Import BackendWhitelist BackendWhitelistFacts BackendConsent BackendPayments BackendPaymentsFacts BackendSales.
From S2P Require Import BackendCashu BackendRails SystemWire FakePhoenixd FakePay FakeBtcpay.
Import Json DB Authz AuthzFacts Whitelist WhitelistFacts Payments PaymentsFacts Sales Portal Cashu CashuFacts Rails.

Module FakePayFacts.

(** ** Signatures and paths *)

Lemma HexEncode_chars b : Forall in_u8 b -> Forall (fun c => unreserved c = true /\ is_space c = false /\ c <> 115 /\ c <> 46) (HexEncode b).
Proof.
  intros Hb. assert (D : forall v, 0 <= v < 16 -> unreserved (hex_digit v) = true /\ is_space (hex_digit v) = false /\ hex_digit v <> 115 /\ hex_digit v <> 46).
  { assert (Forall (fun v => unreserved (hex_digit v) = true /\ is_space (hex_digit v) = false /\ hex_digit v <> 115 /\ hex_digit v <> 46) (seqZ 0 16)) as HF
      by (repeat (apply Forall_cons; split; [by vm_compute|]); constructor).
    intros v Hv. rewrite Forall_forall in HF. apply HF, elem_of_seqZ. lia. }
  unfold HexEncode. induction Hb as [|x b Hx Hb IH]; [constructor|]. rewrite bind_cons. unfold in_u8 in Hx. cbn [app].
  repeat (apply Forall_cons; split; [apply D; first [split; [apply Z.div_pos|apply Z.div_lt_upper_bound]; lia|apply Z.mod_pos_bound; lia]|]). exact IH.
Qed.


Lemma verify_btcpay_signed secret body : secret <> [] -> VerifyWebhook secret body (SignWebhook secret body) = true.
Proof.
  intros Hs. unfold VerifyWebhook, SignWebhook, HasPrefix, TrimPrefix. rewrite bool_decide_eq_false_2 by done.
  unfold HasPrefix. rewrite take_app_length, bool_decide_eq_true_2, drop_app_length by done. cbn [negb].
  rewrite HexDecode_Encode by apply hmac_bytes. by apply bool_decide_eq_true.
Qed.

(** A path of plain segments is split into them. *)
Definition path_of (l : list gostr) : gostr := l ≫= cons 47.

Lemma Split_path l : Forall (fun s => 47 ∉ s) l -> Split 47 (path_of l) = [] :: l.
Proof.
  enough (forall a, 47 ∉ a -> Forall (fun s => 47 ∉ s) l -> Split 47 (a ++ path_of l) = a :: l) as H by (intros Hl; by apply (H [] ltac:(apply not_elem_of_nil))).
  unfold path_of. induction l as [|s l IH]; intros a Ha Hl.
  - rewrite app_nil_r. by apply Split_notin.
  - apply Forall_cons in Hl as [Hs Hl]. rewrite bind_cons. change ((47 :: s) ++ l ≫= cons 47) with (47 :: (s ++ l ≫= cons 47)).
    rewrite Split_app by done. by rewrite IH.
Qed.

Lemma plain_notin c s : Wire.plain_segment s = true -> unreserved c = false -> c ∉ s.
Proof. intros Hs Hc. apply Wire.unreserved_notin; [|done]. by apply Wire.plain_segment_chars. Qed.

Lemma segments_path l : l <> [] -> Forall (fun s => Wire.plain_segment s = true) l -> segments (path_of l) = Some l.
Proof.
  intros Hn Hl. unfold segments. rewrite Cut_notin.
  - rewrite Split_path by (eapply Forall_impl; [exact Hl|]; intros s Hs; by apply plain_notin).
    assert (forallb Wire.plain_segment l = true) as E.
    { apply forallb_forall. intros x Hx%list_elem_of_In. rewrite Forall_forall in Hl. by apply Hl. }
    destruct l as [|[|c s] [|s' l]]; [done| | | |]; by rewrite ?E.
  - unfold path_of. intros Hin. apply list_elem_of_bind in Hin as (s & Hin & Hs). rewrite Forall_forall in Hl.
    apply elem_of_cons in Hin as [?|Hin]; [lia|]. revert Hin. by apply plain_notin; [apply Hl|].
Qed.

Lemma randHex_plain rnd : Forall in_u8 rnd -> rnd <> [] -> Wire.plain_segment (randHex rnd) = true.
Proof.
  intros Hr Hn. unfold randHex. pose proof (HexEncode_chars rnd Hr) as HF. unfold Wire.plain_segment.
  assert (L : (2 <= length (HexEncode rnd))%nat) by (rewrite length_HexEncode; destruct rnd; [done|cbn; lia]).
  rewrite Forall_forall in HF. assert (46 ∉ HexEncode rnd) as N by (intros H; by apply HF in H as (_ & _ & _ & ?)).
  rewrite !bool_decide_eq_false_2; cbn [negb andb].
  - apply forallb_forall. intros c Hc%list_elem_of_In. by apply HF.
  - intros E. apply N. rewrite E. apply list_elem_of_here.
  - intros E. apply N. rewrite E. apply list_elem_of_here.
  - intros E. rewrite E in L. cbn in L. lia.
Qed.

(** ** phoenixd *)

Section Flows.
Context `{MI : MapIter} `{CL : CashuLib}.
Context (marshal : jvalue -> list Z) (decode_btcpay : list Z -> option WebhookEvent) (decode_phoenix : list Z -> option PhoenixEvent).
Context (hook : gostr) (secret : list Z).
Implicit Types (d : db) (s : FakePhoenixd.server).

Definition phoenixd_http := Smoke.phoenixd_http marshal decode_phoenix hook secret.

Lemma below_app {W} base t (serve : gostr -> State W (option reply)) : Smoke.below base (base ++ t) serve = serve t.
Proof. unfold Smoke.below. by rewrite HasPrefix_app, Wire.TrimPrefix_app. Qed.

(** The paths the doubles and the clients use. *)
Lemma segments_incoming hash : Wire.plain_segment hash = true -> segments (bs "/payments/incoming/" ++ hash) = Some [bs "payments"; bs "incoming"; hash].
Proof.
  intros Hh. rewrite <- (segments_path [bs "payments"; bs "incoming"; hash]); [|done|by repeat constructor].
  unfold path_of. cbn. by rewrite app_nil_r.
Qed.


Lemma serve_lookup rnd base hash a s d : Wire.plain_segment hash = true ->
  phoenixd_http base rnd {| rr_method := bs "GET"; rr_url := base ++ bs "/payments/incoming/" ++ hash; rr_auth := a; rr_body := no_body |} (s, d) =
  (Some (FakePhoenixd.lookup hash s), (s, d)).
Proof.
  intros Hh. unfold phoenixd_http, Smoke.phoenixd_http. cbn [rr_url rr_method rr_body]. rewrite below_app. unfold FakePhoenixd.serve.
  rewrite segments_incoming by done. reflexivity.
Qed.


Lemma plain_escape hash : Wire.plain_segment hash = true -> PathEscape hash = hash.
Proof.
  intros Hh. pose proof (Wire.plain_segment_chars hash Hh) as HF. unfold PathEscape. clear Hh. induction HF as [|c s Hc _ IH]; [done|].
  rewrite bind_cons, Hc, IH. done.
Qed.

Lemma int_json n : in_i64 n -> as_int 64 (jnum n) = Some n.
Proof.
  unfold as_int, in_i64, int64_min, int64_max. change (2 ^ (64 - 1)) with (2 ^ 63). intros Hn.
  by rewrite (proj2 (Z.leb_le _ _)), (proj2 (Z.ltb_lt _ _)) by lia.
Qed.

(** The client of the backend looks the invoice up as the double holds it. *)
Lemma lookup_incoming p s d hash : Wire.plain_segment hash = true ->
  (forall inv, FakePhoenixd.sv_inv s !! hash = Some inv -> in_i64 (FakePhoenixd.iv_AmountSat inv)) ->
  LookupIncoming (fun r => (phoenixd_http (px_baseURL p) [] r (s, d)).1) p hash =
  match FakePhoenixd.sv_inv s !! hash with None => Some false | Some inv => Some (FakePhoenixd.iv_Paid inv) end.
Proof.
  intros Hh Hi. unfold LookupIncoming. rewrite plain_escape, serve_lookup by done. cbn [fst]. unfold FakePhoenixd.lookup.
  destruct (FakePhoenixd.sv_inv s !! hash) as [inv|]; [|done]. specialize (Hi inv eq_refl).
  assert (E : forall n, in_i64 n -> incoming_of (jobj [(bs "amountSat", jnum (FakePhoenixd.iv_AmountSat inv)); (bs "isPaid", jbool (FakePhoenixd.iv_Paid inv));
    (bs "receivedSat", jnum n)]) = Some (FakePhoenixd.iv_Paid inv || (0 <? 0) || (0 <? n))).
  { intros n Hn. unfold incoming_of. cbn [as_struct mbind option_bind].
    change (get as_bool (bs "ispaid") _) with (Some (FakePhoenixd.iv_Paid inv)). change (get (as_int 64) (bs "receivedsat") _) with (as_int 64 (jnum n)).
    change (get (as_int 64) (bs "completedat") _) with (Some 0). by rewrite int_json. }
  unfold success. cbn [Z.ltb Z.leb Z.compare Pos.compare Pos.compare_cont orb mbind option_bind]. unfold FakePhoenixd.paidSat.
  destruct (FakePhoenixd.iv_Paid inv); by rewrite E.
Qed.

Lemma scan_digits (s : gostr) : s <> [] -> Forall (fun c => 48 <= c <= 57) s -> FakePhoenixd.Sscanf_d s = ParseInt s.
Proof.
  intros Hn HF. assert (Et : FakePhoenixd.take_digits s = s).
  { clear Hn. induction HF as [|c r Hc _ IH]; [done|]. cbn. rewrite (proj2 (Z.leb_le 48 c)), (proj2 (Z.leb_le c 57)) by lia. cbn. by rewrite IH. }
  destruct HF as [|c r Hc HF]; [done|]. unfold FakePhoenixd.Sscanf_d. cbn [FakePhoenixd.skip_blanks].
  rewrite (proj2 (Z.eqb_neq c 10)), (proj2 (Z.eqb_neq c 13)) by lia. cbn [andb].
  assert (is_space c = false) as -> by (unfold is_space; lia). cbn [mbind option_bind].
  rewrite (proj2 (Z.eqb_neq c 43)), (proj2 (Z.eqb_neq c 45)) by lia. cbn [orb]. by rewrite Et.
Qed.

Lemma parseInt_FormatInt n : in_i64 n -> 0 <= n -> FakePhoenixd.parseInt (FormatInt n) = n.
Proof.
  intros Hn H0. unfold FakePhoenixd.parseInt. rewrite scan_digits, ParseInt_FormatInt; [done|done| |].
  - intros E. pose proof (ParseInt_FormatInt n Hn) as H. by rewrite E in H.
  - unfold FormatInt. rewrite (proj2 (Z.ltb_ge n 0)) by lia. apply Forall_forall. intros c Hc.
    pose proof (FormatUint_chars 10 n ltac:(lia) H0) as HF. rewrite Forall_forall in HF. apply HF in Hc. lia.
Qed.

Lemma form_value kv key : Forall (fun p => p.1 <> [] /\ Forall in_u8 p.1 /\ Forall in_u8 p.2) kv ->
  FakePhoenixd.FormValue (form_encode kv) [] key = default [] (snd <$> head (filter (fun p => p.1 = key) kv)).
Proof.
  intros Hkv. rewrite <- (form_get kv key Hkv). unfold FakePhoenixd.FormValue, QueryGet. cbn [Split omap list_omap query_pair].
  change (omap query_pair (Split 38 [])) with (@nil (gostr * gostr)). by rewrite app_nil_r.
Qed.

(** An invoice created over HTTP is known to the double, for the whole satoshis of the
    price and the purchase it is for, and looks unpaid to the client. *)
Theorem lightning_invoice p req rnd s d :
  0 <= ir_PriceMsat req <= int64_max -> Forall in_u8 (ir_Description req) -> Forall in_u8 (ir_OrderID req) ->
  Forall in_u8 rnd -> rnd <> [] ->
  let x := phoenixd_http (px_baseURL p) rnd (phoenixd_request p req) (s, d) in
  let hash := randHex rnd in
  phoenixd_CreateInvoice (fun r => (phoenixd_http (px_baseURL p) rnd r (s, d)).1) p req =
    Some {| in_ID := hash; in_CheckoutLink := []; in_Bolt11 := FakePhoenixd.bolt11_prefix ++ hash |} /\
  x.2 = (FakePhoenixd.set_inv (<[hash := {| FakePhoenixd.iv_Hash := hash; FakePhoenixd.iv_ExternalID := ir_OrderID req;
                                            FakePhoenixd.iv_AmountSat := ir_PriceMsat req / 1000; FakePhoenixd.iv_Paid := false |}]>
           (FakePhoenixd.sv_inv s)) s, d) /\
  LookupIncoming (fun r => (phoenixd_http (px_baseURL p) [] r x.2).1) p hash = Some false.
Proof.
  intros Hp Hd Ho Hr Hn x hash. set (n := ir_PriceMsat req / 1000).
  assert (Hi : in_i64 n /\ 0 <= n).
  { unfold in_i64, int64_min, int64_max in *. subst n. split; [split|]; [pose proof (Z.div_pos (ir_PriceMsat req) 1000); lia|
      etrans; [apply Z.div_le_upper_bound with (q := ir_PriceMsat req); lia|lia]|apply Z.div_pos; lia]. }
  destruct Hi as [Hi H0].
  assert (Ex : x = (Some (200, Some (jobj [(bs "amountSat", jnum n); (bs "paymentHash", jstr hash); (bs "serialized", jstr (FakePhoenixd.bolt11_prefix ++ hash))])),
    (FakePhoenixd.set_inv (<[hash := {| FakePhoenixd.iv_Hash := hash; FakePhoenixd.iv_ExternalID := ir_OrderID req;
                                            FakePhoenixd.iv_AmountSat := n; FakePhoenixd.iv_Paid := false |}]>
           (FakePhoenixd.sv_inv s)) s, d))).
  { subst x. unfold phoenixd_http, Smoke.phoenixd_http, phoenixd_request. cbn [rr_url rr_method rr_body Smoke.body_text]. rewrite below_app.
    unfold FakePhoenixd.serve. change (segments (bs "/createinvoice")) with (Some [bs "createinvoice"]). cbn [bool_decide].
    rewrite bool_decide_eq_true_2 by done. change (RawQuery (bs "/createinvoice")) with (@nil Z). unfold FakePhoenixd.createInvoice.
    rewrite Z.quot_div_nonneg by lia. fold n.
    assert (Hb : Forall in_u8 (FormatInt n)).
    { apply Forall_forall. intros c Hc%FormatInt_chars. unfold in_u8. lia. }
    set (kv := [(bs "amountSat", FormatInt n); (bs "description", ir_Description req); (bs "externalId", ir_OrderID req)]).
    assert (Hkv : forall k, FakePhoenixd.FormValue (form_encode kv) [] k = default [] (snd <$> head (filter (fun p => p.1 = k) kv))).
    { intros k. apply form_value. repeat (apply Forall_cons_2; [split; [done|split; [by apply bytes_check|done]]|]). constructor. }
    rewrite (eq_trans (Hkv (bs "amountSat")) (eq_refl : _ = FormatInt n)).
    rewrite (eq_trans (Hkv (bs "externalId")) (eq_refl : _ = ir_OrderID req)). rewrite parseInt_FormatInt by done. reflexivity. }
  split; [|split].
  - unfold phoenixd_CreateInvoice. fold x. rewrite Ex. cbn [fst]. unfold success, lightning_of.
    cbn [Z.ltb Z.leb Z.compare Pos.compare Pos.compare_cont orb mbind option_bind as_struct].
    change (get (as_int 64) (bs "amountsat") _) with (as_int 64 (jnum n)). rewrite int_json by done. cbn [mbind option_bind].
    change (get as_string (bs "paymenthash") _) with (Some hash). cbn [mbind option_bind].
    change (get as_string (bs "serialized") _) with (Some (FakePhoenixd.bolt11_prefix ++ hash)). cbn [mbind option_bind].
    rewrite !bool_decide_eq_false_2; [done|done|]. intros E'. pose proof (randHex_plain rnd Hr Hn) as Hpl. fold hash in Hpl. by rewrite E' in Hpl.
  - by rewrite Ex.
  - rewrite Ex. cbn [snd]. rewrite lookup_incoming.
    + cbn [FakePhoenixd.set_inv FakePhoenixd.sv_inv]. by rewrite lookup_insert_eq.
    + by apply randHex_plain.
    + intros inv. cbn [FakePhoenixd.set_inv FakePhoenixd.sv_inv]. rewrite lookup_insert_eq. intros [= <-]. exact Hi.
Qed.


(** ** Ecash *)

Context (proofs_json : list (Proof DLEQProof) -> jvalue) (TokenV3 : list (Proof DLEQProof) -> gostr -> option gostr).





(** ** BTCPay *)

Definition btcpay_hook := Smoke.btcpay_hook marshal decode_btcpay hook secret.

(** The double has no route that reads an invoice: the question of the backend reaches
    [GET /], whose text is no invoice. *)
Lemma status_unreadable (s : FakeBtcpay.server) c id : Wire.plain_segment (cl_storeID c) = true -> Wire.plain_segment id = true ->
  InvoiceStatus (Smoke.btcpay_get marshal (cl_baseURL c) s) c id = None.
Proof.
  intros Hst Hid. unfold InvoiceStatus, Smoke.btcpay_get. cbn [rr_url rr_method rr_body]. rewrite below_app.
  assert (segments (bs "/api/v1/stores/" ++ cl_storeID c ++ bs "/invoices/" ++ id) = Some [bs "api"; bs "v1"; bs "stores"; cl_storeID c; bs "invoices"; id]) as E.
  { rewrite <- (segments_path [bs "api"; bs "v1"; bs "stores"; cl_storeID c; bs "invoices"; id]); [|done|by repeat constructor].
    unfold path_of. cbn. by rewrite app_nil_r. }
  unfold FakeBtcpay.serve. rewrite E. reflexivity.
Qed.

(** What the four buttons of the checkout page come to.  The backend acts on three of
    the events and the answer says so; the settlement is refused whatever the state of
    the database, because the backend asks the double for the status of the invoice
    first: no purchase is ever granted through fake-btcpay. *)
Theorem simulate_spec c rnd from_page id typ i (s : FakeBtcpay.server) d :
  typ ∈ FakeBtcpay.buttons -> FakeBtcpay.sv_invoices s !! id = Some i ->
  Wire.plain_segment (cl_storeID c) = true -> Wire.plain_segment id = true ->
  FakeBtcpay.sv_webhookURL s = hook -> FakeBtcpay.sv_secret s = secret -> secret <> [] ->
  decode_btcpay (marshal (FakeBtcpay.event_json rnd typ id)) = Some {| we_Type := typ; we_InvoiceID := id |} ->
  let s' := FakeBtcpay.set_invoices (<[id := FakeBtcpay.set_Status typ i]> (FakeBtcpay.sv_invoices s)) s in
  let op := if bool_decide (typ = EventInvoiceProcessing) then MarkProcessing id
            else VoidByInvoice id (if bool_decide (typ = EventInvoiceExpired) then expired else invalid) in
  FakeBtcpay.simulate marshal (btcpay_hook c) rnd from_page id typ (s, d) =
    if bool_decide (typ = EventInvoiceSettled) then ((502, None), (s', d))
    else (((match (op d).1 with Ok _ | Err ErrPurchaseNotFound => if from_page then 303 else 200 | Err _ => 502 end : Z), None), (s', (op d).2)).
Proof.
  intros Ht Hi Hst Hid Eu Es Hs Hdec s' op. unfold FakeBtcpay.simulate. rewrite Hi. fold s'. unfold FakeBtcpay.fireWebhook, btcpay_hook, Smoke.btcpay_hook.
  change (FakeBtcpay.sv_webhookURL s') with (FakeBtcpay.sv_webhookURL s). change (FakeBtcpay.sv_secret s') with (FakeBtcpay.sv_secret s).
  rewrite Eu, Es, bool_decide_eq_true_2 by done. unfold btcpay_webhook. rewrite verify_btcpay_signed by done. cbn [negb]. rewrite Hdec.
  cbn [we_InvoiceID]. rewrite bool_decide_eq_false_2 by (by intros ->). unfold btcpay_dispatch. cbn [we_InvoiceID we_Type].
  rewrite status_unreadable by done.
  unfold FakeBtcpay.buttons in Ht. rewrite !elem_of_cons in Ht. destruct Ht as [->|[->|[->|[->|[]%elem_of_nil]]]]; subst op.
  - change (bool_decide (EventInvoiceProcessing = EventInvoiceProcessing)) with true. cbn iota.
    change (bool_decide (EventInvoiceProcessing = EventInvoiceSettled)) with false. cbn iota.
    destruct (MarkProcessing id d) as [[u|e] d1]; [by destruct from_page|]. by destruct e, from_page.
  - done.
  - change (bool_decide (EventInvoiceExpired = EventInvoiceProcessing)) with false. change (bool_decide (EventInvoiceExpired = EventInvoiceSettled)) with false.
    change (bool_decide (EventInvoiceExpired = EventInvoiceInvalid)) with false. change (bool_decide (EventInvoiceExpired = EventInvoiceExpired)) with true. cbn iota.
    destruct (VoidByInvoice id expired d) as [[u|e] d1]; [by destruct from_page|]. by destruct e, from_page.
  - change (bool_decide (EventInvoiceInvalid = EventInvoiceProcessing)) with false. change (bool_decide (EventInvoiceInvalid = EventInvoiceSettled)) with false.
    change (bool_decide (EventInvoiceInvalid = EventInvoiceInvalid)) with true. change (bool_decide (EventInvoiceInvalid = EventInvoiceExpired)) with false. cbn iota.
    destruct (VoidByInvoice id invalid d) as [[u|e] d1]; [by destruct from_page|]. by destruct e, from_page.
Qed.

Corollary settlement_refused c rnd from_page id i (s : FakeBtcpay.server) d :
  FakeBtcpay.sv_invoices s !! id = Some i -> Wire.plain_segment (cl_storeID c) = true -> Wire.plain_segment id = true ->
  FakeBtcpay.sv_webhookURL s = hook -> FakeBtcpay.sv_secret s = secret -> secret <> [] ->
  decode_btcpay (marshal (FakeBtcpay.event_json rnd EventInvoiceSettled id)) = Some {| we_Type := EventInvoiceSettled; we_InvoiceID := id |} ->
  let r := FakeBtcpay.simulate marshal (btcpay_hook c) rnd from_page id EventInvoiceSettled (s, d) in
  r.1 = (502, None) /\ r.2.2 = d.
Proof.
  intros H1 H2 H3 H4 H5 H6 H7 r. subst r. rewrite (simulate_spec c rnd from_page id _ i) by (try done; apply list_elem_of_further, list_elem_of_here).
  by rewrite bool_decide_eq_true_2.
Qed.

End Flows.

End FakePayFacts.

(** * The doubles at work

    The shop of [BackendExamples] with its invoice at fake-phoenixd, paid with
    ecash, and with an invoice at fake-btcpay. *)

From S2P Require Import BackendExamples.
From S2P Require Import PortalExamples.
Import Json DB Authz AuthzFacts Whitelist WhitelistFacts Payments PaymentsFacts Sales Portal Cashu CashuFacts Rails FakePayFacts Shop Visitors.

Module Doubles.

(** JSON texts of objects of strings without quotes and of numbers, and a string field
    of such a text: after its name and a colon. *)
Definition quoted (s : gostr) : gostr := [34] ++ s ++ [34].
Definition print_value (v : jvalue) : gostr := match v with jstr s => quoted s | jnum n => FormatInt n | _ => bs "null" end.
Definition print (v : jvalue) : list Z :=
  match v with
  | jobj l => [123] ++ Join [44] (map (fun kv => quoted kv.1 ++ [58] ++ print_value kv.2) l) ++ [125]
  | v => print_value v
  end.
Fixpoint after (key : gostr) (l : list gostr) : option gostr :=
  match l with
  | k :: (c :: v :: _) as r => if bool_decide (k = key /\ c = [58]) then Some v else after key r
  | _ => None
  end.
Definition string_field (key : gostr) (text : list Z) : option gostr := after key (Split 34 text).
Definition parse_btcpay (b : list Z) : option WebhookEvent :=
  typ ← string_field (bs "type") b; id ← string_field (bs "invoiceId") b; Some {| we_Type := typ; we_InvoiceID := id |}.

(** ** Ecash *)

Definition mint1 : gostr := bs "http://127.0.0.1:3338".

(** A token from the mint itself, for the price of the package. *)
Definition proofs1 : list (Proof DLEQProof) := [FakeMint.sim_proof 10000].
Definition token_text (proofs : list (Proof DLEQProof)) (mint : gostr) : option gostr := Some (mint ++ [32] ++ FormatInt (proofs_Amount proofs)).

Example sim_token_price : FakeMint.simToken mint1 token_text (bs "amount=10000") = token_text proofs1 mint1.
Proof. reflexivity. Qed.


(** ** BTCPay *)

Definition hook2 : gostr := bs "http://localhost:8080/payments/btcpay/webhook".
Definition btcpay1 : Client := NewClient (bs "http://localhost:9000/") (bs "x") (bs "STORE1").
Definition server1 : FakeBtcpay.server :=
  (FakeBtcpay.createInvoice [192; 255; 238] (Some (invoice_body {| ir_PriceMsat := 10000000; ir_OrderID := bs "p1"; ir_Description := bs "30 days"; ir_RedirectURL := bs "/" |}))
     (FakeBtcpay.newServer (bs "http://localhost:9000") hook2 secret1)).2.
Definition id1 : gostr := bs "inv_c0ffee".

Definition invoice2 : FakeBtcpay.invoice :=
  {| FakeBtcpay.iv_ID := id1; FakeBtcpay.iv_OrderID := bs "p1"; FakeBtcpay.iv_Amount := bs "0.00010000"; FakeBtcpay.iv_Status := bs "New" |}.

(** The price the double shows for the invoice the client of the backend asked for. *)
Example checkout_shows_price : option_map (fun x => FakeBtcpay.iv_Amount x.1) (FakeBtcpay.checkoutPage id1 server1) = Some (bs "0.00010000").
Proof. vm_compute. reflexivity. Qed.

(** The flow of docs/testing-payments.md: the confirmed payment grants nothing. *)
Lemma settlement_never_confirmed :
  let r := FakeBtcpay.simulate print (btcpay_hook print parse_btcpay hook2 secret1 btcpay1) [1; 2] true id1 EventInvoiceSettled (server1, db_open) in
  r.1 = (502, None) /\ r.2.2 = db_open.
Proof.
  apply (settlement_refused print parse_btcpay hook2 secret1 btcpay1 [1; 2] true id1 invoice2 server1 db_open); [vm_compute; reflexivity|
    reflexivity|reflexivity|reflexivity|reflexivity|discriminate|vm_compute; reflexivity].
Qed.

End Doubles.
