(* ===== verification/FakeBackend.v ===== *)
(** * cmd/fake-backend: the in-memory backend

    The stand-in for the node API that deploy/m2-test.sh drives an agent with: a set, a
    revision counter and a table of bytes under one mutex.  The agent mirrors it as it
    does the real backend, from full answers only. *)

From S2P Require Import Prelude GoStrings Netip GoNet Authzhash AgentTypes AgentStore AgentUsage Agent AgentFacts AgentClient.
From S2P Require Import BackendDB BackendAuthz BackendUsage BackendApi System SystemWire.
Import Authzhash Api System.

Module FakeBackend.
Section FakeBackend.
Context `{MI : MapIter}.

(** The server's own [serviceInfo] is the one of the agent. *)
Record server := {
  sv_rev : Z; sv_authz : gmap Addr gostr; sv_revoke : list Addr; sv_usage : gmap gostr Z; sv_services : list serviceInfo
}.
Implicit Types s : server.

Definition newServer : server :=
  {| sv_rev := 1; sv_authz := ∅; sv_revoke := []; sv_usage := ∅;
     sv_services := [{| si_Key := bs "clearnet"; si_Port := 1080 |}; {| si_Key := bs "tor"; si_Port := 1081 |}] |}.

Definition enroll : enrollResponse := {| en_NodeID := bs "node-dev"; en_AuthToken := bs "dev-token" |}.

(** The parameters of a poll; the deadline is [wait] seconds away. *)
Definition poll_wait (wait : Z) : Z := if (wait <=? 0) || (55 <? wait) then 25 else wait.
Definition poll_params (q : gostr) : Z * Z * bool :=
  (Wire.ParseInt_value (QueryGet q (bs "rev")), poll_wait (Wire.ParseInt_value (QueryGet q (bs "wait"))), bool_decide (QueryGet q (bs "full") = bs "1")).

(** The full set in the order of the map. *)
Definition full_answer s : authzResponse :=
  {| az_Rev := sv_rev s; az_Full := true; az_Addresses := map (fun '(a, acct) => {| am_Addr := a; am_Account := acct |}) (map_range (sv_authz s));
     az_Add := []; az_Del := []; az_Force := false |}.

(** Each turn of the loop looks at the server, then at the clock; [None] is a request
    still held after the looks of [seen]. *)
Fixpoint authzHandler (clientRev deadline : Z) (full : bool) (seen : list (server * Z)) : option (reply authzResponse) :=
  match seen with
  | [] => None
  | (s, now) :: rest =>
      if full || negb (clientRev =? sv_rev s) then Some (Body (full_answer s))
      else if deadline <? now then Some NoContent
      else authzHandler clientRev deadline full rest
  end.

(** [s.usage[smp.Service+"|"+smp.Addr.String()] += smp.Bytes] *)
Definition add_usage (m : gmap gostr Z) (smp : usageSample) : gmap gostr Z :=
  let key := us_Service smp ++ bs "|" ++ addr_String (us_Addr smp) in
  <[key := u64 (default 0 (m !! key) + us_Bytes smp)]> m.

(** The samples of a body, [None] if it does not decode. *)
Definition usageHandler (now : Z) (samples : option (list usageSample)) (s : server) : reply usageAck * server :=
  match samples with
  | None => (Failed 400, s)
  | Some l =>
      (Body {| ua_Ack := FormatInt now; ua_Revoke := sv_revoke s |},
       {| sv_rev := sv_rev s; sv_authz := sv_authz s; sv_revoke := []; sv_usage := foldl add_usage (sv_usage s) l; sv_services := sv_services s |})
  end.

Definition heartbeat s : heartbeatResponse :=
  {| hb_Config := {| ac_UsageIntervalS := 5; ac_GraceMinutes := 240; ac_Services := sv_services s; ac_Wg := {| wc_Port := 0; wc_Pool4 := []; wc_Pool6 := [] |} |};
     hb_Resync := false |}.

(** *** Admin *)

(** Newlines, returns and spaces at the end. *)
Fixpoint trim_rev (r : gostr) : gostr :=
  match r with
  | c :: r' => if (c =? 10) || (c =? 13) || (c =? 32) then trim_rev r' else r
  | [] => []
  end.
Definition trimSpace (b : gostr) : gostr := reverse (trim_rev (reverse b)).

Definition readAddr (body : gostr) : option Addr := ParseAddr (trimSpace (take 256 body)).

Definition grant (body : gostr) (s : server) : Z * server :=
  match readAddr body with
  | None => (400, s)
  | Some addr =>
      (200, {| sv_rev := i64 (sv_rev s + 1); sv_authz := <[addr := bs "dev-account"]> (sv_authz s); sv_revoke := sv_revoke s;
               sv_usage := sv_usage s; sv_services := sv_services s |})
  end.

Definition revokeAdmin (body : gostr) (s : server) : Z * server :=
  match readAddr body with
  | None => (400, s)
  | Some addr =>
      (200, {| sv_rev := i64 (sv_rev s + 1); sv_authz := delete addr (sv_authz s); sv_revoke := sv_revoke s ++ [addr];
               sv_usage := sv_usage s; sv_services := sv_services s |})
  end.

Definition usageDump s : gmap gostr Z := sv_usage s.

(** [main]: what a request does to the server.  The mux asks for no credential. *)
Inductive request :=
| rq_enroll | rq_authz (query : gostr) (seen : list (server * Z)) | rq_usage (now : Z) (samples : option (list usageSample)) | rq_heartbeat
| rq_grant (body : gostr) | rq_revoke (body : gostr) | rq_dump.

Definition serve (r : request) (s : server) : server :=
  match r with
  | rq_usage now samples => (usageHandler now samples s).2
  | rq_grant body => (grant body s).2
  | rq_revoke body => (revokeAdmin body s).2
  | _ => s
  end.

Definition server_step (s s' : server) : Prop := exists r, s' = serve r s.

(** ** The agent and the double *)

(** The revision names the set as long as it does not wrap. *)
Lemma step_rev s s' : server_step s s' -> sv_rev s < int64_max -> 0 < sv_rev s ->
  sv_rev s <= sv_rev s' /\ (sv_rev s' = sv_rev s -> sv_authz s' = sv_authz s).
Proof.
  intros [r ->] Hm H0. assert (E : i64 (sv_rev s + 1) = sv_rev s + 1) by (apply i64_small; unfold in_i64, int64_min, int64_max in *; lia).
  destruct r as [|q seen|now samples| |b|b|]; cbn [serve]; try (by split); first [unfold usageHandler; by destruct samples
    |unfold grant, revokeAdmin; destruct (readAddr b); [|done]; cbn [snd sv_rev sv_authz]; rewrite E; split; lia].
Qed.

(** A history of the server, its looks with the time of each; the counter stays below
    its maximum. *)
Inductive watched : server -> list (server * Z) -> Prop :=
| watched_end s : watched s []
| watched_look s s' now rest : rtc server_step s s' -> (forall x, rtc server_step s x -> rtc server_step x s' -> sv_rev x < int64_max) ->
    watched s' rest -> watched s ((s', now) :: rest).

Lemma steps_rev s s' : rtc server_step s s' -> (forall x, rtc server_step s x -> rtc server_step x s' -> sv_rev x < int64_max) -> 0 < sv_rev s ->
  sv_rev s <= sv_rev s' /\ 0 < sv_rev s' /\ (sv_rev s' = sv_rev s -> sv_authz s' = sv_authz s).
Proof.
  induction 1 as [s|s s1 s' H Hs IH]; intros Hm H0; [split; [done|split; [done|done]]|].
  destruct (step_rev s s1 H) as [H1 H2]; [apply Hm; [done|by eapply rtc_l]|done|].
  destruct IH as (I1 & I2 & I3); [intros x X1 X2; apply Hm; [by eapply rtc_l|done]|lia|].
  split; [lia|]. split; [done|]. intros E. rewrite I3 by lia. apply H2. lia.
Qed.

(** What a poll is answered, for a client whose revision is the one of [s0] or that asks
    for the full set. *)
Lemma handler_spec c deadline full seen s0 r : watched s0 seen -> 0 < sv_rev s0 -> (full = false -> c = sv_rev s0) ->
  authzHandler c deadline full seen = Some r ->
  exists s now, (s, now) ∈ seen /\
    (r = Body (full_answer s) \/ (r = NoContent /\ full = false /\ c = sv_rev s /\ sv_authz s = sv_authz s0)).
Proof.
  intros Hw. revert r. enough (forall r sa, sv_authz s0 = sa -> 0 < sv_rev s0 -> (full = false -> c = sv_rev s0) -> authzHandler c deadline full seen = Some r ->
    exists s now, (s, now) ∈ seen /\ (r = Body (full_answer s) \/ (r = NoContent /\ full = false /\ c = sv_rev s /\ sv_authz s = sa))) as H.
  { intros r H0 Hc E. by apply (H r (sv_authz s0)). }
  induction Hw as [s0|s0 s now rest Hs Hm Hw IH]; intros r sa Esa H0 Hc E; [done|]. cbn [authzHandler] in E.
  destruct (steps_rev s0 s Hs Hm H0) as (R1 & R2 & R3).
  destruct (full || negb (c =? sv_rev s)) eqn:Ef.
  - injection E as <-. exists s, now. split; [apply list_elem_of_here|by left].
  - apply orb_false_iff in Ef as [-> Ec]. bool_hyps. assert (Ea : sv_authz s = sa) by (rewrite R3; [done|rewrite <- Hc by done; lia]).
    destruct (deadline <? now).
    + injection E as <-. exists s, now. split; [apply list_elem_of_here|]. right. repeat split; try done; lia.
    + destruct (IH r sa Ea R2) as (s1 & n1 & Hin & H1); [intros _; lia|done|]. exists s1, n1. split; [by apply list_elem_of_further|done].
Qed.

Section Mirror.
Context `{FW : Firewall} `{WG : WgIface}.
Implicit Type a : Agent.

Definition mirrors a s : Prop := kernel a = dom (sv_authz s) /\ cursor a = sv_rev s.

(** The refusal of the mass-revoke guard for the set of [s]; the double never forces. *)
Definition refused a s : Prop :=
  p_allowMassRevoke (a_conf a) = false /\
  p_massRevokeMin (a_conf a) < Z.of_nat (size (kernel a ∖ dom (sv_authz s))) /\
  Z.of_nat (size (kernel a)) < 2 * Z.of_nat (size (kernel a ∖ dom (sv_authz s))).

Definition ask (deadline : Z) (seen : list (server * Z)) (q : authzQuery) : result getAuthz_err authzResponse :=
  answer_of (authzHandler (q_rev q) deadline (q_full q) seen).

Lemma full_answer_set s : desired_of (full_answer s) = dom (sv_authz s).
Proof.
  apply set_eq. intros x. unfold desired_of, full_answer. cbn [az_Addresses]. rewrite elem_of_list_to_set, map_map, elem_of_dom.
  rewrite list_elem_of_fmap. setoid_rewrite map_range_perm. split.
  - intros ([y v] & -> & Hy%elem_of_map_to_list). by exists v.
  - intros [v Hv]. exists (x, v). split; [done|]. by apply elem_of_map_to_list.
Qed.

(** After an answered poll, held over any history of the double, the kernel set is the
    one of a look and the cursor its revision, unless the guard refused. *)
Theorem poll_mirrors deadline seen s0 l a l' a' :
  watched s0 seen -> 0 < sv_rev s0 -> (wants_full l a \/ mirrors a s0) -> (exists x, x ∈ seen /\ deadline < x.2) ->
  up a -> d_faults (s_disk (a_store a)) = [] -> Z.of_nat (size (kernel a)) < 2 ^ 62 ->
  runSync_iter (ask deadline seen) l a = (l', a') ->
  exists s now, (s, now) ∈ seen /\ (mirrors a' s \/ (refused a s /\ kernel a' = kernel a /\ cursor a' = cursor a)).
Proof.
  intros Hwa H0 Hw Hlast Hup Hf Hsz H. unfold runSync_iter, mbind at 1, state_bind at 1 in H.
  destruct (syncRequest l a) as [[[l1 persisted] q] a1] eqn:E1.
  destruct (syncRequest_spec _ _ _ _ _ _ E1) as (Hq & Hrev & _ & _ & _ & Ef & Es & Ec & _). cbn [fst snd] in H.
  assert (Ek : kernel a1 = kernel a) by (unfold kernel; congruence).
  assert (Hup1 : up a1) by (unfold up; by rewrite Ef). assert (Hf1 : d_faults (s_disk (a_store a1)) = []) by (by rewrite Es).
  assert (Hfo : q_full q = false -> mirrors a s0).
  { intros Hqf. destruct Hw as [Hw|Hw]; [|done]. apply Hq in Hw. congruence. }
  destruct (authzHandler (q_rev q) deadline (q_full q) seen) as [r|] eqn:Er.
  2:{ exfalso. destruct Hlast as (x & Hin & Hx). revert Er Hin. clear -Hx. induction seen as [|[s t] seen IH]; [by intros _ ?%elem_of_nil|].
      cbn [authzHandler]. destruct (q_full q || _); [done|]. destruct (deadline <? t) eqn:Et; [done|]. intros E [->|Hin]%elem_of_cons; [|by apply IH].
      cbn in Hx. bool_hyps. lia. }
  destruct (handler_spec (q_rev q) deadline (q_full q) seen s0 r Hwa H0) as (s & now & Hin & Hr); [|done|].
  { intros Hqf. rewrite Hrev, Hqf. by apply Hfo. }
  exists s, now. split; [done|]. unfold ask in H. rewrite Er in H. destruct Hr as [->|(-> & Hqf & Hc & Ha)]; cbn [answer_of] in H.
  - destruct (applyAuthz (full_answer s) a1) as [r a2] eqn:E.
    pose proof (applyAuthz_full (full_answer s) a1 r a2 eq_refl ltac:(by rewrite Ek) E) as [_ Hr]. rewrite full_answer_set, Ek, Ec in Hr.
    destruct r as [u|[|g n|g c|e]].
    + left. destruct Hr as (_ & Hk & Hcu & _). unfold syncHandle, mbind at 1, state_bind at 1 in H. rewrite E in H.
      unfold mbind at 1, state_bind at 1 in H. cbn [full_answer az_Full] in H. rewrite on_metrics_eq in H.
      destruct (finish_spec _ _ _ _ H) as (G1 & G2 & _). unfold mirrors, kernel, cursor in *. cbn in G1, G2. by rewrite G1, G2.
    + destruct Hr as (_ & _ & Hn). done.
    + right. destruct Hr as ((_ & H2 & H3 & H4) & _ & _ & Hk & Hs). destruct (mass_refusal _ _ _ _ _ _ _ _ _ E H) as (G1 & G2 & _).
      unfold refused. repeat split; try done; unfold kernel, cursor in *; congruence.
    + done.
    + destruct Hr as (_ & _ & _ & Hn). done.
  - left. destruct (Hfo Hqf) as [M1 M2]. rewrite Hqf in Hrev. destruct (finish_spec _ _ _ _ H) as (G1 & G2 & _).
    unfold mirrors, kernel, cursor in *. rewrite G1, G2, Ef, Ha. split; [done|]. rewrite <- Hc, Hrev. by rewrite Es.
Qed.

End Mirror.

End FakeBackend.
End FakeBackend.
