(* ===== verification/Tools.v ===== *)
(** * Command-line helper, version and logging

    Models cmd/fips-derive, pkg/version and pkg/logging. *)

From S2P Require Import Prelude GoStrings Netip Fipsaddr FipsaddrFacts Dispatch.
Import Dispatch Npub Derive.

(** ** cmd/fips-derive *)

Module FipsDerive.
Section FipsDerive.
Context `{GU : GoUnicode}.

(** The lines printed, the inputs refused with the reason, and the exit status. *)
Record outcome := { out_stdout : list gostr; out_stderr : list (gostr * npub_err); out_status : Z }.

Fixpoint run (npubs : list gostr) : outcome :=
  match npubs with
  | [] => {| out_stdout := []; out_stderr := []; out_status := 0 |}
  | npub :: rest =>
      let o := run rest in
      match FromNpub npub with
      | Err e => {| out_stdout := out_stdout o; out_stderr := (npub, e) :: out_stderr o; out_status := 1 |}
      | Ok addr => {| out_stdout := addr_String addr :: out_stdout o; out_stderr := out_stderr o; out_status := out_status o |}
      end
  end.

(** bufio.Scanner over lines: the buffer holds [MaxScanTokenSize] bytes, and a line
    that fills it ends the scan; a return before the newline goes, and an empty rest
    is no line. *)
Definition MaxScanTokenSize : Z := 64 * 1024.
Definition fills (line : gostr) : bool := MaxScanTokenSize <=? Z.of_nat (length line).
Definition dropCR (l : gostr) : gostr := match last l with Some 13 => take (length l - 1) l | _ => l end.
Fixpoint scan_pieces (l : list gostr) : list gostr :=
  match l with
  | [] => []
  | [rest] => if bool_decide (rest = []) || fills rest then [] else [dropCR rest]
  | line :: l => if fills line then [] else dropCR line :: scan_pieces l
  end.
Definition scan_lines (text : gostr) : list gostr := scan_pieces (Split 10 text).

(** Blank lines and comments are left out; the error of the scanner is not looked at. *)
Definition stdin_npubs (text : gostr) : list gostr :=
  filter (fun l => l <> [] /\ HasPrefix l (bs "#") = false) (map strings_TrimSpace (scan_lines text)).

Definition main (args : list gostr) (stdin : gostr) : outcome :=
  match args with [] => run (stdin_npubs stdin) | _ => run args end.

(** The addresses of the valid keys in their order, a line on stderr for each other,
    and a status that tells whether there was one. *)
Theorem run_spec npubs :
  out_stdout (run npubs) = omap (fun n => match FromNpub n with Ok a => Some (addr_String a) | Err _ => None end) npubs /\
  out_stderr (run npubs) = omap (fun n => match FromNpub n with Ok _ => None | Err e => Some (n, e) end) npubs /\
  (out_status (run npubs) = 0 <-> Forall (fun n => exists a, FromNpub n = Ok a) npubs) /\ (out_status (run npubs) = 0 \/ out_status (run npubs) = 1).
Proof.
  induction npubs as [|n l (I1 & I2 & I3 & I4)]; [split; [done|split; [done|split; [split; [constructor|done]|by left]]]|]. cbn [run omap list_omap].
  destruct (FromNpub n) as [a|e] eqn:E; cbn [out_stdout out_stderr out_status]; rewrite I1, I2; (split; [done|]); (split; [done|]).
  - split; [|done]. rewrite Forall_cons, I3. split; [intros H; split; [by exists a|done]|by intros [_ H]].
  - split; [|by right]. split; [done|]. intros [[a Ha] _]%Forall_cons. congruence.
Qed.

(** A line that fills the buffer ends the input, and the rest is left out in silence. *)
Lemma long_line_ends_input line rest : 10 ∉ line -> fills line = true ->
  main [] (line ++ 10 :: rest) = {| out_stdout := []; out_stderr := []; out_status := 0 |}.
Proof.
  intros Hn Hl. cbn [main]. unfold stdin_npubs, scan_lines. rewrite Split_app by done.
  assert (scan_pieces (line :: Split 10 rest) = []) as ->; [|done].
  pose proof (Split_nonempty 10 rest). cbn [scan_pieces]. destruct (Split 10 rest); [done|]. by rewrite Hl.
Qed.

End FipsDerive.
End FipsDerive.

(** ** pkg/version *)

Module Version.

(** The settings of [debug.ReadBuildInfo], if there are any. *)
Definition vcs (settings : list (gostr * gostr)) : gostr * bool :=
  foldl (fun '(rev, dirty) '(k, v) =>
    if bool_decide (k = bs "vcs.revision") then (v, dirty)
    else if bool_decide (k = bs "vcs.modified") then (rev, bool_decide (v = bs "true")) else (rev, dirty)) ([], false) settings.

Definition String (Version : gostr) (build : option (list (gostr * gostr))) : gostr :=
  if negb (bool_decide (Version = [])) then TrimPrefix Version (bs "v") else
  match build with
  | None => bs "dev"
  | Some settings =>
      let '(rev, dirty) := vcs settings in
      if bool_decide (rev = []) then bs "dev" else
      bs "dev+" ++ take 12 rev ++ (if (dirty : bool) then bs "-dirty" else [])
  end.

(** A build names itself, unless it was linked as "v". *)
Lemma String_nonempty v build : String v build = [] <-> v = bs "v".
Proof.
  unfold String. case_bool_decide as E; cbn [negb].
  - subst v. split; [|done]. destruct build as [l|]; [|done]. destruct (vcs l) as [rev dirty]. by case_bool_decide.
  - split; [|by intros ->]. unfold TrimPrefix. destruct (HasPrefix v (bs "v")) eqn:Ep; [|done]. unfold HasPrefix in Ep. bool_hyps.
    intros Ed. rewrite <- (take_drop (length (bs "v")) v), Ep, Ed. done.
Qed.

End Version.

(** ** pkg/logging *)

Module Logging.
Section Logging.
Context `{GU : GoUnicode}.

Inductive level := LevelDebug | LevelInfo.

(** The handler installed; [lh_complains]: one record says that the level asked for is
    not supported. *)
Record handler := { lh_level : level; lh_json : bool; lh_service : gostr; lh_complains : bool }.

Definition Setup (Getenv : gostr -> gostr) (service : gostr) : handler :=
  let l := strings_ToLower (Getenv (bs "LOG_LEVEL")) in
  let '(lvl, complains) :=
    if bool_decide (l = []) || bool_decide (l = bs "info") then (LevelInfo, false)
    else if bool_decide (l = bs "debug") then (LevelDebug, false) else (LevelInfo, true) in
  {| lh_level := lvl; lh_json := strings_EqualFold (Getenv (bs "LOG_FORMAT")) (bs "json"); lh_service := service; lh_complains := complains |}.

(** A record of the log package, which comes at info, is written whatever the
    environment says. *)
Definition writes (h : handler) (l : level) : bool := match lh_level h, l with LevelInfo, LevelDebug => false | _, _ => true end.

Lemma Setup_never_silent Getenv service : writes (Setup Getenv service) LevelInfo = true.
Proof. unfold writes. by destruct (lh_level _). Qed.

End Logging.
End Logging.
