(* ===== verification/BackendMetrics.v ===== *)
(** * backend: metrics

    Models backend/metrics.go and backend/store/metrics.go: the counts read at scrape
    time, the samples made of them, and the handler of /metrics. *)

From S2P Require Import Prelude GoStrings Netip RateLimit GoFloat Metrics MetricsFacts AgentTypes BackendDB BackendAuthz BackendAuthzFacts.
From S2P Require Import BackendUsage BackendUsageFacts BackendPayments BackendWhitelist BackendWhitelistFacts BackendPaymentsFacts BackendApi Portal System.
Import DB Authz AuthzFacts Usage UsageFacts Api RateLimit Metrics MetricsFacts.

Module BackendMetrics.

(** ** The snapshot (store/metrics.go) *)

Record NodeMetric := { nm_Name : gostr; nm_LastSeenUnix : float64 }.

Record MetricsData := {
  ms_AuthorizedAddrs : Z; ms_AuthzRevision : Z; ms_AccountsByStatus : gmap gostr Z; ms_EntitlementsActive : Z;
  ms_UsageBytesTotal : Z; ms_PurchasesByStatus : gmap gostr Z; ms_Nodes : list NodeMetric
}.

(** [SELECT key, count( * ) ... GROUP BY key], scanned into a map. *)
Definition scanCounts {A} (key : A -> gostr) (l : list A) : gmap gostr Z :=
  foldl (fun m x => <[key x := default 0 (m !! key x) + 1]> m) ∅ l.

Definition account_status (a : account) : gostr := if ac_active a then bs "active" else bs "suspended".

Definition daily_total (m : gmap (Z * Z * Z) Z) : Z := zsum snd (map_to_list m).

(** Samples still raw and days already folded; sums are numerics, without a bound. *)
Definition usage_total (d : db) : Z := zsum sm_bytes (db_samples d) + daily_total (db_daily d).

(** [EXTRACT(EPOCH FROM t)::float8]: a timestamp has microseconds, fewer than 2^53. *)
Definition epoch_seconds (t : Z) : float64 := fdiv (of_int (t / 1000 - unix_epoch * 1000000)) (of_int 1000000).

Definition node_metric (n : node) : NodeMetric :=
  {| nm_Name := nd_name n; nm_LastSeenUnix := match nd_last_seen n with Some t => epoch_seconds t | None => fzero end |}.

(** The driver scans the sum into an int64. *)
Definition MetricsSnapshot : Store MetricsData := fun d =>
  if negb ((- 2 ^ 63 <=? usage_total d) && (usage_total d <? 2 ^ 63)) then (Err ErrRange, d) else
  (Ok {| ms_AuthorizedAddrs := Z.of_nat (size (db_current d)); ms_AuthzRevision := max_rev d;
         ms_AccountsByStatus := scanCounts account_status (db_accounts d);
         ms_EntitlementsActive := Z.of_nat (length (filter (fun e => entitlement_active (db_now d) e = true) (db_entitlements d)));
         ms_UsageBytesTotal := usage_total d;
         ms_PurchasesByStatus := scanCounts (fun p => Portal.status_text (pu_status p)) (db_purchases d);
         ms_Nodes := map node_metric (db_nodes d) |}, d).

(** ** Samples (backend/metrics.go) *)

Definition gauge (name help : gostr) (labels : list gostr) (v : float64) : Sample :=
  {| sa_Name := name; sa_Help := help; sa_Type := []; sa_Labels := labels; sa_Value := v |}.
Definition counter (name help : gostr) (v : Z) : Sample :=
  {| sa_Name := name; sa_Help := help; sa_Type := bs "counter"; sa_Labels := []; sa_Value := of_int v |}.

(** The Go runtime's figures. *)
Definition runtimeSamples (goroutines alloc numGC : Z) : list Sample :=
  [gauge (bs "fipsexit_goroutines") (bs "Number of goroutines") [] (of_int goroutines);
   gauge (bs "fipsexit_memory_alloc_bytes") (bs "Heap bytes allocated and in use") [] (of_int alloc);
   counter (bs "fipsexit_gc_total") (bs "Completed GC cycles") numGC].

Definition store_up (v : Z) : Sample := gauge (bs "fipsexit_store_up") (bs "1 if the store was reachable at scrape time") [] (of_int v).

Section Samples.
Context `{MI : MapIter}.

Definition by_status (name help : gostr) (m : gmap gostr Z) : list Sample :=
  map (fun kv => gauge name help [bs "status"; kv.1] (of_int kv.2)) (map_range m).

Definition storeSamples (snap : result store_err MetricsData) : list Sample :=
  match snap with
  | Err _ => [store_up 0]
  | Ok m =>
      [store_up 1;
       gauge (bs "fipsexit_authorized_addresses") (bs "Addresses in the authorized set") [] (of_int (ms_AuthorizedAddrs m));
       counter (bs "fipsexit_authz_revision") (bs "Current global authz revision") (ms_AuthzRevision m);
       gauge (bs "fipsexit_entitlements_active") (bs "Active (unexpired, unexhausted) entitlements") [] (of_int (ms_EntitlementsActive m));
       counter (bs "fipsexit_usage_bytes_total") (bs "Total metered bytes ingested") (ms_UsageBytesTotal m)] ++
      by_status (bs "fipsexit_accounts") (bs "Accounts by status") (ms_AccountsByStatus m) ++
      by_status (bs "fipsexit_purchases") (bs "Purchases by status") (ms_PurchasesByStatus m) ++
      map (fun n => gauge (bs "fipsexit_exit_node_last_seen_seconds") (bs "Unix time of a node's last heartbeat (0 = never)")
                      [bs "node"; nm_Name n] (nm_LastSeenUnix n)) (ms_Nodes m)
  end.

(** ** The registry and its handler *)

Definition webhook_metric : gostr := bs "fipsexit_webhook_events_total".

Definition newAppMetrics : Registry :=
  (vec webhook_metric (bs "BTCPay webhook deliveries processed, by event type and result") typeCounter [bs "type"; bs "result"] New).2.

(** [record] of the webhook handlers and of the reconciler. *)
Definition record_event (typ outcome : gostr) (reg : Registry) : Registry :=
  let '(h, reg) := With webhook_metric [typ; outcome] reg in Inc h reg.

(** [rt] is the samples of the Go runtime. *)
Definition serveMetrics (reg : Registry) (token auth : gostr) (rt : list Sample) (d : db) : reply gostr :=
  let ok := if bool_decide (token = []) then true else match bearer auth with Some t => bool_decide (t = token) | None => false end in
  if negb ok then Failed 401 else Body (ServeHTTP reg [rt; storeSamples (MetricsSnapshot d).1]).

(** ** What a scrape shows *)

Lemma status_sample_ok name help m : valid_name name -> Forall sample_ok (by_status name help m).
Proof.
  intros Hn. apply Forall_fmap, Forall_true. intros [k v]. split; [done|]. split; [|constructor]. cbn.
  repeat constructor; done.
Qed.

Lemma storeSamples_ok snap : Forall sample_ok (storeSamples snap).
Proof.
  assert (Hs : forall s, valid_name (sa_Name s) -> sa_Labels s = [] -> printable (sa_Type s) -> sample_ok s)
    by (intros s H1 H2 H3; split; [done|]; rewrite H2; split; [constructor|done]).
  assert (Hv : forall s, forallb name_char s = true -> s <> [] -> valid_name s)
    by (intros s H Hne; split; [done|]; apply Forall_forall; intros c Hc; rewrite forallb_forall in H; by apply H, list_elem_of_In).
  destruct snap as [m|e]; cbn [storeSamples].
  - apply Forall_app. split; [repeat (apply Forall_cons_2; [apply Hs; [by apply Hv|done|by apply printable_bs]|]); constructor|].
    apply Forall_app. split; [apply status_sample_ok; by apply Hv|]. apply Forall_app. split; [apply status_sample_ok; by apply Hv|].
    apply Forall_fmap, Forall_true. intros n. split; [by apply Hv|]. split; [|constructor]. apply Forall_singleton. by apply Hv.
  - apply Forall_singleton. apply Hs; [by apply Hv|done|constructor].
Qed.

End Samples.

(** *** The totals over time *)

Lemma daily_insert m k b : daily_total (<[k := default 0 (m !! k) + b]> m) = daily_total m + b.
Proof.
  unfold daily_total. rewrite <- insert_delete_eq. rewrite (zsum_perm _ _ _ (map_to_list_insert (delete k m) k _ (lookup_delete_eq m k))).
  rewrite zsum_cons. cbn. destruct (m !! k) as [v|] eqn:E; cbn.
  - rewrite <- (zsum_perm snd _ _ (map_to_list_delete m k v E)), zsum_cons. cbn. lia.
  - rewrite delete_id by done. lia.
Qed.

(** The bytes of samples that belong to no account or to no service. *)
Definition unattributed (d : db) (s : sample) : Z := match fold_key d s with Some _ => 0 | None => sm_bytes s end.

Lemma fold_total d l m : daily_total (foldl (fold_sample d) m l) = daily_total m + zsum sm_bytes l - zsum (unattributed d) l.
Proof.
  revert m. induction l as [|s l IH]; intros m; [cbn; lia|]. cbn [foldl]. rewrite IH, !zsum_cons. unfold fold_sample.
  assert (Hu : unattributed d s = match fold_key d s with Some _ => 0 | None => sm_bytes s end) by done. rewrite Hu. destruct (fold_key d s) as [k|]; [rewrite daily_insert|]; lia.
Qed.

(** A retention sweep lowers the total by exactly the unattributed bytes it drops. *)
Lemma aggregate_total cutoff d :
  usage_total (AggregateUsage cutoff d).2 =
  usage_total d - zsum (unattributed d) (filter (fun s => is_old cutoff d s = true) (db_samples d)).
Proof.
  assert (Es : db_samples (AggregateUsage cutoff d).2 = delete_rows (is_old cutoff d) (db_samples d)) by done.
  assert (Ed : db_daily (AggregateUsage cutoff d).2 =
    foldl (fold_sample d) (db_daily d) (filter (fun s => is_old cutoff d s = true) (db_samples d))) by done.
  unfold usage_total. rewrite Es, Ed, fold_total, (zsum_split sm_bytes (is_old cutoff d) (db_samples d)). lia.
Qed.

(** The revision, exported as a counter, never goes back. *)
Lemma revision_counter d d' m m' : log_ok d -> rtc log_step d d' ->
  (MetricsSnapshot d).1 = Ok m -> (MetricsSnapshot d').1 = Ok m' -> ms_AuthzRevision m <= ms_AuthzRevision m'.
Proof.
  intros Hl Hs. unfold MetricsSnapshot. destruct (negb _); [done|]. destruct (negb _); [done|]. intros [= <-] [= <-]. cbn.
  by apply System.max_rev_steps.
Qed.

(** *** A scrape after any deliveries *)

Definition webhook_schema (_ : gostr) : gostr * metricType * list gostr :=
  (bs "BTCPay webhook deliveries processed, by event type and result", typeCounter, [bs "type"; bs "result"]).

Definition delivery (x : gostr * gostr) : op := {| o_name := webhook_metric; o_values := [x.1; x.2]; o_act := act_add (of_int 1) |}.

Definition deliveries (l : list (gostr * gostr)) : Registry := foldl (fun r x => record_event x.1 x.2 r) newAppMetrics l.

Lemma webhook_schema_ok : schema_ok webhook_schema.
Proof.
  assert (Hv : forall s, forallb name_char s = true -> s <> [] -> valid_name s)
    by (intros s H Hne; split; [done|]; apply Forall_forall; intros c Hc; rewrite forallb_forall in H; by apply H, list_elem_of_In).
  intros name. split; [apply (bool_decide_eq_true_1 _); reflexivity|]. repeat (apply Forall_cons_2; [by apply Hv|]). constructor.
Qed.

(** A delivery counted is the operation on the metric that exists already. *)
Lemma record_run x r : find_family webhook_metric r <> None ->
  record_event x.1 x.2 r = run_op webhook_schema (delivery x) r /\ find_family webhook_metric (record_event x.1 x.2 r) <> None.
Proof.
  intros Hr. split.
  - unfold run_op, record_event, vec, ensure_family. cbn [delivery o_name o_values o_act webhook_schema]. by destruct (find_family webhook_metric r).
  - unfold record_event, With, Inc, value_add. cbn [h_family h_labels].
    rewrite upd_upd by (intros; apply get_name). rewrite find_upd by (intros; apply touch_name). by destruct (find_family webhook_metric r).
Qed.

Lemma webhook_name_ok : valid_name webhook_metric.
Proof. split; [done|]. apply Forall_forall. intros c Hc. apply list_elem_of_In in Hc. revert c Hc. apply forallb_forall. reflexivity. Qed.

Lemma deliveries_holds l : holds webhook_schema (deliveries l) (spec (map delivery l)).
Proof.
  unfold deliveries, spec.
  assert (H0 : holds webhook_schema newAppMetrics ∅).
  { apply (ensure_holds webhook_schema webhook_metric _ typeCounter New ∅ webhook_name_ok).
    split; [constructor|constructor|]. intros n vs x Hx. by rewrite lookup_empty in Hx. }
  assert (F0 : find_family webhook_metric newAppMetrics <> None) by done.
  revert H0 F0. generalize newAppMetrics (∅ : gmap (gostr * list gostr) float64).
  induction l as [|x l IH]; intros r m H F; [done|]. cbn [map foldl]. destruct (record_run x r F) as [E F']. apply IH; [|done].
  rewrite E. apply run_op_holds; [apply webhook_schema_ok| |done]. split; [apply webhook_name_ok|done].
Qed.

(** The count of one kind of delivery, as the counter adds it up. *)
Definition counted (n : nat) : float64 := Nat.iter n (fun x => fadd x (of_int 1)) fzero.
Definition times (x : gostr * gostr) (l : list (gostr * gostr)) : nat := length (filter (fun y => y = x) l).

Lemma times_snoc x y l : times x (l ++ [y]) = (times x l + if decide (y = x) then 1 else 0)%nat.
Proof. unfold times. rewrite filter_app, length_app. f_equal. destruct (decide (y = x)); [by rewrite filter_cons_True|by rewrite filter_cons_False]. Qed.

Lemma spec_snoc l x : spec (map delivery (l ++ [x])) = spec_op (delivery x) (spec (map delivery l)).
Proof. unfold spec. by rewrite map_app, foldl_app. Qed.

Lemma spec_counts l x : spec (map delivery l) !! (webhook_metric, [x.1; x.2]) =
  match times x l with O => None | S k => Some (counted (S k)) end.
Proof.
  induction l as [|y l IH] using rev_ind; [done|]. rewrite spec_snoc, times_snoc. unfold spec_op. cbn [delivery o_name o_values o_act].
  destruct (decide (y = x)) as [->|Hne].
  - rewrite lookup_insert_eq, IH. rewrite Nat.add_1_r. by destruct (times x l).
  - rewrite lookup_insert_ne, Nat.add_0_r by (destruct x, y; cbn; congruence). exact IH.
Qed.

Lemma spec_keys l n vs v : spec (map delivery l) !! (n, vs) = Some v -> n = webhook_metric /\ exists x, vs = [x.1; x.2].
Proof.
  induction l as [|y l IH] using rev_ind; [done|]. rewrite spec_snoc. unfold spec_op. cbn [delivery o_name o_values o_act].
  destruct (decide ((webhook_metric, [y.1; y.2]) = (n, vs))) as [[= <- <-]|Hne]; [intros _; split; [done|by exists y]|].
  rewrite lookup_insert_ne by done. exact IH.
Qed.

(** [C39] A scrape is truthful.  It is answered only without a metrics token or to its
    bearer.  After any webhook deliveries, of any type and outcome, the text reads as
    one counter per type and outcome seen, a float incremented once per delivery, followed by
    the samples of the runtime and of the store: whatever a node called itself when it
    enrolled, its name is the value of one label. *)
Theorem scrape_truthful `{MI : MapIter} token auth rt l d text :
  Forall sample_ok rt -> serveMetrics (deliveries l) token auth rt d = Body text ->
  (token = [] \/ bearer auth = Some token) /\
  exists es1 es2, read_text text = Some (es1 ++ es2) /\ NoDup (omap entry_key es1) /\
    (forall n kv t, e_sample n kv t ∈ es1 <->
       n = webhook_metric /\ exists x, x ∈ l /\ kv = [(bs "result", x.2); (bs "type", x.1)] /\ t = formatFloat (counted (times x l))) /\
    omap entry_sample es2 =
      map sample_tuple (merge_sort sample_le rt) ++ map sample_tuple (merge_sort sample_le (storeSamples (MetricsSnapshot d).1)).
Proof.
  intros Hrt Hb. unfold serveMetrics in Hb. destruct (negb _) eqn:Eok; [done|]. injection Hb as <-. split.
  { apply negb_false_iff in Eok. revert Eok. case_bool_decide; [by left|]. destruct (bearer auth) as [t|]; [|done]. case_bool_decide; [subst; by right|done]. }
  destruct (read_exposition webhook_schema (deliveries l) (spec (map delivery l)) [rt; storeSamples (MetricsSnapshot d).1] webhook_schema_ok (deliveries_holds l))
    as (es1 & es2 & E & Hnd & Hin & _ & Hcol); [repeat (apply Forall_cons_2; [done || apply storeSamples_ok|]); constructor|].
  exists es1, es2. split; [done|]. split; [done|]. split; [|cbn in Hcol; by rewrite app_nil_r in Hcol].
  assert (Hkv : forall x, sorted_labels (zip (labels_of webhook_schema webhook_metric) [x.1; x.2]) = [(bs "result", x.2); (bs "type", x.1)]) by done.
  assert (Ht : forall x, x ∈ l <-> times x l <> 0%nat).
  { intros x. unfold times. split.
    - intros Hx E0. apply length_zero_iff_nil in E0. assert (Hf : x ∈ filter (fun y => y = x) l) by (by apply list_elem_of_filter).
      rewrite E0 in Hf. by apply elem_of_nil in Hf.
    - intros H0. destruct (filter (fun y => y = x) l) as [|y r] eqn:Ef; [done|]. assert (Hy : y ∈ filter (fun y => y = x) l) by (rewrite Ef; left).
      apply list_elem_of_filter in Hy as [-> Hy]. done. }
  intros n kv t. rewrite Hin. split.
  - intros (vs & v & Hv & -> & ->). destruct (spec_keys _ _ _ _ Hv) as [-> [x ->]]. split; [done|]. exists x. rewrite Hkv. rewrite spec_counts in Hv.
    rewrite Ht. destruct (times x l) as [|k]; [done|]. injection Hv as <-. done.
  - intros (-> & x & Hx & -> & ->). exists [x.1; x.2], (counted (times x l)). rewrite Hkv, spec_counts. apply Ht in Hx. by destruct (times x l).
Qed.

End BackendMetrics.

(** * A scrape

    The theorems about metrics applied to a backend with two nodes, and two things a
    scrape shows that its metrics do not promise. *)

From S2P Require Import GoJson Fipsaddr FipsaddrVectors Sha256 Authzhash Tokens.
From S2P Require Import BackendAdmin Backend.
From S2P Require Import BackendExamples PortalExamples BackendProcessExamples.
From Stdlib Require Import SpecFloat.
Import DB Authz Usage Api Admin Authzhash RateLimit GoFloat Metrics MetricsFacts Backend Operations BackendMetrics.

Module Scrape.

(** ** Counters *)

(** Two goroutines increment; the first is overtaken and retries. *)
Definition one : float64 := of_int 1.
Lemma add_atomic_witness : exists paid, of_int 2 = foldl fadd fzero paid /\ paid ≡ₚ [one; one].
Proof.
  destruct (add_atomic fzero [one; one] 6 (of_int 2) [ad_done; ad_done]) as (_ & H & _).
  - eapply nsteps_l; [apply (step_load _ _ 0); reflexivity|]. eapply nsteps_l; [apply (step_load _ _ 1); reflexivity|].
    eapply nsteps_l; [apply (step_swap _ _ 1); reflexivity|].
    eapply nsteps_l; [eapply (step_retry _ _ 0); [reflexivity|vm_compute; discriminate]|].
    eapply nsteps_l; [apply (step_load _ _ 0); reflexivity|].
    eapply nsteps_l; [apply (step_swap _ _ 0); reflexivity|].
    replace (fadd (fadd fzero one) one) with (of_int 2) by (vm_compute; reflexivity). apply nsteps_O.
  - apply H. repeat constructor.
Defined.

(** ** The text *)

Definition events : list (gostr * gostr) := [(bs "InvoiceSettled", bs "ok"); (bs "a\b", [34; 10]); (bs "InvoiceSettled", bs "ok")].

Example events_text : ServeHTTP (deliveries events) [] =
  line (bs "# HELP fipsexit_webhook_events_total BTCPay webhook deliveries processed, by event type and result") ++
  line (bs "# TYPE fipsexit_webhook_events_total counter") ++
  line (bs "fipsexit_webhook_events_total{result=" ++ [34] ++ bs "ok" ++ [34] ++ bs ",type=" ++ [34] ++ bs "InvoiceSettled" ++ [34] ++ bs "} 2") ++
  line (bs "fipsexit_webhook_events_total{result=" ++ [34; 92; 34; 92; 110; 34] ++ bs ",type=" ++ [34] ++ bs "a\\b" ++ [34] ++ bs "} 1").
Proof. vm_compute. reflexivity. Qed.

(** A second node enrolls under the name of the first. *)
Definition issue2 : endpoint := ep_admin ad_enroll_token [7; 8; 9] (Some (Json.jobj [])).
Definition token_in (a : answer_of) : gostr := match a with an_admin (Body (ans_token t)) => t | _ => [] end.
Definition token2 : gostr := token_in (serve1 operator issue2 (history1 first_day start)).1.
Definition enrolls2 : endpoint :=
  ep_enroll (Some {| er_EnrollToken := token2; er_NodePubkey := bs "pk2"; er_Name := bs "gate" |}) [10; 11; 12].
Definition two_nodes : db :=
  store_of (history1 (first_day ++ [ev_request operator issue2; ev_request (plain []) enrolls2]) start).

Definition scraped : reply gostr := serveMetrics (deliveries events) (bs "secret") (bs "Bearer secret") (runtimeSamples 5 1000 2) two_nodes.

Lemma scrape_truthful_witness : exists text, scraped = Body text /\
  exists es1 es2, read_text text = Some (es1 ++ es2) /\
    e_sample webhook_metric [(bs "result", bs "ok"); (bs "type", bs "InvoiceSettled")] (bs "2") ∈ es1.
Proof.
  destruct scraped as [|text|status] eqn:Et; [discriminate Et| |discriminate Et]. exists text. split; [reflexivity|].
  destruct (scrape_truthful (bs "secret") (bs "Bearer secret") (runtimeSamples 5 1000 2) events two_nodes text) as (_ & es1 & es2 & E & _ & H & _).
  - repeat (apply Forall_cons_2; [split; [|split; [constructor|apply printable_bs; reflexivity]]|]); [| | |constructor];
      (split; [discriminate|apply Forall_forall; intros c Hc; apply list_elem_of_In in Hc; revert c Hc; apply forallb_forall; reflexivity]).
  - exact Et.
  - exists es1, es2. split; [exact E|]. apply H. split; [reflexivity|]. exists (bs "InvoiceSettled", bs "ok").
    split; [left|]. split; [reflexivity|]. vm_compute. reflexivity.
Defined.

(** ** Findings *)

(** Both nodes are one series: the text has it twice. *)
Lemma node_series_twice :
  map (fun s => (sa_Name s, sa_Labels s)) (filter (fun s => sa_Labels s = [bs "node"; bs "gate"]) (storeSamples (MetricsSnapshot two_nodes).1)) =
  [(bs "fipsexit_exit_node_last_seen_seconds", [bs "node"; bs "gate"]); (bs "fipsexit_exit_node_last_seen_seconds", [bs "node"; bs "gate"])].
Proof. vm_compute. reflexivity. Qed.

(** Bytes metered for an address without an account count until retention drops them:
    the counter of all bytes ingested goes down. *)
Definition stray : ReportInput :=
  {| ri_ReportID := bs "r1"; ri_CounterEpoch := bs "e"; ri_WindowEnd := db_now two_nodes;
     ri_Samples := [{| sp_Service := bs "clearnet"; sp_Addr := Addr6 1 []; sp_Bytes := 1000 |}] |}.
Definition first_node (d : db) : Z := match db_nodes d with n :: _ => nd_id n | [] => 0 end.
Definition reported : db := (IngestUsage (first_node two_nodes) stray two_nodes).2.
Definition aged : db := retention_tick site (set_now (db_now two_nodes + 91 * BackendUsage.Usage.day_ns) reported).

Definition total_shown (d : db) : option Z := match (MetricsSnapshot d).1 with Ok m => Some (ms_UsageBytesTotal m) | Err _ => None end.

Lemma usage_counter_drops : total_shown reported = Some 1000 /\ total_shown aged = Some 0.
Proof. split; vm_compute; reflexivity. Qed.

End Scrape.
